(* ===== verification/_CoqProject ===== *)
-Q . S2P
Prelude.v
State.v
Bytes.v
CString.v
Sched.v
Bio.v
Log.v
Txn.v
Fs.v
Blk.v
Balloc.v
Inode.v
Content.v
Rdwr.v
Dir.v
Kalloc.v
Vm.v
Uvm.v
Copyuvm.v
Pipe.v
File.v
Proc.v
Fork.v
Wait.v
Print.v
Console.v
Tty.v
Syscall.v
Exec.v
Sysfile.v
Trap.v
Seg.v
Irq.v
Uart.v
Sh.v
Parse.v
Grammar.v
Unix.v
Grep.v
Progs.v
Shell.v
Spin.v
Kbd.v
LinkedList.v
Arrays.v
Matrix.v
Integrate.v
Children.v
Queries.v
Umalloc.v
Mkfs.v
Image.v
Link.v
Trunc.v
Ide.v
Boot.v
Mp.v
Cmos.v
