(* ===== verification/Prelude.v ===== *)
(** Verification of the ENCE360 repository: the xv6 operating system of [src/lab10xv6/xv6], its kernel and its user
    programs, and the algorithmic parts of the other labs and of the assignment.

    * What the program is

    xv6 is a small Unix.  Its kernel is in layers, each of which calls those before it: locks and sleeping
    ([spinlock.c], [sleeplock.c], [proc.c]); the buffer cache on a disk driver ([bio.c], [memide.c]); the write-ahead log
    ([log.c]); the file system ([fs.c]); open files and pipes ([file.c], [pipe.c]); memory ([kalloc.c],
    [vm.c]); processes ([proc.c], [exec.c]); the console ([console.c], [kbd.c]); and system calls and traps ([syscall.c],
    [sysfile.c], [sysproc.c], [trap.c]).  Below them are the boot loader ([bootmain.c]) and the code that finds and
    sets up processors and devices ([mp.c], [lapic.c], [ioapic.c], [uart.c]).  The user programs run on the system calls ([user.h], [ulib.c], [printf.c]);
    the shell ([sh.c]) and [grep.c] are the ones with logic of their own.

    * How it is modelled

    Kernel code is a function in the monad [M] below on the record [State.kstate], whose fields are the kernel's
    global variables.  A run returns, panics, puts its process to sleep ([Sleeping]) or, when a loop has too little
    fuel, is [Stuck]; the theorems that a call returns show that its fuel is enough.  Objects that the C code names by
    address (buffers, inodes, files, processes) are indices into their tables, so that what the code shares is shared
    in the model; kernel and user memory, page tables and the free list are bytes in one map from addresses
    ([Bytes], [Kalloc], [Vm]).  Machine integers are [Z] with the wrap-around written out ([u32], [i32], ...).
    The state is that of one processor.  A process that sleeps ends its run; what follows the wakeup is a definition of
    its own where the order of events matters ([Pipe], [Console], [Proc]).  Interleavings are modelled where
    they carry the argument: of file-system calls ([Txn]), of the two ends of a pipe ([Pipe]), of interrupts and readers
    ([Tty]), of processors ([Spin]), of signals ([Children]) and of processes with their threads ([Queries]).

    * The files

    - [Prelude]: integers, record update, the monad, its loops and the rules [wp] and [safe] for it;
      [State]: data and global variables; [Bytes]: memory and little-endian words; [CString]: [string.c], [ulib.c].
    - [Sched]: [acquire], [release], [sleep], [wakeup], sleep locks; [Spin]: spin locks on several processors.
    - [Bio]: buffer cache and disk; [Log]: the log, crashes and recovery; [Txn]: concurrent calls and the
      reservation of log space; [Blk]: what these three promise to the file system inside a transaction ([tx]).
    - [Fs]: all of [fs.c]; its theorems, against [Blk], are in [Balloc] (bitmap), [Inode] (inode cache
      and format), [Content] and [Rdwr] (contents), [Dir] and [Link] (names and directories),
      [Trunc] (the end of a file).
    - [Kalloc]: pages; [Vm]: page tables; [Uvm], [Copyuvm]: the memory of processes; [Pipe]; [File]; [Proc]: processes and the scheduler;
      [Fork], [Wait]: the life of a child; [Print]: numbers and formats; [Console], [Tty]: the console and the line editor it implements; [Kbd]: scan codes.
    - [Syscall], [Exec], [Sysfile], [Trap]: system calls, [exec] and traps.
    - [Boot]: the boot loader; [Mp]: the tables that describe the processors; [Seg]: segments, the task state and gates;
      [Irq]: the interrupt controllers; [Uart]: the serial port, and the interrupts as start-up sets them up; [Cmos]: the time of day.
    - [Mkfs]: the program that makes the first disk image; [Image]: its root directory, read by the kernel.
    - [Ide]: the disk driver with its queue and its interrupts.
    - [Sh], [Parse], [Grammar]: the shell's parser, its termination and its grammar; [Shell]: running commands.
    - [Unix]: the system calls as a class that programs are written against; [Grep]; [Progs]: the other programs;
      [Umalloc]: the user memory allocator.
    - [LinkedList], [Arrays], [Matrix]: labs 1, 5 and 8; [Integrate], [Children]: the assignment;
      [Queries]: its [processThread.c] as a whole.

    * What is shown

    - Storage: a commit that crashes after any of its writes is all or nothing after recovery
      ([Log.commit_crash_atomic]); log space cannot run out under a big enough log, and does under the one
      that [mkfs.c] makes ([Txn]); the image that [mkfs] makes is well formed, holds the files and leads to them
      ([Mkfs], [Image]); the disk driver serves its requests in order, and whole as long as none is for a bad sector ([Ide]); the cache is coherent and write-through ([Bio]); allocation, inodes, [readi], [writei],
      directories and the removal of files do what they should on the block contents ([Balloc], [Inode], [Rdwr], [Dir], [Link], [Trunc]).
    - Concurrency: pipes are FIFO, lose nothing and do not deadlock ([Pipe.pipe_fifo]); spin locks exclude each other
      ([Spin]); the scheduler is fair ([Proc]); a child's death wakes its parent, which gets its status and its memory back
      ([Wait.fork_exit_wait]); the assignment's parent keeps its bound on children ([Children]), and its processes and threads answer
      every query once, with the sum of the areas of all its parts in the program's own double operations, in runs that all end ([Queries]).
    - Refinement of abstract specifications: the console's ring is a line editor ([Tty]); the shell reads every
      line of a grammar ([Grammar]); [grep] decides the meaning of its patterns ([Grep]); [wc] and [merge] equal reference definitions ([Progs], [Arrays]),
      and so does the threaded integration in exact arithmetic ([Integrate]).
    - Memory: [kalloc], [mappages], [memmove], [memset] ([Kalloc], [Vm], [CString]) and [malloc], which fails only when no memory is to be had ([Umalloc]); growing, shrinking and
      copying a process's memory neither loses nor shares a page ([Uvm], [Copyuvm]); [fork] makes a copy of its caller or
      gives everything back ([Fork]).
    - Start-up and devices: the kernel is loaded as its ELF image says ([Boot]), the processors are found ([Mp]), user code is confined
      to its segments, gates and ports ([Seg]), interrupts go where they should and nowhere else, the serial
      port sends all that is printed and nothing else, and loses and reorders nothing ([Uart]), and the time read is the time of one instant ([Cmos]).

    * Parameters and bounds

    Code outside the repository is a parameter with documented behaviour: the linker's symbols ([Kalloc.Linker],
    [Proc.Kernel_image]), the table of device functions ([Fs.Devsw]), the C library's [malloc], [qsort], [exp] and doubles
    ([LinkedList.Allocator], [Arrays.Qsort], [Integrate.Libm], [Matrix.Double]), and, for user programs, the system calls
    ([Unix.Unix], [Unix.Streams], [Shell.Descriptors]); each is instantiated where a theorem about it is applied.
    Devices are classes with the laws of their registers and a simulated device as an instance: the disk controller of [Ide], which [Boot]
    reads too ([Controller]), the interrupt controllers ([Irq.Apics_laws]), the serial port ([Uart.Line_laws]) and the clock ([Cmos.Clock_laws]);
    loops that wait for a device take fuel that their laws bound.  Two laws say what the driver relies on without a check: the disk
    takes the data of a write at once after the command ([idestart] does not wait), and the clock reports an update long enough before it
    for all the registers to be read.
    Loops over tables have one more unit of fuel than the table has entries; loops over a transfer of [n] bytes have
    [n / BSIZE + 3], one more than the blocks that [n] bytes can touch; the parser has four units for each character,
    one for each of its functions.  Loops that only the system can end ([cat], [grep], [sh], [init]) take
    their fuel as an argument.

    * What is not modelled

    The code in assembly ([bootasm.S], [entry.S], [swtch.S], [trapasm.S]) and, of [main.c], the order of the calls and
    [startothers], which hands the other processors to that code.  [usertests.c] tests the kernel.  The buffer cache runs on [memide.c], the driver of the
    kernel image that is modelled; [Ide] has a state of its own.  The demonstrations of labs 2, 3, 6 and 8 mostly call
    the operating system or MPI.
    Small parts of modelled functions that the state of their component has no place for: the check of the interrupt flag and the saving of
    [intena] in [sched] ([Spin] has both flags); the messages that [allocuvm] and [iinit] print; [initlock] where it only names a lock; the
    loop that stops the other processors after a [panic]; the busy mark of the task state segment after [ltr].  The output of the console is a
    list of codes in [kstate]; [Uart.echo] hands it on to the serial port.
    What a process does between a wakeup and the end of its call is modelled for pipes, the console, [wait],
    [sleep], [sched] and [yield]; the composite calls of [Sysfile] end with their first sleep. *)
From stdpp Require Export base list list_numbers gmap strings sorting.
From Stdlib Require Export ZArith Lia.

#[export] Set Default Goal Selector "!".
Open Scope Z_scope.

(** Proves a decidable proposition about closed terms by running its decision procedure. *)
Ltac by_decide := match goal with |- ?P => exact (bool_decide_eq_true_1 P ltac:(by vm_compute)) end.

(** * Machine integers *)

(** Linear arithmetic with division and remainder by constants. *)
Ltac zlia := Z.div_mod_to_equations; lia.

Definition u8 (x : Z) : Z := x mod 256.
Definition u16 (x : Z) : Z := x mod 65536.
Definition u32 (x : Z) : Z := x mod 4294967296.
Definition i16 (x : Z) : Z := (x + 32768) mod 65536 - 32768.
Definition i32 (x : Z) : Z := (x + 2147483648) mod 4294967296 - 2147483648.
Lemma i32_small x : -2147483648 ≤ x < 2147483648 → i32 x = x.
Proof. unfold i32. zlia. Qed.

(** * Record update: [r <| field := v |>] *)

(** [Updatable R] names the fields of a record; the setter of a field is computed
    from it by abstracting that field's projection. *)
Class Updatable (R : Type) := rebuild : R → R.
Class Setter {R T : Type} (field : R → T) := over : (T → T) → R → R.
Arguments over {R T} field {_} f r.

Ltac build_setter field :=
  let h := fresh "h" in
  let r := fresh "r" in
  intros h r;
  let whole := eval hnf in (rebuild r) in
  match eval pattern (field r) in whole with
  | ?g _ => let t := eval cbv beta in (g (h (field r))) in exact t
  end.
#[export] Hint Extern 1 (Setter ?field) => build_setter field : typeclass_instances.

Notation "r <| field := v |>" := (over field (λ _, v) r)
  (at level 1, left associativity, format "r <| field  :=  v |>").
Notation "r <| field ::= f |>" := (over field f r)
  (at level 1, left associativity, format "r <| field  ::=  f |>").

(** * Outcomes and the state monad *)

(** What a run of kernel code can do: return a value, call [panic], put the
    calling process to sleep (the rest of the call runs after a wakeup), or, for
    a loop given too little fuel, get stuck. *)
Inductive outcome (S A : Type) : Type :=
  | Ok (a : A) (s : S)
  | Panic (msg : string)
  | Sleeping (s : S)
  | Stuck.
Arguments Ok {S A} a s.
Arguments Panic {S A} msg.
Arguments Sleeping {S A} s.
Arguments Stuck {S A}.

Definition M (S A : Type) : Type := S → outcome S A.

#[global] Instance M_ret {S} : MRet (M S) := λ A a s, Ok a s.
#[global] Instance M_bind {S} : MBind (M S) := λ A B k m s,
  match m s with
  | Ok a s' => k a s'
  | Panic msg => Panic msg
  | Sleeping s' => Sleeping s'
  | Stuck => Stuck
  end.

Definition get {S} : M S S := λ s, Ok s s.
Definition gets {S A} (f : S → A) : M S A := λ s, Ok (f s) s.
Definition modify {S} (f : S → S) : M S unit := λ s, Ok tt (f s).
Definition panic {S A} (msg : string) : M S A := λ _, Panic msg.

(** The loop combinator: [body] maps the loop variables either to new ones
    ([inl], next iteration) or to the loop's result ([inr]). *)
Fixpoint iterM {S X R} (fuel : nat) (body : X → M S (X + R)) (x : X) : M S R :=
  match fuel with
  | O => λ _, Stuck
  | Datatypes.S n =>
      r ← body x;
      match r with inl x' => iterM n body x' | inr r => mret r end
  end.

(** [body i], [body (i + 1)], ..., [n] times. *)
Fixpoint for_range {S} (i : Z) (n : nat) (body : Z → M S unit) : M S unit :=
  match n with
  | O => mret tt
  | Datatypes.S n => body i;; for_range (i + 1) n body
  end.

(** Running a bind whose first part is known. *)
Section bind.
Context {S A B : Type}.
Lemma bind_ok (m : M S A) (k : A → M S B) s a s' : m s = Ok a s' → (m ≫= k) s = k a s'.
Proof. unfold mbind, M_bind. by intros ->. Qed.
Lemma bind_panic (m : M S A) (k : A → M S B) s msg : m s = Panic msg → (m ≫= k) s = Panic msg.
Proof. unfold mbind, M_bind. by intros ->. Qed.
Lemma bind_sleeping (m : M S A) (k : A → M S B) s s' : m s = Sleeping s' → (m ≫= k) s = Sleeping s'.
Proof. unfold mbind, M_bind. by intros ->. Qed.
Lemma bind_mret (a : A) (k : A → M S B) s : (mret a ≫= k) s = k a s.
Proof. done. Qed.
Lemma bind_get (k : S → M S B) s : (get ≫= k) s = k s s.
Proof. done. Qed.
Lemma bind_gets (f : S → A) (k : A → M S B) s : (gets f ≫= k) s = k (f s) s.
Proof. done. Qed.
Lemma bind_modify (f : S → S) (k : unit → M S B) s : (modify f ≫= k) s = k tt (f s).
Proof. done. Qed.
Lemma bind_assoc {C} (m : M S A) (k : A → M S B) (k' : B → M S C) s :
  ((m ≫= k) ≫= k') s = (m ≫= λ a, k a ≫= k') s.
Proof. unfold mbind, M_bind. by destruct (m s). Qed.
End bind.

(** [mstep] runs the next primitive; [mstep_with H] uses the equation [H]. *)
Ltac mstep :=
  first [ rewrite bind_get | rewrite bind_gets | rewrite bind_modify
        | rewrite bind_mret | rewrite bind_assoc ]; cbv beta.
Ltac mstep_with H := rewrite (bind_ok _ _ _ _ _ H); cbv beta.

Lemma iterM_S {S X R} n (body : X → M S (X + R)) x :
  iterM (Datatypes.S n) body x =
    (r ← body x; match r with inl x' => iterM n body x' | inr r => mret r end).
Proof. done. Qed.
Lemma iterM_inl {S X R} n (body : X → M S (X + R)) x s x' s' :
  body x s = Ok (inl x') s' → iterM (Datatypes.S n) body x s = iterM n body x' s'.
Proof. intros E. rewrite iterM_S. by rewrite (bind_ok _ _ _ _ _ E). Qed.
Lemma iterM_inr {S X R} n (body : X → M S (X + R)) x s r s' :
  body x s = Ok (inr r) s' → iterM (Datatypes.S n) body x s = Ok r s'.
Proof. intros E. rewrite iterM_S. by rewrite (bind_ok _ _ _ _ _ E). Qed.
Arguments iterM : simpl never.
Arguments mbind {M _ A B} f m : simpl never.
Arguments mret {M _ A} x : simpl never.

(** * Total correctness: the run returns and the result satisfies [Q] *)
Definition wp {S A} (m : M S A) (s : S) (Q : A → S → Prop) : Prop :=
  match m s with Ok a s' => Q a s' | _ => False end.

Section wp.
Context {S : Type}.
Implicit Types s : S.

Lemma wp_ret {A} (a : A) s (Q : A → S → Prop) : Q a s → wp (mret a) s Q.
Proof. done. Qed.
Lemma wp_bind {A B} (m : M S A) (k : A → M S B) s Q :
  wp m s (λ a s', wp (k a) s' Q) → wp (m ≫= k) s Q.
Proof. unfold wp, mbind, M_bind. by destruct (m s). Qed.
Lemma wp_get s (Q : S → S → Prop) : Q s s → wp get s Q.
Proof. done. Qed.
Lemma wp_gets {A} (f : S → A) s (Q : A → S → Prop) : Q (f s) s → wp (gets f) s Q.
Proof. done. Qed.
Lemma wp_modify (f : S → S) s (Q : unit → S → Prop) : Q tt (f s) → wp (modify f) s Q.
Proof. done. Qed.
Lemma wp_mono {A} (m : M S A) s (P Q : A → S → Prop) :
  wp m s P → (∀ a s', P a s' → Q a s') → wp m s Q.
Proof. unfold wp. destruct (m s); naive_solver. Qed.
Lemma wp_intro {A} (m : M S A) s a s' (Q : A → S → Prop) :
  m s = Ok a s' → Q a s' → wp m s Q.
Proof. unfold wp. by intros ->. Qed.
Lemma wp_elim {A} (m : M S A) s (Q : A → S → Prop) :
  wp m s Q → ∃ a s', m s = Ok a s' ∧ Q a s'.
Proof. unfold wp. destruct (m s); naive_solver. Qed.

(** The loop rule: [I n] holds before an iteration that has [n] units of fuel
    left, and no iteration starts without fuel. *)
Lemma wp_iterM {X R} (I : nat → X → S → Prop) (body : X → M S (X + R)) fuel x s Q :
  I fuel x s →
  (∀ x s, ¬ I O x s) →
  (∀ n x s, I (Datatypes.S n) x s →
     wp (body x) s (λ r s', match r with inl x' => I n x' s' | inr r => Q r s' end)) →
  wp (iterM fuel body x) s Q.
Proof.
  intros Hi H0 Hstep. revert x s Hi. induction fuel as [|n IH]; intros x s Hi.
  { by destruct (H0 x s). }
  rewrite iterM_S. apply wp_bind. eapply wp_mono; [by apply Hstep|].
  intros [x'|r] s'; [apply IH|done].
Qed.

(** The rule for counted loops: [J m] holds when [m] turns are done. *)
Lemma wp_for_range (J : nat → S → Prop) (body : Z → M S unit) i n s (Q : unit → S → Prop) :
  J 0%nat s → (∀ m s', (m < n)%nat → J m s' → wp (body (i + Z.of_nat m)) s' (λ _ s2, J (Datatypes.S m) s2)) → (∀ s', J n s' → Q tt s') →
  wp (for_range i n body) s Q.
Proof.
  revert J i s. induction n as [|n IH]; intros J i s H0 Hs HQ; cbn [for_range]; [apply wp_ret; by apply HQ|].
  apply wp_bind. eapply wp_mono; [specialize (Hs 0%nat s ltac:(lia) H0); rewrite Z.add_0_r in Hs; exact Hs|]. intros [] s1 H1.
  apply (IH (λ m, J (Datatypes.S m))); [done| |done]. intros m s' Hm HJ. replace (i + 1 + Z.of_nat m) with (i + Z.of_nat (Datatypes.S m)) by lia.
  apply Hs; [lia|done].
Qed.
End wp.

(** [wps] runs the primitives at the head of the program. *)
Ltac wps :=
  repeat (lazymatch goal with
    | |- wp (_ ≫= _) _ _ => apply wp_bind
    | |- wp (mret _) _ _ => apply wp_ret
    | |- wp get _ _ => apply wp_get
    | |- wp (gets _) _ _ => apply wp_gets
    | |- wp (modify _) _ _ => apply wp_modify
    end; cbv beta).

(** * Safety: the run ends, by returning with [Q] or by a call of [panic] *)
Definition safe {S A} (m : M S A) (s : S) (Q : A → S → Prop) : Prop :=
  match m s with Ok a s' => Q a s' | Panic _ => True | _ => False end.

Section safe.
Context {S : Type}.
Implicit Types s : S.

Lemma safe_ret {A} (a : A) s (Q : A → S → Prop) : Q a s → safe (mret a) s Q.
Proof. done. Qed.
Lemma safe_panic {A} msg s (Q : A → S → Prop) : safe (panic msg) s Q.
Proof. done. Qed.
Lemma safe_bind {A B} (m : M S A) (k : A → M S B) s P Q :
  safe m s P → (∀ a s', P a s' → safe (k a) s' Q) → safe (m ≫= k) s Q.
Proof. unfold safe, mbind, M_bind. destruct (m s); naive_solver. Qed.
Lemma safe_mono {A} (m : M S A) s (P Q : A → S → Prop) :
  safe m s P → (∀ a s', P a s' → Q a s') → safe m s Q.
Proof. unfold safe. destruct (m s); naive_solver. Qed.
(** The loop rule, for a measure that every turn of the loop decreases. *)
Lemma safe_iterM {X R} (I : X → S → Prop) (size : X → S → nat) (body : X → M S (X + R)) fuel x s Q :
  I x s → (size x s < fuel)%nat →
  (∀ x s, I x s → safe (body x) s (λ r s',
     match r with inl x' => I x' s' ∧ (size x' s' < size x s)%nat | inr r => Q r s' end)) →
  safe (iterM fuel body x) s Q.
Proof.
  intros Hi Hf Hstep. revert x s Hi Hf. induction fuel as [|n IH]; intros x s Hi Hf; [lia|].
  rewrite iterM_S. eapply safe_bind; [by apply Hstep|].
  intros [x'|r] s'; [intros [??]; apply IH; [done|lia]|done].
Qed.
End safe.

(** * Frames: code that leaves a part of the state alone *)

(** [keeps f m]: a run of [m] that returns leaves [f s] as it was. *)
Definition keeps {S X A} (f : S → X) (m : M S A) : Prop :=
  ∀ s a s', m s = Ok a s' → f s' = f s.

Section keeps.
Context {S X : Type} (f : S → X).

Lemma keeps_ret {A} (a : A) : keeps f (mret a).
Proof. by intros s a' s' [= _ <-]. Qed.
Lemma keeps_bind {A B} (m : M S A) (k : A → M S B) :
  keeps f m → (∀ a, keeps f (k a)) → keeps f (m ≫= k).
Proof.
  intros Hm Hk s b s'. unfold mbind, M_bind. destruct (m s) as [a s1| | |] eqn:E; try done.
  intros E'. rewrite (Hk _ _ _ _ E'). by apply (Hm s a).
Qed.
Lemma keeps_get : keeps f (get (S:=S)).
Proof. by intros s a' s' [= _ <-]. Qed.
Lemma keeps_gets {A} (g : S → A) : keeps f (gets g).
Proof. by intros s a' s' [= _ <-]. Qed.
Lemma keeps_modify g : (∀ s, f (g s) = f s) → keeps f (modify g).
Proof. intros Hg s a s' [= _ <-]. apply Hg. Qed.
Lemma keeps_panic {A} msg : keeps (A:=A) f (panic msg).
Proof. by intros s a s'. Qed.
Lemma keeps_iterM {Y R} n (body : Y → M S (Y + R)) y :
  (∀ y, keeps f (body y)) → keeps f (iterM n body y).
Proof.
  intros Hb. revert y. induction n as [|n IH]; intros y; [by intros ???|].
  rewrite iterM_S. apply keeps_bind; [apply Hb|]. intros [y'|r]; [apply IH|apply keeps_ret].
Qed.
End keeps.

Create HintDb keeps.
#[export] Hint Resolve keeps_ret keeps_get keeps_gets keeps_panic : keeps.
#[export] Hint Extern 1 (keeps _ (modify _)) => apply keeps_modify; intros; reflexivity : keeps.

(** Unfolds and decomposes an operation down to the state updates. *)
Ltac keeps_tac :=
  repeat first
    [ solve [auto with keeps nocore]
    | match goal with
      | |- keeps _ (mret _) => apply keeps_ret
      | |- keeps _ (_ ≫= _) => apply keeps_bind; [|intros]
      | |- keeps _ (iterM _ _ _) => apply keeps_iterM; intros
      | |- keeps _ (if ?b then _ else _) => destruct b
      | |- keeps _ (match ?x with _ => _ end) => destruct x
      | |- keeps _ (λ _, Sleeping _) => by intros ???
      | |- keeps _ (λ _, Stuck) => by intros ???
      | |- keeps _ (let _ := _ in _) => cbv zeta
      | |- keeps _ ?m => let h := get_head m in unfold h
      end ].

(** * Lists *)
Lemma alter_lookup {A} (f : A → A) (l : list A) i x :
  l !! i = Some x → alter f i l = <[i := f x]> l.
Proof.
  intros Hx. apply list_eq. intros j. destruct (decide (i = j)) as [<-|].
  - rewrite list_lookup_alter_eq, Hx, list_lookup_insert_eq; [done|].
    by eapply lookup_lt_Some.
  - by rewrite list_lookup_alter_ne, list_lookup_insert_ne.
Qed.

(** * Loops that search an array *)

(** A loop that passes over the entries without [P], leaving the state alone, comes to the
    first entry with [P], or to the end. *)
Lemma iterM_find {S X R} (P : X → Prop) `{∀ x, Decision (P x)} (l : list X) (body : nat → M S (nat + R)) (s : S) :
  (∀ i x, l !! i = Some x → ¬ P x → body i s = Ok (inl (Datatypes.S i)) s) →
  ∀ m i fuel, (i + m = length l)%nat → (m < fuel)%nat →
  ∃ fuel', iterM fuel body i s =
    iterM (Datatypes.S fuel') body (match list_find P (drop i l) with Some (k, _) => i + k | None => length l end)%nat s.
Proof.
  intros Hb. induction m as [|m IH]; intros i fuel Hi Hf; (destruct fuel as [|fuel]; [lia|]).
  - exists fuel. rewrite drop_ge by lia. simpl. do 2 f_equal. lia.
  - destruct (lookup_lt_is_Some_2 l i) as [x Hx]; [lia|]. rewrite (drop_S _ x) by done. simpl.
    case_decide as Hp; [exists fuel; by rewrite Nat.add_0_r|].
    rewrite (iterM_inl _ _ _ _ _ _ (Hb i x Hx Hp)). destruct (IH (Datatypes.S i) fuel) as [fuel' ->]; [lia|lia|].
    exists fuel'. destruct (list_find P (drop (Datatypes.S i) l)) as [[k y]|]; simpl; [|done].
    by rewrite Nat.add_succ_r.
Qed.

(** The first entry with [P], whatever comes before it. *)
Lemma list_find_drop {X} (P : X → Prop) `{∀ x, Decision (P x)} (l : list X) i k x :
  list_find P (drop i l) = Some (k, x) → l !! (i + k)%nat = Some x ∧ P x ∧ ∀ j y, (i ≤ j < i + k)%nat → l !! j = Some y → ¬ P y.
Proof.
  intros (Hx & Hp & Hn)%list_find_Some. rewrite lookup_drop in Hx. split_and!; [done|done|].
  intros j y Hj Hy. apply (Hn (j - i)%nat y); [|lia]. rewrite lookup_drop. by replace (i + (j - i))%nat with j by lia.
Qed.
Lemma list_find_drop_None {X} (P : X → Prop) `{∀ x, Decision (P x)} (l : list X) i j y :
  list_find P (drop i l) = None → (i ≤ j)%nat → l !! j = Some y → ¬ P y.
Proof.
  intros Hn%list_find_None Hj Hy. rewrite Forall_forall in Hn. apply Hn.
  apply (list_elem_of_lookup_2 _ (j - i)). rewrite lookup_drop. by replace (i + (j - i))%nat with j by lia.
Qed.
