(* ===== verification/State.v ===== *)
(** The kernel's data, as the headers declare it: [buf.h], [file.h], [fs.h],
    [proc.h], [sleeplock.h], [log.c], [pipe.c], [kalloc.c], and the state the kernel keeps in
    its global variables, gathered in the record [kstate].  Locks and channels,
    which the C code names by address, are the values of [lockid] and [chan]. *)
From S2P Require Export Prelude.

(** * Constants of param.h, fs.h, buf.h, stat.h *)
Definition NPROC : nat := 64.
Definition NOFILE : nat := 16.
Definition NFILE : nat := 100.
Definition NINODE : nat := 50.
Definition NDEV : Z := 10.
Definition ROOTDEV : Z := 1.
Definition ROOTINO : Z := 1.
Definition MAXOPBLOCKS : Z := 10.
Definition LOGSIZE : Z := MAXOPBLOCKS * 3.
Definition NBUF : nat := 30.
Definition BSIZE : Z := 512.
Definition NDIRECT : Z := 12.
Definition NINDIRECT : Z := 128.
Definition MAXFILE : Z := NDIRECT + NINDIRECT.
Definition DIRSIZ : nat := 14.
Definition IPB : Z := 8.
Definition BPB : Z := BSIZE * 8.
Definition B_VALID : Z := 2.
Definition B_DIRTY : Z := 4.
Definition T_DIR : Z := 1.
Definition T_FILE : Z := 2.
Definition T_DEV : Z := 3.

(** * Locks and sleep channels *)

(** The sleep locks of the kernel: one per buffer and one per cached inode. *)
Inductive slref := SBuf (i : nat) | SInode (i : nat).
#[export] Instance slref_eq_dec : EqDecision slref.
Proof. solve_decision. Defined.

Inductive lockid :=
  | LBcache | LIcache | LFtable | LLog | LPtable | LKmem | LTicks | LCons
  | LPipe (p : Z) | LSleep (r : slref).
#[export] Instance lockid_eq_dec : EqDecision lockid.
Proof. solve_decision. Defined.

(** What a process can sleep on: the addresses passed to [sleep]/[wakeup]. *)
Inductive chan :=
  | ChSleep (r : slref) | ChLog | ChPipeRead (p : Z) | ChPipeWrite (p : Z)
  | ChProc (i : nat) | ChTicks | ChCons.
#[export] Instance chan_eq_dec : EqDecision chan.
Proof. solve_decision. Defined.

Record sleeplock := mk_sleeplock { sl_locked : bool; sl_pid : Z }.
#[export] Instance upd_sleeplock : Updatable sleeplock :=
  λ r, mk_sleeplock (sl_locked r) (sl_pid r).

(** * Buffer cache (buf.h, bio.c) and disk *)

Definition block : Type := list Z.

Record buf := mk_buf {
  b_flags : Z;
  b_dev : Z;
  b_blockno : Z;
  b_lock : sleeplock;
  b_refcnt : Z;
  b_prev : nat;
  b_next : nat;
  b_data : block }.
#[export] Instance upd_buf : Updatable buf :=
  λ r, mk_buf (b_flags r) (b_dev r) (b_blockno r) (b_lock r) (b_refcnt r)
              (b_prev r) (b_next r) (b_data r).

(** The disk is the image it was attached with and the block writes it has
    performed since, oldest first; a block write is atomic.  A crash after the
    [k]-th write leaves the first [k] of them. *)
Record disk := mk_disk { d_image : list block; d_writes : list (Z * block) }.
#[export] Instance upd_disk : Updatable disk :=
  λ r, mk_disk (d_image r) (d_writes r).

(** * Log (log.c) *)
Record logheader := mk_logheader { lh_n : Z; lh_block : list Z }.
#[export] Instance upd_logheader : Updatable logheader :=
  λ r, mk_logheader (lh_n r) (lh_block r).

Record log := mk_log {
  l_start : Z;
  l_size : Z;
  l_outstanding : Z;
  l_committing : Z;
  l_dev : Z;
  l_lh : logheader }.
#[export] Instance upd_log : Updatable log :=
  λ r, mk_log (l_start r) (l_size r) (l_outstanding r) (l_committing r)
              (l_dev r) (l_lh r).

(** * File system (fs.h, file.h) *)
Record superblock := mk_superblock {
  sb_size : Z;
  sb_nblocks : Z;
  sb_ninodes : Z;
  sb_nlog : Z;
  sb_logstart : Z;
  sb_inodestart : Z;
  sb_bmapstart : Z }.

Record dinode := mk_dinode {
  di_type : Z;
  di_major : Z;
  di_minor : Z;
  di_nlink : Z;
  di_size : Z;
  di_addrs : list Z }.

Record inode := mk_inode {
  i_dev : Z;
  i_inum : Z;
  i_ref : Z;
  i_lock : sleeplock;
  i_valid : Z;
  i_type : Z;
  i_major : Z;
  i_minor : Z;
  i_nlink : Z;
  i_size : Z;
  i_addrs : list Z }.
#[export] Instance upd_inode : Updatable inode :=
  λ r, mk_inode (i_dev r) (i_inum r) (i_ref r) (i_lock r) (i_valid r)
                (i_type r) (i_major r) (i_minor r) (i_nlink r) (i_size r) (i_addrs r).

Inductive ftype := FD_NONE | FD_PIPE | FD_INODE.
#[export] Instance ftype_eq_dec : EqDecision ftype.
Proof. solve_decision. Defined.

Record file := mk_file {
  f_type : ftype;
  f_ref : Z;
  f_readable : Z;
  f_writable : Z;
  f_pipe : Z;
  f_ip : nat;
  f_off : Z }.
#[export] Instance upd_file : Updatable file :=
  λ r, mk_file (f_type r) (f_ref r) (f_readable r) (f_writable r) (f_pipe r)
               (f_ip r) (f_off r).

(** * Pipes (pipe.c); a pipe occupies a page of its own, whose address names it *)
Definition PIPESIZE : Z := 512.
Record pipe := mk_pipe {
  pi_data : list Z;
  pi_nread : Z;
  pi_nwrite : Z;
  pi_readopen : Z;
  pi_writeopen : Z }.
#[export] Instance upd_pipe : Updatable pipe :=
  λ r, mk_pipe (pi_data r) (pi_nread r) (pi_nwrite r) (pi_readopen r) (pi_writeopen r).

(** * Processes (proc.h) *)
Inductive procstate := UNUSED | EMBRYO | SLEEPING | RUNNABLE | RUNNING | ZOMBIE.
#[export] Instance procstate_eq_dec : EqDecision procstate.
Proof. solve_decision. Defined.

Record proc := mk_proc {
  p_sz : Z;
  p_pgdir : Z;
  p_kstack : Z;
  p_state : procstate;
  p_pid : Z;
  p_parent : option nat;
  p_tf : Z;
  p_context : Z;
  p_chan : option chan;
  p_killed : Z;
  p_ofile : list (option nat);
  p_cwd : option nat;
  p_name : list Z }.
#[export] Instance upd_proc : Updatable proc :=
  λ r, mk_proc (p_sz r) (p_pgdir r) (p_kstack r) (p_state r) (p_pid r) (p_parent r)
               (p_tf r) (p_context r) (p_chan r) (p_killed r) (p_ofile r) (p_cwd r)
               (p_name r).

(** * Physical memory and its allocator (kalloc.c) *)
Record kmem := mk_kmem {
  k_mem : gmap Z Z;           (* bytes by kernel virtual address; absent is 0 *)
  k_freelist : Z;             (* address of the first free page, 0 if none *)
  k_use_lock : bool }.
#[export] Instance upd_kmem : Updatable kmem :=
  λ r, mk_kmem (k_mem r) (k_freelist r) (k_use_lock r).

(** * The console (console.c): the input ring and the characters printed so far, newest first *)
Definition INPUT_BUF : Z := 128.
Record console := mk_console {
  c_buf : list Z;
  c_r : Z;
  c_w : Z;
  c_e : Z;
  c_locking : bool;
  c_out : list Z }.
#[export] Instance upd_console : Updatable console :=
  λ r, mk_console (c_buf r) (c_r r) (c_w r) (c_e r) (c_locking r) (c_out r).

(** * The whole kernel, seen from one CPU *)
Record kstate := mk_kstate {
  held : list lockid;          (* spin locks this CPU holds, innermost first *)
  curproc : option nat;        (* mycpu()->proc *)
  ptable : list proc;
  nextpid : Z;
  initproc : option nat;
  bufs : list buf;             (* bcache.buf, and bcache.head at index NBUF *)
  hdisk : disk;
  lg : log;
  sb : superblock;
  icache : list inode;
  ftable : list file;
  pipes : gmap Z pipe;
  km : kmem;
  cons : console;
  ticks : Z }.
#[export] Instance upd_kstate : Updatable kstate :=
  λ r, mk_kstate (held r) (curproc r) (ptable r) (nextpid r) (initproc r) (bufs r)
                 (hdisk r) (lg r) (sb r) (icache r) (ftable r) (pipes r) (km r)
                 (cons r) (ticks r).

Abbreviation K := (M kstate).

Arguments NBUF : simpl never.
Arguments NINODE : simpl never.
Arguments NFILE : simpl never.
Arguments NPROC : simpl never.

