(* ===== verification/Bytes.v ===== *)
(** Bytes: memory as a map from addresses to bytes, arrays of bytes, and the
    little-endian 16- and 32-bit values kept in them. *)
From S2P Require Export Prelude.

(** * Flat memory *)

(** A byte that was never written reads as 0. *)
Definition ld (m : gmap Z Z) (a : Z) : Z := u8 (default 0 (m !! a)).
Definition st (m : gmap Z Z) (a v : Z) : gmap Z Z := <[a := u8 v]> m.

Definition ld32 (m : gmap Z Z) (a : Z) : Z :=
  ld m a + 256 * ld m (a + 1) + 65536 * ld m (a + 2) + 16777216 * ld m (a + 3).
Definition st32 (m : gmap Z Z) (a v : Z) : gmap Z Z :=
  st (st (st (st m a v) (a + 1) (v / 256)) (a + 2) (v / 65536)) (a + 3) (v / 16777216).

Lemma u8_bound x : 0 ≤ u8 x < 256.
Proof. unfold u8. zlia. Qed.
Lemma u8_idem x : u8 (u8 x) = u8 x.
Proof. unfold u8. zlia. Qed.
Lemma u32_bound x : 0 ≤ u32 x < 4294967296.
Proof. unfold u32. zlia. Qed.
Lemma u32_small x : 0 ≤ x < 4294967296 → u32 x = x.
Proof. unfold u32. zlia. Qed.
Lemma u8_small x : 0 ≤ x < 256 → u8 x = x.
Proof. unfold u8. zlia. Qed.

Lemma ld_bound m a : 0 ≤ ld m a < 256.
Proof. apply u8_bound. Qed.

Lemma ld_st m a v b : ld (st m a v) b = if decide (a = b) then u8 v else ld m b.
Proof.
  unfold ld, st. rewrite lookup_insert. case_decide; [|done]. simpl. apply u8_idem.
Qed.

Lemma ld_st_eq m a v : ld (st m a v) a = u8 v.
Proof. rewrite ld_st. by rewrite decide_True. Qed.
Lemma ld_st_ne m a v b : a ≠ b → ld (st m a v) b = ld m b.
Proof. intros. rewrite ld_st. by rewrite decide_False. Qed.

(** [ld_tac] evaluates loads after stores, address by address. *)
Ltac ld_tac :=
  repeat first [ rewrite ld_st_eq | rewrite ld_st_ne by lia ].

Lemma ld_st32_ne m a v b : ¬ (a ≤ b < a + 4) → ld (st32 m a v) b = ld m b.
Proof. intros. unfold st32. by ld_tac. Qed.

Lemma ld_st32 m a v k : 0 ≤ k < 4 → ld (st32 m a v) (a + k) = u8 (v / 256 ^ k).
Proof.
  intros. assert (k = 0 ∨ k = 1 ∨ k = 2 ∨ k = 3) as [-> | [-> | [-> | ->]]] by lia;
    unfold st32; rewrite ?Z.add_0_r; ld_tac; [|done..].
  change (256 ^ 0) with 1. by rewrite Z.div_1_r.
Qed.

Lemma ld32_st32_eq m a v : ld32 (st32 m a v) a = u32 v.
Proof. unfold ld32, st32. ld_tac. unfold u8, u32. zlia. Qed.

Lemma ld32_st32_ne m a v b :
  b + 4 ≤ a ∨ a + 4 ≤ b → ld32 (st32 m a v) b = ld32 m b.
Proof. intros. unfold ld32. by rewrite !ld_st32_ne by lia. Qed.

Lemma ld32_bound m a : 0 ≤ ld32 m a < 4294967296.
Proof.
  unfold ld32.
  pose proof (ld_bound m a). pose proof (ld_bound m (a + 1)).
  pose proof (ld_bound m (a + 2)). pose proof (ld_bound m (a + 3)). lia.
Qed.

Lemma ld32_ext m m' a : (∀ k, 0 ≤ k < 4 → ld m (a + k) = ld m' (a + k)) → ld32 m a = ld32 m' a.
Proof.
  intros E. unfold ld32. rewrite <- !E by lia.
  pose proof (E 0 ltac:(lia)) as E0. rewrite Z.add_0_r in E0. by rewrite E0.
Qed.

(** The bytes at [a], [a+1], ... *)
Definition ld_range (m : gmap Z Z) (a : Z) (n : nat) : list Z :=
  (λ k, ld m (a + Z.of_nat k)) <$> seq 0 n.
Fixpoint st_range (m : gmap Z Z) (a : Z) (bs : list Z) : gmap Z Z :=
  match bs with [] => m | b :: bs => st_range (st m a b) (a + 1) bs end.

Lemma ld_st_range m bs : ∀ a b, ld (st_range m a bs) b = if decide (a ≤ b < a + Z.of_nat (length bs)) then u8 (bs !!! Z.to_nat (b - a)) else ld m b.
Proof.
  revert m. induction bs as [|x bs IH]; intros m a b; cbn [st_range length]; [by rewrite decide_False by lia|].
  rewrite IH, ld_st. destruct (decide (a = b)) as [->|Hne].
  - rewrite decide_False, decide_True by lia. by rewrite Z.sub_diag.
  - destruct (decide (a + 1 ≤ b < _)); [rewrite decide_True by lia|by rewrite decide_False by lia].
    replace (Z.to_nat (b - a)) with (S (Z.to_nat (b - (a + 1)))) by lia. done.
Qed.

(** * Arrays of bytes *)

Definition byte_at (blk : list Z) (i : Z) : Z := blk !!! Z.to_nat i.

(** [bs] over the bytes of [blk] from offset [off] on; nothing is written past
    the end of the array. *)
Fixpoint splice (blk : list Z) (off : nat) (bs : list Z) : list Z :=
  match bs with [] => blk | b :: bs => splice (<[off := b]> blk) (S off) bs end.

Definition slice (blk : list Z) (off n : nat) : list Z := take n (drop off blk).

Definition get16 (blk : list Z) (off : Z) : Z :=
  byte_at blk off + 256 * byte_at blk (off + 1).
Definition get32 (blk : list Z) (off : Z) : Z :=
  byte_at blk off + 256 * byte_at blk (off + 1)
  + 65536 * byte_at blk (off + 2) + 16777216 * byte_at blk (off + 3).
Definition le16 (v : Z) : list Z := [u8 v; u8 (v / 256)].
Definition le32 (v : Z) : list Z :=
  [u8 v; u8 (v / 256); u8 (v / 65536); u8 (v / 16777216)].
Definition put16 (blk : list Z) (off v : Z) : list Z := splice blk (Z.to_nat off) (le16 v).
Definition put32 (blk : list Z) (off v : Z) : list Z := splice blk (Z.to_nat off) (le32 v).

Lemma length_splice blk off bs : length (splice blk off bs) = length blk.
Proof.
  revert blk off. induction bs as [|b bs IH]; intros; simpl; [done|].
  by rewrite IH, length_insert.
Qed.

Lemma lookup_splice blk off bs i :
  (off + length bs ≤ length blk)%nat →
  splice blk off bs !! i =
    if decide (off ≤ i < off + length bs)%nat then bs !! (i - off)%nat else blk !! i.
Proof.
  revert blk off. induction bs as [|b bs IH]; intros blk off Hl; simpl in *.
  { case_decide; [lia|done]. }
  rewrite IH by (rewrite length_insert; lia).
  destruct (decide (off = i)) as [->|Hne].
  - rewrite decide_False by lia. rewrite decide_True by lia.
    rewrite list_lookup_insert_eq by lia. by rewrite Nat.sub_diag.
  - repeat case_decide; try lia.
    + by replace (i - off)%nat with (S (i - S off)) by lia.
    + by rewrite list_lookup_insert_ne by lia.
Qed.

Lemma byte_at_splice blk off bs i :
  (off + length bs ≤ length blk)%nat → 0 ≤ i →
  byte_at (splice blk off bs) i =
    if decide (Z.of_nat off ≤ i < Z.of_nat off + Z.of_nat (length bs))
    then bs !!! Z.to_nat (i - Z.of_nat off) else byte_at blk i.
Proof.
  intros. unfold byte_at. rewrite !list_lookup_total_alt, lookup_splice by done.
  repeat case_decide; try lia; rewrite ?list_lookup_total_alt.
  by replace (Z.to_nat i - off)%nat with (Z.to_nat (i - Z.of_nat off)) by lia.
Qed.

Lemma slice_splice blk off bs :
  (off + length bs ≤ length blk)%nat → slice (splice blk off bs) off (length bs) = bs.
Proof.
  intros H. unfold slice. apply list_eq. intros i.
  destruct (decide (i < length bs)%nat) as [Hi|Hi].
  - rewrite lookup_take_lt, lookup_drop, lookup_splice by done.
    rewrite decide_True by lia. f_equal. lia.
  - rewrite (lookup_ge_None_2 bs) by lia. apply lookup_ge_None_2.
    rewrite length_take. lia.
Qed.

Lemma length_put32 blk off v : length (put32 blk off v) = length blk.
Proof. apply length_splice. Qed.
Lemma length_put16 blk off v : length (put16 blk off v) = length blk.
Proof. apply length_splice. Qed.

Lemma byte_at_put32_ne blk off v i :
  0 ≤ off → 0 ≤ i → off + 4 ≤ Z.of_nat (length blk) → i < off ∨ off + 4 ≤ i →
  byte_at (put32 blk off v) i = byte_at blk i.
Proof.
  intros. unfold put32. rewrite byte_at_splice by (simpl; lia).
  rewrite decide_False; [done|]. simpl. lia.
Qed.

Lemma get32_put32_eq blk off v :
  0 ≤ off → off + 4 ≤ Z.of_nat (length blk) → get32 (put32 blk off v) off = u32 v.
Proof.
  intros. unfold get32, put32.
  rewrite !byte_at_splice by (simpl; lia).
  rewrite !decide_True by (simpl; lia).
  replace (off - Z.of_nat (Z.to_nat off)) with 0 by lia.
  replace (off + 1 - Z.of_nat (Z.to_nat off)) with 1 by lia.
  replace (off + 2 - Z.of_nat (Z.to_nat off)) with 2 by lia.
  replace (off + 3 - Z.of_nat (Z.to_nat off)) with 3 by lia.
  change (u8 v + 256 * u8 (v / 256) + 65536 * u8 (v / 65536) + 16777216 * u8 (v / 16777216) = u32 v).
  unfold u8, u32. zlia.
Qed.

Lemma get32_put32_ne blk off v o :
  0 ≤ off → 0 ≤ o → off + 4 ≤ Z.of_nat (length blk) → o + 4 ≤ off ∨ off + 4 ≤ o →
  get32 (put32 blk off v) o = get32 blk o.
Proof. intros. unfold get32. by rewrite !byte_at_put32_ne by lia. Qed.
