(* ===== verification/CString.v ===== *)
(** The C string and memory routines: the kernel's [string.c], the store loops of
    [x86.h] it uses, and the string functions of the user library [ulib.c].

    The [mem*] functions work on addresses in a flat memory.  For the [str*]
    functions a [char *] is the list of the bytes from the pointer on, [*p] is
    [deref p] (0 at the end of the list: the terminator), and [p++] is [tail]. *)
From S2P Require Export Bytes.

Definition deref (p : list Z) : Z := match p with [] => 0 | c :: _ => c end.

(** * x86.h: rep stosb, rep stosl *)
Fixpoint stosb (m : gmap Z Z) (addr data : Z) (cnt : nat) : gmap Z Z :=
  match cnt with O => m | S n => stosb (st m addr data) (addr + 1) data n end.
Fixpoint stosl (m : gmap Z Z) (addr data : Z) (cnt : nat) : gmap Z Z :=
  match cnt with O => m | S n => stosl (st32 m addr data) (addr + 4) data n end.

(** * string.c *)
Definition memset (m : gmap Z Z) (dst c n : Z) : gmap Z Z :=
  if (Z.rem (i32 dst) 4 =? 0) && (n mod 4 =? 0) then
    let c := Z.land c 255 in
    let w := Z.lor (Z.lor (Z.lor (Z.shiftl c 24) (Z.shiftl c 16)) (Z.shiftl c 8)) c in
    stosl m dst w (Z.to_nat (n / 4))
  else stosb m dst c (Z.to_nat n).

Fixpoint memcmp_loop (m : gmap Z Z) (s1 s2 : Z) (n : nat) : Z :=
  match n with
  | O => 0
  | S n => if negb (ld m s1 =? ld m s2) then ld m s1 - ld m s2
           else memcmp_loop m (s1 + 1) (s2 + 1) n
  end.
Definition memcmp (m : gmap Z Z) (v1 v2 n : Z) : Z := memcmp_loop m v1 v2 (Z.to_nat n).

(** [while(n-- > 0) *--d = *--s;] *)
Fixpoint copy_down (m : gmap Z Z) (s d : Z) (n : nat) : gmap Z Z :=
  match n with
  | O => m
  | S n => copy_down (st m (d - 1) (ld m (s - 1))) (s - 1) (d - 1) n
  end.
(** [while(n-- > 0) *d++ = *s++;] *)
Fixpoint copy_up (m : gmap Z Z) (s d : Z) (n : nat) : gmap Z Z :=
  match n with
  | O => m
  | S n => copy_up (st m d (ld m s)) (s + 1) (d + 1) n
  end.
Definition memmove (m : gmap Z Z) (dst src n : Z) : gmap Z Z :=
  if (src <? dst) && (dst <? src + n)
  then copy_down m (src + n) (dst + n) (Z.to_nat n)
  else copy_up m src dst (Z.to_nat n).
Definition memcpy (m : gmap Z Z) (dst src n : Z) : gmap Z Z := memmove m dst src n.

Fixpoint strncmp (p q : list Z) (n : nat) : Z :=
  match n with
  | O => 0
  | S n' =>
      if negb (deref p =? 0) && (deref p =? deref q)
      then strncmp (tail p) (tail q) n'
      else deref p - deref q
  end.

(** [while(n-- > 0) *s++ = 0;] on the array [s], from index [i] on. *)
Fixpoint zero_pad (s : list Z) (i n : nat) : list Z :=
  match n with O => s | S n => zero_pad (<[i := 0]> s) (S i) n end.
Fixpoint strncpy_loop (s : list Z) (i : nat) (t : list Z) (n : nat) : list Z :=
  match n with
  | O => s
  | S n =>
      let s := <[i := deref t]> s in
      if deref t =? 0 then zero_pad s (S i) n else strncpy_loop s (S i) (tail t) n
  end.
Definition strncpy (s t : list Z) (n : Z) : list Z := strncpy_loop s 0 t (Z.to_nat n).

(** [while(--n > 0 && ( *s++ = *t++ ) != 0); *s = 0;] with [n] the decremented count. *)
Fixpoint safestrcpy_loop (s : list Z) (i : nat) (t : list Z) (n : nat) : list Z :=
  match n with
  | O => <[i := 0]> s
  | S n =>
      let s := <[i := deref t]> s in
      if deref t =? 0 then <[S i := 0]> s else safestrcpy_loop s (S i) (tail t) n
  end.
Definition safestrcpy (s t : list Z) (n : Z) : list Z :=
  if n <=? 0 then s else safestrcpy_loop s 0 t (Z.to_nat (n - 1)).

Fixpoint strlen (s : list Z) : Z :=
  match s with [] => 0 | c :: s => if c =? 0 then 0 else 1 + strlen s end.

(** A string constant. *)
Definition str (s : string) : list Z := (λ a, Z.of_N (Ascii.N_of_ascii a)) <$> String.list_ascii_of_string s.
Definition line (s : string) : list Z := str s ++ [10].

(** * ulib.c *)
Module Ulib.
Fixpoint strcpy_loop (s : list Z) (i : nat) (t : list Z) : list Z :=
  let s := <[i := deref t]> s in
  match t with
  | [] => s
  | c :: t => if c =? 0 then s else strcpy_loop s (S i) t
  end.
Definition strcpy (s t : list Z) : list Z := strcpy_loop s 0 t.

Fixpoint strcmp (p q : list Z) : Z :=
  match p with
  | [] => 0 - deref q
  | c :: p' => if negb (c =? 0) && (c =? deref q) then strcmp p' (tail q)
               else c - deref q
  end.

(** The suffix that starts at the first [c], if there is one. *)
Fixpoint strchr (s : list Z) (c : Z) : option (list Z) :=
  match s with
  | [] => None
  | x :: s' => if x =? 0 then None else if x =? c then Some s else strchr s' c
  end.

Fixpoint atoi_loop (s : list Z) (n : Z) : Z :=
  match s with
  | [] => n
  | c :: s => if (48 <=? c) && (c <=? 57) then atoi_loop s (i32 (n * 10 + c - 48)) else n
  end.
Definition atoi (s : list Z) : Z := atoi_loop s 0.

Definition memset (m : gmap Z Z) (dst c n : Z) : gmap Z Z := stosb m dst c (Z.to_nat n).
Definition memmove (m : gmap Z Z) (vdst vsrc n : Z) : gmap Z Z :=
  copy_up m vsrc vdst (Z.to_nat n).
End Ulib.

(** * Lemmas *)

Lemma ld_stosb m a d n b :
  ld (stosb m a d n) b = if decide (a ≤ b < a + Z.of_nat n) then u8 d else ld m b.
Proof.
  revert m a. induction n as [|n IH]; intros m a; simpl.
  { by rewrite decide_False by lia. }
  rewrite IH, ld_st. repeat case_decide; lia || done.
Qed.

Lemma splat_byte c k : 0 ≤ c < 256 → 0 ≤ k < 4 →
  u8 (Z.lor (Z.lor (Z.lor (Z.shiftl c 24) (Z.shiftl c 16)) (Z.shiftl c 8)) c / 256 ^ k) = c.
Proof.
  intros Hc Hk.
  assert (forallb (λ n, forallb (λ j, let c := Z.of_nat n in
    u8 (Z.lor (Z.lor (Z.lor (Z.shiftl c 24) (Z.shiftl c 16)) (Z.shiftl c 8)) c
        / 256 ^ Z.of_nat j) =? c) (seq 0 4)) (seq 0 256) = true) as H by (by vm_compute).
  rewrite forallb_forall in H.
  specialize (H (Z.to_nat c)). rewrite in_seq in H. specialize (H ltac:(lia)).
  rewrite forallb_forall in H. specialize (H (Z.to_nat k)). rewrite in_seq in H.
  specialize (H ltac:(lia)). rewrite !Z2Nat.id in H by lia. by apply Z.eqb_eq.
Qed.

Lemma ld_stosl m a w n b :
  ld (stosl m a w n) b =
    if decide (a ≤ b < a + 4 * Z.of_nat n) then u8 (w / 256 ^ ((b - a) mod 4)) else ld m b.
Proof.
  revert m a. induction n as [|n IH]; intros m a; cbn [stosl].
  { by rewrite decide_False by lia. }
  rewrite IH. destruct (decide (a ≤ b < a + 4)) as [Hb|Hb].
  - rewrite decide_False by lia. rewrite decide_True by lia.
    replace b with (a + (b - a)) at 1 by lia. rewrite ld_st32 by lia.
    by rewrite (Z.mod_small (b - a) 4) by lia.
  - rewrite ld_st32_ne by lia. repeat case_decide; try lia; try done.
    do 3 f_equal. replace (b - a) with (b - (a + 4) + 1 * 4) by lia.
    by rewrite Z.mod_add by lia.
Qed.

Lemma ld_copy_up m s d n b : ¬ (s < d < s + Z.of_nat n) →
  ld (copy_up m s d n) b =
    if decide (d ≤ b < d + Z.of_nat n) then ld m (s + (b - d)) else ld m b.
Proof.
  revert m s d. induction n as [|n IH]; intros m s d Hov; cbn [copy_up].
  { by rewrite decide_False by lia. }
  rewrite IH by lia. repeat case_decide; try lia.
  - rewrite ld_st_ne by lia. f_equal. lia.
  - assert (b = d) as -> by lia. rewrite ld_st_eq.
    rewrite Z.sub_diag, Z.add_0_r. apply u8_idem.
  - by rewrite ld_st_ne by lia.
Qed.

Lemma ld_copy_down m s d n b : s < d →
  ld (copy_down m s d n) b =
    if decide (d - Z.of_nat n ≤ b < d) then ld m (s + (b - d)) else ld m b.
Proof.
  revert m s d. induction n as [|n IH]; intros m s d Hov; cbn [copy_down].
  { by rewrite decide_False by lia. }
  rewrite IH by lia. repeat case_decide; try lia.
  - rewrite ld_st_ne by lia. f_equal. lia.
  - assert (b = d - 1) as -> by lia. rewrite ld_st_eq.
    replace (s + (d - 1 - d)) with (s - 1) by lia. apply u8_idem.
  - by rewrite ld_st_ne by lia.
Qed.

Lemma ld_memmove m dst src n a :
  0 ≤ n →
  ld (memmove m dst src n) a = if decide (dst ≤ a < dst + n) then ld m (src + (a - dst)) else ld m a.
Proof.
  intros. unfold memmove. destruct (_ && _) eqn:E.
  - rewrite ld_copy_down by lia. rewrite Z2Nat.id by lia.
    repeat case_decide; try lia; try done. f_equal. lia.
  - rewrite ld_copy_up by lia. rewrite Z2Nat.id by lia. done.
Qed.

Lemma ld_memset m dst c n a :
  0 ≤ n →
  ld (memset m dst c n) a = if decide (dst ≤ a < dst + n) then u8 c else ld m a.
Proof.
  intros. unfold memset. destruct (_ && _) eqn:E.
  - rewrite ld_stosl, Z2Nat.id by zlia.
    assert (4 * (n / 4) = n) as -> by zlia.
    case_decide; [|done]. rewrite splat_byte; [|change 255 with (Z.ones 8); rewrite Z.land_ones by lia; zlia|zlia].
    change 255 with (Z.ones 8). by rewrite Z.land_ones by lia.
  - rewrite ld_stosb, Z2Nat.id by lia. done.
Qed.

(** The string a [char *] denotes: the bytes before the terminator. *)
Fixpoint cstr (t : list Z) : list Z :=
  match t with [] => [] | c :: t => if c =? 0 then [] else c :: cstr t end.

Lemma cstr_unfold t : cstr t = if deref t =? 0 then [] else deref t :: cstr (tail t).
Proof. by destruct t as [|c t]. Qed.

Lemma strlen_cstr t : strlen t = Z.of_nat (length (cstr t)).
Proof.
  induction t as [|c t IH]; simpl; [done|]. case_match; simpl; [done|]. rewrite IH. lia.
Qed.

Lemma cstr_nonzero t : Forall (λ c, c ≠ 0) (cstr t).
Proof.
  induction t as [|c t IH]; simpl; [done|].
  destruct (Z.eqb_spec c 0); [done|]. by constructor.
Qed.

Lemma strncmp_spec p q n :
  strncmp p q n = 0 ↔ take n (cstr p) = take n (cstr q).
Proof.
  revert p q. induction n as [|n IH]; intros p q; [done|].
  cbn [strncmp]. rewrite (cstr_unfold p), (cstr_unfold q).
  destruct (Z.eqb_spec (deref p) 0) as [Hp|Hp], (Z.eqb_spec (deref q) 0) as [Hq|Hq];
    cbn [negb andb take].
  - rewrite Hp, Hq. done.
  - split; [lia|done].
  - destruct (Z.eqb_spec (deref p) (deref q)); split; lia || done.
  - destruct (Z.eqb_spec (deref p) (deref q)) as [E|E].
    + rewrite IH, E. split; [by intros ->|congruence].
    + split; [lia|congruence].
Qed.

Lemma zero_pad_spec s i n :
  (i + n ≤ length s)%nat → zero_pad s i n = take i s ++ replicate n 0 ++ drop (i + n) s.
Proof.
  revert s i. induction n as [|n IH]; intros s i Hl; cbn [zero_pad replicate].
  { rewrite Nat.add_0_r. simpl. by rewrite take_drop. }
  rewrite IH by (rewrite length_insert; lia).
  rewrite (take_S_r _ _ 0) by (apply list_lookup_insert_eq; lia).
  rewrite take_insert_ge, drop_insert_lt by lia.
  rewrite <- app_assoc. simpl. by rewrite <- Nat.add_succ_comm.
Qed.

Lemma strncpy_loop_spec s i t n :
  (i + n ≤ length s)%nat →
  strncpy_loop s i t n =
    take i s ++ take n (cstr t) ++ replicate (n - length (cstr t)) 0 ++ drop (i + n) s.
Proof.
  revert s i t. induction n as [|n IH]; intros s i t Hl; cbn [strncpy_loop].
  { rewrite Nat.add_0_r. simpl. by rewrite take_drop. }
  rewrite cstr_unfold. destruct (Z.eqb_spec (deref t) 0) as [E|E].
  - rewrite zero_pad_spec by (rewrite length_insert; lia).
    rewrite (take_S_r _ _ (deref t)) by (apply list_lookup_insert_eq; lia).
    rewrite take_insert_ge, drop_insert_lt by lia. rewrite E, <- app_assoc. simpl.
    by rewrite <- Nat.add_succ_comm.
  - rewrite IH by (rewrite length_insert; lia).
    rewrite (take_S_r _ _ (deref t)) by (apply list_lookup_insert_eq; lia).
    rewrite take_insert_ge, drop_insert_lt by lia. rewrite <- app_assoc. simpl.
    by rewrite <- Nat.add_succ_comm.
Qed.

(** The array holds [n] bytes of the string [t]: its first [n] bytes, zero-filled. *)
Lemma strncpy_spec s t n :
  (Z.to_nat n ≤ length s)%nat →
  strncpy s t n =
    take (Z.to_nat n) (cstr t) ++ replicate (Z.to_nat n - length (cstr t)) 0
    ++ drop (Z.to_nat n) s.
Proof. intros. unfold strncpy. by rewrite strncpy_loop_spec. Qed.

Lemma length_strncpy s t n :
  (Z.to_nat n ≤ length s)%nat → length (strncpy s t n) = length s.
Proof.
  intros. rewrite strncpy_spec by done.
  rewrite !length_app, length_take, length_replicate, length_drop. lia.
Qed.

Lemma cstr_app_zero (p q : list Z) : Forall (λ c, c ≠ 0) p → cstr (p ++ 0 :: q) = p.
Proof.
  induction 1 as [|c p Hc _ IH]; simpl; [done|].
  destruct (Z.eqb_spec c 0); [done|]. by rewrite IH.
Qed.

Lemma take_cstr_pad p k r : Forall (λ c, c ≠ 0) p →
  take (length p + k) (cstr (p ++ replicate k 0 ++ r)) = p.
Proof.
  intros Hp. destruct k as [|k]; simpl.
  - rewrite Nat.add_0_r. induction Hp as [|c p Hc Hp IH]; simpl; [done|].
    destruct (Z.eqb_spec c 0); [done|]. simpl. by rewrite IH.
  - rewrite cstr_app_zero by done. apply take_ge. lia.
Qed.

Lemma safestrcpy_loop_spec s i t n :
  (i + n < length s)%nat →
  ∃ rest, safestrcpy_loop s i t n = take i s ++ take n (cstr t) ++ 0 :: rest
          ∧ length (safestrcpy_loop s i t n) = length s
          ∧ drop (i + n + 1) (safestrcpy_loop s i t n) = drop (i + n + 1) s.
Proof.
  revert s i t. induction n as [|n IH]; intros s i t Hl; cbn [safestrcpy_loop].
  { exists (drop (S i) s). rewrite length_insert. split_and!; [|done|].
    - simpl. apply insert_take_drop. lia.
    - by rewrite drop_insert_lt by lia. }
  rewrite (cstr_unfold t). destruct (Z.eqb_spec (deref t) 0) as [E|E].
  - exists (drop (S i) (<[S i:=0]> s)). rewrite !length_insert. split_and!; [|done|].
    + rewrite E. rewrite list_insert_insert_ne by lia. simpl.
      rewrite insert_take_drop by (rewrite length_insert; lia).
      by rewrite take_insert_ge by lia.
    + by rewrite !drop_insert_lt by lia.
  - destruct (IH (<[i:=deref t]> s) (S i) (tail t)) as (rest & E1 & E2 & E3).
    { rewrite length_insert. lia. }
    exists rest. rewrite length_insert in E2. split_and!; [|done|].
    + rewrite E1, (take_S_r _ _ (deref t)) by (apply list_lookup_insert_eq; lia).
      rewrite take_insert_ge by lia. by rewrite <- app_assoc.
    + replace (i + S n + 1)%nat with (S i + n + 1)%nat by lia.
      rewrite E3. by rewrite drop_insert_lt by lia.
Qed.

(** * Properties *)

(** the kernel's [memmove] is correct also when the two ranges overlap: every
    byte of the destination gets the byte its source held before the call, and no
    other byte changes. *)
Theorem memmove_correct (m : gmap Z Z) (dst src n a : Z) :
  0 ≤ n →
  ld (memmove m dst src n) a =
    if decide (dst ≤ a < dst + n) then ld m (src + (a - dst)) else ld m a.
Proof. apply ld_memmove. Qed.

Definition demo_mem : gmap Z Z := st_range ∅ 100 [1; 2; 3; 4; 5; 6].
Lemma memmove_correct_witness :
  ld (memmove demo_mem 102 100 4) 105 = 4 ∧
  ld (memmove demo_mem 102 100 4) 105
  = if decide (102 ≤ 105 < 102 + 4) then ld demo_mem (100 + (105 - 102)) else ld demo_mem 105.
Proof. split; [reflexivity|]. apply (memmove_correct demo_mem 102 100 4 105). lia. Defined.

(** [memset] stores the low byte of [c] in the [n] bytes from [dst] and nowhere
    else, whichever of its two paths (32-bit stores for an aligned range, byte
    stores otherwise) it takes. *)
Theorem memset_correct (m : gmap Z Z) (dst c n a : Z) :
  0 ≤ n →
  ld (memset m dst c n) a = if decide (dst ≤ a < dst + n) then u8 c else ld m a.
Proof. apply ld_memset. Qed.

Lemma memset_correct_witness :
  ld (memset demo_mem 100 513 4) 102 = 1 ∧
  ld (memset demo_mem 100 513 4) 102 = if decide (100 ≤ 102 < 100 + 4) then u8 513 else ld demo_mem 102.
Proof. split; [reflexivity|]. apply (memset_correct demo_mem 100 513 4 102). lia. Defined.

(** a name stored with [strncpy] in an array of at least [n] bytes is the name
    [strncmp] compares with: two names stored in [n]-byte fields compare equal
    exactly when their first [n] bytes agree. *)
Theorem strncpy_strncmp (s s' t t' : list Z) (n : nat) :
  (n ≤ length s)%nat → (n ≤ length s')%nat →
  strncmp (strncpy s t (Z.of_nat n)) (strncpy s' t' (Z.of_nat n)) n = 0
  ↔ take n (cstr t) = take n (cstr t').
Proof.
  intros Hs Hs'. rewrite strncmp_spec.
  assert (∀ s t, (n ≤ length s)%nat →
    take n (cstr (strncpy s t (Z.of_nat n))) = take n (cstr t)) as E.
  { clear. intros s t Hs. rewrite strncpy_spec, Nat2Z.id by lia.
    pose proof (cstr_nonzero t) as Hz. destruct (decide (n ≤ length (cstr t))%nat).
    - replace (n - length (cstr t))%nat with 0%nat by lia.
      pose proof (take_cstr_pad (take n (cstr t)) 0 (drop n s)) as Hp.
      rewrite length_take, Nat.min_l, Nat.add_0_r in Hp by lia.
      apply Hp. by apply Forall_take.
    - rewrite (take_ge (cstr t)) by lia.
      replace n with (length (cstr t) + (n - length (cstr t)))%nat at 1 by lia.
      by apply take_cstr_pad. }
  by rewrite !E.
Qed.

Lemma strncpy_strncmp_witness :
  strncmp (strncpy (replicate 14 7) [98; 105; 110] 14)
          (strncpy (replicate 14 9) [98; 105; 110; 0; 1] 14) 14 = 0.
Proof.
  apply (strncpy_strncmp (replicate 14 7) (replicate 14 9) [98; 105; 110]
           [98; 105; 110; 0; 1] 14); [simpl; lia..|reflexivity].
Defined.

(** [safestrcpy] copies at most [n - 1] bytes of the string, always terminates the
    copy inside the [n] bytes it was given, and leaves the rest of the array alone. *)
Theorem safestrcpy_terminates (s t : list Z) (n : Z) :
  0 < n → n ≤ Z.of_nat (length s) →
  cstr (safestrcpy s t n) = take (Z.to_nat (n - 1)) (cstr t)
  ∧ length (safestrcpy s t n) = length s
  ∧ drop (Z.to_nat n) (safestrcpy s t n) = drop (Z.to_nat n) s.
Proof.
  intros Hn Hl. unfold safestrcpy. destruct (Z.leb_spec n 0); [lia|].
  destruct (safestrcpy_loop_spec s 0 t (Z.to_nat (n - 1))) as (rest & E1 & E2 & E3); [lia|].
  replace (0 + Z.to_nat (n - 1) + 1)%nat with (Z.to_nat n) in E3 by lia.
  split_and!; [|done|done]. rewrite E1. simpl. apply cstr_app_zero.
  apply Forall_take, cstr_nonzero.
Qed.

Lemma safestrcpy_terminates_witness :
  cstr (safestrcpy (replicate 16 7) [105; 110; 105; 116; 0] 4) = [105; 110; 105]
  ∧ length (safestrcpy (replicate 16 7) [105; 110; 105; 116; 0] 4) = 16%nat
  ∧ drop 4 (safestrcpy (replicate 16 7) [105; 110; 105; 116; 0] 4) = replicate 12 7.
Proof.
  apply (safestrcpy_terminates (replicate 16 7) [105; 110; 105; 116; 0] 4); simpl; lia.
Defined.
