(* ===== verification/Sched.v ===== *)
(** Locks, sleeping and waking: the primitives of [spinlock.c], [sleeplock.c] and
    [proc.c] that every other part of the kernel calls.

    The state is that of one CPU: [held s] lists the spin locks it holds, so
    [holding(lk)] is membership in it and [mycpu()->ncli] its length.  A call
    that reaches [sched] ends the run with [Sleeping]: the process has given up
    the CPU. *)
From S2P Require Export State.

(** The fault a null or wild pointer causes in kernel mode ends in [panic("trap")]. *)
Definition trap {A} : K A := panic "trap".

(** * spinlock.c *)
Definition holding (l : lockid) : K bool := s ← get; mret (bool_decide (l ∈ held s)).

(** No CPU holds a lock that has just been initialised. *)
Definition initlock (l : lockid) : K unit := modify (λ s, s <| held ::= filter (λ l', l' ≠ l) |>).

Definition acquire (l : lockid) : K unit :=
  h ← holding l;
  if (h : bool) then panic "acquire" else modify (λ s, s <| held := l :: held s |>).

Definition remove_lock (l : lockid) (h : list lockid) : list lockid :=
  filter (λ l', l' ≠ l) h.

Definition release (l : lockid) : K unit :=
  h ← holding l;
  if (h : bool) then modify (λ s, s <| held ::= remove_lock l |>) else panic "release".

(** * proc.c: the current process, sleep and wakeup *)
Definition myproc : K (option nat) := gets curproc.

Definition proc_at (i : nat) : K proc :=
  s ← get; match ptable s !! i with Some p => mret p | None => trap end.
Definition upd_proc_at (i : nat) (f : proc → proc) : K unit :=
  modify (λ s, s <| ptable ::= alter f i |>).

(** [myproc()->...]: faults when no process runs on this CPU. *)
Definition curindex : K nat :=
  o ← myproc; match o with Some i => mret i | None => trap end.
Definition cur : K proc := i ← curindex; proc_at i.
Definition upd_cur (f : proc → proc) : K unit := i ← curindex; upd_proc_at i f.

(** The state has neither the interrupt flag nor [intena]: the check that interrupts are off, which cannot fail while a spin lock is held
    ([Spin.spinlock_correct] has the flag, and the count of [pushcli]), and the saving of [intena] around the switch have no counterpart. *)
Definition sched {A} : K A :=
  p ← cur;
  h ← holding LPtable;
  if negb h then panic "sched ptable.lock" else
  s ← get;
  if negb (length (held s) =? 1)%nat then panic "sched locks" else
  if bool_decide (p_state p = RUNNING) then panic "sched running" else
  λ s, Sleeping s.

Definition sleep {A} (ch : chan) (lk : lockid) : K A :=
  o ← myproc;
  match o with
  | None => panic "sleep"
  | Some i =>
      (if bool_decide (lk = LPtable) then mret tt
       else acquire LPtable;; release lk);;
      upd_proc_at i (λ p, p <| p_chan := Some ch |> <| p_state := SLEEPING |>);;
      sched
  end.

(** What [sleep] does once the scheduler has switched back to the process. *)
Definition sleep_resume (lk : lockid) : K unit :=
  upd_cur (λ p, p <| p_chan := None |>);;
  if bool_decide (lk = LPtable) then mret tt
  else release LPtable;; acquire lk.

Definition wake (ch : chan) (p : proc) : proc :=
  if bool_decide (p_state p = SLEEPING) && bool_decide (p_chan p = Some ch)
  then p <| p_state := RUNNABLE |> else p.

Definition wakeup1 (ch : chan) : K unit := modify (λ s, s <| ptable ::= fmap (wake ch) |>).

Definition wakeup (ch : chan) : K unit :=
  acquire LPtable;; wakeup1 ch;; release LPtable.

(** A run up to the point where the process gives up the CPU. *)
Definition suspend {A} (m : K A) (a : A) : K A :=
  λ s, match m s with Sleeping s' => Ok a s' | o => o end.

(** [yield] up to [sched]; its last line runs when the process is scheduled again. *)
Definition yield {A} : K A :=
  acquire LPtable;;
  upd_cur (λ p, p <| p_state := RUNNABLE |>);;
  sched.
Definition yield_resume : K unit := release LPtable.

(** What [scheduler] does to the state for the process it has chosen. *)
Definition switch_to (i : nat) : K unit :=
  modify (λ s, s <| curproc := Some i |>);;
  upd_proc_at i (λ p, p <| p_state := RUNNING |>).

(** * sleeplock.c *)
Definition sl_get (s : kstate) (r : slref) : option sleeplock :=
  match r with
  | SBuf i => b_lock <$> bufs s !! i
  | SInode i => i_lock <$> icache s !! i
  end.
Definition sl_set (r : slref) (l : sleeplock) (s : kstate) : kstate :=
  match r with
  | SBuf i => s <| bufs ::= alter (λ b, b <| b_lock := l |>) i |>
  | SInode i => s <| icache ::= alter (λ ip, ip <| i_lock := l |>) i |>
  end.
Definition sl_at (r : slref) : K sleeplock :=
  s ← get; match sl_get s r with Some l => mret l | None => trap end.

Definition unlocked : sleeplock := mk_sleeplock false 0.

Definition initsleeplock (r : slref) : K unit := modify (sl_set r unlocked).

Definition acquiresleep (r : slref) : K unit :=
  acquire (LSleep r);;
  l ← sl_at r;
  if sl_locked l then sleep (ChSleep r) (LSleep r) else
  p ← cur;
  modify (sl_set r (mk_sleeplock true (p_pid p)));;
  release (LSleep r).

Definition releasesleep (r : slref) : K unit :=
  acquire (LSleep r);;
  modify (sl_set r unlocked);;
  wakeup (ChSleep r);;
  release (LSleep r).

Definition holdingsleep (r : slref) : K bool :=
  acquire (LSleep r);;
  l ← sl_at r;
  b ← (if sl_locked l then p ← cur; mret (sl_pid l =? p_pid p) else mret false);
  release (LSleep r);;
  mret b.

(** * Lemmas *)

Ltac run := unfold mbind, M_bind, mret, M_ret, get, gets, modify, panic; simpl.

Lemma kstate_held_id (s : kstate) : s <| held := held s |> = s.
Proof. by destruct s. Qed.

Lemma remove_lock_cons l h : l ∉ h → remove_lock l (l :: h) = h.
Proof.
  intros Hn. unfold remove_lock. rewrite filter_cons_False by naive_solver.
  induction h as [|x h IH]; [done|]. apply not_elem_of_cons in Hn as [??].
  rewrite filter_cons_True by done. by rewrite IH.
Qed.

Lemma holding_eq l s : holding l s = Ok (bool_decide (l ∈ held s)) s.
Proof. done. Qed.

Lemma acquire_ok l s : l ∉ held s → acquire l s = Ok tt (s <| held := l :: held s |>).
Proof. intros. unfold acquire. run. by rewrite bool_decide_false. Qed.

Lemma release_ok l s h :
  held s = l :: h → l ∉ h → release l s = Ok tt (s <| held := h |>).
Proof.
  intros E Hn. unfold release. run. rewrite bool_decide_true by (rewrite E; left).
  f_equal. unfold over. by rewrite E, remove_lock_cons.
Qed.

(** A critical section that leaves [held] alone is its body. *)
Lemma locked_section {A} l (m : K A) s a s' :
  l ∉ held s →
  m (s <| held := l :: held s |>) = Ok a s' → held s' = l :: held s →
  (acquire l;; (a ← m; release l;; mret a)) s = Ok a (s' <| held := held s |>).
Proof.
  intros Hn Hm Hh. run. rewrite acquire_ok by done. rewrite Hm.
  by rewrite (release_ok l s' (held s)).
Qed.

Definition wakes (ch : chan) (s : kstate) : kstate := s <| ptable ::= fmap (wake ch) |>.

Lemma wakeup_ok ch s : LPtable ∉ held s → wakeup ch s = Ok tt (wakes ch s).
Proof.
  intros Hn. unfold wakeup. run. rewrite acquire_ok by done. unfold wakeup1, modify.
  rewrite (release_ok _ _ (held s)) by done. by destruct s.
Qed.

Lemma wake_pid ch p : p_pid (wake ch p) = p_pid p.
Proof. unfold wake. by case_match. Qed.

(** The process running on this CPU, and its pid. *)
Definition running (s : kstate) (pid : Z) : Prop :=
  ∃ i p, curproc s = Some i ∧ ptable s !! i = Some p ∧ p_pid p = pid.

Lemma running_wakes s ch pid : running s pid → running (wakes ch s) pid.
Proof.
  intros (i & p & ? & Hp & ?). exists i, (wake ch p). unfold wakes. simpl.
  split_and!; [done| |by rewrite wake_pid]. by rewrite list_lookup_fmap, Hp.
Qed.

Lemma running_ext s s' pid :
  curproc s' = curproc s → ptable s' = ptable s → running s pid → running s' pid.
Proof. unfold running. by intros -> ->. Qed.

Lemma cur_ok s pid : running s pid → ∃ p, cur s = Ok p s ∧ p_pid p = pid.
Proof.
  intros (i & p & Hc & Hp & ?). exists p. split; [|done].
  unfold cur, curindex, myproc. run. rewrite Hc. unfold proc_at. run. by rewrite Hp.
Qed.

Lemma sl_get_held s h r : sl_get (s <| held := h |>) r = sl_get s r.
Proof. by destruct r. Qed.
Lemma sl_set_held s h r l : sl_set r l (s <| held := h |>) = (sl_set r l s) <| held := h |>.
Proof. by destruct r. Qed.
Lemma held_sl_set s r l : held (sl_set r l s) = held s.
Proof. by destruct r. Qed.

Lemma acquiresleep_ok s r l pid :
  held s = [] → sl_get s r = Some l → sl_locked l = false → running s pid →
  acquiresleep r s = Ok tt (sl_set r (mk_sleeplock true pid) s).
Proof.
  intros Hh Hl Hu Hr. unfold acquiresleep. run.
  rewrite acquire_ok by (rewrite Hh; apply not_elem_of_nil).
  unfold sl_at. run. rewrite sl_get_held, Hl, Hu.
  destruct (cur_ok (s <| held := LSleep r :: held s |>) pid) as (p & -> & ->).
  { by eapply running_ext; [..|exact Hr]. }
  rewrite sl_set_held, (release_ok _ _ []).
  - rewrite <- Hh, <- (held_sl_set s r (mk_sleeplock true pid)). by destruct (sl_set _ _ _).
  - simpl. by rewrite Hh.
  - apply not_elem_of_nil.
Qed.

Lemma releasesleep_ok s r :
  held s = [] →
  releasesleep r s = Ok tt (wakes (ChSleep r) (sl_set r unlocked s)).
Proof.
  intros Hh. unfold releasesleep. run.
  rewrite acquire_ok by (rewrite Hh; apply not_elem_of_nil). rewrite sl_set_held.
  rewrite wakeup_ok by (simpl; rewrite Hh; set_solver).
  rewrite (release_ok _ _ []); [|simpl; by rewrite Hh|apply not_elem_of_nil].
  unfold wakes. rewrite <- Hh, <- (held_sl_set s r unlocked).
  by destruct (sl_set _ _ _).
Qed.

Lemma holdingsleep_ok s r pid :
  held s = [] → running s pid → sl_get s r = Some (mk_sleeplock true pid) →
  holdingsleep r s = Ok true s.
Proof.
  intros Hh Hr Hl. unfold holdingsleep. run.
  rewrite acquire_ok by (rewrite Hh; apply not_elem_of_nil).
  unfold sl_at. run. rewrite sl_get_held, Hl. simpl.
  destruct (cur_ok (s <| held := LSleep r :: held s |>) pid) as (p & E & Ep).
  { by eapply running_ext; [..|exact Hr]. }
  unfold mbind, M_bind. rewrite E, Ep, Z.eqb_refl. run.
  rewrite (release_ok _ _ []); [|simpl; by rewrite Hh|apply not_elem_of_nil].
  rewrite <- Hh. by destruct s.
Qed.

(** Going to sleep with [lk] held: the process is on its channel, [lk] is free and the
    scheduler is entered with only [ptable.lock]. *)
Definition sleeps_on (ch : chan) (i : nat) (s : kstate) : kstate :=
  s <| ptable ::= alter (λ p, p <| p_chan := Some ch |> <| p_state := SLEEPING |>) i |>.

Lemma sleep_ok {A} ch lk s i p :
  held s = [lk] → lk ≠ LPtable → curproc s = Some i → ptable s !! i = Some p →
  sleep (A:=A) ch lk s = Sleeping (sleeps_on ch i s <| held := [LPtable] |>).
Proof.
  destruct s as [h cp pt ???????? ???]. simpl. intros -> Hlk -> Hp.
  unfold sleep, myproc. run. rewrite bool_decide_false by done.
  run. rewrite acquire_ok by (simpl; by rewrite list_elem_of_singleton; auto).
  unfold release, holding. run. rewrite bool_decide_true by (simpl; right; left).
  unfold over, remove_lock; simpl. rewrite filter_cons_True by auto.
  rewrite filter_cons_False by auto. simpl.
  unfold upd_proc_at, sched, cur, curindex, myproc, proc_at. run. unfold over; simpl.
  rewrite list_lookup_alter_eq, Hp. simpl. unfold holding. run.
  done.
Qed.

#[export] Hint Extern 1 (keeps _ (modify (sl_set ?r _))) =>
  apply keeps_modify; intros; destruct r; reflexivity : keeps.

Lemma sched_ok {A} s i p :
  curproc s = Some i → ptable s !! i = Some p → held s = [LPtable] → p_state p ≠ RUNNING →
  sched (A:=A) s = Sleeping s.
Proof.
  intros Hc Hp Hh Hs. unfold sched, cur, curindex, myproc, proc_at, holding. run. rewrite Hc. run. rewrite Hp, Hh.
  rewrite bool_decide_true by left. simpl. rewrite Hh, bool_decide_false by done. done.
Qed.
