(* ===== verification/Bio.v ===== *)
(** The buffer cache ([bio.c]) on the memory disk driver ([memide.c]).

    The thirty buffers and the list head [bcache.head] (index [NBUF]) are linked
    by index through [b_prev]/[b_next], as in the C code by address. *)
From S2P Require Export Sched.

Definition HEAD : nat := NBUF.

(** * The disk *)

(** Block [b] after the writes [w] to image [img]. *)
Definition apply_writes (img : list block) (w : list (Z * block)) : list block :=
  foldl (λ d '(b, data), <[Z.to_nat b := data]> d) img w.
Definition contents (d : disk) : list block := apply_writes (d_image d) (d_writes d).
Definition disksize (d : disk) : Z := Z.of_nat (length (d_image d)).
Definition disk_read (d : disk) (b : Z) : block := contents d !!! Z.to_nat b.
Definition disk_write (d : disk) (b : Z) (data : block) : disk :=
  d <| d_writes := d_writes d ++ [(b, data)] |>.

(** * bio.c *)
Definition buf_at (i : nat) : K buf :=
  s ← get; match bufs s !! i with Some b => mret b | None => trap end.
Definition upd_buf_at (i : nat) (f : buf → buf) : K unit :=
  modify (λ s, s <| bufs ::= alter f i |>).

Definition flag (b : buf) (m : Z) : bool := negb (Z.land (b_flags b) m =? 0).

(** Insert [i] between [bcache.head] and the first buffer. *)
Definition link_front (i : nat) : K unit :=
  h ← buf_at HEAD;
  upd_buf_at i (λ b, b <| b_next := b_next h |>);;
  upd_buf_at i (λ b, b <| b_prev := HEAD |>);;
  h ← buf_at HEAD;
  upd_buf_at (b_next h) (λ b, b <| b_prev := i |>);;
  upd_buf_at HEAD (λ b, b <| b_next := i |>).

Fixpoint binit_loop (i n : nat) : K unit :=
  match n with
  | O => mret tt
  | S n =>
      h ← buf_at HEAD;
      upd_buf_at i (λ b, b <| b_next := b_next h |>);;
      upd_buf_at i (λ b, b <| b_prev := HEAD |>);;
      initsleeplock (SBuf i);;
      h ← buf_at HEAD;
      upd_buf_at (b_next h) (λ b, b <| b_prev := i |>);;
      upd_buf_at HEAD (λ b, b <| b_next := i |>);;
      binit_loop (S i) n
  end.
Definition binit : K unit :=
  upd_buf_at HEAD (λ b, b <| b_prev := HEAD |>);;
  upd_buf_at HEAD (λ b, b <| b_next := HEAD |>);;
  binit_loop 0 NBUF.

(** The two scans of [bget]: the buffer that caches the block, looking from the
    most recently used end, and the buffer to recycle, from the other end. *)
Definition bget_cached (dev blockno : Z) : K (option nat) :=
  h ← buf_at HEAD;
  iterM (S NBUF) (λ i,
    if (i =? HEAD)%nat then mret (inr None) else
    b ← buf_at i;
    if (b_dev b =? dev) && (b_blockno b =? blockno) then mret (inr (Some i))
    else mret (inl (b_next b))) (b_next h).

Definition bget_victim : K (option nat) :=
  h ← buf_at HEAD;
  iterM (S NBUF) (λ i,
    if (i =? HEAD)%nat then mret (inr None) else
    b ← buf_at i;
    if (b_refcnt b =? 0) && negb (flag b B_DIRTY) then mret (inr (Some i))
    else mret (inl (b_prev b))) (b_prev h).

Definition bget (dev blockno : Z) : K nat :=
  acquire LBcache;;
  o ← bget_cached dev blockno;
  match o with
  | Some i =>
      upd_buf_at i (λ b, b <| b_refcnt ::= λ n, u32 (n + 1) |>);;
      release LBcache;;
      acquiresleep (SBuf i);;
      mret i
  | None =>
      o ← bget_victim;
      match o with
      | Some i =>
          upd_buf_at i (λ b, b <| b_dev := dev |> <| b_blockno := blockno |>
                               <| b_flags := 0 |> <| b_refcnt := 1 |>);;
          release LBcache;;
          acquiresleep (SBuf i);;
          mret i
      | None => panic "bget: no buffers"
      end
  end.

(** * memide.c *)
Definition iderw (i : nat) : K unit :=
  ok ← holdingsleep (SBuf i);
  if negb ok then panic "iderw: buf not locked" else
  b ← buf_at i;
  if Z.land (b_flags b) (Z.lor B_VALID B_DIRTY) =? B_VALID
  then panic "iderw: nothing to do" else
  if negb (b_dev b =? 1) then panic "iderw: request not for disk 1" else
  s ← get;
  if disksize (hdisk s) <=? b_blockno b then panic "iderw: block out of range" else
  (if flag b B_DIRTY then
     upd_buf_at i (λ b, b <| b_flags ::= λ f, Z.land f (Z.lnot B_DIRTY) |>);;
     modify (λ s, s <| hdisk ::= λ d, disk_write d (b_blockno b) (b_data b) |>)
   else
     modify (λ s, s <| bufs ::= alter (λ b, b <| b_data := disk_read (hdisk s) (b_blockno b) |>) i |>));;
  upd_buf_at i (λ b, b <| b_flags ::= λ f, Z.lor f B_VALID |>).

(** [ideinit], on the linked-in image, and [ideintr]. *)
Definition memide_init (fs_img : list Z) : disk :=
  mk_disk ((λ k, take (Z.to_nat BSIZE) (drop (k * Z.to_nat BSIZE) fs_img)) <$> seq 0 (Z.to_nat (Z.of_nat (length fs_img) / BSIZE))) [].
Definition memide_intr : K unit := mret tt.

Definition bread (dev blockno : Z) : K nat :=
  i ← bget dev blockno;
  b ← buf_at i;
  (if negb (flag b B_VALID) then iderw i else mret tt);;
  mret i.

Definition bwrite (i : nat) : K unit :=
  ok ← holdingsleep (SBuf i);
  if negb ok then panic "bwrite" else
  upd_buf_at i (λ b, b <| b_flags ::= λ f, Z.lor f B_DIRTY |>);;
  iderw i.

Definition brelse (i : nat) : K unit :=
  ok ← holdingsleep (SBuf i);
  if negb ok then panic "brelse" else
  releasesleep (SBuf i);;
  acquire LBcache;;
  upd_buf_at i (λ b, b <| b_refcnt ::= λ n, u32 (n - 1) |>);;
  b ← buf_at i;
  (if b_refcnt b =? 0 then
     upd_buf_at (b_next b) (λ b', b' <| b_prev := b_prev b |>);;
     b ← buf_at i;
     upd_buf_at (b_prev b) (λ b', b' <| b_next := b_next b |>);;
     link_front i
   else mret tt);;
  release LBcache.

(** What the holder of a buffer does to its data. *)
Definition bdata (i : nat) : K block := b ← buf_at i; mret (b_data b).
Definition set_bdata (i : nat) (d : block) : K unit :=
  upd_buf_at i (λ b, b <| b_data := d |>).

(** * The LRU list *)

(** Following [f] from buffer [x] visits the buffers [l] and then arrives at [y]. *)
Fixpoint chain (f : buf → nat) (B : list buf) (x : nat) (l : list nat) (y : nat) : Prop :=
  match l with
  | [] => f <$> B !! x = Some y
  | z :: l => f <$> B !! x = Some z ∧ chain f B z l y
  end.

(** The buffers, most recently used first, are [l], and both directions of the
    doubly linked list agree on it. *)
Record ring (B : list buf) (l : list nat) : Prop := {
  ring_length : length B = S NBUF;
  ring_nodup : NoDup l;
  ring_elem i : i ∈ l ↔ (i < NBUF)%nat;
  ring_next : chain b_next B HEAD l HEAD;
  ring_prev : chain b_prev B HEAD (rev l) HEAD }.

Section chain.
Implicit Types (B : list buf) (l : list nat).

Lemma chain_hd f B x l y : chain f B x l y → f <$> B !! x = Some (hd y l).
Proof. destruct l; naive_solver. Qed.

Lemma chain_app f B x l1 z l2 y :
  chain f B x (l1 ++ z :: l2) y ↔ chain f B x l1 z ∧ chain f B z l2 y.
Proof. revert x. induction l1 as [|w l1 IH]; intros x; simpl; [done|]. rewrite IH. tauto. Qed.

Lemma chain_ext f B B' x l y :
  (∀ i, i ∈ x :: l → f <$> B !! i = f <$> B' !! i) → chain f B x l y → chain f B' x l y.
Proof.
  revert x. induction l as [|z l IH]; intros x E; simpl.
  - intros <-. symmetry. apply E. left.
  - intros [<- ?]. split; [symmetry; apply E; left|]. apply IH; [|done].
    intros i Hi. apply E. by right.
Qed.

(** The same chain from another starting point, or after changes elsewhere. *)
Lemma chain_move f B B' x x' l y :
  chain f B x l y → f <$> B' !! x' = Some (hd y l) →
  (∀ i, i ∈ l → f <$> B' !! i = f <$> B !! i) → chain f B' x' l y.
Proof.
  destruct l as [|z l]; simpl; [done|]. intros [_ Hc] ? E. split; [done|].
  eapply chain_ext, Hc. intros i Hi. symmetry. by apply E.
Qed.

Lemma fmap_alter_eq (f : buf → nat) g p B v :
  (p < length B)%nat → (∀ b, f (g b) = v) → f <$> alter g p B !! p = Some v.
Proof.
  intros Hp Hg. rewrite list_lookup_alter_eq.
  destruct (lookup_lt_is_Some_2 _ _ Hp) as [b ->]. simpl. by rewrite Hg.
Qed.

Lemma fmap_alter_same (f : buf → nat) g p B i :
  (∀ b, f (g b) = f b) → f <$> alter g p B !! i = f <$> B !! i.
Proof.
  intros E. destruct (decide (p = i)) as [->|].
  - rewrite list_lookup_alter_eq. destruct (B !! i); simpl; by rewrite ?E.
  - by rewrite list_lookup_alter_ne.
Qed.

Lemma chain_alter_other f g p B x l y :
  (∀ b, f (g b) = f b) → chain f B x l y → chain f (alter g p B) x l y.
Proof. intros E. apply chain_ext. intros i _. by rewrite fmap_alter_same. Qed.

Lemma chain_alter_out f g p B x l y :
  p ∉ x :: l → chain f B x l y → chain f (alter g p B) x l y.
Proof.
  intros Hp. apply chain_ext. intros i Hi.
  rewrite list_lookup_alter_ne; [done|]. by intros ->.
Qed.

Lemma last_cons (z x : nat) l : List.last (z :: l) x = List.last l z.
Proof.
  revert z x. induction l as [|w l IH]; intros z x; [done|].
  change (List.last (w :: l) x = List.last (w :: l) z). by rewrite !IH.
Qed.

Lemma last_in (x : nat) l : List.last l x ∈ x :: l.
Proof.
  revert x. induction l as [|z l IH]; intros x; [left|].
  rewrite last_cons. right. apply IH.
Qed.

(** Redirect the last link of a chain. *)
Lemma chain_retarget f g B x l y v :
  NoDup (x :: l) → (∀ b, f (g b) = v) → chain f B x l y →
  chain f (alter g (List.last l x) B) x l v.
Proof.
  revert x. induction l as [|z l IH]; intros x Hn Hg; cbn [chain].
  - simpl. rewrite list_lookup_alter_eq. destruct (B !! x); naive_solver.
  - intros [E Hc]. apply NoDup_cons in Hn as [Hx Hn].
    rewrite last_cons. split; [|by apply IH]. rewrite list_lookup_alter_ne; [done|].
    intros Heq. apply Hx. rewrite <- Heq. apply last_in.
Qed.

(** Unlink [i]: redirect its predecessor to its successor. *)
Lemma chain_unlink f g B x l1 i l2 y :
  NoDup (x :: l1 ++ i :: l2) → (∀ b, f (g b) = hd y l2) →
  chain f B x (l1 ++ i :: l2) y →
  chain f (alter g (List.last l1 x) B) x (l1 ++ l2) y.
Proof.
  intros Hn Hg [Hc1 Hc2]%chain_app.
  assert (NoDup (x :: l1)) as Hn1.
  { rewrite app_comm_cons in Hn. by apply NoDup_app in Hn as (? & _). }
  pose proof (chain_retarget f g B x l1 i _ Hn1 Hg Hc1) as Hr.
  destruct l2 as [|q l2]; [by rewrite app_nil_r|].
  apply chain_app. split; [done|]. destruct Hc2 as [_ Hc2].
  apply chain_alter_out; [|done]. intros Hin. pose proof (last_in x l1) as Hl.
  rewrite app_comm_cons in Hn. apply NoDup_app in Hn as (_ & Hd & _).
  apply (Hd _ Hl). by right.
Qed.

Lemma last_rev_hd (x : nat) l : List.last (rev l) x = hd x l.
Proof. destruct l; [done|]. simpl. by rewrite last_last. Qed.
Lemma hd_rev_last (x : nat) l : hd x (rev l) = List.last l x.
Proof. rewrite <- last_rev_hd. by rewrite rev_involutive. Qed.
End chain.

Section ring.
Implicit Types (B : list buf) (l : list nat).

Definition set_next (n : nat) (b : buf) : buf := b <| b_next := n |>.
Definition set_prev (n : nat) (b : buf) : buf := b <| b_prev := n |>.

Definition linked B l : Prop :=
  chain b_next B HEAD l HEAD ∧ chain b_prev B HEAD (rev l) HEAD.

Lemma linked_at B l1 i l2 b :
  linked B (l1 ++ i :: l2) → B !! i = Some b →
  b_next b = hd HEAD l2 ∧ b_prev b = List.last l1 HEAD.
Proof.
  intros [Hn Hp] Hb. rewrite rev_app_distr in Hp. simpl in Hp.
  rewrite <- app_assoc in Hp. simpl in Hp.
  apply chain_app in Hn as [_ Hn%chain_hd]. apply chain_app in Hp as [_ Hp%chain_hd].
  rewrite Hb, <- ?hd_rev_last in *. simpl in *. naive_solver.
Qed.

Lemma unlink_linked B l1 i l2 :
  NoDup (HEAD :: l1 ++ i :: l2) → linked B (l1 ++ i :: l2) →
  linked (alter (set_next (hd HEAD l2)) (List.last l1 HEAD)
           (alter (set_prev (List.last l1 HEAD)) (hd HEAD l2) B)) (l1 ++ l2).
Proof.
  intros Hd [Hn Hp]. split.
  - apply (chain_unlink b_next _ _ HEAD l1 i l2); [done..|].
    by apply chain_alter_other.
  - apply chain_alter_other; [done|].
    rewrite rev_app_distr in *. simpl in Hp. rewrite <- app_assoc in Hp. simpl in Hp.
    rewrite <- (last_rev_hd HEAD l2). apply (chain_unlink b_prev _ _ HEAD _ i); [|by rewrite hd_rev_last|done].
    apply NoDup_cons in Hd as [Hh Hd]. apply NoDup_cons. split.
    + intros Hin. apply Hh. rewrite !elem_of_app, elem_of_cons, !list_elem_of_In, <- !in_rev in Hin.
      rewrite !elem_of_app, elem_of_cons, !list_elem_of_In. tauto.
    + assert (rev l2 ++ i :: rev l1 = rev (l1 ++ i :: l2)) as ->.
      { rewrite rev_app_distr. simpl. by rewrite <- app_assoc. }
      apply NoDup_ListNoDup, NoDup_rev, NoDup_ListNoDup, Hd.
Qed.

Lemma link_linked B l i :
  NoDup (HEAD :: i :: l) → (i < length B)%nat → linked B l →
  linked (alter (set_next i) HEAD (alter (set_prev i) (hd HEAD l)
           (alter (set_prev HEAD) i (alter (set_next (hd HEAD l)) i B)))) (i :: l).
Proof.
  intros Hd Hi [Hn Hp]. apply NoDup_cons in Hd as [Hh Hd]. apply NoDup_cons in Hd as [Hil Hd].
  apply not_elem_of_cons in Hh as [Hne Hh].
  assert (HEAD < length B)%nat as HH.
  { apply lookup_lt_is_Some. pose proof (chain_hd _ _ _ _ _ Hn). by destruct (B !! HEAD). }
  assert (hd HEAD l ≠ i) by (destruct l; [done|]; apply not_elem_of_cons in Hil; naive_solver).
  split; cbn [chain rev].
  - split; [apply fmap_alter_eq; [by rewrite !length_alter|done]|].
    eapply chain_move; [exact Hn|..].
    + rewrite list_lookup_alter_ne, !(fmap_alter_same b_next (set_prev _)) by done.
      by apply fmap_alter_eq.
    + intros j Hj. rewrite list_lookup_alter_ne by (by intros <-).
      rewrite !(fmap_alter_same b_next (set_prev _)) by done.
      by rewrite list_lookup_alter_ne by (by intros ->).
  - apply chain_app. split.
    + apply chain_alter_other; [done|]. rewrite <- (last_rev_hd HEAD l).
      eapply chain_retarget; [|done|].
      * apply NoDup_cons. rewrite list_elem_of_In, <- in_rev, <- list_elem_of_In.
        split; [done|]. by apply NoDup_ListNoDup, NoDup_rev, NoDup_ListNoDup.
      * apply chain_alter_out; [|by apply chain_alter_other].
        apply not_elem_of_cons. by rewrite list_elem_of_In, <- in_rev, <- list_elem_of_In.
    + cbn [chain]. rewrite fmap_alter_same by done. rewrite list_lookup_alter_ne by done.
      apply fmap_alter_eq; [by rewrite length_alter|done].
Qed.

(** [brelse]'s list surgery, as a function of the buffers. *)
Definition relink (n p : nat) (i : nat) (h : nat) (B : list buf) : list buf :=
  alter (set_next i) HEAD (alter (set_prev i) h (alter (set_prev HEAD) i (alter (set_next h) i
    (alter (set_next n) p (alter (set_prev p) n B))))).

Lemma ring_to_front B l1 i l2 :
  ring B (l1 ++ i :: l2) →
  ring (relink (hd HEAD l2) (List.last l1 HEAD) i (hd HEAD (l1 ++ l2)) B) (i :: l1 ++ l2).
Proof.
  intros [Hlen Hd Hel Hn Hp].
  assert (NoDup (HEAD :: l1 ++ i :: l2)) as Hd'.
  { apply NoDup_cons. split; [|done]. rewrite Hel. unfold HEAD. lia. }
  assert (l1 ++ i :: l2 ≡ₚ i :: l1 ++ l2) as Hperm.
  { symmetry. apply Permutation_middle. }
  assert (i < NBUF)%nat as Hi by (apply Hel; set_solver).
  destruct (link_linked (alter (set_next (hd HEAD l2)) (List.last l1 HEAD)
           (alter (set_prev (List.last l1 HEAD)) (hd HEAD l2) B)) (l1 ++ l2) i) as [??].
  - by rewrite <- Hperm.
  - rewrite !length_alter. lia.
  - by apply (unlink_linked B l1 i l2).
  - split; [unfold relink; by rewrite !length_alter|by rewrite <- Hperm| |done..].
    intros j. by rewrite <- Hperm.
Qed.
End ring.

(** * What the cache holds *)

Section cache.
Implicit Types (B : list buf) (P : gmap Z block) (H : gmap nat (Z * block)).

(** Buffer [b] is in order: [h] is the block number and data if the current process
    (with pid [pid]) holds it; [P] has the blocks that are dirty, pinned for the log;
    any other valid buffer of the disk agrees with the disk. *)
Definition buf_ok (pid : Z) P (D : disk) (h : option (Z * block)) (b : buf) : Prop :=
  match h with
  | Some (blk, d) =>
      b_dev b = 1 ∧ b_blockno b = blk ∧ b_lock b = mk_sleeplock true pid ∧
      b_refcnt b = 1 ∧ b_data b = d ∧
      b_flags b = (if decide (is_Some (P !! blk)) then 6 else 2)
  | None =>
      b_refcnt b = 0 ∧ sl_locked (b_lock b) = false ∧
      (b_flags b = 0
       ∨ (b_flags b = 2 ∧ (b_dev b = 1 → 0 ≤ b_blockno b ∧ b_data b = disk_read D (b_blockno b)))
       ∨ (b_flags b = 6 ∧ b_dev b = 1 ∧ P !! b_blockno b = Some (b_data b)))
  end.

Record cache_rep (pid : Z) P H (s : kstate) : Prop := {
  cr_held : held s = [];
  cr_running : running s pid;
  cr_ring : ∃ l, ring (bufs s) l;
  cr_buf i b : (i < NBUF)%nat → bufs s !! i = Some b → buf_ok pid P (hdisk s) (H !! i) b;
  cr_pinned blk d : P !! blk = Some d →
    ∃ i b, (i < NBUF)%nat ∧ bufs s !! i = Some b ∧ b_dev b = 1 ∧ b_blockno b = blk
           ∧ b_flags b = 6;
  cr_unique i j bi bj : (i < NBUF)%nat → (j < NBUF)%nat →
    bufs s !! i = Some bi → bufs s !! j = Some bj →
    b_dev bi = 1 → b_dev bj = 1 → b_blockno bi = b_blockno bj → i = j;
  cr_handles i blk d : H !! i = Some (blk, d) →
    (i < NBUF)%nat ∧ 0 ≤ blk < disksize (hdisk s) }.

(** What a reader of block [blk] must see. *)
Definition content P (D : disk) (blk : Z) : block :=
  match P !! blk with Some d => d | None => disk_read D blk end.

Lemma buf_at_ok s i b : bufs s !! i = Some b → buf_at i s = Ok b s.
Proof. intros Hb. unfold buf_at. mstep. by rewrite Hb. Qed.

Lemma upd_buf_ok s i b f :
  bufs s !! i = Some b →
  upd_buf_at i f s = Ok tt (s <| bufs := <[i := f b]> (bufs s) |>).
Proof. intros Hb. unfold upd_buf_at, modify, over. by rewrite (alter_lookup _ _ _ b). Qed.

Lemma ring_ext B B' l :
  length B' = length B → (∀ i, b_next <$> B' !! i = b_next <$> B !! i) →
  (∀ i, b_prev <$> B' !! i = b_prev <$> B !! i) → ring B l → ring B' l.
Proof.
  intros Hl En Ep [? ? ? Hn Hp]. split; [by rewrite Hl|done|done|..].
  - eapply chain_ext, Hn. intros i _. by rewrite En.
  - eapply chain_ext, Hp. intros i _. by rewrite Ep.
Qed.

Lemma ring_insert B l i b b' :
  B !! i = Some b → b_next b' = b_next b → b_prev b' = b_prev b →
  ring B l → ring (<[i := b']> B) l.
Proof.
  intros Hb En Ep. apply ring_ext; [apply length_insert|..]; intros j;
    (destruct (decide (i = j)) as [<-|]; [|by rewrite list_lookup_insert_ne]);
    rewrite list_lookup_insert_eq by (by eapply lookup_lt_Some); rewrite Hb; simpl; congruence.
Qed.

(** The scans of [bget] stop at the first buffer of the list that passes the test. *)
Definition scan_body (f : buf → nat) (test : buf → bool) (i : nat) : K (nat + option nat) :=
  if (i =? HEAD)%nat then mret (inr None) else
  b ← buf_at i;
  if test b then mret (inr (Some i)) else mret (inl (f b)).

Definition first_match B (test : buf → bool) (l : list nat) : option nat :=
  head (filter (λ i, default false (test <$> B !! i) = true) l).

Lemma scan_body_head f test s : scan_body f test HEAD s = Ok (inr None) s.
Proof. unfold scan_body. by rewrite Nat.eqb_refl. Qed.
Lemma scan_body_at f test s i b :
  i ≠ HEAD → bufs s !! i = Some b →
  scan_body f test i s = Ok (if test b then inr (Some i) else inl (f b)) s.
Proof.
  intros Hne Hb. unfold scan_body. destruct (Nat.eqb_spec i HEAD); [done|].
  mstep_with (buf_at_ok _ _ _ Hb). by destruct (test b).
Qed.

Lemma scan_ok f test s l n x :
  chain f (bufs s) x l HEAD → (∀ i, i ∈ l → i ≠ HEAD) → (length l < n)%nat →
  iterM n (scan_body f test) (hd HEAD l) s = Ok (first_match (bufs s) test l) s.
Proof.
  revert n x. induction l as [|i l IH]; intros n x Hc Hne Hn;
    (destruct n as [|n]; [simpl in Hn; lia|]); rewrite iterM_S; simpl hd.
  { mstep_with (scan_body_head f test s). done. }
  destruct Hc as [_ Hc]. pose proof (chain_hd _ _ _ _ _ Hc) as Hi.
  destruct (bufs s !! i) as [b|] eqn:Hb; [|done]. simpl in Hi. injection Hi as Hi.
  mstep_with (scan_body_at f test s i b (Hne i ltac:(left)) Hb). unfold first_match.
  destruct (test b) eqn:Ht.
  - rewrite filter_cons_True by (by rewrite Hb). done.
  - rewrite filter_cons_False by (rewrite Hb; simpl; congruence). rewrite Hi.
    eapply IH; [done| |simpl in Hn; lia]. intros j Hj. apply Hne. by right.
Qed.

Lemma ring_not_head B l i : ring B l → i ∈ l → i ≠ HEAD.
Proof. intros Hr Hi ->. apply (ring_elem _ _ Hr) in Hi. unfold HEAD in Hi. lia. Qed.

Lemma ring_size B l : ring B l → length l = NBUF.
Proof.
  intros Hr. assert (l ≡ₚ seq 0 NBUF) as ->; [|apply length_seq].
  apply NoDup_Permutation; [apply Hr|apply NoDup_seq|].
  intros i. rewrite (ring_elem _ _ Hr), elem_of_seq. lia.
Qed.

Lemma first_match_Some B test l i :
  first_match B test l = Some i → i ∈ l ∧ ∃ b, B !! i = Some b ∧ test b = true.
Proof.
  unfold first_match. intros Hf. apply head_Some_elem_of in Hf.
  apply list_elem_of_filter in Hf as [Ht Hi]. split; [done|].
  destruct (B !! i) as [b|]; [by exists b|done].
Qed.
Lemma first_match_None B test l i b :
  first_match B test l = None → i ∈ l → B !! i = Some b → test b = false.
Proof.
  unfold first_match. intros Hf%head_None Hi Hb. destruct (test b) eqn:Ht; [|done].
  assert (i ∈ filter (λ i, default false (test <$> B !! i) = true) l) as Hin.
  { apply list_elem_of_filter. by rewrite Hb. }
  rewrite Hf in Hin. by apply not_elem_of_nil in Hin.
Qed.

Definition caches (dev blk : Z) (b : buf) : bool := (b_dev b =? dev) && (b_blockno b =? blk).
Definition recyclable (b : buf) : bool := (b_refcnt b =? 0) && negb (flag b B_DIRTY).

Lemma bget_cached_ok s l dev blk :
  ring (bufs s) l → bget_cached dev blk s = Ok (first_match (bufs s) (caches dev blk) l) s.
Proof.
  intros Hr. unfold bget_cached. pose proof (chain_hd _ _ _ _ _ (ring_next _ _ Hr)) as Hh.
  destruct (bufs s !! HEAD) as [h|] eqn:Hb; [|done]. simpl in Hh. injection Hh as Hh.
  mstep_with (buf_at_ok _ _ _ Hb). rewrite Hh.
  apply (scan_ok b_next (caches dev blk) s l _ HEAD); [apply Hr|intros i; by apply (ring_not_head (bufs s) l)|].
  rewrite (ring_size _ _ Hr). lia.
Qed.

Lemma bget_victim_ok s l :
  ring (bufs s) l → bget_victim s = Ok (first_match (bufs s) recyclable (rev l)) s.
Proof.
  intros Hr. unfold bget_victim. pose proof (chain_hd _ _ _ _ _ (ring_prev _ _ Hr)) as Hh.
  destruct (bufs s !! HEAD) as [h|] eqn:Hb; [|done]. simpl in Hh. injection Hh as Hh.
  mstep_with (buf_at_ok _ _ _ Hb). rewrite Hh.
  apply (scan_ok b_prev recyclable s (rev l) _ HEAD); [apply Hr|..].
  - intros i Hi. apply (ring_not_head (bufs s) l); [done|].
    by rewrite list_elem_of_In, in_rev, <- list_elem_of_In.
  - rewrite length_rev, (ring_size _ _ Hr). lia.
Qed.

(** A change of buffer [i] alone (links untouched) keeps the cache in order when the
    new contents of [i] are, for the new pinned set [P'] and disk [D']. *)
Lemma cache_rep_insert pid P P' H H' (s : kstate) D' i b b' :
  cache_rep pid P H s → bufs s !! i = Some b → (i < NBUF)%nat →
  b_next b' = b_next b → b_prev b' = b_prev b →
  buf_ok pid P' D' (H' !! i) b' →
  (∀ j bj, j ≠ i → (j < NBUF)%nat → bufs s !! j = Some bj →
     buf_ok pid P (hdisk s) (H !! j) bj → buf_ok pid P' D' (H' !! j) bj) →
  (∀ blk d, P' !! blk = Some d →
     (b_dev b' = 1 ∧ b_blockno b' = blk ∧ b_flags b' = 6) ∨
     (is_Some (P !! blk) ∧ (b_dev b = 1 → b_flags b = 6 → b_blockno b ≠ blk))) →
  (∀ j bj, j ≠ i → (j < NBUF)%nat → bufs s !! j = Some bj → b_dev bj = 1 → b_dev b' = 1 →
     b_blockno bj ≠ b_blockno b') →
  (∀ j blk d, H' !! j = Some (blk, d) → (j < NBUF)%nat ∧ 0 ≤ blk < disksize D') →
  cache_rep pid P' H' (s <| bufs := <[i := b']> (bufs s) |> <| hdisk := D' |>).
Proof.
  intros [Hh Hrun [l Hr] Hbuf Hpin Huniq Hhand] Hb Hi Hn Hp Hok Hoth HP Hne Hh'.
  assert (i < length (bufs s))%nat as Hil by (by eapply lookup_lt_Some).
  split; simpl; [done|by eapply running_ext; [..|exact Hrun]|by exists l; eapply ring_insert| | | |done].
  - intros j bj Hj. destruct (decide (i = j)) as [<-|Hij].
    + rewrite list_lookup_insert_eq by done. naive_solver.
    + rewrite list_lookup_insert_ne by done. intros Hbj. apply Hoth; auto.
  - intros blk d Hd. destruct (HP _ _ Hd) as [(?&?&?)|[[d' Hd'] Hex]].
    + exists i, b'. rewrite list_lookup_insert_eq by done. naive_solver.
    + destruct (Hpin _ _ Hd') as (j & bj & Hj & Hbj & Hdev & Hblk & Hfl).
      exists j, bj. split_and!; try done. rewrite list_lookup_insert_ne; [done|].
      intros <-. rewrite Hb in Hbj. injection Hbj as <-. by apply Hex.
  - intros j k bj bk Hj Hk. destruct (decide (i = j)) as [<-|], (decide (i = k)) as [<-|];
      rewrite ?list_lookup_insert_eq, ?list_lookup_insert_ne by done; [done|..].
    + intros [= <-] Hbk ?? E. exfalso. by apply (Hne k bk).
    + intros Hbj [= <-] ?? E. exfalso. by apply (Hne j bj).
    + by apply Huniq.
Qed.

Lemma flag_dirty_2 b : b_flags b = 0 ∨ b_flags b = 2 → flag b B_DIRTY = false.
Proof. unfold flag. by intros [-> | ->]. Qed.

(** A buffer to recycle exists while the handles and the pinned blocks leave one. *)
Lemma victim_exists pid P H s :
  cache_rep pid P H s → (size P + size H < NBUF)%nat →
  ∃ i b, (i < NBUF)%nat ∧ bufs s !! i = Some b ∧ recyclable b = true.
Proof.
  intros Hc Hroom. destruct (cr_ring _ _ _ _ Hc) as [l Hr].
  assert (∀ i, (i < NBUF)%nat → is_Some (bufs s !! i)) as Hsome.
  { intros i Hi. apply lookup_lt_is_Some. rewrite (ring_length _ _ Hr). lia. }
  destruct (decide (Exists (λ i, recyclable <$> bufs s !! i = Some true) (seq 0 NBUF))) as [Hex|Hno].
  { apply Exists_exists in Hex as (i & Hi & Ht). rewrite elem_of_seq in Hi.
    destruct (bufs s !! i) as [b|] eqn:Hb; [|done]. exists i, b.
    simpl in Ht. injection Ht as Ht. split_and!; [lia|done|done]. }
  exfalso. rewrite <- Forall_Exists_neg, Forall_forall in Hno.
  set (blk := λ i, default 0 (b_blockno <$> bufs s !! i)).
  set (g := λ i, match H !! i with Some _ => inl i | None => inr (blk i) end : nat + Z).
  assert (∀ i, i ∈ seq 0 NBUF → H !! i = None →
    ∃ b, bufs s !! i = Some b ∧ b_dev b = 1 ∧ is_Some (P !! b_blockno b)) as Hbusy.
  { intros i Hi HN. pose proof (Hno i Hi) as Hx. rewrite elem_of_seq in Hi.
    destruct (Hsome i) as [b Hb]; [lia|]. exists b. split; [done|].
    pose proof (cr_buf _ _ _ _ Hc i b ltac:(lia) Hb) as Hok. rewrite HN in Hok.
    destruct Hok as (Hrc & _ & Hfl). rewrite Hb in Hx. simpl in Hx.
    destruct Hfl as [Hf|[[Hf _]|(Hf & Hd & HP)]]; [| |by eauto];
      exfalso; apply Hx; unfold recyclable; rewrite Hrc, flag_dirty_2 by auto; done. }
  assert (NoDup (g <$> seq 0 NBUF)) as Hnd.
  { apply NoDup_fmap_2_strong; [|apply NoDup_seq]. intros i j Hi Hj. unfold g.
    destruct (H !! i) eqn:Ei, (H !! j) eqn:Ej; intros [= E]; [done|].
    destruct (Hbusy i Hi Ei) as (bi & Hbi & Di & _), (Hbusy j Hj Ej) as (bj & Hbj & Dj & _).
    rewrite elem_of_seq in Hi, Hj. unfold blk in E. rewrite Hbi, Hbj in E. simpl in E.
    by apply (cr_unique _ _ _ _ Hc i j bi bj); [lia|lia|..]. }
  assert (g <$> seq 0 NBUF ⊆+ (inl <$> elements (dom H)) ++ (inr <$> elements (dom P))) as Hsub.
  { apply NoDup_submseteq; [done|]. intros x Hx. apply list_elem_of_fmap in Hx as (i & -> & Hi).
    apply elem_of_app. unfold g. destruct (H !! i) as [h|] eqn:Ei.
    - left. apply list_elem_of_fmap. exists i. split; [done|].
      apply elem_of_elements, elem_of_dom. by exists h.
    - right. destruct (Hbusy i Hi Ei) as (b & Hb & _ & HP).
      apply list_elem_of_fmap. exists (blk i). split; [done|]. unfold blk. rewrite Hb. simpl.
      by apply elem_of_elements, elem_of_dom. }
  apply submseteq_length in Hsub. rewrite length_app, !length_fmap, length_seq in Hsub.
  change (length (elements (dom H))) with (size (dom H)) in Hsub.
  change (length (elements (dom P))) with (size (dom P)) in Hsub.
  rewrite !size_dom in Hsub. lia.
Qed.

Definition lock_for (pid : Z) (b : buf) : buf := b <| b_lock := mk_sleeplock true pid |>.

Lemma lock_buf_ok s i b pid :
  held s = [LBcache] → bufs s !! i = Some b → sl_locked (b_lock b) = false → running s pid →
  (release LBcache;; acquiresleep (SBuf i);; mret i) s =
    Ok i (s <| held := [] |> <| bufs := <[i := lock_for pid b]> (bufs s) |>).
Proof.
  intros Hh Hb Hl Hr. mstep_with (release_ok LBcache s [] Hh (not_elem_of_nil _)).
  assert (acquiresleep (SBuf i) (s <| held := [] |>) =
    Ok tt (sl_set (SBuf i) (mk_sleeplock true pid) (s <| held := [] |>))) as Ha.
  { apply acquiresleep_ok with (b_lock b); [done| |done|].
    - simpl. by rewrite Hb.
    - by eapply running_ext; [..|exact Hr]. }
  mstep_with Ha. unfold sl_set. unfold over; simpl. by rewrite (alter_lookup _ _ _ b).
Qed.

(** The buffer [bget] hands out: a hit, or a recycled buffer nobody uses. *)
Definition hit (pid : Z) (b : buf) : buf := lock_for pid (b <| b_refcnt := 1 |>).
Definition recycled (pid dev blk : Z) (b : buf) : buf :=
  lock_for pid (b <| b_dev := dev |> <| b_blockno := blk |> <| b_flags := 0 |> <| b_refcnt := 1 |>).

Lemma bget_spec pid P H s blk :
  cache_rep pid P H s → (∀ i d, H !! i ≠ Some (blk, d)) →
  is_Some (P !! blk) ∨ (size P + size H < NBUF)%nat →
  ∃ i b b', bget 1 blk s = Ok i (s <| bufs := <[i := b']> (bufs s) |>)
    ∧ (i < NBUF)%nat ∧ bufs s !! i = Some b ∧ H !! i = None
    ∧ ((caches 1 blk b = true ∧ b' = hit pid b)
       ∨ (recyclable b = true ∧ b' = recycled pid 1 blk b
          ∧ ∀ j bj, (j < NBUF)%nat → bufs s !! j = Some bj → caches 1 blk bj = false)).
Proof.
  intros Hc Hnh Hroom. pose proof Hc as [Hh Hrun [l Hr] Hbuf Hpin _ _].
  assert (∀ i, i ∈ l → (i < NBUF)%nat) as Hlt by (intros i; apply (ring_elem _ _ Hr)).
  set (s1 := s <| held := LBcache :: held s |>).
  assert (running s1 pid) as Hrun1 by (by eapply running_ext; [..|exact Hrun]).
  assert (held s1 = [LBcache]) as Hh1 by (unfold s1; simpl; by rewrite Hh).
  assert (∀ B', s1 <| bufs := B' |> <| held := [] |> = s <| bufs := B' |>) as Hback.
  { intros B'. unfold s1. rewrite <- Hh. by destruct s. }
  unfold bget. mstep_with (acquire_ok LBcache s ltac:(rewrite Hh; apply not_elem_of_nil)).
  fold s1. mstep_with (bget_cached_ok s1 l 1 blk Hr).
  destruct (first_match (bufs s1) (caches 1 blk) l) as [i|] eqn:Hf.
  - apply first_match_Some in Hf as (Hi%Hlt & b & Hb & Ht). simpl in Hb.
    assert (H !! i = None) as HN.
    { pose proof (Hbuf i b Hi Hb) as Hok. destruct (H !! i) as [[blk' d]|] eqn:E; [|done].
      destruct Hok as (? & Hbk & _). apply andb_true_iff in Ht as [? Hbk'%Z.eqb_eq].
      exfalso. apply (Hnh i d). rewrite E. congruence. }
    pose proof (Hbuf i b Hi Hb) as Hok. rewrite HN in Hok. destruct Hok as (Hrc & Hl & _).
    mstep_with (upd_buf_ok s1 i b (λ b, b <| b_refcnt ::= λ n, u32 (n + 1) |>) Hb).
    erewrite lock_buf_ok; [|done|apply list_lookup_insert_eq; by eapply lookup_lt_Some|done|done].
    exists i, b, (hit pid b). split_and!; [|done..|by left].
    simpl. rewrite list_insert_insert_eq. unfold hit, over; simpl. rewrite Hrc. simpl.
    f_equal. rewrite <- Hh. by destruct s.
  - assert (∀ j bj, (j < NBUF)%nat → bufs s !! j = Some bj → caches 1 blk bj = false) as Hno.
    { intros j bj Hj Hbj. eapply first_match_None; [exact Hf|by apply (ring_elem _ _ Hr)|done]. }
    destruct Hroom as [[d Hd]|Hroom].
    { destruct (Hpin _ _ Hd) as (j & bj & Hj & Hbj & Hdev & Hbk & _).
      specialize (Hno j bj Hj Hbj). unfold caches in Hno.
      by rewrite Hdev, Hbk, !Z.eqb_refl in Hno. }
    mstep_with (bget_victim_ok s1 l Hr).
    destruct (first_match (bufs s1) recyclable (rev l)) as [i|] eqn:Hv.
    + apply first_match_Some in Hv as (Hi & b & Hb & Ht).
      rewrite list_elem_of_In, <- in_rev, <- list_elem_of_In in Hi. apply Hlt in Hi.
      simpl in Hb. pose proof (Hbuf i b Hi Hb) as Hok.
      assert (H !! i = None) as HN.
      { destruct (H !! i) as [[blk' d]|] eqn:E; [|done]. destruct Hok as (_&_&_&Hrc&_).
        unfold recyclable in Ht. by rewrite Hrc in Ht. }
      rewrite HN in Hok. destruct Hok as (Hrc & Hl & _).
      mstep_with (upd_buf_ok s1 i b (λ b, b <| b_dev := 1 |> <| b_blockno := blk |>
        <| b_flags := 0 |> <| b_refcnt := 1 |>) Hb).
      erewrite lock_buf_ok; [|done|apply list_lookup_insert_eq; by eapply lookup_lt_Some|done|done].
      exists i, b, (recycled pid 1 blk b). split_and!; [|done..|by right].
      simpl. rewrite list_insert_insert_eq. f_equal. rewrite <- Hh. by destruct s.
    + destruct (victim_exists _ _ _ _ Hc Hroom) as (i & b & Hi & Hb & Ht).
      assert (i ∈ rev l) as Hin.
      { rewrite list_elem_of_In, <- in_rev, <- list_elem_of_In. by apply (ring_elem _ _ Hr). }
      by rewrite (first_match_None _ _ _ _ _ Hv Hin Hb) in Ht.
Qed.

Lemma holds_buf s i b pid :
  held s = [] → running s pid → bufs s !! i = Some b → b_lock b = mk_sleeplock true pid →
  holdingsleep (SBuf i) s = Ok true s.
Proof. intros ?? Hb Hl. eapply holdingsleep_ok; [done..|]. simpl. by rewrite Hb, <- Hl. Qed.

Lemma iderw_read_ok s i b pid :
  held s = [] → running s pid → bufs s !! i = Some b → b_lock b = mk_sleeplock true pid →
  b_flags b = 0 → b_dev b = 1 → b_blockno b < disksize (hdisk s) →
  iderw i s = Ok tt (s <| bufs := <[i := b <| b_data := disk_read (hdisk s) (b_blockno b) |>
                                             <| b_flags := 2 |>]> (bufs s) |>).
Proof.
  intros Hh Hr Hb Hl Hf Hd Hn. unfold iderw. mstep_with (holds_buf s i b pid Hh Hr Hb Hl).
  cbn [negb]. mstep_with (buf_at_ok _ _ _ Hb). rewrite Hf, Hd.
  replace (Z.land 0 (Z.lor B_VALID B_DIRTY) =? B_VALID) with false by done. cbn [negb Z.eqb Pos.eqb].
  mstep. rewrite (proj2 (Z.leb_gt _ _)) by done.
  replace (flag b B_DIRTY) with false by (unfold flag; by rewrite Hf). mstep.
  unfold upd_buf_at, modify. f_equal. unfold over; simpl.
  rewrite (alter_lookup _ (bufs s) i b) by done.
  erewrite alter_lookup by (apply list_lookup_insert_eq; by eapply lookup_lt_Some).
  rewrite list_insert_insert_eq. simpl. by rewrite Hf.
Qed.

Lemma iderw_write_ok s i b pid :
  held s = [] → running s pid → bufs s !! i = Some b → b_lock b = mk_sleeplock true pid →
  b_flags b = 6 → b_dev b = 1 → b_blockno b < disksize (hdisk s) →
  iderw i s = Ok tt (s <| bufs := <[i := b <| b_flags := 2 |>]> (bufs s) |>
                       <| hdisk := disk_write (hdisk s) (b_blockno b) (b_data b) |>).
Proof.
  intros Hh Hr Hb Hl Hf Hd Hn. unfold iderw. mstep_with (holds_buf s i b pid Hh Hr Hb Hl).
  cbn [negb]. mstep_with (buf_at_ok _ _ _ Hb). rewrite Hf, Hd.
  replace (Z.land 6 (Z.lor B_VALID B_DIRTY) =? B_VALID) with false by done. cbn [negb Z.eqb Pos.eqb].
  mstep. rewrite (proj2 (Z.leb_gt _ _)) by done.
  replace (flag b B_DIRTY) with true by (unfold flag; by rewrite Hf). unfold upd_buf_at. repeat mstep.
  unfold modify. f_equal. unfold over; simpl.
  rewrite (alter_lookup _ (bufs s) i b) by done.
  erewrite alter_lookup by (apply list_lookup_insert_eq; by eapply lookup_lt_Some).
  rewrite list_insert_insert_eq. simpl. by rewrite Hf.
Qed.

Definition handle_buf (pid : Z) P (blk : Z) (d : block) (b : buf) : Prop :=
  b_dev b = 1 ∧ b_blockno b = blk ∧ b_lock b = mk_sleeplock true pid ∧ b_refcnt b = 1
  ∧ b_data b = d ∧ b_flags b = (if decide (is_Some (P !! blk)) then 6 else 2).

(** The cache after buffer [i], which nobody held, has become a handle on [blk]. *)
Lemma cache_rep_acquire pid P H s i b b' blk :
  cache_rep pid P H s → bufs s !! i = Some b → (i < NBUF)%nat → H !! i = None →
  0 ≤ blk < disksize (hdisk s) →
  b_next b' = b_next b → b_prev b' = b_prev b →
  handle_buf pid P blk (content P (hdisk s) blk) b' →
  (b_dev b = 1 → b_flags b = 6 → b_blockno b = blk) →
  (∀ j bj, j ≠ i → (j < NBUF)%nat → bufs s !! j = Some bj → b_dev bj = 1 → b_blockno bj ≠ blk) →
  cache_rep pid P (<[i := (blk, content P (hdisk s) blk)]> H) (s <| bufs := <[i := b']> (bufs s) |>).
Proof.
  intros Hc Hb Hi HN Hblk En Ep Hok Hpin Hne.
  apply (cache_rep_insert pid P P H _ s (hdisk s) i b b'); [done..| | | | |].
  - by rewrite lookup_insert_eq.
  - intros j bj Hj. by rewrite lookup_insert_ne.
  - intros blk' d Hd. destruct Hok as (? & ? & ? & ? & ? & Hf).
    destruct (decide (blk' = blk)) as [->|].
    + left. rewrite decide_True in Hf by eauto. done.
    + right. split; [by exists d|]. intros ??. rewrite Hpin; done.
  - intros j bj Hj Hlt Hbj Hdev _. destruct Hok as (_ & -> & _). by apply (Hne j).
  - intros j blk' d'. rewrite lookup_insert. case_decide as Hij.
    + intros [= <- <-]. by subst.
    + apply (cr_handles _ _ _ _ Hc).
Qed.

Lemma bread_spec pid P H s blk :
  cache_rep pid P H s → 0 ≤ blk < disksize (hdisk s) → (∀ i d, H !! i ≠ Some (blk, d)) →
  is_Some (P !! blk) ∨ (size P + size H < NBUF)%nat →
  ∃ i B', bread 1 blk s = Ok i (s <| bufs := B' |>) ∧ H !! i = None
    ∧ cache_rep pid P (<[i := (blk, content P (hdisk s) blk)]> H) (s <| bufs := B' |>).
Proof.
  intros Hc Hblk Hnh Hroom. pose proof Hc as [Hh Hrun _ Hbuf Hpin Huniq _].
  destruct (bget_spec _ _ _ _ _ Hc Hnh Hroom) as (i & b & b' & Hg & Hi & Hb & HN & Hcase).
  assert (i < length (bufs s))%nat as Hlen by (by eapply lookup_lt_Some).
  set (s1 := s <| bufs := <[i := b']> (bufs s) |>) in *.
  assert (bufs s1 !! i = Some b') as Hb1 by (by apply list_lookup_insert_eq).
  assert (running s1 pid) as Hr1 by (by eapply running_ext; [..|exact Hrun]).
  pose proof (Hbuf i b Hi Hb) as Hok. rewrite HN in Hok. destruct Hok as (Hrc & Hl & Hfl).
  assert (b_flags b' = 0 ∨ b_flags b' = 2 ∨ b_flags b' = 6) as Hf0.
  { destruct Hcase as [[_ ->]|(_ & -> & _)]; simpl; [|by left].
    destruct Hfl as [?|[[? _]|[? _]]]; auto. }
  assert (b_dev b' = 1 ∧ b_blockno b' = blk ∧ b_lock b' = mk_sleeplock true pid
    ∧ b_refcnt b' = 1 ∧ b_next b' = b_next b ∧ b_prev b' = b_prev b) as (Hd' & Hk' & Hl' & Hr' & En & Ep).
  { destruct Hcase as [[Ht ->]|(_ & -> & _)]; [|done].
    apply andb_true_iff in Ht as [?%Z.eqb_eq ?%Z.eqb_eq]. done. }
  assert (∀ j bj, j ≠ i → (j < NBUF)%nat → bufs s !! j = Some bj → b_dev bj = 1 → b_blockno bj ≠ blk) as Hne.
  { intros j bj Hj Hlt Hbj Hdev Hk. destruct Hcase as [[Ht _]|(_ & _ & Hno)].
    - apply andb_true_iff in Ht as [?%Z.eqb_eq ?%Z.eqb_eq].
      apply Hj. eapply (Huniq j i bj b); congruence.
    - specialize (Hno j bj Hlt Hbj). unfold caches in Hno. by rewrite Hdev, Hk, !Z.eqb_refl in Hno. }
  assert (b_dev b = 1 → b_flags b = 6 → b_blockno b = blk) as Hpb.
  { intros _ Hf. destruct Hcase as [[Ht _]|(Ht & _)].
    - by apply andb_true_iff in Ht as [_ ?%Z.eqb_eq].
    - unfold recyclable, flag in Ht. rewrite Hf in Ht. by rewrite andb_false_r in Ht. }
  assert (b_flags b' ≠ 6 → P !! blk = None) as HPN.
  { intros Hf. apply eq_None_not_Some. intros [d Hd].
    destruct (Hpin _ _ Hd) as (j & bj & Hj & Hbj & Hdj & Hkj & Hfj).
    destruct (decide (j = i)) as [->|]; [|by apply (Hne j bj)].
    assert (bj = b) as -> by congruence. destruct Hcase as [[_ ->]|(Ht & _)]; [done|].
    unfold recyclable, flag in Ht. rewrite Hfj in Ht. by rewrite andb_false_r in Ht. }
  unfold bread. mstep_with Hg. mstep_with (buf_at_ok _ _ _ Hb1).
  destruct (decide (b_flags b' = 0)) as [Hf|Hf].
  - replace (flag b' B_VALID) with false by (unfold flag; by rewrite Hf). cbn [negb].
    assert (iderw i s1 = _) as Hrd by (apply (iderw_read_ok s1 i b' pid); [done..|rewrite Hk'; simpl; lia]).
    mstep_with Hrd. eexists i, _. split; [simpl; by rewrite list_insert_insert_eq|]. split; [done|].
    eapply cache_rep_acquire; [done|done|done|done|done|done|done| |done|done].
    unfold handle_buf. rewrite decide_False by (rewrite HPN by congruence; by intros [? ?]).
    unfold content. rewrite HPN by congruence. unfold over; simpl. by rewrite Hk'.
  - destruct Hf0 as [?|Hv]; [done|].
    assert (flag b' B_VALID = true) as -> by (unfold flag; by destruct Hv as [-> | ->]).
    cbn [negb]. mstep. exists i, (<[i := b']> (bufs s)). split_and!; [done..|].
    destruct Hcase as [[Ht Eb]|(_ & Eb & _)]; [|by rewrite Eb in Hf].
    eapply cache_rep_acquire; [done|done|done|done|done|done|done| |done|done].
    unfold handle_buf. split_and!; [done..| |].
    + rewrite Eb in Hv |- *. unfold hit, lock_for, over in Hv |- *. simpl in *.
      apply andb_true_iff in Ht as [Hd%Z.eqb_eq Hk%Z.eqb_eq]. unfold content.
      destruct Hfl as [?|[[Hfl Hdk]|(Hfl & _ & HP)]]; [lia|..].
      * rewrite HPN by (rewrite Eb; unfold over; simpl; lia). rewrite <- Hk. by apply Hdk.
      * by rewrite <- Hk, HP.
    + case_decide as HP.
      * destruct Hv as [Hv|Hv]; [|done]. rewrite HPN in HP by lia. by destruct HP.
      * destruct Hv as [Hv|Hv]; [done|]. exfalso. apply HP.
        rewrite Eb in Hv. simpl in Hv.
        apply andb_true_iff in Ht as [_ Hk%Z.eqb_eq].
        destruct Hfl as [?|[[? _]|(_ & _ & HPb)]]; [simpl in *; lia..|]. rewrite <- Hk. by eexists.
Qed.

(** ** The disk *)
Lemma contents_write D blk d :
  contents (disk_write D blk d) = <[Z.to_nat blk := d]> (contents D).
Proof. unfold contents, disk_write, apply_writes. simpl. by rewrite foldl_snoc. Qed.

Lemma length_contents D : length (contents D) = length (d_image D).
Proof.
  unfold contents, apply_writes. generalize (d_image D). induction (d_writes D) as [|[b d] w IH];
    intros img; simpl; [done|]. by rewrite IH, length_insert.
Qed.

Lemma disk_read_write_eq D blk d :
  0 ≤ blk < disksize D → disk_read (disk_write D blk d) blk = d.
Proof.
  intros. unfold disk_read. rewrite contents_write. apply list_lookup_total_insert_eq.
  rewrite length_contents. unfold disksize in *. lia.
Qed.
Lemma disk_read_write_ne D blk d b :
  0 ≤ blk → 0 ≤ b → b ≠ blk → disk_read (disk_write D blk d) b = disk_read D b.
Proof.
  intros. unfold disk_read. rewrite contents_write. apply list_lookup_total_insert_ne. lia.
Qed.
Lemma disksize_write D blk d : disksize (disk_write D blk d) = disksize D.
Proof. done. Qed.

(** ** Writing a held buffer through to the disk *)
Lemma bwrite_spec pid P H s i blk d :
  cache_rep pid P H s → H !! i = Some (blk, d) →
  ∃ B', bwrite i s = Ok tt (s <| bufs := B' |> <| hdisk := disk_write (hdisk s) blk d |>)
    ∧ cache_rep pid (delete blk P) H (s <| bufs := B' |> <| hdisk := disk_write (hdisk s) blk d |>).
Proof.
  intros Hc Hi. pose proof Hc as [Hh Hrun [l Hr] Hbuf Hpin Huniq Hhand].
  destruct (Hhand _ _ _ Hi) as [Hlt Hblk].
  assert (is_Some (bufs s !! i)) as [b Hb].
  { apply lookup_lt_is_Some. rewrite (ring_length _ _ Hr). lia. }
  pose proof (Hbuf i b Hlt Hb) as Hok. rewrite Hi in Hok. destruct Hok as (Hd & Hk & Hl & Hrc & Hdat & Hf).
  assert (i < length (bufs s))%nat as Hlen by (by eapply lookup_lt_Some).
  set (b1 := b <| b_flags ::= λ f, Z.lor f B_DIRTY |>).
  assert (b_flags b1 = 6) as Hf1 by (unfold b1, over; simpl; rewrite Hf; by case_decide).
  set (s1 := s <| bufs := <[i := b1]> (bufs s) |>).
  eassert (iderw i s1 = _) as Hw.
  { apply (iderw_write_ok s1 i b1 pid); [done|by eapply running_ext; [..|exact Hrun]| |done..|simpl; lia].
    by apply list_lookup_insert_eq. }
  unfold bwrite. mstep_with (holds_buf s i b pid Hh Hrun Hb Hl). cbn [negb].
  mstep_with (upd_buf_ok s i b (λ b, b <| b_flags ::= λ f, Z.lor f B_DIRTY |>) Hb).
  fold b1 s1. rewrite Hw. simpl. rewrite list_insert_insert_eq, Hk, Hdat.
  exists (<[i := b1 <| b_flags := 2 |>]> (bufs s)). split; [done|].
  assert (∀ j bj, j ≠ i → (j < NBUF)%nat → bufs s !! j = Some bj → b_dev bj = 1 → b_blockno bj ≠ blk) as Hne.
  { intros j bj Hj ? Hbj ??. apply Hj. apply (Huniq j i bj b); congruence. }
  apply (cache_rep_insert pid P (delete blk P) H H s _ i b); [done..| | | | |by apply Hhand].
  - rewrite Hi. unfold buf_ok. rewrite decide_False; [done|]. rewrite lookup_delete_eq. by intros [? ?].
  - intros j bj Hj Hjl Hbj. specialize (Hne j bj Hj Hjl Hbj). unfold buf_ok.
    destruct (H !! j) as [[blk' d']|].
    + intros (? & Hk' & ?&?&?& Hfl). rewrite lookup_delete_ne by (rewrite <- Hk'; naive_solver). done.
    + intros (?&?&Hfl). split_and!; [done..|]. destruct Hfl as [?|[[? Hdk]|(?&?&?)]]; [auto|..].
      * right; left. split; [done|]. intros Hdev. destruct (Hdk Hdev). split; [done|].
        rewrite disk_read_write_ne by (auto; lia). done.
      * right; right. rewrite lookup_delete_ne by naive_solver. done.
  - intros blk' d' [Hne' Hd']%lookup_delete_Some. right. split; [by eexists|]. intros _ _. by rewrite Hk.
  - intros j bj Hj Hjl Hbj Hdev _. unfold over; simpl. rewrite Hk. by apply (Hne j).
Qed.

(** ** Releasing a buffer *)
Definition nolinks (b : buf) : buf := b <| b_prev := 0%nat |> <| b_next := 0%nat |>.

Lemma nolinks_alter g p B j :
  (∀ b, nolinks (g b) = nolinks b) → nolinks <$> alter g p B !! j = nolinks <$> B !! j.
Proof.
  intros E. destruct (decide (p = j)) as [->|].
  - rewrite list_lookup_alter_eq. destruct (B !! j); simpl; by rewrite ?E.
  - by rewrite list_lookup_alter_ne.
Qed.
Lemma relink_nolinks n p i h B j : nolinks <$> relink n p i h B !! j = nolinks <$> B !! j.
Proof. unfold relink. by rewrite !nolinks_alter. Qed.

(** The order of the list does not matter to what the cache holds. *)
Lemma cache_rep_relink pid P H s B' :
  cache_rep pid P H s → (∃ l, ring B' l) →
  (∀ j, nolinks <$> B' !! j = nolinks <$> bufs s !! j) →
  cache_rep pid P H (s <| bufs := B' |>).
Proof.
  intros [Hh Hrun _ Hbuf Hpin Huniq Hhand] Hr' E.
  assert (∀ j b, B' !! j = Some b → ∃ b0, bufs s !! j = Some b0 ∧ nolinks b = nolinks b0) as Efwd.
  { intros j b Hb. specialize (E j). rewrite Hb in E. symmetry in E.
    apply fmap_Some in E as (b0 & ? & ?). eauto. }
  assert (∀ b b0, nolinks b = nolinks b0 → b_dev b = b_dev b0 ∧ b_blockno b = b_blockno b0
    ∧ b_flags b = b_flags b0 ∧ ∀ P D h, buf_ok pid P D h b0 → buf_ok pid P D h b) as Heq.
  { intros [] []. unfold nolinks, over; simpl. intros [= -> -> -> -> -> ->].
    split_and!; [done..|]. by intros ???. }
  split; simpl; [done|by eapply running_ext; [..|exact Hrun]|done| | | |done].
  - intros j b Hj Hb. destruct (Efwd _ _ Hb) as (b0 & Hb0 & En).
    destruct (Heq _ _ En) as (_&_&_&Hok). apply Hok. by apply Hbuf.
  - intros blk d Hd. destruct (Hpin _ _ Hd) as (j & b0 & Hj & Hb0 & ?&?&?).
    specialize (E j). rewrite Hb0 in E. apply fmap_Some in E as (b & Hb & En).
    destruct (Heq b b0) as (?&?&?&_); [done|]. exists j, b. split_and!; congruence || done.
  - intros j k bj bk Hj Hk Hbj Hbk ???.
    destruct (Efwd _ _ Hbj) as (b0 & Hb0 & En0), (Efwd _ _ Hbk) as (b1 & Hb1 & En1).
    destruct (Heq _ _ En0) as (?&?&_), (Heq _ _ En1) as (?&?&_).
    apply (Huniq j k b0 b1); congruence.
Qed.

Lemma cache_rep_ptable pid P H s pt :
  cache_rep pid P H s → running (s <| ptable := pt |>) pid → cache_rep pid P H (s <| ptable := pt |>).
Proof. by intros [] ?. Qed.

Lemma upd_buf_at_eq s i f : upd_buf_at i f s = Ok tt (s <| bufs := alter f i (bufs s) |>).
Proof. done. Qed.

Lemma link_front_ok s i h :
  i ≠ HEAD → b_next <$> bufs s !! HEAD = Some h →
  link_front i s = Ok tt (s <| bufs := alter (set_next i) HEAD (alter (set_prev i) h
    (alter (set_prev HEAD) i (alter (set_next h) i (bufs s)))) |>).
Proof.
  intros Hi (b & Hb & ->)%fmap_Some. unfold link_front.
  mstep_with (buf_at_ok s HEAD b Hb). unfold upd_buf_at. repeat mstep.
  set (s1 := over bufs _ (over bufs _ s)).
  assert (bufs s1 !! HEAD = Some b) as Hb1 by (simpl; by rewrite !list_lookup_alter_ne).
  mstep_with (buf_at_ok s1 HEAD b Hb1). by mstep.
Qed.

(** The cache after buffer [i] has been unlocked with its data in order. *)
Lemma cache_rep_release pid P H s i b blk :
  cache_rep pid P H s → bufs s !! i = Some b →
  H !! i = Some (blk, content P (hdisk s) blk) →
  cache_rep pid P (delete i H)
    (s <| bufs := <[i := b <| b_lock := unlocked |> <| b_refcnt := 0 |>]> (bufs s) |>).
Proof.
  intros Hc Hb Hi. pose proof Hc as [_ _ _ Hbuf _ Huniq Hhand].
  destruct (Hhand _ _ _ Hi) as [Hlt Hblk]. pose proof (Hbuf i b Hlt Hb) as Hok.
  rewrite Hi in Hok. destruct Hok as (Hd & Hk & _ & _ & Hdat & Hf).
  apply (cache_rep_insert pid P P H _ s (hdisk s) i b); [done..| | | | |].
  - rewrite lookup_delete_eq. unfold buf_ok. split_and!; [done..|].
    change (b_flags (b <| b_lock := unlocked |> <| b_refcnt := 0 |>)) with (b_flags b).
    change (b_dev (b <| b_lock := unlocked |> <| b_refcnt := 0 |>)) with (b_dev b).
    change (b_blockno (b <| b_lock := unlocked |> <| b_refcnt := 0 |>)) with (b_blockno b).
    change (b_data (b <| b_lock := unlocked |> <| b_refcnt := 0 |>)) with (b_data b).
    rewrite Hk, Hdat. unfold content. case_decide as HP.
    + right; right. destruct HP as [d HP]. by rewrite HP.
    + right; left. apply eq_None_not_Some in HP. rewrite HP. split; [done|]. split; [lia|done].
  - intros j bj Hj. by rewrite lookup_delete_ne.
  - intros blk' d' Hd'. destruct (decide (blk' = blk)) as [->|].
    + left. split_and!; [done..|]. change (b_flags b = 6). rewrite Hf.
      by rewrite decide_True by eauto.
    + right. split; [by eexists|]. intros _ _. by rewrite Hk.
  - intros j bj Hj Hjl Hbj Hdev _ Hkj. apply Hj. apply (Huniq j i bj b); done.
  - intros j blk' d' [_ Hd']%lookup_delete_Some. by apply (Hhand j blk' d').
Qed.

(** [brelse]'s surgery on the list computes [relink]. *)
Lemma relink_ok s l1 i l2 b :
  ring (bufs s) (l1 ++ i :: l2) → bufs s !! i = Some b →
  (upd_buf_at (b_next b) (λ b', b' <| b_prev := b_prev b |>);;
   b ← buf_at i;
   upd_buf_at (b_prev b) (λ b', b' <| b_next := b_next b |>);;
   link_front i) s =
  Ok tt (s <| bufs := relink (hd HEAD l2) (List.last l1 HEAD) i (hd HEAD (l1 ++ l2)) (bufs s) |>).
Proof.
  intros Hr Hb. pose proof Hr as [Hlen Hd Hel Hn Hp].
  destruct (linked_at (bufs s) l1 i l2 b) as [En Ep]; [done..|].
  assert (NoDup (HEAD :: l1 ++ i :: l2)) as Hd'.
  { apply NoDup_cons. split; [|done]. rewrite Hel. unfold HEAD. lia. }
  assert (i ≠ HEAD) as HiH by (apply (ring_not_head _ _ _ Hr); set_solver).
  assert (i ∉ HEAD :: l1 ++ l2) as Hni.
  { intros Hin. change (HEAD :: l1 ++ i :: l2) with ((HEAD :: l1) ++ i :: l2) in Hd'.
    apply NoDup_app in Hd' as (_ & Hdis & [Hi2 _]%NoDup_cons).
    rewrite app_comm_cons, elem_of_app in Hin. destruct Hin as [Hin|]; [|done].
    apply (Hdis _ Hin). left. }
  assert (i ≠ hd HEAD l2) as Hi2 by (intros ->; apply Hni; destruct l2; set_solver).
  assert (i ≠ List.last l1 HEAD) as Hi1.
  { intros Heq. apply Hni. rewrite app_comm_cons, elem_of_app. left.
    rewrite Heq. apply last_in. }
  destruct (unlink_linked (bufs s) l1 i l2) as [Hun _]; [done..|].
  rewrite <- En, <- Ep in Hun.
  mstep_with (upd_buf_at_eq s (b_next b) (λ b', b' <| b_prev := b_prev b |>)).
  rewrite En, Ep in *. fold (set_prev (List.last l1 HEAD)).
  set (B1 := alter (set_prev (List.last l1 HEAD)) (hd HEAD l2) (bufs s)) in *.
  assert (B1 !! i = Some b) as Hb1 by (unfold B1; by rewrite list_lookup_alter_ne).
  mstep_with (buf_at_ok (s <| bufs := B1 |>) i b Hb1). rewrite En, Ep.
  set (B2 := alter (set_next (hd HEAD l2)) (List.last l1 HEAD) B1) in *.
  assert (upd_buf_at (List.last l1 HEAD) (λ b', b' <| b_next := hd HEAD l2 |>)
    (s <| bufs := B1 |>) = Ok tt (s <| bufs := B2 |>)) as Hup by done.
  mstep_with Hup. rewrite (link_front_ok (s <| bufs := B2 |>) i (hd HEAD (l1 ++ l2))); [done|done|].
  by apply chain_hd in Hun.
Qed.

Lemma brelse_spec pid P H s i blk :
  cache_rep pid P H s → H !! i = Some (blk, content P (hdisk s) blk) →
  ∃ B', brelse i s = Ok tt (wakes (ChSleep (SBuf i)) (s <| bufs := B' |>))
    ∧ cache_rep pid P (delete i H) (wakes (ChSleep (SBuf i)) (s <| bufs := B' |>))
    ∧ ∃ l1 l2, ring (bufs s) (l1 ++ i :: l2) ∧ ring B' (i :: l1 ++ l2).
Proof.
  intros Hc Hi. pose proof Hc as [Hh Hrun [l Hr] Hbuf Hpin Huniq Hhand].
  destruct (Hhand _ _ _ Hi) as [Hlt Hblk].
  assert (is_Some (bufs s !! i)) as [b Hb].
  { apply lookup_lt_is_Some. rewrite (ring_length _ _ Hr). lia. }
  pose proof (Hbuf i b Hlt Hb) as Hok. rewrite Hi in Hok. destruct Hok as (Hd & Hk & Hl & Hrc & Hdat & Hf).
  assert (i < length (bufs s))%nat as Hlen by (by eapply lookup_lt_Some).
  assert (i ∈ l) as (l1 & l2 & ->)%list_elem_of_split by (by apply (ring_elem _ _ Hr)).
  set (b1 := b <| b_lock := unlocked |> <| b_refcnt := 0 |>).
  set (B1 := <[i := b1]> (bufs s)).
  assert (ring B1 (l1 ++ i :: l2)) as Hr1 by (by eapply ring_insert).
  assert (cache_rep pid P (delete i H) (s <| bufs := B1 |>)) as Hc1.
  { apply (cache_rep_release pid P H s i b blk); done. }
  set (B2 := relink (hd HEAD l2) (List.last l1 HEAD) i (hd HEAD (l1 ++ l2)) B1).
  assert (ring B2 (i :: l1 ++ l2)) as Hr2 by (by apply ring_to_front).
  exists B2. split_and!; [| |by exists l1, l2].
  - unfold brelse. mstep_with (holds_buf s i b pid Hh Hrun Hb Hl). cbn [negb].
    mstep_with (releasesleep_ok s (SBuf i) Hh).
    set (s1 := wakes (ChSleep (SBuf i)) (sl_set (SBuf i) unlocked s)).
    mstep_with (acquire_ok LBcache s1 ltac:(simpl; rewrite Hh; apply not_elem_of_nil)).
    assert (bufs s1 !! i = Some (b <| b_lock := unlocked |>)) as Hb1.
    { simpl. by rewrite list_lookup_alter_eq, Hb. }
    set (s1' := s1 <| held := LBcache :: held s1 |>).
    mstep_with (upd_buf_ok s1' i _ (λ b, b <| b_refcnt ::= λ n, u32 (n - 1) |>) Hb1).
    set (s2 := over bufs _ s1').
    assert (bufs s2 = B1) as HB1.
    { unfold s2, s1', s1, B1, b1, over; simpl. rewrite (alter_lookup _ _ _ _ Hb), list_insert_insert_eq.
      unfold over; simpl. by rewrite Hrc. }
    assert (bufs s2 !! i = Some b1) as Hb2 by (rewrite HB1; by apply list_lookup_insert_eq).
    mstep_with (buf_at_ok s2 i b1 Hb2). cbn [Z.eqb b_refcnt b1 over].
    rewrite <- HB1 in Hr1.
    mstep_with (relink_ok s2 l1 i l2 b1 Hr1 Hb2). rewrite HB1. fold B2.
    rewrite (release_ok LBcache _ []); [|unfold s2, s1', s1; simpl; by rewrite Hh|apply not_elem_of_nil].
    f_equal. unfold s2, s1', s1, wakes, over; simpl. by rewrite <- Hh.
  - unfold wakes. apply (cache_rep_ptable pid P (delete i H) (s <| bufs := B2 |>) (wake (ChSleep (SBuf i)) <$> ptable s)).
    + pose proof (cache_rep_relink pid P (delete i H) (s <| bufs := B1 |>) B2 Hc1) as Hrel.
      apply Hrel; [by eexists|]. intros j. apply relink_nolinks.
    + assert (running (s <| bufs := B2 |>) pid) as Hrun2 by (by eapply running_ext; [..|exact Hrun]).
      exact (running_wakes _ (ChSleep (SBuf i)) _ Hrun2).
Qed.

(** ** What the holder of a buffer does to it *)
Definition rest (s : kstate) : kstate :=
  s <| bufs := [] |> <| ptable := [] |> <| hdisk := mk_disk [] [] |>.

Lemma handle_lookup pid P H s i blk d :
  cache_rep pid P H s → H !! i = Some (blk, d) →
  ∃ b, bufs s !! i = Some b ∧ (i < NBUF)%nat ∧ b_dev b = 1 ∧ b_blockno b = blk
    ∧ b_lock b = mk_sleeplock true pid ∧ b_refcnt b = 1 ∧ b_data b = d
    ∧ b_flags b = (if decide (is_Some (P !! blk)) then 6 else 2).
Proof.
  intros Hc Hi. pose proof Hc as [_ _ [l Hr] Hbuf _ _ Hhand].
  destruct (Hhand _ _ _ Hi) as [Hlt _].
  destruct (lookup_lt_is_Some_2 (bufs s) i) as [b Hb]; [rewrite (ring_length _ _ Hr); lia|].
  exists b. specialize (Hbuf i b Hlt Hb). by rewrite Hi in Hbuf.
Qed.

(** A held buffer [i] takes new data and flags [f']; [P'] differs from [P] at most at
    its block. *)
Lemma cache_rep_modify pid P P' H s i b blk d d' f' :
  cache_rep pid P H s → H !! i = Some (blk, d) → bufs s !! i = Some b →
  (∀ k, k ≠ blk → P' !! k = P !! k) →
  f' = (if decide (is_Some (P' !! blk)) then 6 else 2) →
  cache_rep pid P' (<[i := (blk, d')]> H)
    (s <| bufs := <[i := b <| b_data := d' |> <| b_flags := f' |>]> (bufs s) |>).
Proof.
  intros Hc Hi Hb HP Hf'. pose proof Hc as [_ _ _ Hbuf _ Huniq Hhand].
  destruct (Hhand _ _ _ Hi) as [Hlt Hblk]. pose proof (Hbuf i b Hlt Hb) as Hok.
  rewrite Hi in Hok. destruct Hok as (Hd & Hk & Hl & Hrc & Hdat & Hf).
  assert (∀ j bj, j ≠ i → (j < NBUF)%nat → bufs s !! j = Some bj → b_dev bj = 1 → b_blockno bj ≠ blk) as Hne.
  { intros j bj Hj ? Hbj ??. apply Hj. apply (Huniq j i bj b); congruence. }
  apply (cache_rep_insert pid P P' H _ s (hdisk s) i b); [done..| | | | |].
  - rewrite lookup_insert_eq. done.
  - intros j bj Hj Hjl Hbj. specialize (Hne j bj Hj Hjl Hbj). rewrite lookup_insert_ne by done.
    unfold buf_ok. destruct (H !! j) as [[blk' d0]|].
    + intros (?&Hk'&?&?&?&?). rewrite HP by (rewrite <- Hk'; auto). done.
    + intros (?&?&Hfl). split_and!; [done..|]. destruct Hfl as [?|[?|(?&?&?)]]; [auto..|].
      right; right. rewrite HP by auto. done.
  - intros k dk Hkd. destruct (decide (k = blk)) as [->|].
    + left. split_and!; [done..|]. change (f' = 6). rewrite Hf'. by rewrite decide_True by eauto.
    + right. rewrite HP in Hkd by done. split; [by eexists|]. intros _ _. by rewrite Hk.
  - intros j bj Hj Hjl Hbj Hdev _. change (b_blockno bj ≠ b_blockno b). rewrite Hk. by apply (Hne j).
  - intros j blk' d0 [[<- [= <- <-]]|[_ Hj]]%lookup_insert_Some; [done|by apply Hhand in Hj].
Qed.

Lemma bdata_run pid P H s i blk d :
  cache_rep pid P H s → H !! i = Some (blk, d) → bdata i s = Ok d s.
Proof.
  intros Hc Hi. destruct (handle_lookup _ _ _ _ _ _ _ Hc Hi) as (b & Hb & _ & _&_&_&_& <- &_).
  unfold bdata. by mstep_with (buf_at_ok _ _ _ Hb).
Qed.

Lemma set_bdata_run pid P H s i blk d d' :
  cache_rep pid P H s → H !! i = Some (blk, d) →
  ∃ s', set_bdata i d' s = Ok tt s' ∧ hdisk s' = hdisk s ∧ rest s' = rest s
    ∧ cache_rep pid P (<[i := (blk, d')]> H) s'.
Proof.
  intros Hc Hi. destruct (handle_lookup _ _ _ _ _ _ _ Hc Hi) as (b & Hb & _ & _&_&_&_&_&Hf).
  eexists. split; [apply (upd_buf_ok s i b (λ b, b <| b_data := d' |>) Hb)|]. split_and!; [done..|].
  pose proof (cache_rep_modify pid P P H s i b blk d d' (b_flags b) Hc Hi Hb ltac:(done) Hf) as Hm.
  by destruct b.
Qed.

(** Setting [B_DIRTY] pins the block. *)
Lemma set_dirty_run pid P H s i blk d :
  cache_rep pid P H s → H !! i = Some (blk, d) →
  ∃ s', upd_buf_at i (λ b, b <| b_flags ::= λ f, Z.lor f B_DIRTY |>) s = Ok tt s'
    ∧ hdisk s' = hdisk s ∧ rest s' = rest s ∧ cache_rep pid (<[blk := d]> P) H s'.
Proof.
  intros Hc Hi. destruct (handle_lookup _ _ _ _ _ _ _ Hc Hi) as (b & Hb & _ & Hd&Hk&Hl&Hrc&Hdat&Hf).
  eexists. split; [apply (upd_buf_ok s i b (λ b, b <| b_flags ::= λ f, Z.lor f B_DIRTY |>) Hb)|].
  split_and!; [done..|].
  assert (b <| b_flags ::= λ f, Z.lor f B_DIRTY |> = b <| b_data := d |> <| b_flags := 6 |>) as ->.
  { assert (Z.lor (b_flags b) B_DIRTY = 6) by (rewrite Hf; by case_decide).
    destruct b; unfold over; simpl in *. congruence. }
  pose proof (cache_rep_modify pid P (<[blk:=d]> P) H s i b blk d d 6 Hc Hi Hb) as Hm.
  rewrite (insert_id H) in Hm by done. apply Hm.
  - intros k ?. by rewrite lookup_insert_ne.
  - by rewrite lookup_insert_eq, decide_True by eauto.
Qed.

(** ** The operations, as their callers use them *)
Lemma bread_run pid P H s blk :
  cache_rep pid P H s → 0 ≤ blk < disksize (hdisk s) → (∀ i d, H !! i ≠ Some (blk, d)) →
  is_Some (P !! blk) ∨ (size P + size H < NBUF)%nat →
  ∃ i s', bread 1 blk s = Ok i s' ∧ H !! i = None ∧ hdisk s' = hdisk s ∧ rest s' = rest s
    ∧ cache_rep pid P (<[i := (blk, content P (hdisk s) blk)]> H) s'.
Proof.
  intros Hc Hblk Hnh Hroom. destruct (bread_spec _ _ _ _ _ Hc Hblk Hnh Hroom) as (i & B' & E & HN & Hc').
  by exists i, (s <| bufs := B' |>).
Qed.

Lemma bwrite_run pid P H s i blk d :
  cache_rep pid P H s → H !! i = Some (blk, d) →
  ∃ s', bwrite i s = Ok tt s' ∧ hdisk s' = disk_write (hdisk s) blk d ∧ rest s' = rest s
    ∧ cache_rep pid (delete blk P) H s'.
Proof.
  intros Hc Hi. destruct (bwrite_spec _ _ _ _ _ _ _ Hc Hi) as (B' & E & Hc').
  by exists (s <| bufs := B' |> <| hdisk := disk_write (hdisk s) blk d |>).
Qed.

Lemma brelse_run pid P H s i blk d :
  cache_rep pid P H s → H !! i = Some (blk, d) → d = content P (hdisk s) blk →
  ∃ s', brelse i s = Ok tt s' ∧ hdisk s' = hdisk s ∧ rest s' = rest s
    ∧ cache_rep pid P (delete i H) s'.
Proof.
  intros Hc Hi ->. destruct (brelse_spec _ _ _ _ _ _ Hc Hi) as (B' & E & Hc' & _).
  by exists (wakes (ChSleep (SBuf i)) (s <| bufs := B' |>)).
Qed.

(** ** Initialisation *)

(** A buffer of the kernel's zeroed data segment. *)
Definition fresh_buf (d : block) : buf := mk_buf 0 0 0 unlocked 0 0 0 d.
Definition fresh_bufs (d : block) : list buf := replicate (S NBUF) (fresh_buf d).

(** The buffers after [binit]: [i] follows [i + 1] in the list. *)
Definition binit_buf (d : block) (i : nat) : buf :=
  if (i =? HEAD)%nat then mk_buf 0 0 0 unlocked 0 0 (NBUF - 1) d
  else mk_buf 0 0 0 unlocked 0 (if (i =? NBUF - 1)%nat then HEAD else S i)
              (if (i =? 0)%nat then HEAD else i - 1) d.
Definition binit_bufs (d : block) : list buf := binit_buf d <$> seq 0 (S NBUF).

Lemma binit_run s d :
  bufs s = fresh_bufs d → binit s = Ok tt (s <| bufs := binit_bufs d |>).
Proof. destruct s; simpl; intros ->. vm_compute. reflexivity. Qed.

Lemma binit_ring d : ring (binit_bufs d) (rev (seq 0 NBUF)).
Proof.
  split; [done| | |by vm_compute; repeat split|by vm_compute; repeat split].
  - apply NoDup_ListNoDup, NoDup_rev, NoDup_ListNoDup, NoDup_seq.
  - intros i. rewrite list_elem_of_In, <- in_rev, <- list_elem_of_In, elem_of_seq. lia.
Qed.

Lemma binit_bufs_lookup d i b :
  binit_bufs d !! i = Some b → b_dev b = 0 ∧ b_refcnt b = 0 ∧ sl_locked (b_lock b) = false ∧ b_flags b = 0.
Proof.
  unfold binit_bufs. rewrite list_lookup_fmap. intros (j & _ & ->)%fmap_Some.
  unfold binit_buf. by case_match.
Qed.

Lemma cache_rep_binit pid s d :
  held s = [] → running s pid → cache_rep pid ∅ ∅ (s <| bufs := binit_bufs d |>).
Proof.
  intros Hh Hr. split; simpl; [done|by eapply running_ext; [..|exact Hr]|by eexists; apply binit_ring|..].
  - intros i b _ Hb. destruct (binit_bufs_lookup _ _ _ Hb) as (_&?&?&?). by repeat split; auto.
  - done.
  - intros i j bi bj _ _ Hi _ Hd. destruct (binit_bufs_lookup _ _ _ Hi) as (?&_). lia.
  - done.
Qed.
End cache.

(** A machine that has just booted with disk [D]: zeroed kernel data, the first
    process running ([forkret] calls [initlog] in its context). *)
Definition boot_proc : proc :=
  mk_proc 0 0 0 RUNNING 1 None 0 0 None 0 (replicate NOFILE None) None [].
Definition reboot (D : disk) : kstate := {|
  held := []; curproc := Some 0%nat; ptable := [boot_proc]; nextpid := 2; initproc := Some 0%nat;
  bufs := fresh_bufs (replicate 512 0); hdisk := D;
  lg := mk_log 0 0 0 0 0 (mk_logheader 0 (replicate 30 0));
  sb := mk_superblock 0 0 0 0 0 0 0; icache := []; ftable := []; pipes := ∅;
  km := mk_kmem ∅ 0 false; cons := mk_console (replicate 128 0) 0 0 0 false []; ticks := 0 |}.
Definition blank_disk : disk := mk_disk (replicate 4 (replicate 512 0)) [].
Definition booted (D : disk) : kstate := (reboot D) <| bufs := binit_bufs (replicate 512 0) |>.

Lemma cache_rep_booted D : cache_rep 1 ∅ ∅ (booted D).
Proof. apply cache_rep_binit; [done|]. by exists 0%nat, boot_proc. Qed.

(** * Properties *)

(** [binit] turns the zeroed cache of a machine that has just booted into a well-formed
    one, the LRU list holding every buffer, last initialised first. *)
Theorem binit_establishes (D : disk) :
  ∃ s, binit (reboot D) = Ok tt s ∧ cache_rep 1 ∅ ∅ s ∧ ring (bufs s) (rev (seq 0 NBUF)).
Proof.
  exists (booted D). split; [by apply (binit_run (reboot D) (replicate 512 0))|].
  split; [apply cache_rep_booted|apply binit_ring].
Qed.

(** C12: [bread] returns a locked buffer with the block's current contents: the version
    pinned for the log if there is one, else the disk's.  It neither runs out of buffers
    nor touches the disk or any other part of the kernel, as long as the blocks held and pinned do not
    fill the cache and the caller does not hold the block already. *)
Theorem bread_correct (pid : Z) (P : gmap Z block) (H : gmap nat (Z * block)) (s : kstate) (blk : Z) :
  cache_rep pid P H s → 0 ≤ blk < disksize (hdisk s) → (∀ i d, H !! i ≠ Some (blk, d)) →
  is_Some (P !! blk) ∨ (size P + size H < NBUF)%nat →
  ∃ i s' b, bread 1 blk s = Ok i s' ∧ bufs s' !! i = Some b
    ∧ b_lock b = mk_sleeplock true pid ∧ b_blockno b = blk ∧ b_data b = content P (hdisk s) blk
    ∧ cache_rep pid P (<[i := (blk, content P (hdisk s) blk)]> H) s'
    ∧ hdisk s' = hdisk s ∧ rest s' = rest s.
Proof.
  intros Hc Hb Hn Hr. destruct (bread_run _ _ _ _ _ Hc Hb Hn Hr) as (i & s' & E & _ & Ed & Er & Hc').
  destruct (handle_lookup _ _ _ _ _ _ _ Hc' (lookup_insert_eq _ _ _)) as (b & Hb' & _ & _ & ? & ? & _ & ? & _).
  by exists i, s', b.
Qed.

Lemma bread_correct_witness :
  ∃ i s' b, bread 1 3 (booted blank_disk) = Ok i s' ∧ bufs s' !! i = Some b
    ∧ b_lock b = mk_sleeplock true 1 ∧ b_blockno b = 3 ∧ b_data b = content ∅ blank_disk 3
    ∧ cache_rep 1 ∅ (<[i := (3, content ∅ blank_disk 3)]> ∅) s'
    ∧ hdisk s' = blank_disk ∧ rest s' = rest (booted blank_disk).
Proof.
  apply (bread_correct 1 ∅ ∅ (booted blank_disk) 3 (cache_rep_booted blank_disk)).
  - by split.
  - by intros i d ?%lookup_empty_Some.
  - right. by vm_compute; lia.
Defined.

(** [bwrite] of a held buffer puts its data on the disk before it returns, changes no
    other block and unpins the block; the cache stays well-formed. *)
Theorem bwrite_correct (pid : Z) (P : gmap Z block) (H : gmap nat (Z * block)) (s : kstate)
    (i : nat) (blk : Z) (d : block) :
  cache_rep pid P H s → H !! i = Some (blk, d) →
  ∃ s', bwrite i s = Ok tt s' ∧ cache_rep pid (delete blk P) H s'
    ∧ (∀ b, 0 ≤ b → disk_read (hdisk s') b = if decide (b = blk) then d else disk_read (hdisk s) b)
    ∧ rest s' = rest s.
Proof.
  intros Hc Hi. destruct (bwrite_run _ _ _ _ _ _ _ Hc Hi) as (s' & E & Ed & Er & Hc').
  exists s'. split_and!; [done..| |done]. intros b Hb. rewrite Ed.
  destruct (cr_handles _ _ _ _ Hc _ _ _ Hi) as [_ ?].
  case_decide; [subst; by apply disk_read_write_eq|apply disk_read_write_ne; lia].
Qed.

(** The first process holds block 3 and has filled it with sevens. *)
Lemma demo_held :
  ∃ i s, cache_rep 1 ∅ {[i := (3, replicate 512 7)]} s ∧ hdisk s = blank_disk.
Proof.
  destruct (bread_run 1 ∅ ∅ (booted blank_disk) 3 (cache_rep_booted _)) as (i & s1 & _ & _ & Ed & _ & Hc).
  { by split. } { done. } { right. vm_compute; lia. }
  destruct (set_bdata_run 1 ∅ _ s1 i 3 _ (replicate 512 7) Hc (lookup_insert_eq _ _ _)) as (s2 & _ & Ed2 & _ & Hc2).
  rewrite insert_insert_eq in Hc2. exists i, s2. split; [exact Hc2|]. by rewrite Ed2, Ed.
Qed.

Lemma bwrite_correct_witness :
  ∃ i s s', bwrite i s = Ok tt s' ∧ cache_rep 1 (delete 3 ∅) {[i := (3, replicate 512 7)]} s'
    ∧ (∀ b, 0 ≤ b → disk_read (hdisk s') b = if decide (b = 3) then replicate 512 7 else disk_read (hdisk s) b)
    ∧ rest s' = rest s.
Proof.
  destruct demo_held as (i & s & Hc & _). exists i, s.
  apply (bwrite_correct 1 ∅ {[i := (3, replicate 512 7)]} s i 3 (replicate 512 7) Hc).
  apply lookup_singleton_eq.
Defined.

(** [brelse] of an unmodified buffer releases it, wakes the processes that wait for
    it and moves it to the front of the LRU list, the others keeping their order; the
    cache stays well-formed. *)
Theorem brelse_correct (pid : Z) (P : gmap Z block) (H : gmap nat (Z * block)) (s : kstate)
    (i : nat) (blk : Z) :
  cache_rep pid P H s → H !! i = Some (blk, content P (hdisk s) blk) →
  ∃ s' l1 l2, brelse i s = Ok tt s' ∧ cache_rep pid P (delete i H) s'
    ∧ ring (bufs s) (l1 ++ i :: l2) ∧ ring (bufs s') (i :: l1 ++ l2)
    ∧ ptable s' = wake (ChSleep (SBuf i)) <$> ptable s ∧ hdisk s' = hdisk s.
Proof.
  intros Hc Hi. destruct (brelse_spec _ _ _ _ _ _ Hc Hi) as (B' & E & Hc' & l1 & l2 & Hr & Hr').
  by eexists _, l1, l2.
Qed.

Lemma brelse_correct_witness :
  ∃ i s s' l1 l2, brelse i s = Ok tt s' ∧ cache_rep 1 ∅ (delete i {[i := (3, content ∅ (hdisk s) 3)]}) s'
    ∧ ring (bufs s) (l1 ++ i :: l2) ∧ ring (bufs s') (i :: l1 ++ l2)
    ∧ ptable s' = wake (ChSleep (SBuf i)) <$> ptable s ∧ hdisk s' = hdisk s.
Proof.
  destruct (bread_run 1 ∅ ∅ (booted blank_disk) 3 (cache_rep_booted _)) as (i & s1 & _ & _ & Ed & _ & Hc).
  { by split. } { done. } { right. vm_compute; lia. }
  rewrite <- Ed in Hc. exists i, s1.
  apply (brelse_correct 1 ∅ {[i := (3, content ∅ (hdisk s1) 3)]} s1 i 3 Hc). apply lookup_singleton_eq.
Defined.

(** with every buffer referenced or dirty and the block not cached, [bread] panics
    rather than recycle a buffer in use. *)
Theorem bread_exhausted (s : kstate) (l : list nat) (dev blk : Z) :
  LBcache ∉ held s → ring (bufs s) l →
  (∀ i b, i ∈ l → bufs s !! i = Some b → recyclable b = false ∧ caches dev blk b = false) →
  bread dev blk s = Panic "bget: no buffers".
Proof.
  intros Hh Hr Hbusy. unfold bread. apply bind_panic. unfold bget. mstep_with (acquire_ok LBcache s Hh).
  set (s1 := s <| held := LBcache :: held s |>).
  mstep_with (bget_cached_ok s1 l dev blk Hr).
  destruct (first_match (bufs s1) (caches dev blk) l) as [i|] eqn:E.
  { apply first_match_Some in E as (Hi & b & Hb & Ht). by rewrite (proj2 (Hbusy i b Hi Hb)) in Ht. }
  mstep_with (bget_victim_ok s1 l Hr).
  destruct (first_match (bufs s1) recyclable (rev l)) as [i|] eqn:E2; [|done].
  apply first_match_Some in E2 as (Hi & b & Hb & Ht).
  rewrite list_elem_of_In, <- in_rev, <- list_elem_of_In in Hi. by rewrite (proj1 (Hbusy i b Hi Hb)) in Ht.
Qed.

(** Every buffer referenced. *)
Definition busy_bufs : list buf := (λ b, b <| b_refcnt := 1 |>) <$> binit_bufs [].
Lemma bread_exhausted_witness :
  bread 1 3 ((booted blank_disk) <| bufs := busy_bufs |>) = Panic "bget: no buffers".
Proof.
  apply (bread_exhausted _ (rev (seq 0 NBUF))).
  - apply not_elem_of_nil.
  - split; [done| | |by vm_compute; repeat split|by vm_compute; repeat split].
    + apply (ring_nodup _ _ (binit_ring [])).
    + apply (ring_elem _ _ (binit_ring [])).
  - intros i b _ Hb. simpl in Hb. unfold busy_bufs in Hb. rewrite list_lookup_fmap in Hb.
    apply fmap_Some in Hb as (b0 & Hb0 & ->). destruct (binit_bufs_lookup _ _ _ Hb0) as (Hd & _).
    split; [done|]. unfold caches. simpl. by rewrite Hd.
Defined.
