(* ===== verification/Log.v ===== *)
(** The write-ahead log ([log.c]), and [readsb] of [fs.c], which it calls. *)
From S2P Require Export Bytes Bio.

(** * The superblock, as stored in block 1 *)
Definition decode_sb (d : block) : superblock :=
  mk_superblock (get32 d 0) (get32 d 4) (get32 d 8) (get32 d 12)
                (get32 d 16) (get32 d 20) (get32 d 24).

Definition readsb (dev : Z) : K superblock :=
  bp ← bread dev 1;
  d ← bdata bp;
  brelse bp;;
  mret (decode_sb d).

(** * log.c *)
Definition sizeof_logheader : Z := 4 + 4 * LOGSIZE.

Definition upd_log_state (f : log → log) : K unit := modify (λ s, s <| lg ::= f |>).
Definition set_lh_n (n : Z) : K unit := upd_log_state (λ l, l <| l_lh ::= λ h, h <| lh_n := n |> |>).

(** [log.lh.block[i]]; an index outside the array faults. *)
Definition lh_get (i : Z) : K Z :=
  s ← get;
  match lh_block (l_lh (lg s)) !! Z.to_nat i with Some b => mret b | None => trap end.
Definition lh_set (i b : Z) : K unit :=
  s ← get;
  if (Z.to_nat i <? length (lh_block (l_lh (lg s))))%nat
  then upd_log_state (λ l, l <| l_lh ::= λ h, h <| lh_block ::= <[Z.to_nat i := b]> |> |>)
  else trap.

(** [for(tail = 0; tail < log.lh.n; tail++) body] *)
Definition for_lh (body : Z → K unit) : K unit :=
  s ← get;
  iterM (S (Z.to_nat (lh_n (l_lh (lg s))))) (λ tail,
    s ← get;
    if tail <? lh_n (l_lh (lg s)) then body tail;; mret (inl (tail + 1))
    else mret (inr tt)) 0.

Definition install_trans : K unit :=
  for_lh (λ tail,
    l ← gets lg;
    lbuf ← bread (l_dev l) (l_start l + tail + 1);
    blk ← lh_get tail;
    dbuf ← bread (l_dev l) blk;
    d ← bdata lbuf;
    set_bdata dbuf d;;
    bwrite dbuf;;
    brelse lbuf;;
    brelse dbuf).

Definition read_head : K unit :=
  l ← gets lg;
  b ← bread (l_dev l) (l_start l);
  d ← bdata b;
  set_lh_n (i32 (get32 d 0));;
  for_lh (λ i, lh_set i (get32 d (4 + 4 * i)));;
  brelse b.

Definition write_head : K unit :=
  l ← gets lg;
  b ← bread (l_dev l) (l_start l);
  d ← bdata b;
  set_bdata b (put32 d 0 (lh_n (l_lh l)));;
  for_lh (λ i,
    blk ← lh_get i;
    d ← bdata b;
    set_bdata b (put32 d (4 + 4 * i) blk));;
  bwrite b;;
  brelse b.

Definition recover_from_log : K unit :=
  read_head;;
  install_trans;;
  set_lh_n 0;;
  write_head.

Definition initlog (dev : Z) : K unit :=
  if BSIZE <=? sizeof_logheader then panic "initlog: too big logheader" else
  sb ← readsb dev;
  upd_log_state (λ l, l <| l_start := sb_logstart sb |>);;
  upd_log_state (λ l, l <| l_size := sb_nlog sb |>);;
  upd_log_state (λ l, l <| l_dev := dev |>);;
  recover_from_log.

Definition write_log : K unit :=
  for_lh (λ tail,
    l ← gets lg;
    to ← bread (l_dev l) (l_start l + tail + 1);
    blk ← lh_get tail;
    from ← bread (l_dev l) blk;
    d ← bdata from;
    set_bdata to d;;
    bwrite to;;
    brelse from;;
    brelse to).

Definition commit : K unit :=
  s ← get;
  if 0 <? lh_n (l_lh (lg s)) then
    write_log;;
    write_head;;
    install_trans;;
    set_lh_n 0;;
    write_head
  else mret tt.

(** A process that has to wait sleeps on the log and starts the test again. *)
Definition begin_op : K unit :=
  acquire LLog;;
  l ← gets lg;
  if negb (l_committing l =? 0) then sleep ChLog LLog
  else if LOGSIZE <? lh_n (l_lh l) + (l_outstanding l + 1) * MAXOPBLOCKS
  then sleep ChLog LLog
  else
    upd_log_state (λ l, l <| l_outstanding ::= λ n, n + 1 |>);;
    release LLog.

Definition end_op : K unit :=
  acquire LLog;;
  upd_log_state (λ l, l <| l_outstanding ::= λ n, n - 1 |>);;
  l ← gets lg;
  if negb (l_committing l =? 0) then panic "log.committing" else
  do_commit ←
    (if l_outstanding l =? 0
     then upd_log_state (λ l, l <| l_committing := 1 |>);; mret true
     else wakeup ChLog;; mret false);
  release LLog;;
  if (do_commit : bool) then
    commit;;
    acquire LLog;;
    upd_log_state (λ l, l <| l_committing := 0 |>);;
    wakeup ChLog;;
    release LLog
  else mret tt.

(** The first [i < n] with [block[i] = blockno], else [n]. *)
Fixpoint find_block (bl : list Z) (blockno : Z) : nat :=
  match bl with
  | [] => 0
  | b :: bl => if b =? blockno then 0 else S (find_block bl blockno)
  end.

Definition log_write (i : nat) : K unit :=
  l ← gets lg;
  let n := lh_n (l_lh l) in
  if (LOGSIZE <=? n) || (l_size l - 1 <=? n) then panic "too big a transaction" else
  if l_outstanding l <? 1 then panic "log_write outside of trans" else
  acquire LLog;;
  b ← buf_at i;
  l ← gets lg;
  let j := Z.of_nat (find_block (take (Z.to_nat (lh_n (l_lh l))) (lh_block (l_lh l))) (b_blockno b)) in
  lh_set j (b_blockno b);;
  (if j =? lh_n (l_lh l) then set_lh_n (lh_n (l_lh l) + 1) else mret tt);;
  upd_buf_at i (λ b, b <| b_flags ::= λ f, Z.lor f B_DIRTY |>);;
  release LLog.

(** * Sequences of disk writes *)
Definition disk_app (D : disk) (w : list (Z * block)) : disk :=
  mk_disk (d_image D) (d_writes D ++ w).

Lemma disk_app_nil D : disk_app D [] = D.
Proof. unfold disk_app. rewrite app_nil_r. by destruct D. Qed.
Lemma disk_app_app D w w' : disk_app (disk_app D w) w' = disk_app D (w ++ w').
Proof. unfold disk_app. simpl. by rewrite app_assoc. Qed.
Lemma disk_write_app D b d : disk_write D b d = disk_app D [(b, d)].
Proof. done. Qed.
Lemma disksize_app D w : disksize (disk_app D w) = disksize D.
Proof. done. Qed.

Lemma disk_read_app_snoc D w b d x :
  0 ≤ b < disksize D → 0 ≤ x →
  disk_read (disk_app D (w ++ [(b, d)])) x =
    if decide (x = b) then d else disk_read (disk_app D w) x.
Proof.
  intros. rewrite <- disk_app_app, <- disk_write_app. case_decide as Hx.
  - subst. by apply disk_read_write_eq.
  - apply disk_read_write_ne; lia || done.
Qed.

Lemma disk_read_app_ne D w x :
  0 ≤ x → Forall (λ p, 0 ≤ p.1 < disksize D) w → x ∉ w.*1 →
  disk_read (disk_app D w) x = disk_read D x.
Proof.
  intros Hx Hw. induction w as [|[b d] w IH] using rev_ind; [by rewrite disk_app_nil|].
  rewrite fmap_app, not_elem_of_app. intros [Hn Hb].
  apply Forall_app in Hw as [Hw [Hbd _]%Forall_cons]. simpl in Hbd, Hb.
  rewrite disk_read_app_snoc by done. rewrite decide_False by set_solver. by apply IH.
Qed.

Lemma disk_read_app_in D w x d :
  Forall (λ p, 0 ≤ p.1 < disksize D) w → NoDup w.*1 → (x, d) ∈ w →
  disk_read (disk_app D w) x = d.
Proof.
  intros Hw Hn Hin. induction w as [|[b d'] w IH] using rev_ind; [by apply not_elem_of_nil in Hin|].
  apply Forall_app in Hw as [Hw [Hb _]%Forall_cons].
  rewrite fmap_app in Hn. apply NoDup_app in Hn as (Hn & Hd & _).
  apply elem_of_app in Hin as [Hin|Hin%list_elem_of_singleton].
  - assert (0 ≤ x).
    { rewrite Forall_forall in Hw. apply Hw in Hin. simpl in Hin. lia. }
    rewrite disk_read_app_snoc by done. rewrite decide_False; [by apply IH|].
    intros ->. apply (Hd b); [by apply (list_elem_of_fmap_2 fst) in Hin|left].
  - injection Hin as -> ->. rewrite disk_read_app_snoc by (simpl in Hb; lia).
    by rewrite decide_True.
Qed.

(** * The loops over the logged blocks *)
Lemma for_lh_run body (I : nat → kstate → Prop) s n :
  (∀ k s, I k s → lh_n (l_lh (lg s)) = Z.of_nat n) →
  I 0%nat s →
  (∀ k s, (k < n)%nat → I k s → ∃ s', body (Z.of_nat k) s = Ok tt s' ∧ I (S k) s') →
  ∃ s', for_lh body s = Ok tt s' ∧ I n s'.
Proof.
  intros Hn HI Hstep. unfold for_lh. mstep. rewrite (Hn _ _ HI), Nat2Z.id.
  set (it := λ tail : Z, _).
  assert (∀ m k s, (k + m = n)%nat → I k s → ∃ s', iterM (S m) it (Z.of_nat k) s = Ok tt s' ∧ I n s') as H;
    [|by apply (H n 0%nat)].
  clear s HI. induction m as [|m IH]; intros k s Hk HI; rewrite iterM_S.
  - assert (it (Z.of_nat k) s = Ok (inr tt) s) as Hit.
    { unfold it. mstep. rewrite (Hn _ _ HI).
      by destruct (Z.ltb_spec (Z.of_nat k) (Z.of_nat n)); [lia|]. }
    mstep_with Hit. exists s. by replace n with k by lia.
  - destruct (Hstep k s) as (s1 & E & HI1); [lia|done|].
    assert (it (Z.of_nat k) s = Ok (inl (Z.of_nat k + 1)) s1) as Hit.
    { unfold it. mstep. rewrite (Hn _ _ HI).
      destruct (Z.ltb_spec (Z.of_nat k) (Z.of_nat n)); [|lia]. by mstep_with E. }
    mstep_with Hit. replace (Z.of_nat k + 1) with (Z.of_nat (S k)) by lia.
    apply IH; [lia|done].
Qed.

Lemma lg_rest s s' : rest s' = rest s → lg s' = lg s.
Proof. intros E. by apply (f_equal lg) in E. Qed.

Lemma lh_get_ok s i b : lh_block (l_lh (lg s)) !! Z.to_nat i = Some b → lh_get i s = Ok b s.
Proof. intros E. unfold lh_get. mstep. by rewrite E. Qed.

Lemma fmap_seq_S {A} (f : nat → A) k : f <$> seq 0 (S k) = (f <$> seq 0 k) ++ [f k].
Proof. by rewrite seq_S, fmap_app. Qed.

Section log.
Context (pid start : Z).

(** The in-memory header lists the blocks [bl]; the log area follows [start]. *)
Record log_holds (D : disk) (bl : list Z) (s : kstate) : Prop := {
  lo_dev : l_dev (lg s) = 1;
  lo_start : l_start (lg s) = start;
  lo_n : lh_n (l_lh (lg s)) = Z.of_nat (length bl);
  lo_block k b : bl !! k = Some b → lh_block (l_lh (lg s)) !! k = Some b;
  lo_small : (length bl < NBUF)%nat;
  lo_area : 0 ≤ start ∧ start + Z.of_nat (length bl) < disksize D;
  lo_home b : b ∈ bl → 0 ≤ b < disksize D ∧ ¬ (start ≤ b ≤ start + Z.of_nat (length bl)) }.

Lemma log_holds_rest D bl s s' : rest s' = rest s → log_holds D bl s → log_holds D bl s'.
Proof. intros E []. split; by rewrite ?(lg_rest _ _ E). Qed.

Lemma log_holds_disk D w bl s : log_holds D bl s → log_holds (disk_app D w) bl s.
Proof. intros []. by split. Qed.

(** The writes of [write_log] and of [install_trans], block by block. *)
Definition log_writes (val : nat → block) (k : nat) : list (Z * block) :=
  (λ j, (start + Z.of_nat j + 1, val j)) <$> seq 0 k.
Definition home_writes (bl : list Z) (val : nat → block) (k : nat) : list (Z * block) :=
  (λ j, (bl !!! j, val j)) <$> seq 0 k.

Lemma log_writes_S val k :
  log_writes val (S k) = log_writes val k ++ [(start + Z.of_nat k + 1, val k)].
Proof. exact (fmap_seq_S _ k). Qed.
Lemma home_writes_S bl val k :
  home_writes bl val (S k) = home_writes bl val k ++ [(bl !!! k, val k)].
Proof. exact (fmap_seq_S _ k). Qed.

(** Copy the block held in [i] over the block held in [j], write it and release both. *)
Lemma copy_pair P s i j bs bd dd :
  cache_rep pid P (<[i := (bs, content P (hdisk s) bs)]> (<[j := (bd, dd)]> ∅)) s →
  i ≠ j → bs ≠ bd →
  ∃ s', (d ← bdata i; set_bdata j d;; bwrite j;; brelse i;; brelse j) s = Ok tt s'
    ∧ rest s' = rest s ∧ hdisk s' = disk_write (hdisk s) bd (content P (hdisk s) bs)
    ∧ cache_rep pid (delete bd P) ∅ s'.
Proof.
  intros Hc Hij Hne. set (ds := content P (hdisk s) bs) in *.
  destruct (cr_handles _ _ _ _ Hc i bs ds) as [_ Hbs]; [apply lookup_insert_eq|].
  destruct (cr_handles _ _ _ _ Hc j bd dd) as [_ Hbd].
  { rewrite lookup_insert_ne by done. apply lookup_insert_eq. }
  mstep_with (bdata_run pid P _ s i bs ds Hc (lookup_insert_eq _ _ _)).
  destruct (set_bdata_run pid P _ s j bd dd ds Hc) as (s1 & E1 & Ed1 & Er1 & Hc1).
  { rewrite lookup_insert_ne by done. apply lookup_insert_eq. }
  mstep_with E1.
  destruct (bwrite_run pid P _ s1 j bd ds Hc1 (lookup_insert_eq _ _ _)) as (s2 & E2 & Ed2 & Er2 & Hc2).
  mstep_with E2.
  destruct (brelse_run pid (delete bd P) _ s2 i bs ds Hc2) as (s3 & E3 & Ed3 & Er3 & Hc3).
  { rewrite lookup_insert_ne by done. apply lookup_insert_eq. }
  { unfold ds, content. rewrite lookup_delete_ne, Ed2, Ed1 by done.
    by rewrite disk_read_write_ne by lia. }
  mstep_with E3.
  destruct (brelse_run pid (delete bd P) _ s3 j bd ds Hc3) as (s4 & E4 & Ed4 & Er4 & Hc4).
  { rewrite lookup_delete_ne by done. apply lookup_insert_eq. }
  { unfold content. rewrite lookup_delete_eq, Ed3, Ed2, Ed1. by rewrite disk_read_write_eq. }
  exists s4. split; [exact E4|]. split_and!; [congruence|congruence|].
  replace (delete j (delete i (<[j:=(bd, ds)]> (<[i:=(bs, ds)]> (<[j:=(bd, dd)]> ∅)))))
    with (∅ : gmap nat (Z * block)) in Hc4; [done|].
  apply map_eq. intros x. rewrite !lookup_delete, !lookup_insert, lookup_empty.
  by repeat case_decide.
Qed.

Lemma write_log_run P D bl s :
  cache_rep pid P ∅ s → hdisk s = D → log_holds D bl s →
  (∀ b, is_Some (P !! b) ↔ b ∈ bl) → (size P < NBUF)%nat →
  ∃ s', write_log s = Ok tt s' ∧ rest s' = rest s ∧ cache_rep pid P ∅ s'
    ∧ hdisk s' = disk_app D (log_writes (λ k, content P D (bl !!! k)) (length bl)).
Proof.
  intros Hc HD Hl HP Hsz. set (val := λ k, content P D (bl !!! k)).
  destruct (for_lh_run (λ tail, l ← gets lg;
    to ← bread (l_dev l) (l_start l + tail + 1); blk ← lh_get tail;
    from ← bread (l_dev l) blk; d ← bdata from; set_bdata to d;;
    bwrite to;; brelse from;; brelse to)
    (λ k s', cache_rep pid P ∅ s' ∧ rest s' = rest s ∧ hdisk s' = disk_app D (log_writes val k))
    s (length bl)) as (s' & E & Hc' & Er & Ed); [..|by exists s'].
  - intros k s' (_ & Er & _). rewrite (lg_rest _ _ Er). apply Hl.
  - split_and!; [done..|]. rewrite HD. by rewrite disk_app_nil.
  - intros k s1 Hk (Hc1 & Er1 & Ed1). pose proof (log_holds_rest _ _ _ _ Er1 Hl) as Hl1.
    destruct (lookup_lt_is_Some_2 bl k Hk) as [b Hb].
    destruct Hl1 as [Hdev Hst _ Hblk Hsm Harea Hhome].
    destruct (Hhome b) as [Hb1 Hb2]; [by eapply list_elem_of_lookup_2|].
    assert (P !! (start + Z.of_nat k + 1) = None) as HPl.
    { apply eq_None_not_Some. rewrite HP. intros Hin%Hhome. lia. }
    assert (is_Some (P !! b)) as HPb by (apply HP; by eapply list_elem_of_lookup_2).
    mstep. rewrite Hdev, Hst.
    destruct (bread_run pid P ∅ s1 (start + Z.of_nat k + 1)) as (i & s2 & E2 & _ & Ed2 & Er2 & Hc2).
    { done. } { rewrite Ed1, disksize_app. lia. } { done. } { right. rewrite map_size_empty. lia. }
    mstep_with E2. rewrite <- (lg_rest _ _ Er2) in Hblk.
    mstep_with (lh_get_ok s2 (Z.of_nat k) b ltac:(rewrite Nat2Z.id; by apply Hblk)).
    destruct (bread_run pid P _ s2 b Hc2) as (j & s3 & E3 & Hj & Ed3 & Er3 & Hc3).
    { rewrite Ed2, Ed1, disksize_app. lia. }
    { intros i' d' [[_ [= ? _]]|[_ ?]]%lookup_insert_Some; [lia|done]. }
    { by left. }
    mstep_with E3. rewrite lookup_insert_None in Hj. destruct Hj as [_ Hij].
    destruct (copy_pair P s3 j i b (start + Z.of_nat k + 1) (content P (hdisk s1) (start + Z.of_nat k + 1)))
      as (s4 & E4 & Er4 & Ed4 & Hc4).
    { rewrite Ed3. exact Hc3. } { done. } { lia. }
    exists s4. split; [exact E4|]. split_and!; [by rewrite (delete_id P) in Hc4|congruence|].
    rewrite Ed4, Ed3, Ed2, Ed1, disk_write_app, disk_app_app, log_writes_S. do 3 f_equal.
    unfold val, content. rewrite (list_lookup_total_correct _ _ _ Hb).
    by destruct HPb as [d ->].
Qed.

Lemma home_writes_dom bl val k x :
  (k ≤ length bl)%nat → x ∈ (home_writes bl val k).*1 → x ∈ bl.
Proof.
  intros Hk. unfold home_writes. rewrite <- list_fmap_compose.
  intros (j & -> & Hj%elem_of_seq)%list_elem_of_fmap. simpl.
  apply list_elem_of_lookup_total_2. lia.
Qed.
Lemma home_writes_in D bl s val k :
  log_holds D bl s → (k ≤ length bl)%nat →
  Forall (λ p, 0 ≤ p.1 < disksize D) (home_writes bl val k).
Proof.
  intros Hl Hk. apply Forall_forall. intros p Hp. apply (lo_home _ _ _ Hl).
  eapply home_writes_dom; [exact Hk|]. by apply (list_elem_of_fmap_2 fst) in Hp.
Qed.

Definition unpin (P : gmap Z block) (l : list Z) : gmap Z block := foldl (λ P b, delete b P) P l.

Lemma lookup_unpin P l b : unpin P l !! b = if decide (b ∈ l) then None else P !! b.
Proof.
  unfold unpin. induction l as [|x l IH] using rev_ind; [done|].
  rewrite foldl_snoc, lookup_delete. repeat case_decide; subst; set_solver.
Qed.
Lemma size_unpin P l : (size (unpin P l) ≤ size P)%nat.
Proof.
  apply map_subseteq_size. apply map_subseteq_spec. intros b d. rewrite lookup_unpin.
  by case_decide.
Qed.
Lemma unpin_S P bl k b :
  bl !! k = Some b → unpin P (take (S k) bl) = delete b (unpin P (take k bl)).
Proof. intros Hb. rewrite (take_S_r _ _ b) by done. unfold unpin. by rewrite foldl_snoc. Qed.

(** The blocks [install_trans] overwrites are all pinned, as in a commit, or none is,
    as in recovery. *)
Definition installable (P : gmap Z block) (bl : list Z) : Prop :=
  (NoDup bl ∧ ∀ b, b ∈ bl → is_Some (P !! b)) ∨ P = ∅.

Lemma installable_room P bl k b :
  installable P bl → bl !! k = Some b →
  is_Some (unpin P (take k bl) !! b) ∨ (size (unpin P (take k bl)) + 1 < NBUF)%nat.
Proof.
  intros [[Hn HP]| ->] Hb.
  - left. rewrite lookup_unpin, decide_False; [apply HP; by eapply list_elem_of_lookup_2|].
    intros (j & Hj & ?)%elem_of_take. assert (j = k) by (by eapply NoDup_lookup). lia.
  - right. pose proof (size_unpin ∅ (take k bl)). rewrite map_size_empty in *. unfold NBUF. lia.
Qed.

Lemma install_run P D bl s :
  cache_rep pid P ∅ s → hdisk s = D → log_holds D bl s → installable P bl →
  (∀ b, is_Some (P !! b) → b ∈ bl) → (size P < NBUF)%nat →
  ∃ s', install_trans s = Ok tt s' ∧ rest s' = rest s ∧ cache_rep pid (unpin P bl) ∅ s'
    ∧ hdisk s' = disk_app D (home_writes bl (λ k, disk_read D (start + Z.of_nat k + 1)) (length bl)).
Proof.
  intros Hc HD Hl Hin HP Hsz. set (val := λ k, disk_read D (start + Z.of_nat k + 1)).
  destruct (for_lh_run (λ tail, l ← gets lg;
    lbuf ← bread (l_dev l) (l_start l + tail + 1); blk ← lh_get tail;
    dbuf ← bread (l_dev l) blk; d ← bdata lbuf; set_bdata dbuf d;;
    bwrite dbuf;; brelse lbuf;; brelse dbuf)
    (λ k s', cache_rep pid (unpin P (take k bl)) ∅ s' ∧ rest s' = rest s
      ∧ hdisk s' = disk_app D (home_writes bl val k)) s (length bl)) as (s' & E & Hc' & Er & Ed).
  - intros k s' (_ & Er & _). rewrite (lg_rest _ _ Er). apply Hl.
  - split_and!; [done..|]. rewrite HD. by rewrite disk_app_nil.
  - intros k s1 Hk (Hc1 & Er1 & Ed1). pose proof (log_holds_rest _ _ _ _ Er1 Hl) as Hl1.
    destruct (lookup_lt_is_Some_2 bl k Hk) as [b Hb].
    destruct Hl1 as [Hdev Hst _ Hblk Hsm Harea Hhome].
    destruct (Hhome b) as [Hb1 Hb2]; [by eapply list_elem_of_lookup_2|].
    set (Pk := unpin P (take k bl)) in *. set (a := start + Z.of_nat k + 1) in *.
    assert (Pk !! a = None) as HPa.
    { apply eq_None_not_Some. unfold Pk. rewrite lookup_unpin. case_decide; [by intros [? ?]|].
      intros Hx%HP%Hhome. lia. }
    pose proof (size_unpin P (take k bl)) as Hszk. fold Pk in Hszk.
    mstep. rewrite Hdev, Hst. fold a.
    destruct (bread_run pid Pk ∅ s1 a Hc1) as (i & s2 & E2 & _ & Ed2 & Er2 & Hc2).
    { rewrite Ed1, disksize_app. lia. } { done. } { right. rewrite map_size_empty. lia. }
    mstep_with E2. rewrite <- (lg_rest _ _ Er2) in Hblk.
    mstep_with (lh_get_ok s2 (Z.of_nat k) b ltac:(rewrite Nat2Z.id; by apply Hblk)).
    destruct (bread_run pid Pk _ s2 b Hc2) as (j & s3 & E3 & Hj & Ed3 & Er3 & Hc3).
    { rewrite Ed2, Ed1, disksize_app. lia. }
    { intros i' d' [[_ [= ? _]]|[_ ?]]%lookup_insert_Some; [lia|done]. }
    { rewrite insert_empty, map_size_singleton. by apply (installable_room P bl k b). }
    mstep_with E3. rewrite lookup_insert_None in Hj. destruct Hj as [_ Hij].
    rewrite insert_insert_ne in Hc3 by done.
    destruct (copy_pair Pk s3 i j a b (content Pk (hdisk s2) b)) as (s4 & E4 & Er4 & Ed4 & Hc4).
    { rewrite <- Ed2 in Hc3. rewrite Ed3. exact Hc3. } { done. } { unfold a. lia. }
    exists s4. split; [exact E4|]. split_and!; [by rewrite (unpin_S _ _ _ b)|congruence|].
    rewrite Ed4, Ed3, Ed2, Ed1, disk_write_app, disk_app_app, home_writes_S.
    rewrite (list_lookup_total_correct _ _ _ Hb). do 4 f_equal. unfold content. rewrite HPa.
    apply disk_read_app_ne; [unfold a; lia|apply (home_writes_in D bl s); [done|lia]|].
    intros Hx%home_writes_dom; [|lia]. apply Hhome in Hx. unfold a in Hx. lia.
  - exists s'. rewrite take_ge in Hc' by lia. done.
Qed.

(** The header block that [write_head] builds from the old one [d]. *)
Definition fill_head (d : block) (bl : list Z) (k : nat) : block :=
  foldl (λ d j, put32 d (4 + 4 * Z.of_nat j) (bl !!! j)) (put32 d 0 (Z.of_nat (length bl))) (seq 0 k).
Definition head_of (d : block) (bl : list Z) : block := fill_head d bl (length bl).

Lemma fill_head_S d bl k :
  fill_head d bl (S k) = put32 (fill_head d bl k) (4 + 4 * Z.of_nat k) (bl !!! k).
Proof. unfold fill_head. by rewrite seq_S, foldl_snoc. Qed.

Lemma write_head_run P D bl s :
  cache_rep pid P ∅ s → hdisk s = D → log_holds D bl s → P !! start = None → (size P < NBUF)%nat →
  ∃ s', write_head s = Ok tt s' ∧ rest s' = rest s ∧ cache_rep pid P ∅ s'
    ∧ hdisk s' = disk_app D [(start, head_of (disk_read D start) bl)].
Proof.
  intros Hc HD Hl HPs Hsz. pose proof Hl as [Hdev Hst Hn _ _ Harea _].
  unfold write_head. mstep. rewrite Hdev, Hst.
  destruct (bread_run pid P ∅ s start Hc) as (i & s1 & E1 & _ & Ed1 & Er1 & Hc1).
  { rewrite HD. lia. } { done. } { right. rewrite map_size_empty. lia. }
  mstep_with E1. unfold content in Hc1. rewrite HPs, HD in Hc1.
  mstep_with (bdata_run pid P _ s1 i start _ Hc1 (lookup_insert_eq _ _ _)).
  destruct (set_bdata_run pid P _ s1 i start _ (fill_head (disk_read D start) bl 0) Hc1
    (lookup_insert_eq _ _ _)) as (s2 & E2 & Ed2 & Er2 & Hc2). rewrite insert_insert_eq in Hc2.
  assert (fill_head (disk_read D start) bl 0 = put32 (disk_read D start) 0 (lh_n (l_lh (lg s)))) as Ef
    by (unfold fill_head; by rewrite Hn).
  rewrite Ef in E2. mstep_with E2.
  destruct (for_lh_run (λ j, blk ← lh_get j; d ← bdata i; set_bdata i (put32 d (4 + 4 * j) blk))
    (λ k s', cache_rep pid P (<[i:=(start, fill_head (disk_read D start) bl k)]> ∅) s'
      ∧ rest s' = rest s ∧ hdisk s' = D) s2 (length bl)) as (s3 & E3 & Hc3 & Er3 & Ed3).
  - intros k s' (_ & Er & _). by rewrite (lg_rest _ _ Er).
  - split_and!; congruence || done.
  - intros k s' Hk (Hc' & Er' & Ed'). destruct (lookup_lt_is_Some_2 bl k Hk) as [b Hb].
    pose proof (log_holds_rest _ _ _ _ Er' Hl) as Hl'.
    mstep_with (lh_get_ok s' (Z.of_nat k) b ltac:(rewrite Nat2Z.id; by apply Hl')).
    mstep_with (bdata_run pid P _ s' i start _ Hc' (lookup_insert_eq _ _ _)).
    destruct (set_bdata_run pid P _ s' i start _ (fill_head (disk_read D start) bl (S k)) Hc'
      (lookup_insert_eq _ _ _)) as (s4 & E4 & Ed4 & Er4 & Hc4). rewrite insert_insert_eq in Hc4.
    rewrite fill_head_S, (list_lookup_total_correct _ _ _ Hb) in E4.
    exists s4. split; [exact E4|]. split_and!; congruence || done.
  - mstep_with E3.
    destruct (bwrite_run pid P _ s3 i start _ Hc3 (lookup_insert_eq _ _ _)) as (s4 & E4 & Ed4 & Er4 & Hc4).
    rewrite delete_id in Hc4 by done. mstep_with E4. rewrite Ed3 in Ed4.
    destruct (brelse_run pid P _ s4 i start _ Hc4 (lookup_insert_eq _ _ _)) as (s5 & E5 & Ed5 & Er5 & Hc5).
    { unfold content. rewrite HPs, Ed4, disk_read_write_eq by lia. done. }
    rewrite delete_insert_eq, delete_empty in Hc5. exists s5. split; [exact E5|].
    split_and!; [congruence|done|]. by rewrite Ed5, Ed4.
Qed.

Lemma set_lh_n_ok s n : ∃ s', set_lh_n n s = Ok tt s' ∧ hdisk s' = hdisk s ∧ bufs s' = bufs s
  ∧ held s' = held s ∧ curproc s' = curproc s ∧ ptable s' = ptable s
  ∧ lg s' = (lg s) <| l_lh ::= λ h, h <| lh_n := n |> |>.
Proof. eexists. split; [done|]. done. Qed.

Lemma cache_rep_ext P H s s' :
  hdisk s' = hdisk s → bufs s' = bufs s → held s' = held s → curproc s' = curproc s →
  ptable s' = ptable s → cache_rep pid P H s → cache_rep pid P H s'.
Proof.
  intros Ed Eb Eh Ec Ep []. split; rewrite ?Ed, ?Eb, ?Eh; try done. by eapply running_ext.
Qed.

(** ** commit: the writes, in order *)
Definition commit_writes (P : gmap Z block) (D : disk) (bl : list Z) : list (Z * block) :=
  let n := length bl in
  let val k := content P D (bl !!! k) in
  let hdr := head_of (disk_read D start) bl in
  log_writes val n ++ [(start, hdr)] ++ home_writes bl val n ++ [(start, head_of hdr [])].

Lemma log_writes_in D bl s val k :
  log_holds D bl s → (k ≤ length bl)%nat → Forall (λ p, 0 ≤ p.1 < disksize D) (log_writes val k).
Proof.
  intros Hl Hk. apply Forall_fmap, Forall_forall. intros j Hj%elem_of_seq. simpl.
  pose proof (lo_area _ _ _ Hl). lia.
Qed.
Lemma log_writes_addr val k x :
  x ∈ (log_writes val k).*1 → start + 1 ≤ x ≤ start + Z.of_nat k.
Proof.
  unfold log_writes. rewrite <- list_fmap_compose.
  intros (j & -> & Hj%elem_of_seq)%list_elem_of_fmap. simpl. lia.
Qed.
Lemma log_writes_NoDup val k : NoDup (log_writes val k).*1.
Proof.
  unfold log_writes. rewrite <- list_fmap_compose. apply NoDup_fmap_2_strong; [|apply NoDup_seq].
  intros x y _ _. simpl. lia.
Qed.
Lemma home_writes_NoDup bl val : NoDup bl → NoDup (home_writes bl val (length bl)).*1.
Proof.
  intros Hn. unfold home_writes. rewrite <- list_fmap_compose.
  apply NoDup_fmap_2_strong; [|apply NoDup_seq]. intros x y Hx Hy E. simpl in E.
  rewrite elem_of_seq in Hx, Hy.
  destruct (lookup_lt_is_Some_2 bl x) as [a Ha]; [lia|].
  destruct (lookup_lt_is_Some_2 bl y) as [b Hb]; [lia|].
  rewrite (list_lookup_total_correct _ _ _ Ha), (list_lookup_total_correct _ _ _ Hb) in E.
  subst. by eapply NoDup_lookup.
Qed.
Lemma home_writes_ext bl val val' k :
  (∀ j, (j < k)%nat → val j = val' j) → home_writes bl val k = home_writes bl val' k.
Proof.
  intros E. apply list_fmap_ext. intros i j Hj%lookup_seq. f_equal. apply E. lia.
Qed.

(** What the log blocks and the header hold once both have been written. *)
Lemma logged_block D bl s val w k :
  log_holds D bl s → (k < length bl)%nat →
  Forall (λ p, 0 ≤ p.1 < disksize D) w → (∀ j, (j < length bl)%nat → start + Z.of_nat j + 1 ∉ w.*1) →
  disk_read (disk_app D (log_writes val (length bl) ++ w)) (start + Z.of_nat k + 1) = val k.
Proof.
  intros Hl Hk Hw Hn. pose proof (lo_area _ _ _ Hl) as Harea.
  rewrite <- disk_app_app, disk_read_app_ne; [|lia|by rewrite disksize_app|by apply Hn].
  apply disk_read_app_in; [by eapply log_writes_in|apply log_writes_NoDup|].
  apply list_elem_of_fmap. exists k. rewrite elem_of_seq. split; [done|lia].
Qed.

(** A transaction is ready to commit: the blocks of the header are exactly the
    pinned ones. *)
Record txn (P : gmap Z block) (D : disk) (bl : list Z) (s : kstate) : Prop := {
  tx_cache : cache_rep pid P ∅ s;
  tx_disk : hdisk s = D;
  tx_log : log_holds D bl s;
  tx_nodup : NoDup bl;
  tx_dom b : is_Some (P !! b) ↔ b ∈ bl }.

Lemma txn_size P D bl s : txn P D bl s → (size P < NBUF)%nat.
Proof.
  intros Ht. pose proof (lo_small _ _ _ (tx_log _ _ _ _ Ht)).
  assert (size P ≤ length bl)%nat; [|lia].
  rewrite <- size_dom. change (length (elements (dom P)) ≤ length bl)%nat.
  apply submseteq_length, NoDup_submseteq; [apply NoDup_elements|].
  intros b Hb%elem_of_elements%elem_of_dom. by apply (tx_dom _ _ _ _ Ht).
Qed.

Lemma txn_start P D bl s : txn P D bl s → P !! start = None ∧ start ∉ bl.
Proof.
  intros Ht. assert (start ∉ bl) as Hn.
  { intros Hx%(lo_home _ _ _ (tx_log _ _ _ _ Ht)). lia. }
  split; [|done]. apply eq_None_not_Some. by rewrite (tx_dom _ _ _ _ Ht).
Qed.

Lemma commit_run P D bl s :
  txn P D bl s → bl ≠ [] →
  ∃ s', commit s = Ok tt s' ∧ cache_rep pid ∅ ∅ s' ∧ hdisk s' = disk_app D (commit_writes P D bl).
Proof.
  intros Ht Hne. pose proof Ht as [Hc HD Hl Hnd Hdom].
  destruct (txn_start _ _ _ _ Ht) as [HPs Hsb]. pose proof (txn_size _ _ _ _ Ht) as Hsz.
  pose proof (lo_area _ _ _ Hl) as Harea.
  unfold commit. mstep. rewrite (lo_n _ _ _ Hl).
  destruct (Z.ltb_spec 0 (Z.of_nat (length bl))); [|destruct bl; simpl in *; [done|lia]].
  set (val := λ k, content P D (bl !!! k)). set (n := length bl) in *.
  destruct (write_log_run P D bl s Hc HD Hl Hdom Hsz) as (s1 & E1 & Er1 & Hc1 & Ed1).
  mstep_with E1.
  assert (log_holds (hdisk s1) bl s1) as Hl1 by (rewrite Ed1; by apply log_holds_disk, (log_holds_rest D _ s)).
  destruct (write_head_run P _ bl s1 Hc1 eq_refl Hl1 HPs Hsz) as (s2 & E2 & Er2 & Hc2 & Ed2).
  mstep_with E2.
  assert (disk_read (hdisk s1) start = disk_read D start) as Es.
  { rewrite Ed1. apply disk_read_app_ne; [lia|by eapply log_writes_in|].
    intros Hx%log_writes_addr. lia. }
  rewrite Es in Ed2. set (hdr := head_of (disk_read D start) bl) in *.
  rewrite Ed1, disk_app_app in Ed2.
  assert (rest s2 = rest s) as Er2' by congruence.
  assert (log_holds (hdisk s2) bl s2) as Hl2 by (rewrite Ed2; by apply log_holds_disk, (log_holds_rest D _ s)).
  destruct (install_run P _ bl s2 Hc2 eq_refl Hl2) as (s3 & E3 & Er3 & Hc3 & Ed3);
    [left; split; [done|apply Hdom]|apply Hdom|done|].
  mstep_with E3.
  erewrite (home_writes_ext bl _ val) in Ed3.
  2:{ intros j Hj. rewrite Ed2. apply (logged_block D bl s val); [done..| |].
      - apply Forall_cons; simpl; split; [lia|done].
      - intros j' _. simpl. rewrite list_elem_of_singleton. lia. }
  rewrite Ed2, disk_app_app in Ed3.
  destruct (set_lh_n_ok s3 0) as (s4 & E4 & Ed4 & Eb4 & Eh4 & Ec4 & Ep4 & Elg4).
  mstep_with E4. assert (cache_rep pid (unpin P bl) ∅ s4) as Hc4 by (by apply (cache_rep_ext _ _ s3)).
  assert (unpin P bl = ∅) as EP.
  { apply map_eq. intros b. rewrite lookup_unpin, lookup_empty. case_decide as Hb; [done|].
    apply eq_None_not_Some. by rewrite Hdom. }
  rewrite EP in Hc4.
  assert (log_holds (hdisk s4) [] s4) as Hl4.
  { rewrite Ed4, Ed3. assert (lg s3 = lg s) as Elg by (apply lg_rest; congruence).
    split; rewrite ?Elg4, ?Elg; [apply Hl|apply Hl|done|done|simpl; unfold NBUF; lia|simpl; rewrite disksize_app; lia|].
    by intros b ?%not_elem_of_nil. }
  destruct (write_head_run ∅ _ [] s4 Hc4 eq_refl Hl4) as (s5 & E5 & _ & Hc5 & Ed5);
    [done|rewrite map_size_empty; unfold NBUF; lia|].
  assert (disk_read (hdisk s4) start = hdr) as Ehd.
  { rewrite Ed4, Ed3, <- disk_app_app, disk_read_app_ne; [|lia|by apply (home_writes_in D bl s)|].
    - rewrite disk_read_app_snoc by lia. by rewrite decide_True.
    - by intros Hx%home_writes_dom. }
  exists s5. split; [exact E5|]. split; [done|].
  rewrite Ed5, Ehd, Ed4, Ed3, disk_app_app. unfold commit_writes. fold n val hdr.
  by rewrite <- !app_assoc.
Qed.

(** ** Recovery *)

(** The header block [d] on disk lists the blocks [bl]. *)
Definition header_lists (d : block) (bl : list Z) : Prop :=
  i32 (get32 d 0) = Z.of_nat (length bl)
  ∧ ∀ k b, bl !! k = Some b → get32 d (4 + 4 * Z.of_nat k) = b.

Lemma read_head_run D bl s :
  cache_rep pid ∅ ∅ s → hdisk s = D → l_dev (lg s) = 1 → l_start (lg s) = start →
  0 ≤ start < disksize D → header_lists (disk_read D start) bl →
  (length bl ≤ length (lh_block (l_lh (lg s))))%nat →
  ∃ s', read_head s = Ok tt s' ∧ cache_rep pid ∅ ∅ s' ∧ hdisk s' = D
    ∧ l_dev (lg s') = 1 ∧ l_start (lg s') = start
    ∧ lh_n (l_lh (lg s')) = Z.of_nat (length bl)
    ∧ ∀ k b, bl !! k = Some b → lh_block (l_lh (lg s')) !! k = Some b.
Proof.
  intros Hc HD Hdev Hst Hstart [Hn Hbl] Hlen. unfold read_head. mstep. rewrite Hdev, Hst.
  destruct (bread_run pid ∅ ∅ s start Hc) as (i & s1 & E1 & _ & Ed1 & Er1 & Hc1).
  { by rewrite HD. } { done. } { right. rewrite !map_size_empty. unfold NBUF. lia. }
  mstep_with E1. unfold content in Hc1. rewrite lookup_empty, HD in Hc1.
  mstep_with (bdata_run pid ∅ _ s1 i start _ Hc1 (lookup_insert_eq _ _ _)).
  set (d := disk_read D start) in *. rewrite Hn.
  destruct (set_lh_n_ok s1 (Z.of_nat (length bl))) as (s2 & E2 & Ed2 & Eb2 & Eh2 & Ec2 & Ep2 & Elg2).
  mstep_with E2. rewrite (lg_rest _ _ Er1) in Elg2.
  set (H := <[i:=(start, d)]> ∅) in *.
  assert (cache_rep pid ∅ H s2) as Hc2 by (by apply (cache_rep_ext _ _ s1)).
  destruct (for_lh_run (λ i, lh_set i (get32 d (4 + 4 * i)))
    (λ k s', cache_rep pid ∅ H s' ∧ hdisk s' = D ∧ l_dev (lg s') = 1 ∧ l_start (lg s') = start
      ∧ lh_n (l_lh (lg s')) = Z.of_nat (length bl)
      ∧ length (lh_block (l_lh (lg s'))) = length (lh_block (l_lh (lg s)))
      ∧ ∀ j b, (j < k)%nat → bl !! j = Some b → lh_block (l_lh (lg s')) !! j = Some b)
    s2 (length bl)) as (s3 & E3 & Hc3 & Ed3 & ? & ? & ? & _ & Hb3).
  - by intros k s' (_&_&_&_&?&_).
  - rewrite Elg2. unfold over; simpl. split_and!; try done; [congruence|lia].
  - intros k s' Hk (Hc' & Ed' & Hd' & Hs' & Hn' & Hl' & Hb').
    destruct (lookup_lt_is_Some_2 bl k Hk) as [b Hb].
    eexists. split.
    { unfold lh_set. mstep. rewrite Nat2Z.id. destruct (Nat.ltb_spec k (length (lh_block (l_lh (lg s'))))); [done|lia]. }
    split_and!; simpl; try done; [by apply (cache_rep_ext _ _ s')|by rewrite length_insert|].
    intros j b' Hj Hb''. destruct (decide (k = j)) as [<-|].
    + rewrite list_lookup_insert_eq by lia. f_equal. by apply Hbl.
    + rewrite list_lookup_insert_ne by done. apply Hb'; [lia|done].
  - mstep_with E3.
    destruct (brelse_run pid ∅ H s3 i start d Hc3 (lookup_insert_eq _ _ _)) as (s4 & E4 & Ed4 & Er4 & Hc4).
    { unfold content. by rewrite lookup_empty, Ed3. }
    unfold H in Hc4. rewrite delete_insert_eq, delete_empty in Hc4.
    exists s4. rewrite (lg_rest _ _ Er4). split_and!; try done; [congruence|].
    intros k b Hb. apply Hb3; [by eapply lookup_lt_Some|done].
Qed.

Definition recover_writes (D : disk) (bl : list Z) : list (Z * block) :=
  home_writes bl (λ k, disk_read D (start + Z.of_nat k + 1)) (length bl)
  ++ [(start, head_of (disk_read D start) [])].

Lemma recover_run D bl s :
  cache_rep pid ∅ ∅ s → hdisk s = D → l_dev (lg s) = 1 → l_start (lg s) = start →
  header_lists (disk_read D start) bl →
  (length bl ≤ length (lh_block (l_lh (lg s))))%nat → (length bl < NBUF)%nat →
  0 ≤ start ∧ start + Z.of_nat (length bl) < disksize D →
  (∀ b, b ∈ bl → 0 ≤ b < disksize D ∧ ¬ (start ≤ b ≤ start + Z.of_nat (length bl))) →
  ∃ s', recover_from_log s = Ok tt s' ∧ cache_rep pid ∅ ∅ s'
    ∧ hdisk s' = disk_app D (recover_writes D bl).
Proof.
  intros Hc HD Hdev Hst Hh Hlen Hsm Harea Hhome. unfold recover_from_log.
  destruct (read_head_run D bl s) as (s1 & E1 & Hc1 & Ed1 & Hdev1 & Hst1 & Hn1 & Hb1); [done..|lia|done|done|].
  mstep_with E1. assert (log_holds D bl s1) as Hl1 by (by split).
  destruct (install_run ∅ D bl s1 Hc1 Ed1 Hl1) as (s2 & E2 & Er2 & Hc2 & Ed2);
    [by right|by intros b [? ?]|rewrite map_size_empty; unfold NBUF; lia|].
  mstep_with E2.
  destruct (set_lh_n_ok s2 0) as (s3 & E3 & Ed3 & Eb3 & Eh3 & Ec3 & Ep3 & Elg3). mstep_with E3.
  assert (unpin ∅ bl = ∅) as EP.
  { apply map_eq. intros b. rewrite lookup_unpin. by case_decide. }
  rewrite EP in Hc2. assert (cache_rep pid ∅ ∅ s3) as Hc3 by (by apply (cache_rep_ext _ _ s2)).
  rewrite (lg_rest _ _ Er2) in Elg3.
  assert (log_holds (hdisk s3) [] s3) as Hl3.
  { rewrite Ed3, Ed2. split; rewrite ?Elg3; [done..|simpl; lia|simpl; rewrite disksize_app; lia|].
    by intros b ?%not_elem_of_nil. }
  destruct (write_head_run ∅ _ [] s3 Hc3 eq_refl Hl3) as (s4 & E4 & _ & Hc4 & Ed4);
    [done|rewrite map_size_empty; unfold NBUF; lia|].
  exists s4. split; [exact E4|]. split; [done|].
  assert (disk_read (hdisk s3) start = disk_read D start) as Es.
  { rewrite Ed3, Ed2. apply disk_read_app_ne; [lia|by apply (home_writes_in D bl s1)|].
    intros Hx%home_writes_dom; [|done]. apply Hhome in Hx. lia. }
  rewrite Ed4, Es, Ed3, Ed2, disk_app_app. done.
Qed.

Lemma readsb_run P D s :
  cache_rep pid P ∅ s → hdisk s = D → 1 < disksize D → P !! 1 = None → (size P < NBUF)%nat →
  ∃ s', readsb 1 s = Ok (decode_sb (disk_read D 1)) s' ∧ cache_rep pid P ∅ s'
    ∧ hdisk s' = D ∧ rest s' = rest s.
Proof.
  intros Hc HD Hsz HP1 Hroom. unfold readsb.
  destruct (bread_run pid P ∅ s 1 Hc) as (i & s1 & E1 & _ & Ed1 & Er1 & Hc1).
  { rewrite HD. lia. } { done. } { right. rewrite map_size_empty. lia. }
  mstep_with E1. unfold content in Hc1. rewrite HP1, HD in Hc1.
  mstep_with (bdata_run pid P _ s1 i 1 _ Hc1 (lookup_insert_eq _ _ _)).
  destruct (brelse_run pid P _ s1 i 1 _ Hc1 (lookup_insert_eq _ _ _)) as (s2 & E2 & Ed2 & Er2 & Hc2).
  { unfold content. by rewrite HP1, Ed1, HD. }
  rewrite delete_insert_eq, delete_empty in Hc2. mstep_with E2. exists s2. split_and!; congruence || done.
Qed.

Lemma initlog_run D bl s :
  cache_rep pid ∅ ∅ s → hdisk s = D → 1 < disksize D →
  sb_logstart (decode_sb (disk_read D 1)) = start →
  header_lists (disk_read D start) bl →
  (length bl ≤ length (lh_block (l_lh (lg s))))%nat → (length bl < NBUF)%nat →
  0 ≤ start ∧ start + Z.of_nat (length bl) < disksize D →
  (∀ b, b ∈ bl → 0 ≤ b < disksize D ∧ ¬ (start ≤ b ≤ start + Z.of_nat (length bl))) →
  ∃ s', initlog 1 s = Ok tt s' ∧ cache_rep pid ∅ ∅ s' ∧ hdisk s' = disk_app D (recover_writes D bl).
Proof.
  intros Hc HD Hsz Hsb Hh Hlen Hsm Harea Hhome. unfold initlog.
  replace (BSIZE <=? sizeof_logheader) with false by done.
  destruct (readsb_run ∅ D s) as (s1 & E1 & Hc1 & Ed1 & Er1);
    [done..|rewrite map_size_empty; unfold NBUF; lia|].
  mstep_with E1. unfold upd_log_state. repeat mstep. rewrite Hsb.
  set (s2 := over lg _ (over lg _ (over lg _ s1))).
  assert (lh_block (l_lh (lg s2)) = lh_block (l_lh (lg s))) as Elb by (simpl; by rewrite (lg_rest _ _ Er1)).
  apply recover_run; try done; [by apply (cache_rep_ext _ _ s1)|by rewrite Elb].
Qed.
End log.

Lemma get32_fill_head d bl k o :
  0 ≤ o → 4 + 4 * Z.of_nat (length bl) ≤ Z.of_nat (length d) → (k ≤ length bl)%nat →
  get32 (fill_head d bl k) (4 * o) =
    if decide (o = 0) then u32 (Z.of_nat (length bl))
    else if decide (o ≤ Z.of_nat k) then u32 (bl !!! Z.to_nat (o - 1)) else get32 d (4 * o).
Proof.
  intros Ho Hl. assert (∀ k : nat, length (fill_head d bl k) = length d) as Hlen.
  { clear k. induction k as [|k IH]; [exact (length_put32 d 0 _)|]. by rewrite fill_head_S, length_put32. }
  induction k as [|k IH]; intros Hk.
  - unfold fill_head; simpl. case_decide as E; [subst; apply get32_put32_eq; lia|].
    rewrite decide_False by lia. apply get32_put32_ne; lia.
  - rewrite fill_head_S. destruct (decide (o = Z.of_nat (S k))) as [->|Hne].
    + replace (4 * Z.of_nat (S k)) with (4 + 4 * Z.of_nat k) by lia.
      rewrite get32_put32_eq by (rewrite ?Hlen; lia). rewrite decide_False, decide_True by lia.
      do 2 f_equal. lia.
    + rewrite get32_put32_ne by (rewrite ?Hlen; lia). rewrite IH by lia.
      repeat case_decide; lia || done.
Qed.

(** Reading the header back: [read_head] finds what [write_head] wrote. *)
Lemma head_of_lists d bl :
  4 + 4 * Z.of_nat (length bl) ≤ Z.of_nat (length d) → (length bl < NBUF)%nat →
  (∀ b, b ∈ bl → 0 ≤ b < 4294967296) →
  header_lists (head_of d bl) bl.
Proof.
  intros Hl Hsm Hb. unfold header_lists, head_of. split.
  - rewrite (get32_fill_head d bl _ 0) by lia. rewrite decide_True by done.
    unfold NBUF in Hsm. rewrite u32_small by lia. unfold i32. zlia.
  - intros k b Hk. pose proof (lookup_lt_Some _ _ _ Hk).
    replace (4 + 4 * Z.of_nat k) with (4 * Z.of_nat (S k)) by lia.
    rewrite get32_fill_head by lia. rewrite decide_False, decide_True by lia.
    replace (Z.to_nat (Z.of_nat (S k) - 1)) with k by lia.
    rewrite (list_lookup_total_correct _ _ _ Hk). apply u32_small, Hb.
    by eapply list_elem_of_lookup_2.
Qed.

Lemma length_head_of d bl : length (head_of d bl) = length d.
Proof.
  unfold head_of. generalize (length bl) at 1 as k. induction k as [|k IH]; [exact (length_put32 d 0 _)|].
  by rewrite fill_head_S, length_put32.
Qed.

(** * Crashes *)

(** The disk as a crash leaves it when [k] of its block writes have been performed. *)
Definition crash (D : disk) (k : nat) : disk := mk_disk (d_image D) (take k (d_writes D)).

(** Recovery at boot: [main] initialises the cache, the first process the log. *)
Definition recover : K unit := binit;; initlog ROOTDEV.

Section crash.
Context (start : Z).
Implicit Types (D : disk) (bl : list Z).

(** Blocks outside the log. *)
Definition home bl (b : Z) : Prop := 0 ≤ b ∧ ¬ (start ≤ b ≤ start + Z.of_nat (length bl)).

Lemma reboot_run D bl :
  1 < disksize D → sb_logstart (decode_sb (disk_read D 1)) = start →
  header_lists (disk_read D start) bl → (length bl < NBUF)%nat →
  0 ≤ start ∧ start + Z.of_nat (length bl) < disksize D →
  (∀ b, b ∈ bl → 0 ≤ b < disksize D ∧ ¬ (start ≤ b ≤ start + Z.of_nat (length bl))) →
  ∃ r, recover (reboot D) = Ok tt r ∧ hdisk r = disk_app D (recover_writes start D bl).
Proof.
  intros H1 Hsb Hh Hsm Harea Hhome. unfold recover.
  mstep_with (binit_run (reboot D) (replicate 512 0) eq_refl).
  assert (running (reboot D) 1) as Hr by (by exists 0%nat, boot_proc).
  destruct (initlog_run 1 start D bl ((reboot D) <| bufs := binit_bufs (replicate 512 0) |>))
    as (r & E & _ & Ed); try done; [by apply cache_rep_binit| |by exists r].
  simpl. unfold NBUF in Hsm. lia.
Qed.

(** Recovery when the header lists nothing, and when it lists [bl] and the log
    blocks hold [val]. *)
Lemma recover_old D bl b :
  0 ≤ start < disksize D → home bl b →
  disk_read (disk_app D (recover_writes start D [])) b = disk_read D b.
Proof.
  intros Hs [Hb Hn]. apply disk_read_app_ne; [done|..].
  - apply Forall_cons. simpl. split; [lia|done].
  - simpl. rewrite list_elem_of_singleton. lia.
Qed.

Lemma recover_new D D0 P bl b :
  0 ≤ start < disksize D → NoDup bl →
  (∀ b, b ∈ bl → 0 ≤ b < disksize D ∧ ¬ (start ≤ b ≤ start + Z.of_nat (length bl))) →
  (∀ b, is_Some (P !! b) ↔ b ∈ bl) →
  (∀ k, (k < length bl)%nat → disk_read D (start + Z.of_nat k + 1) = content P D0 (bl !!! k)) →
  home bl b → (b ∉ bl → disk_read D b = disk_read D0 b) →
  disk_read (disk_app D (recover_writes start D bl)) b = content P D0 b.
Proof.
  intros Hs Hnd Hhome HP Hval [Hb Hn] Hout. unfold recover_writes.
  rewrite disk_read_app_snoc by done. rewrite decide_False by lia.
  rewrite (home_writes_ext bl _ (λ k, content P D0 (bl !!! k))) by exact Hval.
  assert (Forall (λ p, 0 ≤ p.1 < disksize D)
    (home_writes bl (λ k, content P D0 (bl !!! k)) (length bl))) as Hf.
  { apply Forall_forall. intros p Hp. apply Hhome. eapply (home_writes_dom bl); [done|].
    by apply (list_elem_of_fmap_2 fst) in Hp. }
  destruct (decide (b ∈ bl)) as [Hin|Hnin].
  - apply disk_read_app_in; [done|by apply home_writes_NoDup|].
    apply list_elem_of_lookup in Hin as [k Hk]. apply list_elem_of_fmap. exists k.
    rewrite (list_lookup_total_correct _ _ _ Hk), elem_of_seq. split; [done|].
    apply lookup_lt_Some in Hk. lia.
  - rewrite disk_read_app_ne; [|done|done|by intros ?%home_writes_dom].
    rewrite Hout by done. unfold content. destruct (P !! b) eqn:E; [|done].
    exfalso. apply Hnin, HP. eauto.
Qed.

(** A transaction about to commit on a disk whose log is empty. *)
Record ready pid P D bl (s : kstate) : Prop := {
  rd_txn : txn pid start P D bl s;
  rd_nonempty : bl ≠ [];
  rd_sb : sb_logstart (decode_sb (disk_read D 1)) = start;
  rd_start : 1 < start;
  rd_one : 1 ∉ bl;
  rd_empty : i32 (get32 (disk_read D start) 0) = 0;
  rd_length : length (disk_read D start) = Z.to_nat BSIZE;
  rd_width : disksize D ≤ 4294967296 }.

Lemma take_fmap_seq {A} (f : nat → A) m n : take m (f <$> seq 0 n) = f <$> seq 0 (m `min` n).
Proof. by rewrite <- fmap_take, take_seq. Qed.

(** The three kinds of prefix of a commit's writes. *)
Lemma commit_prefix P D bl m :
  let n := length bl in let val := λ k, content P D (bl !!! k) in
  let hdr := head_of (disk_read D start) bl in
  take m (commit_writes start P D bl) =
    if decide (m ≤ n)%nat then log_writes start val m
    else log_writes start val n ++ [(start, hdr)] ++ home_writes bl val ((m - n - 1) `min` n)
         ++ (if decide (m ≤ 2 * n + 1)%nat then [] else [(start, head_of hdr [])]).
Proof.
  cbv zeta. unfold commit_writes. set (n := length bl).
  assert (∀ val, length (log_writes start val n) = n) as E1 by (intros; unfold log_writes; by rewrite length_fmap, length_seq).
  assert (∀ val, length (home_writes bl val n) = n) as E2 by (intros; unfold home_writes; by rewrite length_fmap, length_seq).
  rewrite take_app, E1. case_decide.
  - replace (m - n)%nat with 0%nat by lia. simpl. rewrite app_nil_r.
    unfold log_writes. rewrite take_fmap_seq. by rewrite Nat.min_l by lia.
  - rewrite take_ge by (rewrite E1; lia). f_equal.
    destruct (m - n)%nat as [|m'] eqn:Em; [lia|]. simpl. f_equal. rewrite Nat.sub_0_r.
    rewrite take_app, E2. unfold home_writes at 1. rewrite take_fmap_seq. f_equal.
    case_decide.
    + by replace (m' - n)%nat with 0%nat by lia.
    + destruct (m' - n)%nat eqn:?; [lia|]. simpl. by rewrite take_nil.
Qed.

Lemma crash_after D w k :
  (length (d_writes D) ≤ k)%nat →
  crash (disk_app D w) k = disk_app D (take (k - length (d_writes D)) w).
Proof. intros. unfold crash, disk_app. simpl. by rewrite take_app, take_ge by lia. Qed.
End crash.

Section atomicity.
Context (pid start : Z) (P : gmap Z block) (D : disk) (bl : list Z) (s : kstate).
Context (Hready : ready start pid P D bl s).
Local Notation n := (length bl).
Local Notation val := (λ k, content P D (bl !!! k)).
Local Notation hdr := (head_of (disk_read D start) bl).

Lemma ready_area : 0 ≤ start ∧ start + Z.of_nat n < disksize D.
Proof. apply (lo_area _ _ _ _ (tx_log _ _ _ _ _ _ (rd_txn _ _ _ _ _ _ Hready))). Qed.
Lemma ready_home b : b ∈ bl → 0 ≤ b < disksize D ∧ ¬ (start ≤ b ≤ start + Z.of_nat n).
Proof. apply (lo_home _ _ _ _ (tx_log _ _ _ _ _ _ (rd_txn _ _ _ _ _ _ Hready))). Qed.
Lemma ready_small : (n < NBUF)%nat.
Proof. apply (lo_small _ _ _ _ (tx_log _ _ _ _ _ _ (rd_txn _ _ _ _ _ _ Hready))). Qed.

Lemma ready_header : header_lists hdr bl.
Proof.
  apply head_of_lists; [|apply ready_small|].
  - rewrite (rd_length _ _ _ _ _ _ Hready). pose proof ready_small. unfold NBUF, BSIZE in *. lia.
  - intros b Hb%ready_home. pose proof (rd_width _ _ _ _ _ _ Hready). lia.
Qed.

(** Every write of the commit goes to the log area or to a logged block. *)
Lemma hw_in k : (k ≤ n)%nat → Forall (λ p, 0 ≤ p.1 < disksize D) (home_writes bl val k).
Proof.
  intros. apply Forall_forall. intros p Hp. apply ready_home.
  eapply (home_writes_dom bl); [eassumption|]. by apply (list_elem_of_fmap_2 fst) in Hp.
Qed.
Lemma lw_in k : (k ≤ n)%nat → Forall (λ p, 0 ≤ p.1 < disksize D) (log_writes start val k).
Proof. apply (log_writes_in start D bl s). apply (tx_log _ _ _ _ _ _ (rd_txn _ _ _ _ _ _ Hready)). Qed.

(** A crash before the header is written: recovery finds an empty log. *)
Lemma crash_early m :
  (m ≤ n)%nat →
  ∃ r, recover (reboot (disk_app D (log_writes start val m))) = Ok tt r
    ∧ ∀ b, home start bl b → disk_read (hdisk r) b = disk_read D b.
Proof.
  intros Hm. pose proof ready_area. set (D' := disk_app D _).
  assert (∀ b, 0 ≤ b → ¬ (start + 1 ≤ b ≤ start + Z.of_nat n) → disk_read D' b = disk_read D b) as E.
  { intros b Hb Hn. apply disk_read_app_ne; [done|by apply lw_in|].
    intros Hx%log_writes_addr. lia. }
  pose proof (rd_start _ _ _ _ _ _ Hready).
  destruct (reboot_run start D' []) as (r & Er & Ed).
  - unfold D'. rewrite disksize_app. lia.
  - rewrite E by lia. apply Hready.
  - rewrite E by lia. split; [apply Hready|done].
  - simpl. unfold NBUF. lia.
  - simpl. unfold D'. rewrite disksize_app. lia.
  - by intros b ?%not_elem_of_nil.
  - exists r. split; [done|]. intros b Hb. rewrite Ed, (recover_old start D' bl); [|unfold D'; rewrite disksize_app; lia|done].
    destruct Hb. apply E; lia.
Qed.

(** A crash once the header is written: recovery redoes the transaction. *)
Lemma crash_middle j :
  (j ≤ n)%nat →
  ∃ r, recover (reboot (disk_app D (log_writes start val n ++ [(start, hdr)] ++ home_writes bl val j))) = Ok tt r
    ∧ ∀ b, home start bl b → disk_read (hdisk r) b = content P D b.
Proof.
  intros Hj. pose proof ready_area. set (D' := disk_app D _).
  assert (∀ b, 0 ≤ b → b ∉ bl → ¬ (start ≤ b ≤ start + Z.of_nat n) → disk_read D' b = disk_read D b) as E.
  { intros b Hb Hn Hr. unfold D'. apply disk_read_app_ne; [done|..].
    - apply Forall_app; split; [by apply lw_in|]. apply Forall_cons; split; [simpl; lia|by apply hw_in].
    - rewrite fmap_app, not_elem_of_app. split; [intros Hx%log_writes_addr; lia|].
      simpl. apply not_elem_of_cons. split; [lia|]. by intros Hx%home_writes_dom. }
  pose proof (rd_start _ _ _ _ _ _ Hready).
  assert (∀ k, (k < n)%nat → disk_read D' (start + Z.of_nat k + 1) = val k) as Eval.
  { intros k Hk. apply (logged_block start D bl s val);
      [apply (tx_log _ _ _ _ _ _ (rd_txn _ _ _ _ _ _ Hready))|done|..].
    - apply Forall_cons; split; [simpl; lia|by apply hw_in].
    - intros i Hi. simpl. apply not_elem_of_cons. split; [lia|].
      intros Hx%home_writes_dom; [|done]. apply ready_home in Hx. lia. }
  assert (disk_read D' start = hdr) as Eh.
  { unfold D'. rewrite app_assoc, <- disk_app_app, disk_read_app_ne; [|lia|by apply hw_in|].
    - rewrite disk_read_app_snoc by lia. by rewrite decide_True.
    - intros Hx%home_writes_dom; [|done]. apply ready_home in Hx. lia. }
  destruct (reboot_run start D' bl) as (r & Er & Ed).
  - unfold D'. rewrite disksize_app. lia.
  - rewrite E; [apply Hready|lia|apply Hready|lia].
  - rewrite Eh. apply ready_header.
  - apply ready_small.
  - unfold D'. by rewrite disksize_app.
  - apply ready_home.
  - exists r. split; [done|]. intros b Hb. rewrite Ed.
    apply recover_new; [unfold D'; rewrite disksize_app; lia|apply (rd_txn _ _ _ _ _ _ Hready)|apply ready_home| |exact Eval|done|].
    + apply (tx_dom _ _ _ _ _ _ (rd_txn _ _ _ _ _ _ Hready)).
    + intros Hnin. destruct Hb. by apply E.
Qed.

(** A crash after the header is erased: there is nothing left to redo. *)
Lemma crash_late :
  ∃ r, recover (reboot (disk_app D (commit_writes start P D bl))) = Ok tt r
    ∧ ∀ b, home start bl b → disk_read (hdisk r) b = content P D b.
Proof.
  pose proof ready_area. set (D' := disk_app D _). pose proof (rd_start _ _ _ _ _ _ Hready).
  assert (∀ b, 0 ≤ b → ¬ (start ≤ b ≤ start + Z.of_nat n) → disk_read D' b = content P D b) as E.
  { intros b Hb Hn. unfold D', commit_writes. rewrite !app_assoc, disk_read_app_snoc by lia.
    rewrite decide_False by lia. rewrite <- disk_app_app.
    destruct (decide (b ∈ bl)) as [Hin|Hnin].
    - apply disk_read_app_in; [by apply hw_in|apply home_writes_NoDup, (rd_txn _ _ _ _ _ _ Hready)|].
      apply list_elem_of_lookup in Hin as [k Hk]. apply list_elem_of_fmap. exists k.
      rewrite (list_lookup_total_correct _ _ _ Hk), elem_of_seq. split; [done|].
      apply lookup_lt_Some in Hk. lia.
    - rewrite disk_read_app_ne; [|done|by apply hw_in|by intros ?%home_writes_dom].
      rewrite disk_read_app_snoc by lia. rewrite decide_False by lia.
      rewrite disk_read_app_ne; [|done|by apply lw_in|intros Hx%log_writes_addr; lia].
      unfold content. destruct (P !! b) eqn:EP; [|done]. exfalso. apply Hnin.
      apply (tx_dom _ _ _ _ _ _ (rd_txn _ _ _ _ _ _ Hready)). eauto. }
  assert (P !! 1 = None) as HP1.
  { apply eq_None_not_Some. rewrite (tx_dom _ _ _ _ _ _ (rd_txn _ _ _ _ _ _ Hready)). apply Hready. }
  destruct (reboot_run start D' []) as (r & Er & Ed).
  - unfold D'. rewrite disksize_app. lia.
  - rewrite E by lia. unfold content. rewrite HP1. apply Hready.
  - unfold D', commit_writes. rewrite !app_assoc, disk_read_app_snoc by lia. rewrite decide_True by done.
    apply head_of_lists; [|simpl; unfold NBUF; lia|by intros b ?%not_elem_of_nil].
    rewrite length_head_of, (rd_length _ _ _ _ _ _ Hready). simpl. unfold BSIZE. lia.
  - simpl. unfold NBUF. lia.
  - simpl. unfold D'. rewrite disksize_app. lia.
  - by intros b ?%not_elem_of_nil.
  - exists r. split; [done|]. intros b Hb. rewrite Ed, (recover_old start D' bl); [|unfold D'; rewrite disksize_app; lia|done].
    destruct Hb. by apply E.
Qed.
End atomicity.

(** * Properties *)

(** C1: [commit] is atomic with respect to crashes.  It always completes; and whatever
    number [k] of disk writes have reached the disk when the machine stops, booting from
    that disk recovers without panic and leaves every block outside the log either as it was before the
    transaction (the header block was not yet written) or as the transaction made it
    (it was): never a mixture. *)
Theorem commit_crash_atomic (pid start : Z) (P : gmap Z block) (D : disk) (bl : list Z) (s : kstate) :
  ready start pid P D bl s →
  ∃ s', commit s = Ok tt s' ∧
  ∀ k, (length (d_writes D) ≤ k)%nat →
  ∃ r, recover (reboot (crash (hdisk s') k)) = Ok tt r ∧
  ∀ b, home start bl b →
    disk_read (hdisk r) b =
      if decide (k ≤ length (d_writes D) + length bl)%nat then disk_read D b else content P D b.
Proof.
  intros Hr. destruct (commit_run pid start P D bl s) as (s' & E & _ & Ed); [apply Hr|apply Hr|].
  exists s'. split; [done|]. intros k Hk. rewrite Ed, crash_after by done.
  set (m := (k - length (d_writes D))%nat). rewrite commit_prefix.
  assert (∀ b, (if decide (k ≤ length (d_writes D) + length bl)%nat then disk_read D b else content P D b)
    = if decide (m ≤ length bl)%nat then disk_read D b else content P D b) as Em.
  { intros b. repeat case_decide; done || lia. }
  setoid_rewrite Em. destruct (decide (m ≤ length bl)%nat).
  - by apply (crash_early pid start P D bl s Hr).
  - destruct (decide (m ≤ 2 * length bl + 1)%nat).
    + destruct (crash_middle pid start P D bl s Hr ((m - length bl - 1) `min` length bl)%nat) as (r & Er & Eb); [lia|].
      exists r. by rewrite app_nil_r.
    + rewrite Nat.min_r by lia. apply (crash_late pid start P D bl s Hr).
Qed.
