(* ===== verification/Txn.v ===== *)
(** Transactions as the file system uses them: [begin_op], [log_write] and [end_op]
    of [log.c], the reservation of log space, and complete transactions. *)
From S2P Require Export Log.

Section txn.
Context (pid start : Z).
Implicit Types (P : gmap Z block) (H : gmap nat (Z * block)) (D : disk) (bl : list Z).

(** ** log_write *)
Lemma find_block_spec bl b :
  (find_block bl b < length bl)%nat ∧ bl !! find_block bl b = Some b
  ∨ find_block bl b = length bl ∧ b ∉ bl.
Proof.
  induction bl as [|x bl IH]; simpl; [right; split; [done|by apply not_elem_of_nil]|].
  destruct (Z.eqb_spec x b) as [->|]; [left; split; [lia|done]|].
  destruct IH as [[? ?]|[-> ?]]; [left; split; [lia|done]|right; split; [done|]].
  apply not_elem_of_cons; split; congruence.
Qed.

(** What [log_write] does to the list of logged blocks: a block that is there is
    absorbed. *)
Definition log_add (b : Z) bl : list Z := if decide (b ∈ bl) then bl else bl ++ [b].

Record log_list bl (s : kstate) : Prop := {
  ll_n : lh_n (l_lh (lg s)) = Z.of_nat (length bl);
  ll_block : take (length bl) (lh_block (l_lh (lg s))) = bl;
  ll_cap : length (lh_block (l_lh (lg s))) = Z.to_nat LOGSIZE }.

Definition set_dirty (b : buf) : buf := b <| b_flags ::= λ f, Z.lor f B_DIRTY |>.

Lemma log_write_ok s i b bl :
  log_list bl s → bufs s !! i = Some b → 1 ≤ l_outstanding (lg s) →
  Z.of_nat (length bl) < LOGSIZE → Z.of_nat (length bl) < l_size (lg s) - 1 → LLog ∉ held s →
  ∃ s', log_write i s = Ok tt s' ∧ log_list (log_add (b_blockno b) bl) s'
    ∧ bufs s' = alter set_dirty i (bufs s)
    ∧ (lg s') <| l_lh := l_lh (lg s) |> = lg s ∧ s' <| lg := lg s |> <| bufs := bufs s |> = s.
Proof.
  intros [Hn Hbl Hcap] Hb Ho Hlen Hsz Hheld. unfold log_write. mstep. rewrite Hn.
  destruct (Z.leb_spec LOGSIZE (Z.of_nat (length bl))); [lia|].
  destruct (Z.leb_spec (l_size (lg s) - 1) (Z.of_nat (length bl))); [lia|]. change (false || false) with false.
  destruct (Z.ltb_spec (l_outstanding (lg s)) 1); [lia|]. cbv iota.
  mstep_with (acquire_ok LLog s Hheld).
  set (s1 := s <| held := LLog :: held s |>).
  mstep_with (buf_at_ok s1 i b Hb). mstep. change (lg s1) with (lg s). rewrite Hn, Nat2Z.id, Hbl.
  pose proof (find_block_spec bl (b_blockno b)) as Hj. unfold log_add.
  set (j := find_block bl (b_blockno b)) in *. unfold lh_set. rewrite bind_assoc. mstep.
  change (lg s1) with (lg s). rewrite Nat2Z.id, Hcap. unfold LOGSIZE, MAXOPBLOCKS in *.
  destruct (Nat.ltb_spec j (Z.to_nat (10 * 3))); [|destruct Hj as [[? _]|[? _]]; lia].
  assert (∀ (n : Z) s2, held s2 = LLog :: held s → release LLog s2 = Ok tt (s2 <| held := held s |>)) as Erel
    by (intros; by apply release_ok).
  destruct Hj as [[Hj Ej]|[Ej Hnin]].
  - rewrite decide_True by (eapply list_elem_of_lookup_2; exact Ej).
    unfold upd_log_state at 1. mstep. destruct (Z.eqb_spec (Z.of_nat j) (Z.of_nat (length bl))); [lia|].
    mstep. unfold upd_buf_at. mstep. rewrite (Erel 0) by done. eexists. split; [done|].
    split_and!; [|done|by destruct s as [? ? ? ? ? ? ? []]|by destruct s].
    assert (<[j:=b_blockno b]> (lh_block (l_lh (lg s))) = lh_block (l_lh (lg s))) as E.
    { apply list_insert_id. rewrite <- Hbl in Ej. rewrite lookup_take_Some in Ej. apply Ej. }
    split; simpl; unfold over; simpl; rewrite ?E; done.
  - rewrite decide_False by done. unfold upd_log_state at 1. mstep. rewrite Ej, Z.eqb_refl.
    unfold set_lh_n, upd_log_state. mstep. unfold upd_buf_at. mstep. rewrite (Erel 0) by done.
    eexists. split; [done|]. split_and!; [|done|by destruct s as [? ? ? ? ? ? ? []]|by destruct s].
    split; simpl; unfold over; simpl; rewrite ?length_app, ?length_insert; simpl; [lia| |done].
    rewrite Nat.add_1_r, (take_S_r _ _ (b_blockno b)) by (apply list_lookup_insert_eq; lia).
    by rewrite take_insert_ge, Hbl by lia.
Qed.

(** [log_write] by the holder of buffer [i], in terms of the cache: the block is
    pinned with the data the buffer has, and listed in the header once. *)
Lemma log_write_run P H s i blk d bl :
  cache_rep pid P H s → H !! i = Some (blk, d) → log_list bl s → 1 ≤ l_outstanding (lg s) →
  Z.of_nat (length bl) < LOGSIZE → Z.of_nat (length bl) < l_size (lg s) - 1 →
  ∃ s', log_write i s = Ok tt s' ∧ cache_rep pid (<[blk := d]> P) H s'
    ∧ log_list (log_add blk bl) s' ∧ hdisk s' = hdisk s
    ∧ (lg s') <| l_lh := l_lh (lg s) |> = lg s ∧ s' <| lg := lg s |> <| bufs := bufs s |> = s.
Proof.
  intros Hc Hi Hl Ho Hlen Hsz.
  destruct (handle_lookup _ _ _ _ _ _ _ Hc Hi) as (b & Hb & _ & _ & Hblk & _).
  destruct (log_write_ok s i b bl Hl Hb Ho Hlen Hsz) as (s' & E & Hl' & Eb & El & Es).
  { rewrite (cr_held _ _ _ _ Hc). by apply not_elem_of_nil. }
  destruct (set_dirty_run pid P H s i blk d Hc Hi) as (s1 & E1 & _ & _ & Hc1).
  rewrite upd_buf_at_eq in E1. injection E1 as <-.
  assert (∀ A (f : kstate → A), f (s' <| lg := lg s |> <| bufs := bufs s |>) = f s) as Ef by (intros; by rewrite Es).
  exists s'. split; [done|]. rewrite <- Hblk at 2. split_and!; [|done|exact (Ef _ hdisk)|done|done].
  apply (cache_rep_ext pid _ _ (s <| bufs := alter set_dirty i (bufs s) |>)); simpl.
  - exact (Ef _ hdisk).
  - done.
  - exact (Ef _ held).
  - exact (Ef _ curproc).
  - exact (Ef _ ptable).
  - exact Hc1.
Qed.

(** ** begin_op and end_op *)

(** The two conditions under which [begin_op] makes the caller wait. *)
Definition must_wait (l : log) : bool :=
  negb (l_committing l =? 0) || (LOGSIZE <? lh_n (l_lh l) + (l_outstanding l + 1) * MAXOPBLOCKS).

Lemma begin_op_ok s :
  LLog ∉ held s → must_wait (lg s) = false →
  begin_op s = Ok tt (s <| lg := (lg s) <| l_outstanding := l_outstanding (lg s) + 1 |> |>).
Proof.
  destruct s as [h ? ? ? ? ? ? [? ? o c ? []] ? ? ? ? ?]. unfold must_wait. simpl.
  intros Hh [Hc Hr]%orb_false_iff. unfold begin_op. erewrite bind_ok; [|by apply acquire_ok].
  unfold over. simpl. mstep. simpl. rewrite Hc, Hr. unfold upd_log_state. mstep.
  by erewrite release_ok.
Qed.

(** A waiting process has released [log.lock], sleeps on the log and is scheduled away. *)
Lemma begin_op_waits s i p :
  held s = [] → must_wait (lg s) = true → curproc s = Some i → ptable s !! i = Some p →
  begin_op s = Sleeping (sleeps_on ChLog i s <| held := [LPtable] |>).
Proof.
  intros Hh Hw Hi Hp. unfold begin_op.
  erewrite bind_ok; [|apply acquire_ok; rewrite Hh; apply not_elem_of_nil]. mstep. rewrite Hh.
  unfold must_wait in Hw. change (lg (s <| held := [LLog] |>)) with (lg s).
  transitivity (sleep (A:=unit) ChLog LLog (s <| held := [LLog] |>)).
  - destruct (negb (l_committing (lg s) =? 0)); [done|]. simpl in Hw. by rewrite Hw.
  - rewrite (sleep_ok _ _ _ i p) by done. done.
Qed.

Lemma end_op_wait s :
  LLog ∉ held s → LPtable ∉ held s → l_committing (lg s) = 0 → l_outstanding (lg s) ≠ 1 →
  end_op s = Ok tt (wakes ChLog (s <| lg := (lg s) <| l_outstanding := l_outstanding (lg s) - 1 |> |>)).
Proof.
  destruct s as [h ? ? ? ? ? ? [? ? o c ? []] ? ? ? ? ?]. simpl.
  intros Hh Hp -> Ho. unfold end_op. erewrite bind_ok; [|by apply acquire_ok].
  unfold upd_log_state. mstep. unfold over. simpl. mstep. simpl.
  destruct (Z.eqb_spec (o - 1) 0); [lia|]. rewrite bind_assoc.
  erewrite bind_ok; [|apply wakeup_ok, not_elem_of_cons; by split].
  mstep. unfold wakes, over. simpl. by erewrite bind_ok; [|by apply release_ok].
Qed.
End txn.

(** * The reservation of log space *)

(** What only [begin_op], [end_op] and [initlog] change. *)
Definition log_fixed (s : kstate) : Z * Z * Z * list Z :=
  (l_outstanding (lg s), l_committing (lg s), l_size (lg s), lh_block (l_lh (lg s))).

Section log_frame.
Lemma keeps_lg_bread dev b : keeps lg (bread dev b).
Proof. keeps_tac. Qed.
Lemma keeps_lg_bwrite i : keeps lg (bwrite i).
Proof. keeps_tac. Qed.
Lemma keeps_lg_brelse i : keeps lg (brelse i).
Proof. keeps_tac. Qed.
Lemma keeps_lg_wakeup ch : keeps lg (wakeup ch).
Proof. keeps_tac. Qed.
Lemma keeps_lg_acquire l : keeps lg (acquire l).
Proof. keeps_tac. Qed.
Lemma keeps_lg_release l : keeps lg (release l).
Proof. keeps_tac. Qed.
#[local] Hint Resolve keeps_lg_bread keeps_lg_bwrite keeps_lg_brelse : keeps.
Lemma keeps_lg_write_log : keeps lg write_log.
Proof. keeps_tac. Qed.
Lemma keeps_lg_write_head : keeps lg write_head.
Proof. keeps_tac. Qed.
Lemma keeps_lg_install_trans : keeps lg install_trans.
Proof. keeps_tac. Qed.

(** [commit] empties the log. *)
Lemma commit_log s s' :
  commit s = Ok tt s' → 0 ≤ lh_n (l_lh (lg s)) →
  lh_n (l_lh (lg s')) = 0 ∧ log_fixed s' = log_fixed s.
Proof.
  unfold commit. mstep. destruct (Z.ltb_spec 0 (lh_n (l_lh (lg s)))); [|intros [= <-]; split; [lia|done]].
  unfold mbind, M_bind. destruct (write_log s) as [[] s1| | |] eqn:E1; try done.
  destruct (write_head s1) as [[] s2| | |] eqn:E2; try done.
  destruct (install_trans s2) as [[] s3| | |] eqn:E3; try done.
  destruct (set_lh_n_ok s3 0) as (s4 & E4 & _ & _ & _ & _ & _ & El). rewrite E4. intros E5 _.
  apply keeps_lg_write_log in E1. apply keeps_lg_write_head in E2, E5. apply keeps_lg_install_trans in E3.
  unfold log_fixed. rewrite E5, El, E3, E2, E1. done.
Qed.
End log_frame.

(** The file-system calls in progress, each with the number of [log_write]s it has
    made; a call may make at most [MAXOPBLOCKS]. *)
Inductive op_step : list Z * kstate → list Z * kstate → Prop :=
  | OpBegin ws s s' : begin_op s = Ok tt s' → op_step (ws, s) (0 :: ws, s')
  | OpWrite ws1 w ws2 i s s' :
      w < MAXOPBLOCKS → log_write i s = Ok tt s' → op_step (ws1 ++ w :: ws2, s) (ws1 ++ (w + 1) :: ws2, s')
  | OpEnd ws1 w ws2 s s' :
      end_op s = Ok tt s' → op_step (ws1 ++ w :: ws2, s) (ws1 ++ ws2, s').

(** The blocks that the calls in progress may still log. *)
Definition allowance (ws : list Z) : Z := foldr (λ w n, MAXOPBLOCKS - w + n) 0 ws.

Lemma allowance_app ws1 ws2 : allowance (ws1 ++ ws2) = allowance ws1 + allowance ws2.
Proof. induction ws1 as [|w ws1 IH]; [done|]. unfold allowance in *. simpl. lia. Qed.

Lemma allowance_nonneg ws : Forall (λ w, 0 ≤ w ≤ MAXOPBLOCKS) ws → 0 ≤ allowance ws ≤ Z.of_nat (length ws) * MAXOPBLOCKS.
Proof. induction 1; unfold allowance in *; simpl in *; lia. Qed.

(** Every logged block and every promised one has a place in the log. *)
Record reserved (ws : list Z) (s : kstate) : Prop := {
  rs_out : l_outstanding (lg s) = Z.of_nat (length ws);
  rs_idle : l_committing (lg s) = 0;
  rs_bound : lh_n (l_lh (lg s)) + allowance ws ≤ LOGSIZE;
  rs_writes : Forall (λ w, 0 ≤ w ≤ MAXOPBLOCKS) ws;
  rs_list : ∃ bl, log_list bl s }.

Lemma acquire_inv l s s' : acquire l s = Ok tt s' → l ∉ held s.
Proof.
  unfold acquire, holding. repeat mstep. case_bool_decide; [done|]. done.
Qed.

(** A [log_write] that returns met its conditions. *)
Lemma log_write_inv i s s' bl :
  log_write i s = Ok tt s' → log_list bl s →
  1 ≤ l_outstanding (lg s) ∧ Z.of_nat (length bl) < LOGSIZE ∧ Z.of_nat (length bl) < l_size (lg s) - 1
  ∧ (LLog ∉ held s) ∧ is_Some (bufs s !! i).
Proof.
  intros E Hl. unfold log_write in E. revert E. mstep. rewrite (ll_n _ _ Hl).
  destruct (Z.leb_spec LOGSIZE (Z.of_nat (length bl))); [done|].
  destruct (Z.leb_spec (l_size (lg s) - 1) (Z.of_nat (length bl))); [done|]. change (false || false) with false. cbv iota.
  destruct (Z.ltb_spec (l_outstanding (lg s)) 1); [done|].
  unfold mbind at 1, M_bind at 1. destruct (acquire LLog s) as [[] s1| | |] eqn:Ea; [|done..].
  pose proof (acquire_inv _ _ _ Ea) as Hn. rewrite acquire_ok in Ea by done. injection Ea as <-.
  unfold mbind at 1, M_bind at 1, buf_at. mstep.
  change (bufs (s <| held := LLog :: held s |>)) with (bufs s). destruct (bufs s !! i) as [b|]; [|done].
  intros _. split_and!; [lia|done|lia|done|by eexists].
Qed.

Lemma length_log_add b bl : Z.of_nat (length bl) ≤ Z.of_nat (length (log_add b bl)) ≤ Z.of_nat (length bl) + 1.
Proof. unfold log_add. case_decide; [lia|]. rewrite length_app. simpl. lia. Qed.

Lemma reserved_write ws1 w ws2 i s s' :
  w < MAXOPBLOCKS → log_write i s = Ok tt s' → reserved (ws1 ++ w :: ws2) s →
  reserved (ws1 ++ (w + 1) :: ws2) s'.
Proof.
  intros Hw E [Ho Hi Hb Hf [bl Hl]]. destruct (log_write_inv _ _ _ _ E Hl) as (?&?&?&?&b&Hbi).
  destruct (log_write_ok s i b bl) as (s1 & E1 & Hl1 & _ & El & _); [done..|].
  rewrite E1 in E. injection E as <-. pose proof (length_log_add (b_blockno b) bl).
  assert (l_outstanding (lg s1) = l_outstanding (lg s) ∧ l_committing (lg s1) = l_committing (lg s)) as [Eo Ec]
    by (by rewrite <- El).
  apply Forall_app in Hf as [Hf1 [Hw0 Hf2]%Forall_cons].
  split; [|lia| | |by eexists].
  - rewrite Eo, Ho, !length_app. done.
  - rewrite (ll_n _ _ Hl1). rewrite (ll_n _ _ Hl) in Hb. rewrite allowance_app in *. unfold allowance in *. simpl in *. lia.
  - apply Forall_app; split; [done|]. apply Forall_cons; split; [|done]. lia.
Qed.

Lemma reserved_begin ws s s' :
  begin_op s = Ok tt s' → reserved ws s → reserved (0 :: ws) s'.
Proof.
  intros E [Ho Hi Hb Hf [bl Hl]].
  assert (LLog ∉ held s) as Hn.
  { unfold begin_op, mbind, M_bind in E. destruct (acquire LLog s) as [[]| | |] eqn:Ea; try done.
    by eapply acquire_inv. }
  destruct (must_wait (lg s)) eqn:Hw.
  - exfalso. revert E. unfold begin_op. erewrite bind_ok; [|by apply acquire_ok]. mstep.
    change (lg (s <| held := LLog :: held s |>)) with (lg s). unfold must_wait in Hw.
    assert (∀ s2 s3, sleep (A:=unit) ChLog LLog s2 ≠ Ok tt s3) as Hsl.
    { intros s2 s3. unfold sleep, myproc. mstep. destruct (curproc s2); [|done].
      unfold mbind, M_bind. repeat (case_match; try done). subst. intros E.
      revert E. unfold sched, mbind, M_bind. by repeat (case_match; try done). }
    destruct (negb (l_committing (lg s) =? 0)); [apply Hsl|]. simpl in Hw. rewrite Hw. apply Hsl.
  - rewrite begin_op_ok in E by done. injection E as <-.
    unfold must_wait in Hw. apply orb_false_iff in Hw as [_ Hw%Z.ltb_ge].
    pose proof (allowance_nonneg _ Hf). unfold MAXOPBLOCKS in *.
    split; simpl; unfold over; simpl; [lia|done| |by apply Forall_cons|].
    + unfold allowance in *. simpl. rewrite Ho in Hw. unfold MAXOPBLOCKS in *. lia.
    + exists bl. destruct Hl. by split.
Qed.

Lemma bind_inv {S A B} (m : M S A) (k : A → M S B) s b s' :
  (m ≫= k) s = Ok b s' → ∃ a s1, m s = Ok a s1 ∧ k a s1 = Ok b s'.
Proof. unfold mbind, M_bind. destruct (m s) as [a s1| | |]; naive_solver. Qed.

Lemma end_op_log s s' :
  end_op s = Ok tt s' → 0 ≤ lh_n (l_lh (lg s)) →
  l_committing (lg s) = 0 ∧
  log_fixed s' = (l_outstanding (lg s) - 1, 0, l_size (lg s), lh_block (l_lh (lg s))) ∧
  lh_n (l_lh (lg s')) = if decide (l_outstanding (lg s) = 1) then 0 else lh_n (l_lh (lg s)).
Proof.
  intros E Hn. unfold end_op in E. apply bind_inv in E as ([] & s1 & E1 & E).
  apply keeps_lg_acquire in E1. rewrite <- E1 in *. clear E1. revert E.
  unfold upd_log_state. repeat mstep. set (s2 := over lg _ s1).
  destruct (Z.eqb_spec (l_committing (lg s2)) 0) as [Ec|]; [|done]. change (l_committing (lg s1) = 0) in Ec.
  change (negb true) with false. cbv iota. change (l_outstanding (lg s2)) with (l_outstanding (lg s1) - 1).
  destruct (Z.eqb_spec (l_outstanding (lg s1) - 1) 0).
  - repeat mstep. set (s3 := over lg _ s2). intros ([] & s4 & E4 & E)%bind_inv.
    apply bind_inv in E as ([] & s5 & E5 & E). apply bind_inv in E as ([] & s6 & E6 & E). revert E. mstep.
    intros ([] & s7 & E7 & E8)%bind_inv.
    apply keeps_lg_release in E4, E8. apply keeps_lg_acquire in E6. apply keeps_lg_wakeup in E7.
    apply commit_log in E5 as [E5 E5']; [|rewrite E4; exact Hn].
    split_and!; [done| |].
    + unfold log_fixed in *. rewrite E8, E7. unfold over; simpl. rewrite E6. rewrite E4 in E5'.
      injection E5' as -> _ -> ->. done.
    + rewrite decide_True by lia. rewrite E8, E7. unfold over; simpl. by rewrite E6.
  - repeat mstep. intros ([] & s3 & E3 & E)%bind_inv. revert E. mstep. intros ([] & s4 & E4 & [= <-])%bind_inv.
    apply keeps_lg_wakeup in E3. apply keeps_lg_release in E4.
    rewrite decide_False by lia. unfold log_fixed. rewrite E4, E3. split_and!; [done| |done].
    unfold over; simpl. by rewrite Ec.
Qed.

Lemma reserved_end ws1 w ws2 s s' :
  end_op s = Ok tt s' → reserved (ws1 ++ w :: ws2) s → reserved (ws1 ++ ws2) s'.
Proof.
  intros E [Ho Hi Hb Hf [bl Hl]]. rewrite length_app in Ho. simpl in Ho.
  apply end_op_log in E as (_ & [= Eo Ec Es Eb] & En); [|rewrite (ll_n _ _ Hl); lia].
  apply Forall_app in Hf as [Hf1 [Hw0 Hf2]%Forall_cons].
  assert (Forall (λ w, 0 ≤ w ≤ MAXOPBLOCKS) (ws1 ++ ws2)) as Hf by (by apply Forall_app).
  pose proof (allowance_nonneg _ Hf) as Ha.
  split; [rewrite length_app; lia|done| |done|].
  - case_decide.
    + rewrite En. destruct ws1, ws2; simpl in *; try lia. done.
    + rewrite En. rewrite allowance_app in *. unfold allowance in *. simpl in *. lia.
  - case_decide; rewrite ?En.
    + exists []. split; [done|done|rewrite Eb; apply Hl].
    + exists bl. split; [rewrite En; apply Hl|rewrite Eb; apply Hl|rewrite Eb; apply Hl].
Qed.

Lemma op_step_reserved x y : op_step x y → reserved x.1 x.2 → reserved y.1 y.2.
Proof.
  destruct 1; simpl; [by apply reserved_begin|by eapply reserved_write|by eapply reserved_end].
Qed.

(** ** Schedules of calls, executable *)
Inductive op := DoBegin | DoWrite (j i : nat) | DoEnd (j : nat).

Definition exec_op (o : op) (x : list Z * kstate) : option (list Z * kstate) :=
  let '(ws, s) := x in
  match o with
  | DoBegin => match begin_op s with Ok _ s' => Some (0 :: ws, s') | _ => None end
  | DoWrite j i =>
      match ws !! j with
      | Some w => if w <? MAXOPBLOCKS
                  then match log_write i s with Ok _ s' => Some (<[j := w + 1]> ws, s') | _ => None end
                  else None
      | None => None
      end
  | DoEnd j =>
      match ws !! j with
      | Some _ => match end_op s with Ok _ s' => Some (delete j ws, s') | _ => None end
      | None => None
      end
  end.
Fixpoint exec_ops (os : list op) (x : list Z * kstate) : option (list Z * kstate) :=
  match os with
  | [] => Some x
  | o :: os => match exec_op o x with Some x' => exec_ops os x' | None => None end
  end.

Lemma exec_op_step o x y : exec_op o x = Some y → op_step x y.
Proof.
  destruct x as [ws s], o as [|j i|j]; simpl.
  - destruct (begin_op s) as [[]| | |] eqn:E; intros [= <-]; by constructor.
  - destruct (ws !! j) as [w|] eqn:Ej; [|done]. destruct (Z.ltb_spec w MAXOPBLOCKS); [|done].
    destruct (log_write i s) as [[] s'| | |] eqn:E; intros [= <-].
    rewrite (insert_take_drop ws j (w + 1)) by (by eapply lookup_lt_Some).
    rewrite <- (take_drop_middle ws j w Ej) at 1. by eapply OpWrite.
  - destruct (ws !! j) as [w|] eqn:Ej; [|done].
    destruct (end_op s) as [[] s'| | |] eqn:E; intros [= <-].
    rewrite delete_take_drop, <- (take_drop_middle ws j w Ej) at 1. by eapply OpEnd.
Qed.

Lemma exec_ops_steps os x y : exec_ops os x = Some y → rtc op_step x y.
Proof.
  revert x. induction os as [|o os IH]; intros x; [by intros [= <-]|].
  simpl. destruct (exec_op o x) as [x'|] eqn:E; [|done].
  intros ?. eapply rtc_l; [by apply (exec_op_step o)|by apply IH].
Qed.

Lemma reserved_steps x y : rtc op_step x y → reserved x.1 x.2 → reserved y.1 y.2.
Proof. induction 1; eauto using op_step_reserved. Qed.

(** No call in progress and nothing logged. *)
Record log_idle (s : kstate) : Prop := {
  li_out : l_outstanding (lg s) = 0;
  li_committing : l_committing (lg s) = 0;
  li_n : lh_n (l_lh (lg s)) = 0;
  li_cap : length (lh_block (l_lh (lg s))) = Z.to_nat LOGSIZE }.

Lemma log_idle_reserved s : log_idle s → reserved [] s.
Proof. intros []. split; [done|done| |done|by exists []]. rewrite li_n0. unfold allowance, LOGSIZE, MAXOPBLOCKS. simpl. lia. Qed.

(** ** A booted machine to run examples on *)

(** The superblock that [mkfs] writes for a disk of [size] blocks with [nlog] log blocks. *)
Definition demo_sb (size nlog : Z) : block :=
  foldl (λ d p, put32 d (4 * p.1) p.2) (replicate 512 0)
    [(0, size); (1, size - nlog - 28); (2, 200); (3, nlog); (4, 2); (5, 2 + nlog); (6, 28 + nlog)].
Definition demo_disk (size nlog : Z) : disk :=
  mk_disk (<[1%nat := demo_sb size nlog]> (replicate (Z.to_nat size) (replicate 512 0))) [].
Definition result (m : outcome kstate unit) : kstate :=
  match m with Ok _ s => s | _ => reboot (mk_disk [] []) end.
Definition demo_boot (size nlog : Z) : kstate := result (recover (reboot (demo_disk size nlog))).

(** The first process reads blocks [from .. from + n - 1] and holds their buffers. *)
Fixpoint read_blocks (from : Z) (n : nat) : K unit :=
  match n with
  | O => mret tt
  | S n => bread 1 from;; read_blocks (from + 1) n
  end.
Definition demo_cached (size nlog from : Z) (n : nat) : kstate :=
  result (read_blocks from n (demo_boot size nlog)).

(** A transaction of the first process that has rewritten block [50]. *)
Definition demo_log : log := mk_log 2 30 1 0 1 (mk_logheader 0 (replicate 30 0)).
Lemma demo_ready :
  ∃ s, ready 2 1 {[50 := replicate 512 7]} (demo_disk 80 30) [50] s.
Proof.
  set (D := demo_disk 80 30).
  set (s0 := (reboot D) <| bufs := binit_bufs (replicate 512 0) |> <| lg := demo_log |>).
  assert (cache_rep 1 ∅ ∅ s0) as Hc.
  { apply (cache_rep_ext 1 _ _ ((reboot D) <| bufs := binit_bufs (replicate 512 0) |>)); [done..|].
    apply cache_rep_binit; [done|]. by exists 0%nat, boot_proc. }
  destruct (bread_run 1 ∅ ∅ s0 50 Hc) as (i & s1 & _ & Hi & Ed1 & Er1 & Hc1); [by split; vm_compute|done|right; vm_compute; lia|].
  destruct (set_bdata_run 1 ∅ _ s1 i 50 _ (replicate 512 7) Hc1 (lookup_insert_eq _ _ _)) as (s2 & _ & Ed2 & Er2 & Hc2).
  rewrite insert_insert_eq in Hc2.
  assert (lg s2 = demo_log) as Hlg by (rewrite (lg_rest _ _ Er2), (lg_rest _ _ Er1); done).
  destruct (log_write_run 1 ∅ _ s2 i 50 (replicate 512 7) [] Hc2 (lookup_insert_eq _ _ _)) as (s3 & _ & Hc3 & Hl3 & Ed3 & El3 & _);
    [by split; rewrite Hlg|by rewrite ?Hlg..|].
  rewrite Hlg in El3.
  destruct (brelse_run 1 _ _ s3 i 50 _ Hc3 (lookup_insert_eq _ _ _)) as (s4 & _ & Ed4 & Er4 & Hc4).
  { unfold content. by rewrite lookup_insert_eq. }
  rewrite delete_insert_eq, (delete_id ∅) in Hc4 by done.
  exists s4. assert (hdisk s4 = D) as HD by (by rewrite Ed4, Ed3, Ed2, Ed1).
  assert (l_start (lg s4) = 2 ∧ l_dev (lg s4) = 1) as [??] by (rewrite (lg_rest _ _ Er4); split; [exact (f_equal l_start El3)|exact (f_equal l_dev El3)]).
  destruct Hl3 as [Hn Hb _]. change (log_add 50 []) with [50] in Hn, Hb. rewrite <- (lg_rest _ _ Er4) in Hn, Hb.
  split; [|done|by vm_compute|done| |by vm_compute..].
  - split; [exact Hc4|done| |apply NoDup_singleton|].
    + split; [done..| |vm_compute; lia|by split; vm_compute|].
      * intros k b Hk. rewrite <- Hb in Hk. rewrite lookup_take_Some in Hk. by destruct Hk.
      * intros b ->%list_elem_of_singleton. split; [by split; vm_compute|simpl; lia].
    + intros b. rewrite list_elem_of_singleton. unfold is_Some. setoid_rewrite lookup_insert_Some.
      split; [|intros ->; eauto]. intros (x & [[-> _]|[_ Hx]]); done.
  - rewrite list_elem_of_singleton. lia.
Qed.

Lemma commit_crash_atomic_witness :
  ∃ s s', commit s = Ok tt s' ∧
  ∀ k, (0 ≤ k)%nat →
  ∃ r, recover (reboot (crash (hdisk s') k)) = Ok tt r ∧
  ∀ b, home 2 [50] b →
    disk_read (hdisk r) b =
      if decide (k ≤ 1)%nat then disk_read (demo_disk 80 30) b
      else content {[50 := replicate 512 7]} (demo_disk 80 30) b.
Proof.
  destruct demo_ready as [s Hs]. exists s.
  apply (commit_crash_atomic 1 2 {[50 := replicate 512 7]} (demo_disk 80 30) [50] s Hs).
Defined.


(** * Properties *)

(** C2: the reservation of log space is sound.  However the file-system calls interleave their [begin_op],
    [log_write] and [end_op], a call that has made fewer than [MAXOPBLOCKS] writes can
    make another without running out of log, in a log whose size on disk exceeds [LOGSIZE]. *)
Theorem log_reservation_sound (s0 s : kstate) (ws : list Z) (w : Z) (i : nat) (b : buf) :
  log_idle s0 → rtc op_step ([], s0) (ws, s) → w ∈ ws → w < MAXOPBLOCKS →
  LOGSIZE < l_size (lg s) → bufs s !! i = Some b → LLog ∉ held s →
  ∃ s', log_write i s = Ok tt s'.
Proof.
  intros Hi%log_idle_reserved Hs Hw Hlt Hsz Hb Hn.
  destruct (reserved_steps _ _ Hs Hi) as [Ho _ Hbd Hf [bl Hl]]; simpl in *.
  apply list_elem_of_split in Hw as (ws1 & ws2 & ->).
  apply Forall_app in Hf as [Hf1 [_ Hf2]%Forall_cons].
  pose proof (allowance_nonneg _ Hf1). pose proof (allowance_nonneg _ Hf2).
  rewrite allowance_app, (ll_n _ _ Hl) in Hbd. rewrite length_app in Ho. unfold allowance in *. simpl in *.
  destruct (log_write_ok s i b bl) as (s' & E & _); [done|done|lia|lia|lia|done|by exists s'].
Qed.

Lemma log_reservation_sound_witness :
  ∃ s', log_write 29 (result (begin_op (demo_cached 80 31 40 3))) = Ok tt s'.
Proof.
  apply (log_reservation_sound (demo_cached 80 31 40 3) (result (begin_op (demo_cached 80 31 40 3)))
    [0] 0 29 (default (fresh_buf []) (bufs (demo_cached 80 31 40 3) !! 29%nat))).
  - by split; vm_compute.
  - apply (exec_ops_steps [DoBegin]). vm_compute. reflexivity.
  - left.
  - done.
  - vm_compute. reflexivity.
  - vm_compute. reflexivity.
  - vm_compute. by apply not_elem_of_nil.
Defined.

(** Three calls of ten, ten and nine writes to different blocks. *)
Definition three_calls : list op :=
  DoBegin :: DoBegin :: DoBegin ::
  ((λ k, DoWrite (k / 10) (29 - k)) <$> seq 0 29).

Definition three_start : kstate := demo_cached 80 30 40 30.
Definition three_end : list Z * kstate := default ([], three_start) (exec_ops three_calls ([], three_start)).

(** with the layout [mkfs] makes ([nlog = LOGSIZE]) the reservation is one block short:
    three calls that keep to [MAXOPBLOCKS] writes each are admitted by [begin_op], and a
    write of one of them panics. *)
Theorem log_reservation_short :
  ∃ s0 ws s i b, log_idle s0 ∧ l_size (lg s0) = LOGSIZE ∧ rtc op_step ([], s0) (ws, s) ∧
    (∃ w, w ∈ ws ∧ w < MAXOPBLOCKS) ∧ bufs s !! i = Some b ∧
    log_write i s = Panic "too big a transaction".
Proof.
  assert (exec_ops three_calls ([], three_start) = Some three_end) as E%exec_ops_steps by (vm_compute; reflexivity).
  assert (three_end.1 = [10; 10; 9]) as Ew by (vm_compute; reflexivity).
  assert (is_Some (bufs three_end.2 !! 0%nat)) as [b Hb] by (vm_compute; by eexists).
  exists three_start, three_end.1, three_end.2, 0%nat, b.
  split; [by split; vm_compute|]. split; [vm_compute; reflexivity|].
  split; [by rewrite <- surjective_pairing|]. split; [|split; [done|vm_compute; reflexivity]].
  exists 9. split; [|done]. rewrite Ew. right. right. left.
Qed.
