(* ===== verification/Fs.v ===== *)
(** The file system ([fs.c]): blocks and their bitmap, inodes and their cache, file
    contents, directories and path names.

    [readi] and [writei] exchange byte lists with their callers, which store them at
    [dst] or load them from [src].  Pointers to inodes are indices into
    [icache.inode]. *)
From S2P Require Export CString Log.

(** * Devices: the table [devsw] of [file.h] *)

(** What the driver of a device promises: [dev_read ip n] is the result of its read
    function and the bytes it stores at [dst]; [None] is a null function pointer. *)
Class Devsw := {
  dev_read : Z → option (nat → Z → K (Z * list Z));
  dev_write : Z → option (nat → list Z → Z → K Z) }.

(** * Access to the inode cache *)
Definition inode_at (i : nat) : K inode :=
  s ← get; match icache s !! i with Some ip => mret ip | None => trap end.
Definition upd_inode_at (i : nat) (f : inode → inode) : K unit :=
  modify (λ s, s <| icache ::= alter f i |>).

(** * Blocks *)
Definition IBLOCK (i : Z) (sb : superblock) : Z := u32 (i / IPB + sb_inodestart sb).
Definition BBLOCK (b : Z) (sb : superblock) : Z := u32 (b / BPB + sb_bmapstart sb).

Definition zero_block : block := replicate (Z.to_nat BSIZE) 0.
Definition set_byte (d : list Z) (i v : Z) : list Z := <[Z.to_nat i := v]> d.

Definition bzero (dev bno : Z) : K unit :=
  bp ← bread dev bno;
  set_bdata bp zero_block;;
  log_write bp;;
  brelse bp.

(** The inner loop of [balloc]: the bits of the bitmap block in [bp], which is for the
    blocks from [b] on. *)
Definition balloc_scan (dev : Z) (bp : nat) (b : Z) : K (option Z) :=
  iterM (S (Z.to_nat BPB)) (λ bi,
    sb0 ← gets sb;
    if (bi <? BPB) && (b + bi <? sb_size sb0) then
      let m := Z.shiftl 1 (bi mod 8) in
      d ← bdata bp;
      if Z.land (byte_at d (bi / 8)) m =? 0 then
        set_bdata bp (set_byte d (bi / 8) (u8 (Z.lor (byte_at d (bi / 8)) m)));;
        log_write bp;;
        brelse bp;;
        bzero dev (b + bi);;
        mret (inr (Some (b + bi)))
      else mret (inl (bi + 1))
    else mret (inr None)) 0.

Definition balloc (dev : Z) : K Z :=
  sb0 ← gets sb;
  iterM (S (S (Z.to_nat (sb_size sb0 / BPB)))) (λ b,
    sb0 ← gets sb;
    if b <? sb_size sb0 then
      bp ← bread dev (BBLOCK b sb0);
      found ← balloc_scan dev bp b;
      match found with
      | Some a => mret (inr a)
      | None => brelse bp;; mret (inl (b + BPB))
      end
    else panic "balloc: out of blocks") 0.

Definition bfree (dev b : Z) : K unit :=
  sb0 ← gets sb;
  bp ← bread dev (BBLOCK b sb0);
  let bi := b mod BPB in
  let m := Z.shiftl 1 (bi mod 8) in
  d ← bdata bp;
  if Z.land (byte_at d (bi / 8)) m =? 0 then panic "freeing free block" else
  set_bdata bp (set_byte d (bi / 8) (u8 (Z.land (byte_at d (bi / 8)) (Z.lnot m))));;
  log_write bp;;
  brelse bp.

(** * Inodes *)

(** [struct dinode] at offset [off] of a block: four shorts, the size, thirteen addresses. *)
Definition DINODE_SIZE : Z := 64.
Definition dinode_off (inum : Z) : Z := (inum mod IPB) * DINODE_SIZE.
Definition get_dinode (d : block) (off : Z) : dinode :=
  mk_dinode (i16 (get16 d off)) (i16 (get16 d (off + 2))) (i16 (get16 d (off + 4)))
    (i16 (get16 d (off + 6))) (get32 d (off + 8))
    ((λ k, get32 d (off + 12 + 4 * Z.of_nat k)) <$> seq 0 (S (Z.to_nat NDIRECT))).
Definition le_words (ws : list Z) : list Z := ws ≫= le32.
Definition put_dinode (d : block) (off : Z) (di : dinode) : block :=
  let d := put16 d off (di_type di) in
  let d := put16 d (off + 2) (di_major di) in
  let d := put16 d (off + 4) (di_minor di) in
  let d := put16 d (off + 6) (di_nlink di) in
  let d := put32 d (off + 8) (di_size di) in
  splice d (Z.to_nat (off + 12)) (le_words (di_addrs di)).

(** [initlock], which only names the lock, and the message with the superblock on the console are left out. *)
Definition iinit (dev : Z) : K unit :=
  for_range 0 NINODE (λ i, initsleeplock (SInode (Z.to_nat i)));;
  sb0 ← readsb dev;
  modify (λ s, s <| sb := sb0 |>).

(** One turn of the loop of [iget] ([ip] at index [i]), and what follows the loop. *)
Definition iget_body (dev inum : Z) : nat * option nat → K ((nat * option nat) + nat) :=
  λ '(i, empty),
    if (i <? NINODE)%nat then
      ip ← inode_at i;
      if (0 <? i_ref ip) && (i_dev ip =? dev) && (i_inum ip =? inum) then
        upd_inode_at i (λ ip, ip <| i_ref ::= λ r, r + 1 |>);;
        release LIcache;;
        mret (inr i)
      else
        mret (inl (S i, match empty with
                        | None => if i_ref ip =? 0 then Some i else None
                        | Some _ => empty
                        end))
    else
      match empty with
      | None => panic "iget: no inodes"
      | Some i =>
          upd_inode_at i (λ ip, ip <| i_dev := dev |> <| i_inum := inum |>
                                   <| i_ref := 1 |> <| i_valid := 0 |>);;
          release LIcache;;
          mret (inr i)
      end.

Definition iget (dev inum : Z) : K nat :=
  acquire LIcache;;
  iterM (S NINODE) (iget_body dev inum) (0%nat, None).

Definition ialloc (dev type : Z) : K nat :=
  sb0 ← gets sb;
  iterM (S (Z.to_nat (sb_ninodes sb0))) (λ inum,
    sb0 ← gets sb;
    if inum <? sb_ninodes sb0 then
      bp ← bread dev (IBLOCK inum sb0);
      d ← bdata bp;
      if di_type (get_dinode d (dinode_off inum)) =? 0 then
        set_bdata bp (splice d (Z.to_nat (dinode_off inum)) (replicate (Z.to_nat DINODE_SIZE) 0));;
        d ← bdata bp;
        set_bdata bp (put16 d (dinode_off inum) type);;
        log_write bp;;
        brelse bp;;
        ip ← iget dev inum;
        mret (inr ip)
      else
        brelse bp;;
        mret (inl (inum + 1))
    else panic "ialloc: no inodes") 1.

Definition iupdate (i : nat) : K unit :=
  ip ← inode_at i;
  sb0 ← gets sb;
  bp ← bread (i_dev ip) (IBLOCK (i_inum ip) sb0);
  d ← bdata bp;
  set_bdata bp (put_dinode d (dinode_off (i_inum ip))
    (mk_dinode (i_type ip) (i_major ip) (i_minor ip) (i_nlink ip) (i_size ip) (i_addrs ip)));;
  log_write bp;;
  brelse bp.

Definition idup (i : nat) : K nat :=
  acquire LIcache;;
  upd_inode_at i (λ ip, ip <| i_ref ::= λ r, r + 1 |>);;
  release LIcache;;
  mret i.

(** [None] is the null pointer. *)
Definition ilock (o : option nat) : K unit :=
  match o with
  | None => panic "ilock"
  | Some i =>
      ip ← inode_at i;
      if i_ref ip <? 1 then panic "ilock" else
      acquiresleep (SInode i);;
      ip ← inode_at i;
      if i_valid ip =? 0 then
        sb0 ← gets sb;
        bp ← bread (i_dev ip) (IBLOCK (i_inum ip) sb0);
        d ← bdata bp;
        let di := get_dinode d (dinode_off (i_inum ip)) in
        upd_inode_at i (λ ip, ip <| i_type := di_type di |> <| i_major := di_major di |>
          <| i_minor := di_minor di |> <| i_nlink := di_nlink di |>
          <| i_size := di_size di |> <| i_addrs := di_addrs di |>);;
        brelse bp;;
        upd_inode_at i (λ ip, ip <| i_valid := 1 |>);;
        ip ← inode_at i;
        if i_type ip =? 0 then panic "ilock: no type" else mret tt
      else mret tt
  end.

Definition iunlock (o : option nat) : K unit :=
  match o with
  | None => panic "iunlock"
  | Some i =>
      h ← holdingsleep (SInode i);
      ip ← inode_at i;
      if negb h || (i_ref ip <? 1) then panic "iunlock" else
      releasesleep (SInode i)
  end.

(** * Inode content *)
Definition addr_at (ip : inode) (k : Z) : Z := i_addrs ip !!! Z.to_nat k.
Definition set_addr (i : nat) (k a : Z) : K unit :=
  upd_inode_at i (λ ip, ip <| i_addrs ::= <[Z.to_nat k := a]> |>).

Definition bmap (i : nat) (bn : Z) : K Z :=
  ip ← inode_at i;
  if bn <? NDIRECT then
    if addr_at ip bn =? 0 then
      addr ← balloc (i_dev ip);
      set_addr i bn addr;;
      mret addr
    else mret (addr_at ip bn)
  else
  let bn := bn - NDIRECT in
  if bn <? NINDIRECT then
    addr ← (if addr_at ip NDIRECT =? 0 then
              addr ← balloc (i_dev ip);
              set_addr i NDIRECT addr;;
              mret addr
            else mret (addr_at ip NDIRECT));
    bp ← bread (i_dev ip) addr;
    a ← bdata bp;
    addr ← (if get32 a (4 * bn) =? 0 then
              addr ← balloc (i_dev ip);
              a ← bdata bp;
              set_bdata bp (put32 a (4 * bn) addr);;
              log_write bp;;
              mret addr
            else mret (get32 a (4 * bn)));
    brelse bp;;
    mret addr
  else panic "bmap: out of range".

Definition itrunc (i : nat) : K unit :=
  for_range 0 (Z.to_nat NDIRECT) (λ k,
    ip ← inode_at i;
    if addr_at ip k =? 0 then mret tt else
    bfree (i_dev ip) (addr_at ip k);;
    set_addr i k 0);;
  ip ← inode_at i;
  (if addr_at ip NDIRECT =? 0 then mret tt else
     bp ← bread (i_dev ip) (addr_at ip NDIRECT);
     for_range 0 (Z.to_nat NINDIRECT) (λ j,
       a ← bdata bp;
       if get32 a (4 * j) =? 0 then mret tt else bfree (i_dev ip) (get32 a (4 * j)));;
     brelse bp;;
     bfree (i_dev ip) (addr_at ip NDIRECT);;
     set_addr i NDIRECT 0);;
  upd_inode_at i (λ ip, ip <| i_size := 0 |>);;
  iupdate i.

Definition iput (i : nat) : K unit :=
  acquiresleep (SInode i);;
  ip ← inode_at i;
  (if negb (i_valid ip =? 0) && (i_nlink ip =? 0) then
     acquire LIcache;;
     ip ← inode_at i;
     let r := i_ref ip in
     release LIcache;;
     if r =? 1 then
       itrunc i;;
       upd_inode_at i (λ ip, ip <| i_type := 0 |>);;
       iupdate i;;
       upd_inode_at i (λ ip, ip <| i_valid := 0 |>)
     else mret tt
   else mret tt);;
  releasesleep (SInode i);;
  acquire LIcache;;
  upd_inode_at i (λ ip, ip <| i_ref ::= λ r, r - 1 |>);;
  release LIcache.

Definition iunlockput (i : nat) : K unit := iunlock (Some i);; iput i.

(** [struct stat] *)
Record stat := mk_stat { st_type : Z; st_dev : Z; st_ino : Z; st_nlink : Z; st_size : Z }.
Definition stati (i : nat) : K stat :=
  ip ← inode_at i;
  mret (mk_stat (i_type ip) (i_dev ip) (i_inum ip) (i_nlink ip) (i_size ip)).

Section content.
Context `{Devsw}.

(** The copying loops of [readi] and [writei]. *)
Definition readi_loop (i : nat) (off n : Z) : K (list Z) :=
  iterM (S (S (S (Z.to_nat (n / BSIZE))))) (λ '(tot, off, dst),
    if tot <? n then
      ip ← inode_at i;
      addr ← bmap i (off / BSIZE);
      bp ← bread (i_dev ip) addr;
      let m := Z.min (n - tot) (BSIZE - off mod BSIZE) in
      d ← bdata bp;
      let dst := dst ++ slice d (Z.to_nat (off mod BSIZE)) (Z.to_nat m) in
      brelse bp;;
      mret (inl (tot + m, u32 (off + m), dst))
    else mret (inr dst)) (0, off, []).

Definition writei_loop (i : nat) (src : list Z) (off n : Z) : K Z :=
  iterM (S (S (S (Z.to_nat (n / BSIZE))))) (λ '(tot, off),
    if tot <? n then
      ip ← inode_at i;
      addr ← bmap i (off / BSIZE);
      bp ← bread (i_dev ip) addr;
      let m := Z.min (n - tot) (BSIZE - off mod BSIZE) in
      d ← bdata bp;
      set_bdata bp (splice d (Z.to_nat (off mod BSIZE)) (slice src (Z.to_nat tot) (Z.to_nat m)));;
      log_write bp;;
      brelse bp;;
      mret (inl (tot + m, u32 (off + m)))
    else mret (inr off)) (0, off).

(** The result and the bytes stored at [dst]. *)
Definition readi (i : nat) (off n : Z) : K (Z * list Z) :=
  ip ← inode_at i;
  if i_type ip =? T_DEV then
    if (i_major ip <? 0) || (NDEV <=? i_major ip) then mret (-1, []) else
    match dev_read (i_major ip) with
    | None => mret (-1, [])
    | Some read => read i n
    end
  else
  if (i_size ip <? off) || (u32 (off + n) <? off) then mret (-1, []) else
  let n := if i_size ip <? u32 (off + n) then u32 (i_size ip - off) else n in
  dst ← readi_loop i off n;
  mret (i32 n, dst).

Definition writei (i : nat) (src : list Z) (off n : Z) : K Z :=
  ip ← inode_at i;
  if i_type ip =? T_DEV then
    if (i_major ip <? 0) || (NDEV <=? i_major ip) then mret (-1) else
    match dev_write (i_major ip) with
    | None => mret (-1)
    | Some write => write i src n
    end
  else
  if (i_size ip <? off) || (u32 (off + n) <? off) then mret (-1) else
  if MAXFILE * BSIZE <? u32 (off + n) then mret (-1) else
  off ← writei_loop i src off n;
  ip ← inode_at i;
  (if (0 <? n) && (i_size ip <? off) then
     upd_inode_at i (λ ip, ip <| i_size := off |>);;
     iupdate i
   else mret tt);;
  mret (i32 n).

(** * Directories *)

(** [struct dirent]: a 16-bit inode number and the name. *)
Definition DIRENT_SIZE : Z := 16.
Definition de_inum (de : list Z) : Z := get16 de 0.
Definition de_name (de : list Z) : list Z := drop 2 de.

Definition namecmp (s t : list Z) : Z := strncmp s t DIRSIZ.

(** The inode found and the offset of its entry ([*poff]). *)
Definition dirlookup (dp : nat) (name : list Z) : K (option (nat * Z)) :=
  ip ← inode_at dp;
  if negb (i_type ip =? T_DIR) then panic "dirlookup not DIR" else
  iterM (S (S (Z.to_nat (i_size ip / DIRENT_SIZE)))) (λ off,
    ip ← inode_at dp;
    if off <? i_size ip then
      '(r, de) ← readi dp off DIRENT_SIZE;
      if negb (r =? DIRENT_SIZE) then panic "dirlookup read" else
      if de_inum de =? 0 then mret (inl (u32 (off + DIRENT_SIZE))) else
      if namecmp name (de_name de) =? 0 then
        ip' ← iget (i_dev ip) (de_inum de);
        mret (inr (Some (ip', off)))
      else mret (inl (u32 (off + DIRENT_SIZE)))
    else mret (inr None)) 0.

Definition dirlink (dp : nat) (name : list Z) (inum : Z) : K Z :=
  o ← dirlookup dp name;
  match o with
  | Some (ip, _) => iput ip;; mret (-1)
  | None =>
      ip ← inode_at dp;
      '(off, de) ← iterM (S (S (Z.to_nat (i_size ip / DIRENT_SIZE)))) (λ '(off, de),
        ip ← inode_at dp;
        if off <? i_size ip then
          '(r, de) ← readi dp off DIRENT_SIZE;
          if negb (r =? DIRENT_SIZE) then panic "dirlink read" else
          if de_inum de =? 0 then mret (inr (off, de))
          else mret (inl (off + DIRENT_SIZE, de))
        else mret (inr (off, de))) (0, replicate (Z.to_nat DIRENT_SIZE) 0);
      let de_name := strncpy (de_name de) name (Z.of_nat DIRSIZ) in
      r ← writei dp (le16 inum ++ de_name) off DIRENT_SIZE;
      if negb (r =? DIRENT_SIZE) then panic "dirlink" else mret 0
  end.

(** * Paths *)

(** Characters of a C string; the end of the list is its terminating zero. *)
Fixpoint skip_slashes (path : list Z) : list Z :=
  match path with
  | c :: path' => if c =? 47 then skip_slashes path' else path
  | [] => []
  end.
(** The characters up to the next slash or the end, and the rest. *)
Fixpoint span_elem (path : list Z) : list Z * list Z :=
  match path with
  | c :: path' =>
      if negb (c =? 47) && negb (c =? 0)
      then let '(s, rest) := span_elem path' in (c :: s, rest)
      else ([], path)
  | [] => ([], [])
  end.

(** The rest of the path and the new contents of the array [name]. *)
Definition skipelem (path name : list Z) : option (list Z * list Z) :=
  let path := skip_slashes path in
  if deref path =? 0 then None else
  let '(s, path) := span_elem path in
  let name :=
    if (DIRSIZ <=? length s)%nat then splice name 0 (take DIRSIZ s)
    else splice name 0 (s ++ [0]) in
  Some (skip_slashes path, name).

Definition namex (path : list Z) (nameiparent : bool) (name : list Z) : K (option nat * list Z) :=
  ip ← (if deref path =? 47 then iget ROOTDEV ROOTINO
        else p ← cur; match p_cwd p with Some d => idup d | None => trap end);
  iterM (S (length path)) (λ '(ip, path, name),
    match skipelem path name with
    | Some (path, name) =>
        ilock (Some ip);;
        n ← inode_at ip;
        if negb (i_type n =? T_DIR) then iunlockput ip;; mret (inr (None, name)) else
        if nameiparent && (deref path =? 0) then iunlock (Some ip);; mret (inr (Some ip, name)) else
        next ← dirlookup ip name;
        match next with
        | None => iunlockput ip;; mret (inr (None, name))
        | Some (next, _) => iunlockput ip;; mret (inl (next, path, name))
        end
    | None =>
        if nameiparent then iput ip;; mret (inr (None, name)) else mret (inr (Some ip, name))
    end) (ip, path, name).

(** The arrays that the callers pass for [name] are not initialised; their contents are
    the argument [name]. *)
Definition namei (path name : list Z) : K (option nat) :=
  '(ip, _) ← namex path false name; mret ip.
Definition nameiparent (path name : list Z) : K (option nat * list Z) := namex path true name.

End content.
