(* ===== verification/Blk.v ===== *)
(** The block layer that the file system is written against: what [bio.c] and [log.c]
    together promise to the code of [fs.c] inside a transaction.

    [tx pid L H k s]: inside a transaction (or, with [k = 0], anywhere), the block contents in force are [L] (a write
    that is logged counts at once, whether it has reached the disk or not), the
    current process holds the buffers [H], and [k] more [log_write]s are paid for. *)
From S2P Require Export Txn.

Definition upd (L : Z → block) (b : Z) (d : block) : Z → block :=
  λ x, if decide (x = b) then d else L x.

Lemma upd_eq L b d : upd L b d b = d.
Proof. unfold upd. by rewrite decide_True. Qed.
Lemma upd_ne L b d x : x ≠ b → upd L b d x = L x.
Proof. intros. unfold upd. by rewrite decide_False. Qed.
Lemma upd_same L b x : upd L b (L b) x = L x.
Proof. unfold upd. case_decide; congruence. Qed.
Lemma upd_upd L b d d' x : upd (upd L b d) b d' x = upd L b d' x.
Proof. unfold upd. by case_decide. Qed.

(** The state that block operations do not touch. *)
Definition fs_rest (s : kstate) : kstate :=
  s <| bufs := [] |> <| ptable := [] |> <| hdisk := mk_disk [] [] |>
    <| lg := mk_log 0 0 0 0 0 (mk_logheader 0 []) |>.

(** Block [b] is in the log. *)
Definition logged (s : kstate) (b : Z) : Prop := b ∈ take (Z.to_nat (lh_n (l_lh (lg s)))) (lh_block (l_lh (lg s))).
Lemma logged_list bl s b : log_list bl s → logged s b ↔ b ∈ bl.
Proof. intros [En Eb _]. unfold logged. by rewrite En, Nat2Z.id, Eb. Qed.
Lemma logged_lg s s' : lg s' = lg s → ∀ b, logged s b → logged s' b.
Proof. unfold logged. by intros ->. Qed.

(** [s'] differs from [s] in those parts only; nothing leaves the log. *)
Definition same (s s' : kstate) : Prop :=
  fs_rest s' = fs_rest s ∧ disksize (hdisk s') = disksize (hdisk s) ∧ ∀ b, logged s b → logged s' b.
#[export] Instance same_preorder : PreOrder same.
Proof.
  split; [by intros s; split_and!|]. intros s1 s2 s3 (E1 & D1 & G1) (E2 & D2 & G2). split_and!; [congruence..|auto].
Qed.
Lemma same_disksize s s' : same s s' → disksize (hdisk s') = disksize (hdisk s).
Proof. by intros (_ & ? & _). Qed.
Lemma same_sb s s' : same s s' → sb s' = sb s.
Proof. intros [E _]. exact (f_equal sb E). Qed.
Lemma same_icache s s' : same s s' → icache s' = icache s.
Proof. intros [E _]. exact (f_equal icache E). Qed.

(** How many buffers a file-system call holds at a time. *)
Definition MAXHELD : nat := 3.

Record tx (pid : Z) (L : Z → block) (H : gmap nat (Z * block)) (k : nat) (s : kstate) : Prop := {
  tx_in : ∃ P bl, cache_rep pid P H s ∧ log_list bl s
    ∧ (∀ b, 0 ≤ b < disksize (hdisk s) → content P (hdisk s) b = L b)
    ∧ (∀ b, is_Some (P !! b) ↔ b ∈ bl) ∧ NoDup bl
    ∧ Z.of_nat (length bl + k) < l_size (lg s) ∧ (length bl + k + MAXHELD ≤ NBUF)%nat;
  tx_open : k ≠ 0%nat → 1 ≤ l_outstanding (lg s);
  tx_held : (size H ≤ MAXHELD)%nat }.

#[export] Instance tx_proper pid : Proper (pointwise_relation Z eq ==> eq ==> eq ==> eq ==> iff) (tx pid).
Proof.
  assert (∀ L L' H k s, pointwise_relation Z eq L L' → tx pid L H k s → tx pid L' H k s) as Hone.
  { intros L L' H k s E [(P & bl & Hc & Hl & HL & Hrest) Ho Hh]. split; [|done|done].
    exists P, bl. split_and!; try done; [|apply Hrest..]. intros b Hb. by rewrite <- E, HL. }
  intros L L' E ? H -> ? k -> ? s ->. split; apply Hone; [done|by symmetry].
Qed.

Section tx.
Context (pid : Z).
Implicit Types (L : Z → block) (H : gmap nat (Z * block)).

Lemma size_dom_le (P : gmap Z block) bl :
  NoDup bl → (∀ b, is_Some (P !! b) ↔ b ∈ bl) → (size P ≤ length bl)%nat.
Proof.
  intros Hnd Hdom. rewrite <- size_dom. change (length (elements (dom P)) ≤ length bl)%nat.
  apply submseteq_length, NoDup_submseteq; [apply NoDup_elements|].
  intros b Hb%elem_of_elements%elem_of_dom. by apply Hdom.
Qed.

Lemma fs_rest_rest s s' : rest s' = rest s → fs_rest s' = fs_rest s.
Proof. intros E. change (fs_rest s') with (fs_rest (rest s')). by rewrite E. Qed.

Lemma wp_bread L H k s b (Q : nat → kstate → Prop) :
  tx pid L H k s → 0 ≤ b < disksize (hdisk s) → (∀ i d, H !! i ≠ Some (b, d)) → (size H < MAXHELD)%nat →
  (∀ i s', H !! i = None → tx pid L (<[i := (b, L b)]> H) k s' → same s s' → Q i s') →
  wp (bread 1 b) s Q.
Proof.
  intros [(P & bl & Hc & Hl & HL & Hdom & Hnd & Hsz & Hrm) Ho Hh] Hb Hn Hroom HQ.
  pose proof (size_dom_le _ _ Hnd Hdom).
  destruct (bread_run pid P H s b Hc Hb Hn) as (i & s' & E & Hi & Ed & Er & Hc').
  { right. lia. }
  eapply wp_intro; [exact E|]. rewrite HL in Hc' by done. pose proof (lg_rest _ _ Er) as Elg.
  apply HQ; [done| |split_and!; [by apply fs_rest_rest|by rewrite Ed|by apply logged_lg]]. split.
  - exists P, bl. rewrite Elg, Ed. split_and!; try done. destruct Hl. by split; rewrite Elg.
  - by rewrite Elg.
  - rewrite map_size_insert_None by done. lia.
Qed.

Lemma wp_bdata L H k s i b d (Q : block → kstate → Prop) :
  tx pid L H k s → H !! i = Some (b, d) → Q d s → wp (bdata i) s Q.
Proof.
  intros [(P & bl & Hc & _) _ _] Hi HQ. eapply wp_intro; [by eapply bdata_run|done].
Qed.

Lemma wp_set_bdata L H k s i b d d' (Q : unit → kstate → Prop) :
  tx pid L H k s → H !! i = Some (b, d) →
  (∀ s', tx pid L (<[i := (b, d')]> H) k s' → same s s' → Q tt s') →
  wp (set_bdata i d') s Q.
Proof.
  intros [(P & bl & Hc & Hl & HL & Hrest) Ho Hh] Hi HQ.
  destruct (set_bdata_run pid P H s i b d d' Hc Hi) as (s' & E & Ed & Er & Hc').
  pose proof (lg_rest _ _ Er) as Elg. eapply wp_intro; [exact E|].
  apply HQ; [|split_and!; [by apply fs_rest_rest|by rewrite Ed|by apply logged_lg]]. split.
  - exists P, bl. rewrite Elg, Ed. split_and!; try done; [|apply Hrest..]. destruct Hl. by split; rewrite Elg.
  - by rewrite Elg.
  - by rewrite map_size_insert_Some by eauto.
Qed.

Lemma content_insert (P : gmap Z block) D b d x : content (<[b := d]> P) D x = if decide (x = b) then d else content P D x.
Proof.
  unfold content. rewrite lookup_insert. destruct (decide (b = x)) as [->|Hne]; [by rewrite decide_True|]. by rewrite (decide_False (P := x = b)).
Qed.

Lemma wp_log_write L H k s i b d (Q : unit → kstate → Prop) :
  tx pid L H (S k) s → H !! i = Some (b, d) →
  (∀ s', tx pid (upd L b d) H k s' → same s s' → logged s' b → Q tt s') →
  wp (log_write i) s Q.
Proof.
  intros [(P & bl & Hc & Hl & HL & Hdom & Hnd & Hsz & Hrm) Ho Hh] Hi HQ.
  destruct (log_write_run pid P H s i b d bl Hc Hi Hl (Ho ltac:(done))) as (s' & E & Hc' & Hl' & Ed & Elg & Er);
    [unfold MAXHELD, NBUF, LOGSIZE, MAXOPBLOCKS in *; lia|lia|].
  pose proof (length_log_add b bl). eapply wp_intro; [exact E|].
  assert (Hin : ∀ x, x ∈ log_add b bl ↔ x = b ∨ x ∈ bl).
  { intros x. unfold log_add. case_decide; [naive_solver|]. rewrite elem_of_app, list_elem_of_singleton. tauto. }
  apply HQ; [|split_and!; [rewrite <- Er; by destruct s'|by rewrite Ed|]|by rewrite (logged_list _ _ _ Hl'), Hin; left].
  2:{ intros x. rewrite (logged_list _ _ _ Hl), (logged_list _ _ _ Hl'), Hin. by right. }
  assert (l_outstanding (lg s') = l_outstanding (lg s) ∧ l_size (lg s') = l_size (lg s)) as [Eo Es] by (by rewrite <- Elg).
  split; [|intros _; rewrite Eo; by apply Ho|done].
  exists (<[b := d]> P), (log_add b bl). rewrite Ed, Es. split_and!; try done; [| | |lia|unfold MAXHELD, NBUF in *; lia].
  - intros x Hx. rewrite content_insert. unfold upd. case_decide; [done|]. by apply HL.
  - intros x. rewrite lookup_insert_is_Some', Hin, Hdom. naive_solver.
  - unfold log_add. case_decide; [done|]. apply NoDup_app. split_and!; [done| |apply NoDup_singleton].
    intros x Hx ->%list_elem_of_singleton. done.
Qed.

(** A block that is in the log already takes no more of it. *)
Lemma wp_log_absorb L H k s i b d (Q : unit → kstate → Prop) :
  tx pid L H (S k) s → H !! i = Some (b, d) → logged s b →
  (∀ s', tx pid (upd L b d) H (S k) s' → same s s' → Q tt s') →
  wp (log_write i) s Q.
Proof.
  intros [(P & bl & Hc & Hl & HL & Hdom & Hnd & Hsz & Hrm) Ho Hh] Hi Hlg HQ. apply (logged_list bl) in Hlg; [|done].
  destruct (log_write_run pid P H s i b d bl Hc Hi Hl (Ho ltac:(done))) as (s' & E & Hc' & Hl' & Ed & Elg & Er);
    [unfold MAXHELD, NBUF, LOGSIZE, MAXOPBLOCKS in *; lia|lia|].
  assert (Ebl : log_add b bl = bl) by (unfold log_add; by rewrite decide_True). rewrite Ebl in Hl'. eapply wp_intro; [exact E|].
  apply HQ; [|split_and!; [rewrite <- Er; by destruct s'|by rewrite Ed|intros x; by rewrite (logged_list _ _ _ Hl), (logged_list _ _ _ Hl')]].
  assert (l_outstanding (lg s') = l_outstanding (lg s) ∧ l_size (lg s') = l_size (lg s)) as [Eo Es] by (by rewrite <- Elg).
  split; [|intros _; rewrite Eo; by apply Ho|done].
  exists (<[b := d]> P), bl. rewrite Ed, Es. split_and!; try done.
  - intros x Hx. rewrite content_insert. unfold upd. case_decide; [done|]. by apply HL.
  - intros x. rewrite lookup_insert_is_Some', Hdom. naive_solver.
Qed.

Lemma wp_brelse L H k s i b (Q : unit → kstate → Prop) :
  tx pid L H k s → H !! i = Some (b, L b) →
  (∀ s', tx pid L (delete i H) k s' → same s s' → Q tt s') →
  wp (brelse i) s Q.
Proof.
  intros [(P & bl & Hc & Hl & HL & Hrest) Ho Hh] Hi HQ.
  destruct (cr_handles _ _ _ _ Hc _ _ _ Hi) as [_ Hb].
  destruct (brelse_run pid P H s i b (L b) Hc Hi) as (s' & E & Ed & Er & Hc'); [by rewrite HL|].
  pose proof (lg_rest _ _ Er) as Elg. eapply wp_intro; [exact E|].
  apply HQ; [|split_and!; [by apply fs_rest_rest|by rewrite Ed|by apply logged_lg]]. split.
  - exists P, bl. rewrite Elg, Ed. split_and!; try done; [|apply Hrest..]. destruct Hl. by split; rewrite Elg.
  - by rewrite Elg.
  - rewrite (map_size_delete_Some i H) by eauto. lia.
Qed.
End tx.

(** * The interface *)
Class BlockLayer (T : Z → (Z → block) → gmap nat (Z * block) → nat → kstate → Prop) : Prop := {
  bl_proper pid L L' H k s : (∀ b, L b = L' b) → T pid L H k s → T pid L' H k s;
  bl_bread pid L H k s b (Q : nat → kstate → Prop) :
    T pid L H k s → 0 ≤ b < disksize (hdisk s) → (∀ i d, H !! i ≠ Some (b, d)) → (size H < MAXHELD)%nat →
    (∀ i s', H !! i = None → T pid L (<[i := (b, L b)]> H) k s' → same s s' → Q i s') →
    wp (bread 1 b) s Q;
  bl_bdata pid L H k s i b d (Q : block → kstate → Prop) :
    T pid L H k s → H !! i = Some (b, d) → Q d s → wp (bdata i) s Q;
  bl_set_bdata pid L H k s i b d d' (Q : unit → kstate → Prop) :
    T pid L H k s → H !! i = Some (b, d) →
    (∀ s', T pid L (<[i := (b, d')]> H) k s' → same s s' → Q tt s') → wp (set_bdata i d') s Q;
  bl_log_write pid L H k s i b d (Q : unit → kstate → Prop) :
    T pid L H (S k) s → H !! i = Some (b, d) →
    (∀ s', T pid (upd L b d) H k s' → same s s' → logged s' b → Q tt s') → wp (log_write i) s Q;
  bl_log_absorb pid L H k s i b d (Q : unit → kstate → Prop) :
    T pid L H (S k) s → H !! i = Some (b, d) → logged s b →
    (∀ s', T pid (upd L b d) H (S k) s' → same s s' → Q tt s') → wp (log_write i) s Q;
  bl_brelse pid L H k s i b (Q : unit → kstate → Prop) :
    T pid L H k s → H !! i = Some (b, L b) →
    (∀ s', T pid L (delete i H) k s' → same s s' → Q tt s') → wp (brelse i) s Q;
  bl_state pid L H k s s' :
    T pid L H k s → held s' = held s → curproc s' = curproc s → ptable s' = ptable s →
    bufs s' = bufs s → hdisk s' = hdisk s → lg s' = lg s → T pid L H k s';
  bl_wakes pid L H k s ch : T pid L H k s → T pid L H k (wakes ch s);
  bl_running pid L H k s : T pid L H k s → held s = [] ∧ running s pid;
  bl_le pid L H j k s : T pid L H k s → (j ≤ k)%nat → T pid L H j s }.

#[export] Instance tx_block_layer : BlockLayer tx.
Proof.
  split; eauto using wp_bread, wp_bdata, wp_set_bdata, wp_log_write, wp_log_absorb, wp_brelse.
  - intros pid L L' H k s E Ht. by rewrite (tx_proper pid L L' E H H eq_refl k k eq_refl s s eq_refl) in Ht.
  - intros pid L H k s s' [(P & bl & Hc & Hl & Hrest) Ho Hh] E1 E2 E3 E4 E5 E6. split; [|by rewrite E6|done].
    exists P, bl. rewrite E5, E6. split_and!; try apply Hrest; [by apply (cache_rep_ext pid P H s)|].
    destruct Hl. by split; rewrite E6.
  - intros pid L H k s ch [(P & bl & Hc & Hl & Hrest) Ho Hh]. split; [|done|done]. exists P, bl. split_and!; try apply Hrest; [|by destruct Hl].
    apply cache_rep_ptable; [done|]. exact (running_wakes _ ch _ (cr_running _ _ _ _ Hc)).
  - intros pid L H k s [(P & bl & Hc & _) _ _]. split; apply Hc.
  - intros pid L H j k s [(P & bl & Hc & Hl & HL & Hdom & Hnd & Hsz & Hrm) Ho Hh] Hj. split; [|intros ?; apply Ho; lia|done].
    exists P, bl. split_and!; try done; lia.
Qed.

(** From here on the operations are used through these rules only. *)
#[global] Opaque bread bwrite brelse log_write bdata set_bdata.

(** A machine inside a transaction of its first process, nothing logged yet. *)
Definition in_call (D : disk) (S : superblock) (ips : list inode) : kstate :=
  (booted D) <| lg := demo_log |> <| sb := S |> <| icache := ips |>.

Lemma in_call_tx D S ips : tx 1 (disk_read D) ∅ 20 (in_call D S ips).
Proof.
  split; [|done|by rewrite map_size_empty; unfold MAXHELD; lia].
  exists ∅, []. split_and!.
  - apply (cache_rep_ext 1 _ _ (booted D)); [done..|]. apply cache_rep_booted.
  - by split.
  - done.
  - intros b. rewrite lookup_empty. split; [by intros [? ?]|by intros ?%not_elem_of_nil].
  - apply NoDup_nil_2.
  - done.
  - unfold MAXHELD, NBUF. simpl. lia.
Qed.
