(* ===== verification/Balloc.v ===== *)
(** The free-block bitmap: [bzero], [balloc] and [bfree] of [fs.c] against the block
    layer. *)
From S2P Require Export Blk Fs.

(** Is block [b] marked in use in the bitmap? *)
Definition bit_mask (b : Z) : Z := Z.shiftl 1 (b mod BPB mod 8).
Definition bit_byte (b : Z) : Z := b mod BPB / 8.
Definition marked (d : block) (b : Z) : bool := negb (Z.land (byte_at d (bit_byte b)) (bit_mask b) =? 0).
Definition used (sb : superblock) (L : Z → block) (b : Z) : bool := marked (L (BBLOCK b sb)) b.
Definition mark (d : block) (b : Z) : block :=
  set_byte d (bit_byte b) (u8 (Z.lor (byte_at d (bit_byte b)) (bit_mask b))).
Definition unmark (d : block) (b : Z) : block :=
  set_byte d (bit_byte b) (u8 (Z.land (byte_at d (bit_byte b)) (Z.lnot (bit_mask b)))).

(** ** Bits *)
Lemma mod_BPB_8 b : b mod BPB mod 8 = b mod 8.
Proof. unfold BPB, BSIZE. zlia. Qed.

Lemma bit_mask_testbit b k : 0 ≤ k → Z.testbit (bit_mask b) k = bool_decide (k = b mod 8).
Proof.
  intros Hk. unfold bit_mask. rewrite mod_BPB_8, Z.shiftl_1_l.
  assert (0 ≤ b mod 8) by zlia.
  case_bool_decide as E; [subst; by rewrite Z.pow2_bits_true|by rewrite Z.pow2_bits_false by lia].
Qed.

Lemma marked_testbit d b : marked d b = Z.testbit (byte_at d (bit_byte b)) (b mod 8).
Proof.
  unfold marked. assert (0 ≤ b mod 8) as Hb by zlia. set (x := byte_at d (bit_byte b)).
  destruct (Z.eqb_spec (Z.land x (bit_mask b)) 0) as [E|E]; simpl; symmetry.
  - assert (Z.testbit (Z.land x (bit_mask b)) (b mod 8) = false) as Hf by (rewrite E; apply Z.bits_0).
    rewrite Z.land_spec, bit_mask_testbit, bool_decide_true, andb_true_r in Hf by done. done.
  - apply not_false_iff_true. intros Hf. apply E. apply Z.bits_inj'. intros k Hk.
    rewrite Z.land_spec, Z.bits_0, bit_mask_testbit by done.
    case_bool_decide; subst; [by rewrite Hf|apply andb_false_r].
Qed.

Lemma u8_testbit x k : 0 ≤ k < 8 → Z.testbit (u8 x) k = Z.testbit x k.
Proof. intros. unfold u8. change 256 with (2 ^ 8). apply Z.mod_pow2_bits_low. lia. Qed.

Lemma byte_at_set_byte d i j v :
  0 ≤ i → 0 ≤ j → i < Z.of_nat (length d) → byte_at (set_byte d i v) j = if decide (i = j) then v else byte_at d j.
Proof.
  intros Hi Hj Hl. unfold byte_at, set_byte. rewrite !list_lookup_total_alt.
  case_decide as E; [subst; by rewrite list_lookup_insert_eq by lia|].
  rewrite list_lookup_insert_ne by lia. done.
Qed.

Lemma bit_byte_bound b : 0 ≤ bit_byte b < BSIZE.
Proof. unfold bit_byte, BPB, BSIZE. zlia. Qed.

(** The same bit of the same bitmap block. *)
Lemma same_bit b x : b / BPB = x / BPB → bit_byte b = bit_byte x → b mod 8 = x mod 8 → b = x.
Proof. unfold bit_byte, BPB, BSIZE. intros. zlia. Qed.

Section bits.
Context (d : block) (Hd : length d = Z.to_nat BSIZE).

Lemma marked_mark b x :
  b / BPB = x / BPB → marked (mark d b) x = bool_decide (x = b) || marked d x.
Proof.
  intros E. rewrite !marked_testbit. unfold mark. pose proof (bit_byte_bound b). pose proof (bit_byte_bound x).
  rewrite byte_at_set_byte by (unfold BSIZE in *; lia). case_decide as Eb.
  - rewrite u8_testbit by zlia. rewrite Z.lor_spec, bit_mask_testbit, <- Eb by zlia.
    rewrite orb_comm. f_equal. apply bool_decide_ext.
    split; [intros ?; symmetry; by apply same_bit|by intros ->].
  - rewrite (bool_decide_false (x = b)) by (by intros ->). done.
Qed.

Lemma marked_unmark b x :
  b / BPB = x / BPB → marked (unmark d b) x = negb (bool_decide (x = b)) && marked d x.
Proof.
  intros E. rewrite !marked_testbit. unfold unmark. pose proof (bit_byte_bound b). pose proof (bit_byte_bound x).
  rewrite byte_at_set_byte by (unfold BSIZE in *; lia). case_decide as Eb.
  - rewrite u8_testbit by zlia. rewrite Z.land_spec, Z.lnot_spec, bit_mask_testbit, <- Eb by zlia.
    rewrite andb_comm. do 2 f_equal. apply bool_decide_ext.
    split; [intros ?; symmetry; by apply same_bit|by intros ->].
  - rewrite (bool_decide_false (x = b)) by (by intros ->). done.
Qed.
End bits.

Lemma length_mark d b : length (mark d b) = length d.
Proof. apply length_insert. Qed.
Lemma length_unmark d b : length (unmark d b) = length d.
Proof. apply length_insert. Qed.

(** ** The operations *)
Section ops.
Context {T : Z → (Z → block) → gmap nat (Z * block) → nat → kstate → Prop} `{!BlockLayer T} (pid : Z).
Implicit Types (L : Z → block) (H : gmap nat (Z * block)).

Definition not_held H (b : Z) : Prop := ∀ i d, H !! i ≠ Some (b, d).
Lemma not_held_insert H i b x d : not_held H b → b ≠ x → not_held (<[i := (x, d)]> H) b.
Proof. intros Hn Hne j d' [[_ [= ? _]]|[_ ?]]%lookup_insert_Some; [done|by eapply Hn]. Qed.

(** A buffer that has just been changed is logged and released. *)
Lemma wp_log_release L H k s i b d (Q : unit → kstate → Prop) :
  T pid L (<[i := (b, d)]> H) (S k) s → H !! i = None →
  (∀ s', T pid (upd L b d) H k s' → same s s' → logged s' b → Q tt s') →
  wp (log_write i) s (λ _ s', wp (brelse i) s' Q).
Proof.
  intros Ht Hi HQ. eapply bl_log_write; [exact Ht|apply lookup_insert_eq|]. intros s1 Ht1 E1 Hlg.
  eapply (bl_brelse pid _ _ _ _ i b); [exact Ht1|by rewrite lookup_insert_eq, upd_eq|]. intros s2 Ht2 E2.
  rewrite delete_insert_eq, delete_id in Ht2 by done. apply HQ; [done|by transitivity s1|by apply E2].
Qed.
Lemma wp_log_release_bind {A} L H k s i b d (f : unit → K A) (Q : A → kstate → Prop) :
  T pid L (<[i := (b, d)]> H) (S k) s → H !! i = None →
  (∀ s', T pid (upd L b d) H k s' → same s s' → wp (f tt) s' Q) →
  wp (log_write i) s (λ _ s', wp (brelse i ≫= f) s' Q).
Proof.
  intros Ht Hi HQ. eapply wp_mono.
  - apply (wp_log_release L H k s i b d (λ _ s', wp (f tt) s' Q) Ht Hi). intros s' Ht' Es _. by apply HQ.
  - intros [] s1 Hw. apply wp_bind. eapply wp_mono; [exact Hw|]. by intros [] s2.
Qed.
Lemma wp_log_release_again L H k s i b d (Q : unit → kstate → Prop) :
  T pid L (<[i := (b, d)]> H) (S k) s → H !! i = None → logged s b →
  (∀ s', T pid (upd L b d) H (S k) s' → same s s' → Q tt s') →
  wp (log_write i) s (λ _ s', wp (brelse i) s' Q).
Proof.
  intros Ht Hi Hlg HQ. eapply bl_log_absorb; [exact Ht|apply lookup_insert_eq|exact Hlg|]. intros s1 Ht1 E1.
  eapply (bl_brelse pid _ _ _ _ i b); [exact Ht1|by rewrite lookup_insert_eq, upd_eq|]. intros s2 Ht2 E2.
  rewrite delete_insert_eq, delete_id in Ht2 by done. apply HQ; [done|by transitivity s1].
Qed.

Lemma wp_bzero L H k s b (Q : unit → kstate → Prop) :
  T pid L H (S k) s → 0 ≤ b < disksize (hdisk s) → not_held H b → (size H < MAXHELD)%nat →
  (∀ s', T pid (upd L b zero_block) H k s' → same s s' → Q tt s') →
  wp (bzero 1 b) s Q.
Proof.
  intros Ht Hb Hn Hsz HQ. unfold bzero. wps.
  eapply bl_bread; [exact Ht|done|done|done|]. intros i s1 Hi Ht1 E1. wps.
  eapply bl_set_bdata; [exact Ht1|apply lookup_insert_eq|]. intros s2 Ht2 E2. rewrite insert_insert_eq in Ht2.
  wps. eapply wp_log_release; [exact Ht2|done|]. intros s3 Ht3 E3 _.
  apply HQ; [done|]. transitivity s1; [done|]. by transitivity s2.
Qed.

(** [a] is the first block that the bitmap has free. *)
Definition first_free (S : superblock) L (a : Z) : Prop :=
  0 ≤ a < sb_size S ∧ used S L a = false ∧ ∀ x, 0 ≤ x < a → used S L x = true.

Lemma BBLOCK_same S b x : b / BPB = x / BPB → BBLOCK b S = BBLOCK x S.
Proof. intros E. unfold BBLOCK. by rewrite E. Qed.

Lemma used_at S L b bi :
  b mod BPB = 0 → 0 ≤ bi < BPB →
  used S L (b + bi) = negb (Z.land (byte_at (L (BBLOCK b S)) (bi / 8)) (Z.shiftl 1 (bi mod 8)) =? 0).
Proof.
  intros Hb Hbi. unfold used, marked, bit_byte, bit_mask.
  assert ((b + bi) mod BPB = bi ∧ (b + bi) / BPB = b / BPB) as [-> E] by (unfold BPB, BSIZE in *; zlia).
  by rewrite (BBLOCK_same S b (b + bi)).
Qed.

Lemma wp_balloc_scan L H k s bp b a (Q : option Z → kstate → Prop) :
  let S := sb s in
  T pid L (<[bp := (BBLOCK b S, L (BBLOCK b S))]> H) (2 + k) s → H !! bp = None →
  0 ≤ b → b mod BPB = 0 → b ≤ a → first_free S L a →
  sb_size S ≤ disksize (hdisk s) → not_held H a → (size H < MAXHELD)%nat →
  (a / BPB = b / BPB → ∀ s', T pid (upd (upd L (BBLOCK a S) (mark (L (BBLOCK a S)) a)) a zero_block) H k s' →
     same s s' → Q (Some a) s') →
  (a / BPB ≠ b / BPB → ∀ s', T pid L (<[bp := (BBLOCK b S, L (BBLOCK b S))]> H) (2 + k) s' →
     same s s' → Q None s') →
  wp (balloc_scan 1 bp b) s Q.
Proof.
  intros SB Ht Hbp Hb0 Hb Hab (Ha & Hfree & Hused) Hsz Hn Hroom HQ1 HQ2. unfold balloc_scan.
  apply (wp_iterM (λ fuel bi s', T pid L (<[bp := (BBLOCK b SB, L (BBLOCK b SB))]> H) (2 + k) s' ∧ same s s'
    ∧ 0 ≤ bi ≤ BPB ∧ b + bi ≤ a ∧ Z.of_nat fuel = BPB - bi + 1)).
  - assert (0 ≤ BPB) by done. rewrite Nat2Z.inj_succ, Z2Nat.id by done. split_and!; [done|done|lia..].
  - unfold BPB, BSIZE. intros bi s' (_ & _ & ? & _ & ?). lia.
  - intros n bi s' (Ht' & Es & Hbi & Hle & Hf). wps. rewrite (same_sb _ _ Es). fold SB.
    destruct (Z.ltb_spec bi BPB).
    2:{ simpl. wps. apply HQ2; [|done|done]. unfold BPB, BSIZE in *. zlia. }
    destruct (Z.ltb_spec (b + bi) (sb_size SB)); [|lia]. cbn [andb]. cbv zeta.
    wps. eapply bl_bdata; [exact Ht'|apply lookup_insert_eq|].
    pose proof (used_at SB L b bi Hb ltac:(lia)) as Eu.
    destruct (Z.eqb_spec (Z.land (byte_at (L (BBLOCK b SB)) (bi / 8)) (Z.shiftl 1 (bi mod 8))) 0) as [Ez|Ez].
    + assert (b + bi = a) as E.
      { destruct (decide (b + bi = a)); [done|]. rewrite Hused in Eu by lia. done. }
      assert (a / BPB = b / BPB ∧ a mod BPB = bi) as [Eq Em] by (subst a; unfold BPB, BSIZE in *; zlia).
      wps. eapply bl_set_bdata; [exact Ht'|apply lookup_insert_eq|]. intros s1 Ht1 E1. rewrite insert_insert_eq in Ht1.
      wps. eapply wp_log_release_bind; [exact Ht1|done|]. intros s2 Ht2 E2. cbv beta. wps.
      eapply wp_bzero; [exact Ht2| |by rewrite E|done|].
      { rewrite E, (same_disksize _ _ E2), (same_disksize _ _ E1), (same_disksize _ _ Es). lia. }
      intros s3 Ht3 E3. rewrite E in *. apply HQ1; [done| |].
      * unfold mark, bit_byte, bit_mask. by rewrite Em, (BBLOCK_same SB a b Eq).
      * transitivity s'; [done|]. transitivity s1; [done|]. by transitivity s2.
    + assert (b + bi ≠ a) by (intros E; rewrite E, Hfree in Eu; done).
      wps. split_and!; [done|done|lia..].
Qed.

(** The bitmap blocks are on the disk and the caller holds none of them. *)
Record bitmap_ok (S : superblock) H (n : Z) : Prop := {
  bm_size : sb_size S ≤ n;
  bm_block b : 0 ≤ b < sb_size S → 0 ≤ BBLOCK b S < n;
  bm_free b : 0 ≤ b < sb_size S → not_held H (BBLOCK b S) }.

Lemma wp_balloc L H k s a (Q : Z → kstate → Prop) :
  let S := sb s in
  T pid L H (2 + k) s → bitmap_ok S H (disksize (hdisk s)) → first_free S L a →
  not_held H a → (size H < MAXHELD)%nat →
  (∀ s', T pid (upd (upd L (BBLOCK a S) (mark (L (BBLOCK a S)) a)) a zero_block) H k s' →
     same s s' → Q a s') →
  wp (balloc 1) s Q.
Proof.
  intros SB Ht [Hsz Hblk Hfr] Ha Hn Hroom HQ. unfold balloc. wps. fold SB.
  pose proof Ha as ([Ha0 Ha1] & _).
  apply (wp_iterM (λ fuel b s', T pid L H (2 + k) s' ∧ same s s' ∧ b mod BPB = 0 ∧ 0 ≤ b ≤ a
    ∧ Z.of_nat fuel = sb_size SB / BPB - b / BPB + 2)).
  - split_and!; [done|done|done|lia..|]. rewrite !Nat2Z.inj_succ, Z2Nat.id, Zdiv_0_l; [lia|].
    apply Z_div_pos; [done|lia].
  - unfold BPB, BSIZE. intros b s' (_ & _ & ? & ? & ?). zlia.
  - intros n b s' (Ht' & Es & Hmod & Hle & Hf). wps. rewrite (same_sb _ _ Es). fold SB.
    destruct (Z.ltb_spec b (sb_size SB)); [|lia]. wps.
    eapply bl_bread; [exact Ht'|rewrite (same_disksize _ _ Es); by apply Hblk; lia|apply Hfr; lia|done|].
    intros i s1 Hi Ht1 E1. assert (same s s1) as Es1 by (by transitivity s'). wps.
    assert (sb s1 = SB) as Esb by (by rewrite (same_sb _ _ Es1)).
    apply (wp_balloc_scan L H k s1 i b a); rewrite ?Esb, ?(same_disksize _ _ Es1); try done; [lia..| |].
    + intros _ s2 Ht2 E2. wps. apply HQ; [done|by transitivity s1].
    + intros Hne s2 Ht2 E2. wps. eapply (bl_brelse pid _ _ _ _ i); [exact Ht2|apply lookup_insert_eq|].
      intros s3 Ht3 E3. rewrite delete_insert_eq, delete_id in Ht3 by done. wps.
      split_and!; [done|transitivity s1; [done|by transitivity s2]|unfold BPB, BSIZE in *; zlia..].
Qed.

(** No free block: [balloc] panics. *)
(** The bitmap block costs one log entry, and none when it is in the log already. *)
Lemma wp_bfree_cost L H k c s b (Q : unit → kstate → Prop) :
  let S := sb s in
  T pid L H (c + k) s → (c = 0%nat → logged s (BBLOCK b S) ∧ k ≠ 0%nat) → (c ≤ 1)%nat →
  bitmap_ok S H (disksize (hdisk s)) → 0 ≤ b < sb_size S → used S L b = true → (size H < MAXHELD)%nat →
  (∀ s', T pid (upd L (BBLOCK b S) (unmark (L (BBLOCK b S)) b)) H k s' → same s s' → logged s' (BBLOCK b S) → Q tt s') →
  wp (bfree 1 b) s Q.
Proof.
  intros SB Ht Hlg Hc1 [Hsz Hblk Hfr] Hb Hu Hroom HQ. unfold bfree. wps. fold SB.
  eapply bl_bread; [exact Ht|by apply Hblk|by apply Hfr|done|]. intros i s1 Hi Ht1 E1. cbv zeta. wps.
  eapply bl_bdata; [exact Ht1|apply lookup_insert_eq|].
  unfold used, marked, bit_byte, bit_mask in Hu. apply negb_true_iff in Hu. rewrite Hu.
  wps. eapply bl_set_bdata; [exact Ht1|apply lookup_insert_eq|]. intros s2 Ht2 E2. rewrite insert_insert_eq in Ht2.
  assert (E02 : same s s2) by (by transitivity s1). wps. destruct c as [|[|c]]; [| |lia].
  - destruct (Hlg eq_refl) as [Hl0 Hk]. apply E02 in Hl0. destruct k as [|k]; [done|]. eapply wp_log_release_again; [exact Ht2|done|exact Hl0|]. intros s3 Ht3 E3.
    apply HQ; [exact Ht3|by transitivity s2|by apply E3].
  - eapply wp_log_release; [exact Ht2|done|]. intros s3 Ht3 E3 Hl3. apply HQ; [exact Ht3|by transitivity s2|done].
Qed.

(** Freeing a free block panics. *)
Lemma bfree_free L H k s b :
  let S := sb s in
  T pid L H k s → bitmap_ok S H (disksize (hdisk s)) → 0 ≤ b < sb_size S → used S L b = false →
  (size H < MAXHELD)%nat → bfree 1 b s = Panic "freeing free block".
Proof.
  intros SB Ht [Hsz Hblk Hfr] Hb Hu Hroom. unfold bfree. mstep. fold SB.
  assert (wp (bread 1 (BBLOCK b SB)) s (λ i s', bdata i s' = Ok (L (BBLOCK b SB)) s')) as Hw.
  { eapply bl_bread; [exact Ht|by apply Hblk|by apply Hfr|done|]. intros i s1 Hi Ht1 _.
    assert (wp (bdata i) s1 (λ d s', d = L (BBLOCK b SB) ∧ s' = s1)) as (d & s' & E & -> & ->)%wp_elim; [|done].
    eapply bl_bdata; [exact Ht1|apply lookup_insert_eq|done]. }
  apply wp_elim in Hw as (i & s1 & E & Ed). mstep_with E. cbv zeta. mstep_with Ed.
  unfold used, marked, bit_byte, bit_mask in Hu. apply negb_false_iff in Hu. by rewrite Hu.
Qed.
End ops.

(** ** The bitmap afterwards *)
Section effect.
Context (S : superblock) (L : Z → block).
Context (Hlen : ∀ b, 0 ≤ b < sb_size S → length (L (BBLOCK b S)) = Z.to_nat BSIZE).
Context (Hwidth : sb_size S / BPB + sb_bmapstart S < 4294967296) (Hpos : 0 ≤ sb_bmapstart S).

Lemma BBLOCK_inj b x : 0 ≤ b < sb_size S → 0 ≤ x < sb_size S → BBLOCK b S = BBLOCK x S → b / BPB = x / BPB.
Proof.
  intros Hb Hx. unfold BBLOCK.
  assert (∀ y, 0 ≤ y < sb_size S → 0 ≤ y / BPB ≤ sb_size S / BPB) as Hd by (unfold BPB, BSIZE; intros; zlia).
  pose proof (Hd b Hb). pose proof (Hd x Hx). rewrite !u32_small by lia. lia.
Qed.

Lemma used_mark b x :
  0 ≤ b < sb_size S → 0 ≤ x < sb_size S →
  used S (upd L (BBLOCK b S) (mark (L (BBLOCK b S)) b)) x = bool_decide (x = b) || used S L x.
Proof.
  intros Hb Hx. unfold used. destruct (decide (BBLOCK x S = BBLOCK b S)) as [E|E].
  - rewrite E, upd_eq. rewrite marked_mark; [done|by apply Hlen|]. symmetry. by apply BBLOCK_inj.
  - rewrite upd_ne by done. rewrite bool_decide_false; [done|]. by intros ->.
Qed.

Lemma used_unmark b x :
  0 ≤ b < sb_size S → 0 ≤ x < sb_size S →
  used S (upd L (BBLOCK b S) (unmark (L (BBLOCK b S)) b)) x = negb (bool_decide (x = b)) && used S L x.
Proof.
  intros Hb Hx. unfold used. destruct (decide (BBLOCK x S = BBLOCK b S)) as [E|E].
  - rewrite E, upd_eq. rewrite marked_unmark; [done|by apply Hlen|]. symmetry. by apply BBLOCK_inj.
  - rewrite upd_ne by done. rewrite bool_decide_false; [done|]. by intros ->.
Qed.

(** A write to a block that is no bitmap block. *)
Lemma used_upd_other c d x :
  (∀ y, 0 ≤ y < sb_size S → BBLOCK y S ≠ c) → 0 ≤ x < sb_size S → used S (upd L c d) x = used S L x.
Proof. intros Hc Hx. unfold used. by rewrite upd_ne by (by apply Hc). Qed.
End effect.

(** * Properties *)

Definition no_bitmap (S : superblock) (c : Z) : Prop := ∀ y, 0 ≤ y < sb_size S → BBLOCK y S ≠ c.
Definition bitmap_blocks_full (S : superblock) (L : Z → block) : Prop :=
  ∀ b, 0 ≤ b < sb_size S → length (L (BBLOCK b S)) = Z.to_nat BSIZE.
Definition bitmap_width (S : superblock) : Prop :=
  sb_size S / BPB + sb_bmapstart S < 4294967296 ∧ 0 ≤ sb_bmapstart S.

(** C29: [balloc] returns the first block the bitmap has free, marks that block and no other
    as used, zeroes it, and leaves every block outside the bitmap as it was.  It never runs past the bitmap
    when there is a free block, and costs two log entries. *)
Theorem balloc_correct (pid : Z) (L : Z → block) (H : gmap nat (Z * block)) (k : nat) (s : kstate) (a : Z) :
  tx pid L H (2 + k) s → bitmap_ok (sb s) H (disksize (hdisk s)) →
  bitmap_blocks_full (sb s) L → bitmap_width (sb s) →
  first_free (sb s) L a → no_bitmap (sb s) a → not_held H a → (size H < MAXHELD)%nat →
  ∃ s' L', balloc 1 s = Ok a s' ∧ tx pid L' H k s' ∧ L' a = zero_block
    ∧ (∀ x, 0 ≤ x < sb_size (sb s) → used (sb s) L' x = bool_decide (x = a) || used (sb s) L x)
    ∧ (∀ b, b ≠ a → no_bitmap (sb s) b → L' b = L b).
Proof.
  intros Ht Hbm Hlen [Hw Hp] Ha Hnb Hn Hroom.
  assert (0 ≤ a < sb_size (sb s)) as Har by apply Ha.
  assert (wp (balloc 1) s (λ r s', r = a ∧
    tx pid (upd (upd L (BBLOCK a (sb s)) (mark (L (BBLOCK a (sb s))) a)) a zero_block) H k s')) as Hwp
    by (by eapply wp_balloc).
  apply wp_elim in Hwp as (r & s' & E & -> & Ht'). eexists s', _.
  split_and!; [exact E|exact Ht'|apply upd_eq| |].
  - intros x Hx. rewrite used_upd_other by done. by apply used_mark.
  - intros b Hb Hbb. rewrite !upd_ne; [done| |done]. intros ->. by apply (Hbb a).
Qed.

(** A disk whose bitmap is all zeros. *)
Definition demo_call : kstate := in_call (demo_disk 80 30) (decode_sb (demo_sb 80 30)) [].

Lemma demo_bitmap_ok : bitmap_ok (sb demo_call) ∅ 80.
Proof.
  split; [done|..].
  - intros b Hb. change (sb_size (sb demo_call)) with 80 in Hb. unfold BBLOCK, BPB, BSIZE.
    change (sb_bmapstart (sb demo_call)) with 58. rewrite u32_small by zlia. zlia.
  - by intros b _ i d ?%lookup_empty_Some.
Qed.
Lemma demo_BBLOCK b : 0 ≤ b < 80 → BBLOCK b (sb demo_call) = 58.
Proof.
  intros Hb. unfold BBLOCK, BPB, BSIZE. change (sb_bmapstart (sb demo_call)) with 58.
  rewrite u32_small by zlia. zlia.
Qed.

Lemma balloc_correct_witness :
  ∃ s' L', balloc 1 demo_call = Ok 0 s' ∧ tx 1 L' ∅ 18 s' ∧ L' 0 = zero_block
    ∧ (∀ x, 0 ≤ x < 80 → used (sb demo_call) L' x = bool_decide (x = 0) || used (sb demo_call) (disk_read (demo_disk 80 30)) x)
    ∧ (∀ b, b ≠ 0 → no_bitmap (sb demo_call) b → L' b = disk_read (demo_disk 80 30) b).
Proof.
  apply (balloc_correct 1 (disk_read (demo_disk 80 30)) ∅ 18 demo_call 0).
  - apply in_call_tx.
  - apply demo_bitmap_ok.
  - intros b Hb. rewrite demo_BBLOCK by exact Hb. vm_compute. reflexivity.
  - by vm_compute.
  - split; [by vm_compute|]. split; [by vm_compute|]. intros x Hx. lia.
  - intros y Hy. rewrite demo_BBLOCK by exact Hy. done.
  - by intros i d ?%lookup_empty_Some.
  - vm_compute. lia.
Defined.

(** [bfree] clears the block's bit and changes nothing else; freeing a block that the
    bitmap already has free panics instead. *)
Theorem bfree_correct (pid : Z) (L : Z → block) (H : gmap nat (Z * block)) (k : nat) (s : kstate) (b : Z) :
  tx pid L H (1 + k) s → bitmap_ok (sb s) H (disksize (hdisk s)) →
  bitmap_blocks_full (sb s) L → bitmap_width (sb s) → 0 ≤ b < sb_size (sb s) → (size H < MAXHELD)%nat →
  if used (sb s) L b
  then ∃ s' L', bfree 1 b s = Ok tt s' ∧ tx pid L' H k s'
    ∧ (∀ x, 0 ≤ x < sb_size (sb s) → used (sb s) L' x = negb (bool_decide (x = b)) && used (sb s) L x)
    ∧ (∀ c, c ≠ BBLOCK b (sb s) → L' c = L c)
  else bfree 1 b s = Panic "freeing free block".
Proof.
  intros Ht Hbm Hlen [Hw Hp] Hb Hroom. destruct (used (sb s) L b) eqn:Hu.
  - assert (wp (bfree 1 b) s (λ _ s', tx pid (upd L (BBLOCK b (sb s)) (unmark (L (BBLOCK b (sb s))) b)) H k s')) as Hwp
      by (by eapply (wp_bfree_cost pid L H k 1)).
    apply wp_elim in Hwp as ([] & s' & E & Ht'). eexists s', _. split_and!; [exact E|exact Ht'| |].
    + intros x Hx. by apply used_unmark.
    + intros c Hc. by apply upd_ne.
  - by eapply bfree_free.
Qed.

Lemma bfree_correct_witness : bfree 1 70 demo_call = Panic "freeing free block".
Proof.
  apply (bfree_correct 1 (disk_read (demo_disk 80 30)) ∅ 19 demo_call 70).
  - apply in_call_tx.
  - apply demo_bitmap_ok.
  - intros b Hb. rewrite demo_BBLOCK by exact Hb. vm_compute. reflexivity.
  - by vm_compute.
  - by vm_compute.
  - vm_compute. lia.
Defined.
