(* ===== verification/Inode.v ===== *)
(** Inodes: their on-disk format, the inode cache, [iget], [idup], [ilock], [iunlock],
    [iupdate] of [fs.c] against the block layer. *)
From S2P Require Export Balloc.

(** * The on-disk format *)

Lemma splice_app d off a b : splice d off (a ++ b) = splice (splice d off a) (off + length a) b.
Proof.
  revert d off. induction a as [|x a IH]; intros d off; simpl; [by rewrite Nat.add_0_r|].
  rewrite IH. f_equal. lia.
Qed.

Lemma get16_splice d off bs c :
  0 ≤ c → (off + length bs ≤ length d)%nat → c + 2 ≤ Z.of_nat (length bs) →
  get16 (splice d off bs) (Z.of_nat off + c) = get16 bs c.
Proof.
  intros. unfold get16. rewrite !byte_at_splice, !decide_True by lia.
  unfold byte_at. do 2 f_equal; [f_equal; lia|]. do 2 f_equal. lia.
Qed.
Lemma get32_splice d off bs c :
  0 ≤ c → (off + length bs ≤ length d)%nat → c + 4 ≤ Z.of_nat (length bs) →
  get32 (splice d off bs) (Z.of_nat off + c) = get32 bs c.
Proof.
  intros. unfold get32. rewrite !byte_at_splice, !decide_True by lia.
  unfold byte_at. repeat (f_equal; [|]); try (f_equal; lia); do 2 f_equal; lia.
Qed.

Definition enc_dinode (di : dinode) : list Z :=
  le16 (di_type di) ++ le16 (di_major di) ++ le16 (di_minor di) ++ le16 (di_nlink di)
  ++ le32 (di_size di) ++ le_words (di_addrs di).

Lemma put_dinode_enc d off di :
  0 ≤ off → put_dinode d off di = splice d (Z.to_nat off) (enc_dinode di).
Proof.
  intros Ho. unfold put_dinode, enc_dinode, put16, put32. rewrite !splice_app. simpl length.
  repeat first [lia | f_equal].
Qed.

Lemma length_le_words ws : length (le_words ws) = (4 * length ws)%nat.
Proof. induction ws as [|w ws IH]; [done|]. unfold le_words in *. rewrite bind_cons, length_app, IH. simpl. lia. Qed.

Lemma byte_at_app_r a b i : Z.of_nat (length a) ≤ i → byte_at (a ++ b) i = byte_at b (i - Z.of_nat (length a)).
Proof.
  intros. unfold byte_at. rewrite !list_lookup_total_alt, lookup_app_r by lia.
  do 2 f_equal. lia.
Qed.

Lemma get32_le_words ws k w :
  ws !! k = Some w → get32 (le_words ws) (4 * Z.of_nat k) = u32 w.
Proof.
  revert k. induction ws as [|x ws IH]; intros k Hk; [done|]. unfold le_words in *. rewrite bind_cons.
  destruct k as [|k].
  - injection Hk as ->. unfold get32, byte_at. simpl. unfold u8, u32. zlia.
  - rewrite <- (IH k Hk). unfold get32. rewrite !byte_at_app_r by (simpl; lia).
    simpl length. by repeat (f_equal; [|]); f_equal; lia || (f_equal; lia).
Qed.

(** Values that fit their fields. *)
Definition is_short (x : Z) : Prop := -32768 ≤ x < 32768.
Definition is_uint (x : Z) : Prop := 0 ≤ x < 4294967296.
Record dinode_fits (di : dinode) : Prop := {
  fit_type : is_short (di_type di);
  fit_major : is_short (di_major di);
  fit_minor : is_short (di_minor di);
  fit_nlink : is_short (di_nlink di);
  fit_size : is_uint (di_size di);
  fit_addrs : length (di_addrs di) = S (Z.to_nat NDIRECT);
  fit_addr : Forall is_uint (di_addrs di) }.

Lemma get16_le16 v rest : is_short v → i16 (get16 (le16 v ++ rest) 0) = v.
Proof. unfold is_short, get16, byte_at, i16. simpl. unfold u8. intros. zlia. Qed.

Lemma get16_app a b c : Z.of_nat (length a) ≤ c → get16 (a ++ b) c = get16 b (c - Z.of_nat (length a)).
Proof. intros. unfold get16. rewrite !byte_at_app_r by lia. do 3 f_equal. lia. Qed.
Lemma get32_app a b c : Z.of_nat (length a) ≤ c → get32 (a ++ b) c = get32 b (c - Z.of_nat (length a)).
Proof. intros. unfold get32. rewrite !byte_at_app_r by lia. repeat first [lia | f_equal]. Qed.

Lemma length_enc_dinode di : dinode_fits di → length (enc_dinode di) = Z.to_nat DINODE_SIZE.
Proof. intros Hf. unfold enc_dinode. rewrite !length_app, length_le_words, (fit_addrs _ Hf). done. Qed.

Lemma get_enc_dinode di : dinode_fits di → get_dinode (enc_dinode di) 0 = di.
Proof.
  intros [Ht Hma Hmi Hn Hs Hl Ha]. destruct di as [t ma mi nl sz ads]; simpl in *.
  unfold get_dinode, enc_dinode. simpl di_type. simpl di_major. simpl di_minor. simpl di_nlink. simpl di_size. simpl di_addrs.
  rewrite get16_le16 by done.
  rewrite !Z.add_0_l, (get16_app (le16 t) _ 2) by done. change (2 - Z.of_nat (length (le16 t))) with 0.
  rewrite get16_le16 by done.
  rewrite (get16_app (le16 t) _ 4), (get16_app (le16 ma)) by done. change (4 - _ - _) with 0.
  rewrite get16_le16 by done.
  rewrite (get16_app (le16 t) _ 6), (get16_app (le16 ma)), (get16_app (le16 mi)) by done. change (6 - _ - _ - _) with 0.
  rewrite get16_le16 by done.
  rewrite (get32_app (le16 t) _ 8), (get32_app (le16 ma)), (get32_app (le16 mi)), (get32_app (le16 nl)) by done.
  change (8 - _ - _ - _ - _) with 0. f_equal.
  - unfold is_uint in Hs. unfold get32, byte_at. simpl. unfold u8. zlia.
  - apply list_eq. intros k. rewrite list_lookup_fmap.
    destruct (decide (k < length ads)%nat) as [Hk|Hk].
    + rewrite lookup_seq_lt by lia. simpl fmap. destruct (lookup_lt_is_Some_2 _ _ Hk) as [w Hw]. rewrite Hw. cbv [fmap option_fmap option_map]. f_equal.
      etransitivity;
        [apply (get32_app (le16 t ++ le16 ma ++ le16 mi ++ le16 nl ++ le32 sz) (le_words ads)); simpl; lia|].
      replace (12 + 4 * Z.of_nat k - _) with (4 * Z.of_nat k) by (simpl; lia).
      rewrite (get32_le_words _ _ _ Hw). apply u32_small. exact (Forall_lookup_1 _ _ _ _ Ha Hw).
    + rewrite lookup_seq_ge, (lookup_ge_None_2 ads) by lia. done.
Qed.

Lemma get_dinode_splice d off bs c :
  0 ≤ c → (off + length bs ≤ length d)%nat → c + DINODE_SIZE ≤ Z.of_nat (length bs) →
  get_dinode (splice d off bs) (Z.of_nat off + c) = get_dinode bs c.
Proof.
  unfold DINODE_SIZE, get_dinode. intros. rewrite <- !Z.add_assoc, !get16_splice, get32_splice by lia.
  f_equal. apply list_fmap_ext. intros i k Hk%lookup_seq. rewrite <- !Z.add_assoc.
  change (Z.to_nat NDIRECT) with 12%nat in Hk. apply get32_splice; lia.
Qed.

(** Two offsets whose slots do not overlap. *)
Lemma get_dinode_splice_ne d off bs c :
  0 ≤ c → (off + length bs ≤ length d)%nat →
  c + DINODE_SIZE ≤ Z.of_nat off ∨ Z.of_nat (off + length bs) ≤ c →
  get_dinode (splice d off bs) c = get_dinode d c.
Proof.
  unfold DINODE_SIZE. intros Hc Hl Hd.
  assert (∀ i, c ≤ i < c + 64 → byte_at (splice d off bs) i = byte_at d i) as E.
  { intros i Hi. rewrite byte_at_splice, decide_False by lia. done. }
  unfold get_dinode, get16, get32. rewrite !E by lia. f_equal.
  apply list_fmap_ext. intros j k Hk%lookup_seq. change (Z.to_nat NDIRECT) with 12%nat in Hk. by rewrite !E by lia.
Qed.

Lemma dinode_off_bound inum : 0 ≤ dinode_off inum ∧ dinode_off inum + DINODE_SIZE ≤ BSIZE.
Proof. unfold dinode_off, DINODE_SIZE, BSIZE, IPB. zlia. Qed.

(** What is written with [put_dinode] is what [get_dinode] reads, and the other inodes of
    the block are not disturbed. *)
Lemma get_put_dinode d di inum :
  length d = Z.to_nat BSIZE → dinode_fits di →
  get_dinode (put_dinode d (dinode_off inum) di) (dinode_off inum) = di.
Proof.
  intros Hl Hf. destruct (dinode_off_bound inum) as [Ho Hb].
  pose proof (length_enc_dinode di Hf) as Hel. unfold BSIZE, DINODE_SIZE in *.
  rewrite put_dinode_enc by done.
  rewrite <- (Z2Nat.id (dinode_off inum)) at 2 by done.
  rewrite <- (Z.add_0_r (Z.of_nat _)), get_dinode_splice by (unfold DINODE_SIZE; lia).
  by apply get_enc_dinode.
Qed.
Lemma get_put_dinode_ne d di inum inum' :
  length d = Z.to_nat BSIZE → dinode_fits di → inum mod IPB ≠ inum' mod IPB →
  get_dinode (put_dinode d (dinode_off inum) di) (dinode_off inum') = get_dinode d (dinode_off inum').
Proof.
  intros Hl Hf Hne. destruct (dinode_off_bound inum) as [Ho Hb]. destruct (dinode_off_bound inum') as [Ho' Hb'].
  pose proof (length_enc_dinode di Hf) as Hel. rewrite put_dinode_enc by done.
  apply get_dinode_splice_ne; [done|unfold BSIZE, DINODE_SIZE in *; lia|].
  unfold dinode_off, DINODE_SIZE, BSIZE, IPB in *. zlia.
Qed.
Lemma length_put_dinode d off di : 0 ≤ off → length (put_dinode d off di) = length d.
Proof. intros. rewrite put_dinode_enc by done. apply length_splice. Qed.

(** * The inode cache *)

Definition hit_inode (dev inum : Z) (ip : inode) : Prop := 0 < i_ref ip ∧ i_dev ip = dev ∧ i_inum ip = inum.
#[export] Instance hit_inode_dec dev inum ip : Decision (hit_inode dev inum ip).
Proof. apply _. Defined.
Definition free_inode (ip : inode) : Prop := i_ref ip = 0.
#[export] Instance free_inode_dec ip : Decision (free_inode ip).
Proof. apply _. Defined.

(** The first entry that satisfies [Q]. *)
Definition first_ix (Q : inode → Prop) `{∀ ip, Decision (Q ip)} (ips : list inode) : option nat :=
  fst <$> list_find Q ips.

(** The cache is in order: no negative counts, no inode twice. *)
Record icache_wf (ips : list inode) : Prop := {
  ic_length : length ips = NINODE;
  ic_ref : Forall (λ ip, 0 ≤ i_ref ip) ips;
  ic_unique i j x y : ips !! i = Some x → ips !! j = Some y → 0 < i_ref x → 0 < i_ref y →
    i_dev x = i_dev y → i_inum x = i_inum y → i = j }.

Definition fresh_inode (dev inum : Z) (ip : inode) : inode :=
  ip <| i_dev := dev |> <| i_inum := inum |> <| i_ref := 1 |> <| i_valid := 0 |>.
Definition ref_inode (ip : inode) : inode := ip <| i_ref ::= λ r, r + 1 |>.

(** What [iget] does to the cache. *)
Definition iget_result (dev inum : Z) (ips : list inode) : option (nat * list inode) :=
  match first_ix (hit_inode dev inum) ips with
  | Some i => Some (i, alter ref_inode i ips)
  | None => match first_ix free_inode ips with
            | Some i => Some (i, alter (fresh_inode dev inum) i ips)
            | None => None
            end
  end.

Lemma first_ix_snoc (Q : inode → Prop) `{∀ ip, Decision (Q ip)} l x :
  first_ix Q (l ++ [x]) =
    match first_ix Q l with Some i => Some i | None => if decide (Q x) then Some (length l) else None end.
Proof.
  unfold first_ix. destruct (list_find Q l) as [[i y]|] eqn:E; simpl.
  - by rewrite (list_find_app_l _ _ _ _ _ E).
  - rewrite list_find_app_r by done. simpl. case_decide; cbn; [f_equal; lia|done].
Qed.

Lemma first_ix_Some (Q : inode → Prop) `{∀ ip, Decision (Q ip)} l i :
  first_ix Q l = Some i → ∃ x, l !! i = Some x ∧ Q x.
Proof.
  unfold first_ix. intros ([j x] & E & ->)%fmap_Some. apply list_find_Some in E as (?&?&_). by exists x.
Qed.
Lemma first_ix_None (Q : inode → Prop) `{∀ ip, Decision (Q ip)} l i x :
  first_ix Q l = None → l !! i = Some x → ¬ Q x.
Proof.
  unfold first_ix. intros E%fmap_None Hx. apply list_find_None in E. exact (Forall_lookup_1 _ _ _ _ E Hx).
Qed.
Lemma first_ix_app_l (Q : inode → Prop) `{∀ ip, Decision (Q ip)} l l' i :
  first_ix Q l = Some i → first_ix Q (l ++ l') = Some i.
Proof.
  unfold first_ix. intros ([j x] & E & ->)%fmap_Some. by rewrite (list_find_app_l _ _ _ _ _ E).
Qed.

Lemma inode_at_ok s i ip : icache s !! i = Some ip → inode_at i s = Ok ip s.
Proof. intros E. unfold inode_at. mstep. by rewrite E. Qed.

Lemma hit_inode_bool dev inum ip :
  (0 <? i_ref ip) && (i_dev ip =? dev) && (i_inum ip =? inum) = bool_decide (hit_inode dev inum ip).
Proof.
  unfold hit_inode. destruct (Z.ltb_spec 0 (i_ref ip)), (Z.eqb_spec (i_dev ip) dev), (Z.eqb_spec (i_inum ip) inum);
    case_bool_decide; simpl; done || naive_solver lia.
Qed.

(** The three ways a turn of the loop goes. *)
Lemma iget_body_end dev inum s h i empty :
  held s = LIcache :: h → LIcache ∉ h → (NINODE ≤ i)%nat →
  iget_body dev inum (i, empty) s =
    match empty with
    | Some j => Ok (inr j) (s <| held := h |> <| icache := alter (fresh_inode dev inum) j (icache s) |>)
    | None => Panic "iget: no inodes"
    end.
Proof.
  intros Hh Hn Hi. unfold iget_body. destruct (Nat.ltb_spec i NINODE); [lia|].
  destruct empty as [j|]; [|done]. unfold upd_inode_at. mstep.
  erewrite bind_ok; [|by apply (release_ok _ _ h)]. by destruct s.
Qed.
Lemma iget_body_hit dev inum s h i empty ip :
  held s = LIcache :: h → LIcache ∉ h → (i < NINODE)%nat → icache s !! i = Some ip → hit_inode dev inum ip →
  iget_body dev inum (i, empty) s =
    Ok (inr i) (s <| held := h |> <| icache := alter ref_inode i (icache s) |>).
Proof.
  intros Hh Hn Hi Hip Hit. unfold iget_body. destruct (Nat.ltb_spec i NINODE); [|lia].
  mstep_with (inode_at_ok s i ip Hip). rewrite hit_inode_bool, bool_decide_true by done.
  unfold upd_inode_at. mstep. erewrite bind_ok; [|by apply (release_ok _ _ h)]. by destruct s.
Qed.
Lemma iget_body_miss dev inum s i empty ip :
  (i < NINODE)%nat → icache s !! i = Some ip → ¬ hit_inode dev inum ip →
  iget_body dev inum (i, empty) s =
    Ok (inl (S i, match empty with None => if i_ref ip =? 0 then Some i else None | Some _ => empty end)) s.
Proof.
  intros Hi Hip Hit. unfold iget_body. destruct (Nat.ltb_spec i NINODE); [|lia].
  mstep_with (inode_at_ok s i ip Hip). by rewrite hit_inode_bool, bool_decide_false by done.
Qed.

Lemma iget_loop dev inum s h n i :
  held s = LIcache :: h → LIcache ∉ h → length (icache s) = NINODE → (i + n = NINODE)%nat →
  first_ix (hit_inode dev inum) (take i (icache s)) = None →
  iterM (S n) (iget_body dev inum) (i, first_ix free_inode (take i (icache s))) s =
    match iget_result dev inum (icache s) with
    | Some (j, ips) => Ok j (s <| held := h |> <| icache := ips |>)
    | None => Panic "iget: no inodes"
    end.
Proof.
  intros Hh Hn Hl. revert i. induction n as [|n IH]; intros i Hi Hno; rewrite iterM_S.
  - rewrite take_ge in * by lia. unfold iget_result. rewrite Hno.
    pose proof (iget_body_end dev inum s h i (first_ix free_inode (icache s)) Hh Hn ltac:(lia)) as Eb.
    destruct (first_ix free_inode (icache s)) as [j|]; [by mstep_with Eb|by apply bind_panic].
  - destruct (lookup_lt_is_Some_2 (icache s) i) as [ip Hip]; [lia|].
    assert (take (S i) (icache s) = take i (icache s) ++ [ip]) as Et by (by apply take_S_r).
    destruct (decide (hit_inode dev inum ip)) as [Hhit|Hhit].
    + assert (first_ix (hit_inode dev inum) (icache s) = Some i) as Ehit.
      { rewrite <- (take_drop (S i) (icache s)). apply first_ix_app_l. rewrite Et, first_ix_snoc, Hno, decide_True by done.
        f_equal. rewrite length_take. lia. }
      unfold iget_result. rewrite Ehit.
      mstep_with (iget_body_hit dev inum s h i (first_ix free_inode (take i (icache s))) ip Hh Hn ltac:(lia) Hip Hhit). done.
    + mstep_with (iget_body_miss dev inum s i (first_ix free_inode (take i (icache s))) ip ltac:(lia) Hip Hhit).
      rewrite <- (IH (S i)); [|lia|by rewrite Et, first_ix_snoc, Hno, decide_False].
      do 2 f_equal. rewrite Et, first_ix_snoc. destruct (first_ix free_inode (take i (icache s))); [done|].
      rewrite length_take, Nat.min_l by lia. unfold free_inode.
      destruct (Z.eqb_spec (i_ref ip) 0); by case_decide.
Qed.

Lemma iget_ok dev inum s :
  LIcache ∉ held s → length (icache s) = NINODE →
  iget dev inum s = match iget_result dev inum (icache s) with
                    | Some (j, ips) => Ok j (s <| icache := ips |>)
                    | None => Panic "iget: no inodes"
                    end.
Proof.
  intros Hn Hl. unfold iget. mstep_with (acquire_ok LIcache s Hn).
  rewrite (iget_loop dev inum (s <| held := LIcache :: held s |>) (held s) NINODE 0) by done.
  change (icache (s <| held := LIcache :: held s |>)) with (icache s).
  destruct (iget_result dev inum (icache s)) as [[j ips]|]; [by destruct s|done].
Qed.

(** [iget] keeps the cache in order. *)
Lemma iget_result_wf dev inum ips i ips' :
  icache_wf ips → iget_result dev inum ips = Some (i, ips') →
  icache_wf ips' ∧ (∃ x, ips' !! i = Some x ∧ 0 < i_ref x ∧ i_dev x = dev ∧ i_inum x = inum)
  ∧ (∀ j, j ≠ i → ips' !! j = ips !! j).
Proof.
  intros [Hl Hr Hu]. unfold iget_result.
  destruct (first_ix (hit_inode dev inum) ips) as [j|] eqn:E1.
  - intros [= -> <-]. apply first_ix_Some in E1 as (x & Hx & Hp & Hd & Hn).
    rewrite (alter_lookup _ _ _ _ Hx). assert (i < length ips)%nat by (by eapply lookup_lt_Some).
    split_and!.
    + split; [by rewrite length_insert|apply Forall_insert; [done|simpl; unfold over; simpl; lia]|].
      intros a b xa xb. rewrite !list_lookup_insert. repeat case_decide; try naive_solver.
    + exists (ref_inode x). rewrite list_lookup_insert_eq by done. split_and!; [done|simpl; unfold over; simpl; lia|done|done].
    + intros j' ?. by rewrite list_lookup_insert_ne.
  - destruct (first_ix free_inode ips) as [j|] eqn:E2; [|done]. intros [= -> <-].
    apply first_ix_Some in E2 as (x & Hx & Hf). rewrite (alter_lookup _ _ _ _ Hx).
    assert (i < length ips)%nat by (by eapply lookup_lt_Some).
    assert (∀ b xb, ips !! b = Some xb → 0 < i_ref xb → i_dev xb = dev → i_inum xb ≠ inum) as Hmiss.
    { intros b xb Hb Hrb Hdb Hnb. apply (first_ix_None _ _ _ _ E1 Hb). done. }
    split_and!.
    + split; [by rewrite length_insert|apply Forall_insert; [done|done]|].
      intros a b xa xb. rewrite !list_lookup_insert. repeat case_decide; try naive_solver.
    + exists (fresh_inode dev inum x). by rewrite list_lookup_insert_eq by done.
    + intros j' ?. by rewrite list_lookup_insert_ne.
Qed.

(** * Locking and updating *)

(** [s'] differs from [s] only in what block operations touch and in the inode cache. *)
Definition same_i (s s' : kstate) : Prop := same (s <| icache := [] |>) (s' <| icache := [] |>).
#[export] Instance same_i_preorder : PreOrder same_i.
Proof. split; [by intros s; unfold same_i|]. intros s1 s2 s3. unfold same_i. intros. by etransitivity. Qed.
Lemma same_same_i s s' : same s s' → same_i s s'.
Proof.
  intros [E D]. split; [|exact D].
  change (over icache (λ _, []) (fs_rest s') = over icache (λ _, []) (fs_rest s)). by rewrite E.
Qed.
Lemma same_i_icache s ips : same_i s (s <| icache := ips |>).
Proof. by split. Qed.
Lemma same_i_sb s s' : same_i s s' → sb s' = sb s.
Proof. intros [E _]. exact (f_equal sb E). Qed.
Lemma same_i_disksize s s' : same_i s s' → disksize (hdisk s') = disksize (hdisk s).
Proof. by intros (_ & ? & _). Qed.

Definition inode_di (ip : inode) : dinode :=
  mk_dinode (i_type ip) (i_major ip) (i_minor ip) (i_nlink ip) (i_size ip) (i_addrs ip).
Definition load_di (di : dinode) (ip : inode) : inode :=
  ip <| i_type := di_type di |> <| i_major := di_major di |> <| i_minor := di_minor di |>
     <| i_nlink := di_nlink di |> <| i_size := di_size di |> <| i_addrs := di_addrs di |>.

(** The dinode numbered [inum] in the blocks [L]. *)
Definition dinode_of (S : superblock) (L : Z → block) (inum : Z) : dinode :=
  get_dinode (L (IBLOCK inum S)) (dinode_off inum).

Section ops.
Context {T : Z → (Z → block) → gmap nat (Z * block) → nat → kstate → Prop} `{!BlockLayer T} (pid : Z).
Implicit Types (L : Z → block) (H : gmap nat (Z * block)).

Lemma T_icache L H k s ips : T pid L H k s → T pid L H k (s <| icache := ips |>).
Proof. intros Ht. by eapply bl_state. Qed.

Lemma wp_upd_inode i f s (Q : unit → kstate → Prop) :
  Q tt (s <| icache := alter f i (icache s) |>) → wp (upd_inode_at i f) s Q.
Proof. intros HQ. unfold upd_inode_at. apply wp_modify. by destruct s. Qed.

Lemma wp_inode_at i ip s (Q : inode → kstate → Prop) :
  icache s !! i = Some ip → Q ip s → wp (inode_at i) s Q.
Proof. intros E HQ. eapply wp_intro; [by apply inode_at_ok|done]. Qed.

Lemma wp_acquiresleep_inode L H k s i ip (Q : unit → kstate → Prop) :
  T pid L H k s → icache s !! i = Some ip → sl_locked (i_lock ip) = false →
  Q tt (s <| icache := <[i := ip <| i_lock := mk_sleeplock true pid |>]> (icache s) |>) →
  wp (acquiresleep (SInode i)) s Q.
Proof.
  intros Ht Hip Hl HQ. destruct (bl_running pid L H k s Ht) as [Hh Hr].
  eapply wp_intro; [eapply (acquiresleep_ok s (SInode i) (i_lock ip) pid Hh); [simpl; by rewrite Hip|done|done]|].
  simpl. unfold over at 1. simpl. unfold over in HQ; simpl in HQ. by rewrite (alter_lookup _ _ _ _ Hip).
Qed.

(** The inode as [ilock] leaves it. *)
Definition locked_inode (S : superblock) L (ip : inode) : inode :=
  let ip := ip <| i_lock := mk_sleeplock true pid |> in
  if i_valid ip =? 0 then load_di (dinode_of S L (i_inum ip)) ip <| i_valid := 1 |> else ip.

Lemma wp_ilock L H k s i ip (Q : unit → kstate → Prop) :
  let ip' := locked_inode (sb s) L ip in
  T pid L H k s → icache s !! i = Some ip → 1 ≤ i_ref ip → sl_locked (i_lock ip) = false → i_dev ip = 1 →
  0 ≤ IBLOCK (i_inum ip) (sb s) < disksize (hdisk s) → not_held H (IBLOCK (i_inum ip) (sb s)) →
  (size H < MAXHELD)%nat → (i_valid ip = 0 → i_type ip' ≠ 0) →
  (∀ s', T pid L H k s' → same_i s s' → icache s' = <[i := ip']> (icache s) → Q tt s') →
  wp (ilock (Some i)) s Q.
Proof.
  intros ip' Ht Hip Hr Hl Hd Hb Hn Hroom Hty HQ.
  assert (i < length (icache s))%nat as Hlt by (by eapply lookup_lt_Some).
  unfold ilock. wps. apply (wp_inode_at _ _ _ _ Hip).
  destruct (Z.ltb_spec (i_ref ip) 1); [lia|]. wps.
  eapply wp_acquiresleep_inode; [exact Ht|exact Hip|done|].
  set (ip1 := ip <| i_lock := mk_sleeplock true pid |>). set (s1 := over icache _ s).
  assert (icache s1 !! i = Some ip1) as Hip1 by (by apply list_lookup_insert_eq).
  assert (T pid L H k s1) as Ht1 by (by apply T_icache).
  wps. apply (wp_inode_at _ _ _ _ Hip1). unfold locked_inode in ip'. fold ip1 in ip'.
  destruct (Z.eqb_spec (i_valid ip1) 0) as [Ev|Ev].
  - wps. change (i_dev ip1) with (i_dev ip). rewrite Hd. eapply (bl_bread pid L H k s1); [exact Ht1|done|done|done|]. intros j s2 Hj Ht2 E2.
    wps. eapply bl_bdata; [exact Ht2|apply lookup_insert_eq|]. cbv zeta. wps. apply wp_upd_inode. cbv beta. wps.
    pose proof (T_icache _ _ _ _ (alter (load_di (dinode_of (sb s) L (i_inum ip1))) i (icache s2)) Ht2) as Ht3.
    eapply bl_brelse; [exact Ht3|apply lookup_insert_eq|]. intros s4 Ht4 E4.
    rewrite delete_insert_eq, delete_id in Ht4 by done.
    cbv beta. wps. apply wp_upd_inode. cbv beta. wps.
    assert (icache s4 = <[i := load_di (dinode_of (sb s) L (i_inum ip1)) ip1]> (icache s)) as Ei4.
    { rewrite (same_icache _ _ E4). simpl. rewrite (same_icache _ _ E2).
      rewrite (alter_lookup _ _ _ _ Hip1). unfold s1. simpl. by rewrite list_insert_insert_eq. }
    assert (icache s4 !! i = Some (load_di (dinode_of (sb s) L (i_inum ip1)) ip1)) as Hi4
      by (rewrite Ei4; by apply list_lookup_insert_eq).
    set (s5 := over icache _ s4).
    assert (icache s5 = <[i := ip']> (icache s)) as Ei5.
    { unfold s5. simpl. rewrite (alter_lookup _ _ _ _ Hi4), Ei4, list_insert_insert_eq. done. }
    apply (wp_inode_at i ip'); [rewrite Ei5; by apply list_lookup_insert_eq|].
    destruct (Z.eqb_spec (i_type ip') 0); [by exfalso; apply (Hty Ev)|].
    wps. apply HQ; [by apply T_icache| |done].
    transitivity s4; [|apply same_i_icache]. transitivity s2; [|apply (same_same_i _ _ E4)].
    transitivity s1; [apply same_i_icache|by apply same_same_i].
  - wps. apply HQ; [done|apply same_i_icache|done].
Qed.

(** [iupdate] writes the inode into its slot. *)
Lemma wp_iupdate L H k s i ip (Q : unit → kstate → Prop) :
  let b := IBLOCK (i_inum ip) (sb s) in
  T pid L H (S k) s → icache s !! i = Some ip → i_dev ip = 1 →
  0 ≤ b < disksize (hdisk s) → not_held H b → (size H < MAXHELD)%nat →
  (∀ s', T pid (upd L b (put_dinode (L b) (dinode_off (i_inum ip)) (inode_di ip))) H k s' → same s s' → Q tt s') →
  wp (iupdate i) s Q.
Proof.
  intros b Ht Hip Hd Hb Hn Hroom HQ. unfold iupdate. wps. apply (wp_inode_at _ _ _ _ Hip). wps.
  rewrite Hd. eapply bl_bread; [exact Ht|done..|]. intros j s1 Hj Ht1 E1. wps.
  eapply bl_bdata; [exact Ht1|apply lookup_insert_eq|]. wps.
  eapply bl_set_bdata; [exact Ht1|apply lookup_insert_eq|]. intros s2 Ht2 E2. rewrite insert_insert_eq in Ht2.
  wps. eapply wp_log_release; [exact Ht2|done|]. intros s3 Ht3 E3 _.
  apply HQ; [exact Ht3|]. transitivity s1; [done|]. by transitivity s2.
Qed.

Lemma wp_iunlock L H k s i ip (Q : unit → kstate → Prop) :
  T pid L H k s → icache s !! i = Some ip → i_lock ip = mk_sleeplock true pid → 1 ≤ i_ref ip →
  Q tt (wakes (ChSleep (SInode i)) (s <| icache := <[i := ip <| i_lock := unlocked |>]> (icache s) |>)) →
  wp (iunlock (Some i)) s Q.
Proof.
  intros Ht Hip Hl Hr HQ. destruct (bl_running pid L H k s Ht) as [Hh Hrun].
  unfold iunlock. wps. eapply wp_intro.
  { apply (holdingsleep_ok s (SInode i) pid Hh Hrun). simpl. by rewrite Hip, <- Hl. }
  apply wp_bind. apply (wp_inode_at _ _ _ _ Hip). destruct (Z.ltb_spec (i_ref ip) 1); [lia|]. cbn [negb orb].
  eapply wp_intro; [by apply releasesleep_ok|].
  simpl. unfold over at 1. simpl. unfold over in HQ; simpl in HQ. by rewrite (alter_lookup _ _ _ _ Hip).
Qed.
End ops.

(** * Properties *)

(** Inode numbers whose block number does not wrap around. *)
Definition inum_ok (S : superblock) (n : Z) : Prop := 0 ≤ n ∧ n / IPB + sb_inodestart S < 4294967296.

Lemma dinode_upd S L n n' di :
  0 ≤ sb_inodestart S → inum_ok S n → inum_ok S n' → n ≠ n' →
  length (L (IBLOCK n S)) = Z.to_nat BSIZE → dinode_fits di →
  dinode_of S (upd L (IBLOCK n S) (put_dinode (L (IBLOCK n S)) (dinode_off n) di)) n' = dinode_of S L n'.
Proof.
  intros Hs [Hn0 Hn] [Hn0' Hn'] Hne Hl Hf. unfold dinode_of.
  destruct (decide (IBLOCK n' S = IBLOCK n S)) as [E|E]; [|by rewrite upd_ne].
  rewrite E, upd_eq. apply get_put_dinode_ne; [done..|].
  unfold IBLOCK, IPB in *. rewrite !u32_small in E by zlia. zlia.
Qed.

(** Slot [j] of the cache is an entry for inode [n] that nobody has locked and that has not been read from the disk. *)
Record unread (s : kstate) (j : nat) (n : Z) (x : inode) : Prop := {
  un_slot : icache s !! j = Some x;
  un_inum : i_inum x = n;
  un_dev : i_dev x = 1;
  un_valid : i_valid x = 0;
  un_ref : 1 ≤ i_ref x;
  un_lock : sl_locked (i_lock x) = false }.

(** C28: what [iupdate] writes is what [ilock] reads: whenever a process, in any later state in which the inode's block has not been
    written again, locks an entry of the cache for this inode that has still to be read, it gets the fields that were written (unless it is free); the slot of
    every other inode is unchanged, and so is every other block. *)
Theorem iupdate_roundtrip (pid : Z) (L : Z → block) (H : gmap nat (Z * block)) (k : nat) (s : kstate)
    (i : nat) (ip : inode) :
  let b := IBLOCK (i_inum ip) (sb s) in
  tx pid L H (S k) s → icache s !! i = Some ip → i_dev ip = 1 →
  0 ≤ b < disksize (hdisk s) → not_held H b → (size H < MAXHELD)%nat →
  length (L b) = Z.to_nat BSIZE → dinode_fits (inode_di ip) →
  inum_ok (sb s) (i_inum ip) → 0 ≤ sb_inodestart (sb s) →
  ∃ s' L', iupdate i s = Ok tt s' ∧ tx pid L' H k s' ∧ icache s' = icache s
    ∧ (∀ pid2 L2 H2 k2 s2 j x, tx pid2 L2 H2 k2 s2 → sb s2 = sb s → L2 b = L' b → unread s2 j (i_inum ip) x →
         b < disksize (hdisk s2) → not_held H2 b → (size H2 < MAXHELD)%nat → i_type ip ≠ 0 →
         ∃ s3 y, ilock (Some j) s2 = Ok tt s3 ∧ tx pid2 L2 H2 k2 s3 ∧ icache s3 = <[j := y]> (icache s2)
           ∧ i_type y = i_type ip ∧ i_major y = i_major ip ∧ i_minor y = i_minor ip ∧ i_nlink y = i_nlink ip ∧ i_size y = i_size ip
           ∧ i_addrs y = i_addrs ip ∧ i_inum y = i_inum ip ∧ i_ref y = i_ref x ∧ i_valid y = 1 ∧ i_lock y = mk_sleeplock true pid2)
    ∧ (∀ n, inum_ok (sb s) n → n ≠ i_inum ip → dinode_of (sb s) L' n = dinode_of (sb s) L n)
    ∧ (∀ c, c ≠ b → L' c = L c).
Proof.
  intros b Ht Hip Hd Hb Hn Hroom Hlen Hf Hin Hst.
  assert (wp (iupdate i) s (λ _ s',
    tx pid (upd L b (put_dinode (L b) (dinode_off (i_inum ip)) (inode_di ip))) H k s' ∧ same s s')) as Hw
    by (by eapply wp_iupdate).
  apply wp_elim in Hw as ([] & s' & E & Ht' & Es). eexists s', _.
  split_and!; [exact E|exact Ht'|by apply same_icache| | |].
  - intros pid2 L2 H2 k2 s2 j x Ht2 Esb Eb [Hx Hxi Hxd Hxv Hxr Hxl] Hb2 Hn2 Hroom2 Hty.
    assert (Edi : dinode_of (sb s2) L2 (i_inum x) = inode_di ip).
    { unfold dinode_of. rewrite Esb, Hxi. fold b. rewrite Eb, upd_eq. by apply get_put_dinode. }
    set (y := locked_inode pid2 (sb s2) L2 x).
    assert (Ey : y = load_di (inode_di ip) (x <| i_lock := mk_sleeplock true pid2 |>) <| i_valid := 1 |>).
    { unfold y, locked_inode. change (i_valid (x <| i_lock := mk_sleeplock true pid2 |>)) with (i_valid x). rewrite Hxv.
      change (0 =? 0) with true. cbv iota. change (i_inum (x <| i_lock := mk_sleeplock true pid2 |>)) with (i_inum x). by rewrite Edi. }
    assert (wp (ilock (Some j)) s2 (λ _ s3, tx pid2 L2 H2 k2 s3 ∧ icache s3 = <[j := y]> (icache s2))) as Hw2.
    { eapply (wp_ilock pid2 L2 H2 k2 s2 j x); [exact Ht2|exact Hx|exact Hxr|exact Hxl|exact Hxd|rewrite Hxi, Esb; fold b; lia|by rewrite Hxi, Esb|done| |done].
      intros _. change (i_type y ≠ 0). by rewrite Ey. }
    apply wp_elim in Hw2 as ([] & s3 & E3 & Ht3 & Ei3). exists s3, y. split; [exact E3|]. split; [exact Ht3|]. split; [exact Ei3|]. rewrite Ey. by split_and!.
  - intros n Hn' Hne. by apply dinode_upd.
  - intros c Hc. by apply upd_ne.
Qed.

(** A machine with inode 5 in the first cache slot, a file of one block. *)
Definition demo_inode (valid : Z) : inode :=
  mk_inode 1 5 1 unlocked valid 2 0 0 1 100 (60 :: replicate 12 0).
Definition demo_slots (ip : inode) : list inode :=
  ip :: replicate 49 (mk_inode 0 0 0 unlocked 0 0 0 0 0 0 (replicate 13 0)).
Definition demo_fs (D : disk) (ip : inode) : kstate := in_call D (decode_sb (demo_sb 80 30)) (demo_slots ip).

Lemma demo_inode_fits v : dinode_fits (inode_di (demo_inode v)).
Proof. split; [by split..|done|]. apply Forall_cons. split; [by split|]. by apply Forall_replicate; split. Qed.

(** The inode is written and read again, by another entry of the cache. *)
Lemma iupdate_roundtrip_witness :
  ∃ s' s3 y, iupdate 0 (demo_fs (demo_disk 80 30) (demo_inode 1)) = Ok tt s'
    ∧ ilock (Some 0%nat) (s' <| icache := demo_slots (mk_inode 1 5 1 unlocked 0 0 0 0 0 0 (replicate 13 0)) |>) = Ok tt s3
    ∧ icache s3 !! 0%nat = Some y ∧ i_type y = 2 ∧ i_nlink y = 1 ∧ i_size y = 100 ∧ i_addrs y = 60 :: replicate 12 0.
Proof.
  destruct (iupdate_roundtrip 1 (disk_read (demo_disk 80 30)) ∅ 19 (demo_fs (demo_disk 80 30) (demo_inode 1)) 0 (demo_inode 1))
    as (s' & L' & E & Ht & Ei & Hl & _).
  - apply in_call_tx.
  - done.
  - done.
  - by split.
  - by intros i d ?%lookup_empty_Some.
  - vm_compute; lia.
  - by vm_compute.
  - apply demo_inode_fits.
  - by split.
  - by vm_compute.
  - set (x := mk_inode 1 5 1 unlocked 0 0 0 0 0 0 (replicate 13 0)) in *. set (s2 := s' <| icache := demo_slots x |>).
    assert (Es : same_i (demo_fs (demo_disk 80 30) (demo_inode 1)) s2).
    { assert (wp (iupdate 0) (demo_fs (demo_disk 80 30) (demo_inode 1)) (λ _ s', same (demo_fs (demo_disk 80 30) (demo_inode 1)) s')) as Hw.
      { eapply (wp_iupdate 1 (disk_read (demo_disk 80 30)) ∅ 19 _ 0 (demo_inode 1)); [apply in_call_tx|done|done|by split|by intros i d ?%lookup_empty_Some|vm_compute; lia|done]. }
      apply wp_elim in Hw as (u & s1 & E1 & Hs). rewrite E in E1. injection E1 as _ <-. transitivity s'; [by apply same_same_i|apply same_i_icache]. }
    destruct (Hl 1 L' ∅ 19%nat s2 0%nat x) as (s3 & y & E3 & _ & Ei3 & T1 & _ & _ & T4 & T5 & T6 & _).
    + by apply T_icache.
    + exact (same_i_sb _ _ Es).
    + done.
    + by split.
    + rewrite (same_i_disksize _ _ Es). reflexivity.
    + by intros i d ?%lookup_empty_Some.
    + vm_compute; lia.
    + done.
    + exists s', s3, y. split; [exact E|]. split; [exact E3|]. split; [rewrite Ei3; reflexivity|]. split; [exact T1|]. split; [exact T4|]. split; [exact T5|exact T6].
Defined.

(** [ilock] takes the sleep lock and, if the cached copy is not valid, fills it from the
    inode's slot on disk; nothing else in the inode cache or on disk changes. *)
Theorem ilock_correct (pid : Z) (L : Z → block) (H : gmap nat (Z * block)) (k : nat) (s : kstate)
    (i : nat) (ip : inode) :
  let b := IBLOCK (i_inum ip) (sb s) in
  tx pid L H k s → icache s !! i = Some ip → 1 ≤ i_ref ip → sl_locked (i_lock ip) = false → i_dev ip = 1 →
  0 ≤ b < disksize (hdisk s) → not_held H b → (size H < MAXHELD)%nat →
  (i_valid ip = 0 → di_type (dinode_of (sb s) L (i_inum ip)) ≠ 0) →
  ∃ s' ip', ilock (Some i) s = Ok tt s' ∧ tx pid L H k s' ∧ icache s' = <[i := ip']> (icache s)
    ∧ i_lock ip' = mk_sleeplock true pid ∧ i_valid ip' ≠ 0
    ∧ inode_di ip' = (if i_valid ip =? 0 then dinode_of (sb s) L (i_inum ip) else inode_di ip)
    ∧ i_inum ip' = i_inum ip ∧ i_ref ip' = i_ref ip.
Proof.
  intros b Ht Hip Hr Hl Hd Hb Hn Hroom Hty.
  assert (wp (ilock (Some i)) s (λ _ s', tx pid L H k s' ∧ icache s' = <[i := locked_inode pid (sb s) L ip]> (icache s))) as Hw.
  { eapply wp_ilock; try done. intros Ev. unfold locked_inode. simpl. rewrite Ev. by apply Hty. }
  apply wp_elim in Hw as ([] & s' & E & Ht' & Ei). eexists s', _.
  split_and!; [exact E|exact Ht'|exact Ei|..]; unfold locked_inode; simpl;
    destruct (Z.eqb_spec (i_valid ip) 0); try done.
Qed.

(** The same machine with the inode also on disk. *)
Definition demo_disk_inode : disk :=
  mk_disk (<[32%nat := put_dinode (replicate 512 0) (dinode_off 5) (inode_di (demo_inode 1))]> (d_image (demo_disk 80 30))) [].

Lemma ilock_correct_witness :
  ∃ s' ip', ilock (Some 0%nat) (demo_fs demo_disk_inode (demo_inode 0)) = Ok tt s'
    ∧ tx 1 (disk_read demo_disk_inode) ∅ 20 s' ∧ icache s' = <[0%nat := ip']> (demo_slots (demo_inode 0))
    ∧ i_lock ip' = mk_sleeplock true 1 ∧ i_valid ip' ≠ 0
    ∧ inode_di ip' = dinode_of (decode_sb (demo_sb 80 30)) (disk_read demo_disk_inode) 5
    ∧ i_inum ip' = 5 ∧ i_ref ip' = 1.
Proof.
  apply (ilock_correct 1 (disk_read demo_disk_inode) ∅ 20 (demo_fs demo_disk_inode (demo_inode 0)) 0 (demo_inode 0)).
  - apply in_call_tx.
  - done.
  - done.
  - done.
  - done.
  - by split.
  - by intros i d ?%lookup_empty_Some.
  - vm_compute; lia.
  - intros _. by vm_compute.
Defined.

(** C27: [iget] never makes a second entry for an inode and keeps the cache in order: it
    returns an entry for the inode, with one more reference if there was one already, and leaves the
    others alone; it panics exactly when the inode is not cached and every entry is referenced. *)
Theorem iget_correct (s : kstate) (dev inum : Z) :
  LIcache ∉ held s → icache_wf (icache s) →
  (∃ i s' x, iget dev inum s = Ok i s' ∧ icache_wf (icache s') ∧ icache s' !! i = Some x
     ∧ i_dev x = dev ∧ i_inum x = inum ∧ 0 < i_ref x
     ∧ (∀ y, icache s !! i = Some y → hit_inode dev inum y → i_ref x = i_ref y + 1)
     ∧ (∀ j, j ≠ i → icache s' !! j = icache s !! j) ∧ s' <| icache := icache s |> = s)
  ∨ (iget dev inum s = Panic "iget: no inodes"
     ∧ ∀ i y, icache s !! i = Some y → 0 < i_ref y ∧ ¬ hit_inode dev inum y).
Proof.
  intros Hn Hwf. rewrite iget_ok by (done || apply Hwf).
  destruct (iget_result dev inum (icache s)) as [[i ips]|] eqn:E.
  - left. destruct (iget_result_wf _ _ _ _ _ Hwf E) as (Hwf' & (x & Hx & Hp & Hd & Hi) & Ho).
    exists i, (s <| icache := ips |>), x. split_and!; try done; [|by destruct s].
    intros y Hy Hhit. unfold iget_result in E. destruct (first_ix (hit_inode dev inum) (icache s)) as [j|] eqn:Ej.
    + injection E as -> <-. rewrite list_lookup_alter_eq, Hy in Hx. by injection Hx as <-.
    + by destruct (first_ix_None _ _ _ _ Ej Hy).
  - right. split; [done|]. intros i y Hy. unfold iget_result in E.
    destruct (first_ix (hit_inode dev inum) (icache s)) eqn:E1; [done|].
    destruct (first_ix free_inode (icache s)) eqn:E2; [done|].
    split; [|exact (first_ix_None _ _ _ _ E1 Hy)].
    pose proof (first_ix_None _ _ _ _ E2 Hy) as Hf. unfold free_inode in Hf.
    pose proof (Forall_lookup_1 _ _ _ _ (ic_ref _ Hwf) Hy). simpl in *. lia.
Qed.

Lemma demo_slots_wf : icache_wf (demo_slots (demo_inode 1)).
Proof.
  split; [done|apply Forall_cons; split; [done|by apply Forall_replicate]|].
  intros i j x y Hi Hj Hx Hy _ _.
  assert (∀ i x, demo_slots (demo_inode 1) !! i = Some x → 0 < i_ref x → i = 0%nat) as Hz.
  { intros [|n] z Hz Hr; [done|]. simpl in Hz. apply (lookup_replicate 49) in Hz as [-> _]. done. }
  by rewrite (Hz i x Hi Hx), (Hz j y Hj Hy).
Qed.

Lemma iget_correct_witness :
  let s := demo_fs (demo_disk 80 30) (demo_inode 1) in
  (∃ i s' x, iget 1 7 s = Ok i s' ∧ icache_wf (icache s') ∧ icache s' !! i = Some x
     ∧ i_dev x = 1 ∧ i_inum x = 7 ∧ 0 < i_ref x
     ∧ (∀ y, icache s !! i = Some y → hit_inode 1 7 y → i_ref x = i_ref y + 1)
     ∧ (∀ j, j ≠ i → icache s' !! j = icache s !! j) ∧ s' <| icache := icache s |> = s)
  ∨ (iget 1 7 s = Panic "iget: no inodes"
     ∧ ∀ i y, icache s !! i = Some y → 0 < i_ref y ∧ ¬ hit_inode 1 7 y).
Proof. apply iget_correct; [apply not_elem_of_nil|apply demo_slots_wf]. Defined.
