(* ===== verification/Content.v ===== *)
(** The contents of files: [bmap], [readi] and [writei] of [fs.c] against the block layer.

    A file is an array of bytes [fbyte], zero where no block is allocated; [readi] returns a
    segment of it and [writei] replaces one, allocating what is missing. *)
From S2P Require Export Inode.

(** * Well-formed disks and files *)

Record disk_wf (S : superblock) (L : Z → block) (n : Z) : Prop := {
  dw_size : 0 < sb_size S ≤ n;
  dw_length b : 0 ≤ b < sb_size S → length (L b) = Z.to_nat BSIZE;
  dw_width : bitmap_width S;
  dw_bitmap b : 0 ≤ b < sb_size S → 0 ≤ BBLOCK b S < sb_size S;
  dw_meta b : 0 ≤ b < sb_size S → used S L (BBLOCK b S) = true;
  dw_zero : used S L 0 = true }.

(** Block [a] belongs to a file. *)
Definition data_block (S : superblock) (L : Z → block) (a : Z) : Prop :=
  0 < a < sb_size S ∧ used S L a = true ∧ no_bitmap S a.

(** The file with data blocks [A n] and indirect block [ind] (0 where there is none). *)
Record file_at (S : superblock) (L : Z → block) (A : Z → Z) (ind : Z) : Prop := {
  fa_data n : 0 ≤ n < MAXFILE → A n ≠ 0 → data_block S L (A n) ∧ A n ≠ ind;
  fa_inj n m : 0 ≤ n < MAXFILE → 0 ≤ m < MAXFILE → A n ≠ 0 → A n = A m → n = m;
  fa_ind : ind ≠ 0 → data_block S L ind }.

(** Byte [j] of that file. *)
Definition byte_of (L : Z → block) (A : Z → Z) (j : Z) : Z :=
  if A (j / BSIZE) =? 0 then 0 else byte_at (L (A (j / BSIZE))) (j mod BSIZE).

Definition blk_addr (L : Z → block) (ip : inode) (n : Z) : Z :=
  if n <? NDIRECT then addr_at ip n
  else if addr_at ip NDIRECT =? 0 then 0
  else get32 (L (addr_at ip NDIRECT)) (4 * (n - NDIRECT)).
Definition file_wf (S : superblock) (L : Z → block) (ip : inode) : Prop :=
  length (i_addrs ip) = 13%nat ∧ file_at S L (blk_addr L ip) (addr_at ip NDIRECT).
Definition fbyte (L : Z → block) (ip : inode) (j : Z) : Z := byte_of L (blk_addr L ip) j.

(** ** Allocation *)

(** The effect of an allocation of block [a]. *)
Record allocates (S : superblock) (L L' : Z → block) (a : Z) : Prop := {
  al_range : 0 < a < sb_size S;
  al_free : used S L a = false;
  al_zero : L' a = zero_block;
  al_used x : 0 ≤ x < sb_size S → used S L' x = bool_decide (x = a) || used S L x;
  al_other b : b ≠ a → no_bitmap S b → L' b = L b;
  al_length b : 0 ≤ b < sb_size S → length (L' b) = Z.to_nat BSIZE;
  al_data : no_bitmap S a }.

Definition has_free (S : superblock) (L : Z → block) (m : nat) : Prop :=
  ∃ fl, NoDup fl ∧ length fl = m ∧ ∀ x, x ∈ fl → 0 ≤ x < sb_size S ∧ used S L x = false.

Section alloc.
Context (S : superblock) (L L' : Z → block) (a n : Z) (Ha : allocates S L L' a).

Lemma alloc_disk_wf : disk_wf S L n → disk_wf S L' n.
Proof.
  intros [Hs Hl Hw Hb Hm Hz]. split; [done|apply Ha|done|done| |].
  - intros b Hb'. rewrite (al_used _ _ _ _ Ha) by (by apply Hb). rewrite Hm by done. apply orb_true_r.
  - rewrite (al_used _ _ _ _ Ha) by lia. rewrite Hz. apply orb_true_r.
Qed.

Lemma alloc_data_block b : data_block S L b → data_block S L' b ∧ b ≠ a ∧ L' b = L b.
Proof.
  intros (Hb & Hu & Hn). assert (b ≠ a) as Hne by (intros ->; by rewrite (al_free _ _ _ _ Ha) in Hu).
  split_and!; [split_and!|done|by apply (al_other _ _ _ _ Ha)]; try done; [lia|lia|].
  rewrite (al_used _ _ _ _ Ha) by lia. rewrite Hu. apply orb_true_r.
Qed.

Lemma alloc_new_block : data_block S L' a.
Proof.
  pose proof (al_range _ _ _ _ Ha). split; [done|]. split; [|apply Ha].
  rewrite (al_used _ _ _ _ Ha) by lia. by rewrite bool_decide_true.
Qed.

Lemma alloc_file_at A ind : file_at S L A ind → file_at S L' A ind.
Proof.
  intros [Hd Hi Hin]. split; [|done|].
  - intros m Hm HA. destruct (Hd m Hm HA) as [Hb ?]. split; [by apply alloc_data_block|done].
  - intros Hx. by apply alloc_data_block, Hin.
Qed.

Lemma alloc_byte_of A ind j :
  file_at S L A ind → 0 ≤ j < MAXFILE * BSIZE → byte_of L' A j = byte_of L A j.
Proof.
  intros Hf Hj. unfold byte_of. destruct (Z.eqb_spec (A (j / BSIZE)) 0); [done|].
  assert (0 ≤ j / BSIZE < MAXFILE) as Hr by (unfold BSIZE, MAXFILE, NDIRECT, NINDIRECT in *; zlia).
  destruct (fa_data _ _ _ _ Hf _ Hr ltac:(done)) as [Hb _]. by destruct (alloc_data_block _ Hb) as (_ & _ & ->).
Qed.

(** The new block becomes block [m] of the file, or its indirect block. *)
Lemma alloc_add A ind m :
  file_at S L A ind → 0 ≤ m < MAXFILE → A m = 0 →
  file_at S L' (λ x, if x =? m then a else A x) ind.
Proof.
  intros Hf Hm HA. pose proof (alloc_file_at _ _ Hf) as [Hd Hi Hin]. pose proof (al_range _ _ _ _ Ha).
  assert (∀ x, 0 ≤ x < MAXFILE → A x ≠ a) as Hne.
  { intros x Hx E. destruct (fa_data _ _ _ _ Hf x Hx) as [Hb _]; [lia|].
    by destruct (alloc_data_block _ Hb) as (_ & ? & _). }
  split; [| |done].
  - intros x Hx HAx. destruct (Z.eqb_spec x m) as [->|]; [|by apply Hd].
    split; [apply alloc_new_block|]. intros E. assert (ind ≠ 0) as Hi0 by lia.
    by destruct (alloc_data_block ind (fa_ind _ _ _ _ Hf Hi0)) as (_ & ? & _).
  - intros x y Hx Hy. destruct (Z.eqb_spec x m), (Z.eqb_spec y m); subst; [done|..].
    + intros _ E. by destruct (Hne y Hy).
    + intros _ E. by destruct (Hne x Hx).
    + by apply Hi.
Qed.

Lemma alloc_add_byte A ind m j :
  file_at S L A ind → 0 ≤ j < MAXFILE * BSIZE → A m = 0 →
  byte_of L' (λ x, if x =? m then a else A x) j = byte_of L A j.
Proof.
  intros Hf Hj HA. rewrite <- (alloc_byte_of A ind j Hf Hj). unfold byte_of.
  destruct (Z.eqb_spec (j / BSIZE) m) as [->|]; [|done]. rewrite HA. simpl. destruct (a =? 0); [done|].
  rewrite (al_zero _ _ _ _ Ha). unfold byte_at, zero_block. rewrite list_lookup_total_alt.
  rewrite lookup_replicate_2; [done|]. unfold BSIZE. zlia.
Qed.

Lemma alloc_ind A : file_at S L A 0 → file_at S L' A a.
Proof.
  intros Hf. pose proof (alloc_file_at _ _ Hf) as [Hd Hi Hin]. split; [|done|intros _; apply alloc_new_block].
  intros x Hx HAx. split; [by apply Hd|]. intros E.
  destruct (fa_data _ _ _ _ Hf x Hx HAx) as [Hb _]. by destruct (alloc_data_block _ Hb) as (_ & ? & _).
Qed.

Lemma alloc_has_free m : has_free S L (Datatypes.S m) → has_free S L' m.
Proof.
  intros (fl & Hnd & Hl & Hfl).
  assert (∀ fl', NoDup fl' → (m ≤ length fl')%nat → (∀ x, x ∈ fl' → x ∈ fl ∧ x ≠ a) → has_free S L' m) as Hsuff.
  { intros fl' Hnd' Hl' Hin. exists (take m fl'). split_and!.
    - eapply sublist_NoDup; [exact Hnd'|apply sublist_take].
    - rewrite length_take. lia.
    - intros x Hx. apply (subseteq_take m fl') in Hx.
      destruct (Hin x Hx) as [Hx1 Hx2]. destruct (Hfl x Hx1) as [Hr Hu]. split; [done|].
      rewrite (al_used _ _ _ _ Ha) by done. rewrite Hu. by rewrite bool_decide_false. }
  destruct (decide (a ∈ fl)) as [Hin|Hnin].
  - apply list_elem_of_split in Hin as (l1 & l2 & ->). apply NoDup_app in Hnd as (H1 & H2 & [H3 H4]%NoDup_cons).
    rewrite length_app in Hl. simpl in Hl. apply (Hsuff (l1 ++ l2)).
    + apply NoDup_app. split_and!; [done| |done]. intros x Hx Hx2. apply (H2 x Hx). by right.
    + rewrite length_app. lia.
    + intros x [Hx|Hx]%elem_of_app; (split; [set_solver|]); [|by intros ->].
      intros ->. apply (H2 a Hx). left.
  - apply (Hsuff fl); [done|lia|]. intros x Hx. split; [done|]. by intros ->.
Qed.
End alloc.

(** * bmap *)
Section ops.
Context {T : Z → (Z → block) → gmap nat (Z * block) → nat → kstate → Prop} `{!BlockLayer T} (pid : Z).
Implicit Types (L : Z → block) (H : gmap nat (Z * block)).

Lemma least_free S L : has_free S L 1 → ∃ a, first_free S L a.
Proof.
  intros (fl & _ & Hl & Hfl). destruct fl as [|x [|]]; try done. destruct (Hfl x ltac:(left)) as [[Hx0 Hx] Hu].
  assert (∀ m : nat, (∀ y, 0 ≤ y < Z.of_nat m → used S L y = true) ∨ ∃ a, a < Z.of_nat m ∧ 0 ≤ a
    ∧ used S L a = false ∧ ∀ y, 0 ≤ y < a → used S L y = true) as Hs.
  { induction m as [|m [IH|(a & ? & ? & ? & ?)]]; [left; lia| |right; exists a; split_and!; done || lia].
    destruct (used S L (Z.of_nat m)) eqn:E.
    - left. intros y Hy. destruct (decide (y = Z.of_nat m)) as [->|]; [done|apply IH; lia].
    - right. exists (Z.of_nat m). split_and!; done || lia. }
  destruct (Hs (Z.to_nat (x + 1))) as [Hall|(a & Ha & Ha0 & Hf & Hm)].
  - rewrite Hall in Hu by lia. done.
  - exists a. split; [lia|done].
Qed.

(** Only blocks that files own are held. *)
Definition holds_data S L H : Prop := ∀ i b d, H !! i = Some (b, d) → used S L b = true ∧ no_bitmap S b.

Lemma wp_balloc_alloc L H k s (Q : Z → kstate → Prop) :
  let S := sb s in
  T pid L H (2 + k) s → disk_wf S L (disksize (hdisk s)) → has_free S L 1 → holds_data S L H →
  (size H < MAXHELD)%nat →
  (∀ a L' s', allocates S L L' a → T pid L' H k s' → same s s' → Q a s') →
  wp (balloc 1) s Q.
Proof.
  intros SB Ht [Hs Hl [Hw Hp] Hb Hm Hz] Hfree Hheld Hroom HQ.
  destruct (least_free _ _ Hfree) as [a Ha]. pose proof Ha as (Har & Hfr & _).
  assert (a ≠ 0) as Ha0 by (intros ->; by rewrite Hz in Hfr).
  assert (no_bitmap SB a) as Hnb by (intros y Hy <-; by rewrite Hm in Hfr).
  assert (not_held H a) as Hna by (intros i d Hi; destruct (Hheld _ _ _ Hi) as [Hu _]; by rewrite Hu in Hfr).
  eapply (wp_balloc pid L H k s a); [exact Ht| |done..|].
  - fold SB. split; [lia|intros b Hb'; specialize (Hb b Hb'); lia|].
    intros b Hb' i d Hi. destruct (Hheld _ _ _ Hi) as [_ Hn]. by apply (Hn b).
  - intros s' Ht' Es. eapply HQ; [|exact Ht'|done]. split; [subst SB; lia|done|apply upd_eq| | | |done].
    + intros x Hx. rewrite used_upd_other by done. apply used_mark; [by intros y Hy; apply Hl, Hb|done..].
    + intros b Hne Hbb. rewrite !upd_ne; [done| |done]. intros ->. by apply (Hbb a).
    + intros b Hb'. destruct (decide (b = a)) as [->|]; [by rewrite upd_eq|]. rewrite upd_ne by done.
      destruct (decide (b = BBLOCK a SB)) as [->|]; [rewrite upd_eq, length_mark|rewrite upd_ne by done]; auto.
Qed.

(** ** Growing a file by one block *)

(** [grows]: [L'], [ip'] is the file of [L], [ip] with blocks added; what it reads is
    the same, and so are the blocks of everybody else. *)
Record grows S L L' ip ip' (n : Z) : Prop := {
  gr_disk : disk_wf S L' n;
  gr_file : file_wf S L' ip';
  gr_byte j : 0 ≤ j < MAXFILE * BSIZE → fbyte L' ip' j = fbyte L ip j;
  gr_inode : ip' = ip <| i_addrs := i_addrs ip' |>;
  gr_keep m : 0 ≤ m < MAXFILE → blk_addr L ip m ≠ 0 → blk_addr L' ip' m = blk_addr L ip m;
  gr_other b : data_block S L b → (∀ m, 0 ≤ m < MAXFILE → blk_addr L ip m ≠ b) → addr_at ip NDIRECT ≠ b →
    data_block S L' b ∧ L' b = L b ∧ (∀ m, 0 ≤ m < MAXFILE → blk_addr L' ip' m ≠ b) ∧ addr_at ip' NDIRECT ≠ b }.

Lemma grows_refl S L ip n : disk_wf S L n → file_wf S L ip → grows S L L ip ip n.
Proof. intros. split; try done. by destruct ip. Qed.

Lemma grows_trans S L1 L2 L3 ip1 ip2 ip3 n :
  grows S L1 L2 ip1 ip2 n → grows S L2 L3 ip2 ip3 n → grows S L1 L3 ip1 ip3 n.
Proof.
  intros [D1 F1 B1 I1 K1 O1] [D2 F2 B2 I2 K2 O2]. split; [done|done| | | |].
  - intros j Hj. by rewrite B2, B1.
  - rewrite I2, I1. done.
  - intros m Hm Hne. rewrite K2; [by apply K1|done|]. by rewrite K1.
  - intros b Hb Hn Hi. destruct (O1 b Hb Hn Hi) as (Hb2 & E & Hn2 & Hi2).
    destruct (O2 b Hb2 Hn2 Hi2) as (? & E' & ? & ?). split_and!; [done|congruence|done..].
Qed.

Lemma addr_at_insert ip k m a :
  (k < length (i_addrs ip))%nat →
  addr_at (ip <| i_addrs ::= <[k := a]> |>) m = if decide (Z.to_nat m = k) then a else addr_at ip m.
Proof.
  intros Hk. unfold addr_at. simpl. unfold over; simpl. rewrite !list_lookup_total_alt.
  case_decide as E; [subst; by rewrite list_lookup_insert_eq|by rewrite list_lookup_insert_ne].
Qed.

Definition put_addr (k a : Z) (ip : inode) : inode := ip <| i_addrs ::= <[Z.to_nat k := a]> |>.

Lemma file_at_ext S L A A' ind :
  (∀ m, 0 ≤ m < MAXFILE → A m = A' m) → file_at S L A ind → file_at S L A' ind.
Proof.
  intros E [Hd Hi Hin]. split; [|intros x y Hx Hy; rewrite <- !E by done; auto|done].
  intros x Hx. rewrite <- E by done. auto.
Qed.
Lemma byte_of_ext L A A' j :
  (∀ m, 0 ≤ m < MAXFILE → A m = A' m) → 0 ≤ j < MAXFILE * BSIZE → byte_of L A j = byte_of L A' j.
Proof.
  intros E Hj. unfold byte_of. rewrite <- E; [done|].
  unfold BSIZE, MAXFILE, NDIRECT, NINDIRECT in *. zlia.
Qed.

(** A direct block is added. *)
Lemma grow_direct S L L' ip m a n :
  disk_wf S L n → file_wf S L ip → allocates S L L' a → 0 ≤ m < NDIRECT → addr_at ip m = 0 →
  grows S L L' ip (put_addr m a ip) n ∧ blk_addr L' (put_addr m a ip) m = a.
Proof.
  intros Hd [Hl Hf] Ha Hm Hz. pose proof (al_range _ _ _ _ Ha).
  assert (∀ x, 0 ≤ x < 13 → addr_at (put_addr m a ip) x = if x =? m then a else addr_at ip x) as Eaddr.
  { intros x Hx. unfold put_addr. rewrite addr_at_insert by (unfold NDIRECT in *; lia).
    destruct (Z.eqb_spec x m); case_decide; (done || lia). }
  assert (addr_at (put_addr m a ip) NDIRECT = addr_at ip NDIRECT) as Eind.
  { unfold NDIRECT in *. rewrite Eaddr by lia. destruct (Z.eqb_spec 12 m); [lia|done]. }
  assert (∀ x, 0 ≤ x < MAXFILE → (if x =? m then a else blk_addr L ip x) = blk_addr L' (put_addr m a ip) x) as E.
  { intros x Hx. unfold blk_addr. rewrite Eind. destruct (Z.ltb_spec x NDIRECT).
    - rewrite Eaddr by (unfold NDIRECT in *; lia). done.
    - destruct (Z.eqb_spec x m); [lia|]. destruct (Z.eqb_spec (addr_at ip NDIRECT) 0); [done|].
      by destruct (alloc_data_block S L L' a Ha _ (fa_ind _ _ _ _ Hf ltac:(done))) as (_ & _ & ->). }
  assert (m < MAXFILE) by (unfold MAXFILE, NDIRECT, NINDIRECT in *; lia).
  assert (blk_addr L ip m = 0) as Hbm by (unfold blk_addr; by destruct (Z.ltb_spec m NDIRECT); [|lia]).
  split; [|rewrite <- E by lia; by rewrite Z.eqb_refl].
  split; [by eapply alloc_disk_wf|split|..].
  - unfold put_addr. simpl. unfold over; simpl. by rewrite length_insert.
  - rewrite Eind. eapply file_at_ext; [exact E|]. apply (alloc_add S L L' a Ha); [done|lia|done].
  - intros j Hj. unfold fbyte. rewrite <- (byte_of_ext _ _ _ j E Hj). by eapply alloc_add_byte.
  - by destruct ip.
  - intros x Hx Hne. rewrite <- E by done. destruct (Z.eqb_spec x m); [by subst|done].
  - intros b Hb Hnb Hib. destruct (alloc_data_block S L L' a Ha b Hb) as (? & ? & ?). rewrite Eind.
    split_and!; [done..| |done]. intros x Hx. rewrite <- E by done. destruct (Z.eqb_spec x m); [by intros ->|by apply Hnb].
Qed.

Lemma get32_zero o : 0 ≤ o → o + 4 ≤ BSIZE → get32 zero_block o = 0.
Proof.
  intros Ho Hb. unfold get32, byte_at, zero_block. rewrite !list_lookup_total_alt.
  rewrite !lookup_replicate_2 by (unfold BSIZE in *; lia). done.
Qed.

(** The indirect block is added, with no entries. *)
Lemma grow_indirect S L L' ip a n :
  disk_wf S L n → file_wf S L ip → allocates S L L' a → addr_at ip NDIRECT = 0 →
  grows S L L' ip (put_addr NDIRECT a ip) n ∧ addr_at (put_addr NDIRECT a ip) NDIRECT = a.
Proof.
  intros Hd [Hl Hf] Ha Hz. pose proof (al_range _ _ _ _ Ha). rewrite Hz in Hf.
  assert (∀ x, 0 ≤ x < 13 → addr_at (put_addr NDIRECT a ip) x = if x =? NDIRECT then a else addr_at ip x) as Eaddr.
  { intros x Hx. unfold put_addr. rewrite addr_at_insert by (unfold NDIRECT in *; lia).
    destruct (Z.eqb_spec x NDIRECT); case_decide; (done || unfold NDIRECT in *; lia). }
  assert (addr_at (put_addr NDIRECT a ip) NDIRECT = a) as Eind by (by rewrite Eaddr).
  assert (∀ x, 0 ≤ x < MAXFILE → blk_addr L ip x = blk_addr L' (put_addr NDIRECT a ip) x) as E.
  { intros x Hx. unfold blk_addr. rewrite Eind, Hz. destruct (Z.ltb_spec x NDIRECT).
    - rewrite Eaddr by (unfold NDIRECT in *; lia). destruct (Z.eqb_spec x NDIRECT); [lia|done].
    - destruct (Z.eqb_spec a 0); [lia|]. simpl.
      rewrite (al_zero _ _ _ _ Ha), get32_zero; unfold MAXFILE, NDIRECT, NINDIRECT, BSIZE in *; lia. }
  split; [|done]. split; [by eapply alloc_disk_wf|split|..].
  - unfold put_addr. simpl. unfold over; simpl. by rewrite length_insert.
  - rewrite Eind. eapply file_at_ext; [exact E|]. by apply (alloc_ind S L L' a Ha).
  - intros j Hj. unfold fbyte. rewrite <- (byte_of_ext _ _ _ j E Hj). by eapply alloc_byte_of.
  - by destruct ip.
  - intros x Hx _. by rewrite <- E.
  - intros b Hb Hnb Hib. destruct (alloc_data_block S L L' a Ha b Hb) as (? & ? & ?). rewrite Eind.
    split_and!; [done..| |done]. intros x Hx. rewrite <- E by done. by apply Hnb.
Qed.

(** Writing a block that no bitmap bit lives in. *)
Lemma upd_disk_wf S L c d n :
  disk_wf S L n → no_bitmap S c → length d = Z.to_nat BSIZE → disk_wf S (upd L c d) n.
Proof.
  intros [Hs Hl Hw Hb Hm Hz] Hn Hd. split; [done| |done|done| |].
  - intros b Hb'. unfold upd. case_decide; [done|auto].
  - intros b Hb'. rewrite used_upd_other by (try done; by apply Hb). auto.
  - rewrite used_upd_other by (done || lia). done.
Qed.
Lemma upd_data_block S L c d b :
  no_bitmap S c → data_block S L b → data_block S (upd L c d) b.
Proof.
  intros Hn (Hb & Hu & Hnb). split_and!; try done; [lia..|]. by rewrite used_upd_other by (done || lia).
Qed.
Lemma upd_file_at S L c d A ind : no_bitmap S c → file_at S L A ind → file_at S (upd L c d) A ind.
Proof.
  intros Hn [Hd Hi Hin]. split; [|done|].
  - intros x Hx HA. destruct (Hd x Hx HA). split; [by apply upd_data_block|done].
  - intros Hx. by apply upd_data_block, Hin.
Qed.
Lemma upd_has_free S L c d m : no_bitmap S c → has_free S L m → has_free S (upd L c d) m.
Proof.
  intros Hn (fl & ? & ? & Hfl). exists fl. split_and!; [done..|]. intros x Hx.
  destruct (Hfl x Hx). split; [done|]. by rewrite used_upd_other.
Qed.

(** An entry of the indirect block is filled. *)
Lemma grow_entry S L L' ip m a n :
  let ind := addr_at ip NDIRECT in
  let L2 := upd L' ind (put32 (L ind) (4 * (m - NDIRECT)) a) in
  disk_wf S L n → file_wf S L ip → allocates S L L' a → NDIRECT ≤ m < MAXFILE → ind ≠ 0 →
  sb_size S < 4294967296 → get32 (L ind) (4 * (m - NDIRECT)) = 0 →
  grows S L L2 ip ip n ∧ blk_addr L2 ip m = a.
Proof.
  intros ind L2 Hd [Hl Hf] Ha Hm Hi0 Hw Hz. pose proof (al_range _ _ _ _ Ha) as Har.
  pose proof (fa_ind _ _ _ _ Hf Hi0) as Hind. fold ind in Hind, Hf. pose proof Hind as (Hir & _ & Hin).
  pose proof (dw_length _ _ _ Hd ind ltac:(lia)) as Hlen.
  assert (∀ x, 0 ≤ x < MAXFILE → (if x =? m then a else blk_addr L ip x) = blk_addr L2 ip x) as E.
  { intros x Hx. unfold blk_addr. fold ind. destruct (Z.ltb_spec x NDIRECT).
    - destruct (Z.eqb_spec x m); [lia|done].
    - destruct (Z.eqb_spec ind 0); [done|]. unfold L2. rewrite upd_eq.
      unfold MAXFILE, NINDIRECT, BSIZE, NDIRECT in *. destruct (Z.eqb_spec x m) as [->|].
      + rewrite get32_put32_eq by lia. symmetry. apply u32_small. lia.
      + rewrite get32_put32_ne by lia. done. }
  assert (blk_addr L ip m = 0) as Hbm.
  { unfold blk_addr. fold ind. destruct (Z.ltb_spec m NDIRECT); [lia|]. destruct (Z.eqb_spec ind 0); [done|exact Hz]. }
  assert (0 ≤ m < MAXFILE) as Hm' by (unfold NDIRECT in *; lia).
  pose proof (alloc_add S L L' a Ha _ _ m Hf Hm' Hbm) as Hf'.
  split; [|rewrite <- E by done; by rewrite Z.eqb_refl]. split; [|split|..].
  - apply upd_disk_wf; [by eapply alloc_disk_wf|done|by rewrite length_put32].
  - done.
  - fold ind. eapply file_at_ext; [exact E|]. by apply upd_file_at.
  - intros j Hj. unfold fbyte. rewrite <- (byte_of_ext _ _ _ j E Hj).
    rewrite <- (alloc_add_byte S L L' a Ha _ ind m j Hf Hj Hbm). unfold byte_of.
    destruct (Z.eqb_spec (if j / BSIZE =? m then a else blk_addr L ip (j / BSIZE)) 0) as [|Hne]; [done|].
    assert (0 ≤ j / BSIZE < MAXFILE) as Hr by (unfold BSIZE, MAXFILE, NDIRECT, NINDIRECT in *; zlia).
    destruct (fa_data _ _ _ _ Hf' _ Hr Hne) as [_ Hni]. unfold L2. by rewrite upd_ne.
  - by destruct ip.
  - intros x Hx Hne. rewrite <- E by done. destruct (Z.eqb_spec x m); [by subst|done].
  - intros b Hb Hnb Hib. fold ind in Hib. destruct (alloc_data_block S L L' a Ha b Hb) as (? & ? & ?). fold ind.
    split_and!; [by apply upd_data_block|unfold L2; by rewrite upd_ne by done| |done].
    intros x Hx. rewrite <- E by done. destruct (Z.eqb_spec x m); [by intros ->|by apply Hnb].
Qed.

Lemma has_free_le S L m n : (m ≤ n)%nat → has_free S L n → has_free S L m.
Proof.
  intros Hmn (fl & Hnd & Hl & Hfl). exists (take m fl). split_and!.
  - eapply sublist_NoDup; [exact Hnd|apply sublist_take].
  - rewrite length_take. lia.
  - intros x Hx. apply Hfl. by apply (subseteq_take m fl).
Qed.

(** What a step of [bmap] leaves: the file grown, [j] allocations spent. *)
Record bmap_post (s : kstate) L ip (i : nat) (j k : nat) (L' : Z → block) (ip' : inode) (s' : kstate) : Prop := {
  bp_grows : grows (sb s) L L' ip ip' (disksize (hdisk s));
  bp_tx : T pid L' ∅ k s';
  bp_same : same_i s s';
  bp_icache : icache s' = <[i := ip']> (icache s);
  bp_free m : has_free (sb s) L (j + m) → has_free (sb s) L' m }.

(** The caller's file, on a well-formed disk, with no buffer held. *)
Record bmap_pre (s : kstate) L ip (i : nat) (k : nat) : Prop := {
  bq_tx : T pid L ∅ k s;
  bq_icache : icache s !! i = Some ip;
  bq_dev : i_dev ip = 1;
  bq_disk : disk_wf (sb s) L (disksize (hdisk s));
  bq_file : file_wf (sb s) L ip;
  bq_width : sb_size (sb s) < 4294967296 }.

Lemma holds_data_empty S L : holds_data S L ∅.
Proof. by intros i b d ?%lookup_empty_Some. Qed.
Lemma size_empty_held : (size (∅ : gmap nat (Z * block)) < MAXHELD)%nat.
Proof. rewrite map_size_empty. unfold MAXHELD. lia. Qed.

(** One allocation, stored in the inode. *)
Lemma wp_alloc_addr s L ip i k m (Q : Z → kstate → Prop) :
  bmap_pre s L ip i (2 + k) → has_free (sb s) L 1 →
  (∀ a L', allocates (sb s) L L' a → grows (sb s) L L' ip (put_addr m a ip) (disksize (hdisk s)) →
     ∀ s', bmap_post s L ip i 1 k L' (put_addr m a ip) s' → Q a s') →
  (∀ a L', allocates (sb s) L L' a → grows (sb s) L L' ip (put_addr m a ip) (disksize (hdisk s))) →
  wp (addr ← balloc 1; set_addr i m addr;; mret addr) s Q.
Proof.
  intros [Ht Hip Hd Hdw Hfw Hw] Hfree HQ Hg. wps.
  eapply wp_balloc_alloc; [exact Ht|done|done|apply holds_data_empty|apply size_empty_held|].
  intros a L' s1 Ha Ht1 E1. wps. unfold set_addr. apply wp_upd_inode. wps.
  apply (HQ a L' Ha (Hg a L' Ha)). split; [by apply Hg|by apply T_icache| | |].
  - transitivity s1; [by apply same_same_i|apply same_i_icache].
  - simpl. rewrite (same_icache _ _ E1). by rewrite (alter_lookup _ _ _ _ Hip).
  - intros n Hn. by apply (alloc_has_free (sb s) L L' a Ha).
Qed.

(** The first half of [bmap] for a block past the direct ones. *)
Lemma wp_bmap_ind s L ip i k (Q : Z → kstate → Prop) :
  bmap_pre s L ip i (2 + k) → has_free (sb s) L 1 →
  (∀ L' ip' s', bmap_post s L ip i 1 k L' ip' s' → addr_at ip' NDIRECT ≠ 0 → Q (addr_at ip' NDIRECT) s') →
  wp (if addr_at ip NDIRECT =? 0
      then addr ← balloc 1; set_addr i NDIRECT addr;; mret addr
      else mret (addr_at ip NDIRECT)) s Q.
Proof.
  intros Hq Hfree HQ. pose proof Hq as [Ht Hip Hd Hdw Hfw Hw].
  destruct (Z.eqb_spec (addr_at ip NDIRECT) 0) as [Ez|Ez].
  - eapply (wp_alloc_addr s L ip i k); [done|done| |].
    + intros a L' Ha Hg s' Hpost.
      destruct (grow_indirect (sb s) L L' ip a (disksize (hdisk s))) as [_ E]; [done..|].
      assert (Q (addr_at (put_addr NDIRECT a ip) NDIRECT) s') as HQ'; [|by rewrite E in HQ'].
      eapply HQ; [exact Hpost|]. rewrite E. pose proof (al_range _ _ _ _ Ha). lia.
    + intros a L' Ha. by apply grow_indirect.
  - wps. eapply HQ; [|done]. split; [by apply grows_refl|by eapply bl_le; [exact Ht|lia]|done|by rewrite list_insert_id|].
    intros m Hm. eapply has_free_le; [|exact Hm]. lia.
Qed.

(** The second half: the entry of the indirect block. *)
Lemma wp_bmap_entry s L ip i k m (Q : Z → kstate → Prop) :
  let ind := addr_at ip NDIRECT in
  bmap_pre s L ip i (3 + k) → has_free (sb s) L 1 → NDIRECT ≤ m < MAXFILE → ind ≠ 0 →
  (∀ L' s', bmap_post s L ip i 1 k L' ip s' → blk_addr L' ip m ≠ 0 → Q (blk_addr L' ip m) s') →
  wp (bp ← bread 1 ind;
      a ← bdata bp;
      addr ← (if get32 a (4 * (m - NDIRECT)) =? 0 then
                addr ← balloc 1;
                a ← bdata bp;
                set_bdata bp (put32 a (4 * (m - NDIRECT)) addr);;
                log_write bp;;
                mret addr
              else mret (get32 a (4 * (m - NDIRECT))));
      brelse bp;;
      mret addr) s Q.
Proof.
  intros ind [Ht Hip Hd Hdw Hfw Hw] Hfree Hm Hi0 HQ.
  pose proof (fa_ind _ _ _ _ (proj2 Hfw) Hi0) as (Hir & Hiu & Hin). fold ind in Hir, Hiu, Hin.
  pose proof (dw_size _ _ _ Hdw) as Hsz.
  assert (blk_addr L ip m = get32 (L ind) (4 * (m - NDIRECT))) as Eb.
  { unfold blk_addr. fold ind. destruct (Z.ltb_spec m NDIRECT); [lia|]. destruct (Z.eqb_spec ind 0); [done|]. done. }
  wps. eapply bl_bread; [exact Ht|lia|by intros j d ?%lookup_empty_Some|apply size_empty_held|].
  intros bp s1 _ Ht1 E1. wps. eapply bl_bdata; [exact Ht1|apply lookup_insert_eq|]. wps.
  destruct (Z.eqb_spec (get32 (L ind) (4 * (m - NDIRECT))) 0) as [Ez|Ez].
  - wps. eapply (wp_balloc_alloc L _ (1 + k) s1); [exact Ht1| | | | |].
    + by rewrite (same_sb _ _ E1), (same_disksize _ _ E1).
    + by rewrite (same_sb _ _ E1).
    + rewrite (same_sb _ _ E1). intros j b d [[_ [= <- _]]|[_ ?%lookup_empty_Some]]%lookup_insert_Some; done.
    + rewrite map_size_insert_None, map_size_empty by apply lookup_empty. unfold MAXHELD. lia.
    + rewrite (same_sb _ _ E1). intros a L' s2 Ha Ht2 E2. wps.
      eapply bl_bdata; [exact Ht2|apply lookup_insert_eq|]. wps.
      eapply bl_set_bdata; [exact Ht2|apply lookup_insert_eq|]. intros s3 Ht3 E3. rewrite insert_insert_eq in Ht3.
      wps. eapply bl_log_write; [exact Ht3|apply lookup_insert_eq|]. intros s4 Ht4 E4 _. wps.
      eapply (bl_brelse pid _ _ _ _ bp ind); [exact Ht4|by rewrite lookup_insert_eq, upd_eq|]. intros s5 Ht5 E5.
      rewrite delete_insert_eq, delete_empty in Ht5. wps.
      destruct (grow_entry (sb s) L L' ip m a (disksize (hdisk s))) as [Hg Ea]; [done..|].
      assert (same s s5) as Es by (transitivity s1; [done|]; transitivity s2; [done|]; transitivity s3; [done|]; by transitivity s4).
      fold ind in Hg, Ea. rewrite <- Ea. apply HQ.
      * split; [done|done|by apply same_same_i|rewrite (same_icache _ _ Es); by rewrite list_insert_id|].
        intros x Hx. apply upd_has_free; [done|]. by apply (alloc_has_free (sb s) L L' a Ha).
      * rewrite Ea. pose proof (al_range _ _ _ _ Ha). lia.
  - wps. eapply (bl_brelse pid _ _ _ _ bp ind); [exact Ht1|by rewrite lookup_insert_eq|]. intros s5 Ht5 E5.
    rewrite delete_insert_eq, delete_empty in Ht5. wps. rewrite <- Eb. apply HQ; [|by rewrite Eb].
    assert (same s s5) as Es by (by transitivity s1).
    split; [by apply grows_refl|by eapply bl_le; [exact Ht5|lia]|by apply same_same_i|rewrite (same_icache _ _ Es); by rewrite list_insert_id|].
    intros x Hx. eapply has_free_le; [|exact Hx]. lia.
Qed.

Lemma wp_bmap s L ip i k m (Q : Z → kstate → Prop) :
  bmap_pre s L ip i (5 + k) → has_free (sb s) L 2 → 0 ≤ m < MAXFILE →
  (∀ L' ip' s', bmap_post s L ip i 2 k L' ip' s' → blk_addr L' ip' m ≠ 0 → Q (blk_addr L' ip' m) s') →
  wp (bmap i m) s Q.
Proof.
  intros Hq Hfree Hm HQ. pose proof Hq as [Ht Hip Hd Hdw Hfw Hw].
  unfold bmap. wps. apply (wp_inode_at _ _ _ _ Hip). rewrite Hd.
  destruct (Z.ltb_spec m NDIRECT).
  - assert (blk_addr L ip m = addr_at ip m) as Eb by (unfold blk_addr; destruct (Z.ltb_spec m NDIRECT); [done|lia]).
    destruct (Z.eqb_spec (addr_at ip m) 0) as [Ez|Ez].
    + eapply (wp_alloc_addr s L ip i (3 + k) m); [done|by eapply has_free_le; [|exact Hfree]; lia| |].
      * intros a L' Ha Hg s' [? Ht' ? ? Hf'].
        destruct (grow_direct (sb s) L L' ip m a (disksize (hdisk s))) as [_ E]; [done..|lia|done|].
        assert (Q (blk_addr L' (put_addr m a ip) m) s') as HQ'; [|by rewrite E in HQ'].
        eapply HQ; [split; try done|rewrite E; pose proof (al_range _ _ _ _ Ha); lia].
        -- eapply bl_le; [exact Ht'|lia].
        -- intros x Hx. apply Hf'. eapply has_free_le; [|exact Hx]. lia.
      * intros a L' Ha. apply grow_direct; (done || lia).
    + wps. rewrite <- Eb in *. apply HQ; [|done].
      split; [by apply grows_refl|by eapply bl_le; [exact Ht|lia]|done|by rewrite list_insert_id|].
      intros x Hx. eapply has_free_le; [|exact Hx]. lia.
  - cbv zeta. destruct (Z.ltb_spec (m - NDIRECT) NINDIRECT); [|unfold MAXFILE in *; lia]. apply wp_bind.
    eapply (wp_bmap_ind s L ip i (3 + k)); [done|by eapply has_free_le; [|exact Hfree]; lia|].
    intros L1 ip1 s1 [Hg1 Ht1 Es1 Ei1 Hf1] Hi0.
    assert (i < length (icache s))%nat as Hlt by (by eapply lookup_lt_Some).
    apply (wp_bmap_entry s1 L1 ip1 i k m).
    + split; rewrite ?(same_i_sb _ _ Es1), ?(same_i_disksize _ _ Es1); [done| | |apply Hg1..|done].
      * rewrite Ei1. by apply list_lookup_insert_eq.
      * rewrite (gr_inode _ _ _ _ _ _ Hg1). done.
    + rewrite (same_i_sb _ _ Es1). by apply (Hf1 1%nat).
    + lia.
    + done.
    + intros L2 s2 [Hg2 Ht2 Es2 Ei2 Hf2] Ha. apply HQ; [|done].
      rewrite (same_i_sb _ _ Es1), (same_i_disksize _ _ Es1) in Hg2. rewrite (same_i_sb _ _ Es1) in Hf2.
      split; [by eapply grows_trans|done|by transitivity s1|rewrite Ei2, Ei1; by rewrite list_insert_insert_eq|].
      intros x Hx. apply Hf2. by apply (Hf1 (1 + x)%nat).
Qed.
End ops.
