(* ===== verification/Rdwr.v ===== *)
(** Reading and writing files: [readi] and [writei] of [fs.c]. *)
From S2P Require Export Content.

(** * Segments *)

Lemma slice_seqZ (d : list Z) (o m : Z) :
  0 ≤ o → 0 ≤ m → o + m ≤ Z.of_nat (length d) →
  slice d (Z.to_nat o) (Z.to_nat m) = byte_at d <$> seqZ o m.
Proof.
  intros Ho Hm Hl. apply list_eq. intros i. unfold slice. rewrite list_lookup_fmap.
  destruct (decide (Z.of_nat i < m)) as [Hi|Hi].
  - rewrite lookup_take_lt, lookup_drop by lia. rewrite lookup_seqZ_lt by lia. simpl.
    unfold byte_at. rewrite list_lookup_total_alt.
    replace (Z.to_nat (o + Z.of_nat i)) with (Z.to_nat o + i)%nat by lia.
    destruct (lookup_lt_is_Some_2 d (Z.to_nat o + i)) as [x Hx]; [lia|]. by rewrite Hx.
  - rewrite lookup_seqZ_ge by lia. apply lookup_ge_None_2. rewrite length_take. lia.
Qed.

(** The number of blocks that [n] bytes from offset [off] touch. *)
Definition chunks (off n : Z) : Z := if n =? 0 then 0 else (off mod BSIZE + n + (BSIZE - 1)) / BSIZE.
Definition chunk (off n : Z) : Z := Z.min n (BSIZE - off mod BSIZE).

Lemma chunk_step off n :
  0 ≤ off → 0 < n →
  0 < chunk off n ≤ n ∧ off mod BSIZE + chunk off n ≤ BSIZE
  ∧ 0 ≤ chunks (off + chunk off n) (n - chunk off n) ≤ chunks off n - 1.
Proof.
  intros Ho Hn. unfold chunk, chunks, BSIZE. destruct (Z.eqb_spec n 0); [lia|].
  destruct (Z.min_spec n (512 - off mod 512)) as [[Hlt ->]|[Hge ->]].
  - replace (n - n) with 0 by lia. simpl. zlia.
  - destruct (Z.eqb_spec (n - (512 - off mod 512)) 0); zlia.
Qed.
Lemma chunks_bound off n : 0 ≤ off → 0 ≤ n → 0 ≤ chunks off n ≤ n / BSIZE + 2.
Proof. intros. unfold chunks, BSIZE. destruct (Z.eqb_spec n 0); zlia. Qed.

(** Bytes of one block of the file. *)
Lemma chunk_block off j m : 0 ≤ off → off mod BSIZE + m ≤ BSIZE → off ≤ j < off + m →
  j / BSIZE = off / BSIZE ∧ j mod BSIZE = off mod BSIZE + (j - off).
Proof. unfold BSIZE. intros. zlia. Qed.

Section ops.
Context {T : Z → (Z → block) → gmap nat (Z * block) → nat → kstate → Prop} `{!BlockLayer T} (pid : Z).
Implicit Types (L : Z → block) (H : gmap nat (Z * block)).

(** The file has a block for each of the [n] bytes from [off]. *)
Definition allocated L ip (off n : Z) : Prop := ∀ j, off ≤ j < off + n → blk_addr L ip (j / BSIZE) ≠ 0.

Lemma wp_bmap_read s L ip i k m (Q : Z → kstate → Prop) :
  bmap_pre (T:=T) pid s L ip i k → 0 ≤ m < MAXFILE → blk_addr L ip m ≠ 0 →
  (∀ s', T pid L ∅ k s' → same s s' → Q (blk_addr L ip m) s') →
  wp (bmap i m) s Q.
Proof.
  intros [Ht Hip Hd Hdw Hfw Hw] Hm Hb HQ. unfold bmap. wps. apply (wp_inode_at _ _ _ _ Hip). rewrite Hd.
  unfold blk_addr in Hb, HQ. destruct (Z.ltb_spec m NDIRECT).
  - destruct (Z.eqb_spec (addr_at ip m) 0); [done|]. wps. by apply HQ.
  - cbv zeta. destruct (Z.ltb_spec (m - NDIRECT) NINDIRECT); [|unfold MAXFILE in *; lia].
    destruct (Z.eqb_spec (addr_at ip NDIRECT) 0) as [Ez|Ez]; [done|]. wps.
    destruct (fa_ind _ _ _ _ (proj2 Hfw) Ez) as (Hr & _). pose proof (dw_size _ _ _ Hdw).
    eapply bl_bread; [exact Ht|lia|by intros j d ?%lookup_empty_Some|apply size_empty_held|].
    intros bp s1 _ Ht1 E1. wps. eapply bl_bdata; [exact Ht1|apply lookup_insert_eq|].
    destruct (Z.eqb_spec (get32 (L (addr_at ip NDIRECT)) (4 * (m - NDIRECT))) 0); [done|]. wps.
    eapply bl_brelse; [exact Ht1|apply lookup_insert_eq|]. intros s2 Ht2 E2.
    rewrite delete_insert_eq, delete_empty in Ht2. wps. apply HQ; [done|by transitivity s1].
Qed.

Lemma bmap_pre_same s s' L ip i k :
  bmap_pre (T:=T) pid s L ip i k → T pid L ∅ k s' → same s s' → bmap_pre (T:=T) pid s' L ip i k.
Proof.
  intros [_ Hip Hd Hdw Hfw Hw] Ht Es.
  split; rewrite ?(same_sb _ _ Es), ?(same_icache _ _ Es), ?(same_disksize _ _ Es); done.
Qed.

Lemma data_range S L ip m n :
  disk_wf S L n → file_wf S L ip → 0 ≤ m < MAXFILE → blk_addr L ip m ≠ 0 →
  0 ≤ blk_addr L ip m < n ∧ length (L (blk_addr L ip m)) = Z.to_nat BSIZE.
Proof.
  intros Hd [_ Hf] Hm Hb. destruct (fa_data _ _ _ _ Hf m Hm Hb) as [(? & _ & _) _].
  pose proof (dw_size _ _ _ Hd). split; [lia|]. apply (dw_length _ _ _ Hd). lia.
Qed.

Lemma wp_readi_loop s L ip i k off n (Q : list Z → kstate → Prop) :
  bmap_pre (T:=T) pid s L ip i k → 0 ≤ off → 0 ≤ n → off + n ≤ MAXFILE * BSIZE → allocated L ip off n →
  (∀ s', T pid L ∅ k s' → same s s' → Q (fbyte L ip <$> seqZ off n) s') →
  wp (readi_loop i off n) s Q.
Proof.
  intros Hq Ho Hn Hmax Hall HQ. unfold readi_loop.
  apply (wp_iterM (λ fuel '(tot, o, dst) s', bmap_pre (T:=T) pid s' L ip i k ∧ same s s' ∧ 0 ≤ tot ≤ n
    ∧ o = off + tot ∧ dst = fbyte L ip <$> seqZ off tot ∧ chunks o (n - tot) < Z.of_nat fuel)).
  - pose proof (chunks_bound off n Ho Hn). rewrite Z.sub_0_r.
    assert (0 ≤ n / BSIZE) by (unfold BSIZE; zlia).
    split_and!; [done|done|lia|lia|lia|done|lia].
  - intros [[tot o] dst] s' (_ & _ & ? & -> & _ & Hc). pose proof (chunks_bound (off + tot) (n - tot)). lia.
  - intros fuel [[tot o] dst] s' (Hq' & Es & Ht & -> & -> & Hc).
    destruct (Z.ltb_spec tot n) as [Hlt|Hge].
    2:{ wps. replace tot with n by lia. apply HQ; [apply Hq'|done]. }
    set (o := off + tot) in *. destruct (chunk_step o (n - tot)) as (Hm & Hmo & Hch); [lia..|].
    change (Z.min (n - tot) (BSIZE - o mod BSIZE)) with (chunk o (n - tot)). set (m := chunk o (n - tot)) in *.
    assert (0 ≤ o / BSIZE < MAXFILE) as Hr by (unfold BSIZE, MAXFILE, NDIRECT, NINDIRECT in *; zlia).
    assert (blk_addr L ip (o / BSIZE) ≠ 0) as Hb by (apply Hall; lia).
    pose proof Hq' as [_ Hip Hd Hdw Hfw Hw]. destruct (data_range _ _ _ _ _ Hdw Hfw Hr Hb) as [Hrng Hlen].
    wps. apply (wp_inode_at _ _ _ _ Hip). wps. eapply wp_bmap_read; [exact Hq'|done|done|]. intros s1 Ht1 E1.
    wps. rewrite Hd.
    eapply bl_bread; [exact Ht1|rewrite (same_disksize _ _ E1); lia|by intros j d ?%lookup_empty_Some|apply size_empty_held|].
    intros bp s2 _ Ht2 E2. cbv zeta. wps. eapply bl_bdata; [exact Ht2|apply lookup_insert_eq|]. wps.
    eapply bl_brelse; [exact Ht2|apply lookup_insert_eq|]. intros s3 Ht3 E3.
    rewrite delete_insert_eq, delete_empty in Ht3. wps.
    assert (same s' s3) as Es3 by (transitivity s1; [done|]; by transitivity s2).
    split_and!; [by eapply bmap_pre_same|by transitivity s'|lia|lia| | |].
    + rewrite u32_small by (unfold MAXFILE, NDIRECT, NINDIRECT, BSIZE in *; lia). unfold o. lia.
    + rewrite seqZ_app, fmap_app by lia. f_equal. change (off + tot) with o.
      assert (0 ≤ o mod BSIZE) by (unfold BSIZE; zlia).
      rewrite slice_seqZ by (rewrite ?Hlen; unfold BSIZE in *; lia).
      apply list_eq. intros x. rewrite !list_lookup_fmap.
      destruct (decide (Z.of_nat x < m)) as [Hx|Hx]; [|by rewrite !lookup_seqZ_ge by lia].
      rewrite !lookup_seqZ_lt by lia. simpl. f_equal. unfold fbyte, byte_of.
      destruct (chunk_block o (o + Z.of_nat x) m) as [-> ->]; [lia|lia|lia|].
      destruct (Z.eqb_spec (blk_addr L ip (o / BSIZE)) 0); [done|]. f_equal. lia.
    + rewrite u32_small by (unfold MAXFILE, NDIRECT, NINDIRECT, BSIZE in *; lia).
      replace (n - (tot + m)) with (n - tot - m) by lia. lia.
Qed.

(** ** Writing *)

(** [n] bytes [src] from offset [off] over the bytes [f]. *)
Definition overwrite (f : Z → Z) (src : list Z) (off n j : Z) : Z :=
  if (off <=? j) && (j <? off + n) then src !!! Z.to_nat (j - off) else f j.

(** [L'], [ip'] is the file after the first [n] bytes of [src] have been written at [off]. *)
Record wrote S L L' ip ip' (src : list Z) (off n : Z) (dsz : Z) : Prop := {
  wr_disk : disk_wf S L' dsz;
  wr_file : file_wf S L' ip';
  wr_byte j : 0 ≤ j < MAXFILE * BSIZE → fbyte L' ip' j = overwrite (fbyte L ip) src off n j;
  wr_inode : ip' = ip <| i_addrs := i_addrs ip' |>;
  wr_alloc : allocated L' ip' off n;
  wr_keep m : 0 ≤ m < MAXFILE → blk_addr L ip m ≠ 0 → blk_addr L' ip' m ≠ 0;
  wr_other b : data_block S L b → (∀ m, 0 ≤ m < MAXFILE → blk_addr L ip m ≠ b) → addr_at ip NDIRECT ≠ b →
    data_block S L' b ∧ L' b = L b ∧ (∀ m, 0 ≤ m < MAXFILE → blk_addr L' ip' m ≠ b) ∧ addr_at ip' NDIRECT ≠ b }.

Lemma wrote_nothing S L ip src off dsz :
  disk_wf S L dsz → file_wf S L ip → wrote S L L ip ip src off 0 dsz.
Proof.
  intros. split; try done; [| |unfold allocated; lia].
  - intros j Hj. unfold overwrite. destruct (Z.leb_spec off j), (Z.ltb_spec j (off + 0)); simpl; done || lia.
  - by destruct ip.
Qed.

Lemma wrote_grows S L L1 L2 ip ip1 ip2 src off n dsz :
  wrote S L L1 ip ip1 src off n dsz → grows S L1 L2 ip1 ip2 dsz →
  0 ≤ off → 0 ≤ n → off + n ≤ MAXFILE * BSIZE →
  wrote S L L2 ip ip2 src off n dsz.
Proof.
  intros [D1 F1 B1 I1 A1 W1 O1] [D2 F2 B2 I2 K2 O2] Ho Hn Hmx. split; [done|done| | | | |].
  - intros j Hj. by rewrite B2, B1.
  - rewrite I2, I1. done.
  - intros j Hj. rewrite K2; [by apply A1| |by apply A1].
    unfold BSIZE, MAXFILE, NDIRECT, NINDIRECT in *. zlia.
  - intros m Hm Hne. rewrite K2; [by apply W1|done|by apply W1].
  - intros b Hb Hm Hi. destruct (O1 b Hb Hm Hi) as (Hb2 & E & Hn2 & Hi2).
    destruct (O2 b Hb2 Hn2 Hi2) as (? & E' & ? & ?). split_and!; [done|congruence|done..].
Qed.

(** Writing into an allocated block of the file. *)
Lemma upd_blk_addr S L ip a d m :
  file_wf S L ip → a ≠ addr_at ip NDIRECT → blk_addr (upd L a d) ip m = blk_addr L ip m.
Proof. intros Hf Ha. unfold blk_addr. by rewrite upd_ne by done. Qed.

Lemma wrote_block S L L1 ip ip1 src off tot m dsz :
  let o := off + tot in
  let a := blk_addr L1 ip1 (o / BSIZE) in
  let L2 := upd L1 a (splice (L1 a) (Z.to_nat (o mod BSIZE)) (slice src (Z.to_nat tot) (Z.to_nat m))) in
  wrote S L L1 ip ip1 src off tot dsz → 0 ≤ off → 0 ≤ tot → 0 < m → o mod BSIZE + m ≤ BSIZE →
  o / BSIZE < MAXFILE → tot + m ≤ Z.of_nat (length src) → a ≠ 0 →
  wrote S L L2 ip ip1 src off (tot + m) dsz.
Proof.
  intros o a L2 [D F B I A W O] Ho Ht Hm Hmo Hmax Hsrc Ha.
  assert (0 ≤ o / BSIZE < MAXFILE) as Hr by (unfold o, BSIZE in *; zlia).
  assert (0 ≤ o mod BSIZE) as Hpos by (unfold BSIZE; zlia).
  destruct (fa_data _ _ _ _ (proj2 F) _ Hr Ha) as [Hab Hai]. fold a in Hab, Hai. pose proof Hab as (Har & _ & Han).
  pose proof (dw_length _ _ _ D a ltac:(lia)) as Hlen.
  assert (length (slice src (Z.to_nat tot) (Z.to_nat m)) = Z.to_nat m) as Hsl.
  { unfold slice. rewrite length_take, length_drop. lia. }
  assert (Z.to_nat (o mod BSIZE) + length (slice src (Z.to_nat tot) (Z.to_nat m)) ≤ length (L1 a))%nat as Hfit
    by (rewrite Hsl, Hlen; unfold BSIZE in *; lia).
  assert (∀ x, blk_addr L2 ip1 x = blk_addr L1 ip1 x) as Eb by (intros; by eapply upd_blk_addr).
  split; [| | |done| |intros x Hx Hne; rewrite Eb; by apply W|].
  - apply upd_disk_wf; [done..|by rewrite length_splice].
  - split; [apply F|]. eapply file_at_ext; [intros; symmetry; apply Eb|]. apply upd_file_at; [done|apply F].
  - intros j Hj. unfold fbyte. rewrite (byte_of_ext _ _ (blk_addr L1 ip1)) by done.
    assert (0 ≤ j / BSIZE < MAXFILE) as Hjr by (unfold BSIZE, MAXFILE, NDIRECT, NINDIRECT in *; zlia).
    transitivity (if (o <=? j) && (j <? o + m) then src !!! Z.to_nat (j - off) else fbyte L1 ip1 j).
    + unfold fbyte, byte_of. destruct (decide (j / BSIZE = o / BSIZE)) as [E|E].
      * rewrite E. fold a. destruct (Z.eqb_spec a 0); [done|]. unfold L2. rewrite upd_eq.
        rewrite byte_at_splice by (done || (unfold BSIZE; zlia)). rewrite Hsl, !Z2Nat.id by lia.
        destruct (Z.leb_spec o j), (Z.ltb_spec j (o + m)); simpl;
          [rewrite decide_True by (unfold BSIZE in *; zlia)|rewrite decide_False by (unfold BSIZE in *; zlia); done..].
        unfold slice. rewrite !list_lookup_total_alt, lookup_take_lt, lookup_drop by (unfold BSIZE in *; zlia).
        do 2 f_equal. unfold o, BSIZE in *. zlia.
      * assert ((o <=? j) && (j <? o + m) = false) as ->.
        { apply andb_false_iff. rewrite Z.leb_gt, Z.ltb_ge. unfold BSIZE in *. zlia. }
        destruct (Z.eqb_spec (blk_addr L1 ip1 (j / BSIZE)) 0) as [|Hne]; [done|].
        unfold L2. rewrite upd_ne; [done|]. intros Ea. apply E, (fa_inj _ _ _ _ (proj2 F)); done.
    + unfold overwrite. rewrite B by done. unfold overwrite. unfold o.
      destruct (Z.leb_spec (off + tot) j), (Z.ltb_spec j (off + tot + m)), (Z.leb_spec off j), (Z.ltb_spec j (off + tot)),
        (Z.ltb_spec j (off + (tot + m))); simpl; done || lia.
  - intros j Hj. rewrite Eb. destruct (decide (j < off + tot)); [apply A; lia|].
    destruct (chunk_block o j m) as [-> _]; unfold o in *; [lia|lia|lia|done].
  - intros b Hb Hnm Hni. destruct (O b Hb Hnm Hni) as (Hb' & E & Hn' & Hi').
    split_and!; [by apply upd_data_block|unfold L2; rewrite upd_ne; [done|by intros ->; apply (Hn' _ Hr)]| |done].
    intros x Hx. rewrite Eb. by apply Hn'.
Qed.

Lemma wp_writei_loop s L ip i k src off n (Q : Z → kstate → Prop) :
  bmap_pre (T:=T) pid s L ip i (6 * Z.to_nat (chunks off n) + k) →
  has_free (sb s) L (2 * Z.to_nat (chunks off n)) →
  0 ≤ off → 0 ≤ n ≤ Z.of_nat (length src) → off + n ≤ MAXFILE * BSIZE →
  (∀ L' ip' s', wrote (sb s) L L' ip ip' src off n (disksize (hdisk s)) → T pid L' ∅ k s' →
     same_i s s' → icache s' = <[i := ip']> (icache s) → Q (off + n) s') →
  wp (writei_loop i src off n) s Q.
Proof.
  intros Hq Hfree Ho Hn Hmax HQ. unfold writei_loop.
  apply (wp_iterM (λ fuel '(tot, o) s', ∃ L1 ip1 c, wrote (sb s) L L1 ip ip1 src off tot (disksize (hdisk s))
    ∧ T pid L1 ∅ (6 * c + k) s' ∧ same_i s s' ∧ icache s' = <[i := ip1]> (icache s)
    ∧ has_free (sb s) L1 (2 * c) ∧ 0 ≤ tot ≤ n ∧ o = off + tot
    ∧ chunks o (n - tot) ≤ Z.of_nat c ∧ Z.of_nat c < Z.of_nat fuel)).
  - pose proof Hq as [Ht Hip Hd Hdw Hfw Hw]. pose proof (chunks_bound off n Ho ltac:(lia)).
    assert (0 ≤ n / BSIZE) by (unfold BSIZE; zlia).
    exists L, ip, (Z.to_nat (chunks off n)). rewrite Z.sub_0_r.
    split_and!; [by apply wrote_nothing|done|done|by rewrite list_insert_id|done|lia..].
  - intros [tot o] s' (L1 & ip1 & c & _ & _ & _ & _ & _ & _ & _ & _ & Hc). lia.
  - intros fuel [tot o] s' (L1 & ip1 & c & Hwr & Ht1 & Es & Ei & Hf1 & Ht & -> & Hc & Hcf).
    destruct (Z.ltb_spec tot n) as [Hlt|Hge].
    2:{ wps. replace tot with n in * by lia. eapply HQ; [exact Hwr|eapply bl_le; [exact Ht1|lia]|done|done]. }
    set (o := off + tot) in *. destruct (chunk_step o (n - tot)) as (Hm & Hmo & Hch); [lia..|].
    change (Z.min (n - tot) (BSIZE - o mod BSIZE)) with (chunk o (n - tot)). set (m := chunk o (n - tot)) in *.
    assert (0 ≤ o / BSIZE < MAXFILE) as Hr by (unfold BSIZE, MAXFILE, NDIRECT, NINDIRECT in *; zlia).
    pose proof Hq as [_ Hip Hd _ _ Hw].
    assert (i < length (icache s))%nat as Hil by (by eapply lookup_lt_Some).
    assert (icache s' !! i = Some ip1) as Hip1 by (rewrite Ei; by apply list_lookup_insert_eq).
    assert (i_dev ip1 = 1) as Hd1 by (by rewrite (wr_inode _ _ _ _ _ _ _ _ _ Hwr)).
    destruct c as [|c]; [lia|].
    wps. apply (wp_inode_at _ _ _ _ Hip1). wps. rewrite Hd1.
    eapply (wp_bmap pid s' L1 ip1 i (1 + (6 * c + k))).
    { split; rewrite ?(same_i_sb _ _ Es), ?(same_i_disksize _ _ Es); try done; [|apply Hwr..].
      eapply bl_le; [exact Ht1|lia]. }
    { rewrite (same_i_sb _ _ Es). eapply has_free_le; [|exact Hf1]. lia. }
    { done. }
    intros L2 ip2 s2 [Hg Ht2 Es2 Ei2 Hf2] Hb. rewrite (same_i_sb _ _ Es) in Hg, Hf2. rewrite (same_i_disksize _ _ Es) in Hg.
    pose proof (wrote_grows _ _ _ _ _ _ _ _ _ _ _ Hwr Hg Ho ltac:(lia) ltac:(lia)) as Hwr2.
    destruct (data_range _ _ _ _ _ (gr_disk _ _ _ _ _ _ Hg) (gr_file _ _ _ _ _ _ Hg) Hr Hb) as [Hrng Hlen].
    assert (same_i s s2) as Ess2 by (by transitivity s').
    wps. eapply bl_bread; [exact Ht2|rewrite (same_i_disksize _ _ Ess2); lia|by intros j d ?%lookup_empty_Some|apply size_empty_held|].
    intros bp s3 _ Ht3 E3. cbv zeta. wps. eapply bl_bdata; [exact Ht3|apply lookup_insert_eq|]. wps.
    eapply bl_set_bdata; [exact Ht3|apply lookup_insert_eq|]. intros s4 Ht4 E4. rewrite insert_insert_eq in Ht4.
    wps. eapply wp_log_release_bind; [exact Ht4|apply lookup_empty|]. intros s5 Ht5 E5. cbv beta. wps.
    assert (same s2 s5) as Es5 by (transitivity s3; [done|]; by transitivity s4).
    assert (wrote (sb s) L (upd L2 (blk_addr L2 ip2 (o / BSIZE)) (splice (L2 (blk_addr L2 ip2 (o / BSIZE))) (Z.to_nat (o mod BSIZE))
      (slice src (Z.to_nat tot) (Z.to_nat m)))) ip ip2 src off (tot + m) (disksize (hdisk s))) as Hwr5.
    { apply wrote_block; [exact Hwr2|done|lia|lia|exact Hmo|apply Hr|lia|exact Hb]. }
    eexists _, ip2, c. split_and!; [exact Hwr5|exact Ht5| | | |lia|lia| | |lia].
    + transitivity s2; [done|by apply same_same_i].
    + rewrite (same_icache _ _ Es5), Ei2, Ei, list_insert_insert_eq. done.
    + apply upd_has_free; [|apply Hf2; eapply has_free_le; [|exact Hf1]; lia].
      destruct (fa_data _ _ _ _ (proj2 (gr_file _ _ _ _ _ _ Hg)) _ Hr Hb) as [(_ & _ & ?) _]. done.
    + rewrite u32_small by (unfold MAXFILE, NDIRECT, NINDIRECT, BSIZE in *; lia). unfold o. lia.
    + rewrite u32_small by (unfold MAXFILE, NDIRECT, NINDIRECT, BSIZE in *; lia).
      replace (n - (tot + m)) with (n - tot - m) by lia. lia.
Qed.
End ops.

(** * The whole of [readi] and [writei] *)

(** A block that is in use but belongs to no file: the inode blocks are such. *)
Definition unowned S L ip (b : Z) : Prop :=
  data_block S L b ∧ (∀ m, 0 ≤ m < MAXFILE → blk_addr L ip m ≠ b) ∧ addr_at ip NDIRECT ≠ b.

(** The fields of the inode that [writei] does not compute fit their slots. *)
Definition shorts_fit (ip : inode) : Prop :=
  is_short (i_type ip) ∧ is_short (i_major ip) ∧ is_short (i_minor ip) ∧ is_short (i_nlink ip).

Lemma file_inode_fits S L ip :
  file_wf S L ip → sb_size S < 4294967296 → shorts_fit ip → is_uint (i_size ip) → dinode_fits (inode_di ip).
Proof.
  intros [Hl Hf] Hw (?&?&?&?) Hs. split; try done. apply Forall_lookup. intros k a Hk.
  pose proof (lookup_lt_Some _ _ _ Hk) as Hlt. simpl in Hk, Hlt. rewrite Hl in Hlt.
  assert (addr_at ip (Z.of_nat k) = a) as Ea.
  { unfold addr_at. rewrite Nat2Z.id. by apply list_lookup_total_correct. }
  destruct (decide (a = 0)) as [->|Ha0]; [by split|]. destruct (decide (k = 12%nat)) as [->|].
  - destruct (fa_ind _ _ _ _ Hf) as (? & _); change (addr_at ip NDIRECT) with (addr_at ip (Z.of_nat 12)) in *;
      rewrite Ea in *; [done|]. unfold is_uint. lia.
  - assert (blk_addr L ip (Z.of_nat k) = a) as Eb.
    { unfold blk_addr. destruct (Z.ltb_spec (Z.of_nat k) NDIRECT); [done|unfold NDIRECT in *; lia]. }
    destruct (fa_data _ _ _ _ Hf (Z.of_nat k)) as [(? & _) _]; rewrite ?Eb; [unfold MAXFILE, NDIRECT, NINDIRECT; lia|done|].
    rewrite Eb in *. unfold is_uint. lia.
Qed.

Lemma wrote_upd_other S L L1 ip ip1 src off n dsz b d :
  wrote S L L1 ip ip1 src off n dsz → unowned S L1 ip1 b → length d = Z.to_nat BSIZE →
  disk_wf S (upd L1 b d) dsz ∧ file_wf S (upd L1 b d) ip1
  ∧ ∀ j, 0 ≤ j < MAXFILE * BSIZE → fbyte (upd L1 b d) ip1 j = fbyte L1 ip1 j.
Proof.
  intros [D F B I A _ O] ((Hbr & Hbu & Hbn) & Hm & Hi) Hd.
  assert (∀ x, blk_addr (upd L1 b d) ip1 x = blk_addr L1 ip1 x) as Eb
    by (intros; eapply upd_blk_addr; [exact F|done]).
  split; [by apply upd_disk_wf|]. split.
  - split; [apply F|]. eapply file_at_ext; [intros; symmetry; apply Eb|]. apply upd_file_at; [done|apply F].
  - intros j Hj. unfold fbyte, byte_of. rewrite Eb.
    destruct (Z.eqb_spec (blk_addr L1 ip1 (j / BSIZE)) 0); [done|]. rewrite upd_ne; [done|].
    apply Hm. unfold BSIZE, MAXFILE, NDIRECT, NINDIRECT in *. zlia.
Qed.

Section whole.
Context {T : Z → (Z → block) → gmap nat (Z * block) → nat → kstate → Prop} `{!BlockLayer T} (pid : Z).
Context `{Devsw}.
Implicit Types (L : Z → block).

Lemma wp_readi s L ip i k off n (Q : Z * list Z → kstate → Prop) :
  let m := Z.min n (i_size ip - off) in
  bmap_pre (T:=T) pid s L ip i k → i_type ip ≠ T_DEV → 0 ≤ off ≤ i_size ip → i_size ip ≤ MAXFILE * BSIZE →
  0 ≤ n → off + n < 4294967296 → allocated L ip off m →
  (∀ s', T pid L ∅ k s' → same s s' → Q (m, fbyte L ip <$> seqZ off m) s') →
  wp (readi i off n) s Q.
Proof.
  intros m Hq Hty Ho Hsz Hn Hw Hall HQ. pose proof Hq as [Ht Hip Hd Hdw Hfw _].
  unfold readi. wps. apply (wp_inode_at _ _ _ _ Hip).
  destruct (Z.eqb_spec (i_type ip) T_DEV); [done|]. rewrite (u32_small (off + n)) by lia.
  destruct (Z.ltb_spec (i_size ip) off); [lia|]. destruct (Z.ltb_spec (off + n) off); [lia|]. cbn [orb]. cbv zeta.
  assert ((if i_size ip <? off + n then u32 (i_size ip - off) else n) = m) as ->.
  { unfold MAXFILE, NDIRECT, NINDIRECT, BSIZE in *. destruct (Z.ltb_spec (i_size ip) (off + n)); [rewrite u32_small|]; lia. }
  wps. eapply (wp_readi_loop pid s L ip i k off m); [done|lia|lia|lia|done|]. intros s' Ht' Es. wps.
  assert (i32 m = m) as -> by (unfold i32, MAXFILE, NDIRECT, NINDIRECT, BSIZE in *; zlia). by apply HQ.
Qed.

Lemma wp_writei s L ip i k src off n (Q : Z → kstate → Prop) :
  let c := Z.to_nat (chunks off n) in
  let S := sb s in
  let ib := IBLOCK (i_inum ip) S in
  bmap_pre (T:=T) pid s L ip i (6 * c + (1 + k)) → has_free S L (2 * c) →
  i_type ip ≠ T_DEV → 0 ≤ off ≤ i_size ip → i_size ip ≤ MAXFILE * BSIZE →
  0 ≤ n ≤ Z.of_nat (length src) → off + n ≤ MAXFILE * BSIZE → unowned S L ip ib → shorts_fit ip →
  (∀ L1 L' ip1 ip' s', wrote S L L1 ip ip1 src off n (disksize (hdisk s)) →
     ip' = ip1 <| i_size := Z.max (i_size ip) (off + n) |> →
     (L' = L1 ∧ i_size ip = Z.max (i_size ip) (off + n)
      ∨ L' = upd L1 ib (put_dinode (L1 ib) (dinode_off (i_inum ip)) (inode_di ip'))) →
     T pid L' ∅ k s' → icache s' = <[i := ip']> (icache s) → same_i s s' → Q n s') →
  wp (writei i src off n) s Q.
Proof.
  intros c S ib Hq Hfree Hty Ho Hsz Hn Hmax Hib Hsh HQ. pose proof Hq as [Ht Hip Hd Hdw Hfw Hw].
  assert (MAXFILE * BSIZE = 71680) as EM by done.
  unfold writei. wps. apply (wp_inode_at _ _ _ _ Hip).
  destruct (Z.eqb_spec (i_type ip) T_DEV); [done|]. rewrite (u32_small (off + n)) by lia.
  destruct (Z.ltb_spec (i_size ip) off); [lia|]. destruct (Z.ltb_spec (off + n) off); [lia|]. cbn [orb].
  destruct (Z.ltb_spec (MAXFILE * BSIZE) (off + n)); [lia|]. wps.
  eapply (wp_writei_loop pid s L ip i (1 + k) src off n); [done|done|lia|lia|lia|].
  intros L1 ip1 s1 Hwr Ht1 Es1 Ei1. assert (i < length (icache s))%nat as Hil by (by eapply lookup_lt_Some).
  assert (icache s1 !! i = Some ip1) as Hip1 by (rewrite Ei1; by apply list_lookup_insert_eq).
  pose proof (wr_inode _ _ _ _ _ _ _ _ _ Hwr) as Eip1.
  assert (i_size ip1 = i_size ip ∧ i_inum ip1 = i_inum ip ∧ i_dev ip1 = 1) as (Esz & Ein & Ed) by (by rewrite Eip1).
  wps. apply (wp_inode_at _ _ _ _ Hip1). rewrite Esz.
  assert (i32 n = n) as En by (unfold i32; zlia).
  destruct (Z.ltb_spec 0 n) as [Hn0|Hn0], (Z.ltb_spec (i_size ip) (off + n)) as [Hgrow|Hgrow]; cbn [andb].
  2-4: wps; rewrite En; apply (HQ L1 L1 ip1 ip1 s1); try done;
    [rewrite Z.max_l, <- Esz by lia; by destruct ip1|left; split; [done|lia]|eapply bl_le; [exact Ht1|lia]].
  set (ip2 := ip1 <| i_size := off + n |>).
  destruct (wr_other _ _ _ _ _ _ _ _ _ Hwr ib (proj1 Hib) (proj1 (proj2 Hib)) (proj2 (proj2 Hib))) as ((Hr & _) & _).
  pose proof (dw_size _ _ _ Hdw).
  wps. apply wp_upd_inode. set (s2 := over icache _ s1).
  assert (icache s2 = <[i := ip2]> (icache s)) as Ei2.
  { unfold s2. simpl. rewrite (alter_lookup _ _ _ _ Hip1), Ei1, list_insert_insert_eq. done. }
  eapply (wp_iupdate pid L1 ∅ k s2 i ip2).
  - apply T_icache. exact Ht1.
  - rewrite Ei2. by apply list_lookup_insert_eq.
  - done.
  - change (0 ≤ IBLOCK (i_inum ip1) (sb s1) < disksize (hdisk s1)).
    rewrite Ein, (same_i_sb _ _ Es1), (same_i_disksize _ _ Es1). fold S ib. lia.
  - by intros j d ?%lookup_empty_Some.
  - apply size_empty_held.
  - change (IBLOCK (i_inum ip2) (sb s2)) with (IBLOCK (i_inum ip1) (sb s1)).
    change (i_inum ip2) with (i_inum ip1). rewrite Ein, (same_i_sb _ _ Es1). fold S ib.
    intros s3 Ht3 E3. wps. rewrite En. eapply (HQ L1 _ ip1 ip2 s3 Hwr); [|by right|exact Ht3| |].
    + unfold ip2. by rewrite Z.max_r by lia.
    + by rewrite (same_icache _ _ E3).
    + transitivity s1; [done|]. transitivity s2; [apply same_i_icache|by apply same_same_i].
Qed.

(** What [writei] leaves: the file [L'], [ip'], whose inode is on the disk when its size has changed. *)
Record written S L L' ip ip' (src : list Z) (off n : Z) (dsz : Z) : Prop := {
  wn_disk : disk_wf S L' dsz;
  wn_file : file_wf S L' ip';
  wn_byte j : 0 ≤ j < MAXFILE * BSIZE → fbyte L' ip' j = overwrite (fbyte L ip) src off n j;
  wn_inode : ip' = ip <| i_addrs := i_addrs ip' |> <| i_size := Z.max (i_size ip) (off + n) |>;
  wn_alloc : allocated L' ip' off n;
  wn_keep m : 0 ≤ m < MAXFILE → blk_addr L ip m ≠ 0 → blk_addr L' ip' m ≠ 0;
  wn_dinode : i_size ip' ≠ i_size ip → dinode_of S L' (i_inum ip) = inode_di ip';
  wn_other b : unowned S L ip b → b ≠ IBLOCK (i_inum ip) S → L' b = L b }.

Lemma wp_writei_written s L ip i k src off n (Q : Z → kstate → Prop) :
  let c := Z.to_nat (chunks off n) in
  let S := sb s in
  let ib := IBLOCK (i_inum ip) S in
  bmap_pre (T:=T) pid s L ip i (6 * c + (1 + k)) → has_free S L (2 * c) →
  i_type ip ≠ T_DEV → 0 ≤ off ≤ i_size ip → i_size ip ≤ MAXFILE * BSIZE →
  0 ≤ n ≤ Z.of_nat (length src) → off + n ≤ MAXFILE * BSIZE → unowned S L ip ib → shorts_fit ip →
  (∀ L' ip' s', written S L L' ip ip' src off n (disksize (hdisk s)) →
     T pid L' ∅ k s' → icache s' = <[i := ip']> (icache s) → same_i s s' → Q n s') →
  wp (writei i src off n) s Q.
Proof.
  intros c S ib Hq Hfree Hty Ho Hsz Hn Hmax Hib Hsh HQ. assert (MAXFILE * BSIZE = 71680) as EM by done.
  eapply wp_writei; try done. intros L1 L' ip1 ip' s' Hwr Hip' Hcase Ht' Ei Es. apply (HQ L' ip' s'); [|done..].
  change (sb s) with S in Hwr. change (IBLOCK (i_inum ip) (sb s)) with ib in Hcase. pose proof Hwr as [D F B I A W O].
  assert (i_size ip' = Z.max (i_size ip) (off + n)) as Es' by (by rewrite Hip').
  assert (Hin : ip' = ip <| i_addrs := i_addrs ip' |> <| i_size := Z.max (i_size ip) (off + n) |>) by (rewrite Hip', I; done).
  assert (Hf' : ∀ Lx, file_wf S Lx ip1 → file_wf S Lx ip') by (intros Lx; by rewrite Hip').
  assert (Hb' : ∀ Lx j, fbyte Lx ip' j = fbyte Lx ip1 j) by (intros; by rewrite Hip').
  assert (Ha' : ∀ Lx m, blk_addr Lx ip' m = blk_addr Lx ip1 m) by (intros; by rewrite Hip').
  destruct Hcase as [[-> Esz]|HL'].
  - split; [done|by apply Hf'|intros j Hj; rewrite Hb'; by apply B|done|intros j Hj; rewrite Ha'; by apply A|intros m Hm Hne; rewrite Ha'; by apply W|congruence|].
    intros b (Hb1 & Hb2 & Hb3) _. by apply O.
  - destruct (O ib (proj1 Hib) (proj1 (proj2 Hib)) (proj2 (proj2 Hib))) as (Hd1 & _ & Hn1 & Hi1).
    pose proof Hd1 as (Hr & _ & _). pose proof (dw_length _ _ _ D ib ltac:(lia)) as Hlen.
    destruct (wrote_upd_other S L L1 ip ip1 src off n (disksize (hdisk s)) ib
      (put_dinode (L1 ib) (dinode_off (i_inum ip)) (inode_di ip'))) as (D' & F' & B').
    { exact Hwr. } { split; [exact Hd1|by split]. } { rewrite length_put_dinode; [done|apply dinode_off_bound]. }
    rewrite <- HL' in D', F', B'.
    assert (Hau : ∀ m, blk_addr L' ip' m = blk_addr L1 ip1 m) by (intros m; rewrite HL', Ha'; by eapply upd_blk_addr).
    split; [done|by apply Hf'|intros j Hj; rewrite Hb', B' by done; by apply B|done|intros j Hj; rewrite Hau; by apply A|intros m Hm Hne; rewrite Hau; by apply W| |].
    + intros _. unfold dinode_of. fold ib. rewrite HL', upd_eq. apply get_put_dinode; [done|].
      apply (file_inode_fits S L'); [by apply Hf'|apply Hq|rewrite Hip', I; exact Hsh|].
      rewrite Es'. unfold is_uint. lia.
    + intros b (Hb1 & Hb2 & Hb3) Hne. rewrite HL', upd_ne by done. by apply O.
Qed.
End whole.

(** * Properties *)

(** C6: [readi] returns the bytes of the file from [off], as many as asked for and the file
    has, and changes neither the file nor the disk; an offset past the end, or one that wraps
    around with the count, gives -1. *)
Theorem readi_correct `{Devsw} (pid : Z) (s : kstate) (L : Z → block) (ip : inode) (i k : nat) (off n : Z) :
  bmap_pre (T:=tx) pid s L ip i k → i_type ip ≠ T_DEV → is_uint off → is_uint n →
  i_size ip ≤ MAXFILE * BSIZE → allocated L ip 0 (i_size ip) →
  ∃ s', readi i off n s = Ok (if (i_size ip <? off) || (4294967296 <=? off + n) then (-1, [])
                              else (Z.min n (i_size ip - off), fbyte L ip <$> seqZ off (Z.min n (i_size ip - off)))) s'
    ∧ tx pid L ∅ k s' ∧ icache s' = icache s ∧ disksize (hdisk s') = disksize (hdisk s).
Proof.
  intros Hq Hty [Ho0 Ho] [Hn0 Hn] Hsz Hall. pose proof Hq as [Ht Hip _ _ _ _].
  destruct ((i_size ip <? off) || (4294967296 <=? off + n)) eqn:Eerr.
  - exists s. split; [|done]. unfold readi. mstep_with (inode_at_ok s i ip Hip).
    destruct (Z.eqb_spec (i_type ip) T_DEV); [done|].
    assert ((i_size ip <? off) || (u32 (off + n) <? off) = true) as ->; [|done].
    apply orb_true_iff. apply orb_true_iff in Eerr as [E|E%Z.leb_le]; [by left|right].
    apply Z.ltb_lt. unfold u32. zlia.
  - apply orb_false_iff in Eerr as [E1%Z.ltb_ge E2%Z.leb_gt].
    assert (wp (readi i off n) s (λ r s', r = (Z.min n (i_size ip - off), fbyte L ip <$> seqZ off (Z.min n (i_size ip - off)))
      ∧ tx pid L ∅ k s' ∧ same s s')) as Hwp.
    { eapply wp_readi; try done. intros j Hj. apply Hall. lia. }
    apply wp_elim in Hwp as (r & s' & E & -> & Ht' & Es). exists s'.
    split_and!; [done|done|by apply same_icache|by apply same_disksize].
Qed.

(** C5: [writei] replaces the [n] bytes from [off] by those of [src] and no others, extends the
    size if they end past it, and allocates what is missing; the file stays well-formed,
    blocks that belong to nobody or to other files keep their contents, and a changed size reaches
    the inode's slot on disk. *)
Theorem writei_correct `{Devsw} (pid : Z) (s : kstate) (L : Z → block) (ip : inode) (i k : nat)
    (src : list Z) (off n : Z) :
  let c := Z.to_nat (chunks off n) in
  let ib := IBLOCK (i_inum ip) (sb s) in
  bmap_pre (T:=tx) pid s L ip i (6 * c + (1 + k)) → has_free (sb s) L (2 * c) →
  i_type ip ≠ T_DEV → 0 ≤ off ≤ i_size ip → i_size ip ≤ MAXFILE * BSIZE →
  0 ≤ n ≤ Z.of_nat (length src) → off + n ≤ MAXFILE * BSIZE → unowned (sb s) L ip ib → shorts_fit ip →
  ∃ s' L' ip', writei i src off n s = Ok n s' ∧ tx pid L' ∅ k s' ∧ icache s' = <[i := ip']> (icache s)
    ∧ disk_wf (sb s) L' (disksize (hdisk s)) ∧ file_wf (sb s) L' ip'
    ∧ (∀ j, 0 ≤ j < MAXFILE * BSIZE → fbyte L' ip' j = overwrite (fbyte L ip) src off n j)
    ∧ i_size ip' = Z.max (i_size ip) (off + n)
    ∧ (i_size ip' ≠ i_size ip → dinode_of (sb s) L' (i_inum ip) = inode_di ip')
    ∧ (∀ b, unowned (sb s) L ip b → b ≠ ib → L' b = L b).
Proof.
  intros c ib Hq Hfree Hty Ho Hsz Hn Hmax Hib Hsh.
  assert (wp (writei i src off n) s (λ r s', ∃ L' ip', r = n ∧ written (sb s) L L' ip ip' src off n (disksize (hdisk s)) ∧
     tx pid L' ∅ k s' ∧ icache s' = <[i := ip']> (icache s))) as Hwp.
  { eapply wp_writei_written; try done. intros L' ip' s' ????. by exists L', ip'. }
  apply wp_elim in Hwp as (r & s' & E & L' & ip' & -> & [D F B I _ _ Di O] & Ht' & Ei).
  exists s', L', ip'. split_and!; try done. by rewrite I.
Qed.

(** ** A disk with one file to run the properties on *)

Lemma range_forallb (f : Z → bool) (n : nat) :
  forallb (λ k, f (Z.of_nat k)) (seq 0 n) = true → ∀ b, 0 ≤ b < Z.of_nat n → f b = true.
Proof.
  intros Hf b Hb. rewrite forallb_forall in Hf. rewrite <- (Z2Nat.id b) by lia. apply Hf.
  apply in_seq. lia.
Qed.

(** The bitmap marks blocks 0 to 60; inode 5, in block 32, owns block 60, which as a
    directory has the entries "a" and "b". *)
Definition dir_data : block :=
  le16 7 ++ 97 :: replicate 13 0 ++ le16 9 ++ 98 :: replicate 493 0.
Definition file_disk : disk :=
  mk_disk (<[60%nat := dir_data]>
    (<[58%nat := replicate 7 255 ++ 31 :: replicate 504 0]> (d_image demo_disk_inode))) [].
Definition file_sb : superblock := decode_sb (demo_sb 80 30).
Definition file_call : kstate := demo_fs file_disk (demo_inode 1).
Definition no_devices : Devsw := {| dev_read _ := None; dev_write _ := None |}.

Lemma file_disk_wf : disk_wf file_sb (disk_read file_disk) 80.
Proof.
  assert (∀ b, 0 ≤ b < 80 → BBLOCK b file_sb = 58) as E by (apply demo_BBLOCK).
  split.
  - by split.
  - intros b Hb. apply Nat.eqb_eq.
    by apply (range_forallb (λ b, (length (disk_read file_disk b) =? Z.to_nat BSIZE)%nat) 80); [vm_compute|].
  - by vm_compute.
  - intros b Hb. rewrite E by exact Hb. by split.
  - intros b Hb. rewrite E by exact Hb. by vm_compute.
  - by vm_compute.
Qed.

Section demo_file.
Context (ip : inode) (Ha : i_addrs ip = 60 :: replicate 12 0).
Local Abbreviation LF := (disk_read file_disk).

Lemma file_addrs n : 0 ≤ n < MAXFILE → n ≠ 0 → blk_addr LF ip n = 0.
Proof.
  intros Hn Hn0. unfold blk_addr, addr_at. rewrite Ha. destruct (Z.ltb_spec n NDIRECT); [|done].
  assert (Z.to_nat n ≠ 0 ∧ Z.to_nat n < 12)%nat as [H0 H1] by (unfold NDIRECT in *; lia).
  revert H0 H1. generalize (Z.to_nat n). intros m ??.
  do 12 (destruct m as [|m]; [done|]). lia.
Qed.
Lemma file_addr0 : blk_addr LF ip 0 = 60.
Proof. unfold blk_addr, addr_at. by rewrite Ha. Qed.
Lemma file_ind : addr_at ip NDIRECT = 0.
Proof. unfold addr_at. by rewrite Ha. Qed.

Lemma file_no_bitmap a : a ≠ 58 → no_bitmap file_sb a.
Proof. intros Hne y Hy. rewrite demo_BBLOCK by exact Hy. congruence. Qed.

Lemma file_demo_wf : file_wf file_sb LF ip.
Proof.
  split; [by rewrite Ha|]. rewrite file_ind. split; [| |by intros ?].
  - intros n Hn Hb. destruct (decide (n = 0)) as [->|]; [|by rewrite file_addrs in Hb].
    rewrite file_addr0. split; [|done]. split; [by split|]. split; [by vm_compute|by apply file_no_bitmap].
  - intros n m Hn Hm Hb E. destruct (decide (n = 0)) as [->|]; [|by rewrite file_addrs in Hb].
    destruct (decide (m = 0)) as [->|]; [done|]. by rewrite file_addr0, (file_addrs m) in E.
Qed.

Lemma file_pre k : (k ≤ 20)%nat → i_dev ip = 1 → bmap_pre (T:=tx) 1 (demo_fs file_disk ip) LF ip 0 k.
Proof.
  intros Hk Hd. split; [|done|done|apply file_disk_wf|apply file_demo_wf|by vm_compute].
  eapply (bl_le 1 _ _ _ 20); [apply in_call_tx|done].
Qed.

Lemma file_unowned : unowned file_sb LF ip 32.
Proof.
  split; [split; [by split|split; [by vm_compute|by apply file_no_bitmap]]|]. rewrite file_ind. split; [|done].
  intros m Hm. destruct (decide (m = 0)) as [->|]; [by rewrite file_addr0|]. by rewrite file_addrs.
Qed.

Lemma file_allocated n : n ≤ BSIZE → allocated LF ip 0 n.
Proof.
  intros Hn j Hj. replace (j / BSIZE) with 0 by (unfold BSIZE in *; zlia). by rewrite file_addr0.
Qed.
End demo_file.

Lemma readi_correct_witness :
  ∃ s', readi (H := no_devices) 0 90 20 file_call = Ok (10, fbyte (disk_read file_disk) (demo_inode 1) <$> seqZ 90 10) s'
    ∧ tx 1 (disk_read file_disk) ∅ 0 s' ∧ icache s' = icache file_call ∧ disksize (hdisk s') = disksize (hdisk file_call).
Proof.
  apply (@readi_correct no_devices 1 file_call (disk_read file_disk) (demo_inode 1) 0 0 90 20).
  - by apply file_pre; [|lia|].
  - done.
  - by split.
  - by split.
  - by vm_compute.
  - by apply file_allocated.
Defined.

(** Six bytes over the end of the file. *)
Lemma writei_correct_witness :
  ∃ s' L' ip', writei (H := no_devices) 0 [1; 2; 3; 4; 5; 6] 97 6 file_call = Ok 6 s'
    ∧ tx 1 L' ∅ 13 s' ∧ icache s' = <[0%nat := ip']> (icache file_call)
    ∧ disk_wf file_sb L' 80 ∧ file_wf file_sb L' ip'
    ∧ (∀ j, 0 ≤ j < MAXFILE * BSIZE →
         fbyte L' ip' j = overwrite (fbyte (disk_read file_disk) (demo_inode 1)) [1; 2; 3; 4; 5; 6] 97 6 j)
    ∧ i_size ip' = 103 ∧ (i_size ip' ≠ 100 → dinode_of file_sb L' 5 = inode_di ip')
    ∧ (∀ b, unowned file_sb (disk_read file_disk) (demo_inode 1) b → b ≠ 32 → L' b = disk_read file_disk b).
Proof.
  apply (@writei_correct no_devices 1 file_call (disk_read file_disk) (demo_inode 1) 0 13 [1; 2; 3; 4; 5; 6] 97 6).
  - apply file_pre; [done|vm_compute; lia|done].
  - exists [61; 62]. split; [|split; [done|]].
    + apply NoDup_cons. split; [|apply NoDup_singleton]. by rewrite list_elem_of_singleton.
    + intros x Hx. rewrite !elem_of_cons, elem_of_nil in Hx.
      destruct Hx as [->|[->|[]]]; (split; [by split|by vm_compute]).
  - done.
  - by split.
  - by vm_compute.
  - by split.
  - by vm_compute.
  - by apply file_unowned.
  - by repeat split.
Defined.
