(* ===== verification/Dir.v ===== *)
(** Path names and directories: [skipelem] and [dirlookup] of [fs.c]. *)
From S2P Require Export Rdwr.

(** * Paths *)

(** The elements of a path: what lies between slashes, empty elements left out. *)
Fixpoint split_slash (p : list Z) : list (list Z) :=
  match p with
  | [] => [[]]
  | c :: p =>
      if c =? 47 then [] :: split_slash p
      else match split_slash p with w :: ws => (c :: w) :: ws | [] => [[c]] end
  end.
Definition elems (path : list Z) : list (list Z) := filter (λ w, w ≠ []) (split_slash (cstr path)).

Lemma split_slash_nonempty p : split_slash p ≠ [].
Proof. destruct p as [|c p]; simpl; [done|]. destruct (c =? 47); [done|]. by destruct (split_slash p). Qed.

Lemma split_slash_app w p :
  Forall (λ c, c ≠ 47) w →
  split_slash (w ++ p) = match split_slash p with v :: vs => (w ++ v) :: vs | [] => [w] end.
Proof.
  induction 1 as [|c w Hc _ IH]; simpl.
  - pose proof (split_slash_nonempty p). by destruct (split_slash p).
  - destruct (Z.eqb_spec c 47); [done|]. rewrite IH. by destruct (split_slash p).
Qed.

Lemma elems_nil path : deref path = 0 → elems path = [].
Proof. intros E. unfold elems. rewrite cstr_unfold, E. done. Qed.

Lemma elems_slash path : elems (47 :: path) = elems path.
Proof. done. Qed.

Lemma elems_skip path : elems (skip_slashes path) = elems path.
Proof.
  induction path as [|c path IH]; [done|]. simpl. destruct (Z.eqb_spec c 47) as [->|]; [|done].
  by rewrite elems_slash.
Qed.

Lemma deref_skip path : deref (skip_slashes path) ≠ 47.
Proof. induction path as [|c path IH]; simpl; [done|]. by destruct (Z.eqb_spec c 47). Qed.

Lemma length_skip path : (length (skip_slashes path) ≤ length path)%nat.
Proof. induction path as [|c path IH]; simpl; [done|]. destruct (c =? 47); simpl; lia. Qed.

Lemma span_elem_spec path s rest :
  span_elem path = (s, rest) →
  path = s ++ rest ∧ Forall (λ c, c ≠ 47) s ∧ Forall (λ c, c ≠ 0) s ∧ (deref rest = 47 ∨ deref rest = 0).
Proof.
  revert s rest. induction path as [|c path IH]; simpl; intros s rest.
  { intros [= <- <-]. split_and!; [done|by constructor|by constructor|by right]. }
  destruct (Z.eqb_spec c 47) as [->|H47]; simpl.
  { intros [= <- <-]. split_and!; [done|by constructor|by constructor|by left]. }
  destruct (Z.eqb_spec c 0) as [->|H0]; simpl.
  { intros [= <- <-]. split_and!; [done|by constructor|by constructor|by right]. }
  destruct (span_elem path) as [s' rest'] eqn:E. intros [= <- <-].
  destruct (IH s' rest' eq_refl) as (-> & Hs & Hz & Hd). split_and!; [done|by constructor|by constructor|done].
Qed.

Lemma cstr_app w p : Forall (λ c, c ≠ 0) w → cstr (w ++ p) = w ++ cstr p.
Proof. induction 1 as [|c w Hc _ IH]; simpl; [done|]. destruct (Z.eqb_spec c 0); [done|]. by rewrite IH. Qed.

Lemma elems_span path s rest :
  span_elem path = (s, rest) → s ≠ [] → elems path = s :: elems rest.
Proof.
  intros E Hs. destruct (span_elem_spec _ _ _ E) as (-> & H47 & H0 & Hd).
  unfold elems. rewrite cstr_app, split_slash_app by done. rewrite (cstr_unfold rest).
  destruct Hd as [->| ->]; simpl.
  - rewrite filter_cons_True by (by rewrite app_nil_r). by rewrite app_nil_r.
  - rewrite filter_cons_True by (by rewrite app_nil_r). by rewrite app_nil_r.
Qed.

(** The name an array of [DIRSIZ] bytes holds. *)
Definition held_name (name : list Z) : list Z := cstr (take DIRSIZ name).

Lemma splice_0 (d bs : list Z) : (length bs ≤ length d)%nat → splice d 0 bs = bs ++ drop (length bs) d.
Proof.
  intros Hl. apply list_eq. intros i. rewrite lookup_splice by (simpl; lia). simpl.
  case_decide as Hi.
  - rewrite lookup_app_l by lia. by rewrite Nat.sub_0_r.
  - rewrite lookup_app_r, lookup_drop by lia. f_equal. lia.
Qed.

Lemma held_name_stored s name :
  length name = DIRSIZ → Forall (λ c, c ≠ 0) s →
  held_name (if (DIRSIZ <=? length s)%nat then splice name 0 (take DIRSIZ s) else splice name 0 (s ++ [0]))
    = take DIRSIZ s.
Proof.
  intros Hl Hs. unfold held_name. destruct (Nat.leb_spec DIRSIZ (length s)) as [Hle|Hlt].
  - rewrite splice_0 by (rewrite length_take; lia). rewrite take_app_le by (rewrite length_take; lia).
    rewrite take_take, Nat.min_id. rewrite <- (app_nil_r (take DIRSIZ s)) at 1.
    rewrite cstr_app by (by apply Forall_take). by rewrite app_nil_r.
  - rewrite splice_0 by (rewrite length_app; simpl; lia). rewrite (take_ge s) by lia.
    rewrite <- app_assoc, take_app_ge by lia. rewrite cstr_app by done.
    destruct (DIRSIZ - length s)%nat as [|m] eqn:E; [lia|]. simpl. by rewrite app_nil_r.
Qed.

Lemma length_splice_name name s :
  length (if (DIRSIZ <=? length s)%nat then splice name 0 (take DIRSIZ s) else splice name 0 (s ++ [0])) = length name.
Proof. destruct (DIRSIZ <=? length s)%nat; apply length_splice. Qed.

(** One step along a path. *)
Lemma skipelem_spec path name :
  length name = DIRSIZ →
  match skipelem path name with
  | None => elems path = []
  | Some (path', name') =>
      ∃ e, elems path = e :: elems path' ∧ held_name name' = take DIRSIZ e ∧ length name' = DIRSIZ
        ∧ (deref path' = 0 ↔ elems path' = []) ∧ (length path' < length path)%nat
  end.
Proof.
  intros Hl. unfold skipelem. pose proof (deref_skip path) as H47. pose proof (length_skip path) as Hlen.
  rewrite <- (elems_skip path). set (p := skip_slashes path) in *.
  destruct (Z.eqb_spec (deref p) 0) as [E0|E0]; [by apply elems_nil|].
  destruct (span_elem p) as [s rest] eqn:Es. destruct (span_elem_spec _ _ _ Es) as (Ep & Hs47 & Hs0 & Hd).
  assert (s ≠ []) as Hne.
  { intros ->. simpl in Ep. subst rest. destruct Hd as [Hd|Hd]; rewrite Hd in *; done. }
  exists s. rewrite (elems_span _ _ _ Es Hne), elems_skip.
  split_and!; [done|by apply held_name_stored|by rewrite length_splice_name| |].
  - split; [intros E; rewrite <- elems_skip; by apply elems_nil|].
    rewrite <- elems_skip. pose proof (deref_skip rest) as Hr. set (q := skip_slashes rest) in *.
    destruct (decide (deref q = 0)) as [|Hq]; [done|]. intros Eq.
    destruct (span_elem q) as [s2 r2] eqn:E2. destruct (span_elem_spec _ _ _ E2) as (Eq2 & _ & _ & Hd2).
    rewrite (elems_span _ _ _ E2) in Eq; [done|]. intros ->. simpl in Eq2. subst r2. destruct Hd2; done.
  - pose proof (length_skip rest). rewrite Ep, length_app in Hlen. destruct s; [done|]. simpl in Hlen. lia.
Qed.

(** The elements that repeated [skipelem] hands out, as the loop of [namex] does. *)
Fixpoint walk_names (fuel : nat) (path name : list Z) : list (list Z) :=
  match fuel with
  | O => []
  | S fuel =>
      match skipelem path name with
      | None => []
      | Some (path, name) => held_name name :: walk_names fuel path name
      end
  end.

Lemma walk_names_spec fuel path name :
  length name = DIRSIZ → (length path < fuel)%nat → walk_names fuel path name = take DIRSIZ <$> elems path.
Proof.
  revert path name. induction fuel as [|fuel IH]; intros path name Hl Hf; [lia|]. simpl.
  pose proof (skipelem_spec path name Hl) as Hs. destruct (skipelem path name) as [[path' name']|]; [|by rewrite Hs].
  destruct Hs as (e & -> & Hn & Hl' & _ & Hlt). rewrite Hn, fmap_cons, IH by (done || lia). done.
Qed.

(** * Directories *)

Section dir.
Context {T : Z → (Z → block) → gmap nat (Z * block) → nat → kstate → Prop} `{!BlockLayer T} (pid : Z).
Context `{Devsw}.
Implicit Types (L : Z → block).

(** The [k]-th entry of a directory. *)
Definition dirent L ip (k : Z) : list Z := fbyte L ip <$> seqZ (DIRENT_SIZE * k) DIRENT_SIZE.
Definition entry_matches L ip (name : list Z) (k : Z) : bool :=
  negb (de_inum (dirent L ip k) =? 0) && (namecmp name (de_name (dirent L ip k)) =? 0).

(** The first matching entry among those from [k] on, [n] of them. *)
Fixpoint find_entry L ip (name : list Z) (k : Z) (n : nat) : option Z :=
  match n with
  | O => None
  | S n => if entry_matches L ip name k then Some k else find_entry L ip name (k + 1) n
  end.

(** A directory: its size a whole number of entries, all of them allocated. *)
Record dir_wf L ip (n : nat) : Prop := {
  dir_type : i_type ip = T_DIR;
  dir_size : i_size ip = DIRENT_SIZE * Z.of_nat n;
  dir_max : i_size ip ≤ MAXFILE * BSIZE;
  dir_alloc : allocated L ip 0 (i_size ip) }.

Lemma wp_read_dirent s L ip i k n j (Q : Z * list Z → kstate → Prop) :
  bmap_pre (T:=T) pid s L ip i k → dir_wf L ip n → 0 ≤ j < Z.of_nat n →
  (∀ s', T pid L ∅ k s' → same s s' → Q (DIRENT_SIZE, dirent L ip j) s') →
  wp (readi i (DIRENT_SIZE * j) DIRENT_SIZE) s Q.
Proof.
  intros Hq [Hty Hsz Hmax Hall] Hj HQ. assert (MAXFILE * BSIZE = 71680) as EM by done.
  unfold DIRENT_SIZE in *.
  assert (Z.min 16 (i_size ip - 16 * j) = 16) as Em by lia.
  eapply wp_readi; [exact Hq|by rewrite Hty|lia|lia|done|lia| |].
  - intros x Hx. apply Hall. lia.
  - rewrite Em. intros s' Ht' Es. by apply HQ.
Qed.

Lemma wp_dirlookup s L ip i k n name (Q : option (nat * Z) → kstate → Prop) :
  bmap_pre (T:=T) pid s L ip i k → dir_wf L ip n →
  (∀ s', T pid L ∅ k s' → same s s' →
     match find_entry L ip name 0 n with
     | Some j => wp (iget 1 (de_inum (dirent L ip j))) s' (λ ip' s2, Q (Some (ip', DIRENT_SIZE * j)) s2)
     | None => Q None s'
     end) →
  wp (dirlookup i name) s Q.
Proof.
  intros Hq Hdir HQ. pose proof Hq as [_ Hip Hd _ _ _]. pose proof Hdir as [Hty Hsz Hmax _].
  assert (MAXFILE * BSIZE = 71680) as EM by done.
  unfold dirlookup. wps. apply (wp_inode_at _ _ _ _ Hip). rewrite Hty. simpl negb. cbv iota.
  apply (wp_iterM (λ fuel off s', ∃ j m, bmap_pre (T:=T) pid s' L ip i k ∧ same s s' ∧ off = DIRENT_SIZE * j ∧ 0 ≤ j
    ∧ Z.of_nat n = j + Z.of_nat m ∧ (m < fuel)%nat ∧ find_entry L ip name 0 n = find_entry L ip name j m)).
  - exists 0, n. unfold DIRENT_SIZE in *. split_and!; [done|done|lia|lia|lia| |done].
    rewrite Hsz. replace (16 * Z.of_nat n / 16) with (Z.of_nat n) by zlia. lia.
  - intros off s' (j & m & _ & _ & _ & _ & _ & ? & _). lia.
  - intros fuel off s' (j & m & Hq' & Es & -> & Hj & Hn & Hm & Ef).
    assert (icache s' !! i = Some ip) as Hip' by (by rewrite (same_icache _ _ Es)).
    wps. apply (wp_inode_at _ _ _ _ Hip'). rewrite Hsz. unfold DIRENT_SIZE at 1 2.
    destruct (Z.ltb_spec (16 * j) (16 * Z.of_nat n)) as [Hlt|Hge].
    + destruct m as [|m]; [lia|]. wps. eapply wp_read_dirent; [exact Hq'|exact Hdir|lia|].
      intros s1 Ht1 E1. rewrite Z.eqb_refl. simpl negb. cbv iota.
      assert (bmap_pre (T:=T) pid s1 L ip i k) as Hq1 by (by eapply bmap_pre_same).
      assert (same s s1) as Es1 by (by transitivity s').
      assert (u32 (DIRENT_SIZE * j + DIRENT_SIZE) = DIRENT_SIZE * (j + 1)) as Eu
        by (unfold DIRENT_SIZE in *; rewrite u32_small; lia).
      cbn [find_entry] in Ef. unfold entry_matches in Ef.
      destruct (Z.eqb_spec (de_inum (dirent L ip j)) 0) as [E0|E0]; [|destruct (Z.eqb_spec (namecmp name (de_name (dirent L ip j))) 0) as [En|En]].
      * wps. exists (j + 1), m. split_and!; [done|done|done|lia..|exact Ef].
      * specialize (HQ s1 Ht1 Es1). rewrite Ef in HQ. cbn [negb andb] in HQ. wps. rewrite Hd.
        eapply wp_mono; [exact HQ|]. intros ip' s2 HQ2. by wps.
      * wps. exists (j + 1), m. split_and!; [done|done|done|lia..|exact Ef].
    + destruct m as [|m]; [|lia]. wps. specialize (HQ s' (bq_tx _ _ _ _ _ _ Hq') Es). rewrite Ef in HQ. exact HQ.
Qed.
End dir.

Lemma find_entry_first L ip name k m n :
  k ≤ m < k + Z.of_nat n → entry_matches L ip name m = true → (∀ j, k ≤ j < m → entry_matches L ip name j = false) →
  find_entry L ip name k n = Some m.
Proof.
  revert k. induction n as [|n IH]; intros k Hm Hyes Hno; [lia|]. cbn [find_entry]. destruct (decide (k = m)) as [->|Hne]; [by rewrite Hyes|].
  rewrite Hno by lia. apply IH; [lia|done|]. intros j Hj. apply Hno. lia.
Qed.

Lemma find_entry_none L ip name k n : find_entry L ip name k n = None → ∀ j, k ≤ j < k + Z.of_nat n → entry_matches L ip name j = false.
Proof.
  revert k. induction n as [|n IH]; intros k E j Hj; [lia|]. cbn [find_entry] in E. destruct (entry_matches L ip name k) eqn:Em; [done|].
  destruct (decide (j = k)) as [->|]; [done|]. apply (IH (k + 1) E). lia.
Qed.

(** * Properties *)

(** C34: [skipelem] walks a path: repeated as the loop of [namex] repeats it, it ends and hands out
    exactly the elements between the slashes, in order, each truncated to [DIRSIZ]
    bytes; and at each step the rest of the path is empty just when the element was the last. *)
Theorem skipelem_walk (path name : list Z) :
  length name = DIRSIZ →
  walk_names (S (length path)) path name = take DIRSIZ <$> elems path
  ∧ match skipelem path name with
    | None => elems path = []
    | Some (path', name') =>
        ∃ e, elems path = e :: elems path' ∧ held_name name' = take DIRSIZ e
          ∧ (deref path' = 0 ↔ elems path' = []) ∧ (length path' < length path)%nat
    end.
Proof.
  intros Hl. split; [by apply walk_names_spec; [|lia]|].
  pose proof (skipelem_spec path name Hl) as Hs. destruct (skipelem path name) as [[path' name']|]; [|done].
  destruct Hs as (e & ? & ? & _ & ? & ?). by exists e.
Qed.

(** The path [///a//bb]. *)
Definition demo_path : list Z := [47; 47; 47; 97; 47; 47; 98; 98].
Lemma skipelem_walk_witness :
  walk_names (S (length demo_path)) demo_path (replicate 14 0) = take DIRSIZ <$> elems demo_path
  ∧ match skipelem demo_path (replicate 14 0) with
    | None => elems demo_path = []
    | Some (path', name') =>
        ∃ e, elems demo_path = e :: elems path' ∧ held_name name' = take DIRSIZ e
          ∧ (deref path' = 0 ↔ elems path' = []) ∧ (length path' < length demo_path)%nat
    end.
Proof. apply (skipelem_walk demo_path (replicate 14 0)). reflexivity. Defined.

(** C31: [dirlookup] finds the first entry in use whose name equals the one asked for in
    [DIRSIZ] bytes, returns its offset and a reference to its inode, and returns null if there is no such entry;
    it never panics on a well-formed directory and leaves the disk as it is. *)
Theorem dirlookup_correct `{Devsw} (pid : Z) (s : kstate) (L : Z → block) (ip : inode) (i k n : nat)
    (name : list Z) :
  bmap_pre (T:=tx) pid s L ip i k → dir_wf L ip n → icache_wf (icache s) →
  match find_entry L ip name 0 n with
  | None => ∃ s', dirlookup i name s = Ok None s' ∧ tx pid L ∅ k s' ∧ icache s' = icache s
  | Some j => ∀ i' ips, iget_result 1 (de_inum (dirent L ip j)) (icache s) = Some (i', ips) →
      ∃ s', dirlookup i name s = Ok (Some (i', DIRENT_SIZE * j)) s' ∧ tx pid L ∅ k s' ∧ icache s' = ips
  end.
Proof.
  intros Hq Hdir Hic. destruct (find_entry L ip name 0 n) as [j|] eqn:Ef.
  - intros i' ips Hg.
    assert (wp (dirlookup i name) s (λ r s', r = Some (i', DIRENT_SIZE * j) ∧ tx pid L ∅ k s' ∧ icache s' = ips)) as Hwp.
    { eapply wp_dirlookup; [exact Hq|exact Hdir|]. rewrite Ef. intros s' Ht' Es.
      destruct (bl_running pid L ∅ k s' Ht') as [Hh _].
      eapply wp_intro; [rewrite iget_ok|].
      - by rewrite (same_icache _ _ Es), Hg.
      - rewrite Hh. apply not_elem_of_nil.
      - rewrite (same_icache _ _ Es). apply Hic.
      - split_and!; [done|by apply T_icache|done]. }
    apply wp_elim in Hwp as (r & s' & E & -> & ? & ?). by exists s'.
  - assert (wp (dirlookup i name) s (λ r s', r = None ∧ tx pid L ∅ k s' ∧ icache s' = icache s)) as Hwp.
    { eapply wp_dirlookup; [exact Hq|exact Hdir|]. rewrite Ef. intros s' Ht' Es.
      split_and!; [done|done|by apply same_icache]. }
    apply wp_elim in Hwp as (r & s' & E & -> & ? & ?). by exists s'.
Qed.

(** The directory on the demonstration disk. *)
Definition demo_dir : inode := mk_inode 1 5 1 unlocked 1 T_DIR 0 0 1 32 (60 :: replicate 12 0).

Lemma dirlookup_correct_witness :
  ∃ s', dirlookup (H := no_devices) 0 [98] (demo_fs file_disk demo_dir) = Ok (Some (1%nat, 16)) s'
    ∧ tx 1 (disk_read file_disk) ∅ 20 s'
    ∧ icache s' = alter (fresh_inode 1 9) 1%nat (demo_slots demo_dir).
Proof.
  assert (find_entry (disk_read file_disk) demo_dir [98] 0 2 = Some 1) as Ef by (vm_compute; reflexivity).
  pose proof (@dirlookup_correct no_devices 1 (demo_fs file_disk demo_dir) (disk_read file_disk) demo_dir 0 20 2 [98]) as Hd.
  rewrite Ef in Hd. apply Hd.
  - by apply file_pre.
  - split; [done|done|by vm_compute|by apply file_allocated].
  - split; [done|apply Forall_cons; split; [done|by apply Forall_replicate]|].
    intros i j x y Hi Hj Hx Hy _ _.
    assert (∀ i x, demo_slots demo_dir !! i = Some x → 0 < i_ref x → i = 0%nat) as Hz.
    { intros [|m] z Hz Hr; [done|]. simpl in Hz. apply (lookup_replicate 49) in Hz as [-> _]. done. }
    by rewrite (Hz i x Hi Hx), (Hz j y Hj Hy).
  - vm_compute. reflexivity.
Defined.
