(* ===== verification/Kalloc.v ===== *)
(** The physical page allocator ([kalloc.c]) on the byte memory of the kernel: a list of
    free pages threaded through the pages themselves. *)
From S2P Require Export CString Bio.

(** * Addresses (memlayout.h, mmu.h) *)
Definition EXTMEM : Z := 1048576.
Definition PHYSTOP : Z := 234881024.
Definition DEVSPACE : Z := 4261412864.
Definition KERNBASE : Z := 2147483648.
Definition KERNLINK : Z := KERNBASE + EXTMEM.
Definition V2P (a : Z) : Z := u32 (a - KERNBASE).
Definition P2V (a : Z) : Z := u32 (a + KERNBASE).
Definition PGSIZE : Z := 4096.
Definition PGROUNDUP (sz : Z) : Z := Z.land (u32 (sz + PGSIZE - 1)) (Z.lnot (PGSIZE - 1)).
Definition PGROUNDDOWN (a : Z) : Z := Z.land a (Z.lnot (PGSIZE - 1)).

(** The addresses that the linker script [kernel.ld] gives to the symbols [end] and [data]. *)
Class Linker := { sym_end : Z; sym_data : Z }.

(** * Access to memory *)
Definition mem (s : kstate) : gmap Z Z := k_mem (km s).
Definition upd_mem (f : gmap Z Z → gmap Z Z) : K unit := modify (λ s, s <| km ::= λ k, k <| k_mem ::= f |> |>).
Definition load32 (a : Z) : K Z := gets (λ s, ld32 (mem s) a).
Definition store32 (a v : Z) : K unit := upd_mem (λ m, st32 m a v).
Definition set_freelist (r : Z) : K unit := modify (λ s, s <| km ::= λ k, k <| k_freelist := r |> |>).
Definition set_use_lock (b : bool) : K unit := modify (λ s, s <| km ::= λ k, k <| k_use_lock := b |> |>).

(** * kalloc.c *)
Section kalloc.
Context `{Linker}.

Definition kmem_lock : K unit := s ← get; if k_use_lock (km s) then acquire LKmem else mret tt.
Definition kmem_unlock : K unit := s ← get; if k_use_lock (km s) then release LKmem else mret tt.

Definition kfree (v : Z) : K unit :=
  if negb (v mod PGSIZE =? 0) || (v <? sym_end) || (PHYSTOP <=? V2P v) then panic "kfree" else
  upd_mem (λ m, memset m v 1 PGSIZE);;
  kmem_lock;;
  r ← gets (λ s, k_freelist (km s));
  store32 v r;;
  set_freelist v;;
  kmem_unlock.

Definition kalloc : K Z :=
  kmem_lock;;
  r ← gets (λ s, k_freelist (km s));
  (if negb (r =? 0) then next ← load32 r; set_freelist next else mret tt);;
  kmem_unlock;;
  mret r.

Definition freerange (vstart vend : Z) : K unit :=
  iterM (S (S (Z.to_nat ((vend - vstart) / PGSIZE)))) (λ p,
    if p + PGSIZE <=? vend then kfree p;; mret (inl (p + PGSIZE)) else mret (inr tt)) (PGROUNDUP vstart).

Definition kinit1 (vstart vend : Z) : K unit :=
  set_use_lock false;;
  freerange vstart vend.
Definition kinit2 (vstart vend : Z) : K unit :=
  freerange vstart vend;;
  set_use_lock true.
End kalloc.

(** * The free list *)

(** The pages [l] are chained from [r] on. *)
Fixpoint free_chain (m : gmap Z Z) (r : Z) (l : list Z) : Prop :=
  match l with
  | [] => r = 0
  | p :: l => r = p ∧ p ≠ 0 ∧ free_chain m (ld32 m p) l
  end.

Definition page_ok (n : Z) (p : Z) : Prop := p mod PGSIZE = 0 ∧ n ≤ p ∧ 0 < p < 4294967296 ∧ V2P p < PHYSTOP.

(** The allocator of [s] holds the pages [l], first to be allocated first. *)
Record kmem_rep `{Linker} (l : list Z) (s : kstate) : Prop := {
  kr_chain : free_chain (mem s) (k_freelist (km s)) l;
  kr_page : Forall (page_ok sym_end) l;
  kr_nodup : NoDup l }.

Section rep.
Context `{Linker}.

Lemma free_chain_ext m m' r l :
  (∀ p, p ∈ l → ld32 m' p = ld32 m p) → free_chain m r l → free_chain m' r l.
Proof.
  revert r. induction l as [|p l IH]; intros r E; [done|]. simpl. intros (-> & Hp & Hc).
  split_and!; [done|done|]. rewrite E by left. apply IH; [|done]. intros q Hq. apply E. by right.
Qed.

(** The lock is free if it is used at all. *)
Definition kmem_unlocked (s : kstate) : Prop := k_use_lock (km s) = true → LKmem ∉ held s.

Lemma kmem_lock_ok s :
  kmem_unlocked s → kmem_lock s = Ok tt (if k_use_lock (km s) then s <| held := LKmem :: held s |> else s).
Proof.
  intros Hn. unfold kmem_lock. mstep. destruct (k_use_lock (km s)) eqn:E; [|done]. by apply acquire_ok, Hn.
Qed.
Lemma kmem_unlock_ok s h :
  (k_use_lock (km s) = true → held s = LKmem :: h ∧ LKmem ∉ h) →
  kmem_unlock s = Ok tt (if k_use_lock (km s) then s <| held := h |> else s).
Proof.
  intros Hn. unfold kmem_unlock. mstep. destruct (k_use_lock (km s)) eqn:E; [|done].
  destruct (Hn eq_refl). by apply release_ok.
Qed.

(** Running the two operations. *)
Lemma kalloc_run s :
  let r := k_freelist (km s) in
  kmem_unlocked s →
  kalloc s = Ok r (if r =? 0 then s else s <| km := (km s) <| k_freelist := ld32 (mem s) r |> |>).
Proof.
  intros r Hn. unfold kalloc. mstep_with (kmem_lock_ok s Hn).
  set (s1 := if k_use_lock (km s) then _ else s).
  assert (km s1 = km s) as Ek by (unfold s1; by destruct (k_use_lock (km s))).
  mstep. rewrite Ek. fold r.
  set (s2 := if r =? 0 then s1 else s1 <| km := (km s1) <| k_freelist := ld32 (mem s1) r |> |>).
  assert ((if negb (r =? 0) then next ← load32 r; set_freelist next else mret tt) s1 = Ok tt s2) as E2.
  { unfold s2. destruct (r =? 0); [done|]. simpl. unfold load32. mstep. by destruct s1. }
  mstep_with E2. assert (k_use_lock (km s2) = k_use_lock (km s)) as Eu by (unfold s2; rewrite <- Ek; by destruct (r =? 0)).
  erewrite bind_ok; [|apply (kmem_unlock_ok s2 (held s))].
  - rewrite Eu. f_equal. unfold s2, s1, mem. unfold kmem_unlocked in Hn.
    destruct (k_use_lock (km s)), (r =? 0); by destruct s.
  - rewrite Eu. intros E. split; [|by apply Hn]. unfold s2, s1. rewrite E. by destruct (r =? 0).
Qed.

Lemma kfree_run s v :
  kmem_unlocked s → page_ok sym_end v →
  kfree v s = Ok tt (s <| km := mk_kmem (st32 (memset (mem s) v 1 PGSIZE) v (k_freelist (km s))) v (k_use_lock (km s)) |>).
Proof.
  intros Hn (Hal & Hend & Hr & Hphys). unfold kfree.
  rewrite Hal. destruct (Z.ltb_spec v sym_end); [lia|]. destruct (Z.leb_spec PHYSTOP (V2P v)); [lia|].
  change (negb (0 =? 0) || false || false) with false. cbv iota. unfold upd_mem. mstep.
  set (s1 := over km _ s). mstep_with (kmem_lock_ok s1 Hn).
  set (s2 := if k_use_lock (km s1) then _ else s1).
  assert (km s2 = km s1) as Ek by (unfold s2; by destruct (k_use_lock (km s1))).
  mstep. unfold store32, set_freelist. unfold upd_mem. repeat mstep. set (s3 := over km _ (over km _ s2)).
  assert (k_use_lock (km s3) = k_use_lock (km s)) as Eu by (change (k_use_lock (km s2) = k_use_lock (km s)); by rewrite Ek).
  rewrite (kmem_unlock_ok s3 (held s)).
  - rewrite Eu. f_equal. unfold s3, s2, s1, mem.
    change (k_use_lock (km (over km _ s))) with (k_use_lock (km s)).
    destruct s as [? ? ? ? ? ? ? ? ? ? ? ? [m fl ul] ? ?]. by destruct ul.
  - rewrite Eu. intros E. split; [|by apply Hn]. change (held s2 = LKmem :: held s). unfold s2.
    change (k_use_lock (km s1)) with (k_use_lock (km s)). by rewrite E.
Qed.

(** ** The list *)
Lemma page_mod p : p mod PGSIZE = 0 → ∃ q, p = PGSIZE * q.
Proof. intros E. exists (p / PGSIZE). unfold PGSIZE in *. zlia. Qed.

Lemma kalloc_rep l s :
  kmem_unlocked s → kmem_rep l s →
  match l with
  | [] => kalloc s = Ok 0 s
  | p :: l' => ∃ s', kalloc s = Ok p s' ∧ kmem_rep l' s' ∧ mem s' = mem s ∧ s' <| km := km s |> = s
  end.
Proof.
  intros Hn [Hc Hp Hnd]. rewrite (kalloc_run s Hn). destruct l as [|p l]; simpl in Hc.
  - by rewrite Hc.
  - destruct Hc as (-> & Hp0 & Hc). destruct (Z.eqb_spec p 0); [done|].
    eexists. split; [done|]. split; [|split; [done|by destruct s as [? ? ? ? ? ? ? ? ? ? ? ? [] ? ?]]].
    apply Forall_cons in Hp as [_ Hp]. apply NoDup_cons in Hnd as [_ Hnd]. by split.
Qed.

Lemma pages_apart p q i : p mod PGSIZE = 0 → q mod PGSIZE = 0 → p ≠ q → p ≤ i < p + PGSIZE → ¬ q ≤ i < q + PGSIZE.
Proof. unfold PGSIZE. intros. zlia. Qed.

Lemma kfree_rep l s v :
  kmem_unlocked s → kmem_rep l s → page_ok sym_end v → v ∉ l →
  ∃ s', kfree v s = Ok tt s' ∧ kmem_rep (v :: l) s' ∧ s' <| km := km s |> = s
    ∧ ∀ a, ¬ v ≤ a < v + PGSIZE → ld (mem s') a = ld (mem s) a.
Proof.
  intros Hn [Hc Hp Hnd] Hv Hvl. rewrite (kfree_run s v Hn Hv). eexists. split; [done|].
  pose proof Hv as (Hal & _ & Hr & _).
  set (m := st32 (memset (mem s) v 1 PGSIZE) v (k_freelist (km s))).
  assert (∀ a, ¬ v ≤ a < v + PGSIZE → ld m a = ld (mem s) a) as Hother.
  { intros a Ha. unfold m. rewrite ld_st32_ne by (unfold PGSIZE in *; lia).
    rewrite ld_memset by (unfold PGSIZE; lia). unfold PGSIZE in *. rewrite decide_False; [done|lia]. }
  assert (ld32 m v = k_freelist (km s)) as Ev.
  { unfold m. rewrite ld32_st32_eq. apply u32_small.
    destruct l as [|p l]; simpl in Hc; [lia|]. destruct Hc as (-> & _). apply Forall_cons in Hp as [(_&_&?&_) _]. lia. }
  split; [|split; [by destruct s as [? ? ? ? ? ? ? ? ? ? ? ? [] ? ?]|exact Hother]].
  split; simpl; [|by apply Forall_cons|by apply NoDup_cons].
  split_and!; [done|lia|]. change (free_chain m (ld32 m v) l). rewrite Ev.
  eapply free_chain_ext; [|exact Hc]. intros p Hpl.
  rewrite Forall_forall in Hp. destruct (Hp p Hpl) as (Halp & _). assert (p ≠ v) as Hne by (by intros ->).
  apply ld32_ext. intros i Hi. apply Hother. unfold PGSIZE in *. zlia.
Qed.

(** ** Rounding *)
Lemma PGROUNDDOWN_eq a : PGROUNDDOWN a = a - a mod PGSIZE.
Proof.
  unfold PGROUNDDOWN. rewrite <- Z.ldiff_land. change (PGSIZE - 1) with (Z.ones 12).
  rewrite Z.ldiff_ones_r by lia. rewrite Z.shiftl_mul_pow2, Z.shiftr_div_pow2 by lia.
  unfold PGSIZE. change (2 ^ 12) with 4096. zlia.
Qed.
Lemma PGROUNDUP_eq a : 0 ≤ a → a + PGSIZE - 1 < 4294967296 → PGROUNDUP a = (a + PGSIZE - 1) / PGSIZE * PGSIZE.
Proof.
  intros. unfold PGROUNDUP. rewrite u32_small by (unfold PGSIZE in *; lia).
  change (PGROUNDDOWN (a + PGSIZE - 1) = (a + PGSIZE - 1) / PGSIZE * PGSIZE).
  rewrite PGROUNDDOWN_eq. unfold PGSIZE. zlia.
Qed.

(** ** Filling the list *)
Definition pages_from (p : Z) (n : nat) : list Z := (λ k, p + PGSIZE * Z.of_nat k) <$> seq 0 n.

Lemma elem_of_pages q p n : q ∈ pages_from p n ↔ ∃ k, q = p + PGSIZE * k ∧ 0 ≤ k < Z.of_nat n.
Proof.
  unfold pages_from. rewrite list_elem_of_fmap. setoid_rewrite elem_of_seq. split.
  - intros (k & -> & ?). exists (Z.of_nat k). split; [done|lia].
  - intros (k & -> & ?). exists (Z.to_nat k). rewrite Z2Nat.id by lia. split; [done|lia].
Qed.

Lemma freerange_loop vend p n l s fuel :
  kmem_unlocked s → kmem_rep l s →
  (∀ q, q ∈ pages_from p n → page_ok sym_end q ∧ q ∉ l) →
  p + PGSIZE * Z.of_nat n ≤ vend < p + PGSIZE * Z.of_nat n + PGSIZE → (n < fuel)%nat →
  ∃ s', iterM fuel (λ p, if p + PGSIZE <=? vend then kfree p;; mret (inl (p + PGSIZE)) else mret (inr tt)) p s
      = Ok tt s'
    ∧ kmem_rep (rev (pages_from p n) ++ l) s' ∧ kmem_unlocked s' ∧ s' <| km := km s |> = s
    ∧ k_use_lock (km s') = k_use_lock (km s).
Proof.
  revert p n l s. induction fuel as [|fuel IH]; intros p n l s Hn Hr Hp Hv Hf; [lia|]. rewrite iterM_S.
  destruct n as [|n].
  - destruct (Z.leb_spec (p + PGSIZE) vend); [unfold PGSIZE in *; lia|]. mstep. exists s. split_and!; try done. by destruct s.
  - destruct (Z.leb_spec (p + PGSIZE) vend); [|unfold PGSIZE in *; lia].
    assert (∀ q, q ∈ pages_from (p + PGSIZE) n → q ∈ pages_from p (S n)) as Hsub.
    { intros q. rewrite !elem_of_pages. intros (k & -> & ?). exists (k + 1). unfold PGSIZE. split; lia. }
    assert (p ∈ pages_from p (S n)) as Hpin.
    { apply elem_of_pages. exists 0. unfold PGSIZE. split; lia. }
    destruct (Hp p Hpin) as [Hpok Hpl].
    destruct (kfree_rep l s p Hn Hr Hpok Hpl) as (s1 & E1 & Hr1 & Es1 & _).
    rewrite bind_assoc. mstep_with E1. mstep.
    assert (held s1 = held s) as Eh by (rewrite <- Es1; done).
    assert (k_use_lock (km s1) = k_use_lock (km s)) as Eu.
    { rewrite (kfree_run s p Hn Hpok) in E1. by injection E1 as <-. }
    destruct (IH (p + PGSIZE) n (p :: l) s1) as (s2 & E2 & Hr2 & Hn2 & Es2 & Eu2).
    + unfold kmem_unlocked. rewrite Eh, Eu. exact Hn.
    + exact Hr1.
    + intros q Hq. destruct (Hp q (Hsub q Hq)) as [Hqok Hql]. split; [done|]. apply not_elem_of_cons. split; [|done].
      apply elem_of_pages in Hq as (k & -> & ?). unfold PGSIZE. lia.
    + unfold PGSIZE in *. lia.
    + lia.
    + exists s2. split_and!; [done| |done| |congruence].
      * assert (pages_from p (S n) = p :: pages_from (p + PGSIZE) n) as ->.
        { unfold pages_from. rewrite <- cons_seq, fmap_cons. rewrite <- fmap_S_seq, <- list_fmap_compose.
          f_equal; [unfold PGSIZE; lia|]. apply list_fmap_ext. intros i x _. simpl. unfold PGSIZE. lia. }
        simpl. by rewrite <- app_assoc.
      * transitivity (s1 <| km := km s |>); [|exact Es1]. rewrite <- Es2 at 1. by destruct s2.
Qed.
End rep.

(** * Properties *)

(** [kalloc] returns the page at the head of the free list, which then is not in the
    list any more, without changing memory; it returns 0 exactly when the list is empty. *)
Theorem kalloc_correct `{Linker} (l : list Z) (s : kstate) :
  kmem_unlocked s → kmem_rep l s →
  match l with
  | [] => kalloc s = Ok 0 s
  | p :: l' => ∃ s', kalloc s = Ok p s' ∧ p ≠ 0 ∧ p ∉ l' ∧ kmem_rep l' s' ∧ mem s' = mem s ∧ s' <| km := km s |> = s
  end.
Proof.
  intros Hn Hr. pose proof (kalloc_rep l s Hn Hr) as Hk. destruct l as [|p l]; [done|].
  destruct Hk as (s' & E & Hr' & Hm & Hs). exists s'. destruct Hr as [(_ & Hp & _) _ [? _]%NoDup_cons]. done.
Qed.

(** [kfree] of a page that is in range and not free makes it the first of the free list
    and changes no byte outside the page; an address that is not a page's, lies in the kernel
    image or past the physical memory panics. *)
Theorem kfree_correct `{Linker} (l : list Z) (s : kstate) (v : Z) :
  kmem_unlocked s → kmem_rep l s → 0 < v < 4294967296 → v ∉ l →
  if bool_decide (v mod PGSIZE = 0 ∧ sym_end ≤ v ∧ V2P v < PHYSTOP)
  then ∃ s', kfree v s = Ok tt s' ∧ kmem_rep (v :: l) s' ∧ s' <| km := km s |> = s
         ∧ ∀ a, ¬ v ≤ a < v + PGSIZE → ld (mem s') a = ld (mem s) a
  else kfree v s = Panic "kfree".
Proof.
  intros Hn Hr Hv Hl. case_bool_decide as Hok.
  - apply kfree_rep; try done. by destruct Hok as (? & ? & ?).
  - unfold kfree. destruct (Z.eqb_spec (v mod PGSIZE) 0); [|done].
    destruct (Z.ltb_spec v sym_end); [done|]. destruct (Z.leb_spec PHYSTOP (V2P v)); [done|].
    destruct Hok. split_and!; [done|lia|lia].
Qed.

(** [kinit1] puts every whole page between [vstart] and [vend] on the free list, each
    once. *)
Theorem kinit1_correct `{Linker} (s : kstate) (vstart vend : Z) :
  let p := PGROUNDUP vstart in
  let n := Z.to_nat ((vend - p) / PGSIZE) in
  k_freelist (km s) = 0 → KERNBASE ≤ vstart → sym_end ≤ vstart → vstart ≤ vend → p ≤ vend → vend ≤ KERNBASE + PHYSTOP →
  ∃ s', kinit1 vstart vend s = Ok tt s' ∧ kmem_rep (rev (pages_from p n)) s'.
Proof.
  intros p n Hf Hbase Hend Hle Hpv Hvend. unfold kinit1, set_use_lock. mstep. set (s1 := over km _ s).
  assert (KERNBASE + PHYSTOP = 2382364672 ∧ KERNBASE = 2147483648) as [EK EB] by done.
  assert (p = (vstart + PGSIZE - 1) / PGSIZE * PGSIZE) as Ep.
  { unfold p. apply PGROUNDUP_eq; unfold PGSIZE; lia. }
  destruct (freerange_loop vend p n [] s1 (S (S (Z.to_nat ((vend - vstart) / PGSIZE))))) as (s' & E & Hr & _).
  - by intros ?.
  - split; [exact Hf|by apply Forall_nil|by apply NoDup_nil].
  - intros q (k & -> & Hk)%elem_of_pages. split; [|by apply not_elem_of_nil]. unfold n in Hk.
    assert (vstart ≤ p) by (rewrite Ep; unfold PGSIZE; zlia).
    assert (p + PGSIZE * k + PGSIZE ≤ vend) by (clear Ep; unfold PGSIZE in *; zlia).
    split; [rewrite Ep; unfold PGSIZE; zlia|]. unfold PGSIZE in *. split; [lia|]. split; [lia|].
    unfold V2P. rewrite u32_small by lia. lia.
  - unfold n. rewrite Z2Nat.id by (apply Z.div_pos; [lia|done]). clear Ep. unfold PGSIZE. zlia.
  - unfold n. rewrite Ep. unfold PGSIZE. zlia.
  - exists s'. split; [exact E|]. by rewrite app_nil_r in Hr.
Qed.

(** A kernel image of 1 MB at [KERNLINK], and two free pages. *)
Definition demo_linker : Linker := {| sym_end := KERNLINK + 1048576; sym_data := KERNLINK + 524288 |}.
Definition demo_mem0 : kstate := reboot (mk_disk [] []).
Definition page0 : Z := KERNLINK + 1048576.
Definition demo_free : kstate :=
  match kinit1 (H := demo_linker) page0 (page0 + 8192) demo_mem0 with Ok _ s => s | _ => demo_mem0 end.

Lemma kinit1_correct_witness :
  ∃ s', kinit1 (H := demo_linker) page0 (page0 + 8192) demo_mem0 = Ok tt s'
    ∧ kmem_rep (H := demo_linker) (rev (pages_from page0 2)) s'.
Proof. by apply (@kinit1_correct demo_linker demo_mem0 page0 (page0 + 8192)). Defined.

Lemma demo_free_rep : kmem_unlocked demo_free ∧ kmem_rep (H := demo_linker) [page0 + 4096; page0] demo_free.
Proof.
  split; [by vm_compute|]. split; [by vm_compute|..].
  - by repeat (apply Forall_cons; split; [by vm_compute|]).
  - apply NoDup_cons. split; [|apply NoDup_singleton]. by rewrite list_elem_of_singleton.
Qed.

Lemma kalloc_correct_witness :
  ∃ s', kalloc demo_free = Ok (page0 + 4096) s' ∧ page0 + 4096 ≠ 0 ∧ page0 + 4096 ∉ [page0]
    ∧ kmem_rep (H := demo_linker) [page0] s' ∧ mem s' = mem demo_free ∧ s' <| km := km demo_free |> = demo_free.
Proof. apply (@kalloc_correct demo_linker [page0 + 4096; page0]); apply demo_free_rep. Defined.

Lemma kfree_correct_witness :
  ∃ s', kfree (H := demo_linker) (page0 + 8192) demo_free = Ok tt s'
    ∧ kmem_rep (H := demo_linker) [page0 + 8192; page0 + 4096; page0] s' ∧ s' <| km := km demo_free |> = demo_free
    ∧ ∀ a, ¬ page0 + 8192 ≤ a < page0 + 8192 + PGSIZE → ld (mem s') a = ld (mem demo_free) a.
Proof.
  apply (@kfree_correct demo_linker [page0 + 4096; page0] demo_free (page0 + 8192)).
  - apply demo_free_rep.
  - apply demo_free_rep.
  - by split.
  - rewrite !not_elem_of_cons. split_and!; [done|done|apply not_elem_of_nil].
Defined.
