(* ===== verification/Vm.v ===== *)
(** Page tables ([vm.c]): two-level tables in the byte memory of the kernel, as the x86
    reads them. *)
From S2P Require Export Kalloc Fs.

(** * mmu.h *)
Definition PDX (va : Z) : Z := Z.land (Z.shiftr va 22) 1023.
Definition PTX (va : Z) : Z := Z.land (Z.shiftr va 12) 1023.
Definition PGADDR (d t o : Z) : Z := u32 (Z.lor (Z.lor (Z.shiftl d 22) (Z.shiftl t 12)) o).
Definition NPDENTRIES : nat := 1024.
Definition PTE_P : Z := 1.
Definition PTE_W : Z := 2.
Definition PTE_U : Z := 4.
Definition PTE_ADDR (pte : Z) : Z := Z.land pte (Z.lnot 4095).
Definition PTE_FLAGS (pte : Z) : Z := Z.land pte 4095.
Definition present (pte : Z) : bool := negb (Z.land pte PTE_P =? 0).

(** * What the hardware does with a page table *)

(** The page table entry for [va], if there is a page table for it. *)
Definition pte_addr (m : gmap Z Z) (pgdir va : Z) : option Z :=
  let pde := ld32 m (u32 (pgdir + 4 * PDX va)) in
  if present pde then Some (u32 (P2V (PTE_ADDR pde) + 4 * PTX va)) else None.

(** The entry itself, 0 if there is none. *)
Definition pte_of (m : gmap Z Z) (pgdir va : Z) : Z :=
  match pte_addr m pgdir va with Some a => ld32 m a | None => 0 end.

(** A load at virtual address [va] under the page table [pgdir]. *)
Definition load_va (pgdir va : Z) : K Z :=
  m ← gets mem;
  let pte := pte_of m pgdir va in
  if present pte then mret (ld32 m (u32 (P2V (PTE_ADDR pte) + va mod PGSIZE))) else trap.

(** * vm.c *)
Section vm.
Context `{Linker}.

(** The address of the entry for [va], or 0. *)
Definition walkpgdir (pgdir va : Z) (alloc : bool) : K Z :=
  let pde := u32 (pgdir + 4 * PDX va) in
  v ← load32 pde;
  if present v then mret (u32 (P2V (PTE_ADDR v) + 4 * PTX va)) else
  if negb alloc then mret 0 else
  pgtab ← kalloc;
  if pgtab =? 0 then mret 0 else
  upd_mem (λ m, memset m pgtab 0 PGSIZE);;
  store32 pde (Z.lor (Z.lor (Z.lor (V2P pgtab) PTE_P) PTE_W) PTE_U);;
  mret (u32 (pgtab + 4 * PTX va)).

(** One page: the loop's body. *)
Definition map_body (pgdir last perm : Z) : Z * Z → K ((Z * Z) + Z) := λ '(a, pa),
  pte ← walkpgdir pgdir a true;
  if pte =? 0 then mret (inr (-1)) else
  v ← load32 pte;
  if present v then panic "remap" else
  store32 pte (Z.lor (Z.lor pa perm) PTE_P);;
  if a =? last then mret (inr 0) else mret (inl (u32 (a + PGSIZE), u32 (pa + PGSIZE))).
Definition mappages (pgdir va size pa perm : Z) : K Z :=
  let a := PGROUNDDOWN va in
  let last := PGROUNDDOWN (u32 (va + size - 1)) in
  iterM (S (Z.to_nat (u32 (last - a) / PGSIZE))) (map_body pgdir last perm) (a, pa).

Definition dealloc_body (pgdir oldsz newsz : Z) : Z → K (Z + Z) := λ a,
  if a <? oldsz then
    pte ← walkpgdir pgdir a false;
    if pte =? 0 then mret (inl (u32 (PGADDR (PDX a + 1) 0 0 - PGSIZE + PGSIZE))) else
    v ← load32 pte;
    (if present v then
       if PTE_ADDR v =? 0 then panic "kfree" else
       kfree (P2V (PTE_ADDR v));;
       store32 pte 0
     else mret tt);;
    mret (inl (u32 (a + PGSIZE)))
  else mret (inr newsz).
Definition deallocuvm (pgdir oldsz newsz : Z) : K Z :=
  if oldsz <=? newsz then mret oldsz else
  iterM (S (S (Z.to_nat ((oldsz - newsz) / PGSIZE)))) (dealloc_body pgdir oldsz newsz) (PGROUNDUP newsz).

Definition free_table (pgdir : Z) : Z → K unit := λ i,
  pde ← load32 (u32 (pgdir + 4 * i));
  if present pde then kfree (P2V (PTE_ADDR pde)) else mret tt.
Definition freevm (pgdir : Z) : K unit :=
  if pgdir =? 0 then panic "freevm: no pgdir" else
  deallocuvm pgdir KERNBASE 0;;
  for_range 0 NPDENTRIES (free_table pgdir);;
  kfree pgdir.

(** The table [kmap]: virtual start, physical start and end, permissions. *)
Definition kmap : list (Z * Z * Z * Z) :=
  [ (KERNBASE, 0, EXTMEM, PTE_W);
    (KERNLINK, V2P KERNLINK, V2P sym_data, 0);
    (sym_data, V2P sym_data, PHYSTOP, PTE_W);
    (DEVSPACE, DEVSPACE, 0, PTE_W) ].

(** The loop over the table; false if a mapping fails. *)
Fixpoint map_kernel (pgdir : Z) (ks : list (Z * Z * Z * Z)) : K bool :=
  match ks with
  | [] => mret true
  | (virt, phys_start, phys_end, perm) :: ks =>
      r ← mappages pgdir virt (u32 (phys_end - phys_start)) phys_start perm;
      if r <? 0 then mret false else map_kernel pgdir ks
  end.

Definition setupkvm : K Z :=
  pgdir ← kalloc;
  if pgdir =? 0 then mret 0 else
  upd_mem (λ m, memset m pgdir 0 PGSIZE);;
  if DEVSPACE <? P2V PHYSTOP then panic "PHYSTOP too high" else
  ok ← map_kernel pgdir kmap;
  if (ok : bool) then mret pgdir else freevm pgdir;; mret 0.

Definition alloc_body (pgdir oldsz newsz : Z) : Z → K (Z + Z) := λ a,
  if a <? newsz then
    pg ← kalloc;
    if pg =? 0 then deallocuvm pgdir newsz oldsz;; mret (inr 0) else
    upd_mem (λ m, memset m pg 0 PGSIZE);;
    r ← mappages pgdir a PGSIZE (V2P pg) (Z.lor PTE_W PTE_U);
    if r <? 0 then
      deallocuvm pgdir newsz oldsz;;
      kfree pg;;
      mret (inr 0)
    else mret (inl (u32 (a + PGSIZE)))
  else mret (inr newsz).
(** The messages on the console when memory runs out are left out: the console is built on top of this part. *)
Definition allocuvm (pgdir oldsz newsz : Z) : K Z :=
  if KERNBASE <=? newsz then mret 0 else
  if newsz <? oldsz then mret oldsz else
  iterM (S (S (Z.to_nat ((newsz - oldsz) / PGSIZE)))) (alloc_body pgdir oldsz newsz) (PGROUNDUP oldsz).

(** [init] is given as bytes. *)
Definition inituvm (pgdir : Z) (init : list Z) : K unit :=
  if PGSIZE <=? Z.of_nat (length init) then panic "inituvm: more than a page" else
  pg ← kalloc;
  upd_mem (λ m, memset m pg 0 PGSIZE);;
  mappages pgdir 0 PGSIZE (V2P pg) (Z.lor PTE_W PTE_U);;
  upd_mem (λ m, st_range m pg init).

Definition clearpteu (pgdir uva : Z) : K unit :=
  pte ← walkpgdir pgdir uva false;
  if pte =? 0 then panic "clearpteu" else
  v ← load32 pte;
  store32 pte (Z.land v (Z.lnot PTE_U)).

Definition copy_body (pgdir sz d : Z) : Z → K (Z + Z) := λ i,
  if i <? sz then
    pte ← walkpgdir pgdir i false;
    if pte =? 0 then panic "copyuvm: pte should exist" else
    v ← load32 pte;
    if negb (present v) then panic "copyuvm: page not present" else
    let pa := PTE_ADDR v in
    let flags := PTE_FLAGS v in
    pg ← kalloc;
    if pg =? 0 then freevm d;; mret (inr 0) else
    upd_mem (λ m, memmove m pg (P2V pa) PGSIZE);;
    r ← mappages d i PGSIZE (V2P pg) flags;
    if r <? 0 then kfree pg;; freevm d;; mret (inr 0) else
    mret (inl (u32 (i + PGSIZE)))
  else mret (inr d).
Definition copyuvm (pgdir sz : Z) : K Z :=
  d ← setupkvm;
  if d =? 0 then mret 0 else
  iterM (S (S (Z.to_nat (sz / PGSIZE)))) (copy_body pgdir sz d) 0.

(** [walkpgdir] may return null here, and the code then loads from address 0, through
    the page table that is in use. *)
Definition uva2ka (pgdir uva : Z) : K Z :=
  pte ← walkpgdir pgdir uva false;
  v ← (if pte =? 0 then p ← cur; load_va (p_pgdir p) 0 else load32 pte);
  if negb (present v) then mret 0 else
  if Z.land v PTE_U =? 0 then mret 0 else
  mret (P2V (PTE_ADDR v)).

Definition copyout_body (pgdir : Z) : Z * list Z → K ((Z * list Z) + Z) := λ '(va, buf),
  if (0 <? Z.of_nat (length buf)) then
    let va0 := PGROUNDDOWN va in
    pa0 ← uva2ka pgdir va0;
    if pa0 =? 0 then mret (inr (-1)) else
    let n := Z.min (PGSIZE - (va - va0)) (Z.of_nat (length buf)) in
    upd_mem (λ m, st_range m (u32 (pa0 + (va - va0))) (take (Z.to_nat n) buf));;
    mret (inl (u32 (va0 + PGSIZE), drop (Z.to_nat n) buf))
  else mret (inr 0).
Definition copyout (pgdir va : Z) (buf : list Z) : K Z :=
  iterM (S (S (S (length buf / Z.to_nat PGSIZE)))) (copyout_body pgdir) (va, buf).

Section load.
Context `{Devsw}.

(** [readi] straight into the pages of the process. *)
Definition loaduvm (pgdir addr : Z) (ip : nat) (offset sz : Z) : K Z :=
  if negb (addr mod PGSIZE =? 0) then panic "loaduvm: addr must be page aligned" else
  iterM (S (S (Z.to_nat (sz / PGSIZE)))) (λ i,
    if i <? sz then
      pte ← walkpgdir pgdir (u32 (addr + i)) false;
      if pte =? 0 then panic "loaduvm: address should exist" else
      v ← load32 pte;
      let n := if sz - i <? PGSIZE then sz - i else PGSIZE in
      '(r, bytes) ← readi ip (u32 (offset + i)) n;
      upd_mem (λ m, st_range m (P2V (PTE_ADDR v)) bytes);;
      if negb (r =? n) then mret (inr (-1)) else mret (inl (u32 (i + PGSIZE)))
    else mret (inr 0)) 0.
End load.
End vm.

(** * Page tables as maps *)

(** ** Entries *)
Lemma lor_page x f : x mod PGSIZE = 0 → 0 ≤ f < PGSIZE → Z.lor x f = x + f.
Proof.
  intros Hx Hf. assert (Z.land x f = 0) as E.
  { apply Z.bits_inj'. intros k Hk. rewrite Z.land_spec, Z.bits_0.
    destruct (decide (k < 12)).
    - rewrite <- (Z.mod_pow2_bits_low x 12 k) by lia. change (2 ^ 12) with PGSIZE. by rewrite Hx, Z.bits_0.
    - replace f with (f mod 2 ^ 12) by (apply Z.mod_small; exact Hf).
      rewrite Z.mod_pow2_bits_high by lia. apply andb_false_r. }
  rewrite <- Z.lxor_lor by done. by rewrite Z.add_nocarry_lxor.
Qed.

Lemma PTE_ADDR_eq v : PTE_ADDR v = v - v mod PGSIZE.
Proof. apply (PGROUNDDOWN_eq v). Qed.

Lemma present_odd v : present v = Z.odd v.
Proof.
  unfold present, PTE_P. change 1 with (Z.ones 1). rewrite Z.land_ones by lia. change (2 ^ 1) with 2.
  rewrite Zmod_odd. by destruct (Z.odd v).
Qed.

Lemma pte_made pa f : pa mod PGSIZE = 0 → 0 ≤ f < PGSIZE → PTE_ADDR (Z.lor pa f) = pa ∧ PTE_FLAGS (Z.lor pa f) = f.
Proof.
  intros Hp Hf. rewrite lor_page by done. unfold PTE_FLAGS. change 4095 with (Z.ones 12). rewrite Z.land_ones by lia.
  rewrite PTE_ADDR_eq. change (2 ^ 12) with PGSIZE.
  assert ((pa + f) mod PGSIZE = f) as ->; [|lia]. rewrite Z.add_mod, Hp, Z.add_0_l, Z.mod_mod, Z.mod_small by done. done.
Qed.

Lemma PDX_bound va : 0 ≤ PDX va < 1024.
Proof. unfold PDX. change 1023 with (Z.ones 10). rewrite Z.land_ones by lia. apply Z.mod_pos_bound. lia. Qed.
Lemma PTX_bound va : 0 ≤ PTX va < 1024.
Proof. unfold PTX. change 1023 with (Z.ones 10). rewrite Z.land_ones by lia. apply Z.mod_pos_bound. lia. Qed.
Lemma PDX_eq va : PDX va = va / 4194304 mod 1024.
Proof. unfold PDX. change 1023 with (Z.ones 10). by rewrite Z.land_ones, Z.shiftr_div_pow2 by lia. Qed.
Lemma PTX_eq va : PTX va = va / 4096 mod 1024.
Proof. unfold PTX. change 1023 with (Z.ones 10). by rewrite Z.land_ones, Z.shiftr_div_pow2 by lia. Qed.

(** Two addresses use the same entry when they are in the same page. *)
Definition is_uint32 (x : Z) : Prop := 0 ≤ x < 4294967296.
Lemma same_entry va va' :
  is_uint32 va → is_uint32 va' → PDX va = PDX va' → PTX va = PTX va' → va / PGSIZE = va' / PGSIZE.
Proof. rewrite !PDX_eq, !PTX_eq. unfold is_uint32, PGSIZE. intros. zlia. Qed.

(** ** Words of pages *)

(** A page of the kernel's memory. *)
Definition is_page (p : Z) : Prop := p mod PGSIZE = 0 ∧ 0 < p < 4294967296.
Lemma page_ok_is n p : page_ok n p → is_page p.
Proof. by intros (? & _ & ? & _). Qed.

Lemma page_word p i : is_page p → 0 ≤ i < 1024 → u32 (p + 4 * i) = p + 4 * i ∧ p ≤ p + 4 * i ∧ p + 4 * i + 4 ≤ p + PGSIZE.
Proof. intros [Hp Hr] Hi. unfold PGSIZE in *. rewrite u32_small; zlia. Qed.

Lemma words_apart p q i j :
  is_page p → is_page q → 0 ≤ i < 1024 → 0 ≤ j < 1024 → p ≠ q ∨ i ≠ j →
  p + 4 * i + 4 ≤ q + 4 * j ∨ q + 4 * j + 4 ≤ p + 4 * i.
Proof. intros [Hp ?] [Hq ?] Hi Hj Hne. unfold PGSIZE in *. zlia. Qed.

Lemma ld32_memset0 m p q i :
  is_page p → is_page q → 0 ≤ i < 1024 →
  ld32 (memset m p 0 PGSIZE) (q + 4 * i) = if decide (q = p) then 0 else ld32 m (q + 4 * i).
Proof.
  intros [Hp ?] [Hq ?] Hi. case_decide as E.
  - subst. unfold ld32. rewrite !ld_memset by (unfold PGSIZE; lia).
    unfold PGSIZE in *. rewrite !decide_True by lia. done.
  - apply ld32_ext. intros k Hk. rewrite ld_memset by (unfold PGSIZE; lia).
    rewrite decide_False; [done|]. unfold PGSIZE in *. zlia.
Qed.

(** ** Well-formed page tables *)

Definition table_of (m : gmap Z Z) (pgdir i : Z) : Z := P2V (PTE_ADDR (ld32 m (pgdir + 4 * i))).

(** The directory and the tables it refers to are distinct pages, none of them in the
    free list [l]. *)
Record pt_wf (m : gmap Z Z) (pgdir : Z) (l : list Z) : Prop := {
  pw_dir : is_page pgdir;
  pw_dir_used : pgdir ∉ l;
  pw_table i : 0 ≤ i < 1024 → present (ld32 m (pgdir + 4 * i)) = true →
    is_page (table_of m pgdir i) ∧ table_of m pgdir i ≠ pgdir ∧ table_of m pgdir i ∉ l;
  pw_inj i j : 0 ≤ i < 1024 → 0 ≤ j < 1024 → present (ld32 m (pgdir + 4 * i)) = true →
    present (ld32 m (pgdir + 4 * j)) = true → table_of m pgdir i = table_of m pgdir j → i = j }.

Lemma pte_addr_wf m pgdir l va :
  pt_wf m pgdir l →
  pte_addr m pgdir va =
    if present (ld32 m (pgdir + 4 * PDX va)) then Some (table_of m pgdir (PDX va) + 4 * PTX va) else None.
Proof.
  intros Hw. pose proof (PDX_bound va) as Hd. pose proof (PTX_bound va) as Ht.
  unfold pte_addr. destruct (page_word pgdir (PDX va) (pw_dir _ _ _ Hw) Hd) as [-> _].
  destruct (present _) eqn:E; [|done]. fold (table_of m pgdir (PDX va)).
  destruct (pw_table _ _ _ Hw _ Hd E) as (Hp & _). by destruct (page_word _ _ Hp Ht) as [-> _].
Qed.

(** The pages that make up the tables. *)
Definition pt_page (m : gmap Z Z) (pgdir p : Z) : Prop :=
  p = pgdir ∨ ∃ i, 0 ≤ i < 1024 ∧ present (ld32 m (pgdir + 4 * i)) = true ∧ p = table_of m pgdir i.

(** [b] is not a byte of the tables. *)
Definition off_tables (m : gmap Z Z) (pgdir b : Z) : Prop :=
  ∀ p, pt_page m pgdir p → ¬ p ≤ b < p + PGSIZE.

(** The directory has not changed. *)
Definition same_dir (m m' : gmap Z Z) (pgdir : Z) : Prop := ∀ i, 0 ≤ i < 1024 → ld32 m' (pgdir + 4 * i) = ld32 m (pgdir + 4 * i).
Lemma same_dir_pages m m' pgdir p : same_dir m m' pgdir → pt_page m' pgdir p ↔ pt_page m pgdir p.
Proof.
  intros E. unfold pt_page. f_equiv. split; intros (i & Hi & Hp & ->); exists i; (split; [done|]).
  - rewrite <-(E i Hi). split; [done|]. unfold table_of. by rewrite (E i Hi).
  - rewrite (E i Hi). split; [done|]. unfold table_of. by rewrite (E i Hi).
Qed.

(** Storing an entry changes the translation of its page only. *)
Lemma pt_store m pgdir l va v :
  pt_wf m pgdir l → present (ld32 m (pgdir + 4 * PDX va)) = true →
  let m' := st32 m (table_of m pgdir (PDX va) + 4 * PTX va) v in
  pt_wf m' pgdir l ∧ same_dir m m' pgdir ∧
  ∀ va', pte_of m' pgdir va' = if decide (PDX va' = PDX va ∧ PTX va' = PTX va) then u32 v else pte_of m pgdir va'.
Proof.
  intros Hw Hpr m'. pose proof Hw as [Hdir Hused Htab Hinj].
  pose proof (PDX_bound va) as Hd. pose proof (PTX_bound va) as Ht.
  destruct (Htab _ Hd Hpr) as (Hp & Hne & Hnl). set (t := table_of m pgdir (PDX va)) in *.
  assert (same_dir m m' pgdir) as Edir.
  { intros i Hi. unfold m'. apply ld32_st32_ne. apply words_apart; auto. }
  assert (∀ i, 0 ≤ i < 1024 → table_of m' pgdir i = table_of m pgdir i) as Etab.
  { intros i Hi. unfold table_of. by rewrite Edir. }
  assert (pt_wf m' pgdir l) as Hw'.
  { split; [done|done| |].
    - intros i Hi. rewrite Edir, Etab by done. apply Htab, Hi.
    - intros i j Hi Hj. rewrite !Edir, !Etab by done. by apply Hinj. }
  split; [done|]. split; [done|]. intros va'. pose proof (PDX_bound va') as Hd'. pose proof (PTX_bound va') as Ht'.
  unfold pte_of. rewrite (pte_addr_wf _ _ _ _ Hw'), (pte_addr_wf _ _ _ _ Hw), Edir, Etab by done.
  destruct (present (ld32 m (pgdir + 4 * PDX va'))) eqn:E.
  - destruct (Htab _ Hd' E) as (Hp' & _). case_decide as Hs.
    + destruct Hs as [-> ->]. apply ld32_st32_eq.
    + apply ld32_st32_ne. apply words_apart; [done..|].
      destruct (decide (PTX va' = PTX va)); [|by right]. left. intros Et. apply Hs. split; [|done]. by apply Hinj.
  - rewrite decide_False; [done|]. intros [Ei _]. by rewrite Ei, Hpr in E.
Qed.

(** A new, empty page table is entered in the directory. *)
Lemma pt_new_table m pgdir l p i :
  pt_wf m pgdir (p :: l) → is_page p → p ∉ l → 0 ≤ i < 1024 → present (ld32 m (pgdir + 4 * i)) = false →
  let m' := st32 (memset m p 0 PGSIZE) (pgdir + 4 * i) (Z.lor (Z.lor (Z.lor (V2P p) PTE_P) PTE_W) PTE_U) in
  pt_wf m' pgdir l ∧ present (ld32 m' (pgdir + 4 * i)) = true ∧ table_of m' pgdir i = p
  ∧ (∀ q, pt_page m' pgdir q → pt_page m pgdir q ∨ q = p)
  ∧ ∀ va', pte_of m' pgdir va' = pte_of m pgdir va'.
Proof.
  intros Hw Hp Hpl Hi Hnp m'. pose proof Hw as [Hdir Hused Htab Hinj].
  apply not_elem_of_cons in Hused as [Hdp Hused].
  assert (V2P p mod PGSIZE = 0 ∧ 0 ≤ V2P p < 4294967296) as [HVp HVr].
  { destruct Hp as [Hal Hr]. unfold V2P, u32, KERNBASE, PGSIZE in *. zlia. }
  set (v := Z.lor (Z.lor (Z.lor (V2P p) PTE_P) PTE_W) PTE_U) in m'.
  assert (v = Z.lor (V2P p) 7) as Ev by (unfold v; by rewrite <- !Z.lor_assoc).
  assert (v = V2P p + 7) as Ev2 by (rewrite Ev; apply lor_page; [done|unfold PGSIZE; lia]).
  assert (u32 v = v) as Eu by (rewrite Ev2; apply u32_small; unfold PGSIZE in *; zlia).
  assert (PTE_ADDR v = V2P p) as Ea by (rewrite Ev; apply pte_made; [done|unfold PGSIZE; lia]).
  assert (present v = true) as Epr.
  { rewrite present_odd, Ev2. assert (V2P p = 2 * (V2P p / 2)) as E2 by (unfold PGSIZE in *; zlia).
    rewrite E2. rewrite Z.odd_add_mul_2 || (replace (2 * (V2P p / 2) + 7) with (1 + 2 * (V2P p / 2 + 3)) by lia; rewrite Z.odd_add_mul_2). done. }
  assert (P2V (V2P p) = p) as EPV.
  { destruct Hp as [_ Hr]. unfold P2V, V2P, u32, KERNBASE. zlia. }
  assert (∀ j, 0 ≤ j < 1024 → ld32 m' (pgdir + 4 * j) = if decide (j = i) then v else ld32 m (pgdir + 4 * j)) as Edir.
  { intros j Hj. unfold m'. case_decide as E.
    - subst j. by rewrite ld32_st32_eq.
    - rewrite ld32_st32_ne by (apply words_apart; auto). rewrite ld32_memset0, decide_False by done. done. }
  assert (table_of m' pgdir i = p) as Eti by (unfold table_of; by rewrite Edir, decide_True, Ea, EPV).
  assert (∀ j, 0 ≤ j < 1024 → j ≠ i → table_of m' pgdir j = table_of m pgdir j) as Etj.
  { intros j Hj Hne. unfold table_of. by rewrite Edir, decide_False. }
  assert (∀ j, 0 ≤ j < 1024 → present (ld32 m (pgdir + 4 * j)) = true → j ≠ i) as Hji.
  { intros j Hj Hpj ->. by rewrite Hpj in Hnp. }
  assert (pt_wf m' pgdir l) as Hw'.
  { split; [done|done| |].
    - intros j Hj. rewrite Edir by done. case_decide as E; [rewrite E, Eti; auto|].
      rewrite Etj by done. intros Hpj. destruct (Htab j Hj Hpj) as (? & ? & [_ ?]%not_elem_of_cons). done.
    - intros j k Hj Hk. rewrite !Edir by done. case_decide as E1; case_decide as E2.
      + by rewrite E1, E2.
      + rewrite E1, Eti, Etj by done. intros _ Hpk E. destruct (Htab k Hk Hpk) as (_ & _ & [Hx _]%not_elem_of_cons). by rewrite <- E in Hx.
      + rewrite E2, Eti, Etj by done. intros Hpj _ E. destruct (Htab j Hj Hpj) as (_ & _ & [Hx _]%not_elem_of_cons). by rewrite E in Hx.
      + rewrite !Etj by done. by apply Hinj. }
  split_and!; [done|by rewrite Edir, decide_True|done| |].
  { intros q [->|(j & Hj & Hpj & ->)]; [by left; left|]. destruct (decide (j = i)) as [->|Hne]; [by right|].
    rewrite Edir, decide_False in Hpj by done. left. right. exists j. by rewrite Etj. }
  intros va'. pose proof (PDX_bound va') as Hd'. pose proof (PTX_bound va') as Ht'.
  unfold pte_of. rewrite (pte_addr_wf _ _ _ _ Hw'), (pte_addr_wf _ _ _ _ Hw), Edir by done.
  case_decide as E.
  - rewrite Epr, E, Hnp, Eti. unfold m'. rewrite ld32_st32_ne by (apply words_apart; auto).
    by rewrite ld32_memset0, decide_True.
  - rewrite Etj by done. destruct (present (ld32 m (pgdir + 4 * PDX va'))) eqn:Epj; [|done].
    destruct (Htab _ Hd' Epj) as (Htp & Htne & [Htp' _]%not_elem_of_cons). unfold m'.
    rewrite ld32_st32_ne by (apply words_apart; auto). by rewrite ld32_memset0, decide_False.
Qed.

(** ** Walking the tables *)

Section walk.
Context `{Linker}.

Lemma kmem_rep_mem l s m' :
  kmem_rep l s → (∀ p, p ∈ l → ld32 m' p = ld32 (mem s) p) →
  kmem_rep l (s <| km ::= λ k, k <| k_mem ::= λ _, m' |> |>).
Proof. intros [Hc Hp Hn] E. split; [|done|done]. by eapply free_chain_ext. Qed.

Lemma kmem_rep_page l s p : kmem_rep l s → p ∈ l → is_page p.
Proof. intros [_ Hp _] Hin. rewrite Forall_forall in Hp. by eapply page_ok_is, Hp. Qed.

(** What allocating page tables may do to the state: pages leave the free list, nothing
    outside the tables changes, and the directory stays well formed. *)
Record pt_step (pgdir : Z) (s : kstate) (l : list Z) (s' : kstate) (l' : list Z) : Prop := {
  ps_frame : s' <| km := km s |> = s;
  ps_lock : kmem_unlocked s';
  ps_rep : kmem_rep l' s';
  ps_suffix : l' `suffix_of` l;
  ps_wf : pt_wf (mem s') pgdir l';
  ps_pages p : pt_page (mem s) pgdir p → pt_page (mem s') pgdir p;
  ps_new p : pt_page (mem s') pgdir p → pt_page (mem s) pgdir p ∨ p ∈ l;
  ps_kept p : p ∈ l → p ∈ l' ∨ pt_page (mem s') pgdir p;
  ps_mem b : off_tables (mem s') pgdir b → ld (mem s') b = ld (mem s) b }.

Lemma pt_step_refl pgdir s l : kmem_unlocked s → kmem_rep l s → pt_wf (mem s) pgdir l → pt_step pgdir s l s l.
Proof. intros. split; auto. by destruct s. Qed.

Lemma pt_step_trans pgdir s1 l1 s2 l2 s3 l3 :
  pt_step pgdir s1 l1 s2 l2 → pt_step pgdir s2 l2 s3 l3 → pt_step pgdir s1 l1 s3 l3.
Proof.
  intros [Hf1 ? ? Hl1 ? Hp1 Hn1 Hk1 Hm1] [Hf2 ? ? ? ? Hp2 Hn2 Hk2 Hm2]. split; [|done|done|by etrans|done|auto| | |].
  - by rewrite <- Hf1, <- Hf2.
  - intros p [Hp|Hp]%Hn2; [by apply Hn1|]. right. destruct Hl1 as [k ->]. apply elem_of_app. by right.
  - intros p [Hp|Hp]%Hk1; [by apply Hk2|]. right. by apply Hp2.
  - intros b Hb. rewrite Hm2, Hm1; [done| |done]. intros p Hp. apply Hb, Hp2, Hp.
Qed.

(** Free pages are not affected by what happens to the tables. *)
Lemma free_word l s m' pgdir q :
  kmem_rep l s → pt_wf m' pgdir l → (∀ b, off_tables m' pgdir b → ld m' b = ld (mem s) b) →
  q ∈ l → ld32 m' q = ld32 (mem s) q.
Proof.
  intros Hr Hw Eoff Hq. destruct (kmem_rep_page _ _ _ Hr Hq) as [Hqa Hqr].
  apply ld32_ext. intros k Hk. apply Eoff. intros p Hp.
  assert (is_page p ∧ p ≠ q) as [[? ?] ?].
  { destruct Hp as [->|(i & Hi & Hpi & ->)].
    - split; [by eapply pw_dir|]. intros ->. by destruct (pw_dir_used _ _ _ Hw).
    - destruct (pw_table _ _ _ Hw i Hi Hpi) as (? & _ & Hx). split; [done|]. intros E. apply Hx. by rewrite E. }
  unfold PGSIZE in *. zlia.
Qed.

Lemma kalloc_unlocked s p s' : kmem_unlocked s → kalloc s = Ok p s' → kmem_unlocked s'.
Proof. intros Hn. rewrite (kalloc_run s Hn). intros [= _ <-]. by destruct (k_freelist (km s) =? 0). Qed.

Lemma walk_found s pgdir l va alloc :
  pt_wf (mem s) pgdir l → present (ld32 (mem s) (pgdir + 4 * PDX va)) = true →
  walkpgdir pgdir va alloc s = Ok (table_of (mem s) pgdir (PDX va) + 4 * PTX va) s.
Proof.
  intros Hw Hp. pose proof (PDX_bound va) as Hd. pose proof (PTX_bound va) as Ht.
  unfold walkpgdir, load32. mstep. destruct (page_word pgdir (PDX va) (pw_dir _ _ _ Hw) Hd) as [-> _].
  rewrite Hp. destruct (pw_table _ _ _ Hw _ Hd Hp) as (Hq & _).
  destruct (page_word _ (PTX va) Hq Ht) as [E _]. unfold table_of in *. by rewrite E.
Qed.

Lemma walk_absent s pgdir l va :
  pt_wf (mem s) pgdir l → present (ld32 (mem s) (pgdir + 4 * PDX va)) = false →
  walkpgdir pgdir va false s = Ok 0 s.
Proof.
  intros Hw Hp. pose proof (PDX_bound va) as Hd.
  unfold walkpgdir, load32. mstep. destruct (page_word pgdir (PDX va) (pw_dir _ _ _ Hw) Hd) as [-> _].
  by rewrite Hp.
Qed.

(** With [alloc], the walk fails only when no page is free. *)
Lemma walk_alloc s pgdir l va :
  kmem_unlocked s → kmem_rep l s → pt_wf (mem s) pgdir l →
  ∃ r s' l', walkpgdir pgdir va true s = Ok r s' ∧ pt_step pgdir s l s' l' ∧ (length l ≤ length l' + 1)%nat
    ∧ (∀ va', pte_of (mem s') pgdir va' = pte_of (mem s) pgdir va')
    ∧ (if decide (r = 0) then l' = []
       else present (ld32 (mem s') (pgdir + 4 * PDX va)) = true ∧ r = table_of (mem s') pgdir (PDX va) + 4 * PTX va).
Proof.
  intros Hn Hr Hw. pose proof (PDX_bound va) as Hd. pose proof (PTX_bound va) as Ht.
  pose proof (pw_dir _ _ _ Hw) as Hdir.
  destruct (present (ld32 (mem s) (pgdir + 4 * PDX va))) eqn:Hp.
  { eexists _, s, l. split; [by eapply walk_found|]. split; [by apply pt_step_refl|]. split; [lia|]. split; [done|].
    rewrite decide_False; [done|]. destruct (pw_table _ _ _ Hw _ Hd Hp) as ([_ ?] & _). lia. }
  unfold walkpgdir, load32. mstep. destruct (page_word pgdir (PDX va) Hdir Hd) as [-> _]. rewrite Hp. cbn [negb].
  pose proof (kalloc_rep l s Hn Hr) as Hk. destruct l as [|p l].
  { simpl in Hk. mstep_with Hk. eexists 0, s, []. split; [done|]. split; [by apply pt_step_refl|]. split; [simpl; lia|done]. }
  destruct Hk as (s1 & Ek & Hr1 & Em1 & Hs1). mstep_with Ek.
  assert (is_page p) as Hpp by (eapply kmem_rep_page; [exact Hr|left]).
  pose proof (kr_nodup _ _ Hr) as [Hpl _]%NoDup_cons.
  destruct (Z.eqb_spec p 0) as [E0|_]; [destruct Hpp; lia|].
  unfold store32, upd_mem. repeat mstep. set (s2 := over km _ (over km _ s1)).
  destruct (pt_new_table (mem s) pgdir l p (PDX va)) as (Hw' & Hpr & Htab & Hnew & Hpte); [done..|].
  rewrite <- Em1 in Hw', Hpr, Htab, Hnew, Hpte. set (m' := st32 _ _ _) in Hw', Hpr, Htab, Hnew, Hpte.
  assert (mem s2 = m') as E2 by done.
  destruct (page_word p (PTX va) Hpp Ht) as [Et ?].
  eexists _, s2, l. split; [done|]. rewrite E2. split; [|split; [simpl; lia|split; [intros va'; by rewrite Hpte, Em1|]]].
  - assert (∀ i, 0 ≤ i < 1024 → present (ld32 (mem s) (pgdir + 4 * i)) = true →
      ld32 m' (pgdir + 4 * i) = ld32 (mem s) (pgdir + 4 * i)) as Eold.
    { intros i Hi Hpi. unfold m'. assert (i ≠ PDX va) by (intros ->; by rewrite Hpi in Hp).
      rewrite ld32_st32_ne by (apply words_apart; auto). rewrite ld32_memset0 by done.
      rewrite Em1. rewrite decide_False; [done|]. intros ->. destruct (pw_dir_used _ _ _ Hw). left. }
    assert (∀ b, off_tables m' pgdir b → ld m' b = ld (mem s) b) as Eoff.
    { intros b Hb. unfold m'. rewrite ld_st32_ne.
      - rewrite ld_memset by (unfold PGSIZE; lia). rewrite decide_False; [by rewrite Em1|].
        apply Hb. right. by exists (PDX va).
      - pose proof (Hb pgdir (or_introl eq_refl)). destruct (page_word pgdir (PDX va) Hdir Hd) as [_ ?]. lia. }
    split; [|exact (kalloc_unlocked s p s1 Hn Ek)| |by apply suffix_cons_r|done| | | |exact Eoff].
    + rewrite <- Hs1. by destruct s1.
    + apply (kmem_rep_mem l s1 m'); [done|]. intros q Hq.
      apply (free_word l s1 m' pgdir); [done|done| |done]. intros b Hb. by rewrite Em1, Eoff.
    + intros q [->|(i & Hi & Hpi & ->)]; [by left|]. right. exists i. rewrite E2.
      split; [done|]. unfold table_of. by rewrite Eold.
    + intros q Hq. change (mem s2) with m' in Hq. apply Hnew in Hq as [Hq| ->]; [left|by right; left]. by rewrite Em1 in Hq.
    + intros q [->|Hq]%elem_of_cons; [right; right|by left]. exists (PDX va). split; [done|]. split; [exact Hpr|by rewrite <-Htab].
  - rewrite Et. rewrite decide_False by (destruct Hpp; lia). by rewrite Htab.
Qed.

(** ** Mapping *)

Lemma lor_flags f : 0 ≤ f < PGSIZE → 0 ≤ Z.lor f PTE_P < PGSIZE.
Proof.
  intros Hf. assert (Z.lor f PTE_P = Z.lor f PTE_P mod PGSIZE) as ->; [|by apply Z.mod_pos_bound].
  change PGSIZE with (2 ^ 12). rewrite <- Z.land_ones by lia.
  rewrite Z.land_lor_distr_l, Z.land_ones by lia. change (2 ^ 12) with PGSIZE. by rewrite Z.mod_small.
Qed.

Definition pte_for (pa perm : Z) : Z := Z.lor (Z.lor pa perm) PTE_P.

Lemma pte_for_u32 pa perm : pa mod PGSIZE = 0 → 0 ≤ pa → pa + PGSIZE ≤ 4294967296 → 0 ≤ perm < PGSIZE → u32 (pte_for pa perm) = pte_for pa perm.
Proof.
  intros Ha Hp Hb Hf. unfold pte_for. rewrite <- Z.lor_assoc. pose proof (lor_flags perm Hf).
  rewrite lor_page by done. apply u32_small. lia.
Qed.

(** The tables after the pages from [a] to [b] have been mapped to [pa], ... *)
Definition mapped (m m' : gmap Z Z) (pgdir a b pa perm : Z) : Prop :=
  ∀ va, is_uint32 va → pte_of m' pgdir va =
    if decide (a ≤ va < b) then pte_for (pa + (PGROUNDDOWN va - a)) perm else pte_of m pgdir va.

(** One page. *)
Lemma map_page pgdir s l a pa perm :
  kmem_unlocked s → kmem_rep l s → pt_wf (mem s) pgdir l →
  a mod PGSIZE = 0 → is_uint32 a → pa mod PGSIZE = 0 → 0 ≤ pa → pa + PGSIZE ≤ 4294967296 → 0 ≤ perm < PGSIZE →
  present (pte_of (mem s) pgdir a) = false →
  ∃ pte s1 l', walkpgdir pgdir a true s = Ok pte s1 ∧ (length l ≤ length l' + 1)%nat ∧
    if decide (pte = 0) then l' = [] ∧ pt_step pgdir s l s1 l' ∧ mapped (mem s) (mem s1) pgdir a a pa perm
    else ∃ s', load32 pte s1 = Ok (pte_of (mem s) pgdir a) s1 ∧ store32 pte (pte_for pa perm) s1 = Ok tt s'
      ∧ pt_step pgdir s l s' l' ∧ mapped (mem s) (mem s') pgdir a (a + PGSIZE) pa perm.
Proof.
  intros Hn Hr Hw Ha Hau Hpa Hp0 Hpb Hf Hnp.
  destruct (walk_alloc s pgdir l a Hn Hr Hw) as (pte & s1 & l' & E & Hs & Hlen & Hpte & Hc).
  exists pte, s1, l'. split; [exact E|]. split; [exact Hlen|]. case_decide as Ez.
  { split_and!; [done|done|]. intros va _. rewrite decide_False by lia. apply Hpte. }
  destruct Hc as [Hpr ->]. pose proof (ps_wf _ _ _ _ _ Hs) as Hw1.
  pose proof (PDX_bound a) as Hd. pose proof (PTX_bound a) as Ht.
  destruct (pw_table _ _ _ Hw1 _ Hd Hpr) as (Htp & _).
  destruct (pt_store _ _ _ a (pte_for pa perm) Hw1 Hpr) as (Hw2 & Hsd & Hst).
  set (m' := st32 _ _ _) in Hw2, Hsd, Hst. eexists. split; [|split; [reflexivity|]].
  { unfold load32, gets. f_equal. rewrite <- Hpte. unfold pte_of at 1. by rewrite (pte_addr_wf _ _ _ _ Hw1), Hpr. }
  set (s2 := over km _ s1). assert (mem s2 = m') as E2 by done. split.
  - eapply pt_step_trans; [exact Hs|].
    assert (∀ b, off_tables m' pgdir b → ld m' b = ld (mem s1) b) as Eoff.
    { intros b Hb. apply ld_st32_ne. destruct (page_word _ (PTX a) Htp Ht) as [_ ?].
      assert (pt_page m' pgdir (table_of (mem s1) pgdir (PDX a))) as Hpp; [|pose proof (Hb _ Hpp); lia].
      apply (same_dir_pages _ _ _ _ Hsd). right. by exists (PDX a). }
    split; [by destruct s1|by destruct Hs| |done|done| | |by left|exact Eoff].
    + apply (kmem_rep_mem l' s1 m'); [by destruct Hs|]. intros q Hq. eapply free_word; [by destruct Hs|done|exact Eoff|done].
    + intros q Hq. change (mem s2) with m'. by apply (same_dir_pages _ _ _ _ Hsd).
    + intros q Hq. left. change (mem s2) with m' in Hq. by apply (same_dir_pages _ _ _ _ Hsd) in Hq.
  - intros va Hva. rewrite E2, Hst, pte_for_u32, Hpte by done.
    assert (PGSIZE = 4096) as EP by done. unfold is_uint32 in *.
    destruct (decide (PDX va = PDX a ∧ PTX va = PTX a)) as [[E3 E4]|Hne].
    + pose proof (same_entry va a Hva Hau E3 E4) as Eq. rewrite decide_True by (rewrite EP in *; zlia).
      rewrite PGROUNDDOWN_eq. f_equal. rewrite EP in *. zlia.
    + rewrite decide_False; [done|]. intros Hin. apply Hne. rewrite !PDX_eq, !PTX_eq. rewrite EP in *. zlia.
Qed.

Lemma mapped_app m m1 m2 pgdir a b pa perm :
  a ≤ b → mapped m m1 pgdir a (a + PGSIZE) pa perm → mapped m1 m2 pgdir (a + PGSIZE) b (pa + PGSIZE) perm → a + PGSIZE ≤ b →
  mapped m m2 pgdir a b pa perm.
Proof.
  intros Hab H1 H2 Hb va Hva. rewrite (H2 va Hva). case_decide.
  - rewrite decide_True by (unfold PGSIZE in *; lia). f_equal. lia.
  - rewrite (H1 va Hva). case_decide.
    + rewrite decide_True by lia. done.
    + rewrite decide_False by lia. done.
Qed.

Lemma map_body_none pgdir last perm a pa s s1 :
  walkpgdir pgdir a true s = Ok 0 s1 → map_body pgdir last perm (a, pa) s = Ok (inr (-1)) s1.
Proof. intros E. unfold map_body. by mstep_with E. Qed.

Lemma map_body_ok pgdir last perm a pa s pte s1 v s2 :
  walkpgdir pgdir a true s = Ok pte s1 → pte ≠ 0 → load32 pte s1 = Ok v s1 → present v = false →
  store32 pte (pte_for pa perm) s1 = Ok tt s2 →
  map_body pgdir last perm (a, pa) s = Ok (if a =? last then inr 0 else inl (u32 (a + PGSIZE), u32 (pa + PGSIZE))) s2.
Proof.
  intros Ew Hz El Hp Es. unfold map_body. mstep_with Ew. rewrite (proj2 (Z.eqb_neq _ _) Hz).
  mstep_with El. rewrite Hp. fold (pte_for pa perm). mstep_with Es. by destruct (a =? last).
Qed.

(** The loop over the pages. *)
Lemma map_loop pgdir perm n : ∀ s l a pa fuel,
  kmem_unlocked s → kmem_rep l s → pt_wf (mem s) pgdir l → 0 ≤ perm < PGSIZE →
  a mod PGSIZE = 0 → 0 ≤ a → a + PGSIZE * (Z.of_nat n + 1) ≤ 4294967296 →
  pa mod PGSIZE = 0 → 0 ≤ pa → pa + PGSIZE * (Z.of_nat n + 1) ≤ 4294967296 →
  (∀ va, a ≤ va < a + PGSIZE * (Z.of_nat n + 1) → present (pte_of (mem s) pgdir va) = false) →
  (n < fuel)%nat →
  ∃ r s' l' k, iterM fuel (map_body pgdir (a + PGSIZE * Z.of_nat n) perm) (a, pa) s = Ok r s' ∧ pt_step pgdir s l s' l' ∧ (length l ≤ length l' + (n + 1))%nat
    ∧ (r = 0 ∧ k = Z.of_nat n + 1 ∨ r = -1 ∧ l' = [] ∧ 0 ≤ k ≤ Z.of_nat n)
    ∧ mapped (mem s) (mem s') pgdir a (a + PGSIZE * k) pa perm.
Proof.
  assert (PGSIZE = 4096) as EP by done.
  induction n as [|n IH]; intros s l a pa fuel Hn Hr Hw Hf Ha Ha0 Hab Hpa Hp0 Hpb Hnp Hfuel;
    (destruct fuel as [|fuel]; [lia|]);
    (destruct (map_page pgdir s l a pa perm) as (pte & s1 & l1 & Ew & Hlen & Hc);
       [done..|unfold is_uint32; lia|done|lia|lia|done|apply Hnp; lia|]); case_decide as Ez.
  1, 3: destruct Hc as (-> & Hs & Hm); rewrite Ez in Ew; exists (-1), s1, [], 0;
    (split; [by erewrite iterM_inr by (by apply map_body_none)|]); (split; [done|]); (split; [lia|]);
    (split; [right; repeat split; lia | by rewrite Z.mul_0_r, Z.add_0_r]).
  all: destruct Hc as (s2 & El & Est & Hs & Hm);
    pose proof (λ last, map_body_ok pgdir last perm a pa s pte s1 _ s2 Ew Ez El (Hnp a ltac:(lia)) Est) as Eb.
  - exists 0, s2, l1, 1. specialize (Eb (a + PGSIZE * Z.of_nat 0)). rewrite (proj2 (Z.eqb_eq _ _)) in Eb by lia.
    split; [by erewrite iterM_inr|]. split; [done|]. split; [lia|]. split; [by left|by rewrite Z.mul_1_r].
  - specialize (Eb (a + PGSIZE * Z.of_nat (S n))). rewrite (proj2 (Z.eqb_neq _ _)) in Eb by lia.
    rewrite (u32_small (a + PGSIZE)), (u32_small (pa + PGSIZE)) in Eb by lia.
    destruct (IH s2 l1 (a + PGSIZE) (pa + PGSIZE) fuel) as (r & s' & l' & k & E & Hs' & Hlen' & Hrk & Hm'); try done; try lia.
    + by destruct Hs.
    + by destruct Hs.
    + by destruct Hs.
    + rewrite EP in *. zlia.
    + rewrite EP in *. zlia.
    + intros va Hva. rewrite (Hm va) by (unfold is_uint32; lia). rewrite decide_False by lia. apply Hnp. lia.
    + replace (a + PGSIZE + PGSIZE * Z.of_nat n) with (a + PGSIZE * Z.of_nat (S n)) in E by (rewrite Nat2Z.inj_succ; ring).
      exists r, s', l', (k + 1). split; [by erewrite iterM_inl|]. split; [by eapply pt_step_trans|]. split; [lia|].
      split; [destruct Hrk as [[-> ->]|(-> & -> & ?)]; [left|right]; repeat split; lia|].
      replace (a + PGSIZE * (k + 1)) with (a + PGSIZE + PGSIZE * k) by ring.
      eapply mapped_app; [|exact Hm|exact Hm'|]; rewrite EP; lia.
Qed.

Lemma mappages_run pgdir va size pa perm s l :
  let a := PGROUNDDOWN va in
  let b := PGROUNDDOWN (va + size - 1) + PGSIZE in
  kmem_unlocked s → kmem_rep l s → pt_wf (mem s) pgdir l → 0 ≤ perm < PGSIZE →
  0 ≤ va → 0 < size → va + size ≤ 4294967296 → pa mod PGSIZE = 0 → 0 ≤ pa → pa + (b - a) ≤ 4294967296 →
  (∀ va, a ≤ va < b → present (pte_of (mem s) pgdir va) = false) →
  ∃ r s' l' k, mappages pgdir va size pa perm s = Ok r s' ∧ pt_step pgdir s l s' l'
    ∧ Z.of_nat (length l) ≤ Z.of_nat (length l') + (b - a) / PGSIZE
    ∧ (r = 0 ∧ a + PGSIZE * k = b ∨ r = -1 ∧ l' = [] ∧ 0 ≤ k ∧ a + PGSIZE * k < b)
    ∧ mapped (mem s) (mem s') pgdir a (a + PGSIZE * k) pa perm.
Proof.
  intros a b Hn Hr Hw Hf Hva Hsz Hvs Hpa Hp0 Hpb Hnp.
  assert (PGSIZE = 4096) as EP by done.
  set (last := PGROUNDDOWN (va + size - 1)) in *.
  assert (a = va - va mod PGSIZE) as Ea by apply PGROUNDDOWN_eq.
  assert (last = (va + size - 1) - (va + size - 1) mod PGSIZE) as El by apply PGROUNDDOWN_eq.
  set (n := Z.to_nat ((last - a) / PGSIZE)).
  assert (a + PGSIZE * Z.of_nat n = last) as En.
  { unfold n. rewrite Z2Nat.id by (clear - Ea El EP Hva Hsz Hvs; rewrite EP in *; zlia). clear - Ea El EP. rewrite EP in *. zlia. }
  destruct (map_loop pgdir perm n s l a pa (S (Z.to_nat (u32 (last - a) / PGSIZE)))) as (r & s' & l' & k & E & Hs & Hlen & Hrk & Hm); try done.
  - clear - Ea EP. rewrite EP in *. zlia.
  - clear - Ea EP Hva. rewrite EP in *. zlia.
  - clear - En El EP Hvs. rewrite EP in *. zlia.
  - subst b. lia.
  - intros v Hv. apply Hnp. subst b. lia.
  - unfold n. rewrite u32_small by (clear - Ea El EP Hva Hsz Hvs; rewrite EP in *; zlia). lia.
  - exists r, s', l', k. split; [|split; [done|split; [|split; [|done]]]].
    + unfold mappages. rewrite (u32_small (va + size - 1)) by lia. fold last a. rewrite En in E. exact E.
    + clear - En Hlen EP. subst b. rewrite <-En. rewrite EP in *. replace (a + 4096 * Z.of_nat n + 4096 - a) with ((Z.of_nat n + 1) * 4096) by ring.
      rewrite Z.div_mul by done. lia.
    + destruct Hrk as [[-> ->]|(-> & -> & Hk)]; [left|right]; subst b; split_and!; lia || done.
Qed.
End walk.

(** An empty page directory. *)
Definition empty_dir (m : gmap Z Z) (pgdir : Z) : Prop := ∀ i, 0 ≤ i < 1024 → ld32 m (pgdir + 4 * i) = 0.
Lemma empty_dir_wf m pgdir l : is_page pgdir → pgdir ∉ l → empty_dir m pgdir →
  pt_wf m pgdir l ∧ (∀ va, pte_of m pgdir va = 0) ∧ ∀ q, pt_page m pgdir q ↔ q = pgdir.
Proof.
  intros Hp Hl E. split_and!.
  - split; [done|done| |]; intros i; intros; exfalso; by rewrite E in *.
  - intros va. unfold pte_of, pte_addr. pose proof (PDX_bound va). destruct (page_word pgdir (PDX va) Hp) as [-> _]; [done|]. by rewrite E.
  - intros q. split; [|by left]. intros [?|(i & Hi & Hpi & _)]; [done|]. by rewrite E in Hpi.
Qed.

(** * Properties *)

(** [mappages] over a range that is not mapped yet either maps every page of it, in order, to
    consecutive physical pages with the permissions asked for, or returns -1 because no page is
    left for a table, a prefix of the range then being mapped; at most one table is made for each page.  No other translation
    and no byte outside the tables changes, and the tables stay well-formed. *)
Theorem mappages_correct `{Linker} (pgdir va size pa perm : Z) (s : kstate) (l : list Z) :
  let a := PGROUNDDOWN va in
  let b := PGROUNDDOWN (va + size - 1) + PGSIZE in
  kmem_unlocked s → kmem_rep l s → pt_wf (mem s) pgdir l → 0 ≤ perm < PGSIZE →
  0 ≤ va → 0 < size → va + size ≤ 4294967296 → pa mod PGSIZE = 0 → 0 ≤ pa → pa + (b - a) ≤ 4294967296 →
  (∀ va, a ≤ va < b → present (pte_of (mem s) pgdir va) = false) →
  ∃ r s' l' k, mappages pgdir va size pa perm s = Ok r s' ∧ pt_step pgdir s l s' l'
    ∧ Z.of_nat (length l) ≤ Z.of_nat (length l') + (b - a) / PGSIZE
    ∧ (r = 0 ∧ a + PGSIZE * k = b ∨ r = -1 ∧ l' = [] ∧ 0 ≤ k ∧ a + PGSIZE * k < b)
    ∧ mapped (mem s) (mem s') pgdir a (a + PGSIZE * k) pa perm.
Proof. apply mappages_run. Qed.

(** A directory in a page of its own, and three free pages. *)
Definition demo_dir : Z := page0 + 16384.
Definition demo_vm : kstate :=
  match kinit1 (H := demo_linker) page0 (page0 + 12288) demo_mem0 with Ok _ s => s | _ => demo_mem0 end.

Lemma demo_dir_empty : empty_dir (mem demo_vm) demo_dir.
Proof.
  assert (forallb (λ k, bool_decide (ld32 (mem demo_vm) (demo_dir + 4 * Z.of_nat k) = 0)) (seq 0 1024) = true) as E by by vm_compute.
  intros i Hi. rewrite forallb_forall in E. specialize (E (Z.to_nat i)). rewrite Z2Nat.id in E by lia.
  assert (In (Z.to_nat i) (seq 0 1024)) as Hin by (apply List.in_seq; lia). by apply bool_decide_eq_true in E.
Qed.
Lemma demo_vm_rep : kmem_unlocked demo_vm ∧ kmem_rep (H := demo_linker) [page0 + 8192; page0 + 4096; page0] demo_vm.
Proof.
  split; [by vm_compute|]. split; [by vm_compute| |by_decide]. repeat (apply Forall_cons; split; [by_decide|]). by apply Forall_nil.
Qed.
Lemma demo_dir_wf : is_page demo_dir ∧ demo_dir ∉ [page0 + 8192; page0 + 4096; page0].
Proof. split; [by vm_compute|by_decide]. Qed.

Lemma mappages_correct_witness :
  ∃ r s' l' k, mappages demo_dir 4096 5000 1048576 (Z.lor PTE_W PTE_U) demo_vm = Ok r s'
    ∧ pt_step (H := demo_linker) demo_dir demo_vm [page0 + 8192; page0 + 4096; page0] s' l' ∧ 3 ≤ Z.of_nat (length l') + 2
    ∧ (r = 0 ∧ 4096 + PGSIZE * k = 12288 ∨ r = -1 ∧ l' = [] ∧ 0 ≤ k ∧ 4096 + PGSIZE * k < 12288)
    ∧ mapped (mem demo_vm) (mem s') demo_dir 4096 (4096 + PGSIZE * k) 1048576 (Z.lor PTE_W PTE_U).
Proof.
  destruct (empty_dir_wf (mem demo_vm) demo_dir [page0 + 8192; page0 + 4096; page0]) as (Hw & Hpte & _); [apply demo_dir_wf..|apply demo_dir_empty|].
  apply (@mappages_correct demo_linker demo_dir 4096 5000 1048576 (Z.lor PTE_W PTE_U) demo_vm [page0 + 8192; page0 + 4096; page0]);
    [apply demo_vm_rep..|exact Hw|by_decide|by_decide|by_decide|by_decide|by_decide|by_decide|by_decide|].
  intros va _. by rewrite Hpte.
Defined.
