(* ===== verification/Uvm.v ===== *)
(** User address spaces ([vm.c]): [allocuvm], [deallocuvm] and [freevm] as transfers of pages between the free list and
    a page table, which neither lose nor duplicate one. *)
From S2P Require Export Vm.

(** * Pages *)

Lemma PGROUNDDOWN_page p b : is_page p → p ≤ b < p + PGSIZE ↔ PGROUNDDOWN b = p.
Proof. intros [Hp _]. rewrite PGROUNDDOWN_eq. unfold PGSIZE in *. zlia. Qed.
Lemma page_in b : PGROUNDDOWN b ≤ b < PGROUNDDOWN b + PGSIZE.
Proof. rewrite PGROUNDDOWN_eq. unfold PGSIZE. zlia. Qed.
Lemma page_id p : p mod PGSIZE = 0 → PGROUNDDOWN p = p.
Proof. rewrite PGROUNDDOWN_eq. lia. Qed.
Lemma P2V_V2P p : 0 ≤ p < 4294967296 → P2V (V2P p) = p.
Proof. unfold P2V, V2P, u32, KERNBASE. zlia. Qed.

(** The page that the user's [va] is in, at its address in the kernel. *)
Definition frame (m : gmap Z Z) (pgdir va : Z) : Z := P2V (PTE_ADDR (pte_of m pgdir va)).

(** [va] is the address of a page of user memory. *)
Definition user_page (m : gmap Z Z) (pgdir va : Z) : Prop :=
  va mod PGSIZE = 0 ∧ 0 ≤ va < KERNBASE ∧ present (pte_of m pgdir va) = true.

Lemma user_page_ext m m' pgdir va : pte_of m' pgdir va = pte_of m pgdir va →
  (user_page m' pgdir va ↔ user_page m pgdir va) ∧ frame m' pgdir va = frame m pgdir va.
Proof. unfold user_page, frame. by intros ->. Qed.

Lemma mapped_pte m m' pgdir a b pa perm va :
  mapped m m' pgdir a b pa perm → user_page m' pgdir va →
  if decide (a ≤ va < b) then pte_of m' pgdir va = pte_for (pa + (va - a)) perm
  else pte_of m' pgdir va = pte_of m pgdir va.
Proof.
  intros Hm (Ha & Hr & _). rewrite (Hm va) by (unfold is_uint32, KERNBASE in *; lia). case_decide; [|done]. by rewrite page_id.
Qed.

(** The pages that belong to the page table. *)
Definition owned (m : gmap Z Z) (pgdir p : Z) : Prop := pt_page m pgdir p ∨ ∃ va, user_page m pgdir va ∧ p = frame m pgdir va.
(** Those and the free ones. *)
Definition pool (m : gmap Z Z) (pgdir : Z) (l : list Z) (p : Z) : Prop := p ∈ l ∨ owned m pgdir p.
Lemma pool_cons m pgdir p l q : pool m pgdir (p :: l) q ↔ q = p ∨ pool m pgdir l q.
Proof. unfold pool. rewrite elem_of_cons. tauto. Qed.

Section uvm.
Context `{Linker}.

(** The page table [pgdir], the free list [l]: the tables and the pages of user memory are distinct pages that are not free. *)
Record uvm (pgdir : Z) (s : kstate) (l : list Z) : Prop := {
  uv_unlocked : kmem_unlocked s;
  uv_rep : kmem_rep l s;
  uv_pt : pt_wf (mem s) pgdir l;
  uv_table p : pt_page (mem s) pgdir p → page_ok sym_end p;
  uv_frame va : user_page (mem s) pgdir va →
    page_ok sym_end (frame (mem s) pgdir va) ∧ frame (mem s) pgdir va ∉ l ∧ ¬ pt_page (mem s) pgdir (frame (mem s) pgdir va);
  uv_inj va va' : user_page (mem s) pgdir va → user_page (mem s) pgdir va' → frame (mem s) pgdir va = frame (mem s) pgdir va' → va = va' }.

(** From [s], [l] to [s'], [l'] the page table changes, and pages pass between it and the free list, but no others are touched. *)
Record ustep (pgdir : Z) (s : kstate) (l : list Z) (s' : kstate) (l' : list Z) : Prop := {
  us_frame : s' <| km := km s |> = s;
  us_uvm : uvm pgdir s' l';
  us_pool p : pool (mem s') pgdir l' p ↔ pool (mem s) pgdir l p;
  us_mem b : PGROUNDDOWN b ∉ l → PGROUNDDOWN b ∉ l' → ¬ pt_page (mem s') pgdir (PGROUNDDOWN b) → ld (mem s') b = ld (mem s) b }.

Lemma ustep_refl pgdir s l : uvm pgdir s l → ustep pgdir s l s l.
Proof. intros Hu. split; [by destruct s|done|done|done]. Qed.

(** Tables are not given back until the very end. *)
Definition tables_grow (m m' : gmap Z Z) (pgdir : Z) : Prop := ∀ p, pt_page m pgdir p → pt_page m' pgdir p.

Lemma ustep_trans pgdir s1 l1 s2 l2 s3 l3 :
  ustep pgdir s1 l1 s2 l2 → ustep pgdir s2 l2 s3 l3 → tables_grow (mem s2) (mem s3) pgdir → l2 ⊆ l1 ∨ l2 ⊆ l3 →
  ustep pgdir s1 l1 s3 l3.
Proof.
  intros [F1 U1 P1 M1] [F2 U2 P2 M2] Hg Hl. split; [by rewrite <-F1, <-F2|done|intros p; by rewrite P2, P1|].
  intros b H1 H3 Hb. assert (PGROUNDDOWN b ∉ l2) by (destruct Hl as [Hl|Hl]; intros Hin%Hl; done).
  rewrite M2, M1 by auto. done.
Qed.

Lemma pt_page_is m pgdir l p : pt_wf m pgdir l → pt_page m pgdir p → is_page p ∧ p ∉ l.
Proof. intros Hw [->|(i & Hi & Hp & ->)]; [split; apply Hw|split; by apply (pw_table _ _ _ Hw)]. Qed.
Lemma off_tables_page m pgdir l b : pt_wf m pgdir l → off_tables m pgdir b ↔ ¬ pt_page m pgdir (PGROUNDDOWN b).
Proof.
  intros Hw. split.
  - intros Hoff Hp. apply (Hoff _ Hp), page_in.
  - intros Hn p Hp Hb. apply Hn. destruct (pt_page_is _ _ _ _ Hw Hp) as [Hpg _]. by apply (PGROUNDDOWN_page _ _ Hpg) in Hb as ->.
Qed.

(** ** Mapping a page *)

Lemma pte_for_page p perm : is_page p → 0 ≤ perm < PGSIZE →
  PTE_ADDR (pte_for (V2P p) perm) = V2P p ∧ PTE_FLAGS (pte_for (V2P p) perm) = Z.lor perm PTE_P ∧ present (pte_for (V2P p) perm) = true.
Proof.
  intros [Hp Hr] Hf. assert (V2P p mod PGSIZE = 0) as Hv by (unfold V2P, u32, KERNBASE, PGSIZE in *; zlia).
  unfold pte_for. rewrite <-Z.lor_assoc. destruct (pte_made _ _ Hv (lor_flags perm Hf)) as [E1 E2]. split_and!; [done|done|].
  by rewrite present_odd, <-Z.bit0_odd, !Z.lor_spec, !orb_true_r.
Qed.

(** The pages of user memory after at most one has been mapped. *)
Lemma mapped_pages m m' pgdir a p perm k :
  mapped m m' pgdir a (a + PGSIZE * k) (V2P p) perm → k = 0 ∨ k = 1 → a mod PGSIZE = 0 → 0 ≤ a < KERNBASE →
  present (pte_of m pgdir a) = false → is_page p → 0 ≤ perm < PGSIZE →
  (∀ va, user_page m' pgdir va → k = 1 ∧ va = a ∧ frame m' pgdir va = p ∨ user_page m pgdir va ∧ frame m' pgdir va = frame m pgdir va)
  ∧ (∀ va, user_page m pgdir va → user_page m' pgdir va ∧ frame m' pgdir va = frame m pgdir va)
  ∧ (k = 1 → user_page m' pgdir a ∧ frame m' pgdir a = p).
Proof.
  intros Hm Hk Ha Har Hnp Hp Hf. destruct (pte_for_page p perm Hp Hf) as (Ea & _ & Epr).
  assert (Hin : ∀ va, va mod PGSIZE = 0 → a ≤ va < a + PGSIZE * k → k = 1 ∧ va = a) by (unfold PGSIZE in *; intros; destruct Hk; zlia).
  assert (Hat : ∀ va, 0 ≤ va < KERNBASE → is_uint32 va) by (unfold is_uint32, KERNBASE; lia).
  assert (Hk1 : k = 1 → pte_of m' pgdir a = pte_for (V2P p) perm).
  { intros ->. rewrite (Hm a) by (by apply Hat). rewrite decide_True by (unfold PGSIZE; lia). rewrite page_id by done. f_equal. lia. }
  assert (Hfr : k = 1 → user_page m' pgdir a ∧ frame m' pgdir a = p).
  { intros E. unfold user_page, frame. rewrite (Hk1 E), Ea, Epr, P2V_V2P by (destruct Hp; lia). done. }
  split_and!; [| |exact Hfr].
  - intros va Hu. pose proof Hu as (Hva & Hr & _). destruct (decide (a ≤ va < a + PGSIZE * k)) as [Hd|Hd].
    + left. destruct (Hin va Hva Hd) as [E ->]. split_and!; [done|done|by apply Hfr].
    + right. pose proof (Hm va (Hat va Hr)) as E. rewrite decide_False in E by done. apply user_page_ext in E as [E1 E2]. by rewrite <-E1.
  - intros va Hu. pose proof Hu as (Hva & Hr & Hp'). pose proof (Hm va (Hat va Hr)) as E.
    rewrite decide_False in E; [apply user_page_ext in E as [E1 E2]; by rewrite E1|].
    intros Hd. destruct (Hin va Hva Hd) as [_ ->]. by rewrite Hp' in Hnp.
Qed.

Lemma uvm_map pgdir s l s' l' a p perm k :
  uvm pgdir s l → pt_step pgdir s l s' l' → mapped (mem s) (mem s') pgdir a (a + PGSIZE * k) (V2P p) perm → k = 0 ∨ k = 1 →
  a mod PGSIZE = 0 → 0 ≤ a < KERNBASE → present (pte_of (mem s) pgdir a) = false → 0 ≤ perm < PGSIZE →
  page_ok sym_end p → ¬ pool (mem s) pgdir l p →
  uvm pgdir s' l' ∧ ∀ q, pool (mem s') pgdir l' q ↔ k = 1 ∧ q = p ∨ pool (mem s) pgdir l q.
Proof.
  intros [U1 U2 U3 U4 U5 U6] [_ S1 S2 S3 S4 S5 S6 S7 _] Hm Hk Ha Har Hnp Hf Hp Hpool.
  destruct (mapped_pages _ _ _ _ _ _ _ Hm Hk Ha Har Hnp (page_ok_is _ _ Hp) Hf) as (Hnew & Hold & Hk1).
  assert (Hsub : ∀ q, q ∈ l' → q ∈ l) by (destruct S3 as [j ->]; intros q Hq; apply elem_of_app; by right).
  assert (Hofl : ∀ va, user_page (mem s) pgdir va → frame (mem s) pgdir va ≠ p) by (intros va Hva E; apply Hpool; right; right; by exists va).
  split.
  - split; [done|done|done| | |].
    + intros q [Hq|Hq]%S6; [by apply U4|]. pose proof (kr_page _ _ U2) as Hl. rewrite Forall_forall in Hl. by apply Hl.
    + intros va [(E & -> & ->)|[Hu ->]]%Hnew.
      * split; [done|]. split; [intros Hin; apply Hpool; left; auto|]. intros [Hq|Hq]%S6; apply Hpool; [by right; left|by left].
      * destruct (U5 va Hu) as (F1 & F2 & F3). split; [done|]. split; [by intros ?%Hsub|]. by intros [?|?]%S6.
    + intros va va' [(E & -> & ->)|[Hu ->]]%Hnew [(_ & -> & ->)|[Hu' ->]]%Hnew Efr; [done| | |by apply U6].
      * by destruct (Hofl va').
      * by destruct (Hofl va).
  - intros q. unfold pool, owned. split.
    + intros [Hq|[Hq|(va & Hva & ->)]]; [right; left; auto|apply S6 in Hq; tauto|].
      apply Hnew in Hva as [(E & -> & ->)|[Hu ->]]; [by left|right; right; right; by exists va].
    + intros [[E ->]|[Hq|[Hq|(va & Hva & ->)]]].
      * right. right. exists a. by destruct (Hk1 E).
      * apply S7 in Hq as [?|?]; tauto.
      * right. left. by apply S5.
      * right. right. exists va. destruct (Hold va Hva) as [? ->]. done.
Qed.

(** ** Writing outside the tables *)

Lemma page_word_ext m m' p i :
  is_page p → 0 ≤ i < 1024 → (∀ b, PGROUNDDOWN b = p → ld m' b = ld m b) → ld32 m' (p + 4 * i) = ld32 m (p + 4 * i).
Proof.
  intros Hp Hi E. destruct (page_word p i Hp Hi) as [_ ?]. apply ld32_ext. intros k Hk. apply E, PGROUNDDOWN_page; [done|lia].
Qed.

Lemma tables_ext m m' pgdir l :
  pt_wf m pgdir l → (∀ b, pt_page m pgdir (PGROUNDDOWN b) → ld m' b = ld m b) →
  same_dir m m' pgdir ∧ pt_wf m' pgdir l ∧ ∀ va, pte_of m' pgdir va = pte_of m pgdir va.
Proof.
  intros Hw E. pose proof Hw as [Hd Hu Ht Hi].
  assert (Hsd : same_dir m m' pgdir).
  { intros i Hir. apply page_word_ext; [done|done|]. intros b Hb. apply E. by left. }
  assert (Etab : ∀ i, 0 ≤ i < 1024 → table_of m' pgdir i = table_of m pgdir i) by (intros i Hir; unfold table_of; by rewrite Hsd).
  assert (Hw' : pt_wf m' pgdir l).
  { split; [done|done| |].
    - intros i Hir. rewrite Hsd, Etab by done. auto.
    - intros i j Hir Hjr. rewrite !Hsd, !Etab by done. auto. }
  split_and!; [done|done|]. intros va. pose proof (PDX_bound va) as Hdb. unfold pte_of. rewrite (pte_addr_wf _ _ _ _ Hw), (pte_addr_wf _ _ _ _ Hw').
  rewrite Hsd, Etab by done. destruct (present _) eqn:Hp; [|done]. destruct (Ht _ Hdb Hp) as (Hpg & _). apply page_word_ext; [done|apply PTX_bound|].
  intros b Hb. apply E. right. by exists (PDX va).
Qed.

Lemma uvm_not_owned pgdir s l q : uvm pgdir s l → q ∈ l → ¬ owned (mem s) pgdir q.
Proof.
  intros [U1 U2 U3 U4 U5 U6] Hq [Hp|(va & Hva & ->)].
  - by destruct (pt_page_is _ _ _ _ U3 Hp).
  - by destruct (U5 va Hva) as (_ & ? & _).
Qed.

(** The same table with another free list. *)
Lemma uvm_ext pgdir s s' l l' :
  uvm pgdir s l → kmem_unlocked s' → kmem_rep l' s' → (∀ q, q ∈ l' → ¬ owned (mem s) pgdir q) →
  (∀ b, pt_page (mem s) pgdir (PGROUNDDOWN b) → ld (mem s') b = ld (mem s) b) →
  uvm pgdir s' l' ∧ (∀ va, pte_of (mem s') pgdir va = pte_of (mem s) pgdir va) ∧ (∀ p, pt_page (mem s') pgdir p ↔ pt_page (mem s) pgdir p)
  ∧ (∀ p, owned (mem s') pgdir p ↔ owned (mem s) pgdir p).
Proof.
  intros [U1 U2 U3 U4 U5 U6] Hn Hr Hl E. destruct (tables_ext _ _ _ _ U3 E) as (Hsd & [W1 W2 W3 W4] & Hpte).
  assert (Hpg : ∀ p, pt_page (mem s') pgdir p ↔ pt_page (mem s) pgdir p) by (intros p; by apply same_dir_pages).
  assert (Hup : ∀ va, user_page (mem s') pgdir va ↔ user_page (mem s) pgdir va) by (intros va; by apply user_page_ext).
  assert (Hfr : ∀ va, frame (mem s') pgdir va = frame (mem s) pgdir va) by (intros va; by apply user_page_ext).
  assert (Hown : ∀ p, owned (mem s') pgdir p ↔ owned (mem s) pgdir p) by (intros p; unfold owned; rewrite Hpg; by setoid_rewrite Hup; setoid_rewrite Hfr).
  assert (Hpl : ∀ p, pt_page (mem s') pgdir p → p ∉ l') by (intros p Hp Hin; apply (Hl p Hin); left; by apply Hpg).
  split_and!; [|done..]. split; [done|done| | | |].
  - split; [done|apply Hpl; by left| |done]. intros i Hi Hp. destruct (W3 i Hi Hp) as (? & ? & _). split_and!; [done..|]. apply Hpl. right. by exists i.
  - intros p. rewrite Hpg. auto.
  - intros va. rewrite Hup, Hfr, Hpg. intros Hva. destruct (U5 va Hva) as (? & _ & ?). split_and!; [done| |done].
    intros Hin. apply (Hl _ Hin). right. by exists va.
  - intros va va'. rewrite !Hup, !Hfr. auto.
Qed.

(** ** Unmapping a page *)

Lemma page_store p b v i : is_page p → 0 ≤ i < 1024 → PGROUNDDOWN b ≠ p → ∀ m, ld (st32 m (p + 4 * i) v) b = ld m b.
Proof.
  intros Hp Hi Hb m. apply ld_st32_ne. destruct (page_word p i Hp Hi) as [_ ?]. intros Hr. apply Hb, PGROUNDDOWN_page; [done|lia].
Qed.

Lemma kfree_unlocked s v s' : kmem_unlocked s → page_ok sym_end v → kfree v s = Ok tt s' → kmem_unlocked s'.
Proof. intros Hn Hv. rewrite (kfree_run s v Hn Hv). by intros [= <-]. Qed.

Lemma pt_wf_cons m pgdir p l : pt_wf m pgdir l → ¬ pt_page m pgdir p → pt_wf m pgdir (p :: l).
Proof.
  intros [H1 H2 H3 H4] Hn. split; [done| | |done].
  - apply not_elem_of_cons. split; [|done]. intros ->. apply Hn. by left.
  - intros i Hi Hp. destruct (H3 i Hi Hp) as (? & ? & ?). split_and!; [done|done|]. apply not_elem_of_cons. split; [|done].
    intros <-. apply Hn. right. by exists i.
Qed.

Lemma user_page_table m pgdir l va : pt_wf m pgdir l → user_page m pgdir va →
  present (ld32 m (pgdir + 4 * PDX va)) = true ∧ pte_of m pgdir va = ld32 m (table_of m pgdir (PDX va) + 4 * PTX va).
Proof.
  intros Hw (_ & _ & Hp). unfold pte_of in *. rewrite (pte_addr_wf _ _ _ _ Hw) in *. by destruct (present (ld32 _ _)).
Qed.

Lemma same_page va a : is_uint32 va → is_uint32 a → a mod PGSIZE = 0 → PDX va = PDX a ∧ PTX va = PTX a ↔ a ≤ va < a + PGSIZE.
Proof.
  intros Hva Ha Hal. unfold PGSIZE in *. split.
  - intros [E1 E2]. pose proof (same_entry va a Hva Ha E1 E2) as E. unfold PGSIZE in *. zlia.
  - intros Hr. rewrite !PDX_eq, !PTX_eq. unfold is_uint32 in *. zlia.
Qed.

Lemma user_page_uint m pgdir va : user_page m pgdir va → is_uint32 va.
Proof. intros (_ & ? & _). unfold is_uint32, KERNBASE in *. lia. Qed.

(** User memory without the page at [a]. *)
Lemma unmapped_pages m m' pgdir a :
  user_page m pgdir a →
  (∀ va, is_uint32 va → pte_of m' pgdir va = if decide (a ≤ va < a + PGSIZE) then 0 else pte_of m pgdir va) →
  (∀ va, user_page m' pgdir va ↔ user_page m pgdir va ∧ va ≠ a) ∧ (∀ va, user_page m pgdir va → va ≠ a → frame m' pgdir va = frame m pgdir va).
Proof.
  intros Ha E. assert (Hne : ∀ va, user_page m pgdir va → va ≠ a → pte_of m' pgdir va = pte_of m pgdir va).
  { intros va Hva Hne. rewrite (E va (user_page_uint _ _ _ Hva)), decide_False; [done|].
    destruct Hva as (? & _), Ha as (? & _). unfold PGSIZE in *. zlia. }
  split.
  - intros va. split.
    + intros Hva. pose proof (E va (user_page_uint _ _ _ Hva)) as Ev. case_decide as Hd.
      * destruct Hva as (_ & _ & Hp). by rewrite Ev in Hp.
      * split; [by apply (user_page_ext m m')|]. intros ->. apply Hd. unfold PGSIZE. lia.
    + intros [Hva Hna]. by apply (user_page_ext m m'); [apply Hne|].
  - intros va Hva Hna. by apply user_page_ext, Hne.
Qed.

Lemma unmap_page pgdir s l a :
  uvm pgdir s l → user_page (mem s) pgdir a →
  let p := frame (mem s) pgdir a in
  ∃ s1 s', kfree p s = Ok tt s1 ∧ store32 (table_of (mem s) pgdir (PDX a) + 4 * PTX a) 0 s1 = Ok tt s'
    ∧ ustep pgdir s l s' (p :: l) ∧ same_dir (mem s) (mem s') pgdir
    ∧ (∀ va, is_uint32 va → pte_of (mem s') pgdir va = if decide (a ≤ va < a + PGSIZE) then 0 else pte_of (mem s) pgdir va).
Proof.
  intros Hu Ha p. pose proof Hu as [U1 U2 U3 U4 U5 U6]. destruct (U5 a Ha) as (Hp & Hpl & Hpt). fold p in Hp, Hpl, Hpt.
  destruct (kfree_rep l s p U1 U2 Hp Hpl) as (s1 & Ek & Hr1 & Hf1 & Hm1). pose proof (page_ok_is _ _ Hp) as Hpp.
  assert (E1 : ∀ b, PGROUNDDOWN b ≠ p → ld (mem s1) b = ld (mem s) b) by (intros b Hb; apply Hm1; by rewrite (PGROUNDDOWN_page p b Hpp)).
  destruct (tables_ext (mem s) (mem s1) pgdir l U3) as (Hsd1 & Hw1 & Hpte1); [intros b Hb; apply E1; congruence|].
  assert (Hpt1 : ¬ pt_page (mem s1) pgdir p) by (by rewrite (same_dir_pages _ _ _ _ Hsd1)).
  destruct (user_page_table _ _ _ _ U3 Ha) as [Hpr _]. pose proof (PDX_bound a) as Hd. pose proof (PTX_bound a) as Ht.
  assert (Hpr1 : present (ld32 (mem s1) (pgdir + 4 * PDX a)) = true) by (by rewrite Hsd1).
  destruct (pt_store _ _ _ a 0 (pt_wf_cons _ _ _ _ Hw1 Hpt1) Hpr1) as (Hw2 & Hsd2 & Hst).
  assert (Et : table_of (mem s1) pgdir (PDX a) = table_of (mem s) pgdir (PDX a)) by (unfold table_of; by rewrite Hsd1).
  destruct (pw_table _ _ _ Hw1 _ Hd Hpr1) as (Htp & _). rewrite Et in Hw2, Hsd2, Hst, Htp. set (t := table_of (mem s) pgdir (PDX a)) in *.
  set (m' := st32 (mem s1) (t + 4 * PTX a) 0) in *. set (s' := s1 <| km ::= λ k, k <| k_mem ::= λ _, m' |> |>).
  assert (Hsd : same_dir (mem s) m' pgdir) by (intros i Hi; by rewrite Hsd2, Hsd1).
  assert (Hpte : ∀ va, is_uint32 va → pte_of m' pgdir va = if decide (a ≤ va < a + PGSIZE) then 0 else pte_of (mem s) pgdir va).
  { intros va Hva. rewrite Hst, Hpte1. destruct Ha as (Hal & Har & _).
    by rewrite (decide_ext _ _ _ _ (same_page va a Hva (ltac:(unfold is_uint32, KERNBASE in *; lia)) Hal)). }
  assert (Htpg : pt_page (mem s) pgdir t) by (right; by exists (PDX a)).
  assert (Emem : ∀ b, PGROUNDDOWN b ≠ t → ld m' b = ld (mem s1) b) by (intros b Hb; by apply page_store).
  destruct (unmapped_pages _ _ _ _ Ha Hpte) as [Hup Hfr].
  assert (Hr' : kmem_rep (p :: l) s').
  { apply kmem_rep_mem; [done|]. intros q Hq. eapply free_word; [done|exact Hw2| |done].
    intros b Hb%(off_tables_page _ _ _ _ Hw2). apply Emem. intros E. apply Hb. rewrite E. by apply (same_dir_pages _ _ _ _ Hsd). }
  exists s1, s'. split; [done|]. split; [done|]. split; [|done]. split.
  - rewrite <-Hf1. by destruct s1.
  - change (uvm pgdir s' (p :: l)). split; change (mem s') with m'; [exact (kfree_unlocked s p s1 U1 Hp Ek)|done|done| | |].
    + intros q Hq%(same_dir_pages _ _ _ _ Hsd). auto.
    + intros va [Hva Hna]%Hup. rewrite (Hfr va Hva Hna), (same_dir_pages _ _ _ _ Hsd). destruct (U5 va Hva) as (? & ? & ?).
      split_and!; [done| |done]. apply not_elem_of_cons. split; [|done]. intros E. by apply Hna, U6.
    + intros va va' [Hva Hna]%Hup [Hva' Hna']%Hup. rewrite !Hfr by done. by apply U6.
  - intros q. change (mem s') with m'. unfold pool, owned. rewrite (same_dir_pages _ _ _ _ Hsd), elem_of_cons. split.
    + intros [[->|?]|[?|(va & [Hva Hna]%Hup & ->)]]; [|tauto..|].
      * right. right. by exists a.
      * right. right. exists va. by rewrite Hfr.
    + intros [?|[?|(va & Hva & ->)]]; [tauto..|]. destruct (decide (va = a)) as [->|Hna]; [left; by left|].
      right. right. exists va. by rewrite Hup, Hfr.
  - intros b _ Hb Hbt. change (mem s') with m' in *. apply not_elem_of_cons in Hb as [Hb _]. rewrite Emem, E1; [done|done|].
    intros E. apply Hbt. rewrite E. by apply (same_dir_pages _ _ _ _ Hsd).
Qed.

(** * [deallocuvm] *)

Context (Hend : KERNBASE < sym_end).

(** The jump over the addresses of a missing table. *)
Definition next_table (a : Z) : Z := (a / 4194304 + 1) * 4194304.
Lemma jump_eq a : 0 ≤ a < KERNBASE → u32 (PGADDR (PDX a + 1) 0 0 - PGSIZE + PGSIZE) = next_table a.
Proof.
  intros Ha. unfold PGADDR, next_table. rewrite Z.shiftl_0_l, !Z.lor_0_r, Z.shiftl_mul_pow2 by lia. change (2 ^ 22) with 4194304.
  assert (PDX a = a / 4194304) as -> by (rewrite PDX_eq; unfold KERNBASE in *; zlia).
  unfold KERNBASE, PGSIZE, u32 in *. zlia.
Qed.
Lemma next_table_bound a : 0 ≤ a < KERNBASE → a mod PGSIZE = 0 → a + PGSIZE ≤ next_table a ≤ KERNBASE ∧ next_table a mod PGSIZE = 0.
Proof. unfold next_table, KERNBASE, PGSIZE. intros. zlia. Qed.
Lemma same_table a va : 0 ≤ a < KERNBASE → is_uint32 va → a ≤ va < next_table a → PDX va = PDX a.
Proof. unfold next_table, KERNBASE, is_uint32. intros. rewrite !PDX_eq. zlia. Qed.

(** The user pages from [lo] to [hi] are gone. *)
Definition unmapped (m m' : gmap Z Z) (pgdir lo hi : Z) : Prop :=
  ∀ va, is_uint32 va → pte_of m' pgdir va =
    if decide (lo ≤ va < hi ∧ present (pte_of m pgdir va) = true) then 0 else pte_of m pgdir va.

Lemma unmapped_snoc m m1 m2 pgdir lo a b :
  lo ≤ a ≤ b → unmapped m m1 pgdir lo a → unmapped m1 m2 pgdir a b → unmapped m m2 pgdir lo b.
Proof.
  intros Hab H1 H2 va Hva. rewrite (H2 va Hva), (H1 va Hva). destruct (decide (lo ≤ va < b ∧ present (pte_of m pgdir va) = true)) as [Hd|Hd].
  - destruct (decide (va < a)).
    + rewrite (decide_True (P := lo ≤ va < a ∧ _)) by (split; [lia|apply Hd]). by case_decide.
    + rewrite (decide_False (P := lo ≤ va < a ∧ _)) by lia. rewrite decide_True; [done|]. split; [lia|apply Hd].
  - rewrite (decide_False (P := lo ≤ va < a ∧ _)) by (intros [? ?]; apply Hd; split; [lia|done]).
    rewrite decide_False; [done|]. intros [? ?]. apply Hd. split; [lia|done].
Qed.
Lemma unmapped_absent m pgdir a b : (∀ va, is_uint32 va → a ≤ va < b → present (pte_of m pgdir va) = false) → unmapped m m pgdir a b.
Proof. intros Hn va Hva. rewrite decide_False; [done|]. intros [Hr Hp]. by rewrite Hn in Hp. Qed.
Lemma unmapped_page m m' pgdir a : present (pte_of m pgdir a) = true → is_uint32 a → a mod PGSIZE = 0 →
  (∀ va, is_uint32 va → pte_of m' pgdir va = if decide (a ≤ va < a + PGSIZE) then 0 else pte_of m pgdir va) → unmapped m m' pgdir a (a + PGSIZE).
Proof.
  intros Hp Ha Hal E va Hva. rewrite (E va Hva). case_decide as Hd; [|rewrite decide_False by tauto; done].
  rewrite decide_True; [done|]. split; [done|]. apply (same_page va a Hva Ha Hal) in Hd as [E1 E2]. unfold pte_of, pte_addr in *. by rewrite E1, E2.
Qed.

(** A turn of the loop. *)
Lemma dealloc_step pgdir oldsz newsz s l a :
  uvm pgdir s l → a mod PGSIZE = 0 → 0 ≤ a < oldsz → oldsz ≤ KERNBASE →
  ∃ b s' l', dealloc_body pgdir oldsz newsz a s = Ok (inl b) s' ∧ ustep pgdir s l s' l' ∧ l ⊆ l' ∧ same_dir (mem s) (mem s') pgdir
    ∧ unmapped (mem s) (mem s') pgdir a b ∧ a + PGSIZE ≤ b ≤ KERNBASE ∧ b mod PGSIZE = 0
    ∧ (∀ va, is_uint32 va → a + PGSIZE ≤ va < b → present (pte_of (mem s) pgdir va) = false).
Proof.
  intros Hu Hal Har Ho. unfold dealloc_body. rewrite (proj2 (Z.ltb_lt _ _)) by lia. assert (Hk : 0 ≤ a < KERNBASE) by lia.
  pose proof (uv_pt _ _ _ Hu) as Hw. destruct (present (ld32 (mem s) (pgdir + 4 * PDX a))) eqn:Hpr.
  - mstep_with (walk_found s pgdir l a false Hw Hpr). destruct (pw_table _ _ _ Hw _ (PDX_bound a) Hpr) as (Htp & _).
    set (t := table_of (mem s) pgdir (PDX a)) in *. pose proof (PTX_bound a).
    rewrite (proj2 (Z.eqb_neq (t + 4 * PTX a) 0)) by (destruct Htp; lia). unfold load32. rewrite bind_gets.
    assert (Epte : pte_of (mem s) pgdir a = ld32 (mem s) (t + 4 * PTX a)) by (unfold pte_of; by rewrite (pte_addr_wf _ _ _ _ Hw), Hpr).
    rewrite <-Epte. assert (Hb : u32 (a + PGSIZE) = a + PGSIZE) by (apply u32_small; unfold KERNBASE, PGSIZE in *; lia). rewrite Hb.
    assert (Hb2 : a + PGSIZE ≤ KERNBASE ∧ (a + PGSIZE) mod PGSIZE = 0) by (unfold KERNBASE, PGSIZE in *; zlia).
    assert (Hau : is_uint32 a) by (unfold is_uint32, KERNBASE in *; lia). exists (a + PGSIZE).
    destruct (present (pte_of (mem s) pgdir a)) eqn:Hp.
    + assert (Ha : user_page (mem s) pgdir a) by done. destruct (unmap_page pgdir s l a Hu Ha) as (s1 & s' & Ek & Es & Hst & Hsd & Hpte).
      destruct (uv_frame _ _ _ Hu a Ha) as ((_ & Hf & _) & _).
      assert (Ez : PTE_ADDR (pte_of (mem s) pgdir a) =? 0 = false) by (apply Z.eqb_neq; intros E; unfold frame in Hf; rewrite E in Hf; by apply (Z.lt_irrefl KERNBASE), (Z.lt_le_trans _ sym_end)).
      rewrite Ez. rewrite bind_assoc. mstep_with Ek. mstep_with Es. exists s', (frame (mem s) pgdir a :: l). split_and!; try done; try lia.
      * intros q Hq. by right.
      * by apply unmapped_page.
    + exists s, l. split; [done|]. split; [by apply ustep_refl|]. split_and!; try done; try lia.
      apply unmapped_absent. intros va Hva Hr. apply (same_page va a Hva Hau Hal) in Hr as [E1 E2]. unfold pte_of, pte_addr in *. by rewrite E1, E2.
  - mstep_with (walk_absent s pgdir l a Hw Hpr). destruct (next_table_bound a Hk Hal) as [Hb1 Hb2].
    assert (Habs : ∀ va, is_uint32 va → a ≤ va < next_table a → present (pte_of (mem s) pgdir va) = false).
    { intros va Hva Hr. unfold pte_of. rewrite (pte_addr_wf _ _ _ _ Hw), (same_table a va Hk Hva Hr), Hpr. done. }
    exists (next_table a), s, l. split; [by rewrite jump_eq|]. split; [by apply ustep_refl|]. split; [done|]. split; [done|].
    split; [by apply unmapped_absent|]. split_and!; [lia|lia|done|]. intros va Hva Hr. apply Habs; [done|unfold PGSIZE in *; lia].
Qed.

Lemma roundup_spec a : 0 ≤ a ≤ KERNBASE → let hi := PGROUNDUP a in a ≤ hi < a + PGSIZE ∧ hi mod PGSIZE = 0 ∧ hi ≤ KERNBASE.
Proof. intros Ha hi. unfold hi. rewrite PGROUNDUP_eq by (unfold KERNBASE, PGSIZE in *; lia). unfold KERNBASE, PGSIZE in *. zlia. Qed.

Lemma dealloc_loop pgdir oldsz newsz hi : ∀ fuel s l a,
  uvm pgdir s l → a mod PGSIZE = 0 → 0 ≤ a → oldsz ≤ KERNBASE → oldsz ≤ hi < oldsz + PGSIZE → hi mod PGSIZE = 0 →
  (Z.to_nat ((hi - a) / PGSIZE) < fuel)%nat →
  ∃ s' l', iterM fuel (dealloc_body pgdir oldsz newsz) a s = Ok newsz s' ∧ ustep pgdir s l s' l' ∧ l ⊆ l' ∧ same_dir (mem s) (mem s') pgdir
    ∧ unmapped (mem s) (mem s') pgdir a hi.
Proof.
  induction fuel as [|fuel IH]; intros s l a Hu Hal Ha Ho Hhi Hhal Hf; [lia|]. rewrite iterM_S.
  destruct (Z.ltb_spec a oldsz) as [Hlt|Hge].
  - destruct (dealloc_step pgdir oldsz newsz s l a Hu Hal ltac:(lia) Ho) as (b & s1 & l1 & E1 & Hs1 & Hl1 & Hd1 & Hm1 & Hb & Hbal & Habs).
    mstep_with E1. destruct (IH s1 l1 b) as (s' & l' & E & Hs & Hl & Hd & Hm); try done; [by apply Hs1|unfold PGSIZE in *; lia|unfold PGSIZE in *; zlia|].
    exists s', l'. split; [done|]. split; [|split; [by transitivity l1|split; [intros i Hi; by rewrite Hd, Hd1|]]].
    + eapply ustep_trans; [done|done| |by right]. intros p Hp. by apply (same_dir_pages _ _ _ _ Hd).
    + destruct (decide (b ≤ hi)).
      * eapply unmapped_snoc; [|done|done]. unfold PGSIZE in *; lia.
      * intros va Hva. rewrite (Hm va Hva), decide_False, (Hm1 va Hva) by lia. apply decide_ext. split; [|intros [? ?]; split; [lia|done]].
        intros [Hr Hp]. split; [|done]. destruct (decide (va < hi)); [lia|]. rewrite Habs in Hp; [done|done|unfold PGSIZE in *; zlia].
  - assert (Eb : dealloc_body pgdir oldsz newsz a s = Ok (inr newsz) s) by (unfold dealloc_body; by rewrite (proj2 (Z.ltb_ge _ _))).
    mstep_with Eb. exists s, l. split; [done|]. split; [by apply ustep_refl|]. split_and!; [done|done|]. intros va Hva.
    rewrite decide_False; [done|]. intros [Hr _]. unfold PGSIZE in *. zlia.
Qed.

Lemma dealloc_run pgdir oldsz newsz s l :
  uvm pgdir s l → 0 ≤ newsz < oldsz → oldsz ≤ KERNBASE →
  ∃ s' l', deallocuvm pgdir oldsz newsz s = Ok newsz s' ∧ ustep pgdir s l s' l' ∧ l ⊆ l' ∧ same_dir (mem s) (mem s') pgdir
    ∧ unmapped (mem s) (mem s') pgdir (PGROUNDUP newsz) (PGROUNDUP oldsz).
Proof.
  intros Hu Hn Ho. unfold deallocuvm. rewrite (proj2 (Z.leb_gt _ _)) by lia.
  destruct (roundup_spec newsz) as (Hl1 & Hl2 & _); [lia|]. destruct (roundup_spec oldsz) as (Hh1 & Hh2 & _); [lia|].
  apply (dealloc_loop pgdir oldsz newsz (PGROUNDUP oldsz)); try done; [lia|]. unfold PGSIZE in *. zlia.
Qed.

(** * A page in hand *)

(** From [s], [l] to [s'], [l'] pages have been exchanged, and the page [p] is held by the code. *)
Record in_hand (pgdir : Z) (s : kstate) (l : list Z) (s' : kstate) (p : Z) (l' : list Z) : Prop := {
  hd_frame : s' <| km := km s |> = s;
  hd_uvm : uvm pgdir s' l';
  hd_page : page_ok sym_end p;
  hd_new : ¬ pool (mem s') pgdir l' p;
  hd_pool q : pool (mem s') pgdir (p :: l') q ↔ pool (mem s) pgdir l q;
  hd_mem b : PGROUNDDOWN b ∉ l → PGROUNDDOWN b ∉ p :: l' → ¬ pt_page (mem s') pgdir (PGROUNDDOWN b) → ld (mem s') b = ld (mem s) b }.

Lemma in_hand_step pgdir s l s' p l' s2 l2 :
  in_hand pgdir s l s' p l' → ustep pgdir s' l' s2 l2 → tables_grow (mem s') (mem s2) pgdir → l' ⊆ l2 → in_hand pgdir s l s2 p l2.
Proof.
  intros [F1 U1 O1 N1 P1 M1] [F2 U2 P2 M2] Hg Hl. split; [by rewrite <-F1, <-F2|done|done|by rewrite P2| |].
  - intros q. by rewrite <-P1, !pool_cons, P2.
  - intros b H1 H3 Hb. pose proof (not_elem_of_cons (A:=Z)) as Hc. rewrite Hc in H3. rewrite M2, M1; [done|done|rewrite Hc|..]; naive_solver.
Qed.

Lemma kmem_rep_outside l s p m' :
  kmem_rep l s → is_page p → p ∉ l → (∀ b, PGROUNDDOWN b ≠ p → ld m' b = ld (mem s) b) →
  kmem_rep l (s <| km ::= λ k, k <| k_mem ::= λ _, m' |> |>).
Proof.
  intros Hr Hp Hpl E. apply kmem_rep_mem; [done|]. intros q Hq. pose proof (kmem_rep_page _ _ _ Hr Hq) as Hqp.
  pose proof (page_word_ext (mem s) m' q 0 Hqp ltac:(lia)) as Ew. rewrite Z.mul_0_r, Z.add_0_r in Ew. apply Ew. intros b Hb. apply E. congruence.
Qed.

(** A page is taken from the free list, and filled. *)
Lemma take_page pgdir s p l (f : gmap Z Z → gmap Z Z) :
  uvm pgdir s (p :: l) → (∀ m b, PGROUNDDOWN b ≠ p → ld (f m) b = ld m b) →
  ∃ s1 s2, kalloc s = Ok p s1 ∧ upd_mem f s1 = Ok tt s2 ∧ in_hand pgdir s (p :: l) s2 p l ∧ mem s2 = f (mem s)
    ∧ (∀ va, pte_of (mem s2) pgdir va = pte_of (mem s) pgdir va) ∧ ∀ q, pt_page (mem s2) pgdir q ↔ pt_page (mem s) pgdir q.
Proof.
  intros Hu Hf. destruct (kalloc_rep _ s (uv_unlocked _ _ _ Hu) (uv_rep _ _ _ Hu)) as (s1 & Ek & Hr1 & Em1 & Hf1).
  pose proof (kalloc_unlocked s p s1 (uv_unlocked _ _ _ Hu) Ek) as Hn1. pose proof (uv_rep _ _ _ Hu) as [_ [Hp Hpl]%Forall_cons [Hnin _]%NoDup_cons].
  pose proof (page_ok_is _ _ Hp) as Hpp. pose proof (uvm_not_owned _ _ _ p Hu ltac:(left)) as Hno.
  set (s2 := s1 <| km ::= λ k, k <| k_mem ::= f |> |>). exists s1, s2. split; [done|]. split; [done|].
  assert (Em2 : mem s2 = f (mem s)) by (rewrite <-Em1; done).
  assert (Eb : ∀ b, PGROUNDDOWN b ≠ p → ld (mem s2) b = ld (mem s) b) by (intros b Hb; by rewrite Em2, Hf).
  destruct (uvm_ext pgdir s s2 (p :: l) l Hu) as (Hu2 & Hpte & Hpg & Hown).
  - done.
  - apply (kmem_rep_outside l s1 p (mem s2) Hr1 Hpp Hnin). by rewrite Em1.
  - intros q Hq. apply (uvm_not_owned _ _ _ _ Hu). by right.
  - intros b Hb. apply Eb. intros E. apply Hno. left. by rewrite <-E.
  - split; [|done]. split; [|done|done| | |].
    + rewrite <-Hf1. by destruct s1.
    + unfold pool. rewrite Hown. tauto.
    + intros q. unfold pool. by rewrite Hown.
    + intros b Hb _ _. apply not_elem_of_cons in Hb as [Hb _]. by apply Eb.
Qed.

(** The page is given back. *)
Lemma give_page pgdir s l s' p l' :
  in_hand pgdir s l s' p l' → ∃ s2, kfree p s' = Ok tt s2 ∧ ustep pgdir s l s2 (p :: l')
    ∧ (∀ va, pte_of (mem s2) pgdir va = pte_of (mem s') pgdir va) ∧ ∀ q, pt_page (mem s2) pgdir q ↔ pt_page (mem s') pgdir q.
Proof.
  intros [F1 U1 O1 N1 P1 M1]. assert (Hnin : p ∉ l' ∧ ¬ owned (mem s') pgdir p) by (unfold pool in N1; tauto). destruct Hnin as [Hnin Hno].
  destruct (kfree_rep l' s' p (uv_unlocked _ _ _ U1) (uv_rep _ _ _ U1) O1 Hnin) as (s2 & Ek & Hr2 & Hf2 & Hm2). pose proof (page_ok_is _ _ O1) as Hpp.
  assert (Eb : ∀ b, PGROUNDDOWN b ≠ p → ld (mem s2) b = ld (mem s') b) by (intros b Hb; apply Hm2; by rewrite (PGROUNDDOWN_page p b Hpp)).
  destruct (uvm_ext pgdir s' s2 l' (p :: l') U1) as (Hu2 & Hpte & Hpg & Hown).
  - exact (kfree_unlocked s' p s2 (uv_unlocked _ _ _ U1) O1 Ek).
  - done.
  - intros q [->|Hq]%elem_of_cons; [done|by apply (uvm_not_owned _ _ _ _ U1)].
  - intros b Hb. apply Eb. intros E. apply Hno. left. by rewrite <-E.
  - exists s2. split; [done|]. split; [|done]. split; [by rewrite <-F1, <-Hf2|done| |].
    + intros q. rewrite <-P1. unfold pool. by rewrite Hown.
    + intros b H1 H3 Hb. rewrite Hpg in Hb. pose proof H3 as [Hne _]%not_elem_of_cons. by rewrite Eb, M1.
Qed.

Lemma page_range a : a mod PGSIZE = 0 → PGROUNDDOWN a = a ∧ PGROUNDDOWN (a + PGSIZE - 1) + PGSIZE = a + PGSIZE.
Proof. intros Ha. rewrite !PGROUNDDOWN_eq. unfold PGSIZE in *. zlia. Qed.
Lemma same_pte m pgdir va a : is_uint32 va → is_uint32 a → a mod PGSIZE = 0 → a ≤ va < a + PGSIZE → pte_of m pgdir va = pte_of m pgdir a.
Proof. intros Hva Ha Hal Hr. apply (same_page va a Hva Ha Hal) in Hr as [E1 E2]. unfold pte_of, pte_addr. by rewrite E1, E2. Qed.

(** The page in hand is mapped, or no page is left for a table. *)
Lemma map_held pgdir s l s2 p l2 a perm :
  in_hand pgdir s l s2 p l2 → p ∈ l → l2 ⊆ l → a mod PGSIZE = 0 → 0 ≤ a < KERNBASE → present (pte_of (mem s2) pgdir a) = false → 0 ≤ perm < PGSIZE →
  ∃ r s3 l3, mappages pgdir a PGSIZE (V2P p) perm s2 = Ok r s3 ∧ tables_grow (mem s2) (mem s3) pgdir ∧ l3 ⊆ l2 ∧ (length l2 ≤ length l3 + 1)%nat
    ∧ (∀ b, ¬ pt_page (mem s3) pgdir (PGROUNDDOWN b) → ld (mem s3) b = ld (mem s2) b)
    ∧ (r = 0 ∧ ustep pgdir s l s3 l3 ∧ mapped (mem s2) (mem s3) pgdir a (a + PGSIZE) (V2P p) perm
       ∨ r = -1 ∧ l3 = [] ∧ in_hand pgdir s l s3 p l3 ∧ ∀ va, is_uint32 va → pte_of (mem s3) pgdir va = pte_of (mem s2) pgdir va).
Proof.
  intros [F1 U1 O1 N1 P1 M1] Hpl Hsub Hal Har Hnp Hf. destruct (page_range a Hal) as [Ea Eb].
  pose proof (page_ok_is _ _ O1) as [Hpa Hpr]. destruct O1 as (O1a & O1b & O1c & O1d) eqn:EO. clear EO.
  assert (HV : V2P p mod PGSIZE = 0 ∧ 0 ≤ V2P p) by (unfold V2P, u32, KERNBASE, PGSIZE in *; zlia).
  destruct (mappages_run pgdir a PGSIZE (V2P p) perm s2 l2) as (r & s3 & l3 & k & Em & Hps & Hlen & Hk & Hm);
    [apply U1|apply U1|apply U1|done|lia|done|unfold KERNBASE, PGSIZE in *; zlia|lia|lia|..].
  { rewrite Ea, Eb. unfold PHYSTOP, PGSIZE in *. lia. }
  { rewrite Ea, Eb. intros va Hva. rewrite (same_pte _ _ va a); [done|unfold is_uint32, KERNBASE, PGSIZE in *; zlia|unfold is_uint32, KERNBASE in *; lia|done|done]. }
  rewrite Ea in Hk, Hm. rewrite Eb in Hk. exists r, s3, l3.
  assert (Hk01 : r = 0 ∧ k = 1 ∨ (r = -1 ∧ l3 = []) ∧ k = 0) by (destruct Hk as [[-> ?]|(-> & -> & ?)]; [left|right]; unfold PGSIZE in *; (split; [done|lia])).
  destruct (uvm_map pgdir s2 l2 s3 l3 a p perm k U1 Hps Hm) as [Hu Hpool]; try done; [lia|].
  pose proof Hps as [G1 G2 G3 G4 G5 G6 _ _ G7].
  assert (Hl3 : l3 ⊆ l2) by (destruct G4 as [j ->]; intros q Hq; apply elem_of_app; by right).
  assert (Hmem : ∀ b, ¬ pt_page (mem s3) pgdir (PGROUNDDOWN b) → ld (mem s3) b = ld (mem s2) b) by (intros b Hb; by apply G7, (off_tables_page _ _ _ _ G5)).
  assert (Hmem2 : ∀ b, PGROUNDDOWN b ∉ l → ¬ pt_page (mem s3) pgdir (PGROUNDDOWN b) → ld (mem s3) b = ld (mem s) b).
  { intros b Hb Hbt. rewrite Hmem, M1; [done|done| |auto|done]. intros [E|Hin]%elem_of_cons; [by rewrite E in Hb|auto]. }
  split; [done|]. split; [done|]. split; [done|]. split; [rewrite Ea, Eb in Hlen; clear - Hlen; unfold PGSIZE in *; zlia|]. split; [done|].
  destruct Hk01 as [[-> ->]|[[-> ->] ->]]; [left; split; [done|]|right; split; [done|]; split; [done|]].
  - rewrite Z.mul_1_r in Hm. split; [|done]. split; [by rewrite <-F1, <-G1|done| |auto].
    intros q. rewrite Hpool, <-P1, pool_cons. naive_solver.
  - split.
    + split; [by rewrite <-F1, <-G1|done|done| | |auto].
      * rewrite Hpool. naive_solver lia.
      * intros q. rewrite <-P1, !pool_cons, Hpool. naive_solver lia.
    + intros va Hva. rewrite (Hm va Hva), decide_False; [done|lia].
Qed.

(** * [allocuvm] *)

(** The pages from [lo] to [a] are new: writable, taken from the free pages [l], and zero. *)
Record grown (m m' : gmap Z Z) (pgdir : Z) (l : list Z) (lo a : Z) : Prop := {
  gr_new va : va mod PGSIZE = 0 → lo ≤ va < a →
    user_page m' pgdir va ∧ PTE_FLAGS (pte_of m' pgdir va) = Z.lor (Z.lor PTE_W PTE_U) PTE_P ∧ frame m' pgdir va ∈ l
    ∧ ∀ b, PGROUNDDOWN b = frame m' pgdir va → ld m' b = 0;
  gr_old va : is_uint32 va → ¬ lo ≤ va < a → pte_of m' pgdir va = pte_of m pgdir va }.

(** The same translation; entries that are not present may differ. *)
Definition same_map (m m' : gmap Z Z) (pgdir : Z) : Prop :=
  ∀ va, is_uint32 va → if present (pte_of m pgdir va) then pte_of m' pgdir va = pte_of m pgdir va else present (pte_of m' pgdir va) = false.

Lemma shrunk_back m m1 m2 pgdir lo a hi :
  (∀ va, is_uint32 va → ¬ lo ≤ va < a → pte_of m1 pgdir va = pte_of m pgdir va) → a ≤ hi → unmapped m1 m2 pgdir lo hi →
  (∀ va, is_uint32 va → lo ≤ va < hi → present (pte_of m pgdir va) = false) → same_map m m2 pgdir.
Proof.
  intros Hold Ha Hun Hno va Hva. rewrite (Hun va Hva). destruct (decide (lo ≤ va < hi)) as [Hr|Hr].
  - rewrite (Hno va Hva Hr). destruct (present (pte_of m1 pgdir va)) eqn:E; [by rewrite decide_True|]. by rewrite decide_False by (by intros [_ ?]).
  - rewrite (decide_False (P := _ ∧ _)) by tauto. rewrite Hold by (done || lia). by destruct (present _) eqn:E.
Qed.

Lemma memset_outside p : is_page p → ∀ m b, PGROUNDDOWN b ≠ p → ld (memset m p 0 PGSIZE) b = ld m b.
Proof.
  intros Hp m b Hb. rewrite ld_memset by (unfold PGSIZE; lia). rewrite decide_False; [done|]. intros Hr. apply Hb, PGROUNDDOWN_page; [done|]. unfold PGSIZE in *. lia.
Qed.
Lemma memset_inside p m b : is_page p → PGROUNDDOWN b = p → ld (memset m p 0 PGSIZE) b = 0.
Proof.
  intros Hp Hb. rewrite ld_memset by (unfold PGSIZE; lia). rewrite decide_True; [done|]. apply (PGROUNDDOWN_page p b Hp) in Hb. unfold PGSIZE in *. lia.
Qed.

(** The contents of user memory that a step does not unmap. *)
Lemma ustep_contents pgdir s l s' l' va b :
  uvm pgdir s l → ustep pgdir s l s' l' → user_page (mem s) pgdir va → pte_of (mem s') pgdir va = pte_of (mem s) pgdir va →
  PGROUNDDOWN b = frame (mem s) pgdir va → ld (mem s') b = ld (mem s) b.
Proof.
  intros Hu Hs Hva E Hb. destruct (user_page_ext _ _ _ _ E) as [Hva' Hfr]. apply Hva' in Hva as Hva2.
  destruct (uv_frame _ _ _ Hu va Hva) as (_ & H1 & _). destruct (uv_frame _ _ _ (us_uvm _ _ _ _ _ Hs) va Hva2) as (_ & H2 & H3).
  rewrite Hfr in H2, H3. apply (us_mem _ _ _ _ _ Hs); by rewrite Hb.
Qed.

Lemma grown_snoc pgdir s l s2 s3 l3 m0 l0 lo a p :
  let perm := Z.lor PTE_W PTE_U in
  uvm pgdir s l → ustep pgdir s l s3 l3 → grown m0 (mem s) pgdir l0 lo a → p ∈ l → l ⊆ l0 → is_page p → lo ≤ a → a mod PGSIZE = 0 → 0 ≤ a < KERNBASE →
  present (pte_of (mem s) pgdir a) = false →
  mem s2 = memset (mem s) p 0 PGSIZE → (∀ va, pte_of (mem s2) pgdir va = pte_of (mem s) pgdir va) →
  mapped (mem s2) (mem s3) pgdir a (a + PGSIZE) (V2P p) perm → (∀ b, ¬ pt_page (mem s3) pgdir (PGROUNDDOWN b) → ld (mem s3) b = ld (mem s2) b) →
  grown m0 (mem s3) pgdir l0 lo (a + PGSIZE).
Proof.
  intros perm Hu Hs [Gn Go] Hp Hsub Hpp Hlo Hal Har Hnp E2 Hpte2 Hm Hmem.
  assert (Hm' : ∀ va, is_uint32 va → ¬ a ≤ va < a + PGSIZE → pte_of (mem s3) pgdir va = pte_of (mem s) pgdir va).
  { intros va Hva Hr. rewrite (Hm va Hva), decide_False; [apply Hpte2|done]. }
  split.
  - intros va Hval Hr. destruct (decide (va = a)) as [->|Hne].
    + destruct (mapped_pages (mem s2) (mem s3) pgdir a p perm 1) as (_ & _ & Ha); try done; [by right|by rewrite Hpte2|].
      destruct (Ha eq_refl) as [Hua Hfa]. rewrite Hfa. split; [done|]. split; [|split; [auto|]].
      * rewrite (Hm a) by (unfold is_uint32, KERNBASE in *; lia). rewrite decide_True by (unfold PGSIZE; lia).
        rewrite page_id, Z.sub_diag, Z.add_0_r by done. by destruct (pte_for_page p perm Hpp) as (_ & ? & _).
      * intros b Hb. rewrite Hmem, E2; [by apply memset_inside|]. rewrite Hb, <-Hfa. by apply (uv_frame _ _ _ (us_uvm _ _ _ _ _ Hs) a).
    + destruct (Gn va Hval) as (Hua & Hfl & Hin & Hz); [unfold PGSIZE in *; zlia|].
      assert (E : pte_of (mem s3) pgdir va = pte_of (mem s) pgdir va) by (apply Hm'; [by eapply user_page_uint|unfold PGSIZE in *; zlia]).
      destruct (user_page_ext _ _ _ _ E) as [Hua' Hfr]. rewrite E, Hfr. split_and!; [by apply Hua'|done|done|].
      intros b Hb. rewrite (ustep_contents pgdir s l s3 l3 va b); auto.
  - intros va Hva Hr. rewrite Hm' by (done || lia). apply Go; [done|]. unfold PGSIZE in *. lia.
Qed.

Lemma unmapped_eq m1 m2 m3 m4 pgdir lo hi :
  (∀ va, is_uint32 va → pte_of m2 pgdir va = pte_of m1 pgdir va) → unmapped m2 m3 pgdir lo hi →
  (∀ va, pte_of m4 pgdir va = pte_of m3 pgdir va) → unmapped m1 m4 pgdir lo hi.
Proof. intros E1 Hun E2 va Hva. by rewrite E2, (Hun va Hva), E1. Qed.
Lemma same_dir_grow m m' pgdir : same_dir m m' pgdir → tables_grow m m' pgdir.
Proof. intros E p. by apply same_dir_pages. Qed.

(** A turn of the loop: one more page, or everything back. *)
Lemma alloc_turn pgdir oldsz newsz s l a :
  uvm pgdir s l → 0 ≤ oldsz ≤ a → a < newsz → newsz < KERNBASE → a mod PGSIZE = 0 → present (pte_of (mem s) pgdir a) = false →
  ∃ r s' l', alloc_body pgdir oldsz newsz a s = Ok r s' ∧ ustep pgdir s l s' l' ∧ tables_grow (mem s) (mem s') pgdir
    ∧ match r with
      | inl b => b = a + PGSIZE ∧ l' ⊆ l ∧ (length l ≤ length l' + 2)%nat ∧ ∀ m0 l0 lo, grown m0 (mem s) pgdir l0 lo a → l ⊆ l0 → lo ≤ a → grown m0 (mem s') pgdir l0 lo (a + PGSIZE)
      | inr r => r = 0 ∧ (length l ≤ 2)%nat ∧ unmapped (mem s) (mem s') pgdir (PGROUNDUP oldsz) (PGROUNDUP newsz)
      end.
Proof.
  intros Hu Ho Ha Hn Hal Hnp. unfold alloc_body. rewrite (proj2 (Z.ltb_lt _ _)) by done. assert (Hak : 0 ≤ a < KERNBASE) by lia.
  pose proof (kalloc_rep l s (uv_unlocked _ _ _ Hu) (uv_rep _ _ _ Hu)) as Hk. destruct l as [|p l].
  - mstep_with Hk. destruct (dealloc_run pgdir newsz oldsz s [] Hu) as (s' & l' & Ed & Hs & Hl & Hd & Hun); [lia|lia|].
    change (0 =? 0) with true. cbv iota. mstep_with Ed. exists (inr 0), s', l'. split; [done|]. split; [done|]. split; [by apply same_dir_grow|]. split; [done|]. split; [simpl; lia|done].
  - clear Hk. pose proof (uv_rep _ _ _ Hu) as [_ [Hp _]%Forall_cons _]. pose proof (page_ok_is _ _ Hp) as Hpp.
    destruct (take_page pgdir s p l (λ m, memset m p 0 PGSIZE) Hu (memset_outside p Hpp)) as (s1 & s2 & Ek & Ew & Hh & Em2 & Hpte2 & Hpg2).
    mstep_with Ek. rewrite (proj2 (Z.eqb_neq p 0)) by (destruct Hpp; lia). mstep_with Ew.
    destruct (map_held pgdir s (p :: l) s2 p l a (Z.lor PTE_W PTE_U) Hh) as (r & s3 & l3 & Em & Hg & Hl3 & Hlen & Hmem & Hcase);
      [left|by right|done|done|by rewrite Hpte2|done|]. mstep_with Em.
    assert (Hg0 : tables_grow (mem s) (mem s3) pgdir) by (intros q Hq; by apply Hg, Hpg2).
    destruct Hcase as [(-> & Hs & Hm)|(-> & -> & Hh3 & Hpte3)].
    + change (0 <? 0) with false. cbv iota. exists (inl (a + PGSIZE)), s3, l3.
      split; [rewrite u32_small; [done|unfold KERNBASE, PGSIZE in *; lia]|]. split; [done|]. split; [done|]. split; [done|].
      split; [intros q Hq; right; auto|]. split; [simpl; lia|]. intros m0 l0 lo Hgr Hsub Hlo. eapply (grown_snoc pgdir s (p :: l) s2 s3 l3); try done. left.
    + change (-1 <? 0) with true. cbv iota.
      destruct (dealloc_run pgdir newsz oldsz s3 [] (hd_uvm _ _ _ _ _ _ Hh3)) as (s4 & l4 & Ed & Hs4 & Hl4 & Hd4 & Hun); [lia|lia|]. mstep_with Ed.
      pose proof (in_hand_step _ _ _ _ _ _ _ _ Hh3 Hs4 (same_dir_grow _ _ _ Hd4) Hl4) as Hh4.
      destruct (give_page _ _ _ _ _ _ Hh4) as (s5 & Ef & Hs5 & Hpte5 & Hpg5). mstep_with Ef.
      exists (inr 0), s5, (p :: l4). split; [done|]. split; [done|]. split; [|split; [done|split; [simpl in *; lia|]]].
      * intros q Hq. by apply Hpg5, (same_dir_grow _ _ _ Hd4), Hg0.
      * eapply unmapped_eq; [|done|done]. intros va Hva. by rewrite Hpte3, Hpte2.
Qed.

Lemma alloc_loop pgdir oldsz newsz s0 l0 : ∀ fuel s l a,
  let lo := PGROUNDUP oldsz in let hi := PGROUNDUP newsz in
  ustep pgdir s0 l0 s l → tables_grow (mem s0) (mem s) pgdir → l ⊆ l0 → grown (mem s0) (mem s) pgdir l0 lo a →
  0 ≤ oldsz ≤ newsz → newsz < KERNBASE → a mod PGSIZE = 0 → lo ≤ a ≤ hi →
  (∀ va, is_uint32 va → lo ≤ va < hi → present (pte_of (mem s0) pgdir va) = false) →
  (Z.to_nat ((hi - a) / PGSIZE) < fuel)%nat →
  ∃ r s' l', iterM fuel (alloc_body pgdir oldsz newsz) a s = Ok r s' ∧ ustep pgdir s0 l0 s' l' ∧ tables_grow (mem s0) (mem s') pgdir
    ∧ (r = newsz ∧ Z.of_nat (length l) ≤ Z.of_nat (length l') + 2 * ((hi - a) / PGSIZE) ∧ grown (mem s0) (mem s') pgdir l0 lo hi ∨ r = 0 ∧ same_map (mem s0) (mem s') pgdir ∧ Z.of_nat (length l) ≤ 2 * ((hi - a) / PGSIZE)).
Proof.
  induction fuel as [|fuel IH]; intros s l a lo hi Hs Hg Hl Hgr Ho Hn Hal Har Hno Hf; [lia|]. rewrite iterM_S.
  destruct (roundup_spec oldsz) as (Hl1 & Hl2 & _); [lia|]. destruct (roundup_spec newsz) as (Hh1 & Hh2 & _); [lia|]. fold lo in Hl1, Hl2. fold hi in Hh1, Hh2.
  pose proof (us_uvm _ _ _ _ _ Hs) as Hu. destruct (Z.ltb_spec a newsz) as [Hlt|Hge].
  - destruct (alloc_turn pgdir oldsz newsz s l a Hu) as ([b|r] & s1 & l1 & E1 & Hs1 & Hg1 & Hc); [lia|lia|lia|done| | |].
    { rewrite (gr_old _ _ _ _ _ _ Hgr); [apply Hno|..]; unfold is_uint32, KERNBASE in *; lia. }
    + destruct Hc as (-> & Hl1' & Hlen1 & Hgr1). mstep_with E1.
      assert (Hdiv : (hi - a) / PGSIZE = (hi - (a + PGSIZE)) / PGSIZE + 1) by (clear; unfold PGSIZE; zlia).
      destruct (IH s1 l1 (a + PGSIZE)) as (r & s' & l' & E & Hs' & Hg' & Hr); try done; fold lo hi.
      * eapply ustep_trans; [done|done|done|by left].
      * intros q Hq. by apply Hg1, Hg.
      * by transitivity l.
      * apply Hgr1; [done|done|lia].
      * unfold PGSIZE in *. zlia.
      * unfold PGSIZE in *. zlia.
      * unfold PGSIZE in *. zlia.
      * exists r, s', l'. split_and!; try done. fold lo hi in Hr. destruct Hr as [(? & ? & ?)|(? & ? & ?)]; [left|right]; split_and!; done || lia.
    + destruct Hc as (-> & Hlen1 & Hun). mstep_with E1. exists 0, s1, l1. split; [done|]. split; [eapply ustep_trans; [done|done|done|by left]|].
      split; [intros q Hq; by apply Hg1, Hg|]. right. split; [done|].
      split; [|unfold PGSIZE in *; zlia]. eapply (shrunk_back (mem s0) (mem s)); [apply (gr_old _ _ _ _ _ _ Hgr)| |exact Hun|done]. lia.
  - assert (Eb : alloc_body pgdir oldsz newsz a s = Ok (inr newsz) s) by (unfold alloc_body; by rewrite (proj2 (Z.ltb_ge _ _))).
    mstep_with Eb. exists newsz, s, l. split; [done|]. split; [done|]. split; [done|]. left. split; [done|].
    assert (a = hi) as -> by (unfold PGSIZE in *; zlia). split; [|done]. clear. unfold PGSIZE. zlia.
Qed.

(** * [freevm] *)

(** The pages [l'] are free; pages that are not have not changed since [s]. *)
Record released (s s' : kstate) (l' : list Z) : Prop := {
  rl_frame : s' <| km := km s |> = s;
  rl_unlocked : kmem_unlocked s';
  rl_rep : kmem_rep l' s';
  rl_mem b : PGROUNDDOWN b ∉ l' → ld (mem s') b = ld (mem s) b }.

Lemma release_page s s' l p :
  released s s' l → page_ok sym_end p → p ∉ l → ∃ s2, kfree p s' = Ok tt s2 ∧ released s s2 (p :: l).
Proof.
  intros [F1 U1 R1 M1] Hp Hl. destruct (kfree_rep l s' p U1 R1 Hp Hl) as (s2 & Ek & Hr & Hf & Hm). exists s2. split; [done|].
  split; [by rewrite <-F1, <-Hf|by eapply kfree_unlocked|done|]. intros b [Hb Hbl]%not_elem_of_cons. rewrite Hm, M1; [done|done|].
  by rewrite (PGROUNDDOWN_page p b (page_ok_is _ _ Hp)).
Qed.

(** The tables in the first [m] entries of the directory are free. *)
Definition tables_free (s0 : kstate) (pgdir : Z) (l0 : list Z) (m : nat) (s : kstate) : Prop :=
  ∃ l, released s0 s l ∧ ∀ q, q ∈ l ↔ q ∈ l0 ∨ ∃ i, 0 ≤ i < Z.of_nat m ∧ present (ld32 (mem s0) (pgdir + 4 * i)) = true ∧ q = table_of (mem s0) pgdir i.

Lemma free_tables_step s0 pgdir l0 m s :
  uvm pgdir s0 l0 → (m < 1024)%nat → tables_free s0 pgdir l0 m s →
  wp (free_table pgdir (Z.of_nat m)) s (λ _ s', tables_free s0 pgdir l0 (S m) s').
Proof.
  intros Hu Hm (l & Hrl & Hin). pose proof (uv_pt _ _ _ Hu) as Hw. pose proof Hw as [Hd Hdl Ht Hinj]. assert (Hmr : 0 ≤ Z.of_nat m < 1024) by lia.
  assert (Hnd : pgdir ∉ l).
  { intros [?|(i & Hi & Hp & E)]%Hin; [done|]. destruct (Ht i ltac:(lia) Hp) as (_ & Hne & _). by rewrite <-E in Hne. }
  unfold free_table, load32. wps. destruct (page_word pgdir _ Hd Hmr) as [-> _].
  rewrite (page_word_ext (mem s0)) by (done || (intros b Hb; apply (rl_mem _ _ _ Hrl); by rewrite Hb)).
  destruct (present _) eqn:Hp; wps.
  - fold (table_of (mem s0) pgdir (Z.of_nat m)). destruct (Ht _ Hmr Hp) as (_ & _ & Htl).
    destruct (release_page s0 s l (table_of (mem s0) pgdir (Z.of_nat m)) Hrl) as (s2 & Ek & Hrl2).
    + apply (uv_table _ _ _ Hu). right. by eexists.
    + intros [?|(i & Hi & Hp' & E)]%Hin; [done|]. apply Hinj in E; [lia|lia|lia|done|done].
    + eapply wp_intro; [exact Ek|]. exists (table_of (mem s0) pgdir (Z.of_nat m) :: l). split; [done|]. intros q. rewrite elem_of_cons, Hin. split.
      * intros [->|[?|(i & Hi & ? & ->)]]; [right; exists (Z.of_nat m)|by left|right; exists i]; split_and!; done || lia.
      * intros [?|(i & Hi & ? & ->)]; [by right; left|]. destruct (decide (i = Z.of_nat m)) as [->|]; [by left|right; right].
        exists i. split_and!; done || lia.
  - exists l. split; [done|]. intros q. rewrite Hin. split; (intros [?|(i & Hi & Hpi & ->)]; [by left|]).
    + right. exists i. split_and!; done || lia.
    + destruct (decide (i = Z.of_nat m)) as [->|]; [by rewrite Hpi in Hp|]. right. exists i. split_and!; done || lia.
Qed.

Lemma freevm_run pgdir s l :
  uvm pgdir s l → ∃ s' l', freevm pgdir s = Ok tt s' ∧ released s s' l' ∧ ∀ q, q ∈ l' ↔ pool (mem s) pgdir l q.
Proof.
  intros Hu. pose proof (pw_dir _ _ _ (uv_pt _ _ _ Hu)) as Hd. unfold freevm. rewrite (proj2 (Z.eqb_neq pgdir 0)) by (destruct Hd; lia).
  destruct (dealloc_run pgdir KERNBASE 0 s l Hu) as (s1 & l1 & E1 & Hs1 & Hl1 & Hd1 & Hun); [done|done|]. mstep_with E1.
  pose proof (us_uvm _ _ _ _ _ Hs1) as Hu1.
  assert (Hown : ∀ q, owned (mem s1) pgdir q ↔ pt_page (mem s1) pgdir q).
  { intros q. split; [|by left]. intros [?|(va & Hva & _)]; [done|]. exfalso. pose proof (user_page_uint _ _ _ Hva) as Hvu. destruct Hva as (_ & Hr & Hp).
    rewrite (Hun va Hvu) in Hp. change (PGROUNDUP 0) with 0 in Hp. change (PGROUNDUP KERNBASE) with KERNBASE in Hp.
    destruct (present (pte_of (mem s) pgdir va)) eqn:E; [by rewrite decide_True in Hp|].
    rewrite decide_False, E in Hp by (by intros [_ ?]). done. }
  assert (wp (for_range 0 NPDENTRIES (free_table pgdir)) s1 (λ _ s2, tables_free s1 pgdir l1 1024 s2)) as ([] & s2 & E2 & l2 & Hrl2 & Hin2)%wp_elim.
  { apply (wp_for_range (tables_free s1 pgdir l1) _ 0 1024); [|intros m s' Hm Hj; rewrite Z.add_0_l; by apply free_tables_step|done].
    exists l1. split; [split; [by destruct s1|apply Hu1|apply Hu1|done]|]. intros q. split; [by left|]. intros [?|(i & ? & _)]; [done|lia]. }
  fold (free_table pgdir). mstep_with E2. pose proof (uv_pt _ _ _ Hu1) as [W1 W2 W3 W4].
  destruct (release_page s1 s2 l2 pgdir Hrl2) as (s3 & E3 & [F3 U3 R3 M3]).
  - apply (uv_table _ _ _ Hu1). by left.
  - intros [?|(i & Hi & Hp & E)]%Hin2; [done|]. destruct (W3 i ltac:(lia) Hp) as (_ & Hne & _). by rewrite <-E in Hne.
  - exists s3, (pgdir :: l2). split; [done|].
    assert (Hpool : ∀ q, q ∈ pgdir :: l2 ↔ pool (mem s) pgdir l q).
    { intros q. rewrite <-(us_pool _ _ _ _ _ Hs1). unfold pool. rewrite Hown. unfold pt_page. rewrite elem_of_cons, Hin2.
      change (Z.of_nat 1024) with 1024. tauto. }
    split; [|done]. split; [by rewrite <-(us_frame _ _ _ _ _ Hs1), <-F3|done|done|]. intros b Hb. rewrite M3 by done. rewrite Hpool in Hb.
    assert (Hb1 : ¬ pool (mem s1) pgdir l1 (PGROUNDDOWN b)) by (by rewrite (us_pool _ _ _ _ _ Hs1)). unfold pool, owned in Hb, Hb1.
    apply (us_mem _ _ _ _ _ Hs1); tauto.
Qed.

(** ** Whole address spaces *)

(** A new page table: its directory is all it has. *)
Lemma empty_uvm pgdir s l :
  kmem_unlocked s → kmem_rep l s → page_ok sym_end pgdir → pgdir ∉ l → empty_dir (mem s) pgdir →
  uvm pgdir s l ∧ (∀ va, pte_of (mem s) pgdir va = 0) ∧ ∀ q, owned (mem s) pgdir q ↔ q = pgdir.
Proof.
  intros Hn Hr Hp Hl He. destruct (empty_dir_wf _ _ l (page_ok_is _ _ Hp) Hl He) as (Hw & Hpte & Hpg).
  assert (Hno : ∀ va, ¬ user_page (mem s) pgdir va) by (intros va (_ & _ & Hpr); by rewrite Hpte in Hpr).
  split_and!; [|done|].
  - split; [done|done|done| | |].
    + by intros q ->%Hpg.
    + by intros va ?%Hno.
    + by intros va va' ?%Hno.
  - intros q. unfold owned. rewrite Hpg. split; [|by left]. intros [?|(va & ?%Hno & _)]; done.
Qed.

(** The user pages that are there stay where they are, with their contents. *)
Definition kept (m m' : gmap Z Z) (pgdir : Z) (P : Z → Prop) : Prop :=
  ∀ va, user_page m pgdir va → P va → pte_of m' pgdir va = pte_of m pgdir va ∧ ∀ b, PGROUNDDOWN b = frame m pgdir va → ld m' b = ld m b.
Lemma kept_intro pgdir s l s' l' (P : Z → Prop) :
  uvm pgdir s l → ustep pgdir s l s' l' → (∀ va, user_page (mem s) pgdir va → P va → pte_of (mem s') pgdir va = pte_of (mem s) pgdir va) →
  kept (mem s) (mem s') pgdir P.
Proof. intros Hu Hs E va Hva Hp. split; [by apply E|]. intros b. by eapply ustep_contents, E. Qed.

Lemma allocuvm_run pgdir oldsz newsz s l :
  let lo := PGROUNDUP oldsz in let hi := PGROUNDUP newsz in
  uvm pgdir s l → 0 ≤ oldsz ≤ newsz → newsz < KERNBASE →
  (∀ va, is_uint32 va → lo ≤ va < hi → present (pte_of (mem s) pgdir va) = false) →
  ∃ r s' l', allocuvm pgdir oldsz newsz s = Ok r s' ∧ ustep pgdir s l s' l'
    ∧ (r = newsz ∧ Z.of_nat (length l) ≤ Z.of_nat (length l') + 2 * ((hi - lo) / PGSIZE) ∧ grown (mem s) (mem s') pgdir l lo hi
       ∨ r = 0 ∧ same_map (mem s) (mem s') pgdir ∧ Z.of_nat (length l) ≤ 2 * ((hi - lo) / PGSIZE)).
Proof.
  intros lo hi Hu Ho Hn Hno. unfold allocuvm. rewrite (proj2 (Z.leb_gt _ _)), (proj2 (Z.ltb_ge _ _)) by lia.
  destruct (roundup_spec oldsz) as (Hl1 & Hl2 & _); [lia|]. destruct (roundup_spec newsz) as (Hh1 & Hh2 & _); [lia|]. fold lo in Hl1, Hl2. fold hi in Hh1, Hh2.
  destruct (alloc_loop pgdir oldsz newsz s l (S (S (Z.to_nat ((newsz - oldsz) / PGSIZE)))) s l lo) as (r & s' & l' & E & Hs' & _ & Hr);
    fold lo hi; try done; try lia; [by apply ustep_refl|by intros q|split; [intros; lia|done]|unfold PGSIZE in *; zlia|unfold PGSIZE in *; zlia|].
  exists r, s', l'. split; [exact E|]. split; [done|]. tauto.
Qed.
End uvm.

(** * Properties *)

(** C16: [allocuvm] grows a process's memory: either the pages between the two sizes are mapped, writable by the user, to distinct
    pages that were free and that now hold zeros, with at most as many pages more for tables, or, only when there may be too few free pages (two for each new page are enough), it
    returns 0 and everything is translated as before.  In both cases no page is lost or shared, and the memory the process had
    is the same.  A size in the kernel's half gives 0, a smaller size the old size. *)
Theorem allocuvm_correct `{Linker} (pgdir oldsz newsz : Z) (s : kstate) (l : list Z) :
  let lo := PGROUNDUP oldsz in let hi := PGROUNDUP newsz in
  KERNBASE < sym_end → uvm pgdir s l → 0 ≤ oldsz → 0 ≤ newsz →
  (∀ va, is_uint32 va → lo ≤ va < hi → present (pte_of (mem s) pgdir va) = false) →
  ∃ r s' l', allocuvm pgdir oldsz newsz s = Ok r s' ∧ ustep pgdir s l s' l' ∧ kept (mem s) (mem s') pgdir (λ _, True)
    ∧ (if KERNBASE <=? newsz then r = 0 ∧ s' = s else if newsz <? oldsz then r = oldsz ∧ s' = s else
       r = newsz ∧ Z.of_nat (length l) ≤ Z.of_nat (length l') + 2 * ((hi - lo) / PGSIZE) ∧ grown (mem s) (mem s') pgdir l lo hi
       ∨ r = 0 ∧ same_map (mem s) (mem s') pgdir ∧ Z.of_nat (length l) ≤ 2 * ((hi - lo) / PGSIZE)).
Proof.
  intros lo hi Hend Hu Ho Hn Hno.
  assert (Hsame : kept (mem s) (mem s) pgdir (λ _, True)) by (by intros va _ _).
  destruct (Z.leb_spec KERNBASE newsz) as [Hk|Hk].
  { exists 0, s, l. unfold allocuvm. rewrite (proj2 (Z.leb_le _ _)) by done. split_and!; try done. by apply ustep_refl. }
  destruct (Z.ltb_spec newsz oldsz) as [Hs|Hs].
  { exists oldsz, s, l. unfold allocuvm. rewrite (proj2 (Z.leb_gt _ _)), (proj2 (Z.ltb_lt _ _)) by done. split_and!; try done. by apply ustep_refl. }
  destruct (allocuvm_run Hend pgdir oldsz newsz s l Hu) as (r & s' & l' & E & Hs' & Hr); [done|done|done|]. fold lo hi in Hr.
  exists r, s', l'. split; [exact E|]. split; [done|]. split; [|exact Hr]. eapply kept_intro; [done..|]. intros va Hva _.
  pose proof (user_page_uint _ _ _ Hva) as Hvu. destruct Hva as (_ & _ & Hp). destruct Hr as [(_ & _ & Hg)|(_ & Hm & _)].
  - apply (gr_old _ _ _ _ _ _ Hg); [done|]. intros Hr. by rewrite Hno in Hp.
  - specialize (Hm va Hvu). by rewrite Hp in Hm.
Qed.

(** [deallocuvm] shrinks a process's memory: the pages between the two sizes are unmapped and free, no page is lost, and the others
    stay mapped with their contents. *)
Theorem deallocuvm_correct `{Linker} (pgdir oldsz newsz : Z) (s : kstate) (l : list Z) :
  let lo := PGROUNDUP newsz in let hi := PGROUNDUP oldsz in
  KERNBASE < sym_end → uvm pgdir s l → 0 ≤ newsz < oldsz → oldsz ≤ KERNBASE →
  ∃ s' l', deallocuvm pgdir oldsz newsz s = Ok newsz s' ∧ ustep pgdir s l s' l'
    ∧ kept (mem s) (mem s') pgdir (λ va, ¬ lo ≤ va < hi)
    ∧ (∀ va, user_page (mem s) pgdir va → lo ≤ va < hi → pte_of (mem s') pgdir va = 0 ∧ frame (mem s) pgdir va ∈ l').
Proof.
  intros lo hi Hend Hu Hn Ho. destruct (dealloc_run Hend pgdir oldsz newsz s l Hu Hn Ho) as (s' & l' & E & Hs & Hl & Hd & Hun). fold lo hi in Hun.
  exists s', l'. split; [done|]. split; [done|]. split.
  - eapply kept_intro; [done..|]. intros va Hva Hr. rewrite (Hun va (user_page_uint _ _ _ Hva)), decide_False; [done|]. tauto.
  - intros va Hva Hr. pose proof (user_page_uint _ _ _ Hva) as Hvu.
    assert (E0 : pte_of (mem s') pgdir va = 0) by (rewrite (Hun va Hvu), decide_True; [done|]; destruct Hva as (_ & _ & ?); done).
    split; [done|]. assert (Hpool : pool (mem s') pgdir l' (frame (mem s) pgdir va)) by (apply Hs; right; right; by exists va).
    destruct Hpool as [?|[Hpt|(vb & Hvb & Efr)]]; [done| |]; exfalso.
    + apply (same_dir_pages _ _ _ _ Hd) in Hpt. by apply (uv_frame _ _ _ Hu va Hva).
    + assert (E' : pte_of (mem s') pgdir vb = pte_of (mem s) pgdir vb).
      { pose proof (Hun vb (user_page_uint _ _ _ Hvb)) as Eb. case_decide; [|done]. destruct Hvb as (_ & _ & Hp). by rewrite Eb in Hp. }
      destruct (user_page_ext _ _ _ _ E') as [Hvb' Hfr]. rewrite Hfr in Efr. apply Hvb' in Hvb as Hvb2.
      apply (uv_inj _ _ _ Hu) in Efr; [|done|done]. subst vb. destruct Hvb as (_ & _ & Hp). by rewrite E0 in Hp.
Qed.

(** An empty address space and three free pages. *)
Definition demo_pages : list Z := [page0 + 8192; page0 + 4096; page0].
Lemma demo_uvm : uvm (H := demo_linker) demo_dir demo_vm demo_pages ∧ ∀ va, pte_of (mem demo_vm) demo_dir va = 0.
Proof.
  destruct (empty_uvm (H := demo_linker) demo_dir demo_vm demo_pages) as (? & ? & _); [apply demo_vm_rep|apply demo_vm_rep|by vm_compute|apply demo_dir_wf|apply demo_dir_empty|done].
Qed.

(** The first page of a process. *)
Lemma allocuvm_correct_witness :
  ∃ s' l', allocuvm (H := demo_linker) demo_dir 0 100 demo_vm = Ok 100 s' ∧ ustep (H := demo_linker) demo_dir demo_vm demo_pages s' l'
    ∧ grown (mem demo_vm) (mem s') demo_dir demo_pages 0 4096.
Proof.
  destruct (@allocuvm_correct demo_linker demo_dir 0 100 demo_vm demo_pages) as (r & s' & l' & E & Hs & _ & Hr);
    [done|apply demo_uvm|done|done|intros va _ _; by rewrite (proj2 demo_uvm)|].
  destruct Hr as [(Er & _ & Hg)|(_ & _ & Hlen)]; [|exfalso; change (3 ≤ 2) in Hlen; lia].
  rewrite Er in E. exists s', l'. split; [exact E|split; [exact Hs|exact Hg]].
Defined.

Lemma deallocuvm_correct_witness :
  ∃ s1 s' l1 l', allocuvm (H := demo_linker) demo_dir 0 100 demo_vm = Ok 100 s1
    ∧ deallocuvm (H := demo_linker) demo_dir 100 0 s1 = Ok 0 s' ∧ ustep (H := demo_linker) demo_dir s1 l1 s' l'
    ∧ user_page (mem s1) demo_dir 0 ∧ frame (mem s1) demo_dir 0 ∈ l'.
Proof.
  destruct (allocuvm_run (H := demo_linker) eq_refl demo_dir 0 100 demo_vm demo_pages) as (r & s1 & l1 & E & Hs & Hr);
    [apply demo_uvm|done|done|intros va _ _; by rewrite (proj2 demo_uvm)|].
  destruct Hr as [(Er & _ & Hg)|(_ & _ & Hlen)]; [|exfalso; change (3 ≤ 2) in Hlen; lia]. rewrite Er in E.
  destruct (@deallocuvm_correct demo_linker demo_dir 100 0 s1 l1) as (s' & l' & E' & Hs' & _ & Hfree); [exact eq_refl|exact (us_uvm _ _ _ _ _ Hs)|by split|by vm_compute|].
  destruct (gr_new _ _ _ _ _ _ Hg 0) as [Hu _]; [exact eq_refl|vm_compute; split; [intros [=]|exact eq_refl]|]. exists s1, s', l1, l'.
  split; [exact E|]. split; [exact E'|]. split; [exact Hs'|]. split; [exact Hu|]. refine (proj2 (Hfree 0 Hu _)). vm_compute. split; [intros [=]|exact eq_refl].
Defined.
