(* ===== verification/Copyuvm.v ===== *)
(** Copying an address space: [setupkvm] and [copyuvm] of [vm.c]. *)
From S2P Require Export Uvm.

Section copy.
Context `{Linker}.

(** What [kernel.ld] promises: the data segment starts on a page after the kernel's first, within the memory that there is. *)
Record linker_ok : Prop := {
  lk_align : sym_data mod PGSIZE = 0;
  lk_data : KERNLINK < sym_data < KERNBASE + PHYSTOP;
  lk_end : sym_data ≤ sym_end }.
Context (Hlk : linker_ok).

Lemma lk_kernbase : KERNBASE < sym_end.
Proof. destruct Hlk. unfold KERNLINK, EXTMEM in *. lia. Qed.

(** ** A page table made from free pages *)

(** The page table [d] and the free list [l'] have been made from the free pages [l]; no other page has changed. *)
Record fresh (s : kstate) (l : list Z) (d : Z) (s' : kstate) (l' : list Z) : Prop := {
  fs_frame : s' <| km := km s |> = s;
  fs_uvm : uvm d s' l';
  fs_pool q : pool (mem s') d l' q ↔ q ∈ l;
  fs_mem b : PGROUNDDOWN b ∉ l → ld (mem s') b = ld (mem s) b }.

Lemma fresh_step s l d s1 l1 s2 l2 : fresh s l d s1 l1 → ustep d s1 l1 s2 l2 → fresh s l d s2 l2.
Proof.
  intros [F1 U1 P1 M1] [F2 U2 P2 M2]. split; [by rewrite <-F1, <-F2|done|intros q; by rewrite P2, P1|].
  intros b Hb. rewrite M2, M1; [done|done| | |]; intros Hin; apply Hb, P1; [by left|apply P2; by left|apply P2; right; by left].
Qed.

(** Giving up. *)
Lemma fresh_freevm s l d s1 l1 : fresh s l d s1 l1 →
  ∃ s2 l2, freevm d s1 = Ok tt s2 ∧ released s s2 l2 ∧ ∀ q, q ∈ l2 ↔ q ∈ l.
Proof.
  intros [F1 U1 P1 M1]. destruct (freevm_run lk_kernbase d s1 l1 U1) as (s2 & l2 & E & [F2 U2 R2 M2] & Hp).
  assert (Hq : ∀ q, q ∈ l2 ↔ q ∈ l) by (intros q; by rewrite Hp, P1).
  exists s2, l2. split; [done|]. split; [|done]. split; [by rewrite <-F1, <-F2|done|done|].
  intros b Hb. rewrite M2 by done. apply M1. by rewrite <-Hq.
Qed.

(** There is room for it when there are enough pages: a directory and at most 1024 tables, the pages of user memory, and one
    that is in hand. *)
Lemma owned_count m d p n L :
  NoDup L → (∀ q, q ∈ L → q = p ∨ owned m d q) → (∀ va, user_page m d va → va < PGSIZE * Z.of_nat n) → (length L ≤ 1026 + n)%nat.
Proof.
  intros Hnd Hown Hn. set (own := p :: d :: (table_of m d <$> seqZ 0 1024) ++ ((λ i, frame m d (PGSIZE * i)) <$> seqZ 0 (Z.of_nat n))).
  assert (Hlen : length own = (1026 + n)%nat) by (unfold own; cbn [length]; rewrite length_app, !length_fmap, !length_seqZ; lia).
  rewrite <-Hlen. apply submseteq_length, NoDup_submseteq; [done|]. intros q Hq. unfold own. rewrite !elem_of_cons.
  destruct (Hown q Hq) as [->|[[->|(i & Hi & _ & ->)]|(va & Hva & ->)]]; [by left|by right; left|right; right..]; apply elem_of_app.
  - left. apply list_elem_of_fmap. exists i. split; [done|]. apply elem_of_seqZ. lia.
  - right. apply list_elem_of_fmap. exists (va / PGSIZE). pose proof (Hn va Hva). destruct Hva as (Hal & Hr & _).
    split; [f_equal; unfold PGSIZE in *; zlia|]. apply elem_of_seqZ. unfold PGSIZE in *. zlia.
Qed.

(** ** The kernel's part *)

Lemma uvm_tables d s l s' l' :
  uvm d s l → pt_step d s l s' l' → (∀ va, 0 ≤ va < KERNBASE → pte_of (mem s') d va = pte_of (mem s) d va) → ustep d s l s' l'.
Proof.
  intros Hu [F1 S1 S2 S3 S4 S5 S6 S7 S8] Hpte. pose proof Hu as [U1 U2 U3 U4 U5 U6].
  assert (Hup : ∀ va, user_page (mem s') d va ↔ user_page (mem s) d va).
  { intros va. split; intros Hva; apply (user_page_ext (mem s) (mem s')); try done; apply Hpte, Hva. }
  assert (Hfr : ∀ va, user_page (mem s) d va → frame (mem s') d va = frame (mem s) d va) by (intros va Hva; apply user_page_ext, Hpte, Hva).
  assert (Hsub : l' ⊆ l) by (destruct S3 as [j ->]; intros q Hq; apply elem_of_app; by right).
  split; [done| | |].
  - split; [done|done|done| | |].
    + intros q [Hq|Hq]%S6; [by apply U4|]. pose proof (kr_page _ _ U2) as Hl. rewrite Forall_forall in Hl. by apply Hl.
    + intros va Hva%Hup. rewrite Hfr by done. destruct (U5 va Hva) as (? & ? & ?). split_and!; [done|auto|]. by intros [?|?]%S6.
    + intros va va' Hva%Hup Hva'%Hup. rewrite !Hfr by done. by apply U6.
  - intros q. unfold pool, owned. split.
    + intros [?|[[?|?]%S6|(va & Hva%Hup & ->)]]; [left; auto|by right; left|by left|]. right. right. exists va. by rewrite Hfr.
    + intros [[?|?]%S7|[?|(va & Hva & ->)]]; [by left|by right; left|right; left; auto|]. right. right. exists va. by rewrite Hup, Hfr.
  - intros b _ _ Hb. by apply S8, (off_tables_page _ _ _ _ S4).
Qed.

(** A table of mappings in order, in whole pages. *)
Definition entry_size (e : Z * Z * Z * Z) : Z := let '(_, ps, pe, _) := e in u32 (pe - ps).
Fixpoint kmap_ok (lo : Z) (ks : list (Z * Z * Z * Z)) : Prop :=
  match ks with
  | [] => True
  | (virt, ps, pe, perm) :: ks =>
      let size := u32 (pe - ps) in
      lo ≤ virt ∧ virt mod PGSIZE = 0 ∧ 0 < size ∧ size mod PGSIZE = 0 ∧ virt + size ≤ 4294967296
      ∧ ps mod PGSIZE = 0 ∧ 0 ≤ ps ∧ ps + size ≤ 4294967296 ∧ 0 ≤ perm < PGSIZE ∧ kmap_ok (virt + size) ks
  end.

(** The mappings [ks] are in the page table. *)
Definition kernel_mapped (m : gmap Z Z) (d : Z) (ks : list (Z * Z * Z * Z)) : Prop :=
  ∀ virt ps pe perm, (virt, ps, pe, perm) ∈ ks → ∀ va, virt ≤ va < virt + u32 (pe - ps) →
    pte_of m d va = pte_for (ps + (PGROUNDDOWN va - virt)) perm.

Lemma page_end a size : a mod PGSIZE = 0 → size mod PGSIZE = 0 → PGROUNDDOWN (a + size - 1) + PGSIZE = a + size.
Proof. intros Ha Hs. rewrite PGROUNDDOWN_eq. unfold PGSIZE in *. zlia. Qed.

Lemma map_kernel_run d ks : ∀ lo s l,
  KERNBASE ≤ lo → kmap_ok lo ks → uvm d s l → (∀ va, is_uint32 va → lo ≤ va → present (pte_of (mem s) d va) = false) →
  ∃ (ok : bool) s' l', map_kernel d ks s = Ok ok s' ∧ ustep d s l s' l' ∧ tables_grow (mem s) (mem s') d
    ∧ (∀ va, 0 ≤ va < lo → is_uint32 va → pte_of (mem s') d va = pte_of (mem s) d va)
    ∧ (if ok then kernel_mapped (mem s') d ks else l' = []).
Proof.
  induction ks as [|[[[virt ps] pe] perm] ks IH]; intros lo s l Hlo Hok Hu Hno.
  { exists true, s, l. split; [done|]. split; [by apply ustep_refl|]. split; [by intros q|]. split; [done|]. intros ???? Hin. by apply not_elem_of_nil in Hin. }
  cbn [kmap_ok] in Hok. destruct Hok as (H1 & H2 & H3 & H4 & H5 & H6 & H7 & H8 & H9 & Hok). cbn [map_kernel]. set (size := u32 (pe - ps)) in *.
  assert (Hkb : KERNBASE = 2147483648) by done. pose proof (page_end virt size H2 H4) as Eb. pose proof (page_id virt H2) as Ea.
  destruct (mappages_run d virt size ps perm s l) as (r & s1 & l1 & k & Em & Hps & _ & Hk & Hm);
    [apply Hu|apply Hu|apply Hu|done|lia|lia|lia|done|lia|rewrite Ea, Eb; lia| |].
  { rewrite Ea, Eb. intros va Hva. apply Hno; unfold is_uint32 in *; lia. }
  rewrite Ea, ?Eb in Hk, Hm. mstep_with Em.
  assert (Hbelow : ∀ va, 0 ≤ va < virt → is_uint32 va → pte_of (mem s1) d va = pte_of (mem s) d va) by (intros va Hva Hvu; rewrite (Hm va Hvu), decide_False; [done|lia]).
  assert (Hs1 : ustep d s l s1 l1) by (apply uvm_tables; [done|done|]; intros va Hva; apply Hbelow; unfold is_uint32; lia).
  assert (Hg1 : tables_grow (mem s) (mem s1) d) by (intros q; apply Hps).
  destruct Hk as [[-> Hk]|(-> & -> & Hk)].
  - rewrite Hk in Hm. change (0 <? 0) with false. cbv iota.
    destruct (IH (virt + size) s1 l1) as (ok & s2 & l2 & E2 & Hs2 & Hg2 & Hb2 & Hr2); [lia|done|apply Hs1| |].
    { intros va Hva Hr. rewrite (Hm va Hva), decide_False by lia. apply Hno; [done|lia]. }
    exists ok, s2, l2. split; [done|]. split; [eapply ustep_trans; [done|done|done|left]|].
    { destruct (ps_suffix _ _ _ _ _ Hps) as [j ->]. intros q Hq. apply elem_of_app. by right. }
    split; [intros q Hq; auto|]. split; [intros va Hva Hvu; rewrite Hb2, Hbelow; [done|lia|done|lia|done]|]. destruct ok; [|done].
    intros v1 p1 e1 f1 [[= -> -> -> ->]|Hin]%elem_of_cons va Hva; [|by eapply Hr2].
    rewrite Hb2 by (unfold is_uint32; lia). rewrite (Hm va), decide_True by (unfold is_uint32; lia). done.
  - change (-1 <? 0) with true. cbv iota. exists false, s1, []. split; [done|]. split; [done|]. split; [done|]. split; [|done].
    intros va Hva Hvu. apply Hbelow; [lia|done].
Qed.

Lemma kmap_range lo ks virt ps pe perm :
  kmap_ok lo ks → (virt, ps, pe, perm) ∈ ks → lo ≤ virt ∧ virt + u32 (pe - ps) ≤ 4294967296.
Proof.
  revert lo. induction ks as [|[[[v1 p1] e1] f1] ks IH]; intros lo Hok Hin; [by apply not_elem_of_nil in Hin|].
  cbn [kmap_ok] in Hok. destruct Hok as (H1 & _ & H3 & _ & H5 & _ & _ & _ & _ & Hok).
  apply elem_of_cons in Hin as [[= -> -> -> ->]|Hin]; [done|]. destruct (IH _ Hok Hin). lia.
Qed.

Lemma kmap_is_ok : kmap_ok KERNBASE kmap.
Proof.
  destruct Hlk as [H1 H2 H3]. unfold kmap. cbn [kmap_ok].
  assert (EK : KERNLINK = 2148532224) by done. assert (EB : KERNBASE = 2147483648) by done. assert (EP : PHYSTOP = 234881024) by done.
  assert (ED : DEVSPACE = 4261412864) by done. assert (EX : EXTMEM = 1048576) by done. assert (EW : PTE_W = 2) by done.
  assert (EV : V2P sym_data = sym_data - KERNBASE) by (unfold V2P; rewrite u32_small; lia).
  assert (EVK : V2P KERNLINK = EXTMEM) by done. rewrite EV, EVK. rewrite EX, EK, EB, EP, ED, EW in *. unfold PGSIZE in *.
  rewrite (u32_small (sym_data - 2147483648 - 1048576)), (u32_small (234881024 - (sym_data - 2147483648))) by lia.
  change (u32 (1048576 - 0)) with 1048576. change (u32 (0 - 4261412864)) with 33554432. split_and!; try done; zlia.
Qed.

(** ** [setupkvm] *)

Lemma setupkvm_run s l :
  kmem_unlocked s → kmem_rep l s →
  ∃ d s' l', setupkvm s = Ok d s' ∧
    (d ≠ 0 ∧ fresh s l d s' l' ∧ kernel_mapped (mem s') d kmap ∧ (∀ va, ¬ user_page (mem s') d va)
     ∨ d = 0 ∧ released s s' l' ∧ (∀ q, q ∈ l' ↔ q ∈ l) ∧ (length l ≤ 1026)%nat).
Proof.
  intros Hn Hr. unfold setupkvm. pose proof (kalloc_rep l s Hn Hr) as Hk. destruct l as [|d l].
  { mstep_with Hk. exists 0, s, []. split; [done|]. right. split; [done|]. split; [|split; [done|simpl; lia]]. split; [by destruct s|done|done|done]. }
  destruct Hk as (s1 & Ek & Hr1 & Em1 & Hf1). mstep_with Ek. pose proof (kalloc_unlocked s d s1 Hn Ek) as Hn1.
  pose proof Hr as [_ [Hd _]%Forall_cons [Hdl Hnd]%NoDup_cons]. pose proof (page_ok_is _ _ Hd) as Hpd.
  rewrite (proj2 (Z.eqb_neq d 0)) by (destruct Hpd; lia). unfold upd_mem. rewrite bind_modify.
  set (s2 := over km _ s1). assert (Em2 : mem s2 = memset (mem s) d 0 PGSIZE) by (rewrite <-Em1; done).
  destruct (empty_uvm d s2 l) as (Hu2 & Hpte2 & Hown2); [done| |done|done| |].
  { apply (kmem_rep_outside l s1 d (mem s2) Hr1 Hpd Hdl). intros b Hb. rewrite Em2, Em1. by apply memset_outside. }
  { intros i Hi. rewrite Em2, ld32_memset0, decide_True by done. done. }
  assert (Hfr2 : fresh s (d :: l) d s2 l).
  { split; [rewrite <-Hf1; by destruct s1|done| |].
    - intros q. unfold pool. rewrite Hown2, elem_of_cons. tauto.
    - intros b [Hb _]%not_elem_of_cons. rewrite Em2. by apply memset_outside. }
  change (DEVSPACE <? P2V PHYSTOP) with false. cbv iota.
  destruct (map_kernel_run d kmap KERNBASE s2 l) as (ok & s3 & l3 & E3 & Hs3 & Hg3 & Hb3 & Hok); [done|apply kmap_is_ok|done|by intros va _ _; rewrite Hpte2|].
  mstep_with E3. pose proof (fresh_step _ _ _ _ _ _ _ Hfr2 Hs3) as Hfr3.
  assert (Hno : ∀ va, ¬ user_page (mem s3) d va).
  { intros va (_ & Hva & Hp). rewrite Hb3, Hpte2 in Hp; [done|done|unfold is_uint32, KERNBASE in *; lia]. }
  destruct ok.
  - exists d, s3, l3. split; [done|]. left. split_and!; try done. destruct Hpd. lia.
  - destruct (fresh_freevm _ _ _ _ _ Hfr3) as (s4 & l4 & E4 & Hrl & Hin). mstep_with E4. exists 0, s4, l4. split; [done|]. right.
    split_and!; [done|done|done|]. rewrite <-(Nat.add_0_r 1026). apply (owned_count (mem s3) d d 0); [by apply NoDup_cons| |by intros va ?%Hno].
    intros q Hq%(fs_pool _ _ _ _ _ Hfr3). subst l3. destruct Hq as [Hq|?]; [by apply not_elem_of_nil in Hq|by right].
Qed.

(** ** [copyuvm] *)

(** The user pages of [d] in [m] are copies of those of [pgdir] in [m0] below [a], in pages of [l]. *)
Record copied (m0 : gmap Z Z) (pgdir : Z) (m : gmap Z Z) (d : Z) (l : list Z) (a : Z) : Prop := {
  cp_page va : va mod PGSIZE = 0 → 0 ≤ va < a →
    user_page m d va ∧ PTE_FLAGS (pte_of m d va) = PTE_FLAGS (pte_of m0 pgdir va) ∧ frame m d va ∈ l
    ∧ ∀ k, 0 ≤ k < PGSIZE → ld m (frame m d va + k) = ld m0 (frame m0 pgdir va + k);
  cp_only va : user_page m d va → va < a;
  cp_kernel : kernel_mapped m d kmap }.

Lemma flags_bound v : 0 ≤ PTE_FLAGS v < PGSIZE.
Proof. unfold PTE_FLAGS. change 4095 with (Z.ones 12). rewrite Z.land_ones by lia. by apply Z.mod_pos_bound. Qed.
Lemma flags_present v : present v = true → Z.lor (PTE_FLAGS v) PTE_P = PTE_FLAGS v.
Proof.
  rewrite present_odd, <-Z.bit0_odd. intros Hp. apply Z.bits_inj'. intros n Hn. unfold PTE_FLAGS. rewrite Z.lor_spec.
  destruct (decide (n = 0)) as [->|Hne]; [by rewrite Z.land_spec, Hp|]. assert (Z.testbit PTE_P n = false) as ->; [|by rewrite orb_false_r].
  unfold PTE_P. change 1 with (Z.ones 1). apply Z.ones_spec_high. lia.
Qed.

Lemma memmove_outside p src : is_page p → ∀ m b, PGROUNDDOWN b ≠ p → ld (memmove m p src PGSIZE) b = ld m b.
Proof.
  intros Hp m b Hb. rewrite ld_memmove by (unfold PGSIZE; lia). rewrite decide_False; [done|]. intros Hr. by apply Hb, PGROUNDDOWN_page.
Qed.

Lemma frame_byte p k : is_page p → 0 ≤ k < PGSIZE → PGROUNDDOWN (p + k) = p.
Proof. intros Hp Hk. apply PGROUNDDOWN_page; [done|lia]. Qed.

(** One page more. *)
Lemma copied_snoc d s l s2 s3 l3 m0 pgdir l0 a p :
  let v := pte_of m0 pgdir a in let f := frame m0 pgdir a in
  uvm d s l → ustep d s l s3 l3 → copied m0 pgdir (mem s) d l0 a → p ∈ l0 → is_page p → a mod PGSIZE = 0 → 0 ≤ a < KERNBASE →
  present v = true → (∀ k, 0 ≤ k < PGSIZE → ld (mem s) (f + k) = ld m0 (f + k)) →
  mem s2 = memmove (mem s) p f PGSIZE → (∀ va, pte_of (mem s2) d va = pte_of (mem s) d va) → present (pte_of (mem s) d a) = false →
  mapped (mem s2) (mem s3) d a (a + PGSIZE) (V2P p) (PTE_FLAGS v) → (∀ b, ¬ pt_page (mem s3) d (PGROUNDDOWN b) → ld (mem s3) b = ld (mem s2) b) →
  copied m0 pgdir (mem s3) d l0 (a + PGSIZE).
Proof.
  intros v f Hu Hs [C1 C2 C3] Hp Hpp Hal Har Hv Hf E2 Hpte2 Hnp Hm Hmem. pose proof (flags_bound v) as Hfl.
  assert (Hm' : ∀ va, is_uint32 va → ¬ a ≤ va < a + PGSIZE → pte_of (mem s3) d va = pte_of (mem s) d va).
  { intros va Hva Hr. rewrite (Hm va Hva), decide_False; [apply Hpte2|done]. }
  destruct (mapped_pages (mem s2) (mem s3) d a p (PTE_FLAGS v) 1) as (_ & _ & Ha); [done|by right|done|done|by rewrite Hpte2|done|done|].
  destruct (Ha eq_refl) as [Hua Hfa]. split.
  - intros va Hval Hr. destruct (decide (va = a)) as [->|Hne].
    + rewrite Hfa. split; [done|]. split; [|split; [done|]].
      * rewrite (Hm a) by (unfold is_uint32, KERNBASE in *; lia). rewrite decide_True by (unfold PGSIZE; lia).
        rewrite page_id, Z.sub_diag, Z.add_0_r by done. destruct (pte_for_page p (PTE_FLAGS v) Hpp Hfl) as (_ & -> & _). by apply flags_present.
      * intros k Hk. rewrite Hmem, E2, ld_memmove by (try (unfold PGSIZE; lia); rewrite frame_byte, <-Hfa by done; by apply (uv_frame _ _ _ (us_uvm _ _ _ _ _ Hs) a)).
        rewrite decide_True by lia. rewrite <-Hf by done. f_equal. lia.
    + destruct (C1 va Hval) as (Hva & Hfg & Hin & Hc); [unfold PGSIZE in *; zlia|].
      assert (E : pte_of (mem s3) d va = pte_of (mem s) d va) by (apply Hm'; [by eapply user_page_uint|unfold PGSIZE in *; zlia]).
      destruct (user_page_ext _ _ _ _ E) as [Hva' Hfr]. rewrite E, Hfr. split_and!; [by apply Hva'|done|done|].
      intros k Hk. rewrite (ustep_contents d s l s3 l3 va) by first [done|apply frame_byte; [eapply page_ok_is, (uv_frame _ _ _ Hu va Hva)|done]]. auto.
  - intros va Hva. pose proof (user_page_uint _ _ _ Hva) as Hvu. destruct (decide (a ≤ va < a + PGSIZE)); [lia|].
    apply (user_page_ext (mem s)) in Hva; [|by apply Hm']. apply C2 in Hva. unfold PGSIZE. lia.
  - intros v1 p1 e1 f1 Hin va Hr. destruct (kmap_range _ _ _ _ _ _ kmap_is_ok Hin) as [Hv1 Hv2].
    rewrite Hm'; [by eapply C3|unfold is_uint32, KERNBASE in *; lia|unfold KERNBASE, PGSIZE in *; zlia].
Qed.

Section parent.
Context (s0 : kstate) (l0 : list Z) (pgdir sz : Z) (Hu0 : uvm pgdir s0 l0).

(** The parent's address space stays as it is. *)
Lemma parent_same d s l : fresh s0 l0 d s l →
  pt_wf (mem s) pgdir l0 ∧ same_dir (mem s0) (mem s) pgdir ∧ (∀ va, pte_of (mem s) pgdir va = pte_of (mem s0) pgdir va)
  ∧ ∀ va k, user_page (mem s0) pgdir va → 0 ≤ k < PGSIZE → ld (mem s) (frame (mem s0) pgdir va + k) = ld (mem s0) (frame (mem s0) pgdir va + k).
Proof.
  intros Hf. pose proof (uv_pt _ _ _ Hu0) as Hw. destruct (tables_ext (mem s0) (mem s) pgdir l0 Hw) as (Hsd & Hw' & Hpte).
  { intros b Hb. apply (fs_mem _ _ _ _ _ Hf). by destruct (pt_page_is _ _ _ _ Hw Hb). }
  split_and!; [done..|]. intros va k Hva Hk. destruct (uv_frame _ _ _ Hu0 va Hva) as (Hp & Hl & _). apply (fs_mem _ _ _ _ _ Hf).
  by rewrite frame_byte by (done || by eapply page_ok_is).
Qed.

Lemma fresh_count d s p n : fresh s0 l0 d s [] ∨ (∀ q, pool (mem s) d [p] q ↔ q ∈ l0) → (∀ va, user_page (mem s) d va → va < PGSIZE * Z.of_nat n) →
  (length l0 ≤ 1026 + n)%nat.
Proof.
  intros Hf Hn. apply (owned_count (mem s) d p n); [apply (kr_nodup _ _ (uv_rep _ _ _ Hu0))| |done]. intros q Hq. destruct Hf as [Hf|Hp].
  - apply (fs_pool _ _ _ _ _ Hf) in Hq as [Hq|?]; [by apply not_elem_of_nil in Hq|by right].
  - apply Hp in Hq as [Hq%list_elem_of_singleton|?]; [by left|by right].
Qed.

(** A turn of the loop: one more page, or everything back. *)
Lemma copy_turn d s l a :
  fresh s0 l0 d s l → copied (mem s0) pgdir (mem s) d l0 a → a < sz → sz ≤ KERNBASE → user_page (mem s0) pgdir a →
  ∃ r s' l', copy_body pgdir sz d a s = Ok r s' ∧
    match r with
    | inl b => b = a + PGSIZE ∧ fresh s0 l0 d s' l' ∧ copied (mem s0) pgdir (mem s') d l0 (a + PGSIZE)
    | inr r => r = 0 ∧ released s0 s' l' ∧ (∀ q, q ∈ l' ↔ q ∈ l0) ∧ Z.of_nat (length l0) ≤ 1026 + a / PGSIZE
    end.
Proof.
  intros Hf Hc Ha Hsz Hua. pose proof (fs_uvm _ _ _ _ _ Hf) as Hu. destruct (parent_same d s l Hf) as (Hw & Hsd & Hpte & Hmem0).
  pose proof Hua as (Hal & Har & Hv). destruct (user_page_table _ _ _ _ (uv_pt _ _ _ Hu0) Hua) as [Hpr _].
  assert (Hpr' : present (ld32 (mem s) (pgdir + 4 * PDX a)) = true) by (by rewrite Hsd by apply PDX_bound).
  unfold copy_body. rewrite (proj2 (Z.ltb_lt _ _)) by done. mstep_with (walk_found s pgdir l0 a false Hw Hpr').
  destruct (pw_table _ _ _ Hw _ (PDX_bound a) Hpr') as (Htp & _). pose proof (PTX_bound a). set (t := table_of (mem s) pgdir (PDX a)) in *.
  rewrite (proj2 (Z.eqb_neq (t + 4 * PTX a) 0)) by (destruct Htp; lia). unfold load32 at 1. rewrite bind_gets.
  assert (Ev : ld32 (mem s) (t + 4 * PTX a) = pte_of (mem s0) pgdir a).
  { rewrite <-Hpte. unfold pte_of. by rewrite (pte_addr_wf _ _ _ _ Hw), Hpr'. }
  rewrite Ev, Hv. cbn [negb]. cbv zeta. fold (frame (mem s0) pgdir a). set (v := pte_of (mem s0) pgdir a) in *. set (f := frame (mem s0) pgdir a) in *.
  assert (Hcnt : ∀ m, (∀ va, is_uint32 va → pte_of m d va = pte_of (mem s) d va) → ∀ va, user_page m d va → va < PGSIZE * Z.of_nat (Z.to_nat (a / PGSIZE))).
  { intros m Em va Hva. apply (user_page_ext (mem s)), (cp_only _ _ _ _ _ _ Hc) in Hva; [|apply Em; by eapply user_page_uint]. rewrite Z2Nat.id by (unfold PGSIZE; zlia). unfold PGSIZE in *. zlia. }
  assert (Hbound : (length l0 ≤ 1026 + Z.to_nat (a / PGSIZE))%nat → Z.of_nat (length l0) ≤ 1026 + a / PGSIZE) by (unfold PGSIZE; zlia).
  assert (Hnp : present (pte_of (mem s) d a) = false).
  { destruct (present (pte_of (mem s) d a)) eqn:E; [|done]. assert (a < a); [|lia]. by apply (cp_only _ _ _ _ _ _ Hc). }
  pose proof (kalloc_rep l s (uv_unlocked _ _ _ Hu) (uv_rep _ _ _ Hu)) as Hk. destruct l as [|p l].
  { mstep_with Hk. change (0 =? 0) with true. cbv iota. destruct (fresh_freevm _ _ _ _ _ Hf) as (s2 & l2 & E2 & Hrl & Hin). mstep_with E2.
    exists (inr 0), s2, l2. split; [done|]. split_and!; [done|done|done|]. apply Hbound, (fresh_count d s 0); [by left|by apply Hcnt]. }
  clear Hk. pose proof (uv_rep _ _ _ Hu) as [_ [Hp _]%Forall_cons _]. pose proof (page_ok_is _ _ Hp) as Hpp.
  destruct (take_page d s p l (λ m, memmove m p f PGSIZE) Hu (memmove_outside p f Hpp)) as (s1 & s2 & Ek & Ew & Hh & Em2 & Hpte2 & Hpg2).
  mstep_with Ek. rewrite (proj2 (Z.eqb_neq p 0)) by (destruct Hpp; lia). mstep_with Ew.
  destruct (map_held d s (p :: l) s2 p l a (PTE_FLAGS v) Hh) as (r & s3 & l3 & Em & Hg & Hl3 & _ & Hmem & Hcase);
    [left|by right|done|done|by rewrite Hpte2|apply flags_bound|]. mstep_with Em.
  destruct Hcase as [(-> & Hs & Hm)|(-> & -> & Hh3 & Hpte3)].
  - change (0 <? 0) with false. cbv iota. exists (inl (a + PGSIZE)), s3, l3. split; [rewrite u32_small; [done|unfold KERNBASE, PGSIZE in *; lia]|].
    split; [done|]. split; [by eapply fresh_step|]. eapply (copied_snoc d s (p :: l) s2 s3 l3); try done; [|intros k Hkr; by apply Hmem0].
    apply (fs_pool _ _ _ _ _ Hf). left. left.
  - change (-1 <? 0) with true. cbv iota. destruct (give_page _ _ _ _ _ _ Hh3) as (s4 & Ef & Hs4 & _). mstep_with Ef.
    destruct (fresh_freevm _ _ _ _ _ (fresh_step _ _ _ _ _ _ _ Hf Hs4)) as (s5 & l5 & E5 & Hrl & Hin). mstep_with E5.
    exists (inr 0), s5, l5. split; [done|]. split_and!; [done|done|done|]. apply Hbound, (fresh_count d s3 p).
    + right. intros q. by rewrite (hd_pool _ _ _ _ _ _ Hh3), (fs_pool _ _ _ _ _ Hf).
    + apply Hcnt. intros va Hva. by rewrite Hpte3, Hpte2.
Qed.

Lemma copyuvm_loop d : ∀ fuel s l a,
  let hi := PGROUNDUP sz in
  fresh s0 l0 d s l → copied (mem s0) pgdir (mem s) d l0 a → 0 ≤ sz ≤ KERNBASE → a mod PGSIZE = 0 → 0 ≤ a ≤ hi →
  (∀ va, va mod PGSIZE = 0 → 0 ≤ va < sz → user_page (mem s0) pgdir va) → (Z.to_nat ((hi - a) / PGSIZE) < fuel)%nat →
  ∃ r s' l', iterM fuel (copy_body pgdir sz d) a s = Ok r s'
    ∧ (r = d ∧ fresh s0 l0 d s' l' ∧ copied (mem s0) pgdir (mem s') d l0 hi
       ∨ r = 0 ∧ released s0 s' l' ∧ (∀ q, q ∈ l' ↔ q ∈ l0) ∧ Z.of_nat (length l0) ≤ 1026 + hi / PGSIZE).
Proof.
  induction fuel as [|fuel IH]; intros s l a hi Hf Hc Hsz Hal Har Hup Hfuel; [lia|]. rewrite iterM_S.
  destruct (roundup_spec sz) as (Hh1 & Hh2 & _); [lia|]. fold hi in Hh1, Hh2. destruct (Z.ltb_spec a sz) as [Hlt|Hge].
  - destruct (copy_turn d s l a Hf Hc Hlt) as ([b|r] & s1 & l1 & E1 & Hr); [lia|apply Hup; lia|..]; mstep_with E1.
    + destruct Hr as (-> & Hf1 & Hc1). apply (IH s1 l1 (a + PGSIZE)); try done; fold hi; unfold PGSIZE in *; zlia.
    + destruct Hr as (-> & Hrl & Hin & Hlen). exists 0, s1, l1. split; [done|]. right. split_and!; [done|done|done|]. unfold PGSIZE in *. zlia.
  - assert (Eb : copy_body pgdir sz d a s = Ok (inr d) s) by (unfold copy_body; by rewrite (proj2 (Z.ltb_ge _ _))).
    mstep_with Eb. exists d, s, l. split; [done|]. left. assert (a = hi) as -> by (unfold PGSIZE in *; zlia). done.
Qed.

Lemma parent_kept s' l' :
  kmem_unlocked s' → kmem_rep l' s' → l' ⊆ l0 → (∀ b, PGROUNDDOWN b ∉ l0 → ld (mem s') b = ld (mem s0) b) →
  uvm pgdir s' l' ∧ kept (mem s0) (mem s') pgdir (λ _, True).
Proof.
  intros Hn Hr Hl Hm. destruct (uvm_ext pgdir s0 s' l0 l' Hu0 Hn Hr) as (Hu & Hpte & _).
  - intros q Hq. by apply (uvm_not_owned _ _ _ _ Hu0), Hl.
  - intros b Hb. apply Hm. by destruct (pt_page_is _ _ _ _ (uv_pt _ _ _ Hu0) Hb).
  - split; [done|]. intros va Hva _. split; [apply Hpte|]. intros b Hb. apply Hm. rewrite Hb. by apply (uv_frame _ _ _ Hu0).
Qed.
End parent.

Lemma copyuvm_run (pgdir sz : Z) (s : kstate) (l : list Z) :
  let hi := PGROUNDUP sz in
  uvm pgdir s l → 0 ≤ sz ≤ KERNBASE → (∀ va, va mod PGSIZE = 0 → 0 ≤ va < sz → user_page (mem s) pgdir va) →
  ∃ d s' l', copyuvm pgdir sz s = Ok d s' ∧ s' <| km := km s |> = s ∧ kmem_rep l' s'
    ∧ (∀ b, PGROUNDDOWN b ∉ l → ld (mem s') b = ld (mem s) b)
    ∧ uvm pgdir s' l' ∧ kept (mem s) (mem s') pgdir (λ _, True)
    ∧ (d ≠ 0 ∧ uvm d s' l' ∧ (∀ q, q ∈ l ↔ q ∈ l' ∨ owned (mem s') d q) ∧ copied (mem s) pgdir (mem s') d l hi
       ∨ d = 0 ∧ (∀ q, q ∈ l' ↔ q ∈ l) ∧ Z.of_nat (length l) ≤ 1026 + hi / PGSIZE).
Proof.
  intros hi Hu Hsz Hup. destruct (setupkvm_run s l (uv_unlocked _ _ _ Hu) (uv_rep _ _ _ Hu)) as (d & s1 & l1 & E1 & Hc).
  destruct (roundup_spec sz) as (Hh1 & Hh2 & _); [done|]. fold hi in Hh1, Hh2.
  assert (Hend : ∃ r s' l', copyuvm pgdir sz s = Ok r s'
    ∧ (r ≠ 0 ∧ fresh s l r s' l' ∧ copied (mem s) pgdir (mem s') r l hi
       ∨ r = 0 ∧ released s s' l' ∧ (∀ q, q ∈ l' ↔ q ∈ l) ∧ Z.of_nat (length l) ≤ 1026 + hi / PGSIZE)).
  { unfold copyuvm. destruct Hc as [(Hd & Hf & Hk & Hno)|(-> & Hrl & Hin & Hlen)]; mstep_with E1.
    - rewrite (proj2 (Z.eqb_neq d 0)) by done.
      destruct (copyuvm_loop s l pgdir sz Hu d (S (S (Z.to_nat (sz / PGSIZE)))) s1 l1 0) as (r & s' & l' & E & Hr); try done.
      + split; [intros; lia|by intros va ?%Hno|done].
      + lia.
      + unfold PGSIZE in *. zlia.
      + exists r, s', l'. split; [exact E|]. destruct Hr as [(-> & ? & ?)|?]; [by left|by right].
    - exists 0, s1, l1. split; [done|]. right. split_and!; [done|done|done|]. unfold PGSIZE in *. zlia. }
  destruct Hend as (r & s' & l' & E & Hr). exists r, s', l'. split; [done|].
  destruct Hr as [(Hd & Hf & Hcp)|(-> & [R1 R2 R3 R4] & Hin & Hlen)].
  - destruct Hf as [F1 F2 F3 F4]. assert (Hl : l' ⊆ l) by (intros q Hq; apply F3; by left).
    destruct (parent_kept s l pgdir Hu s' l') as [Hu' Hkept]; [apply F2|apply F2|done|done|].
    split_and!; try done; [apply F2|]. left. split_and!; try done. intros q. by rewrite <-F3.
  - assert (Hm : ∀ b, PGROUNDDOWN b ∉ l → ld (mem s') b = ld (mem s) b) by (intros b Hb; apply R4; by rewrite Hin).
    destruct (parent_kept s l pgdir Hu s' l') as [Hu' Hkept]; [done|done|intros q; apply Hin|done|]. split_and!; try done. by right.
Qed.
End copy.

(** * Properties *)

(** C15: [copyuvm] gives [fork] a copy of the parent's memory: either a page table of its own, whose tables and pages all come from the
    free list, so that it shares none with the parent, with the kernel's mappings and, for each page of the parent, a page with the
    same contents and permissions; or, only when fewer than a directory, 1024 tables and the copies are free, 0 with every page it took
    given back.  The parent's memory and all other pages are untouched. *)
Theorem copyuvm_correct `{Linker} (pgdir sz : Z) (s : kstate) (l : list Z) :
  let hi := PGROUNDUP sz in
  linker_ok → uvm pgdir s l → 0 ≤ sz ≤ KERNBASE → (∀ va, va mod PGSIZE = 0 → 0 ≤ va < sz → user_page (mem s) pgdir va) →
  ∃ d s' l', copyuvm pgdir sz s = Ok d s' ∧ s' <| km := km s |> = s ∧ kmem_rep l' s'
    ∧ (∀ b, PGROUNDDOWN b ∉ l → ld (mem s') b = ld (mem s) b)
    ∧ uvm pgdir s' l' ∧ kept (mem s) (mem s') pgdir (λ _, True)
    ∧ (d ≠ 0 ∧ uvm d s' l' ∧ (∀ q, q ∈ l ↔ q ∈ l' ∨ owned (mem s') d q) ∧ copied (mem s) pgdir (mem s') d l hi
       ∨ d = 0 ∧ (∀ q, q ∈ l' ↔ q ∈ l) ∧ Z.of_nat (length l) ≤ 1026 + hi / PGSIZE).
Proof. intros hi Hlk. by apply copyuvm_run. Qed.

(** A machine with an empty page directory in the first page after the kernel and 1100 free pages behind it. *)
Definition big_pages : list Z := pages_from (page0 + PGSIZE) 1100.
Definition big_mem : gmap Z Z := foldr (λ p m, st32 m p (if p =? page0 + PGSIZE * 1100 then 0 else p + PGSIZE)) ∅ big_pages.
Definition big_vm : kstate := demo_mem0 <| km := mk_kmem big_mem (page0 + PGSIZE) false |>.

Fixpoint chain_check (m : gmap Z Z) (r : Z) (l : list Z) : bool :=
  match l with [] => r =? 0 | p :: l => (r =? p) && negb (p =? 0) && chain_check m (ld32 m p) l end.
Lemma chain_check_ok m l : ∀ r, chain_check m r l = true → free_chain m r l.
Proof.
  induction l as [|p l IH]; intros r; cbn [chain_check free_chain]; [by intros ?%Z.eqb_eq|].
  intros [[->%Z.eqb_eq Hp%negb_true_iff]%andb_true_iff Hc]%andb_true_iff. split_and!; [done|by apply Z.eqb_neq|auto].
Qed.

Lemma big_empty : empty_dir (mem big_vm) page0.
Proof.
  assert (forallb (λ k, bool_decide (ld32 (mem big_vm) (page0 + 4 * Z.of_nat k) = 0)) (seq 0 1024) = true) as E by by vm_compute.
  intros i Hi. rewrite forallb_forall in E. specialize (E (Z.to_nat i)). rewrite Z2Nat.id in E by lia.
  assert (In (Z.to_nat i) (seq 0 1024)) as Hs by (apply List.in_seq; lia). by apply bool_decide_eq_true in E.
Qed.

Lemma big_vm_facts : uvm (H := demo_linker) page0 big_vm big_pages ∧ (∀ va, pte_of (mem big_vm) page0 va = 0) ∧ ∀ q, owned (mem big_vm) page0 q ↔ q = page0.
Proof.
  assert (Hin : ∀ q, q ∈ big_pages → page0 + 4096 ≤ q ≤ page0 + 4096 * 1100 ∧ q mod 4096 = 0).
  { intros q (k & -> & Hk)%elem_of_pages. change page0 with 2149580800 in *. unfold PGSIZE. zlia. }
  apply (empty_uvm (H := demo_linker) page0 big_vm big_pages); [by intros ?| |by vm_compute| |exact big_empty].
  - split; [apply chain_check_ok; by vm_compute| |].
    + apply Forall_forall. intros q [Hr Hq]%Hin. unfold page_ok. change sym_end with 2149580800. change page0 with 2149580800 in Hr.
      assert (V2P q = q - 2147483648) as -> by (unfold V2P, KERNBASE; rewrite u32_small; lia). unfold PGSIZE, PHYSTOP. lia.
    + unfold big_pages, pages_from. apply NoDup_fmap_2; [|apply NoDup_seq]. intros i j E. unfold PGSIZE in E. lia.
  - intros [Hr _]%Hin. lia.
Qed.

(** A process of one page is copied. *)
Lemma copyuvm_correct_witness :
  ∃ s1 d s', allocuvm (H := demo_linker) page0 0 100 big_vm = Ok 100 s1 ∧ copyuvm (H := demo_linker) page0 100 s1 = Ok d s'
    ∧ d ≠ 0 ∧ user_page (mem s') d 0 ∧ ∀ k, 0 ≤ k < PGSIZE → ld (mem s') (frame (mem s') d 0 + k) = ld (mem s1) (frame (mem s1) page0 0 + k).
Proof.
  destruct big_vm_facts as (Hu & Hpte & _). assert (Hlen : Z.of_nat (length big_pages) = 1100) by (by vm_compute).
  destruct (allocuvm_run (H := demo_linker) eq_refl page0 0 100 big_vm big_pages Hu) as (r & s1 & l1 & E1 & Hs1 & Hr);
    [by split|exact eq_refl|intros va _ _; by rewrite Hpte|]. change (2 * _) with 2 in Hr. rewrite Hlen in Hr.
  destruct Hr as [(Er & Hlen1 & Hg)|(_ & _ & Hbad)]; [|exfalso; clear - Hbad; lia]. rewrite Er in E1. clear Er.
  destruct (@copyuvm_correct demo_linker page0 100 s1 l1) as (d & s' & l' & E & _ & _ & _ & _ & _ & Hc).
  - split; [exact eq_refl|split; exact eq_refl|vm_compute; intros [=]].
  - exact (us_uvm _ _ _ _ _ Hs1).
  - split; vm_compute; intros [=].
  - intros va Hal Hva. refine (proj1 (gr_new _ _ _ _ _ _ Hg va Hal _)). change (0 ≤ va < 4096). clear - Hva. lia.
  - change (PGROUNDUP 100 / PGSIZE) with 1 in Hc. destruct Hc as [(Hd & _ & _ & Hcp)|(_ & _ & Hbad)]; [|exfalso; clear - Hlen1 Hbad; lia].
    destruct (cp_page _ _ _ _ _ _ Hcp 0) as (Hup & _ & _ & Hby); [exact eq_refl|vm_compute; split; [intros [=]|exact eq_refl]|].
    exists s1, d, s'. split; [exact E1|]. split; [exact E|]. split; [exact Hd|]. split; [exact Hup|exact Hby].
Defined.
