(* ===== verification/Pipe.v ===== *)
(** Pipes ([pipe.c]): a ring of [PIPESIZE] bytes between processes that write to it and
    processes that read from it.  [pipealloc], which also needs the file table, is in
    [File].

    A call that goes to sleep is modelled to its end: a run of [pipewrite] or [piperead] stops
    where the process gives up the CPU and says where it stands ([inl]), and the code that
    follows the wakeup is a run of its own. *)
From S2P Require Export Kalloc Sched.

(** Where [data] lies in [struct pipe], after the lock of 52 bytes. *)
Definition PIPE_DATA : Z := 52.

(** The pipe in the page at [p]; the kernel keeps no pointer to a page it has freed. *)
Definition pipe_at (p : Z) : K pipe :=
  s ← get; match pipes s !! p with Some q => mret q | None => trap end.
Definition upd_pipe_at (p : Z) (f : pipe → pipe) : K unit := modify (λ s, s <| pipes ::= alter f p |>).

(** [myproc()->killed] *)
Definition killed : K bool := c ← cur; mret (negb (p_killed c =? 0)).

Definition pipeclose `{Linker} (p : Z) (writable : Z) : K unit :=
  acquire (LPipe p);;
  (if negb (writable =? 0) then
     upd_pipe_at p (λ q, q <| pi_writeopen := 0 |>);;
     wakeup (ChPipeRead p)
   else
     upd_pipe_at p (λ q, q <| pi_readopen := 0 |>);;
     wakeup (ChPipeWrite p));;
  q ← pipe_at p;
  if (pi_readopen q =? 0) && (pi_writeopen q =? 0) then
    release (LPipe p);;
    modify (λ s, s <| pipes ::= delete p |>);;
    kfree p
  else release (LPipe p).

(** ** Writing *)

Definition put_byte (b : Z) (q : pipe) : pipe :=
  q <| pi_data ::= <[Z.to_nat (pi_nwrite q mod PIPESIZE) := b]> |> <| pi_nwrite := u32 (pi_nwrite q + 1) |>.

(** An iteration of the loop, with the lock held: [inr (inl i)] when the process sleeps. *)
Definition pipewrite_body (p : Z) (src : list Z) (n i : Z) : K (Z + (Z + Z)) :=
  if i <? n then
    q ← pipe_at p;
    if pi_nwrite q =? u32 (pi_nread q + PIPESIZE) then
      stop ← (if pi_readopen q =? 0 then mret true else killed);
      if (stop : bool) then release (LPipe p);; mret (inr (inr (-1))) else
      wakeup (ChPipeRead p);;
      suspend (sleep (ChPipeWrite p) (LPipe p)) tt;;
      mret (inr (inl i))
    else
      upd_pipe_at p (put_byte (src !!! Z.to_nat i));;
      mret (inl (i + 1))
  else
    wakeup (ChPipeRead p);;
    release (LPipe p);;
    mret (inr (inr n)).

Definition pipewrite_loop (p : Z) (src : list Z) (n i : Z) : K (Z + Z) :=
  iterM (S (Z.to_nat (n - i))) (pipewrite_body p src n) i.

Definition pipewrite (p : Z) (src : list Z) (n : Z) : K (Z + Z) :=
  acquire (LPipe p);; pipewrite_loop p src n 0.
Definition pipewrite_resume (p : Z) (src : list Z) (n i : Z) : K (Z + Z) :=
  sleep_resume (LPipe p);; pipewrite_loop p src n i.

(** ** Reading *)

Definition get_byte (q : pipe) : pipe := q <| pi_nread := u32 (pi_nread q + 1) |>.

Definition piperead_body (p n : Z) : Z * list Z → K ((Z * list Z) + (Z * list Z)) := λ '(i, addr),
  if i <? n then
    q ← pipe_at p;
    if pi_nread q =? pi_nwrite q then mret (inr (i, addr)) else
    let b := pi_data q !!! Z.to_nat (pi_nread q mod PIPESIZE) in
    upd_pipe_at p get_byte;;
    mret (inl (i + 1, addr ++ [b]))
  else mret (inr (i, addr)).

Definition piperead_loop (p : Z) (n : Z) : K (unit + Z * list Z) :=
  q ← pipe_at p;
  if (pi_nread q =? pi_nwrite q) && negb (pi_writeopen q =? 0) then
    k ← killed;
    if (k : bool) then release (LPipe p);; mret (inr (-1, [])) else
    suspend (sleep (ChPipeRead p) (LPipe p)) tt;;
    mret (inl tt)
  else
    '(i, addr) ← iterM (S (Z.to_nat n)) (piperead_body p n) (0, []);
    wakeup (ChPipeWrite p);;
    release (LPipe p);;
    mret (inr (i, addr)).

Definition piperead (p : Z) (n : Z) : K (unit + Z * list Z) :=
  acquire (LPipe p);; piperead_loop p n.
Definition piperead_resume (p : Z) (n : Z) : K (unit + Z * list Z) :=
  sleep_resume (LPipe p);; piperead_loop p n.

(** * The ring as a bounded queue *)

(** The pipe [q] holds the bytes [l], oldest first.  The counters wrap at 2^32, of which
    [PIPESIZE] is a divisor. *)
Record pipe_rep (q : pipe) (l : list Z) : Prop := {
  qr_len : length (pi_data q) = Z.to_nat PIPESIZE;
  qr_read : 0 ≤ pi_nread q < 4294967296;
  qr_write : pi_nwrite q = u32 (pi_nread q + Z.of_nat (length l));
  qr_room : Z.of_nat (length l) ≤ PIPESIZE;
  qr_bytes k b : l !! k = Some b →
    pi_data q !! Z.to_nat ((pi_nread q + Z.of_nat k) mod PIPESIZE) = Some b }.

Lemma ring_mod x : u32 x mod PIPESIZE = x mod PIPESIZE.
Proof. unfold u32, PIPESIZE. zlia. Qed.

Lemma pipe_empty q l : pipe_rep q l → pi_nread q = pi_nwrite q ↔ l = [].
Proof.
  intros [_ Hr Hw Hl _]. rewrite Hw. unfold u32, PIPESIZE in *. destruct l; simpl in *.
  - split; [done|]. intros _. zlia.
  - split; [|done]. intros E. zlia.
Qed.

Lemma pipe_full q l : pipe_rep q l → pi_nwrite q = u32 (pi_nread q + PIPESIZE) ↔ Z.of_nat (length l) = PIPESIZE.
Proof. intros [_ Hr Hw Hl _]. rewrite Hw. unfold u32, PIPESIZE in *. zlia. Qed.

Lemma put_byte_rep q l b : pipe_rep q l → Z.of_nat (length l) < PIPESIZE → pipe_rep (put_byte b q) (l ++ [b]).
Proof.
  intros [Hn Hr Hw Hl Hb] Hlt. split; simpl; unfold over; simpl.
  - by rewrite length_insert.
  - done.
  - rewrite Hw, length_app. simpl. unfold u32. zlia.
  - rewrite length_app. simpl. lia.
  - rewrite Hw, ring_mod. intros k c Hk.
    assert (0 ≤ (pi_nread q + Z.of_nat (length l)) mod PIPESIZE < PIPESIZE) by by apply Z.mod_pos_bound.
    destruct (decide (k = length l)) as [->|Hne].
    + rewrite list_lookup_middle in Hk by done. rewrite list_lookup_insert_eq; [done|]. rewrite Hn. lia.
    + assert (k < length l)%nat by (apply lookup_lt_Some in Hk; rewrite length_app in Hk; simpl in Hk; lia).
      rewrite lookup_app_l in Hk by done. rewrite list_lookup_insert_ne; [by apply Hb|].
      unfold PIPESIZE in *. zlia.
Qed.


Lemma get_byte_rep q l b :
  pipe_rep q (b :: l) → pi_data q !!! Z.to_nat (pi_nread q mod PIPESIZE) = b ∧ pipe_rep (get_byte q) l.
Proof.
  intros [Hn Hr Hw Hl Hb]. split.
  - apply list_lookup_total_correct. pose proof (Hb 0%nat b eq_refl) as E. by rewrite Z.add_0_r in E.
  - simpl in *. split; simpl; unfold over; simpl.
    + done.
    + unfold u32. zlia.
    + rewrite Hw. unfold u32. zlia.
    + lia.
    + intros k c Hk. specialize (Hb (S k) c Hk). rewrite <- Hb. do 2 f_equal. unfold u32, PIPESIZE. zlia.
Qed.

(** * Runs *)

Definition set_pipe (p : Z) (q : pipe) (s : kstate) : kstate := s <| pipes ::= <[p := q]> |>.

Lemma set_pipe_id p q s : pipes s !! p = Some q → set_pipe p q s = s.
Proof. intros E. unfold set_pipe, over. rewrite insert_id by done. by destruct s. Qed.
Lemma set_pipe_twice p q q' s : set_pipe p q' (set_pipe p q s) = set_pipe p q' s.
Proof. unfold set_pipe, over; simpl. by rewrite insert_insert_eq. Qed.

(** The process in slot [x] runs with the pipe's lock. *)
Record in_pipe (p : Z) (x : nat) (pr : proc) (s : kstate) : Prop := {
  ip_held : held s = [LPipe p];
  ip_cur : curproc s = Some x;
  ip_proc : ptable s !! x = Some pr }.

Lemma in_pipe_set p x pr q s : in_pipe p x pr s → in_pipe p x pr (set_pipe p q s).
Proof. by intros [? ? ?]. Qed.

Lemma pipe_at_ok p q s : pipes s !! p = Some q → pipe_at p s = Ok q s.
Proof. intros E. unfold pipe_at. mstep. by rewrite E. Qed.

Lemma upd_pipe_at_ok p q f s : pipes s !! p = Some q → upd_pipe_at p f s = Ok tt (set_pipe p (f q) s).
Proof.
  intros E. unfold upd_pipe_at, modify, set_pipe, over. do 3 f_equal. apply map_eq. intros j.
  destruct (decide (p = j)) as [<-|]; [by rewrite lookup_alter_eq, lookup_insert_eq, E|].
  by rewrite lookup_alter_ne, lookup_insert_ne.
Qed.

Lemma killed_ok p x pr s : in_pipe p x pr s → killed s = Ok (negb (p_killed pr =? 0)) s.
Proof.
  intros [_ Hc Hp]. unfold killed, cur, curindex, myproc, proc_at. run. rewrite Hc. run. by rewrite Hp.
Qed.

Lemma wakeup_in_pipe p x pr ch s : in_pipe p x pr s → wakeup ch s = Ok tt (wakes ch s).
Proof. intros [Hh _ _]. apply wakeup_ok. rewrite Hh. by apply not_elem_of_cons; split; [|apply not_elem_of_nil]. Qed.

Lemma release_in_pipe p s : held s = [LPipe p] → release (LPipe p) s = Ok tt (s <| held := [] |>).
Proof. intros Hh. apply release_ok; [done|apply not_elem_of_nil]. Qed.

Lemma suspend_ok {A} (m : K A) a s s' : m s = Sleeping s' → suspend m a s = Ok a s'.
Proof. unfold suspend. by intros ->. Qed.

(** Going to sleep inside a pipe call. *)
Definition asleep (ch : chan) (x : nat) (s : kstate) : kstate := (sleeps_on ch x s) <| held := [LPtable] |>.

Lemma sleep_in_pipe {A} p x pr ch s : in_pipe p x pr s → sleep (A:=A) ch (LPipe p) s = Sleeping (asleep ch x s).
Proof. intros [Hh Hc Hp]. by eapply sleep_ok. Qed.

Lemma in_pipe_wakes p x pr ch s : in_pipe p x pr s → in_pipe p x (wake ch pr) (wakes ch s).
Proof. intros [Hh Hc Hp]. split; [done|done|]. unfold wakes, over. simpl. by rewrite list_lookup_fmap, Hp. Qed.

(** What a writer that cannot go on does. *)
Definition write_stops (p : Z) (q : pipe) (x : nat) (pr : proc) (i : Z) (s : kstate) : outcome kstate (Z + Z) :=
  if (pi_readopen q =? 0) || negb (p_killed pr =? 0)
  then Ok (inr (-1)) (s <| held := [] |>)
  else Ok (inl i) (asleep (ChPipeWrite p) x (wakes (ChPipeRead p) s)).

Lemma pipewrite_body_full p src n i s q x pr :
  in_pipe p x pr s → pipes s !! p = Some q → i < n → pi_nwrite q = u32 (pi_nread q + PIPESIZE) →
  pipewrite_body p src n i s =
    match write_stops p q x pr i s with Ok r s' => Ok (inr r) s' | _ => Stuck end.
Proof.
  intros Hin Hq Hi Hf. unfold pipewrite_body, write_stops. rewrite (proj2 (Z.ltb_lt _ _) Hi).
  mstep_with (pipe_at_ok p q s Hq). rewrite (proj2 (Z.eqb_eq _ _) Hf).
  assert ((if pi_readopen q =? 0 then mret true else killed) s
    = Ok ((pi_readopen q =? 0) || negb (p_killed pr =? 0)) s) as Es.
  { destruct (pi_readopen q =? 0); [done|]. by eapply killed_ok. }
  mstep_with Es. destruct (_ || _).
  - destruct Hin. by mstep_with (release_in_pipe p s ip_held0).
  - mstep_with (wakeup_in_pipe p x pr (ChPipeRead p) s Hin).
    by mstep_with (suspend_ok _ tt _ _ (sleep_in_pipe (A:=unit) p x _ (ChPipeWrite p) _ (in_pipe_wakes p x pr (ChPipeRead p) s Hin))).
Qed.

Lemma pipewrite_body_put p src n i s q :
  pipes s !! p = Some q → i < n → pi_nwrite q ≠ u32 (pi_nread q + PIPESIZE) →
  pipewrite_body p src n i s = Ok (inl (i + 1)) (set_pipe p (put_byte (src !!! Z.to_nat i) q) s).
Proof.
  intros Hq Hi Hf. unfold pipewrite_body. rewrite (proj2 (Z.ltb_lt _ _) Hi).
  mstep_with (pipe_at_ok p q s Hq). rewrite (proj2 (Z.eqb_neq _ _) Hf).
  by mstep_with (upd_pipe_at_ok p q (put_byte (src !!! Z.to_nat i)) s Hq).
Qed.

Lemma pipewrite_body_done p src n x pr s :
  in_pipe p x pr s →
  pipewrite_body p src n n s = Ok (inr (inr n)) ((wakes (ChPipeRead p) s) <| held := [] |>).
Proof.
  intros Hin. unfold pipewrite_body. rewrite Z.ltb_irrefl. mstep_with (wakeup_in_pipe p x pr (ChPipeRead p) s Hin).
  destruct Hin. by mstep_with (release_in_pipe p (wakes (ChPipeRead p) s) ip_held0).
Qed.

Definition pieces (src : list Z) (i k : Z) : list Z := take (Z.to_nat k) (drop (Z.to_nat i) src).

Lemma pieces_S src i k : 0 ≤ i → 0 ≤ k → i < Z.of_nat (length src) →
  pieces src i (k + 1) = (src !!! Z.to_nat i) :: pieces src (i + 1) k.
Proof.
  intros Hi Hk Hl. unfold pieces. replace (Z.to_nat (k + 1)) with (S (Z.to_nat k)) by lia.
  destruct (lookup_lt_is_Some_2 src (Z.to_nat i)) as [b Hb]; [lia|].
  rewrite (drop_S src b (Z.to_nat i)) by done. rewrite (list_lookup_total_correct _ _ _ Hb). simpl.
  by replace (Z.to_nat (i + 1)) with (S (Z.to_nat i)) by lia.
Qed.

(** The writer puts in as many bytes as fit; then it is done or it stops. *)
Lemma pipewrite_run p src n x pr (m : nat) : ∀ i s q l fuel,
  in_pipe p x pr s → pipes s !! p = Some q → pipe_rep q l →
  0 ≤ i → n = i + Z.of_nat m → n ≤ Z.of_nat (length src) → (m < fuel)%nat →
  let k := Z.min (Z.of_nat m) (PIPESIZE - Z.of_nat (length l)) in
  ∃ q', pipe_rep q' (l ++ pieces src i k)
    ∧ pi_readopen q' = pi_readopen q ∧ pi_writeopen q' = pi_writeopen q
    ∧ iterM fuel (pipewrite_body p src n) i s =
        let s' := set_pipe p q' s in
        if decide (i + k = n) then Ok (inr n) ((wakes (ChPipeRead p) s') <| held := [] |>)
        else write_stops p q' x pr (i + k) s'.
Proof.
  induction m as [|m IH]; intros i s q l fuel Hin Hq Hr Hi Hn Hl Hf k; (destruct fuel as [|fuel]; [lia|]).
  - pose proof (qr_room _ _ Hr). assert (k = 0) as Ek by (unfold k; lia). exists q.
    unfold pieces. rewrite Ek, set_pipe_id by done. rewrite decide_True by lia.
    replace i with n by lia. split_and!; [by rewrite app_nil_r|done|done|].
    eapply iterM_inr, pipewrite_body_done. exact Hin.
  - pose proof (qr_room _ _ Hr). destruct (decide (pi_nwrite q = u32 (pi_nread q + PIPESIZE))) as [Hfull|Hroom].
    + pose proof (proj1 (pipe_full q l Hr) Hfull) as Hlen. assert (k = 0) as Ek by (unfold k; lia). exists q.
      unfold pieces. rewrite Ek, set_pipe_id by done. rewrite decide_False by lia. rewrite Z.add_0_r.
      split_and!; [by rewrite app_nil_r|done|done|].
      assert (pipewrite_body p src n i s = match write_stops p q x pr i s with Ok r s' => Ok (inr r) s' | _ => Stuck end) as E
        by (apply pipewrite_body_full; [done|done|lia|done]).
      unfold write_stops in *. destruct (_ || _); by erewrite iterM_inr.
    + assert (Z.of_nat (length l) ≠ PIPESIZE) as Hne by (intros E; apply Hroom; by apply (pipe_full q l Hr)).
      pose proof (pipewrite_body_put p src n i s q Hq ltac:(lia) Hroom) as E.
      set (q1 := put_byte (src !!! Z.to_nat i) q) in *. set (s1 := set_pipe p q1 s) in *.
      destruct (IH (i + 1) s1 q1 (l ++ [src !!! Z.to_nat i]) fuel) as (q' & Hr' & Ho1 & Ho2 & Erun); [| | |lia..|].
      * by apply in_pipe_set.
      * apply lookup_insert_eq.
      * apply put_byte_rep; [done|lia].
      * exists q'. rewrite length_app in Hr', Erun. simpl length in Hr', Erun.
        set (k1 := Z.min (Z.of_nat m) (PIPESIZE - Z.of_nat (length l + 1))) in *.
        assert (k = k1 + 1) as Ek by (unfold k, k1; lia).
        rewrite Ek, pieces_S by (unfold k1; lia). rewrite <- app_assoc in Hr'.
        split_and!; [exact Hr'|done|done|].
        rewrite (iterM_inl _ _ _ _ _ _ E), Erun. unfold s1. rewrite set_pipe_twice.
        by replace (i + 1 + k1) with (i + (k1 + 1)) by lia.
Qed.

(** The reader takes out the oldest bytes, as many as it has room for. *)
Lemma piperead_copy p n (m : nat) : ∀ i acc s q l fuel,
  pipes s !! p = Some q → pipe_rep q l → n = i + Z.of_nat m → (m < fuel)%nat →
  ∃ q', pipe_rep q' (drop m l)
    ∧ pi_readopen q' = pi_readopen q ∧ pi_writeopen q' = pi_writeopen q
    ∧ iterM fuel (piperead_body p n) (i, acc) s =
        Ok (i + Z.of_nat (length (take m l)), acc ++ take m l) (set_pipe p q' s).
Proof.
  induction m as [|m IH]; intros i acc s q l fuel Hq Hr Hn Hf; (destruct fuel as [|fuel]; [lia|]).
  - exists q. rewrite set_pipe_id by done. split_and!; [by rewrite drop_0|done|done|].
    simpl. rewrite app_nil_r, Z.add_0_r. eapply iterM_inr. unfold piperead_body.
    by rewrite (proj2 (Z.ltb_ge _ _)) by lia.
  - destruct l as [|b l].
    + exists q. rewrite set_pipe_id by done. split_and!; [by rewrite drop_nil|done|done|].
      simpl. rewrite app_nil_r, Z.add_0_r. eapply iterM_inr. unfold piperead_body.
      rewrite (proj2 (Z.ltb_lt _ _)) by lia. mstep_with (pipe_at_ok p q s Hq).
      by rewrite (proj2 (Z.eqb_eq _ _)) by by apply (pipe_empty q []).
    + destruct (get_byte_rep q l b Hr) as [Eb Hr1].
      destruct (IH (i + 1) (acc ++ [b]) (set_pipe p (get_byte q) s) (get_byte q) l fuel)
        as (q' & Hr' & Ho1 & Ho2 & E); [apply lookup_insert_eq|done|lia|lia|].
      exists q'. split_and!; [done|done|done|].
      assert (piperead_body p n (i, acc) s = Ok (inl (i + 1, acc ++ [b])) (set_pipe p (get_byte q) s)) as Eb1.
      { unfold piperead_body. rewrite (proj2 (Z.ltb_lt _ _)) by lia. mstep_with (pipe_at_ok p q s Hq).
        rewrite (proj2 (Z.eqb_neq _ _)) by (intros E0; by apply (pipe_empty q _ Hr) in E0). cbv zeta.
        mstep_with (upd_pipe_at_ok p q get_byte s Hq). by rewrite Eb. }
      rewrite (iterM_inl _ _ _ _ _ _ Eb1), E, set_pipe_twice, <- app_assoc. simpl. do 2 f_equal. lia.
Qed.

(** What a reader does: it waits for bytes while there may be any to come. *)
Lemma piperead_run p n x pr s q l :
  in_pipe p x pr s → pipes s !! p = Some q → pipe_rep q l →
  let m := Z.to_nat n in
  ∃ q', pipe_rep q' (drop m l)
    ∧ pi_readopen q' = pi_readopen q ∧ pi_writeopen q' = pi_writeopen q
    ∧ piperead_loop p n s =
        if bool_decide (l = []) && negb (pi_writeopen q =? 0) then
          if negb (p_killed pr =? 0) then Ok (inr (-1, [])) (s <| held := [] |>)
          else Ok (inl tt) (asleep (ChPipeRead p) x s)
        else Ok (inr (Z.of_nat (length (take m l)), take m l))
               ((wakes (ChPipeWrite p) (set_pipe p q' s)) <| held := [] |>).
Proof.
  intros Hin Hq Hr m. unfold piperead_loop. pose proof (pipe_empty q l Hr) as Hemp.
  assert ((pi_nread q =? pi_nwrite q) = bool_decide (l = [])) as Eb.
  { case_bool_decide as E; [by apply Z.eqb_eq, Hemp|]. apply Z.eqb_neq. by intros E'%Hemp. }
  destruct (bool_decide (l = []) && negb (pi_writeopen q =? 0)) eqn:Ew.
  - exists q. apply andb_true_iff in Ew as [El Ew]. apply bool_decide_eq_true in El as ->.
    rewrite drop_nil. split_and!; [done|done|done|].
    mstep_with (pipe_at_ok p q s Hq). rewrite Eb, Ew, bool_decide_true by done. change (true && true) with true. cbv iota.
    mstep_with (killed_ok p x pr s Hin). destruct (negb (p_killed pr =? 0)).
    + destruct Hin. by mstep_with (release_in_pipe p s ip_held0).
    + by mstep_with (suspend_ok _ tt _ _ (sleep_in_pipe (A:=unit) p x pr (ChPipeRead p) s Hin)).
  - destruct (piperead_copy p (Z.max 0 n) m 0 [] s q l (S m)) as (q' & Hr' & Ho1 & Ho2 & E); [done|done|lia|lia|].
    exists q'. split_and!; [done|done|done|].
    mstep_with (pipe_at_ok p q s Hq). rewrite Eb, Ew. cbv iota.
    assert (iterM (S (Z.to_nat n)) (piperead_body p n) (0, []) s
      = Ok (Z.of_nat (length (take m l)), take m l) (set_pipe p q' s)) as E'.
    { destruct (Z.le_gt_cases 0 n).
      - rewrite Z.max_r in E by done. exact E.
      - assert (m = 0%nat) as Em by (unfold m; lia). rewrite Em in *. rewrite Z.max_l in E by lia.
        replace (Z.to_nat n) with 0%nat by lia. transitivity (iterM 1 (piperead_body p 0) (0, []) s); [|exact E].
        rewrite !iterM_S. unfold piperead_body. by rewrite (proj2 (Z.ltb_ge 0 n)) by lia. }
    mstep_with E'. cbv iota beta. pose proof (in_pipe_set p x pr q' s Hin) as Hin'.
    mstep_with (wakeup_in_pipe p x pr (ChPipeWrite p) _ Hin').
    destruct Hin. by mstep_with (release_in_pipe p (wakes (ChPipeWrite p) (set_pipe p q' s)) ip_held0).
Qed.

(** * A writer and a reader *)

(** Where the two processes stand: not in a call, asleep in one, or, for the writer, returned. *)
Inductive wstat := WReady | WAsleep (i : Z) | WDone (r : Z).
Inductive rstat := RReady | RAsleep (n : Z).

Section talk.
Context (p : Z) (src : list Z) (n : Z) (w r : nat).

(** The scheduler runs the writer until it sleeps or the call returns, when another process
    gets its turn. *)
Definition write_turn (ws : wstat) : K wstat :=
  switch_to w;;
  o ← match ws with
      | WReady => yield_resume;; pipewrite p src n
      | WAsleep i => pipewrite_resume p src n i
      | WDone v => yield_resume;; mret (inr v)
      end;
  match o with
  | inl i => mret (WAsleep i)
  | inr v => suspend yield tt;; mret (WDone v)
  end.

(** The same for the reader, which makes one call after another, for [k] bytes each; [k] is
    given anew when a call starts.  The bytes read are returned. *)
Definition read_turn (rs : rstat) (k : Z) : K (rstat * list Z) :=
  switch_to r;;
  let k := match rs with RReady => k | RAsleep k => k end in
  o ← match rs with
      | RReady => yield_resume;; piperead p k
      | RAsleep k => piperead_resume p k
      end;
  match o with
  | inl _ => mret (RAsleep k, [])
  | inr (_, bs) => suspend yield tt;; mret (RReady, bs)
  end.

Record talk := mk_talk { t_state : kstate; t_writer : wstat; t_reader : rstat; t_out : list Z }.

Definition runnable (i : nat) (s : kstate) : Prop := p_state <$> ptable s !! i = Some RUNNABLE.

(** The scheduler picks any of the two that is runnable. *)
Inductive talk_step : talk → talk → Prop :=
  | step_writer s ws rs out ws' s' :
      runnable w s → (∀ v, ws ≠ WDone v) → write_turn ws s = Ok ws' s' →
      talk_step (mk_talk s ws rs out) (mk_talk s' ws' rs out)
  | step_reader s ws rs out k rs' bs s' :
      runnable r s → read_turn rs k s = Ok (rs', bs) s' →
      talk_step (mk_talk s ws rs out) (mk_talk s' ws rs' (out ++ bs)).

Definition written (ws : wstat) : Z := match ws with WReady => 0 | WAsleep i => i | WDone _ => n end.

(** The state of a process that is not running: ready to go on, or asleep on [ch] while [stuck]
    holds. *)
Definition parked (ch : chan) (stuck : Prop) (o : option proc) : Prop :=
  ∃ pr, o = Some pr ∧ p_killed pr = 0
    ∧ (p_state pr = RUNNABLE ∨ p_state pr = SLEEPING ∧ p_chan pr = Some ch ∧ stuck).

Record talk_inv (c : talk) : Prop := {
  ti_held : held (t_state c) = [LPtable];
  ti_pipe : ∃ q l, pipes (t_state c) !! p = Some q ∧ pipe_rep q l ∧ pi_readopen q ≠ 0 ∧ pi_writeopen q ≠ 0
    ∧ t_out c ++ l = take (Z.to_nat (written (t_writer c))) src
    ∧ parked (ChPipeWrite p) (Z.of_nat (length l) = PIPESIZE ∧ ∃ i, t_writer c = WAsleep i) (ptable (t_state c) !! w)
    ∧ parked (ChPipeRead p) (l = []) (ptable (t_state c) !! r);
  ti_written : match t_writer c with WReady => True | WAsleep i => 0 ≤ i < n | WDone v => v = n end }.
End talk.

(** ** Entering and leaving a call *)

Lemma switch_to_ok x s :
  switch_to x s = Ok tt (s <| curproc := Some x |> <| ptable ::= alter (λ p, p <| p_state := RUNNING |>) x |>).
Proof. done. Qed.

Lemma alter_proc_ne (f : proc → proc) (t : list proc) x y : y ≠ x → alter f x t !! y = t !! y.
Proof. intros. by apply list_lookup_alter_ne. Qed.

(** Another process than [x] is not touched. *)
Definition others (x : nat) (s s' : kstate) : Prop := pipes s' = pipes s ∧ ∀ y, y ≠ x → ptable s' !! y = ptable s !! y.

Lemma begin_call p x px s :
  held s = [LPtable] → ptable s !! x = Some px →
  ∃ s1 pr, in_pipe p x pr s1 ∧ p_killed pr = p_killed px ∧ others x s s1
    ∧ ∀ A B (f : K A) (g : A → K B),
        (switch_to x;; o ← (yield_resume;; acquire (LPipe p);; f); g o) s = (o ← f; g o) s1.
Proof.
  intros Hh Hx. set (s0 := s <| curproc := Some x |> <| ptable ::= alter (λ p, p <| p_state := RUNNING |>) x |>).
  exists (s0 <| held := [LPipe p] |>), (px <| p_state := RUNNING |>). split_and!; [|done| |].
  - split; [done|done|]. unfold s0, over; simpl. by rewrite list_lookup_alter_eq, Hx.
  - split; [done|]. intros y Hy. unfold s0, over; simpl. by apply alter_proc_ne.
  - intros A B f g. mstep_with (switch_to_ok x s). fold s0. rewrite bind_assoc. unfold yield_resume.
    mstep_with (release_ok LPtable s0 [] Hh (not_elem_of_nil _)). rewrite bind_assoc.
    by mstep_with (acquire_ok (LPipe p) (s0 <| held := [] |>) (not_elem_of_nil _)).
Qed.

Lemma resume_call p x px s :
  held s = [LPtable] → ptable s !! x = Some px →
  ∃ s1 pr, in_pipe p x pr s1 ∧ p_killed pr = p_killed px ∧ others x s s1
    ∧ ∀ A B (f : K A) (g : A → K B),
        (switch_to x;; o ← (sleep_resume (LPipe p);; f); g o) s = (o ← f; g o) s1.
Proof.
  intros Hh Hx. set (s0 := s <| curproc := Some x |> <| ptable ::= alter (λ p, p <| p_state := RUNNING |>) x |>).
  set (s1 := s0 <| ptable ::= alter (λ p, p <| p_chan := None |>) x |>).
  exists (s1 <| held := [LPipe p] |>), (px <| p_state := RUNNING |> <| p_chan := None |>). split_and!; [|done| |].
  - split; [done|done|]. unfold s1, s0, over; simpl. by rewrite !list_lookup_alter_eq, Hx.
  - split; [done|]. intros y Hy. unfold s1, s0, over; simpl. by rewrite !alter_proc_ne.
  - intros A B f g. mstep_with (switch_to_ok x s). fold s0. rewrite bind_assoc.
    assert (sleep_resume (LPipe p) s0 = Ok tt (s1 <| held := [LPipe p] |>)) as E; [|by mstep_with E].
    unfold sleep_resume. assert (upd_cur (λ p, p <| p_chan := None |>) s0 = Ok tt s1) as E by done.
    mstep_with E. rewrite bool_decide_false by done.
    mstep_with (release_ok LPtable s1 [] Hh (not_elem_of_nil _)).
    exact (acquire_ok (LPipe p) (s1 <| held := [] |>) (not_elem_of_nil _)).
Qed.

Lemma end_call x pr s :
  held s = [] → curproc s = Some x → ptable s !! x = Some pr →
  ∃ s', suspend yield tt s = Ok tt s' ∧ held s' = [LPtable] ∧ ptable s' !! x = Some (pr <| p_state := RUNNABLE |>) ∧ others x s s'.
Proof.
  intros Hh Hc Hx. set (s1 := s <| held := [LPtable] |> <| ptable ::= alter (λ p, p <| p_state := RUNNABLE |>) x |>).
  assert (ptable s1 !! x = Some (pr <| p_state := RUNNABLE |>)) as Hx1.
  { unfold s1, over; simpl. by rewrite list_lookup_alter_eq, Hx. }
  exists s1. split_and!; [|done|done|split; [done|intros y ?; by apply alter_proc_ne]].
  apply suspend_ok. unfold yield. mstep_with (acquire_ok LPtable s ltac:(rewrite Hh; apply not_elem_of_nil)).
  assert (upd_cur (λ p, p <| p_state := RUNNABLE |>) (s <| held := LPtable :: held s |>) = Ok tt s1) as E.
  { unfold upd_cur, curindex, myproc. run. rewrite Hc. run. unfold s1, over. simpl. by rewrite Hh. }
  mstep_with E. by eapply sched_ok.
Qed.

Lemma parked_woken ch ch' stuck o : parked ch stuck o → parked ch (stuck ∧ ch ≠ ch') (wake ch' <$> o).
Proof.
  intros (pr & -> & Hk & Hst). exists (wake ch' pr). split; [done|].
  unfold wake. destruct Hst as [Hst|(Hst & Hch & Hs)]; rewrite Hst.
  - rewrite bool_decide_false by done. split; [done|by left].
  - rewrite bool_decide_true by done. rewrite Hch. simpl.
    destruct (decide (ch = ch')) as [->|Hne].
    + rewrite bool_decide_true by done. split; [done|by left].
    + rewrite bool_decide_false by congruence. split; [done|right]. done.
Qed.

Lemma parked_mono ch (S S' : Prop) o : parked ch S o → (S → S') → parked ch S' o.
Proof. intros (pr & ? & ? & Hst) HS. exists pr. naive_solver. Qed.

(** ** Turns keep the invariant *)

Section turns.
Context (p : Z) (src : list Z) (n : Z) (w r : nat).
Context (Hwr : w ≠ r) (Hn : 0 ≤ n ≤ Z.of_nat (length src)).
#[local] Abbreviation Inv := (talk_inv p src n w r).

Lemma wakes_lookup ch s i : ptable (wakes ch s) !! i = wake ch <$> ptable s !! i.
Proof. unfold wakes, over; simpl. by rewrite list_lookup_fmap. Qed.

Lemma take_pieces i k : 0 ≤ i → 0 ≤ k → take (Z.to_nat i) src ++ pieces src i k = take (Z.to_nat (i + k)) src.
Proof.
  intros. unfold pieces. rewrite Z2Nat.inj_add by done.
  by rewrite <- take_take_drop.
Qed.

Lemma asleep_lookup ch x s pr :
  ptable s !! x = Some pr → ptable (asleep ch x s) !! x = Some (pr <| p_chan := Some ch |> <| p_state := SLEEPING |>).
Proof. intros Hx. unfold asleep, sleeps_on, over; simpl. by rewrite list_lookup_alter_eq, Hx. Qed.
Lemma asleep_others ch x y s : y ≠ x → ptable (asleep ch x s) !! y = ptable s !! y.
Proof. intros. by apply alter_proc_ne. Qed.

(** The part of a writer's turn after it has the lock. *)
Lemma write_tail s q l i pr rs out :
  in_pipe p w pr s → p_killed pr = 0 → pipes s !! p = Some q → pipe_rep q l →
  pi_readopen q ≠ 0 → pi_writeopen q ≠ 0 → 0 ≤ i ≤ n → out ++ l = take (Z.to_nat i) src →
  parked (ChPipeRead p) (l = []) (ptable s !! r) →
  ∃ ws' s', (o ← pipewrite_loop p src n i;
             match o with inl i => mret (WAsleep i) | inr v => suspend yield tt;; mret (WDone v) end) s = Ok ws' s'
    ∧ Inv (mk_talk s' ws' rs out).
Proof.
  intros Hin Hk Hq Hr Hro Hwo Hi Hout Hpk.
  destruct (pipewrite_run p src n w pr (Z.to_nat (n - i)) i s q l (S (Z.to_nat (n - i)))) as (q' & Hr' & Ero & Ewo & E); [done..|lia|lia|lia|lia|].
  cbv zeta in E. set (k := Z.min _ _) in *. pose proof (qr_room _ _ Hr) as Hroom.
  assert (0 ≤ k) as Hk0 by (unfold k; lia).
  assert (length (pieces src i k) = Z.to_nat k) as Hlp.
  { unfold pieces. rewrite length_take, length_drop. unfold k. lia. }
  set (s1 := set_pipe p q' s) in *. pose proof (in_pipe_set p w pr q' s Hin : in_pipe p w pr s1) as Hin1.
  assert (out ++ (l ++ pieces src i k) = take (Z.to_nat (i + k)) src) as Hout'.
  { by rewrite app_assoc, Hout, take_pieces by lia. }
  assert (parked (ChPipeRead p) (l ++ pieces src i k = []) (ptable (wakes (ChPipeRead p) s1) !! r)) as Hpk'.
  { rewrite wakes_lookup. eapply parked_mono; [by eapply (parked_woken _ (ChPipeRead p))|]. by intros [_ ?]. }
  assert (ptable (wakes (ChPipeRead p) s1) !! w = Some (wake (ChPipeRead p) pr)) as Hw1
    by (rewrite wakes_lookup; by destruct Hin1 as [_ _ ->]).
  assert (p_killed (wake (ChPipeRead p) pr) = 0) as Hkw by (unfold wake; by destruct (_ && _)).
  case_decide as Ed.
  - destruct (end_call w (wake (ChPipeRead p) pr) ((wakes (ChPipeRead p) s1) <| held := [] |>)) as (s' & Ey & Hh' & Hw' & [Hp' Hoth]);
      [done|by destruct Hin1|done|].
    exists (WDone n), s'. split; [unfold pipewrite_loop; mstep_with E; by mstep_with Ey|]. split; cbn [t_state t_writer t_reader t_out written]; [done| |done].
    exists q', (l ++ pieces src i k). rewrite Hp', Hw', Hoth by done.
    split_and!; [apply lookup_insert_eq|done|congruence|congruence|by rewrite Hout', Ed| |exact Hpk'].
    eexists. split; [done|]. split; [done|by left].
  - unfold write_stops in E. rewrite Ero, (proj2 (Z.eqb_neq _ _) Hro), Hk in E. simpl in E.
    eexists (WAsleep (i + k)), _. split; [unfold pipewrite_loop; by mstep_with E|].
    assert (k = PIPESIZE - Z.of_nat (length l)) as Ek by (unfold k in *; lia).
    split; cbn [t_state t_writer t_reader t_out written]; [done| |unfold k in *; lia].
    exists q', (l ++ pieces src i k).
    split_and!; [apply lookup_insert_eq|done|congruence|congruence|done| |].
    + rewrite (asleep_lookup _ _ _ _ Hw1). eexists. split; [done|].
      split; [done|]. right. split_and!; [done|done|rewrite length_app, Hlp; lia|by eexists].
    + by rewrite asleep_others.
Qed.

Lemma read_tail s q l k pr ws out :
  in_pipe p r pr s → p_killed pr = 0 → pipes s !! p = Some q → pipe_rep q l →
  pi_readopen q ≠ 0 → pi_writeopen q ≠ 0 → out ++ l = take (Z.to_nat (written n ws)) src →
  match ws with WReady => True | WAsleep i => 0 ≤ i < n | WDone v => v = n end →
  parked (ChPipeWrite p) (Z.of_nat (length l) = PIPESIZE ∧ ∃ i, ws = WAsleep i) (ptable s !! w) →
  ∃ rs' bs s', (o ← piperead_loop p k;
                match o with inl _ => mret (RAsleep k, []) | inr (_, bs) => suspend yield tt;; mret (RReady, bs) end) s
      = Ok (rs', bs) s'
    ∧ Inv (mk_talk s' ws rs' (out ++ bs)).
Proof.
  intros Hin Hk Hq Hr Hro Hwo Hout Hws Hpk.
  destruct (piperead_run p k r pr s q l Hin Hq Hr) as (q' & Hr' & Ero & Ewo & E). cbv zeta in *.
  rewrite (proj2 (Z.eqb_neq _ _) Hwo), Hk in E. change (negb false) with true in E. rewrite andb_true_r in E.
  case_bool_decide as El.
  - change (negb (0 =? 0)) with false in E. cbv iota in E. subst l.
    exists (RAsleep k), [], (asleep (ChPipeRead p) r s). split; [by mstep_with E|].
    split; cbn [t_state t_writer t_reader t_out written]; [done| |done].
    exists q, []. split_and!; [done|done|done|done|by rewrite (app_nil_r out)| |].
    + by rewrite asleep_others.
    + destruct Hin as [_ _ Hx]. rewrite (asleep_lookup _ _ _ _ Hx). eexists. split; [done|].
      split; [done|]. right. done.
  - set (bs := take (Z.to_nat k) l) in *. set (s1 := set_pipe p q' s) in *.
    pose proof (in_pipe_set p r pr q' s Hin : in_pipe p r pr s1) as Hin1.
    assert (ptable (wakes (ChPipeWrite p) s1) !! r = Some (wake (ChPipeWrite p) pr)) as Hw1
      by (rewrite wakes_lookup; by destruct Hin1 as [_ _ ->]).
    destruct (end_call r (wake (ChPipeWrite p) pr) ((wakes (ChPipeWrite p) s1) <| held := [] |>)) as (s' & Ey & Hh' & Hw' & [Hp' Hoth]);
      [done|by destruct Hin1|done|].
    exists RReady, bs, s'. split; [mstep_with E; by mstep_with Ey|].
    split; cbn [t_state t_writer t_reader t_out written]; [done| |done].
    exists q', (drop (Z.to_nat k) l). rewrite Hp', Hw', Hoth by done.
    split_and!; [apply lookup_insert_eq|done|congruence|congruence| | |].
    + rewrite <- Hout, <- app_assoc. f_equal. apply take_drop.
    + change (ptable (_ <| held := [] |>)) with (ptable (wakes (ChPipeWrite p) s1)). rewrite wakes_lookup.
      eapply parked_mono; [by eapply (parked_woken _ (ChPipeWrite p))|]. by intros [_ ?].
    + eexists. split; [done|]. split; [|by left]. unfold wake. by destruct (_ && _).
Qed.

(** Neither process can get stuck in its turn. *)
Lemma writer_turn s ws rs out :
  Inv (mk_talk s ws rs out) → (∀ v, ws ≠ WDone v) →
  ∃ ws' s', write_turn p src n w ws s = Ok ws' s' ∧ Inv (mk_talk s' ws' rs out).
Proof.
  intros [Hh (q & l & Hq & Hr & Hro & Hwo & Hout & (pr & Hw & Hk & _) & Hpr) Hws] Hnd. simpl in *.
  destruct ws as [|i|v]; [| |by destruct (Hnd v)].
  - destruct (begin_call p w pr s Hh Hw) as (s1 & pr1 & Hin & Hk1 & [Hp1 Ho1] & E).
    unfold write_turn, pipewrite. rewrite E. eapply write_tail; try done; [congruence|by rewrite Hp1|lia|by rewrite Ho1].
  - destruct (resume_call p w pr s Hh Hw) as (s1 & pr1 & Hin & Hk1 & [Hp1 Ho1] & E).
    unfold write_turn, pipewrite_resume. rewrite E. eapply write_tail; try done; [congruence|by rewrite Hp1|lia|by rewrite Ho1].
Qed.

Lemma reader_turn s ws rs out k :
  Inv (mk_talk s ws rs out) →
  ∃ rs' bs s', read_turn p r rs k s = Ok (rs', bs) s' ∧ Inv (mk_talk s' ws rs' (out ++ bs)).
Proof.
  intros [Hh (q & l & Hq & Hr & Hro & Hwo & Hout & Hpw & (pr & Hx & Hk & _)) Hws]. simpl in *.
  destruct rs as [|k'].
  - destruct (begin_call p r pr s Hh Hx) as (s1 & pr1 & Hin & Hk1 & [Hp1 Ho1] & E).
    unfold read_turn, piperead. cbv zeta. rewrite E. eapply read_tail; try done; [congruence|by rewrite Hp1|by rewrite Ho1].
  - destruct (resume_call p r pr s Hh Hx) as (s1 & pr1 & Hin & Hk1 & [Hp1 Ho1] & E).
    unfold read_turn, piperead_resume. cbv zeta. rewrite E. eapply read_tail; try done; [congruence|by rewrite Hp1|by rewrite Ho1].
Qed.
End turns.

(** * Properties *)

(** A fresh pipe between two runnable processes. *)
Record talk_start (p : Z) (w r : nat) (s : kstate) : Prop := {
  ts_held : held s = [LPtable];
  ts_pipe : ∃ q, pipes s !! p = Some q ∧ pipe_rep q [] ∧ pi_readopen q ≠ 0 ∧ pi_writeopen q ≠ 0;
  ts_procs : w ≠ r ∧ ∀ i, i = w ∨ i = r → ∃ pr, ptable s !! i = Some pr ∧ p_killed pr = 0 ∧ p_state pr = RUNNABLE }.

(** C3: A pipe is a reliable byte stream, whatever order the scheduler runs the two ends in: at any
    time the reader has received a prefix of what the writer sends, nothing lost, repeated or
    reordered; the writer's call returns only the full count; and the two never block
    each other: one of them can run until everything has arrived. *)
Theorem pipe_fifo (p : Z) (src : list Z) (n : Z) (w r : nat) (s0 : kstate) (c : talk) :
  0 ≤ n ≤ Z.of_nat (length src) → talk_start p w r s0 →
  rtc (talk_step p src n w r) (mk_talk s0 WReady RReady []) c →
  t_out c `prefix_of` take (Z.to_nat n) src
  ∧ (∀ v, t_writer c = WDone v → v = n)
  ∧ ((∃ c', talk_step p src n w r c c') ∨ t_writer c = WDone n ∧ t_out c = take (Z.to_nat n) src).
Proof.
  intros Hn [Hh (q & Hq & Hr & Hro & Hwo) [Hwr Hprocs]] Hc.
  assert (talk_inv p src n w r c) as Hinv.
  { remember (mk_talk s0 WReady RReady []) as c0 eqn:E0. assert (talk_inv p src n w r c0) as Hi.
    { subst c0. split; [done| |done]. exists q, []. destruct (Hprocs w) as (? & ? & ? & ?); [by left|].
      destruct (Hprocs r) as (? & ? & ? & ?); [by right|]. split_and!; try done; [eexists; split; [done|]; auto..]. }
    clear E0. induction Hc as [|c0 c1 c2 Hs _ IH]; [done|]. apply IH. destruct Hs as [s ws rs out ws' s' _ Hnd E|s ws rs out k rs' bs s' _ E].
    - destruct (writer_turn p src n w r Hwr Hn s ws rs out Hi Hnd) as (ws1 & s1 & E1 & ?). rewrite E in E1; by simplify_eq.
    - destruct (reader_turn p src n w r Hwr s ws rs out k Hi) as (rs1 & bs1 & s1 & E1 & ?). rewrite E in E1; by simplify_eq. }
  destruct c as [s ws rs out]. pose proof Hinv as [Hh' (q' & l & Hq' & Hr' & _ & _ & Hout & Hpw & Hpr) Hws]. simpl in *.
  assert (written n ws ≤ n) as Hle by (destruct ws; simpl; lia).
  split; [|split].
  - etrans; [by apply prefix_app_r|]. rewrite Hout.
    exists (drop (Z.to_nat (written n ws)) (take (Z.to_nat n) src)).
    rewrite <- (take_drop (Z.to_nat (written n ws)) (take (Z.to_nat n) src)) at 1. f_equal. rewrite take_take. f_equal. lia.
  - by intros v ->.
  - destruct Hpr as (pr & Er & _ & [Hrun|(_ & _ & ->)]).
    { left. destruct (reader_turn p src n w r Hwr s ws rs out 0 Hinv) as (? & ? & ? & E & _).
      eexists. eapply step_reader; [|exact E]. unfold runnable. by rewrite Er; simpl; rewrite Hrun. }
    destruct Hpw as (pw & Ew & _ & [Hrun|(_ & _ & Hfull & _)]); [|done].
    destruct ws as [|i|v].
    1, 2: left; destruct (writer_turn p src n w r Hwr Hn s _ rs out Hinv ltac:(done)) as (? & ? & E & _);
      eexists; eapply step_writer; [|done|exact E]; unfold runnable; by rewrite Ew; simpl; rewrite Hrun.
    right. rewrite app_nil_r in Hout. subst v. done.
Qed.

Definition demo_talk : kstate :=
  let pr := mk_proc 0 0 0 RUNNABLE 1 None 0 0 None 0 [] None [] in
  demo_mem0 <| held := [LPtable] |> <| ptable := [pr; pr] |>
    <| pipes := {[ 4096 := mk_pipe (replicate 512 0) 4294967295 4294967295 1 1 ]} |>.

Lemma demo_talk_start : talk_start 4096 0 1 demo_talk.
Proof.
  split; [done| |].
  - eexists. split; [done|]. split; [|done]. split; [done|done|by vm_compute|done|done].
  - split; [done|]. intros i [-> | ->]; eexists; done.
Qed.

(** Three bytes are sent, across the wrap of the counters, and two of them received. *)
Lemma pipe_fifo_witness :
  ∃ c, t_out c = [7; 8] ∧ t_out c `prefix_of` take 3 [7; 8; 9]
  ∧ (∀ v, t_writer c = WDone v → v = 3)
  ∧ ((∃ c', talk_step 4096 [7; 8; 9] 3 0 1 c c') ∨ t_writer c = WDone 3 ∧ t_out c = take 3 [7; 8; 9]).
Proof.
  eexists. split; [|apply (pipe_fifo 4096 [7; 8; 9] 3 0 1 demo_talk); [by split|apply demo_talk_start|]].
  2:{ eapply rtc_l; [|eapply rtc_once].
      - apply step_writer; [done|done|by vm_compute].
      - apply (step_reader _ _ _ _ _ _ _ _ _ 2); [done|by vm_compute]. }
  done.
Defined.

(** C35: A pipe whose other end is closed does not block.  With no writer left, a reader gets what is left and
    then end of file (0 bytes).  With no reader left, a writer whose bytes fit into what is free of the pipe puts them there and
    returns their number, as if they could still be read; one whose bytes do not fit gets -1 instead of sleeping, when the pipe is full. *)
Theorem pipe_hangup (p : Z) (src : list Z) (n : Z) (x : nat) (pr : proc) (q : pipe) (l : list Z) (s : kstate) :
  held s = [] → curproc s = Some x → ptable s !! x = Some pr → pipes s !! p = Some q → pipe_rep q l →
  (pi_writeopen q = 0 → ∃ s', piperead p n s = Ok (inr (Z.of_nat (length (take (Z.to_nat n) l)), take (Z.to_nat n) l)) s'
     ∧ held s' = [] ∧ ∃ q', pipes s' !! p = Some q' ∧ pipe_rep q' (drop (Z.to_nat n) l))
  ∧ (pi_readopen q = 0 → 0 ≤ n ≤ Z.of_nat (length src) → ∃ s',
       pipewrite p src n s = Ok (inr (if decide (n ≤ PIPESIZE - Z.of_nat (length l)) then n else -1)) s' ∧ held s' = []).
Proof.
  intros Hh Hc Hp Hq Hr. set (s1 := s <| held := [LPipe p] |>).
  assert (in_pipe p x pr s1) as Hin by done.
  assert (acquire (LPipe p) s = Ok tt s1) as Ea.
  { rewrite acquire_ok by (rewrite Hh; apply not_elem_of_nil). by rewrite Hh. }
  pose proof (qr_room _ _ Hr). split.
  - intros Hwo. destruct (piperead_run p n x pr s1 q l Hin Hq Hr) as (q' & Hr' & _ & _ & E). cbv zeta in *.
    rewrite Hwo in E. change (negb (0 =? 0)) with false in E. rewrite andb_false_r in E.
    eexists. split; [unfold piperead; mstep_with Ea; exact E|]. split; [done|]. exists q'. split; [apply lookup_insert_eq|done].
  - intros Hro Hn. destruct (pipewrite_run p src n x pr (Z.to_nat n) 0 s1 q l (S (Z.to_nat (n - 0)))) as (q' & _ & Ero & _ & E); try done; try lia.
    cbv zeta in E. unfold write_stops in E. rewrite Ero, Hro in E. simpl orb in E.
    unfold pipewrite. rewrite (bind_ok _ _ _ _ _ Ea). unfold pipewrite_loop. rewrite E.
    case_decide; case_decide; try lia; by eexists.
Qed.

(** Nothing is left to read; five bytes fit, six hundred do not. *)
Lemma pipe_hangup_witness :
  let s := demo_mem0 <| pipes := {[ 4096 := mk_pipe (replicate 512 0) 0 0 0 0 ]} |> in
  (∃ s', piperead 4096 5 s = Ok (inr (0, [])) s' ∧ held s' = [] ∧ ∃ q', pipes s' !! 4096 = Some q' ∧ pipe_rep q' [])
  ∧ (∃ s', pipewrite 4096 (replicate 600 1) 5 s = Ok (inr 5) s' ∧ held s' = [])
  ∧ (∃ s', pipewrite 4096 (replicate 600 1) 600 s = Ok (inr (-1)) s' ∧ held s' = []).
Proof.
  intros s. set (q := mk_pipe (replicate 512 0) 0 0 0 0). assert (pipe_rep q []) as Hr by by split.
  destruct (pipe_hangup 4096 (replicate 600 1) 5 0 boot_proc q [] s) as [Hread Hw5]; [done..|].
  destruct (pipe_hangup 4096 (replicate 600 1) 600 0 boot_proc q [] s) as [_ Hw600]; [done..|].
  split; [exact (Hread eq_refl)|]. split; [apply (Hw5 eq_refl)|apply (Hw600 eq_refl)]; rewrite length_replicate; lia.
Defined.
