(* ===== verification/File.v ===== *)
(** Open files ([file.c]) and the creation of pipes ([pipealloc] of [pipe.c]).  A [struct file]
    is named by its index in [ftable.file]; system calls pass the bytes they read or write as lists. *)
From S2P Require Export Pipe Fs Txn.

Section file.
Context `{Linker} `{Devsw}.

Definition file_at (i : nat) : K file :=
  s ← get; match ftable s !! i with Some f => mret f | None => trap end.
Definition upd_file_at (i : nat) (f : file → file) : K unit := modify (λ s, s <| ftable ::= alter f i |>).

Definition fileinit : K unit := initlock LFtable.

(** A turn of the loop of [filealloc], and what follows the loop. *)
Definition filealloc_body (i : nat) : K (nat + option nat) :=
  if (i <? NFILE)%nat then
    f ← file_at i;
    if f_ref f =? 0 then
      upd_file_at i (λ f, f <| f_ref := 1 |>);;
      release LFtable;;
      mret (inr (Some i))
    else mret (inl (S i))
  else
    release LFtable;;
    mret (inr None).

Definition filealloc : K (option nat) :=
  acquire LFtable;;
  iterM (S NFILE) filealloc_body 0%nat.

Definition filedup (i : nat) : K nat :=
  acquire LFtable;;
  f ← file_at i;
  if f_ref f <? 1 then panic "filedup" else
  upd_file_at i (λ f, f <| f_ref ::= λ r, r + 1 |>);;
  release LFtable;;
  mret i.

Definition fileclose (i : nat) : K unit :=
  acquire LFtable;;
  f ← file_at i;
  if f_ref f <? 1 then panic "fileclose" else
  upd_file_at i (λ f, f <| f_ref ::= λ r, r - 1 |>);;
  if 0 <? f_ref f - 1 then release LFtable else
  ff ← file_at i;
  upd_file_at i (λ f, f <| f_ref := 0 |> <| f_type := FD_NONE |>);;
  release LFtable;;
  match f_type ff with
  | FD_PIPE => pipeclose (f_pipe ff) (f_writable ff)
  | FD_INODE => begin_op;; iput (f_ip ff);; end_op
  | FD_NONE => mret tt
  end.

(** The result and what is stored at [st]. *)
Definition filestat (i : nat) : K (Z * option stat) :=
  f ← file_at i;
  match f_type f with
  | FD_INODE =>
      ilock (Some (f_ip f));;
      st ← stati (f_ip f);
      iunlock (Some (f_ip f));;
      mret (0, Some st)
  | _ => mret (-1, None)
  end.

(** A call that sleeps on a pipe does not return yet. *)
Definition finish {X A} (o : X + A) : K A := match o with inl _ => λ s, Sleeping s | inr a => mret a end.

(** The result and the bytes stored at [addr]. *)
Definition fileread (i : nat) (n : Z) : K (Z * list Z) :=
  f ← file_at i;
  if f_readable f =? 0 then mret (-1, []) else
  match f_type f with
  | FD_PIPE => o ← piperead (f_pipe f) n; finish o
  | FD_INODE =>
      ilock (Some (f_ip f));;
      '(r, addr) ← readi (f_ip f) (f_off f) n;
      (if 0 <? r then upd_file_at i (λ f, f <| f_off ::= λ o, u32 (o + r) |>) else mret tt);;
      iunlock (Some (f_ip f));;
      mret (r, addr)
  | FD_NONE => panic "fileread"
  end.

Definition filewrite_max : Z := ((MAXOPBLOCKS - 1 - 1 - 2) / 2) * 512.

Definition filewrite (i : nat) (addr : list Z) (n : Z) : K Z :=
  f ← file_at i;
  if f_writable f =? 0 then mret (-1) else
  match f_type f with
  | FD_PIPE => o ← pipewrite (f_pipe f) addr n; finish o
  | FD_INODE =>
      k ← iterM (S (S (Z.to_nat (n / filewrite_max)))) (λ k,
        if k <? n then
          let n1 := n - k in
          let n1 := if filewrite_max <? n1 then filewrite_max else n1 in
          begin_op;;
          ilock (Some (f_ip f));;
          f' ← file_at i;
          r ← writei (f_ip f) (drop (Z.to_nat k) addr) (f_off f') n1;
          (if 0 <? r then upd_file_at i (λ f, f <| f_off ::= λ o, u32 (o + r) |>) else mret tt);;
          iunlock (Some (f_ip f));;
          end_op;;
          if r <? 0 then mret (inr k) else
          if negb (r =? n1) then panic "short filewrite" else
          mret (inl (k + r))
        else mret (inr k)) 0;
      mret (if k =? n then n else -1)
  | FD_NONE => panic "filewrite"
  end.

(** The label [bad] of [pipealloc]. *)
Definition pipealloc_bad (p : Z) (f0 f1 : option nat) : K (option (nat * nat)) :=
  (if negb (p =? 0) then kfree p else mret tt);;
  (match f0 with Some f0 => fileclose f0 | None => mret tt end);;
  (match f1 with Some f1 => fileclose f1 | None => mret tt end);;
  mret None.

(** The two files (read end first), or [None] for -1.  The data of a new pipe is what its
    page held. *)
Definition pipealloc : K (option (nat * nat)) :=
  f0 ← filealloc;
  match f0 with
  | None => pipealloc_bad 0 None None
  | Some i0 =>
      f1 ← filealloc;
      match f1 with
      | None => pipealloc_bad 0 f0 None
      | Some i1 =>
          p ← kalloc;
          if p =? 0 then pipealloc_bad 0 f0 f1 else
          modify (λ s, s <| pipes ::= <[p := mk_pipe (ld_range (mem s) (p + PIPE_DATA) (Z.to_nat PIPESIZE)) 0 0 1 1]> |>);;
          initlock (LPipe p);;
          upd_file_at i0 (λ f, f <| f_type := FD_PIPE |> <| f_readable := 1 |> <| f_writable := 0 |> <| f_pipe := p |>);;
          upd_file_at i1 (λ f, f <| f_type := FD_PIPE |> <| f_readable := 0 |> <| f_writable := 1 |> <| f_pipe := p |>);;
          mret (Some (i0, i1))
      end
  end.

(** * Reference counts *)

Definition free_file (f : file) : Prop := f_ref f = 0.
#[export] Instance free_file_dec f : Decision (free_file f).
Proof. unfold free_file. apply _. Defined.

Definition set_file (i : nat) (f : file) (s : kstate) : kstate := s <| ftable ::= <[i := f]> |>.

Lemma file_at_ok i f s : ftable s !! i = Some f → file_at i s = Ok f s.
Proof. intros E. unfold file_at. mstep. by rewrite E. Qed.
Lemma upd_file_at_ok i f g s : ftable s !! i = Some f → upd_file_at i g s = Ok tt (set_file i (g f) s).
Proof. intros E. unfold upd_file_at, modify, set_file, over. do 2 f_equal. by apply alter_lookup. Qed.

Lemma filealloc_loop s h m : ∀ i fuel,
  held s = LFtable :: h → LFtable ∉ h → length (ftable s) = NFILE → (i + m)%nat = NFILE → (m < fuel)%nat →
  iterM fuel filealloc_body i s =
    match list_find free_file (drop i (ftable s)) with
    | Some (k, f) => Ok (Some (i + k)%nat) ((set_file (i + k) (f <| f_ref := 1 |>) s) <| held := h |>)
    | None => Ok None (s <| held := h |>)
    end.
Proof.
  induction m as [|m IH]; intros i fuel Hh Hn Hl Hi Hf; (destruct fuel as [|fuel]; [lia|]).
  - rewrite drop_ge by lia. simpl. eapply iterM_inr. unfold filealloc_body.
    rewrite (proj2 (Nat.ltb_ge _ _)) by lia. by mstep_with (release_ok LFtable s h Hh Hn).
  - destruct (lookup_lt_is_Some_2 (ftable s) i) as [f Hx]; [lia|]. rewrite (drop_S _ f) by done. simpl.
    assert (filealloc_body i s = (if f_ref f =? 0 then
      upd_file_at i (λ f, f <| f_ref := 1 |>);; release LFtable;; mret (inr (Some i)) else mret (inl (S i))) s) as Eb.
    { unfold filealloc_body. rewrite (proj2 (Nat.ltb_lt _ _)) by lia. by mstep_with (file_at_ok i f s Hx). }
    unfold free_file at 1. case_decide as E0; unfold free_file in E0.
    + rewrite Nat.add_0_r. eapply iterM_inr. rewrite Eb, (proj2 (Z.eqb_eq _ _) E0).
      mstep_with (upd_file_at_ok i f (λ f, f <| f_ref := 1 |>) s Hx).
      by mstep_with (release_ok LFtable (set_file i (f <| f_ref := 1 |>) s) h Hh Hn).
    + rewrite (proj2 (Z.eqb_neq _ _) E0) in Eb. rewrite (iterM_inl _ _ _ _ _ _ Eb), IH by (done || lia).
      destruct (list_find free_file (drop (S i) (ftable s))) as [[k x]|]; [|done]. simpl.
      by rewrite Nat.add_succ_r.
Qed.

Lemma filealloc_ok s :
  LFtable ∉ held s → length (ftable s) = NFILE →
  filealloc s = match list_find free_file (ftable s) with
                | Some (k, f) => Ok (Some k) (set_file k (f <| f_ref := 1 |>) s)
                | None => Ok None s
                end.
Proof.
  intros Hn Hl. unfold filealloc. mstep_with (acquire_ok LFtable s Hn).
  rewrite (filealloc_loop (s <| held := LFtable :: held s |>) (held s) NFILE) by (done || lia).
  rewrite drop_0. simpl ftable. destruct (list_find _ _) as [[k f]|]; by destruct s.
Qed.

Lemma filedup_ok i f s :
  LFtable ∉ held s → ftable s !! i = Some f → 1 ≤ f_ref f →
  filedup i s = Ok i (set_file i (f <| f_ref := f_ref f + 1 |>) s).
Proof.
  intros Hn Hf Hr. unfold filedup. mstep_with (acquire_ok LFtable s Hn).
  set (s0 := over held _ s). assert (ftable s0 !! i = Some f) as Hf0 by done. mstep_with (file_at_ok i f s0 Hf0). rewrite (proj2 (Z.ltb_ge _ _)) by lia.
  mstep_with (upd_file_at_ok i f (λ f, f <| f_ref ::= λ r, r + 1 |>) s0 Hf0).
  erewrite bind_ok; [|by apply (release_ok _ _ (held s))]. by destruct s.
Qed.

(** Closing a file others still refer to, and closing one for good. *)
Lemma fileclose_shared i f s :
  LFtable ∉ held s → ftable s !! i = Some f → 1 < f_ref f →
  fileclose i s = Ok tt (set_file i (f <| f_ref := f_ref f - 1 |>) s).
Proof.
  intros Hn Hf Hr. unfold fileclose. mstep_with (acquire_ok LFtable s Hn).
  set (s0 := over held _ s). assert (ftable s0 !! i = Some f) as Hf0 by done. mstep_with (file_at_ok i f s0 Hf0). rewrite (proj2 (Z.ltb_ge _ _)) by lia.
  mstep_with (upd_file_at_ok i f (λ f, f <| f_ref ::= λ r, r - 1 |>) s0 Hf0).
  rewrite (proj2 (Z.ltb_lt _ _)) by lia. rewrite (release_ok _ _ (held s)) by done. by destruct s.
Qed.

Lemma fileclose_last i f s :
  LFtable ∉ held s → ftable s !! i = Some f → f_ref f = 1 →
  fileclose i s =
    (match f_type f with
     | FD_PIPE => pipeclose (f_pipe f) (f_writable f)
     | FD_INODE => begin_op;; iput (f_ip f);; end_op
     | FD_NONE => mret tt
     end) (set_file i (f <| f_ref := 0 |> <| f_type := FD_NONE |>) s).
Proof.
  intros Hn Hf Hr. unfold fileclose. mstep_with (acquire_ok LFtable s Hn).
  set (s0 := over held _ s). assert (ftable s0 !! i = Some f) as Hf0 by done. mstep_with (file_at_ok i f s0 Hf0). rewrite Hr. change (1 <? 1) with false. change (0 <? 1 - 1) with false. cbv iota.
  mstep_with (upd_file_at_ok i f (λ f, f <| f_ref ::= λ r, r - 1 |>) s0 Hf0).
  assert (i < length (ftable s))%nat as Hlt by by eapply lookup_lt_Some.
  set (f' := f <| f_ref ::= λ r, r - 1 |>). set (s1 := set_file i f' s0).
  assert (ftable s1 !! i = Some f') as Hf1 by by apply list_lookup_insert_eq.
  mstep_with (file_at_ok i f' s1 Hf1).
  mstep_with (upd_file_at_ok i f' (λ f, f <| f_ref := 0 |> <| f_type := FD_NONE |>) s1 Hf1).
  erewrite bind_ok; [|by apply (release_ok _ _ (held s))]. cbv beta. change (f_type f') with (f_type f).
  change (f_pipe f') with (f_pipe f). change (f_writable f') with (f_writable f). change (f_ip f') with (f_ip f). f_equal.
  unfold set_file, s1, over; simpl. unfold set_file, over; simpl. rewrite list_insert_insert_eq. by destruct s.
Qed.

(** ** Creating a pipe *)

(** Free slots are marked so, as [fileclose] and the zeroed table leave them. *)
Definition ftable_wf (s : kstate) : Prop :=
  length (ftable s) = NFILE ∧ ∀ i f, ftable s !! i = Some f → free_file f → f_type f = FD_NONE.

Lemma set_file_lookup i f s : (i < length (ftable s))%nat → ftable (set_file i f s) !! i = Some f.
Proof. apply list_lookup_insert_eq. Qed.
Lemma set_file_twice i f g s : set_file i g (set_file i f s) = set_file i g s.
Proof. unfold set_file, over; simpl. by rewrite list_insert_insert_eq. Qed.
Lemma set_file_id i f s : ftable s !! i = Some f → set_file i f s = s.
Proof. intros E. unfold set_file, over; simpl. rewrite list_insert_id by done. by destruct s. Qed.

(** Taking a file and giving it back. *)
Lemma fileclose_fresh i f s :
  LFtable ∉ held s → ftable s !! i = Some f → free_file f → f_type f = FD_NONE →
  fileclose i (set_file i (f <| f_ref := 1 |>) s) = Ok tt s.
Proof.
  intros Hn Hf Hz Ht. assert (i < length (ftable s))%nat by (by eapply lookup_lt_Some).
  rewrite (fileclose_last i (f <| f_ref := 1 |>)); [|done|by apply set_file_lookup|done].
  rewrite set_file_twice. change (f_type (f <| f_ref := 1 |>)) with (f_type f). rewrite Ht. cbv iota.
  change (Ok tt (set_file i (f <| f_ref := 1 |> <| f_ref := 0 |> <| f_type := FD_NONE |>) s) = Ok tt s).
  rewrite set_file_id; [done|]. rewrite Hf. unfold free_file in Hz. destruct f; simpl in *. by subst.
Qed.

Lemma list_find_free l k f : list_find free_file l = Some (k, f) → l !! k = Some f ∧ free_file f.
Proof. intros E%list_find_Some. naive_solver. Qed.

Lemma set_file_comm i j f g s : i ≠ j → set_file i f (set_file j g s) = set_file j g (set_file i f s).
Proof. intros. unfold set_file, over; simpl. by rewrite list_insert_insert_ne. Qed.

Lemma no_free_file l : list_find free_file l = None → ∀ i f, l !! i = Some f → ¬ free_file f.
Proof. intros E%list_find_None i f Hf. rewrite Forall_forall in E. by eapply E, list_elem_of_lookup_2. Qed.

(** The failure paths of [pipealloc]. *)
Lemma bad_one i f s :
  LFtable ∉ held s → ftable s !! i = Some f → free_file f → f_type f = FD_NONE →
  pipealloc_bad 0 (Some i) None (set_file i (f <| f_ref := 1 |>) s) = Ok None s.
Proof.
  intros Hn Hf Hz Ht. unfold pipealloc_bad. change (negb (0 =? 0)) with false. cbv iota. mstep.
  by mstep_with (fileclose_fresh i f s Hn Hf Hz Ht).
Qed.

Lemma bad_two i j f g s :
  LFtable ∉ held s → i ≠ j → ftable s !! i = Some f → free_file f → f_type f = FD_NONE →
  ftable s !! j = Some g → free_file g → f_type g = FD_NONE →
  pipealloc_bad 0 (Some i) (Some j) (set_file j (g <| f_ref := 1 |>) (set_file i (f <| f_ref := 1 |>) s)) = Ok None s.
Proof.
  intros Hn Hne Hf Hz Ht Hg Hzg Htg. unfold pipealloc_bad. change (negb (0 =? 0)) with false. cbv iota. mstep.
  rewrite set_file_comm by done. set (s1 := set_file j (g <| f_ref := 1 |>) s).
  assert (ftable s1 !! i = Some f) as Hf1 by (unfold s1, set_file, over; simpl; by rewrite list_lookup_insert_ne).
  mstep_with (fileclose_fresh i f s1 Hn Hf1 Hz Ht).
  by mstep_with (fileclose_fresh j g s Hn Hg Hzg Htg).
Qed.

Definition pipe_file (p r w : Z) (f : file) : file :=
  f <| f_ref := 1 |> <| f_type := FD_PIPE |> <| f_readable := r |> <| f_writable := w |> <| f_pipe := p |>.

Definition fresh_pipe (m : gmap Z Z) (p : Z) : pipe :=
  mk_pipe (ld_range m (p + PIPE_DATA) (Z.to_nat PIPESIZE)) 0 0 1 1.

Lemma fresh_pipe_rep m p : pipe_rep (fresh_pipe m p) [].
Proof.
  split; [|simpl; lia|done|done|done]. unfold fresh_pipe, ld_range. cbn [pi_data]. by rewrite length_fmap, length_seq.
Qed.
End file.

(** * Properties *)

(** [pipealloc] is all or nothing.  It takes two free files and a page and makes them the two
    ends of an empty open pipe; when a file or the page cannot be had, it gives back what it had taken and
    the kernel is in the state it was in. *)
Theorem pipealloc_correct `{Linker} (l : list Z) (s : kstate) :
  held s = [] → ftable_wf s → kmem_rep l s →
  ∃ o s', pipealloc s = Ok o s' ∧
  match o with
  | Some (i0, i1) => ∃ f0 f1 p l', i0 ≠ i1 ∧ ftable s !! i0 = Some f0 ∧ ftable s !! i1 = Some f1
      ∧ free_file f0 ∧ free_file f1 ∧ l = p :: l' ∧ kmem_rep l' s'
      ∧ ftable s' = <[i1 := pipe_file p 0 1 f1]> (<[i0 := pipe_file p 1 0 f0]> (ftable s))
      ∧ pipes s' = <[p := fresh_pipe (mem s) p]> (pipes s) ∧ pipe_rep (fresh_pipe (mem s) p) []
  | None => s' = s ∧ (l = [] ∨ ∀ i j f g, i ≠ j → ftable s !! i = Some f → ftable s !! j = Some g → ¬ (free_file f ∧ free_file g))
  end.
Proof.
  intros Hh [Hlen Hfree] Hr.
  assert (LFtable ∉ held s) as Hn by (rewrite Hh; apply not_elem_of_nil).
  assert (kmem_unlocked s) as Hk by (intros _; rewrite Hh; apply not_elem_of_nil).
  pose proof (filealloc_ok s Hn Hlen) as Ea0.
  destruct (list_find free_file (ftable s)) as [[i0 f0]|] eqn:E0.
  2:{ exists None, s. split; [unfold pipealloc; by mstep_with Ea0|]. split; [done|]. right.
      intros i j f g _ Hi _ [Hfi _]. by apply (no_free_file _ E0 i f). }
  apply list_find_free in E0 as [Hf0 Hz0]. set (s1 := set_file i0 (f0 <| f_ref := 1 |>) s) in *.
  assert (i0 < length (ftable s))%nat as Hlt0 by by eapply lookup_lt_Some.
  pose proof (filealloc_ok s1 Hn ltac:(unfold s1, set_file, over; simpl; by rewrite length_insert)) as Ea1.
  assert (∀ i f, i ≠ i0 → ftable s !! i = Some f → ftable s1 !! i = Some f) as Hs1.
  { intros i f Hi Hf. unfold s1, set_file, over; simpl. by rewrite list_lookup_insert_ne. }
  destruct (list_find free_file (ftable s1)) as [[i1 f1]|] eqn:E1.
  2:{ exists None, s. split; [unfold pipealloc; mstep_with Ea0; mstep_with Ea1; apply bad_one; eauto|]. split; [done|]. right.
      intros i j f g Hij Hi Hj [Hfi Hfj]. destruct (decide (i = i0)) as [->|Hne].
      - apply (no_free_file _ E1 j g); auto.
      - apply (no_free_file _ E1 i f); auto. }
  apply list_find_free in E1 as [Hf1 Hz1].
  assert (i1 ≠ i0) as Hne by (intros ->; unfold s1 in Hf1; rewrite set_file_lookup in Hf1 by done; by simplify_eq).
  assert (ftable s !! i1 = Some f1) as Hf1'.
  { revert Hf1. unfold s1, set_file, over; simpl. by rewrite list_lookup_insert_ne. }
  set (s2 := set_file i1 (f1 <| f_ref := 1 |>) s1) in *.
  assert (kmem_rep l s2) as Hr2 by (destruct Hr; by split).
  pose proof (kalloc_rep l s2 Hk Hr2) as Hka. destruct l as [|p l].
  { exists None, s. split; [|by split; [|left]]. unfold pipealloc. mstep_with Ea0. mstep_with Ea1. simpl in Hka. mstep_with Hka.
    apply bad_two; eauto. }
  destruct Hka as (s3 & Eka & Hr3 & Em3 & Es3).
  assert (p ≠ 0) as Hp0 by by destruct Hr as [(_ & ? & _) _ _].
  eexists (Some (i0, i1)), _. split.
  { unfold pipealloc. mstep_with Ea0. mstep_with Ea1. mstep_with Eka. rewrite (proj2 (Z.eqb_neq _ _) Hp0).
    unfold initlock, upd_file_at. repeat mstep. done. }
  exists f0, f1, p, l. split_and!; try done.
  - by destruct Hr3.
  - assert (ftable s3 = ftable s2) as E3 by by rewrite <- Es3. unfold over; simpl.
    rewrite E3. unfold s2, s1, set_file, over; simpl.
    assert (i1 < length (ftable s))%nat by by eapply lookup_lt_Some.
    rewrite (alter_lookup _ _ i0 (f0 <| f_ref := 1 |>)).
    2:{ rewrite list_lookup_insert_ne by done. by apply list_lookup_insert_eq. }
    rewrite (alter_lookup _ _ i1 (f1 <| f_ref := 1 |>)).
    2:{ rewrite list_lookup_insert_ne by done. apply list_lookup_insert_eq. by rewrite length_insert. }
    rewrite (list_insert_insert_ne _ i0 i1) by done. by rewrite !list_insert_insert_eq.
  - assert (pipes s3 = pipes s2) as E3 by by rewrite <- Es3. unfold over; simpl. rewrite E3.
    unfold fresh_pipe. by rewrite Em3.
Qed.

(** A kernel with an empty file table and two free pages. *)
Definition empty_file : file := mk_file FD_NONE 0 0 0 0 0 0.
Definition demo_files : kstate := demo_free <| ftable := replicate NFILE empty_file |>.

Lemma demo_files_wf : ftable_wf demo_files.
Proof.
  assert (ftable demo_files = replicate NFILE empty_file) as E by by vm_compute.
  split; rewrite E; [done|]. by intros i f [-> _]%lookup_replicate_1 _.
Qed.

Lemma kmem_rep_ftable `{Linker} l s t : kmem_rep l s → kmem_rep l (s <| ftable := t |>).
Proof. intros [? ? ?]. by split. Qed.

Lemma pipealloc_correct_witness :
  ∃ o s', pipealloc (H := demo_linker) demo_files = Ok o s' ∧
  match o with
  | Some (i0, i1) => ∃ f0 f1 p l', i0 ≠ i1 ∧ ftable demo_files !! i0 = Some f0 ∧ ftable demo_files !! i1 = Some f1
      ∧ free_file f0 ∧ free_file f1 ∧ [page0 + 4096; page0] = p :: l' ∧ kmem_rep (H := demo_linker) l' s'
      ∧ ftable s' = <[i1 := pipe_file p 0 1 f1]> (<[i0 := pipe_file p 1 0 f0]> (ftable demo_files))
      ∧ pipes s' = <[p := fresh_pipe (mem demo_files) p]> (pipes demo_files) ∧ pipe_rep (fresh_pipe (mem demo_files) p) []
  | None => s' = demo_files ∧ ([page0 + 4096; page0] = [] ∨ ∀ i j f g, i ≠ j → ftable demo_files !! i = Some f →
      ftable demo_files !! j = Some g → ¬ (free_file f ∧ free_file g))
  end.
Proof.
  apply (@pipealloc_correct demo_linker [page0 + 4096; page0] demo_files).
  - by vm_compute.
  - apply demo_files_wf.
  - apply kmem_rep_ftable, demo_free_rep.
Defined.
