(* ===== verification/Proc.v ===== *)
(** Processes ([proc.c]): allocation, [fork], [exit], [wait], the scheduler and [kill].

    A process that gives up the CPU in [sched] ends the run ([Sleeping]); what it does when it
    is scheduled again is [yield_resume], [wait_resume] or [forkret].  The segment registers, the task state
    and CR3, which [switchuvm] loads, are not part of this state; they are in [Seg]. *)
From S2P Require Export Vm File.

(** * proc.h, x86.h, mmu.h *)
Definition KSTACKSIZE : Z := 4096.
Definition SEG_UCODE : Z := 3.
Definition SEG_UDATA : Z := 4.
Definition DPL_USER : Z := 3.
Definition FL_IF : Z := 512.

(** Sizes and offsets of [struct context] and [struct trapframe]. *)
Definition CONTEXT_SIZE : Z := 20.
Definition CTX_eip : Z := 16.
Definition TF_SIZE : Z := 76.
Definition TF_eax : Z := 28.
Definition TF_es : Z := 40.
Definition TF_ds : Z := 44.
Definition TF_trapno : Z := 48.
Definition TF_eip : Z := 56.
Definition TF_cs : Z := 60.
Definition TF_eflags : Z := 64.
Definition TF_esp : Z := 68.
Definition TF_ss : Z := 72.

(** What the linker and [initcode.S] provide, and what an array [char name[DIRSIZ]] that has not been
    initialised holds. *)
Class Kernel_image := { forkret_addr : Z; trapret_addr : Z; initcode : list Z; junk_name : list Z }.

Definition st16 (m : gmap Z Z) (a v : Z) : gmap Z Z := st (st m a v) (a + 1) (v / 256).
Definition ld16 (m : gmap Z Z) (a : Z) : Z := ld m a + 256 * ld m (a + 1).

Section proc.
Context `{Linker} `{Devsw} `{Kernel_image}.

Definition pinit : K unit := initlock LPtable.

(** The scan for a free slot, from slot [i] on, with the lock held. *)
Definition allocproc_scan (i : nat) : K (nat + option nat) :=
  if (i <? NPROC)%nat then
    p ← proc_at i;
    if bool_decide (p_state p = UNUSED) then mret (inr (Some i)) else mret (inl (S i))
  else
    release LPtable;;
    mret (inr None).

Definition allocproc : K (option nat) :=
  acquire LPtable;;
  found ← iterM (S NPROC) allocproc_scan 0%nat;
  match found with
  | None => mret None
  | Some i =>
      upd_proc_at i (λ p, p <| p_state := EMBRYO |>);;
      pid ← gets nextpid;
      modify (λ s, s <| nextpid := i32 (pid + 1) |>);;
      upd_proc_at i (λ p, p <| p_pid := pid |>);;
      release LPtable;;
      ks ← kalloc;
      upd_proc_at i (λ p, p <| p_kstack := ks |>);;
      if ks =? 0 then
        upd_proc_at i (λ p, p <| p_state := UNUSED |>);;
        mret None
      else
        let sp := ks + KSTACKSIZE in
        let sp := sp - TF_SIZE in
        upd_proc_at i (λ p, p <| p_tf := sp |>);;
        let sp := sp - 4 in
        store32 sp trapret_addr;;
        let sp := sp - CONTEXT_SIZE in
        upd_proc_at i (λ p, p <| p_context := sp |>);;
        upd_mem (λ m, memset m sp 0 CONTEXT_SIZE);;
        store32 (sp + CTX_eip) forkret_addr;;
        mret (Some i)
  end.

(** [switchuvm]: what it checks; the rest is hardware state. *)
Definition switchuvm (i : nat) : K unit :=
  p ← proc_at i;
  if p_kstack p =? 0 then panic "switchuvm: no kstack" else
  if p_pgdir p =? 0 then panic "switchuvm: no pgdir" else mret tt.

Definition userinit : K unit :=
  o ← allocproc;
  modify (λ s, s <| initproc := o |>);;
  match o with
  | None => trap
  | Some i =>
      pgdir ← setupkvm;
      upd_proc_at i (λ p, p <| p_pgdir := pgdir |>);;
      if pgdir =? 0 then panic "userinit: out of memory?" else
      inituvm pgdir initcode;;
      upd_proc_at i (λ p, p <| p_sz := PGSIZE |>);;
      p ← proc_at i;
      let tf := p_tf p in
      upd_mem (λ m, memset m tf 0 TF_SIZE);;
      upd_mem (λ m, st16 m (tf + TF_cs) (Z.lor (Z.shiftl SEG_UCODE 3) DPL_USER));;
      upd_mem (λ m, st16 m (tf + TF_ds) (Z.lor (Z.shiftl SEG_UDATA 3) DPL_USER));;
      upd_mem (λ m, st16 m (tf + TF_es) (ld16 m (tf + TF_ds)));;
      upd_mem (λ m, st16 m (tf + TF_ss) (ld16 m (tf + TF_ds)));;
      store32 (tf + TF_eflags) FL_IF;;
      store32 (tf + TF_esp) PGSIZE;;
      store32 (tf + TF_eip) 0;;
      upd_proc_at i (λ p, p <| p_name := safestrcpy (p_name p) [105; 110; 105; 116; 99; 111; 100; 101; 0] 16 |>);;
      cwd ← namei [47; 0] junk_name;
      upd_proc_at i (λ p, p <| p_cwd := cwd |>);;
      acquire LPtable;;
      upd_proc_at i (λ p, p <| p_state := RUNNABLE |>);;
      release LPtable
  end.

Definition growproc (n : Z) : K Z :=
  i ← curindex;
  p ← proc_at i;
  let sz := p_sz p in
  sz' ← (if 0 <? n then
           sz' ← allocuvm (p_pgdir p) sz (u32 (sz + n));
           mret (if sz' =? 0 then None else Some sz')
         else if n <? 0 then
           sz' ← deallocuvm (p_pgdir p) sz (u32 (sz + n));
           mret (if sz' =? 0 then None else Some sz')
         else mret (Some sz));
  match sz' with
  | None => mret (-1)
  | Some sz' =>
      upd_proc_at i (λ p, p <| p_sz := sz' |>);;
      switchuvm i;;
      mret 0
  end.

(** The loop of [fork] over the open files of the process in slot [c]. *)
Definition fork_files (c np : nat) : K unit :=
  for_range 0 NOFILE (λ k,
    p ← proc_at c;
    match p_ofile p !!! Z.to_nat k with
    | Some f =>
        f' ← filedup f;
        upd_proc_at np (λ p, p <| p_ofile ::= <[Z.to_nat k := Some f']> |>)
    | None => mret tt
    end).

(** What is left when the child has its memory. *)
Definition fork_child (c np : nat) (p : proc) : K Z :=
  upd_proc_at np (λ n, n <| p_sz := p_sz p |>);;
  upd_proc_at np (λ n, n <| p_parent := Some c |>);;
  n ← proc_at np;
  upd_mem (λ m, memmove m (p_tf n) (p_tf p) TF_SIZE);;
  store32 (p_tf n + TF_eax) 0;;
  fork_files c np;;
  p ← proc_at c;
  match p_cwd p with
  | None => trap
  | Some d =>
      d' ← idup d;
      upd_proc_at np (λ n, n <| p_cwd := Some d' |>);;
      upd_proc_at np (λ n, n <| p_name := safestrcpy (p_name n) (p_name p) 16 |>);;
      n ← proc_at np;
      let pid := p_pid n in
      acquire LPtable;;
      upd_proc_at np (λ n, n <| p_state := RUNNABLE |>);;
      release LPtable;;
      mret pid
  end.

Definition fork : K Z :=
  c ← curindex;
  o ← allocproc;
  match o with
  | None => mret (-1)
  | Some np =>
      p ← proc_at c;
      pgdir ← copyuvm (p_pgdir p) (p_sz p);
      upd_proc_at np (λ p, p <| p_pgdir := pgdir |>);;
      if pgdir =? 0 then
        n ← proc_at np;
        kfree (p_kstack n);;
        upd_proc_at np (λ p, p <| p_kstack := 0 |>);;
        upd_proc_at np (λ p, p <| p_state := UNUSED |>);;
        mret (-1)
      else fork_child c np p
  end.

(** [wakeup1] on the address of the process in a slot, or on a null pointer. *)
Definition wakeup_proc (o : option nat) : K unit :=
  match o with
  | Some i => wakeup1 (ChProc i)
  | None => modify (λ s, s <| ptable ::= fmap (λ p, if bool_decide (p_state p = SLEEPING ∧ p_chan p = None)
                                                   then p <| p_state := RUNNABLE |> else p) |>)
  end.

Definition exit_files (c : nat) : K unit :=
  for_range 0 NOFILE (λ k,
    p ← proc_at c;
    match p_ofile p !!! Z.to_nat k with
    | Some f =>
        fileclose f;;
        upd_proc_at c (λ p, p <| p_ofile ::= <[Z.to_nat k := None]> |>)
    | None => mret tt
    end).

(** The children of the process in slot [c] become those of init. *)
Definition reparent (c : nat) : K unit :=
  for_range 0 NPROC (λ k,
    p ← proc_at (Z.to_nat k);
    if bool_decide (p_parent p = Some c) then
      init ← gets initproc;
      upd_proc_at (Z.to_nat k) (λ p, p <| p_parent := init |>);;
      if bool_decide (p_state p = ZOMBIE) then wakeup_proc init else mret tt
    else mret tt).

(** The end of [exit]: the parent hears of it, the children are passed on. *)
Definition become_zombie {A} (c : nat) : K A :=
  acquire LPtable;;
  p ← proc_at c;
  wakeup_proc (p_parent p);;
  reparent c;;
  upd_proc_at c (λ p, p <| p_state := ZOMBIE |>);;
  sched.

Definition exit {A} : K A :=
  c ← curindex;
  init ← gets initproc;
  if bool_decide (init = Some c) then panic "init exiting" else
  exit_files c;;
  begin_op;;
  p ← proc_at c;
  (match p_cwd p with Some d => iput d | None => trap end);;
  end_op;;
  upd_proc_at c (λ p, p <| p_cwd := None |>);;
  become_zombie c.

(** The dead child [p] in slot [i] goes: its stack, its memory, its slot. *)
Definition bury (i : nat) (p : proc) : K Z :=
  let pid := p_pid p in
  kfree (p_kstack p);;
  upd_proc_at i (λ p, p <| p_kstack := 0 |>);;
  freevm (p_pgdir p);;
  upd_proc_at i (λ p, p <| p_pid := 0 |> <| p_parent := None |> <| p_name ::= <[0%nat := 0]> |>
                       <| p_killed := 0 |> <| p_state := UNUSED |>);;
  release LPtable;;
  mret pid.

(** A turn of the inner loop of [wait], for slot [i]; [inr] ends it: a dead child has been
    buried, or the table is at its end and the loop variable says whether there are children. *)
Definition wait_scan (c : nat) : nat * bool → K ((nat * bool) + (Z + bool)) := λ '(i, havekids),
  if (i <? NPROC)%nat then
    p ← proc_at i;
    if negb (bool_decide (p_parent p = Some c)) then mret (inl (S i, havekids)) else
    if bool_decide (p_state p = ZOMBIE) then pid ← bury i p; mret (inr (inl pid))
    else mret (inl (S i, true))
  else mret (inr (inr havekids)).

(** One round of [wait]: [inl] if the process sleeps. *)
Definition wait_loop : K (unit + Z) :=
  c ← curindex;
  r ← iterM (S NPROC) (wait_scan c) (0%nat, false);
  match r with
  | inl pid => mret (inr pid)
  | inr havekids =>
      p ← proc_at c;
      if negb havekids || negb (p_killed p =? 0) then
        release LPtable;;
        mret (inr (-1))
      else
        suspend (sleep (ChProc c) LPtable) tt;;
        mret (inl tt)
  end.

Definition wait : K (unit + Z) := acquire LPtable;; wait_loop.
Definition wait_resume : K (unit + Z) := sleep_resume LPtable;; wait_loop.

(** The scheduler's loop over the table from slot [i] on, with the lock held, up to
    the switch to a process ([Some]) or the end of the table, where the lock is released. *)
Definition scheduler_body (i : nat) : K (nat + option nat) :=
  if (i <? NPROC)%nat then
    p ← proc_at i;
    if negb (bool_decide (p_state p = RUNNABLE)) then mret (inl (S i)) else
    modify (λ s, s <| curproc := Some i |>);;
    switchuvm i;;
    upd_proc_at i (λ p, p <| p_state := RUNNING |>);;
    mret (inr (Some i))
  else
    release LPtable;;
    mret (inr None).
Definition scheduler_from (i : nat) : K (option nat) := iterM (S NPROC) scheduler_body i.

(** A pass begins, and the process in slot [i] has given up the CPU. *)
Definition scheduler_start : K (option nat) := acquire LPtable;; scheduler_from 0.
Definition scheduler_resume (i : nat) : K (option nat) :=
  modify (λ s, s <| curproc := None |>);;
  scheduler_from (S i).

(** [first] is the static variable of the function. *)
Definition forkret (first : bool) : K unit :=
  release LPtable;;
  if first then iinit ROOTDEV;; initlog ROOTDEV else mret tt.

Definition kill_body (pid : Z) (i : nat) : K (nat + Z) :=
  if (i <? NPROC)%nat then
    p ← proc_at i;
    if p_pid p =? pid then
      upd_proc_at i (λ p, p <| p_killed := 1 |>);;
      (if bool_decide (p_state p = SLEEPING)
       then upd_proc_at i (λ p, p <| p_state := RUNNABLE |>) else mret tt);;
      release LPtable;;
      mret (inr 0)
    else mret (inl (S i))
  else
    release LPtable;;
    mret (inr (-1)).
Definition kill (pid : Z) : K Z := acquire LPtable;; iterM (S NPROC) (kill_body pid) 0%nat.
End proc.

(** * The scheduler *)

Section scheduling.
Context `{Linker} `{Devsw} `{Kernel_image}.

Definition is_runnable (p : proc) : Prop := p_state p = RUNNABLE.
#[export] Instance is_runnable_dec p : Decision (is_runnable p).
Proof. unfold is_runnable. apply _. Defined.

Lemma proc_at_ok i p s : ptable s !! i = Some p → proc_at i s = Ok p s.
Proof. intros E. unfold proc_at. mstep. by rewrite E. Qed.

(** The scheduler holds the lock, and what is runnable can be switched to. *)
Record sched_ready (s : kstate) : Prop := {
  sr_held : held s = [LPtable];
  sr_len : length (ptable s) = NPROC;
  sr_proc i p : ptable s !! i = Some p → is_runnable p → p_kstack p ≠ 0 ∧ p_pgdir p ≠ 0 }.

Definition run_proc (i : nat) (s : kstate) : kstate :=
  s <| curproc := Some i |> <| ptable ::= alter (λ p, p <| p_state := RUNNING |>) i |>.

(** From slot [i] on, the scheduler takes the first runnable process. *)
Lemma scheduler_from_ok i s :
  sched_ready s → (i ≤ NPROC)%nat →
  scheduler_from i s =
    match list_find is_runnable (drop i (ptable s)) with
    | Some (k, _) => Ok (Some (i + k)%nat) (run_proc (i + k) s)
    | None => Ok None (s <| held := [] |>)
    end.
Proof.
  intros [Hh Hl Hp] Hi. unfold scheduler_from.
  destruct (iterM_find is_runnable (ptable s) scheduler_body s) with (m := (NPROC - i)%nat) (i := i) (fuel := S NPROC) as [fuel' ->]; [|lia|lia|].
  - intros j p Hj Hr. unfold scheduler_body. rewrite (proj2 (Nat.ltb_lt _ _)) by (rewrite <- Hl; by eapply lookup_lt_Some).
    mstep_with (proc_at_ok j p s Hj). by rewrite bool_decide_false.
  - destruct (list_find is_runnable (drop i (ptable s))) as [[k p]|] eqn:E.
    + apply list_find_drop in E as (Hx & Hr & _). destruct (Hp _ _ Hx Hr) as [Hk Hg].
      apply iterM_inr. unfold scheduler_body. rewrite (proj2 (Nat.ltb_lt _ _)) by (rewrite <- Hl; by eapply lookup_lt_Some).
      mstep_with (proc_at_ok _ p s Hx). rewrite bool_decide_true by done. change (negb true) with false. cbv iota. mstep.
      set (s1 := over curproc _ s). assert (switchuvm (i + k) s1 = Ok tt s1) as Es.
      { unfold switchuvm. mstep_with (proc_at_ok (i + k) p s1 Hx). by rewrite (proj2 (Z.eqb_neq _ _) Hk), (proj2 (Z.eqb_neq _ _) Hg). }
      by mstep_with Es.
    + apply iterM_inr. unfold scheduler_body. rewrite (proj2 (Nat.ltb_ge _ _)) by lia.
      by mstep_with (release_ok LPtable s [] Hh (not_elem_of_nil _)).
Qed.

(** Where [scheduler] goes on: a pass over the table begins, or the process in slot [i] has given up the CPU; and what it then does, up to its
    next decision. *)
Inductive point := Pass_begins | Back_from (i : nat).
Definition scheduler_at (c : point) : K (option nat) :=
  match c with Pass_begins => scheduler_start | Back_from i => scheduler_resume i end.

(** The locks it holds there. *)
Definition locks_at (c : point) : list lockid := match c with Pass_begins => [] | Back_from _ => [LPtable] end.
Definition point_ok (c : point) : Prop := match c with Pass_begins => True | Back_from i => (i < NPROC)%nat end.

(** A decision: the process chosen, or none when the pass is over; and the state when the scheduler goes on.  What the process, or the interrupts
    between two passes, did meanwhile is arbitrary, but [I] is known of the states the scheduler finds. *)
Inductive sched_step (I : list lockid → kstate → Prop) : kstate * point → option nat → kstate * point → Prop :=
  | step_run s c j s1 s2 :
      scheduler_at c s = Ok (Some j) s1 → I [LPtable] s2 → sched_step I (s, c) (Some j) (s2, Back_from j)
  | step_pass s c s1 s2 :
      scheduler_at c s = Ok None s1 → I [] s2 → sched_step I (s, c) None (s2, Pass_begins).

Inductive sched_trace (I : list lockid → kstate → Prop) : kstate * point → list (option nat) → kstate * point → Prop :=
  | trace_nil c : sched_trace I c [] c
  | trace_cons c1 o c2 os c3 : sched_step I c1 o c2 → sched_trace I c2 os c3 → sched_trace I c1 (o :: os) c3.

(** The locks [h] are held, the table can be scheduled, and slot [t] is runnable. *)
Definition waits (t : nat) (h : list lockid) (s : kstate) : Prop :=
  held s = h ∧ sched_ready (s <| held := [LPtable] |>) ∧ ∃ p, ptable s !! t = Some p ∧ is_runnable p.

(** The slot the scan starts at. *)
Definition next_slot (c : point) : nat := match c with Pass_begins => 0 | Back_from i => S i end.

(** A decision is the first runnable process from there on. *)
Lemma scheduler_at_ok t c s : waits t (locks_at c) s → point_ok c →
  match list_find is_runnable (drop (next_slot c) (ptable s)) with
  | Some (k, _) => ∃ s1, scheduler_at c s = Ok (Some (next_slot c + k)%nat) s1
  | None => ∃ s1, scheduler_at c s = Ok None s1
  end.
Proof.
  intros (Hh & Hr & _) Hc. assert (∃ s0, sched_ready s0 ∧ ptable s0 = ptable s ∧ scheduler_at c s = scheduler_from (next_slot c) s0) as (s0 & Hr0 & <- & ->).
  { destruct c as [|i]; simpl in Hh |- *.
    - exists (s <| held := [LPtable] |>). split_and!; [done|done|]. unfold scheduler_start.
      mstep_with (acquire_ok LPtable s ltac:(rewrite Hh; apply not_elem_of_nil)). by rewrite Hh.
    - exists (s <| curproc := None |>). split_and!; [|done|by unfold scheduler_resume; mstep].
      destruct Hr as [_ R2 R3]. by split. }
  rewrite (scheduler_from_ok _ s0 Hr0) by (destruct c; simpl in *; lia). destruct (list_find _ _) as [[k p]|]; by eexists.
Qed.

(** How many decisions come before slot [t] at most. *)
Definition turns_left (t i : nat) : nat := if decide (i ≤ t)%nat then t - i else (NPROC - i) + 1 + t.

Lemma sched_step_turn t s c o c' :
  waits t (locks_at c) s → point_ok c → sched_step (waits t) (s, c) o c' →
  waits t (locks_at (snd c')) (fst c') ∧ point_ok (snd c')
  ∧ (o = Some t ∨ (turns_left t (next_slot (snd c')) < turns_left t (next_slot c))%nat).
Proof.
  intros Hw Hc Hs. pose proof (scheduler_at_ok t c s Hw Hc) as Ha. destruct Hw as (_ & Hr & p & Ht & Hrun). pose proof (sr_len _ Hr) as Hl. simpl in Hl.
  assert (t < NPROC)%nat as Htn by (rewrite <- Hl; by eapply lookup_lt_Some).
  inversion Hs as [s0 c0 j s1 s2 E HI|s0 c0 s1 s2 E HI]; subst; rewrite E in Ha;
    destruct (list_find is_runnable (drop (next_slot c) (ptable s))) as [[k x]|] eqn:Ef; destruct Ha as [? Ha]; simplify_eq; simpl.
  - apply list_find_drop in Ef as (Hx & _ & Hbefore).
    assert (next_slot c + k < NPROC)%nat by (rewrite <- Hl; by eapply lookup_lt_Some). split; [done|]. split; [done|].
    destruct (decide (next_slot c + k = t)%nat) as [->|Hne]; [by left|right].
    unfold turns_left. repeat case_decide; try lia. destruct (Hbefore t p); [lia|done|done].
  - split; [done|]. split; [done|]. right. unfold turns_left. rewrite (decide_True (P := (0 ≤ t)%nat)) by lia. case_decide; [|lia].
    by destruct (list_find_drop_None _ _ (next_slot c) t p Ef).
Qed.

Lemma sched_trace_bound t c os c' :
  sched_trace (waits t) c os c' → waits t (locks_at (snd c)) (fst c) → point_ok (snd c) →
  (waits t (locks_at (snd c')) (fst c') ∧ point_ok (snd c')) ∧ (Some t ∈ os ∨ (length os ≤ turns_left t (next_slot (snd c)))%nat).
Proof.
  induction 1 as [c|[s c] o c2 os c3 Hs _ IH]; intros Hw Hc; simpl in *; [split; [done|right; lia]|].
  destruct (sched_step_turn t s c o c2 Hw Hc Hs) as (Hw2 & Hc2 & Ho). destruct (IH Hw2 Hc2) as [? Hos]. split; [done|].
  destruct Ho as [->|Hlt]; [left; left|]. destruct Hos as [?|?]; [left; by right|right; lia].
Qed.
End scheduling.

(** * kill and allocproc *)

Section table.
Context `{Linker} `{Devsw} `{Kernel_image}.

Definition set_proc (i : nat) (p : proc) (s : kstate) : kstate := s <| ptable ::= <[i := p]> |>.

Lemma upd_proc_at_ok i p f s : ptable s !! i = Some p → upd_proc_at i f s = Ok tt (set_proc i (f p) s).
Proof. intros E. unfold upd_proc_at, modify, set_proc, over. do 2 f_equal. by apply alter_lookup. Qed.

Lemma set_proc_twice i p q s : set_proc i q (set_proc i p s) = set_proc i q s.
Proof. unfold set_proc, over; simpl. by rewrite list_insert_insert_eq. Qed.
Lemma set_proc_lookup i p q s : ptable s !! i = Some q → ptable (set_proc i p s) !! i = Some p.
Proof. intros Hq. apply list_lookup_insert_eq. by eapply lookup_lt_Some. Qed.

Definition killed_proc (p : proc) : proc :=
  if bool_decide (p_state p = SLEEPING) then p <| p_killed := 1 |> <| p_state := RUNNABLE |> else p <| p_killed := 1 |>.

Lemma kill_ok pid s :
  LPtable ∉ held s → length (ptable s) = NPROC →
  kill pid s = match list_find (λ p, p_pid p = pid) (ptable s) with
               | Some (i, p) => Ok 0 (set_proc i (killed_proc p) s)
               | None => Ok (-1) s
               end.
Proof.
  intros Hn Hl. unfold kill. mstep_with (acquire_ok LPtable s Hn). set (s0 := over held _ s).
  destruct (iterM_find (λ p, p_pid p = pid) (ptable s0) (kill_body pid) s0) with (m := NPROC) (i := 0%nat) (fuel := S NPROC)
    as [fuel' ->]; [|simpl; lia|lia|].
  - intros j p Hj Hp. unfold kill_body. rewrite (proj2 (Nat.ltb_lt _ _)) by (rewrite <- Hl; by eapply lookup_lt_Some).
    mstep_with (proc_at_ok j p s0 Hj). by rewrite (proj2 (Z.eqb_neq _ _) Hp).
  - rewrite drop_0. change (ptable s0) with (ptable s). destruct (list_find _ _) as [[i p]|] eqn:E; apply iterM_inr; unfold kill_body.
    + apply list_find_Some in E as (Hx & Hp & _). simpl Nat.add.
      rewrite (proj2 (Nat.ltb_lt _ _)) by (rewrite <- Hl; by eapply lookup_lt_Some).
      assert (ptable s0 !! i = Some p) as Hx0 by done.
      mstep_with (proc_at_ok i p s0 Hx0). rewrite (proj2 (Z.eqb_eq _ _) Hp).
      mstep_with (upd_proc_at_ok i p (λ p, p <| p_killed := 1 |>) s0 Hx0).
      set (p1 := over p_killed _ p). assert (ptable (set_proc i p1 s0) !! i = Some p1) as Hx1 by by eapply set_proc_lookup.
      unfold killed_proc. fold p1. case_bool_decide.
      * mstep_with (upd_proc_at_ok i p1 (λ p, p <| p_state := RUNNABLE |>) _ Hx1). rewrite set_proc_twice.
        set (p2 := over p_state _ p1). mstep_with (release_ok LPtable (set_proc i p2 s0) (held s) eq_refl Hn). by destruct s.
      * mstep. mstep_with (release_ok LPtable (set_proc i p1 s0) (held s) eq_refl Hn). by destruct s.
    + rewrite (proj2 (Nat.ltb_ge _ _)) by lia. mstep_with (release_ok LPtable s0 (held s) eq_refl Hn). by destruct s.
Qed.

(** ** Allocation *)

Definition is_unused (p : proc) : Prop := p_state p = UNUSED.
#[export] Instance is_unused_dec p : Decision (is_unused p).
Proof. unfold is_unused. apply _. Defined.

(** The stack pointers [allocproc] leaves in the new process. *)
Definition stack_tf (ks : Z) : Z := ks + KSTACKSIZE - TF_SIZE.
Definition stack_context (ks : Z) : Z := stack_tf ks - 4 - CONTEXT_SIZE.

Definition new_proc (pid ks : Z) (p : proc) : proc :=
  p <| p_state := EMBRYO |> <| p_pid := pid |> <| p_kstack := ks |> <| p_tf := stack_tf ks |> <| p_context := stack_context ks |>.
Definition failed_proc (pid : Z) (p : proc) : proc :=
  p <| p_state := EMBRYO |> <| p_pid := pid |> <| p_kstack := 0 |> <| p_state := UNUSED |>.

Definition new_stack (m : gmap Z Z) (ks : Z) : gmap Z Z :=
  st32 (memset (st32 m (stack_tf ks - 4) trapret_addr) (stack_context ks) 0 CONTEXT_SIZE) (stack_context ks + CTX_eip) forkret_addr.

Lemma allocproc_scan_ok s h :
  held s = LPtable :: h → LPtable ∉ h → length (ptable s) = NPROC →
  iterM (S NPROC) allocproc_scan 0%nat s =
    match list_find is_unused (ptable s) with Some (i, _) => Ok (Some i) s | None => Ok None (s <| held := h |>) end.
Proof.
  intros Hh Hn Hl.
  destruct (iterM_find is_unused (ptable s) allocproc_scan s) with (m := NPROC) (i := 0%nat) (fuel := S NPROC)
    as [fuel' ->]; [|simpl; lia|lia|].
  - intros j p Hj Hp. unfold allocproc_scan. rewrite (proj2 (Nat.ltb_lt _ _)) by (rewrite <- Hl; by eapply lookup_lt_Some).
    mstep_with (proc_at_ok j p s Hj). by rewrite bool_decide_false.
  - rewrite drop_0. destruct (list_find _ _) as [[i p]|] eqn:E; apply iterM_inr; unfold allocproc_scan.
    + apply list_find_Some in E as (Hx & Hp & _). simpl Nat.add.
      rewrite (proj2 (Nat.ltb_lt _ _)) by (rewrite <- Hl; by eapply lookup_lt_Some).
      mstep_with (proc_at_ok i p s Hx). by rewrite bool_decide_true.
    + rewrite (proj2 (Nat.ltb_ge _ _)) by lia. by mstep_with (release_ok LPtable s h Hh Hn).
Qed.

(** The part of [allocproc] before the stack is allocated. *)
Definition embryo (i : nat) (p : proc) (s : kstate) : kstate :=
  (set_proc i (p <| p_state := EMBRYO |> <| p_pid := nextpid s |>) s) <| nextpid := i32 (nextpid s + 1) |>.

Lemma allocproc_head s :
  LPtable ∉ held s → length (ptable s) = NPROC →
  allocproc s =
    match list_find is_unused (ptable s) with
    | None => Ok None s
    | Some (i, p) =>
        (ks ← kalloc;
         upd_proc_at i (λ p, p <| p_kstack := ks |>);;
         if ks =? 0 then upd_proc_at i (λ p, p <| p_state := UNUSED |>);; mret None else
         upd_proc_at i (λ p, p <| p_tf := stack_tf ks |>);;
         store32 (stack_tf ks - 4) trapret_addr;;
         upd_proc_at i (λ p, p <| p_context := stack_context ks |>);;
         upd_mem (λ m, memset m (stack_context ks) 0 CONTEXT_SIZE);;
         store32 (stack_context ks + CTX_eip) forkret_addr;;
         mret (Some i)) (embryo i p s)
    end.
Proof.
  intros Hn Hl. unfold allocproc. mstep_with (acquire_ok LPtable s Hn). set (s0 := over held _ s).
  pose proof (allocproc_scan_ok s0 (held s) eq_refl Hn Hl) as Es. change (ptable s0) with (ptable s) in Es.
  destruct (list_find is_unused (ptable s)) as [[i p]|] eqn:E.
  - mstep_with Es. apply list_find_Some in E as (Hx & _ & _). assert (ptable s0 !! i = Some p) as Hx0 by done.
    mstep_with (upd_proc_at_ok i p (λ p, p <| p_state := EMBRYO |>) s0 Hx0). mstep. mstep.
    set (p1 := over p_state _ p). set (s1 := over nextpid _ _).
    assert (ptable s1 !! i = Some p1) as Hx1 by by eapply set_proc_lookup.
    mstep_with (upd_proc_at_ok i p1 (λ q, q <| p_pid := nextpid (set_proc i p1 s0) |>) s1 Hx1).
    set (p2 := over p_pid _ p1).
    mstep_with (release_ok LPtable (set_proc i p2 s1) (held s) eq_refl Hn).
    assert ((set_proc i p2 s1) <| held := held s |> = embryo i p s) as ->; [|done].
    unfold embryo, s1, set_proc, over; simpl. rewrite list_insert_insert_eq. by destruct s.
  - mstep_with Es. by destruct s.
Qed.

Lemma new_stack_outside m ks a : ¬ (ks ≤ a < ks + PGSIZE) → ld (new_stack m ks) a = ld m a.
Proof.
  intros Ha. unfold new_stack, stack_context, stack_tf, CTX_eip, CONTEXT_SIZE, TF_SIZE, KSTACKSIZE, PGSIZE in *.
  rewrite ld_st32_ne by lia. rewrite ld_memset by lia. rewrite decide_False by lia. by rewrite ld_st32_ne by lia.
Qed.

(** Where the new process starts, and where it goes from there. *)
Lemma new_stack_words m ks :
  ld32 (new_stack m ks) (stack_context ks + CTX_eip) = u32 forkret_addr ∧ ld32 (new_stack m ks) (stack_tf ks - 4) = u32 trapret_addr.
Proof.
  split; [apply ld32_st32_eq|]. unfold new_stack, stack_context, CTX_eip, CONTEXT_SIZE. rewrite ld32_st32_ne by lia.
  rewrite (ld32_ext _ (st32 m (stack_tf ks - 4) trapret_addr)); [apply ld32_st32_eq|].
  intros k Hk. rewrite ld_memset by lia. by rewrite decide_False by lia.
Qed.

(** All outcomes of [allocproc]: no free slot; no page for the stack; a new process. *)
Lemma allocproc_run l s :
  LPtable ∉ held s → kmem_unlocked s → length (ptable s) = NPROC → kmem_rep l s →
  match list_find is_unused (ptable s), l with
  | None, _ => allocproc s = Ok None s
  | Some (i, p), [] => allocproc s = Ok None (set_proc i (failed_proc (nextpid s) p) (s <| nextpid := i32 (nextpid s + 1) |>))
  | Some (i, p), ks :: l' => ∃ s', allocproc s = Ok (Some i) s'
      ∧ ptable s' = <[i := new_proc (nextpid s) ks p]> (ptable s) ∧ nextpid s' = i32 (nextpid s + 1)
      ∧ mem s' = new_stack (mem s) ks ∧ kmem_rep l' s' ∧ s' <| km := km s |> <| ptable := ptable s |> <| nextpid := nextpid s |> = s
  end.
Proof.
  intros Hn Hu Hl Hr. rewrite (allocproc_head s Hn Hl).
  destruct (list_find is_unused (ptable s)) as [[i p]|] eqn:E; [|done].
  apply list_find_Some in E as (Hx & _ & _).
  set (s0 := embryo i p s). assert (kmem_rep l s0) as Hr0 by (destruct Hr; by split).
  pose proof (kalloc_rep l s0 Hu Hr0) as Ek. set (p0 := p <| p_state := EMBRYO |> <| p_pid := nextpid s |>).
  assert (ptable s0 !! i = Some p0) as Hx0 by by eapply set_proc_lookup. destruct l as [|ks l].
  - simpl in Ek. mstep_with Ek. mstep_with (upd_proc_at_ok i p0 (λ p, p <| p_kstack := 0 |>) s0 Hx0).
    change (0 =? 0) with true. cbv iota. set (p1 := over p_kstack _ p0).
    assert (ptable (set_proc i p1 s0) !! i = Some p1) as Hx1 by by eapply set_proc_lookup.
    mstep_with (upd_proc_at_ok i p1 (λ p, p <| p_state := UNUSED |>) _ Hx1).
    unfold mret, M_ret, s0, embryo, set_proc, over; simpl. by rewrite !list_insert_insert_eq.
  - destruct Ek as (s1 & Ek & Hr1 & Em1 & Es1). mstep_with Ek.
    assert (s1 <| km := km s |> <| ptable := ptable s |> <| nextpid := nextpid s |> = s ∧ ptable s1 = ptable s0 ∧ nextpid s1 = i32 (nextpid s + 1)) as (Eh & Et & Enp).
    { change (i32 (nextpid s + 1)) with (nextpid s0). split; [|by rewrite <-Es1]. assert (E : s1 <| km := km s |> = s0) by (rewrite <-Es1; by destruct s1).
      rewrite E. unfold s0, embryo, set_proc. by destruct s. }
    destruct Hr as [(_ & Hks & _) Hpg Hnd]. apply Forall_cons in Hpg as [Hpg Hpgl]. apply NoDup_cons in Hnd as [Hksl _].
    assert (ptable s1 !! i = Some p0) as Hx1 by by rewrite Et.
    mstep_with (upd_proc_at_ok i p0 (λ p, p <| p_kstack := ks |>) s1 Hx1). rewrite (proj2 (Z.eqb_neq _ _) Hks).
    set (p1 := over p_kstack _ p0).
    assert (ptable (set_proc i p1 s1) !! i = Some p1) as Hx2 by by eapply set_proc_lookup.
    mstep_with (upd_proc_at_ok i p1 (λ p, p <| p_tf := stack_tf ks |>) _ Hx2). rewrite set_proc_twice.
    set (p2 := over p_tf _ p1). unfold store32, upd_mem. mstep.
    set (s2 := over km _ _). assert (ptable s2 !! i = Some p2) as Hx3 by by eapply set_proc_lookup.
    mstep_with (upd_proc_at_ok i p2 (λ p, p <| p_context := stack_context ks |>) s2 Hx3). repeat mstep.
    eexists. split; [done|]. split_and!; [|exact Enp| | |].
    + unfold s2, set_proc, over; simpl. rewrite !list_insert_insert_eq, Et. unfold s0, embryo, set_proc, over; simpl.
      by rewrite list_insert_insert_eq.
    + change (new_stack (mem s1) ks = new_stack (mem s0) ks). by rewrite Em1.
    + destruct Hr1 as [Hc1 Hp1 Hn1]. split; [|done|done].
      eapply (free_chain_ext (mem s1)); [|exact Hc1]. intros q Hq. rewrite Forall_forall in Hp1.
      destruct (Hp1 q Hq) as (Hqa & _ & ? & _). destruct Hpg as (Hka & _ & ? & _).
      apply ld32_ext. intros k Hk. apply (new_stack_outside (mem s1)). intros Hin.
      apply Hksl. assert (ks = q) as ->; [|done]. unfold PGSIZE in *. zlia.
    + etransitivity; [|exact Eh]. by destruct s1.
Qed.
End table.

(** * Properties *)

(** C17: The scheduler is fair: after the process in slot [i] it goes on with slot [i + 1], and with slot 0 only after the last one.  It can always
    decide, and a process that stays runnable is chosen within [NPROC] + 1 decisions (ends of passes included), whatever the other
    processes and the interrupts do to the table meanwhile. *)
Theorem scheduler_fair (t : nat) (c0 : point) (s : kstate) (os : list (option nat)) (c : kstate * point) :
  waits t (locks_at c0) s → point_ok c0 → sched_trace (waits t) (s, c0) os c →
  (∃ o s', scheduler_at (snd c) (fst c) = Ok o s') ∧ ((NPROC < length os)%nat → Some t ∈ os).
Proof.
  intros Hw Hi Ht. destruct (sched_trace_bound t _ os c Ht Hw Hi) as [[Hwc Hc] Hb]. split.
  - pose proof (scheduler_at_ok t (snd c) (fst c) Hwc Hc) as Ha. destruct (list_find _ _) as [[k p]|], Ha as [s1 E]; by eexists _, s1.
  - intros Hlen. destruct Hb as [?|Hb]; [done|]. destruct Hw as (_ & Hrs & p & Hp & _).
    pose proof (lookup_lt_Some _ _ _ Hp) as Htn. rewrite (sr_len _ Hrs : length (ptable s) = NPROC) in Htn.
    cbn [snd] in Hb. unfold turns_left in Hb. destruct c0; cbn [next_slot point_ok] in *; case_decide; lia.
Qed.

(** A table in which all processes but the second are runnable, as the scheduler finds it with the lock held or between two passes: the processes that
    have run are runnable again when they come back. *)
Definition demo_procs : list proc :=
  let pr st := mk_proc 0 4096 4096 st 1 None 0 0 None 0 (replicate NOFILE None) None (replicate 16 0) in
  [pr RUNNABLE; pr SLEEPING] ++ replicate 62 (pr RUNNABLE).
Definition demo_sched : kstate := demo_mem0 <| held := [LPtable] |> <| ptable := demo_procs |>.

Lemma demo_sched_waits h : waits 2 h (demo_sched <| held := h |>).
Proof.
  split; [done|]. split; [split; [done|done|]|by eexists].
  intros i p Hp _. assert (Forall (λ p, p_kstack p ≠ 0 ∧ p_pgdir p ≠ 0) (ptable demo_sched)) as Hf by by_decide.
  rewrite Forall_forall in Hf. apply Hf. by eapply list_elem_of_lookup_2.
Qed.

(** A trace of that table, which is the same at each decision. *)
Fixpoint demo_run (n : nat) (c : point) : list (option nat) * point :=
  match n with
  | O => ([], c)
  | S n =>
      match scheduler_at c (demo_sched <| held := locks_at c |>) with
      | Ok o _ => let '(os, c') := demo_run n (match o with Some j => Back_from j | None => Pass_begins end) in (o :: os, c')
      | _ => ([], c)
      end
  end.
Lemma demo_run_trace n c : length (fst (demo_run n c)) = n →
  let '(os, c') := demo_run n c in sched_trace (waits 2) (demo_sched <| held := locks_at c |>, c) os (demo_sched <| held := locks_at c' |>, c').
Proof.
  revert c. induction n as [|n IH]; intros c; [intros _; apply trace_nil|].
  cbn [demo_run]. destruct (scheduler_at c (demo_sched <| held := locks_at c |>)) as [o s1| | |] eqn:E; [|discriminate..].
  set (c2 := match o with Some j => Back_from j | None => Pass_begins end). specialize (IH c2). destruct (demo_run n c2) as [os c'].
  simpl. intros [= Hl]. eapply trace_cons; [|exact (IH Hl)]. destruct o as [j|]; [eapply step_run|eapply step_pass]; try exact E; apply demo_sched_waits.
Qed.

(** Back from slot 2, the scheduler goes through the table; slot 2 comes again last, after 63 decisions, before the 65th. *)
Lemma scheduler_fair_witness :
  ∃ os c, os = fst (demo_run 65 (Back_from 2)) ∧ length os = 65%nat ∧ Some 2%nat ∉ take 62 os ∧ (∃ o s', scheduler_at (snd c) (fst c) = Ok o s') ∧ Some 2%nat ∈ os.
Proof.
  pose proof (demo_run_trace 65 (Back_from 2)) as Ht. assert (Hl : length (fst (demo_run 65 (Back_from 2))) = 65%nat) by (by vm_compute). specialize (Ht Hl).
  exists (fst (demo_run 65 (Back_from 2))). assert (Hn : Some 2%nat ∉ take 62 (fst (demo_run 65 (Back_from 2)))) by (by apply (bool_decide_eq_false_1 (Some 2%nat ∈ take 62 (fst (demo_run 65 (Back_from 2)))))).
  destruct (demo_run 65 (Back_from 2)) as [os c'] eqn:Er. cbn [fst] in *.
  destruct (scheduler_fair 2 (Back_from 2) (demo_sched <| held := [LPtable] |>) os _ (demo_sched_waits [LPtable]) ltac:(unfold point_ok, NPROC; lia) Ht) as [Hd Hin].
  eexists _. split; [done|]. split; [done|]. split; [done|]. split; [exact Hd|]. apply Hin. rewrite Hl. unfold NPROC. lia.
Defined.

(** [kill] marks the process with the pid as killed and, if it sleeps, makes it runnable so
    that it notices; nothing else changes.  An unknown pid is an error and changes nothing. *)
Theorem kill_correct (pid : Z) (s : kstate) :
  LPtable ∉ held s → length (ptable s) = NPROC →
  (∃ i p, ptable s !! i = Some p ∧ p_pid p = pid ∧ (∀ j q, (j < i)%nat → ptable s !! j = Some q → p_pid q ≠ pid)
     ∧ kill pid s = Ok 0 (s <| ptable := <[i := p <| p_killed := 1 |>
          <| p_state := if decide (p_state p = SLEEPING) then RUNNABLE else p_state p |>]> (ptable s) |>))
  ∨ (∀ i p, ptable s !! i = Some p → p_pid p ≠ pid) ∧ kill pid s = Ok (-1) s.
Proof.
  intros Hn Hl. rewrite (kill_ok pid s Hn Hl). destruct (list_find _ (ptable s)) as [[i p]|] eqn:E.
  - left. exists i, p. apply list_find_Some in E as (Hx & Hp & Hb). split_and!; [done|done|naive_solver|].
    do 2 f_equal. unfold set_proc, killed_proc. case_bool_decide as Hs; destruct (decide (p_state p = SLEEPING)); try done.
  - right. split; [|done]. intros i p Hx. apply list_find_None in E. rewrite Forall_forall in E.
    apply E. by eapply list_elem_of_lookup_2.
Qed.

Lemma kill_correct_witness :
  let s := demo_sched <| held := [] |> in
  (∃ i p, ptable s !! i = Some p ∧ p_pid p = 1 ∧ (∀ j q, (j < i)%nat → ptable s !! j = Some q → p_pid q ≠ 1)
     ∧ kill 1 s = Ok 0 (s <| ptable := <[i := p <| p_killed := 1 |>
          <| p_state := if decide (p_state p = SLEEPING) then RUNNABLE else p_state p |>]> (ptable s) |>))
  ∨ (∀ i p, ptable s !! i = Some p → p_pid p ≠ 1) ∧ kill 1 s = Ok (-1) s.
Proof. intros s. apply (kill_correct 1 s); [apply not_elem_of_nil|done]. Defined.

(** The processes in use have pids of their own, all below [nextpid]; the count of pids has not gone round. *)
Definition pids_wf (s : kstate) : Prop :=
  0 < nextpid s
  ∧ (∀ i p, ptable s !! i = Some p → ¬ is_unused p → p_pid p < nextpid s)
  ∧ ∀ i j p q, ptable s !! i = Some p → ptable s !! j = Some q → ¬ is_unused p → ¬ is_unused q → p_pid p = p_pid q → i = j.

Lemma pids_wf_insert s s' i p :
  pids_wf s → nextpid s < 2147483647 → (i < length (ptable s))%nat → ptable s' = <[i := p]> (ptable s) → nextpid s' = i32 (nextpid s + 1) →
  p_pid p = nextpid s → pids_wf s'.
Proof.
  intros (Hpos & Hb & Hi) Hmax Hlt Et En Ep. rewrite i32_small in En by lia. split; [lia|]. split.
  - intros j q. rewrite Et, En, list_lookup_insert. case_decide; [intros [= <-]; lia|]. intros Hq Hu. pose proof (Hb j q Hq Hu). lia.
  - intros j k q r. rewrite Et, !list_lookup_insert. repeat case_decide; try naive_solver.
    + intros [= <-] Hr _ Hu E. pose proof (Hb k r Hr Hu). lia.
    + intros Hq [= <-] Hu _ E. pose proof (Hb j q Hq Hu). lia.
Qed.

(** [allocproc] gives the first unused slot a pid no other process has, a kernel stack of its own
    and a context that starts at [forkret] and returns to [trapret]; it returns null when the
    table is full or no page is free for the stack.  Pids stay unique until [nextpid], an int, is at its end. *)
Theorem allocproc_correct `{Linker} `{Kernel_image} (l : list Z) (s : kstate) :
  held s = [] → length (ptable s) = NPROC → kmem_rep l s → pids_wf s → nextpid s < 2147483647 →
  ∃ o s', allocproc s = Ok o s' ∧ pids_wf s' ∧
  match o with
  | None => (∀ i p, ptable s !! i = Some p → ¬ is_unused p) ∨ l = []
  | Some i => ∃ p ks l', l = ks :: l' ∧ ptable s !! i = Some p ∧ is_unused p
      ∧ (∀ j q, (j < i)%nat → ptable s !! j = Some q → ¬ is_unused q)
      ∧ ptable s' = <[i := new_proc (nextpid s) ks p]> (ptable s) ∧ kmem_rep l' s'
      ∧ ld32 (mem s') (stack_context ks + CTX_eip) = u32 forkret_addr
      ∧ ld32 (mem s') (stack_tf ks - 4) = u32 trapret_addr
      ∧ ∀ a, ¬ (ks ≤ a < ks + PGSIZE) → ld (mem s') a = ld (mem s) a
  end.
Proof.
  intros Hh Hl Hr Hw Hmax. assert (LPtable ∉ held s) as Hn by (rewrite Hh; apply not_elem_of_nil).
  assert (kmem_unlocked s) as Hu by (intros _; rewrite Hh; apply not_elem_of_nil).
  pose proof (allocproc_run l s Hn Hu Hl Hr) as Ha. destruct (list_find is_unused (ptable s)) as [[i p]|] eqn:E.
  2:{ exists None, s. split; [exact Ha|]. split; [done|]. left. intros i p Hx.
      apply list_find_None in E. rewrite Forall_forall in E. apply E. by eapply list_elem_of_lookup_2. }
  apply list_find_Some in E as (Hx & Hp & Hb). assert (i < length (ptable s))%nat as Hlt by by eapply lookup_lt_Some.
  destruct l as [|ks l].
  - eexists None, _. split; [exact Ha|]. split; [|by right]. by eapply (pids_wf_insert s _ i (failed_proc (nextpid s) p)).
  - destruct Ha as (s' & Ea & Et & En & Em & Hr' & _). exists (Some i), s'. split; [exact Ea|].
    split; [by eapply (pids_wf_insert s _ i (new_proc (nextpid s) ks p))|].
    exists p, ks, l. split_and!; try done; [naive_solver|rewrite Em|rewrite Em|].
    + by destruct (new_stack_words (mem s) ks).
    + by destruct (new_stack_words (mem s) ks).
    + intros a Ha. rewrite Em. by apply new_stack_outside.
Qed.

Definition demo_image : Kernel_image := {| forkret_addr := KERNLINK + 4096; trapret_addr := KERNLINK + 8192; initcode := [144; 235; 254]; junk_name := replicate DIRSIZ 0 |}.
Definition demo_proc (st : procstate) (pid : Z) : proc :=
  mk_proc 0 4096 4096 st pid None 0 0 None 0 (replicate NOFILE None) None (replicate 16 0).
Definition demo_alloc : kstate :=
  demo_free <| ptable := [demo_proc RUNNABLE 1; demo_proc SLEEPING 2] ++ replicate 62 (demo_proc UNUSED 0) |> <| nextpid := 3 |>.

Lemma demo_alloc_table : held demo_alloc = [] ∧ length (ptable demo_alloc) = NPROC ∧ pids_wf demo_alloc.
Proof.
  split; [by vm_compute|]. split; [by vm_compute|].
  assert (∀ i p, ptable demo_alloc !! i = Some p → ¬ is_unused p → p_pid p = Z.of_nat i + 1 ∧ (i < 2)%nat) as Hi.
  { intros [|[|i]] p Hp Hu.
    - change (Some (demo_proc RUNNABLE 1) = Some p) in Hp. injection Hp as <-. split; [done|lia].
    - change (Some (demo_proc SLEEPING 2) = Some p) in Hp. injection Hp as <-. split; [done|lia].
    - change (replicate 62 (demo_proc UNUSED 0) !! i = Some p) in Hp. by apply lookup_replicate_1 in Hp as [-> _]. }
  split; [by vm_compute|]. split.
  - intros i p Hp Hu. destruct (Hi i p Hp Hu). assert (nextpid demo_alloc = 3) as -> by by vm_compute. lia.
  - intros i j p q Hp Hq Hup Huq Ep. destruct (Hi i p Hp Hup), (Hi j q Hq Huq). lia.
Qed.

Lemma kmem_rep_tables `{Linker} l s t n : kmem_rep l s → kmem_rep l (s <| ptable := t |> <| nextpid := n |>).
Proof. intros [? ? ?]. by split. Qed.

Lemma allocproc_correct_witness :
  ∃ o s', allocproc (H1 := demo_image) demo_alloc = Ok o s' ∧ pids_wf s' ∧
  match o with
  | None => (∀ i p, ptable demo_alloc !! i = Some p → ¬ is_unused p) ∨ [page0 + 4096; page0] = []
  | Some i => ∃ p ks l', [page0 + 4096; page0] = ks :: l' ∧ ptable demo_alloc !! i = Some p ∧ is_unused p
      ∧ (∀ j q, (j < i)%nat → ptable demo_alloc !! j = Some q → ¬ is_unused q)
      ∧ ptable s' = <[i := new_proc (nextpid demo_alloc) ks p]> (ptable demo_alloc) ∧ kmem_rep (H := demo_linker) l' s'
      ∧ ld32 (mem s') (stack_context ks + CTX_eip) = u32 (KERNLINK + 4096)
      ∧ ld32 (mem s') (stack_tf ks - 4) = u32 (KERNLINK + 8192)
      ∧ ∀ a, ¬ (ks ≤ a < ks + PGSIZE) → ld (mem s') a = ld (mem demo_alloc) a
  end.
Proof.
  destruct demo_alloc_table as (Hh & Hl & Hw).
  apply (@allocproc_correct demo_linker demo_image [page0 + 4096; page0] demo_alloc Hh Hl); [|exact Hw|done].
  apply kmem_rep_tables, demo_free_rep.
Defined.

(** ** Two faults *)

(** [kill(0)] finds the first unused slot, whose pid is 0, and marks it as killed.
    [allocproc] does not clear the mark: the next process to get the slot is born killed. *)
Theorem kill_zero_marks_unused `{Linker} `{Kernel_image} (l : list Z) (ks : Z) (i : nat) (p : proc) (s : kstate) :
  held s = [] → length (ptable s) = NPROC → kmem_rep (ks :: l) s →
  list_find is_unused (ptable s) = Some (i, p) → list_find (λ p, p_pid p = 0) (ptable s) = Some (i, p) →
  ∃ s1 s2 q, kill 0 s = Ok 0 s1 ∧ allocproc s1 = Ok (Some i) s2 ∧ ptable s2 !! i = Some q ∧ p_state q = EMBRYO ∧ p_killed q = 1.
Proof.
  intros Hh Hl Hr Eu Ez. assert (LPtable ∉ held s) as Hn by (rewrite Hh; apply not_elem_of_nil).
  assert (kmem_unlocked s) as Hk by (intros _; rewrite Hh; apply not_elem_of_nil).
  pose proof Eu as (Hx & Hp & Hb)%list_find_Some. unfold is_unused in Hp.
  set (p1 := p <| p_killed := 1 |>). set (s1 := set_proc i p1 s).
  assert (killed_proc p = p1) as Ekp by (unfold killed_proc; by rewrite bool_decide_false by (rewrite Hp; done)).
  assert (list_find is_unused (ptable s1) = Some (i, p1)) as Eu1.
  { apply list_find_Some. split; [by eapply set_proc_lookup|]. split; [done|]. intros j y Hy Hj.
    unfold s1, set_proc, over in Hy; simpl in Hy. rewrite list_lookup_insert_ne in Hy by lia. by eapply Hb. }
  pose proof (allocproc_run (ks :: l) s1 Hn Hk) as Ha. rewrite Eu1 in Ha.
  destruct Ha as (s2 & Ea & Et & _); [unfold s1, set_proc, over; simpl; by rewrite length_insert|by destruct Hr|].
  exists s1, s2, (new_proc (nextpid s1) ks p1). split; [rewrite (kill_ok 0 s Hn Hl), Ez, Ekp; done|]. split; [done|].
  rewrite Et. split; [|done]. apply list_lookup_insert_eq. unfold s1, set_proc, over; simpl. rewrite length_insert.
  by eapply lookup_lt_Some.
Qed.

(** A process of one page, and what becomes of it. *)
Definition demo_page : kstate :=
  let s := demo_vm <| ptable := [(demo_proc RUNNING 1) <| p_pgdir := demo_dir |>] |> <| curproc := Some 0%nat |> in
  match growproc (H := demo_linker) PGSIZE s with Ok 0 s => s | _ => s end.

(** [growproc] takes the size 0 that [deallocuvm] returns for a failure: shrinking a process to
    nothing returns -1 and leaves its size as it was, but its page is gone. *)
Theorem growproc_to_zero :
  ∃ s', growproc (H := demo_linker) (- PGSIZE) demo_page = Ok (-1) s'
    ∧ p_sz <$> ptable demo_page = [PGSIZE] ∧ present (pte_of (mem demo_page) demo_dir 0) = true
    ∧ p_sz <$> ptable s' = [PGSIZE] ∧ present (pte_of (mem s') demo_dir 0) = false.
Proof.
  destruct (wp_elim (growproc (H := demo_linker) (- PGSIZE)) demo_page (λ r s',
    bool_decide (r = -1) && bool_decide (p_sz <$> ptable s' = [PGSIZE]) && negb (present (pte_of (mem s') demo_dir 0)) = true))
    as (r & s' & E & [[->%bool_decide_eq_true Es%bool_decide_eq_true]%andb_prop Ep%negb_true_iff]%andb_prop); [by vm_compute|].
  exists s'. split_and!; [done|by vm_compute|by vm_compute|done|done].
Qed.
