(* ===== verification/Fork.v ===== *)
(** [fork] of [proc.c]: a child that is a copy of its parent. *)
From S2P Require Export Inode Copyuvm Proc.

(** * References to open files *)

(** The table of open files after each of [fds] has been duplicated. *)
Definition dup_ref (f : file) : file := f <| f_ref ::= λ r, r + 1 |>.
Definition dup_fd (ft : list file) (o : option nat) : list file := match o with Some j => alter dup_ref j ft | None => ft end.
Definition dup_fds (fds : list (option nat)) (ft : list file) : list file := foldl dup_fd ft fds.
(** How many of [fds] are file [j]. *)
Definition refs_to (j : nat) (fds : list (option nat)) : nat := length (filter (λ o, o = Some j) fds).

Lemma dup_fds_snoc fds o ft : dup_fds (fds ++ [o]) ft = dup_fd (dup_fds fds ft) o.
Proof. unfold dup_fds. by rewrite foldl_app. Qed.
Lemma dup_fds_lookup fds j : ∀ ft, dup_fds fds ft !! j = (λ f, f <| f_ref ::= λ r, r + Z.of_nat (refs_to j fds) |>) <$> ft !! j.
Proof.
  unfold dup_fds, refs_to. induction fds as [|o fds IH]; intros ft; cbn [foldl].
  - rewrite filter_nil. cbn [length]. destruct (ft !! j) as [[]|]; [|done]. cbn. unfold over; cbn. by rewrite Z.add_0_r.
  - rewrite IH. destruct o as [k|]; cbn [dup_fd].
    + destruct (decide (k = j)) as [->|Hne].
      * rewrite filter_cons_True by done. rewrite list_lookup_alter_eq. destruct (ft !! j) as [[]|]; [|done]. cbn [fmap option_fmap option_map length].
        unfold dup_ref, over; cbn. do 2 f_equal. lia.
      * rewrite filter_cons_False by congruence. by rewrite list_lookup_alter_ne.
    + by rewrite filter_cons_False.
Qed.

Section fork.
Context `{Linker} `{Devsw} `{Kernel_image}.

(** ** The loop over the open files *)

(** The child [np] with the first [m] files of the parent. *)
Definition dup_state (s : kstate) (np : nat) (n : proc) (fds : list (option nat)) (m : nat) : kstate :=
  s <| ftable := dup_fds (take m fds) (ftable s) |>
    <| ptable := <[np := n <| p_ofile := take m fds ++ drop m (p_ofile n) |>]> (ptable s) |>.

Lemma fork_files_run s c np p n :
  LFtable ∉ held s → ptable s !! c = Some p → ptable s !! np = Some n → c ≠ np →
  length (p_ofile p) = NOFILE → p_ofile n = replicate NOFILE None →
  (∀ j, Some j ∈ p_ofile p → ∃ f, ftable s !! j = Some f ∧ 1 ≤ f_ref f) →
  fork_files c np s = Ok tt (s <| ftable := dup_fds (p_ofile p) (ftable s) |> <| ptable := <[np := n <| p_ofile := p_ofile p |>]> (ptable s) |>).
Proof.
  intros Hn Hp Hnp Hne Hlp Hln Hf. set (fds := p_ofile p) in *.
  assert (wp (fork_files c np) s (λ _ s', s' = dup_state s np n fds NOFILE)) as ([] & s' & E & ->)%wp_elim.
  2:{ rewrite E. unfold dup_state. rewrite take_ge, drop_ge, app_nil_r by (rewrite ?Hln, ?length_replicate; lia). done. }
  apply (wp_for_range (λ m s', s' = dup_state s np n fds m) _ 0 NOFILE); [|intros m s' Hm ->|done].
  { unfold dup_state. rewrite take_0, drop_0. cbn [dup_fds foldl app]. assert (n <| p_ofile := p_ofile n |> = n) as -> by (by destruct n).
    rewrite list_insert_id by done. by destruct s. }
  destruct (lookup_lt_is_Some_2 fds m) as [o Ho]; [lia|]. assert (Hnl : (np < length (ptable s))%nat) by (by eapply lookup_lt_Some).
  assert (Et : take (S m) fds = take m fds ++ [o]) by (by apply take_S_r).
  assert (Ed : drop m (p_ofile n) = None :: drop (S m) (p_ofile n)) by (apply drop_S; rewrite Hln; by apply lookup_replicate_2).
  rewrite Z.add_0_l. apply wp_bind. assert (Hp' : ptable (dup_state s np n fds m) !! c = Some p) by (cbn; by rewrite list_lookup_insert_ne).
  eapply wp_intro; [by apply proc_at_ok|]. rewrite Nat2Z.id, (list_lookup_total_correct fds m o Ho).
  assert (Hins : <[m := o]> (take m fds ++ drop m (p_ofile n)) = take (S m) fds ++ drop (S m) (p_ofile n)).
  { rewrite Ed, insert_app_r_alt by (rewrite length_take; lia). rewrite length_take, Nat.min_l, Nat.sub_diag by lia. cbn [insert list_insert].
    by rewrite Et, <-app_assoc. }
  destruct o as [j|].
  - destruct (Hf j) as (f & Hfj & Hr); [by eapply list_elem_of_lookup_2|]. apply wp_bind.
    pose proof (dup_fds_lookup (take m fds) j (ftable s)) as Hl. rewrite Hfj in Hl. cbn [fmap option_fmap option_map] in Hl.
    set (f' := over f_ref _ f) in Hl. eapply wp_intro; [apply (filedup_ok j f'); [done|exact Hl|cbn; unfold over; cbn; lia]|]. set (s1 := set_file _ _ _).
    assert (Hnp1 : ptable s1 !! np = Some (n <| p_ofile := take m fds ++ drop m (p_ofile n) |>)) by (by apply list_lookup_insert_eq).
    eapply wp_intro; [by eapply upd_proc_at_ok|]. unfold dup_state, s1, set_proc, set_file. rewrite Et, dup_fds_snoc, <-Et. cbn [dup_fd].
    rewrite (alter_lookup _ _ _ _ Hl). unfold over; cbn. rewrite list_insert_insert_eq, Hins. done.
  - apply wp_ret. unfold dup_state. rewrite <-Hins. assert (dup_fds (take (S m) fds) (ftable s) = dup_fds (take m fds) (ftable s)) as ->.
    { by rewrite Et, dup_fds_snoc. }
    rewrite (list_insert_id (take m fds ++ drop m (p_ofile n))); [done|]. rewrite lookup_app_r by (rewrite length_take; lia). rewrite length_take, Nat.min_l, Nat.sub_diag, Ed by lia. done.
Qed.

(** ** Writing to the child's stack *)

Lemma kmem_rep_write l s s' p :
  kmem_rep l s → is_page p → p ∉ l → k_freelist (km s') = k_freelist (km s) → (∀ b, PGROUNDDOWN b ≠ p → ld (mem s') b = ld (mem s) b) → kmem_rep l s'.
Proof.
  intros Hr Hp Hl Ef Eb. destruct (kmem_rep_outside l s p (mem s') Hr Hp Hl Eb) as [Hc Hpg Hnd]. split; [|done|done]. rewrite Ef. exact Hc.
Qed.

Lemma uvm_write pg s s' l l' p :
  uvm pg s l → kmem_rep l' s' → held s' = [] → (∀ q, q ∈ l' → q ∈ l) → is_page p → ¬ owned (mem s) pg p →
  (∀ b, PGROUNDDOWN b ≠ p → ld (mem s') b = ld (mem s) b) →
  uvm pg s' l' ∧ (∀ va, pte_of (mem s') pg va = pte_of (mem s) pg va) ∧ (∀ q, owned (mem s') pg q ↔ owned (mem s) pg q).
Proof.
  intros Hu Hr Hh Hsub Hp Hno Eb. destruct (uvm_ext pg s s' l l' Hu) as (Hu' & Hpte & _ & Hown).
  - intros _. rewrite Hh. apply not_elem_of_nil.
  - done.
  - intros q Hq%Hsub. by apply (uvm_not_owned _ _ _ _ Hu).
  - intros b Hb. apply Eb. intros E. apply Hno. left. by rewrite <-E.
  - done.
Qed.

Lemma copied_ext m0 m0' pg m m' d l l' a :
  copied m0 pg m d l a → l ⊆ l' → (∀ va, pte_of m0' pg va = pte_of m0 pg va) → (∀ va, pte_of m' d va = pte_of m d va) →
  (∀ va k, va mod PGSIZE = 0 → 0 ≤ va < a → 0 ≤ k < PGSIZE →
     ld m' (frame m d va + k) = ld m (frame m d va + k) ∧ ld m0' (frame m0 pg va + k) = ld m0 (frame m0 pg va + k)) →
  copied m0' pg m' d l' a.
Proof.
  intros [C1 C2 C3] Hl E0 E Eb. split.
  - intros va Hal Hr. destruct (C1 va Hal Hr) as (Hu & Hf & Hin & Hc). destruct (user_page_ext m m' d va (E va)) as [Hu' Hfr].
    destruct (user_page_ext m0 m0' pg va (E0 va)) as [_ Hfr0]. rewrite E, E0, Hfr, Hfr0. split_and!; [by apply Hu'|done|auto|].
    intros k Hk. destruct (Eb va k Hal Hr Hk) as [-> ->]. auto.
  - intros va Hva. apply C2. by apply (user_page_ext m m').
  - intros v1 p1 e1 f1 Hin va Hva. rewrite E. by eapply C3.
Qed.

Lemma idup_ok i s : LIcache ∉ held s → idup i s = Ok i (s <| icache := alter ref_inode i (icache s) |>).
Proof.
  intros Hn. unfold idup. mstep_with (acquire_ok LIcache s Hn). unfold upd_inode_at. mstep. erewrite bind_ok; [|by apply (release_ok _ _ (held s))]. by destruct s.
Qed.

(** ** The whole call *)

(** The calling process [p], in slot [c], and its memory are in order. *)
Record caller (s : kstate) (c : nat) (p : proc) (l : list Z) : Prop := {
  ca_held : held s = [];
  ca_cur : curproc s = Some c;
  ca_proc : ptable s !! c = Some p;
  ca_len : length (ptable s) = NPROC;
  ca_used : ¬ is_unused p;
  ca_uvm : uvm (p_pgdir p) s l;
  ca_sz : 0 ≤ p_sz p ≤ KERNBASE;
  ca_pages va : va mod PGSIZE = 0 → 0 ≤ va < p_sz p → user_page (mem s) (p_pgdir p) va;
  ca_tf k : 0 ≤ k < TF_SIZE → PGROUNDDOWN (p_tf p + k) ∉ l;
  ca_ofile : length (p_ofile p) = NOFILE;
  ca_files j : Some j ∈ p_ofile p → ∃ f, ftable s !! j = Some f ∧ 1 ≤ f_ref f;
  ca_cwd : is_Some (p_cwd p);
  ca_slots i q : ptable s !! i = Some q → is_unused q → p_ofile q = replicate NOFILE None }.

(** The child: a copy of the parent [p] but for its pid, memory and stack. *)
Definition child_of (c : nat) (p : proc) (pid ks d : Z) (q : proc) : proc :=
  (new_proc pid ks q) <| p_pgdir := d |> <| p_sz := p_sz p |> <| p_parent := Some c |> <| p_ofile := p_ofile p |> <| p_cwd := p_cwd p |>
    <| p_name := safestrcpy (p_name q) (p_name p) 16 |> <| p_state := RUNNABLE |>.

(** The kernel memory of the child: its trap frame is the parent's, but for the result of the call. *)
Definition child_stack (m : gmap Z Z) (ks tf : Z) : gmap Z Z := st32 (memmove m (stack_tf ks) tf TF_SIZE) (stack_tf ks + TF_eax) 0.

Lemma child_stack_outside m ks tf : is_page ks → ∀ b, PGROUNDDOWN b ≠ ks → ld (child_stack m ks tf) b = ld m b.
Proof.
  intros Hks b Hb. assert (¬ ks ≤ b < ks + PGSIZE) as Hr by (by rewrite (PGROUNDDOWN_page ks b Hks)).
  unfold child_stack, stack_tf, TF_eax, TF_SIZE, KSTACKSIZE, PGSIZE in *. rewrite ld_st32_ne by lia. rewrite ld_memmove by lia. rewrite decide_False; [done|lia].
Qed.

(** The rest of [fork], from the state in which the child [n] has its memory. *)
Lemma fork_child_run s c p i q ks d pid cwd :
  held s = [] → ptable s !! c = Some p → ptable s !! i = Some ((new_proc pid ks q) <| p_pgdir := d |>) → c ≠ i →
  length (p_ofile p) = NOFILE → p_ofile q = replicate NOFILE None →
  (∀ j, Some j ∈ p_ofile p → ∃ f, ftable s !! j = Some f ∧ 1 ≤ f_ref f) → p_cwd p = Some cwd →
  fork_child c i p s = Ok pid (s <| km ::= λ k, k <| k_mem := child_stack (mem s) ks (p_tf p) |> |> <| ftable := dup_fds (p_ofile p) (ftable s) |>
    <| icache := alter ref_inode cwd (icache s) |> <| ptable := <[i := child_of c p pid ks d q]> (ptable s) |>).
Proof.
  intros Hh Hp Hi Hne Hlp Hlq Hf Hcwd. set (n1 := over p_pgdir _ (new_proc _ _ _)) in *. assert (Hil : (i < length (ptable s))%nat) by (by eapply lookup_lt_Some).
  assert (Hset : ∀ n s', ptable s' = ptable s → ptable (set_proc i n s') !! i = Some n) by (intros n s' E; apply list_lookup_insert_eq; by rewrite E).
  unfold fork_child. rewrite (bind_ok _ _ _ _ _ (upd_proc_at_ok i n1 _ _ Hi)). set (n2 := over p_sz _ n1).
  rewrite (bind_ok _ _ _ _ _ (upd_proc_at_ok i n2 _ _ (Hset n2 s eq_refl))). rewrite set_proc_twice. set (n3 := over p_parent _ n2).
  rewrite (bind_ok _ _ _ _ _ (proc_at_ok i n3 _ (Hset n3 s eq_refl))). unfold store32, upd_mem. rewrite !bind_modify.
  change (p_tf n3) with (stack_tf ks). set (s6 := over km _ (over km _ (set_proc i n3 s))).
  assert (Hi6 : ptable s6 !! i = Some n3) by exact (Hset n3 s eq_refl). assert (Hp6 : ptable s6 !! c = Some p) by (cbn; by rewrite list_lookup_insert_ne).
  assert (Hh6 : held s6 = []) by exact Hh.
  rewrite (bind_ok _ _ _ _ _ (fork_files_run s6 c i p n3 ltac:(rewrite Hh6; apply not_elem_of_nil) Hp6 Hi6 Hne Hlp Hlq Hf)).
  set (s7 := over ptable _ (over ftable _ s6)). assert (Hp7 : ptable s7 !! c = Some p) by (cbn; by rewrite !list_lookup_insert_ne).
  assert (Hh7 : held s7 = []) by exact Hh.
  rewrite (bind_ok _ _ _ _ _ (proc_at_ok c p s7 Hp7)), Hcwd.
  rewrite (bind_ok _ _ _ _ _ (idup_ok cwd s7 ltac:(rewrite Hh7; apply not_elem_of_nil))).
  set (s8 := over icache _ s7). set (n4 := n3 <| p_ofile := p_ofile p |>). assert (Hi8 : ptable s8 !! i = Some n4).
  { apply list_lookup_insert_eq. cbn. by rewrite length_insert. }
  assert (Hh8 : held s8 = []) by exact Hh.
  rewrite (bind_ok _ _ _ _ _ (upd_proc_at_ok i n4 _ _ Hi8)). set (n5 := over p_cwd _ n4). assert (Hset8 : ∀ n, ptable (set_proc i n s8) !! i = Some n).
  { intros n. by apply (set_proc_lookup i n n4). }
  rewrite (bind_ok _ _ _ _ _ (upd_proc_at_ok i n5 _ _ (Hset8 n5))). rewrite set_proc_twice. set (n6 := over p_name _ n5).
  rewrite (bind_ok _ _ _ _ _ (proc_at_ok i n6 _ (Hset8 n6))). cbv zeta.
  rewrite (bind_ok _ _ _ _ _ (acquire_ok LPtable (set_proc i n6 s8) ltac:(change (held (set_proc i n6 s8)) with (held s8); rewrite Hh8; apply not_elem_of_nil))).
  erewrite bind_ok; [|apply (upd_proc_at_ok i n6); exact (Hset8 n6)].
  erewrite bind_ok; [|by apply (release_ok LPtable _ (held s8)); [|rewrite Hh8; apply not_elem_of_nil]].
  unfold mret, M_ret. f_equal.
  assert (En : n6 <| p_state := RUNNABLE |> = child_of c p pid ks d q) by (unfold child_of; rewrite Hcwd; subst n1 n2 n3 n4 n5 n6; reflexivity).
  rewrite <-En. subst s6 s7 s8. clear. generalize (n6 <| p_state := RUNNABLE |>). unfold child_stack.
  generalize (dup_fds (p_ofile p)) memmove st32 (alter ref_inode cwd : list inode → list inode). generalize (n3 <| p_ofile := p_ofile p |>).
  clearbody n3 n4 n5 n6. clear. intros a F G M T b. destruct s. cbv -[insert alter list_insert]. rewrite !list_insert_insert_eq. reflexivity.
Qed.

Lemma curindex_ok c s : curproc s = Some c → curindex s = Ok c s.
Proof. intros E. unfold curindex, myproc. mstep. by rewrite E. Qed.

(** After the call, the child is in slot [i], with its stack in [ks] and its page table in [d]; [l'] are the pages that are left. *)
Record forked (s : kstate) (c : nat) (p : proc) (l : list Z) (i : nat) (ks d : Z) (s' : kstate) (l' : list Z) : Prop := {
  fk_state : ∃ q cwd, ptable s !! i = Some q ∧ is_unused q ∧ p_cwd p = Some cwd
    ∧ s' <| km := km s |> = s <| ftable := dup_fds (p_ofile p) (ftable s) |> <| icache := alter ref_inode cwd (icache s) |>
                              <| ptable := <[i := child_of c p (nextpid s) ks d q]> (ptable s) |> <| nextpid := i32 (nextpid s + 1) |>;
  fk_pids : pids_wf s → 0 < nextpid s ∧ (∀ j x, ptable s !! j = Some x → ¬ is_unused x → p_pid x ≠ nextpid s) ∧ (nextpid s < 2147483647 → pids_wf s');
  fk_parent : uvm (p_pgdir p) s' l';
  fk_child : uvm d s' l';
  fk_pages q : q ∈ l ↔ q = ks ∨ q ∈ l' ∨ owned (mem s') d q;
  fk_stack : ks ∉ l' ∧ ¬ owned (mem s') d ks;
  fk_copied : copied (mem s) (p_pgdir p) (mem s') d l (PGROUNDUP (p_sz p));
  fk_regs k : 0 ≤ k < TF_SIZE →
    ld (mem s') (stack_tf ks + k) = if decide (TF_eax ≤ k < TF_eax + 4) then 0 else ld (mem s) (p_tf p + k);
  fk_start : ld32 (mem s') (stack_context ks + CTX_eip) = u32 forkret_addr ∧ ld32 (mem s') (stack_tf ks - 4) = u32 trapret_addr;
  fk_mem b : PGROUNDDOWN b ∉ l → ld (mem s') b = ld (mem s) b }.

(** After a failure, only a free slot and the order of the free list may differ. *)
Record not_forked (s : kstate) (p : proc) (l : list Z) (s' : kstate) (l' : list Z) : Prop := {
  nf_state : s' <| km := km s |> <| ptable := ptable s |> <| nextpid := nextpid s |> = s;
  nf_slots i q : ptable s !! i = Some q → ¬ is_unused q → ptable s' !! i = Some q;
  nf_unused i q : ptable s !! i = Some q → is_unused q → ∃ q', ptable s' !! i = Some q' ∧ is_unused q';
  nf_uvm : uvm (p_pgdir p) s' l';
  nf_pages q : q ∈ l' ↔ q ∈ l;
  nf_mem b : PGROUNDDOWN b ∉ l → ld (mem s') b = ld (mem s) b }.

Lemma child_stack_tf m ks tf k : 0 ≤ k < TF_SIZE →
  ld (child_stack m ks tf) (stack_tf ks + k) = if decide (TF_eax ≤ k < TF_eax + 4) then 0 else ld m (tf + k).
Proof.
  intros Hk. unfold child_stack. destruct (decide _) as [Hd|Hd].
  - replace (stack_tf ks + k) with (stack_tf ks + TF_eax + (k - TF_eax)) by lia. rewrite ld_st32 by lia. by rewrite Z.div_0_l by (apply Z.pow_nonzero; lia).
  - rewrite ld_st32_ne by lia. rewrite ld_memmove by (unfold TF_SIZE; lia). rewrite decide_True by lia. f_equal. lia.
Qed.

Lemma child_stack_words m ks tf a : a + 4 ≤ stack_tf ks → ld32 (child_stack m ks tf) a = ld32 m a.
Proof.
  intros Ha. apply ld32_ext. intros k Hk. unfold child_stack. rewrite ld_st32_ne by (unfold TF_eax; lia).
  rewrite ld_memmove by (unfold TF_SIZE; lia). by rewrite decide_False by lia.
Qed.

(** *** The child's slot and its stack *)

(** The state after [allocproc], from the parent's view. *)
Record child_slot (s : kstate) (p : proc) (i : nat) (q : proc) (ks : Z) (l1 : list Z) (s1 : kstate) : Prop := {
  cs_frame : s1 <| km := km s |> <| ptable := ptable s |> <| nextpid := nextpid s |> = s;
  cs_ptable : ptable s1 = <[i := new_proc (nextpid s) ks q]> (ptable s);
  cs_nextpid : nextpid s1 = i32 (nextpid s + 1);
  cs_mem : mem s1 = new_stack (mem s) ks;
  cs_uvm : uvm (p_pgdir p) s1 l1;
  cs_pte va : pte_of (mem s1) (p_pgdir p) va = pte_of (mem s) (p_pgdir p) va }.

Lemma new_stack_page m ks : is_page ks → ∀ b, PGROUNDDOWN b ≠ ks → ld (new_stack m ks) b = ld m b.
Proof. intros Hks b Hb. apply new_stack_outside. intros Hr. by apply Hb, PGROUNDDOWN_page. Qed.

Lemma child_slot_ok s c p l1 i q ks s1 :
  caller s c p (ks :: l1) → ptable s1 = <[i := new_proc (nextpid s) ks q]> (ptable s) → nextpid s1 = i32 (nextpid s + 1) →
  mem s1 = new_stack (mem s) ks → kmem_rep l1 s1 → s1 <| km := km s |> <| ptable := ptable s |> <| nextpid := nextpid s |> = s →
  child_slot s p i q ks l1 s1.
Proof.
  intros Hc Et En Em Hr Ef. assert (Hh : held s1 = []) by (rewrite <-(ca_held _ _ _ _ Hc), <-Ef; by destruct s1).
  pose proof (ca_uvm _ _ _ _ Hc) as Hu. pose proof (kr_page _ _ (uv_rep _ _ _ Hu)) as Hpg. apply Forall_cons in Hpg as [Hks _].
  destruct (uvm_write (p_pgdir p) s s1 (ks :: l1) l1 ks Hu Hr Hh) as (Hu1 & Hpte & _); [intros x Hx; by right|by eapply page_ok_is| | |by split].
  - apply (uvm_not_owned _ _ _ _ Hu). by left.
  - rewrite Em. apply new_stack_page. by eapply page_ok_is.
Qed.

(** *** Giving up *)

Lemma fork_undo s c p l1 i q ks s1 s2 l2 :
  caller s c p (ks :: l1) → ptable s !! i = Some q → is_unused q → child_slot s p i q ks l1 s1 →
  s2 <| km := km s1 |> = s1 → kmem_rep l2 s2 → (∀ x, x ∈ l2 ↔ x ∈ l1) → (∀ b, PGROUNDDOWN b ∉ l1 → ld (mem s2) b = ld (mem s1) b) →
  ∃ s' l', (upd_proc_at i (λ p, p <| p_pgdir := 0 |>);;
            n ← proc_at i;
            kfree (p_kstack n);;
            upd_proc_at i (λ p, p <| p_kstack := 0 |>);;
            upd_proc_at i (λ p, p <| p_state := UNUSED |>);;
            mret (-1)) s2 = Ok (-1) s' ∧ not_forked s p (ks :: l1) s' l'.
Proof.
  intros Hc Hi Hq [C1 C2 C3 C4 C5 C6] Hf Hr2 Hl2 Hm2. pose proof (ca_uvm _ _ _ _ Hc) as Hu. pose proof (uv_rep _ _ _ Hu) as [_ Hpg Hnd].
  apply Forall_cons in Hpg as [Hks _]. apply NoDup_cons in Hnd as [Hksl _]. assert (Hil : (i < length (ptable s))%nat) by (by eapply lookup_lt_Some).
  set (n0 := new_proc (nextpid s) ks q) in *. assert (Et : ptable s2 = <[i := n0]> (ptable s)) by (rewrite <-C2, <-Hf; by destruct s2).
  assert (Hi2 : ptable s2 !! i = Some n0) by (rewrite Et; by apply list_lookup_insert_eq).
  rewrite (bind_ok _ _ _ _ _ (upd_proc_at_ok i n0 _ _ Hi2)). set (n1 := over p_pgdir _ n0). set (s3 := set_proc i n1 s2).
  assert (Hset : ∀ n s', ptable s' = ptable s3 → ptable (set_proc i n s') !! i = Some n).
  { intros n s' E. apply list_lookup_insert_eq. rewrite E. cbn. by rewrite length_insert, Et, length_insert. }
  assert (Hi3 : ptable s3 !! i = Some n1) by (by apply (set_proc_lookup i n1 n0)).
  rewrite (bind_ok _ _ _ _ _ (proc_at_ok i n1 _ Hi3)). change (p_kstack n1) with ks.
  assert (Hh3 : held s3 = []) by (change (held s2 = []); rewrite <-(ca_held _ _ _ _ Hc), <-C1, <-Hf; by destruct s2).
  assert (Hks2 : ks ∉ l2) by (by rewrite Hl2).
  destruct (kfree_rep l2 s3 ks) as (s4 & E4 & Hr4 & Hf4 & Hm4); [intros _; rewrite Hh3; apply not_elem_of_nil|by destruct Hr2|done|done|].
  rewrite (bind_ok _ _ _ _ _ E4).
  assert (Et4 : ptable s4 = ptable s3) by (rewrite <-Hf4; by destruct s4). assert (Hi4 : ptable s4 !! i = Some n1) by (by rewrite Et4).
  rewrite (bind_ok _ _ _ _ _ (upd_proc_at_ok i n1 _ _ Hi4)). set (n2 := over p_kstack _ n1).
  rewrite (bind_ok _ _ _ _ _ (upd_proc_at_ok i n2 _ _ (Hset n2 _ Et4))). rewrite set_proc_twice. set (n3 := over p_state _ n2).
  assert (Em4 : ∀ b, PGROUNDDOWN b ≠ ks → ld (mem s4) b = ld (mem s2) b) by (intros b Hb; apply Hm4; by rewrite (PGROUNDDOWN_page ks b (page_ok_is _ _ Hks))).
  assert (Em : ∀ b, PGROUNDDOWN b ∉ ks :: l1 → ld (mem s4) b = ld (mem s) b).
  { intros b [Hb1 Hb2]%not_elem_of_cons. rewrite Em4, Hm2, C4 by done. apply new_stack_page; [by eapply page_ok_is|done]. }
  assert (Hh4 : held s4 = []) by (rewrite <-Hh3, <-Hf4; by destruct s4).
  assert (Hl : ∀ x, x ∈ ks :: l2 ↔ x ∈ ks :: l1) by (intros x; by rewrite !elem_of_cons, Hl2).
  destruct (uvm_ext (p_pgdir p) s (set_proc i n3 s4) (ks :: l1) (ks :: l2) Hu) as (Hu' & _).
  - intros _. change (held (set_proc i n3 s4)) with (held s4). rewrite Hh4. apply not_elem_of_nil.
  - by destruct Hr4.
  - intros x Hx%Hl. by apply (uvm_not_owned _ _ _ _ Hu).
  - intros b Hb. apply Em. by apply (pt_page_is _ _ _ _ (uv_pt _ _ _ Hu)).
  - eexists _, (ks :: l2). split; [reflexivity|]. split; [| | |exact Hu'| |exact Em].
    + set (f := λ x, x <| km := km s |> <| ptable := ptable s |> <| nextpid := nextpid s |>).
      change (f (set_proc i n3 s4) = s). trans (f s1); [|exact C1]. trans (f s2); [|rewrite <-Hf; by destruct s2].
      trans (f s3); [|by destruct s2]. rewrite <-Hf4. by destruct s4.
    + intros j x Hj Hx. cbn. rewrite Et4. cbn. rewrite Et, !list_insert_insert_eq. rewrite list_lookup_insert_ne; [done|]. intros ->. congruence.
    + intros j x Hj Hx. cbn. rewrite Et4. cbn. rewrite Et, !list_insert_insert_eq. destruct (decide (i = j)) as [<-|Hne].
      * exists n3. by rewrite list_lookup_insert_eq.
      * exists x. by rewrite list_lookup_insert_ne.
    + exact Hl.
Qed.

(** *** The child *)

Lemma fork_done s c p l1 i q ks s1 s2 l2 d :
  caller s c p (ks :: l1) → ptable s !! i = Some q → is_unused q → child_slot s p i q ks l1 s1 →
  s2 <| km := km s1 |> = s1 → uvm d s2 l2 → (∀ x, x ∈ l1 ↔ x ∈ l2 ∨ owned (mem s2) d x) →
  copied (mem s1) (p_pgdir p) (mem s2) d l1 (PGROUNDUP (p_sz p)) → (∀ b, PGROUNDDOWN b ∉ l1 → ld (mem s2) b = ld (mem s1) b) →
  ∃ s', fork_child c i p (set_proc i ((new_proc (nextpid s) ks q) <| p_pgdir := d |>) s2) = Ok (nextpid s) s'
    ∧ forked s c p (ks :: l1) i ks d s' l2.
Proof.
  intros Hc Hi Hq [C1 C2 C3 C4 C5 C6] Hf Hd Hl2 Hcp Hm2. pose proof (ca_uvm _ _ _ _ Hc) as Hu. pose proof (uv_rep _ _ _ Hu) as [_ Hpg Hnd].
  apply Forall_cons in Hpg as [Hks%page_ok_is Hpg]. apply NoDup_cons in Hnd as [Hksl _]. assert (Hil : (i < length (ptable s))%nat) by (by eapply lookup_lt_Some).
  destruct (ca_cwd _ _ _ _ Hc) as [cwd Hcwd]. set (n1 := over p_pgdir _ _). set (s3 := set_proc i n1 s2).
  assert (Hne : c ≠ i) by (intros ->; apply (ca_used _ _ _ _ Hc); pose proof (ca_proc _ _ _ _ Hc) as Hp; rewrite Hi in Hp; by injection Hp as <-).
  assert (Et : ptable s3 = <[i := n1]> (ptable s)).
  { change (<[i := n1]> (ptable s2) = <[i := n1]> (ptable s)). assert (ptable s2 = ptable s1) as -> by (rewrite <-Hf; by destruct s2).
    by rewrite C2, list_insert_insert_eq. }
  assert (Hh3 : held s3 = []) by (change (held s2 = []); rewrite <-(ca_held _ _ _ _ Hc), <-C1, <-Hf; by destruct s2).
  assert (Eft : ftable s3 = ftable s) by (rewrite <-C1, <-Hf; by destruct s2).
  assert (Eic : icache s3 = icache s) by (rewrite <-C1, <-Hf; by destruct s2).
  eexists. split.
  { apply (fork_child_run s3 c p i q ks d (nextpid s) cwd Hh3); [|by rewrite Et, list_lookup_insert_eq|done|apply Hc| | |done].
    - rewrite Et, list_lookup_insert_ne by done. apply Hc.
    - by apply (ca_slots _ _ _ _ Hc i).
    - rewrite Eft. apply Hc. }
  set (s' := over ptable _ _). assert (Em : mem s' = child_stack (mem s2) ks (p_tf p)) by done.
  assert (Em2 : ∀ b, PGROUNDDOWN b ≠ ks → ld (mem s') b = ld (mem s2) b) by (intros b Hb; rewrite Em; by apply child_stack_outside).
  assert (Hs' : held s' = []) by exact Hh3. assert (Hks2 : ks ∉ l2) by (intros Hin; by apply Hksl, Hl2; left).
  assert (Hksd : ¬ owned (mem s2) d ks) by (intros Ho; by apply Hksl, Hl2; right).
  assert (Hr' : kmem_rep l2 s') by (by apply (kmem_rep_write l2 s2 s' ks (uv_rep _ _ _ Hd))).
  destruct (uvm_write d s2 s' l2 l2 ks Hd Hr' Hs') as (Hd' & Hpted & Hownd); [done..|].
  assert (Hm : ∀ b, PGROUNDDOWN b ∉ ks :: l1 → ld (mem s') b = ld (mem s) b).
  { intros b [Hb1 Hb2]%not_elem_of_cons. rewrite Em2, Hm2, C4 by done. by apply new_stack_page. }
  destruct (uvm_ext (p_pgdir p) s s' (ks :: l1) l2 Hu) as (Hu' & Hpte & _).
  { intros _. rewrite Hs'. apply not_elem_of_nil. }
  { done. }
  { intros x Hx. apply (uvm_not_owned _ _ _ _ Hu). right. apply Hl2. by left. }
  { intros b Hb. apply Hm. by apply (pt_page_is _ _ _ _ (uv_pt _ _ _ Hu)). }
  split; [| |exact Hu'|exact Hd'| | | | | |exact Hm].
  - exists q, cwd. split_and!; [done..|]. assert (Enp : nextpid s2 = i32 (nextpid s + 1)) by (rewrite <-C3, <-Hf; by destruct s2).
    set (F := dup_fds (p_ofile p) (ftable s)). set (I := alter ref_inode cwd (icache s)). set (P := <[i := child_of c p (nextpid s) ks d q]> (ptable s)).
    set (g := λ x, x <| km := km s |> <| ftable := F |> <| icache := I |> <| ptable := P |> <| nextpid := i32 (nextpid s + 1) |>).
    assert (P = <[i := child_of c p (nextpid s) ks d q]> (ptable s3)) as EP by (by rewrite Et, list_insert_insert_eq).
    assert (F = dup_fds (p_ofile p) (ftable s3)) as EF by (by rewrite Eft). assert (I = alter ref_inode cwd (icache s3)) as EI by (by rewrite Eic).
    trans (g s2); [unfold s', g; rewrite <-EP, <-EF, <-EI, <-Enp; clear; by destruct s2|].
    trans (g s1); [rewrite <-Hf; clear; by destruct s2|].
    trans (g (s1 <| km := km s |> <| ptable := ptable s |> <| nextpid := nextpid s |>)); [clear; by destruct s1|]. by rewrite C1.
  - intros Hw. pose proof Hw as (Hpos & Hb & _). split; [exact Hpos|]. split; [intros j x Hx Hux; pose proof (Hb j x Hx Hux); lia|]. intros Hmax.
    apply (pids_wf_insert s s' i (child_of c p (nextpid s) ks d q)); [done..| | |done].
    + change (<[i := child_of c p (nextpid s) ks d q]> (ptable s3) = <[i := child_of c p (nextpid s) ks d q]> (ptable s)). by rewrite Et, list_insert_insert_eq.
    + change (nextpid s2 = i32 (nextpid s + 1)). rewrite <-C3, <-Hf. by destruct s2.
  - intros x. rewrite elem_of_cons, Hl2. by rewrite Hownd.
  - by rewrite Hownd.
  - rewrite Forall_forall in Hpg. apply (copied_ext (mem s1) (mem s) (p_pgdir p) (mem s2) (mem s') d l1); [done|by intros x Hx; right|done|done|].
    intros va k Hva Hr Hk. destruct (cp_page _ _ _ _ _ _ Hcp va Hva Hr) as (Hup & _ & Hin & _). split.
    + apply Em2. rewrite frame_byte; [|by eapply page_ok_is, Hpg|done]. congruence.
    + destruct (user_page_ext (mem s) (mem s1) (p_pgdir p) va (C6 va)) as [_ ->]. rewrite C4. symmetry. apply new_stack_page; [done|].
      destruct (uv_frame _ _ _ Hu va) as (Hok & Hnin & _); [|rewrite frame_byte by (done || by eapply page_ok_is); intros E; apply Hnin; rewrite E; by left].
      apply (ca_pages _ _ _ _ Hc); [done|]. destruct (roundup_spec (p_sz p)) as (Hh & Hal & _); [apply Hc|]. pose proof (ca_sz _ _ _ _ Hc). unfold PGSIZE in *. zlia.
  - intros k Hk. rewrite Em, child_stack_tf by done. destruct (decide _); [done|]. pose proof (ca_tf _ _ _ _ Hc k Hk) as [Hb1 Hb2]%not_elem_of_cons.
    rewrite Hm2, C4 by done. by apply new_stack_page.
  - destruct (new_stack_words (mem s) ks) as [<- <-]. rewrite Em, <-C4.
    assert (Hw : ∀ a, ks ≤ a → a + 4 ≤ stack_tf ks → ld32 (child_stack (mem s2) ks (p_tf p)) a = ld32 (mem s1) a).
    { intros a Ha1 Ha2. rewrite child_stack_words by done. apply ld32_ext. intros k Hk. apply Hm2.
      assert (PGROUNDDOWN (a + k) = ks) as ->; [|done]. apply PGROUNDDOWN_page; [done|].
      unfold stack_tf, KSTACKSIZE, TF_SIZE, PGSIZE in *. lia. }
    unfold stack_context, CTX_eip, CONTEXT_SIZE, stack_tf, KSTACKSIZE, TF_SIZE in *. split; apply Hw; lia.
Qed.

(** *** All outcomes *)

Lemma fork_run (Hlk : linker_ok) s c p l : caller s c p l →
  (∃ i ks d s' l', fork s = Ok (nextpid s) s' ∧ forked s c p l i ks d s' l')
  ∨ ∃ s' l', fork s = Ok (-1) s' ∧ not_forked s p l s' l'
      ∧ ((∀ i q, ptable s !! i = Some q → ¬ is_unused q) ∨ Z.of_nat (length l) ≤ 1027 + PGROUNDUP (p_sz p) / PGSIZE).
Proof.
  intros Hc. pose proof (ca_uvm _ _ _ _ Hc) as Hu. destruct (roundup_spec (p_sz p)) as (Hhi & _ & _); [apply Hc|]. pose proof (ca_sz _ _ _ _ Hc) as Hsz.
  assert (Hhi0 : 0 ≤ PGROUNDUP (p_sz p) / PGSIZE) by (apply Z.div_pos; [lia|done]).
  unfold fork. rewrite (bind_ok _ _ _ _ _ (curindex_ok c s (ca_cur _ _ _ _ Hc))).
  pose proof (allocproc_run l s ltac:(rewrite (ca_held _ _ _ _ Hc); apply not_elem_of_nil) (uv_unlocked _ _ _ Hu) (ca_len _ _ _ _ Hc) (uv_rep _ _ _ Hu)) as Ha.
  destruct (list_find is_unused (ptable s)) as [[i q]|] eqn:E.
  2:{ rewrite (bind_ok _ _ _ _ _ Ha). right. exists s, l. split; [done|]. split; [split; [by destruct s|done|by eauto|done|done|done]|]. left.
      intros i q Hi. apply list_find_None in E. rewrite Forall_forall in E. apply E. by eapply list_elem_of_lookup_2. }
  apply list_find_Some in E as (Hi & Hq & _). destruct l as [|ks l1].
  { rewrite (bind_ok _ _ _ _ _ Ha). right. eexists _, []. split; [reflexivity|]. split; [|right; cbn [length]; lia].
    split; [clear; by destruct s| | | |done|done].
    - intros j x Hj Hx. cbn. rewrite list_lookup_insert_ne; [done|]. intros ->. congruence.
    - intros j x Hj Hx. cbn. destruct (decide (i = j)) as [<-|Hne]; [|exists x; by rewrite list_lookup_insert_ne].
      eexists. split; [apply list_lookup_insert_eq; by eapply lookup_lt_Some|done].
    - destruct Hu as [U1 [U2 U3 U4] U5 U6 U7 U8]. by split. }
  destruct Ha as (s1 & E1 & Et1 & En1 & Em1 & Hr1 & Ef1). rewrite (bind_ok _ _ _ _ _ E1).
  pose proof (child_slot_ok s c p l1 i q ks s1 Hc Et1 En1 Em1 Hr1 Ef1) as Hcs.
  assert (Hne : i ≠ c) by (intros ->; apply (ca_used _ _ _ _ Hc); pose proof (ca_proc _ _ _ _ Hc) as Hp; rewrite Hi in Hp; by injection Hp as <-).
  assert (Hp1 : ptable s1 !! c = Some p) by (rewrite Et1, list_lookup_insert_ne by done; apply Hc).
  rewrite (bind_ok _ _ _ _ _ (proc_at_ok c p s1 Hp1)).
  destruct (copyuvm_run Hlk (p_pgdir p) (p_sz p) s1 l1 (cs_uvm _ _ _ _ _ _ _ Hcs) Hsz) as (d & s2 & l2 & E2 & Hf2 & Hr2 & Hm2 & _ & _ & Hd).
  { intros va Hal Hva. apply (user_page_ext (mem s)); [by apply (cs_pte _ _ _ _ _ _ _ Hcs)|by apply (ca_pages _ _ _ _ Hc)]. }
  rewrite (bind_ok _ _ _ _ _ E2). destruct Hd as [(Hd & Hud & Hl2 & Hcp)|(-> & Hl2 & Hlen)].
  - left. assert (Hi2 : ptable s2 !! i = Some (new_proc (nextpid s) ks q)).
    { assert (ptable s2 = ptable s1) as -> by (rewrite <-Hf2; by destruct s2). rewrite Et1. apply list_lookup_insert_eq. by eapply lookup_lt_Some. }
    rewrite (bind_ok _ _ _ _ _ (upd_proc_at_ok i _ _ _ Hi2)). rewrite (proj2 (Z.eqb_neq d 0)) by done.
    destruct (fork_done s c p l1 i q ks s1 s2 l2 d Hc Hi Hq Hcs Hf2 Hud Hl2 Hcp Hm2) as (s' & E' & Hfk). by exists i, ks, d, s', l2.
  - right. destruct (fork_undo s c p l1 i q ks s1 s2 l2 Hc Hi Hq Hcs Hf2 Hr2 Hl2 Hm2) as (s' & l' & E' & Hnf).
    exists s', l'. split; [exact E'|]. split; [done|]. right. cbn [length]. lia.
Qed.
End fork.

(** * Properties *)

(** C19: [fork] either makes a process that is a copy of its caller, or fails and leaves no trace.  When it makes one, the child is in a
    slot that was free, runnable, with the caller as its parent, a pid that no other process has, positive, which [fork] returns, the same open files, each with one more
    reference for each descriptor, the same directory, a page table of its own with copies of the caller's pages, and the caller's
    registers but for [eax], where it will find 0; the stack, the tables and the copies all come from the free list and are distinct, and nothing
    else in the machine has changed.  When it fails, which it does only when there is no free slot or not enough pages, every page it took
    has gone back.  Pids are ints that [allocproc] counts up: they stay unique as long as the count ([nextpid]) has not come to the
    last int, after which it goes round to the negative ones. *)
Theorem fork_correct `{Linker} `{Kernel_image} (s : kstate) (c : nat) (p : proc) (l : list Z) :
  linker_ok → caller s c p l →
  (∃ i ks d s' l', fork s = Ok (nextpid s) s' ∧ forked s c p l i ks d s' l')
  ∨ ∃ s' l', fork s = Ok (-1) s' ∧ not_forked s p l s' l'
      ∧ ((∀ i q, ptable s !! i = Some q → ¬ is_unused q) ∨ Z.of_nat (length l) ≤ 1027 + PGROUNDUP (p_sz p) / PGSIZE).
Proof. intros Hlk. by apply fork_run. Qed.

(** A process of one page, with one open file under two descriptors, and 63 free slots. *)
Definition demo_parent : proc :=
  mk_proc 100 page0 (page0 + PGSIZE * 1200) RUNNING 1 None (stack_tf (page0 + PGSIZE * 1200)) 0 None 0 (Some 0%nat :: Some 0%nat :: replicate 14 None) (Some 0%nat) [105; 110; 105; 116; 0].
Definition blank_proc : proc := mk_proc 0 0 0 UNUSED 0 None 0 0 None 0 (replicate NOFILE None) None [].
Definition fork_vm : kstate :=
  big_vm <| ptable := demo_parent :: replicate 63 blank_proc |>
         <| curproc := Some 0%nat |> <| nextpid := 2 |> <| ftable := [mk_file FD_INODE 2 1 1 0 0 0] |>.
Lemma fork_vm_uvm : uvm (H := demo_linker) page0 fork_vm big_pages.
Proof. destruct big_vm_facts as ([U1 [U2 U3 U4] U5 U6 U7 U8] & _). by split. Qed.

Lemma fork_vm_caller s1 l1 : ustep (H := demo_linker) page0 fork_vm big_pages s1 l1 → grown (mem fork_vm) (mem s1) page0 big_pages 0 PGSIZE →
  caller (H := demo_linker) s1 0 demo_parent l1.
Proof.
  intros Hs Hg. assert (E : ∀ A (f : kstate → A), (∀ x k, f (x <| km := k |>) = f x) → f s1 = f fork_vm).
  { intros A f Hf. rewrite <-(us_frame _ _ _ _ _ Hs). by rewrite Hf. }
  assert (Ht : ptable s1 = ptable fork_vm) by (by apply (E _ ptable)). assert (Hf : ftable s1 = ftable fork_vm) by (by apply (E _ ftable)).
  split; try reflexivity.
  - by apply (E _ held).
  - by apply (E _ curproc).
  - by rewrite Ht.
  - by rewrite Ht.
  - by intros [=].
  - apply (us_uvm _ _ _ _ _ Hs).
  - by split.
  - intros va Hal Hva. apply (gr_new _ _ _ _ _ _ Hg va Hal). change (p_sz demo_parent) with 100 in Hva. unfold PGSIZE. lia.
  - intros k Hk. assert (PGROUNDDOWN (p_tf demo_parent + k) = page0 + PGSIZE * 1200) as ->.
    { apply PGROUNDDOWN_page; [split; [|split]; reflexivity|]. change (p_tf demo_parent) with (page0 + PGSIZE * 1200 + 4020). unfold TF_SIZE, PGSIZE in *. lia. }
    intros Hin. destruct (proj1 (us_pool _ _ _ _ _ Hs (page0 + PGSIZE * 1200))) as [Hb|Hb]; [by left| |].
    + by apply (bool_decide_eq_false_1 (page0 + PGSIZE * 1200 ∈ big_pages)).
    + destruct big_vm_facts as (_ & _ & Ho). by apply Ho in Hb.
  - intros j Hj. exists (mk_file FD_INODE 2 1 1 0 0 0). rewrite Hf. change (p_ofile demo_parent) with (Some 0%nat :: Some 0%nat :: replicate 14 None) in Hj.
    rewrite !elem_of_cons, elem_of_replicate in Hj. destruct Hj as [[= ->]|[[= ->]|[[=] _]]]; by split.
  - by eexists.
  - intros i q Hi Hq. rewrite Ht in Hi. destruct i as [|i]; [injection Hi as <-; discriminate Hq|].
    change (replicate 63 blank_proc !! i = Some q) in Hi. by apply lookup_replicate in Hi as [-> _].
Qed.

Lemma demo_linker_ok : linker_ok (H := demo_linker).
Proof. split; [exact eq_refl|split; exact eq_refl|vm_compute; intros [=]]. Qed.

(** It has grown to its one page. *)
Lemma fork_vm_grown : ∃ s1 l1, allocuvm (H := demo_linker) page0 0 100 fork_vm = Ok 100 s1 ∧ caller (H := demo_linker) s1 0 demo_parent l1 ∧ 1098 ≤ Z.of_nat (length l1)
  ∧ ptable s1 = ptable fork_vm ∧ ftable s1 = ftable fork_vm ∧ nextpid s1 = 2 ∧ ∀ x, x ∈ l1 → x ∈ big_pages ∨ x = page0.
Proof.
  destruct big_vm_facts as (_ & Hpte & Hown). assert (Hlen : Z.of_nat (length big_pages) = 1100) by (by vm_compute).
  destruct (allocuvm_run (H := demo_linker) eq_refl page0 0 100 fork_vm big_pages fork_vm_uvm) as (r & s1 & l1 & E1 & Hs1 & Hr);
    [by split|exact eq_refl|intros va _ _; exact (f_equal present (Hpte va))|]. change (2 * _) with 2 in Hr. rewrite Hlen in Hr.
  destruct Hr as [(Er & Hlen1 & Hg)|(_ & _ & Hbad)]; [|exfalso; clear - Hbad; lia]. rewrite Er in E1. clear Er.
  assert (E : ∀ A (f : kstate → A), (∀ x k, f (x <| km := k |>) = f x) → f s1 = f fork_vm).
  { intros A f Hf. rewrite <-(us_frame _ _ _ _ _ Hs1). by rewrite Hf. }
  exists s1, l1. split; [exact E1|]. split; [exact (fork_vm_caller s1 l1 Hs1 Hg)|]. split; [clear - Hlen1; lia|].
  split; [by apply (E _ ptable)|]. split; [by apply (E _ ftable)|]. split; [by apply (E _ nextpid)|].
  intros x Hx. destruct (proj1 (us_pool _ _ _ _ _ Hs1 x)) as [Hb|Hb]; [by left|by left|right; by apply Hown in Hb].
Qed.

(** The process of one page makes a child. *)
Lemma fork_correct_witness :
  ∃ s1 i ks d s', allocuvm (H := demo_linker) page0 0 100 fork_vm = Ok 100 s1 ∧ fork (H := demo_linker) (H1 := demo_image) s1 = Ok 2 s'
    ∧ ld (mem s') (stack_tf ks + TF_eax) = 0 ∧ user_page (mem s') d 0
    ∧ (∀ k, 0 ≤ k < PGSIZE → ld (mem s') (frame (mem s') d 0 + k) = ld (mem s1) (frame (mem s1) page0 0 + k))
    ∧ ftable s' = [mk_file FD_INODE 4 1 1 0 0 0] ∧ ptable s' !! i = Some (child_of 0 demo_parent 2 ks d blank_proc).
Proof.
  destruct fork_vm_grown as (s1 & l1 & E1 & Hc & Hlen1 & Ht & Hft & Hnp & _).
  destruct (@fork_correct demo_linker demo_image s1 0%nat demo_parent l1 demo_linker_ok Hc) as [(i & ks & d & s' & l' & E' & Hf)|(s' & l' & _ & _ & Hbad)].
  - exists s1, i, ks, d, s'. rewrite Hnp in E'. split; [exact E1|]. split; [exact E'|]. destruct Hf as [(q & cwd & Hq & Huq & _ & Est) _ _ _ _ _ Hcp Hrg _ _].
    rewrite Hnp, Hft, Ht in Est.
    split; [rewrite Hrg by (clear; unfold TF_eax, TF_SIZE; lia); by rewrite decide_True by (clear; unfold TF_eax; lia)|].
    destruct (cp_page _ _ _ _ _ _ Hcp 0) as (Hup & _ & _ & Hby); [exact eq_refl|vm_compute; split; [intros [=]|exact eq_refl]|].
    split; [exact Hup|]. split; [exact Hby|]. split; [exact (f_equal ftable Est)|].
    rewrite Ht in Hq. trans (<[i := child_of 0 demo_parent 2 ks d q]> (ptable fork_vm) !! i); [exact (f_equal (λ x, ptable x !! i) Est)|].
    rewrite list_lookup_insert_eq by (by eapply lookup_lt_Some). do 2 f_equal.
    destruct i as [|i]; [injection Hq as <-; discriminate Huq|]. change (replicate 63 blank_proc !! i = Some q) in Hq. by apply lookup_replicate in Hq as [-> _].
  - exfalso. destruct Hbad as [Hbad|Hbad]; [|change (PGROUNDUP _ / PGSIZE) with 1 in Hbad; clear - Hlen1 Hbad; lia].
    apply (Hbad 1%nat blank_proc); [rewrite Ht|]; exact eq_refl.
Defined.
