(* ===== verification/Wait.v ===== *)
(** [wait] and the end of [exit] of [proc.c]: a process hears of its dead children, and their pages come back. *)
From S2P Require Export Fork.

(** * Children *)

Definition is_child (c : nat) (p : proc) : Prop := p_parent p = Some c.
Definition dead_child (c : nat) (p : proc) : Prop := p_parent p = Some c ∧ p_state p = ZOMBIE.
#[export] Instance is_child_dec c p : Decision (is_child c p).
Proof. unfold is_child. apply _. Defined.
#[export] Instance dead_child_dec c p : Decision (dead_child c p).
Proof. unfold dead_child. apply _. Defined.

(** The slot of a child that has been buried. *)
Definition buried (p : proc) : proc :=
  p <| p_kstack := 0 |> <| p_pid := 0 |> <| p_parent := None |> <| p_name ::= <[0%nat := 0]> |> <| p_killed := 0 |> <| p_state := UNUSED |>.

Section wait.
Context `{Linker} (Hlk : linker_ok).

(** The memory of the dead process [q], and its stack. *)
Record remains (s : kstate) (q : proc) (l : list Z) : Prop := {
  rm_uvm : uvm (p_pgdir q) s l;
  rm_stack : page_ok sym_end (p_kstack q);
  rm_free : p_kstack q ∉ l;
  rm_own : ¬ owned (mem s) (p_pgdir q) (p_kstack q) }.

(** From [s] to [s'] the dead child in slot [i] has gone; its pages are with the free ones, [l']. *)
Record reaped (s : kstate) (i : nat) (q : proc) (l : list Z) (s' : kstate) (l' : list Z) : Prop := {
  rp_frame : s' <| km := km s |> <| ptable := ptable s |> = s <| held := [] |>;
  rp_ptable : ptable s' = <[i := buried q]> (ptable s);
  rp_unlocked : kmem_unlocked s';
  rp_rep : kmem_rep l' s';
  rp_pages x : x ∈ l' ↔ x = p_kstack q ∨ pool (mem s) (p_pgdir q) l x;
  rp_mem b : PGROUNDDOWN b ∉ l' → ld (mem s') b = ld (mem s) b }.

Lemma bury_ok s i q l :
  held s = [LPtable] → ptable s !! i = Some q → remains s q l → ∃ s' l', bury i q s = Ok (p_pid q) s' ∧ reaped s i q l s' l'.
Proof.
  intros Hh Hi [Hu Hks Hksl Hkso]. pose proof (page_ok_is _ _ Hks) as Hksp. assert (Hil : (i < length (ptable s))%nat) by (by eapply lookup_lt_Some).
  destruct (kfree_rep l s (p_kstack q)) as (s1 & E1 & Hr1 & Hf1 & Hm1); [apply (uv_unlocked _ _ _ Hu)|apply (uv_rep _ _ _ Hu)|done|done|].
  assert (Et1 : ptable s1 = ptable s) by (rewrite <-Hf1; by destruct s1). assert (Hi1 : ptable s1 !! i = Some q) by (by rewrite Et1).
  set (q1 := q <| p_kstack := 0 |>). set (s2 := set_proc i q1 s1).
  assert (Hh2 : held s2 = [LPtable]) by (change (held s1 = [LPtable]); rewrite <-Hh, <-Hf1; by destruct s1).
  destruct (uvm_ext (p_pgdir q) s s2 l (p_kstack q :: l) Hu) as (Hu2 & _ & Hpt2 & Hown2).
  { intros _. rewrite Hh2. set_solver. }
  { by destruct Hr1. }
  { intros x [->|Hx]%elem_of_cons; [done|by apply (uvm_not_owned _ _ _ _ Hu)]. }
  { intros b Hb. apply Hm1. rewrite (PGROUNDDOWN_page _ b Hksp). intros E. apply Hkso. left. by rewrite <-E. }
  destruct (freevm_run (lk_kernbase Hlk) (p_pgdir q) s2 _ Hu2) as (s3 & l3 & E3 & [Hf3 Hn3 Hr3 Hm3] & Hl3).
  assert (Et3 : ptable s3 = <[i := q1]> (ptable s)) by (rewrite <-Et1; change (ptable s3 = ptable s2); rewrite <-Hf3; by destruct s3).
  assert (Hi3 : ptable s3 !! i = Some q1) by (rewrite Et3; by apply list_lookup_insert_eq).
  assert (Hh3 : held s3 = [LPtable]) by (rewrite <-Hh2, <-Hf3; by destruct s3).
  set (s4 := set_proc i (buried q) s3).
  exists (s4 <| held := [] |>), l3. split.
  - unfold bury. mstep_with E1. mstep_with (upd_proc_at_ok i q (λ p, p <| p_kstack := 0 |>) s1 Hi1). mstep_with E3.
    rewrite (bind_ok _ _ _ _ _ (upd_proc_at_ok i q1 _ s3 Hi3)). change (set_proc i _ s3) with s4.
    erewrite bind_ok; [|apply (release_ok LPtable s4 [])]; [done|exact Hh3|apply not_elem_of_nil].
  - split.
    + set (f := λ x, x <| km := km s |> <| ptable := ptable s |> <| held := [] |>). trans (f s3); [clear; by destruct s3|].
      trans (f s2); [rewrite <-Hf3; clear; by destruct s3|]. trans (f s1); [clear; by destruct s1|]. trans ((s1 <| km := km s |>) <| held := [] |>); [unfold f; rewrite <-Et1; clear; by destruct s1|by rewrite Hf1].
    + change (<[i := buried q]> (ptable s3) = <[i := buried q]> (ptable s)). by rewrite Et3, list_insert_insert_eq.
    + intros _. apply not_elem_of_nil.
    + by destruct Hr3.
    + intros x. rewrite Hl3. unfold pool. rewrite elem_of_cons, Hown2. tauto.
    + intros b Hb. change (mem (s4 <| held := [] |>)) with (mem s3). rewrite Hm3 by done. apply Hm1. rewrite (PGROUNDDOWN_page _ b Hksp). intros E.
      apply Hb, Hl3. left. apply elem_of_cons. by left.
Qed.

(** ** The search *)

Lemma wait_scan_end c s : length (ptable s) = NPROC → ∀ n i hk, (i + n = NPROC)%nat →
  iterM (S n) (wait_scan c) (i, hk) s =
    match list_find (dead_child c) (drop i (ptable s)) with
    | Some (k, q) => (pid ← bury (i + k) q; mret (inl pid)) s
    | None => Ok (inr (hk || bool_decide (Exists (is_child c) (drop i (ptable s))))) s
    end.
Proof.
  intros Hl. induction n as [|n IH]; intros i hk Hi.
  - rewrite drop_ge by lia. cbn [list_find]. erewrite iterM_inr; [|unfold wait_scan; rewrite (proj2 (Nat.ltb_ge i NPROC)) by lia; reflexivity].
    by rewrite bool_decide_false, orb_false_r by (by intros ?%Exists_nil).
  - destruct (lookup_lt_is_Some_2 (ptable s) i) as [q Hq]; [lia|]. rewrite (drop_S _ q) by done. cbn [list_find].
    rewrite iterM_S. unfold wait_scan at 2. cbv beta iota. rewrite (proj2 (Nat.ltb_lt i NPROC)) by lia. rewrite bind_assoc. mstep_with (proc_at_ok i q s Hq).
    destruct (decide (dead_child c q)) as [[Hc Hz]|Hd].
    + rewrite !bool_decide_true by done. cbn [negb]. rewrite Nat.add_0_r. by rewrite bind_assoc.
    + destruct (decide (p_parent q = Some c)) as [Hc|Hc].
      * rewrite (bool_decide_true (p_parent q = _)) by done. rewrite (bool_decide_false (p_state q = ZOMBIE)) by (by intros ?; apply Hd). cbn [negb].
        rewrite bind_mret, IH by lia. destruct (list_find _ _) as [[k x]|]; cbn [fmap option_fmap option_map prod_map fst snd]; [by rewrite Nat.add_succ_r|].
        rewrite (bool_decide_true (Exists _ (q :: _))) by (by left). by rewrite orb_true_r.
      * rewrite (bool_decide_false (p_parent q = _)) by done. cbn [negb].
        rewrite bind_mret, IH by lia. destruct (list_find _ _) as [[k x]|]; cbn [fmap option_fmap option_map prod_map fst snd]; [by rewrite Nat.add_succ_r|].
        do 3 f_equal. apply bool_decide_ext. rewrite Exists_cons. tauto.
Qed.

(** ** A round of [wait] *)

(** The calling process [p], in slot [c], holds the lock of the table. *)
Record looking (s : kstate) (c : nat) (p : proc) : Prop := {
  lo_held : held s = [LPtable];
  lo_cur : curproc s = Some c;
  lo_proc : ptable s !! c = Some p;
  lo_len : length (ptable s) = NPROC }.

Lemma sleep_held {A} ch s c p : looking s c p → sleep (A:=A) ch LPtable s = Sleeping (sleeps_on ch c s).
Proof.
  intros [Hh Hc Hp _]. unfold sleep, myproc. mstep. rewrite Hc. change (bool_decide (LPtable = LPtable)) with true. cbv iota. mstep.
  set (p1 := p <| p_chan := Some ch |> <| p_state := SLEEPING |>). assert (Es : set_proc c p1 s = sleeps_on ch c s).
  { unfold set_proc, sleeps_on, over; cbn. by rewrite (alter_lookup _ _ _ _ Hp). }
  mstep_with (upd_proc_at_ok c p (λ p, p <| p_chan := Some ch |> <| p_state := SLEEPING |>) s Hp). fold p1. rewrite Es.
  apply (sched_ok _ c p1); [exact Hc| |exact Hh|done]. rewrite <-Es. by apply (set_proc_lookup c p1 p).
Qed.

(** What a round comes to. *)
Definition childless (s : kstate) (c : nat) : Prop := ¬ Exists (is_child c) (ptable s).
Lemma wait_loop_run s c p :
  looking s c p →
  match list_find (dead_child c) (ptable s) with
  | Some (i, q) => ∀ l, remains s q l → ∃ s' l', wait_loop s = Ok (inr (p_pid q)) s' ∧ reaped s i q l s' l'
  | None => wait_loop s = if decide (childless s c ∨ p_killed p ≠ 0) then Ok (inr (-1)) (s <| held := [] |>) else Ok (inl tt) (sleeps_on (ChProc c) c s)
  end.
Proof.
  intros Hlo. pose proof Hlo as [Hh Hc Hp Hl]. pose proof (wait_scan_end c s Hl NPROC 0 false eq_refl) as E. rewrite drop_0 in E.
  unfold wait_loop. destruct (list_find (dead_child c) (ptable s)) as [[i q]|] eqn:Ef.
  - intros l Hr. apply list_find_Some in Ef as (Hi & _ & _). destruct (bury_ok s i q l Hh Hi Hr) as (s' & l' & Eb & Hrp).
    exists s', l'. split; [|done]. mstep_with (curindex_ok c s Hc). cbn [Nat.add] in E. rewrite (bind_ok _ _ _ _ _ Eb) in E. mstep_with E. done.
  - cbn [orb] in E. mstep_with (curindex_ok c s Hc). mstep_with E. mstep_with (proc_at_ok c p s Hp).
    unfold childless. destruct (decide (Exists (is_child c) (ptable s))) as [He|He].
    + rewrite bool_decide_true by done. cbn [negb orb]. destruct (Z.eqb_spec (p_killed p) 0) as [Hk|Hk]; cbn [negb].
      * rewrite decide_False by tauto. unfold suspend. erewrite bind_ok; [reflexivity|]. by rewrite (sleep_held _ s c p Hlo).
      * rewrite decide_True by tauto. erewrite bind_ok; [reflexivity|]. apply release_ok; [done|apply not_elem_of_nil].
    + rewrite bool_decide_false by done. cbn [negb orb]. rewrite decide_True by tauto.
      erewrite bind_ok; [reflexivity|]. apply release_ok; [done|apply not_elem_of_nil].
Qed.

Lemma wait_held s : held s = [] → wait s = wait_loop (s <| held := [LPtable] |>).
Proof. intros Hh. unfold wait. rewrite (bind_ok _ _ _ _ _ (acquire_ok LPtable s ltac:(rewrite Hh; apply not_elem_of_nil))). by rewrite Hh. Qed.
End wait.

(** * The end of [exit] *)

(** A child of the process in slot [c] becomes one of [j]. *)
Definition adopt (c j : nat) (p : proc) : proc := if decide (p_parent p = Some c) then p <| p_parent := Some j |> else p.
(** The table when the children of [c] have been passed on to [j], which is woken when one of them is dead. *)
Definition orphans (c j : nat) (ps : list proc) : list proc :=
  (if decide (Exists (dead_child c) ps) then fmap (wake (ChProc j)) else id) (adopt c j <$> ps).

Lemma wake_parent ch p : p_parent (wake ch p) = p_parent p.
Proof. unfold wake. by destruct (_ && _). Qed.
Lemma wake_zombie ch p : p_state (wake ch p) = ZOMBIE ↔ p_state p = ZOMBIE.
Proof. unfold wake. destruct (bool_decide (p_state p = SLEEPING)) eqn:E; [|done]. apply bool_decide_eq_true in E. cbn [andb]. destruct (bool_decide _); [|done]. rewrite E. done. Qed.
Lemma wake_twice ch p : wake ch (wake ch p) = wake ch p.
Proof. unfold wake at 1. destruct (bool_decide (p_state (wake ch p) = SLEEPING) && bool_decide (p_chan (wake ch p) = Some ch)) eqn:E; [|done].
  apply andb_true_iff in E as [E1%bool_decide_eq_true E2%bool_decide_eq_true]. unfold wake in *. destruct (_ && _) eqn:E; [done|]. by rewrite !bool_decide_true in E. Qed.
Lemma wake_adopt ch c j p : wake ch (adopt c j p) = adopt c j (wake ch p).
Proof.
  unfold adopt. destruct (decide (p_parent p = Some c)); [rewrite decide_True by (by rewrite wake_parent)|by rewrite decide_False by (by rewrite wake_parent)]. unfold wake. destruct p as [? ? ? st ? ? ? ? chn ? ? ? ?]. unfold over; cbn. by destruct (_ && _).
Qed.
Lemma wake_dead ch c p : dead_child c (wake ch p) ↔ dead_child c p.
Proof. unfold dead_child. by rewrite wake_parent, wake_zombie. Qed.

(** After [m] turns of [reparent]. *)
Definition passed (c j : nat) (ps : list proc) (m : nat) : list proc :=
  (if decide (Exists (dead_child c) (take m ps)) then fmap (wake (ChProc j)) else id) ((adopt c j <$> take m ps) ++ drop m ps).

Lemma reparent_run c j s : initproc s = Some j → length (ptable s) = NPROC → reparent c s = Ok tt (s <| ptable := orphans c j (ptable s) |>).
Proof.
  intros Hj Hl. set (ps := ptable s) in *.
  assert (wp (reparent c) s (λ _ s', s' = s <| ptable := passed c j ps NPROC |>)) as ([] & s' & E & ->)%wp_elim.
  2:{ rewrite E. unfold passed, orphans. by rewrite take_ge, drop_ge, app_nil_r by lia. }
  apply (wp_for_range (λ m s', s' = s <| ptable := passed c j ps m |>) _ 0 NPROC); [|intros m s' Hm ->|done].
  { by destruct s. }
  rewrite Z.add_0_l, Nat2Z.id. destruct (lookup_lt_is_Some_2 ps m) as [x Hx]; [lia|].
  set (w := if decide (Exists (dead_child c) (take m ps)) then wake (ChProc j) else id).
  assert (Hpass : passed c j ps m = w <$> ((adopt c j <$> take m ps) ++ drop m ps)) by (unfold passed, w; destruct (decide _); [done|by rewrite list_fmap_id]).
  assert (Hw : p_parent (w x) = p_parent x ∧ (p_state (w x) = ZOMBIE ↔ p_state x = ZOMBIE)) by (unfold w; destruct (decide _); [split; [apply wake_parent|apply wake_zombie]|done]).
  destruct Hw as [Hwp Hwz]. assert (Hlm : length (adopt c j <$> take m ps) = m) by (rewrite length_fmap, length_take; lia).
  assert (Hpm : passed c j ps m !! m = Some (w x)).
  { rewrite Hpass, list_lookup_fmap, lookup_app_r by lia. rewrite Hlm, Nat.sub_diag, lookup_drop, Nat.add_0_r, Hx. done. }
  apply wp_bind. eapply wp_intro; [by apply (proc_at_ok m (w x))|]. rewrite Hwp.
  assert (Et : take (S m) ps = take m ps ++ [x]) by (by apply take_S_r). assert (Ed : drop m ps = x :: drop (S m) ps) by (by apply drop_S).
  assert (Hins : ∀ y, <[m := w y]> (passed c j ps m) = w <$> ((adopt c j <$> take m ps) ++ y :: drop (S m) ps)).
  { intros y. rewrite Hpass, Ed, !fmap_app. rewrite insert_app_r_alt by (rewrite length_fmap; lia). rewrite length_fmap, Hlm, Nat.sub_diag. done. }
  destruct (decide (p_parent x = Some c)) as [Hc|Hc].
  - rewrite bool_decide_true by done. apply wp_bind, wp_gets. change (initproc (s <| ptable := passed c j ps m |>)) with (initproc s). apply wp_bind.
    eapply wp_intro; [by apply (upd_proc_at_ok m (w x))|]. set (s1 := set_proc m _ _).
    assert (Ex : (w x) <| p_parent := initproc s |> = w (adopt c j x)).
    { rewrite Hj. unfold w. destruct (decide (Exists _ _)); [rewrite wake_adopt|]; unfold adopt, id; by rewrite decide_True by (by rewrite ?wake_parent). }
    assert (Et1 : ptable s1 = w <$> ((adopt c j <$> take (S m) ps) ++ drop (S m) ps)).
    { change (ptable s1) with (<[m := (w x) <| p_parent := initproc s |>]> (passed c j ps m)). rewrite Ex, Hins, Et. f_equal. rewrite fmap_app, <-app_assoc. done. }
    assert (Es : ∀ ps', s1 <| ptable := ps' |> = s <| ptable := ps' |>) by (intros ps'; unfold s1; clear; by destruct s).
    destruct (decide (p_state x = ZOMBIE)) as [Hz|Hz].
    + rewrite bool_decide_true by (by apply Hwz). rewrite Hj. unfold wakeup_proc, wakeup1. apply wp_modify. rewrite <-Es.
      assert (passed c j ps (S m) = wake (ChProc j) <$> ptable s1) as ->; [|clear; by destruct s1].
      rewrite Et1. unfold passed. rewrite decide_True by (rewrite Et; apply Exists_app; right; by left). rewrite <-list_fmap_compose. apply list_fmap_ext.
      intros i y _. unfold w, compose. destruct (decide _); [by rewrite wake_twice|done].
    + rewrite bool_decide_false by (by rewrite Hwz). apply wp_ret. rewrite <-Es.
      assert (passed c j ps (S m) = ptable s1) as ->; [|clear; by destruct s1]. rewrite Et1. unfold passed, w.
      assert (Exists (dead_child c) (take (S m) ps) ↔ Exists (dead_child c) (take m ps)) as Hiff.
      { rewrite Et, Exists_app, Exists_cons, Exists_nil. unfold dead_child. tauto. }
      destruct (decide (Exists _ (take (S m) ps))); [rewrite decide_True by tauto; done|rewrite decide_False by tauto; by rewrite list_fmap_id].
  - rewrite bool_decide_false by done. apply wp_ret.
    assert (passed c j ps (S m) = passed c j ps m) as ->; [|done]. rewrite Hpass. unfold passed, w.
    assert (Exists (dead_child c) (take (S m) ps) ↔ Exists (dead_child c) (take m ps)) as Hiff.
    { rewrite Et, Exists_app, Exists_cons, Exists_nil. unfold dead_child. tauto. }
    assert ((adopt c j <$> take (S m) ps) ++ drop (S m) ps = (adopt c j <$> take m ps) ++ drop m ps) as ->.
    { rewrite Et, Ed, fmap_app, <-app_assoc. cbn [fmap list_fmap app]. unfold adopt at 2. by rewrite decide_False. }
    destruct (decide (Exists _ (take (S m) ps))); [rewrite decide_True by tauto; done|rewrite decide_False by tauto; by rewrite list_fmap_id].
Qed.

(** The process [q], in slot [i], is running and about to end; its parent is in slot [c], and init in slot [j]. *)
Record exiting (s : kstate) (i : nat) (q : proc) (c j : nat) : Prop := {
  ex_held : held s = [];
  ex_cur : curproc s = Some i;
  ex_proc : ptable s !! i = Some q;
  ex_state : p_state q = RUNNING;
  ex_parent : p_parent q = Some c;
  ex_self : c ≠ i;
  ex_init : initproc s = Some j;
  ex_len : length (ptable s) = NPROC }.

(** The table after the process in slot [i] has ended. *)
Definition after_exit (i : nat) (q : proc) (c j : nat) (ps : list proc) : list proc :=
  <[i := q <| p_state := ZOMBIE |>]> (orphans i j (wake (ChProc c) <$> ps)).

Lemma orphans_lookup i j ps k x : ps !! k = Some x → ∃ w, (w = wake (ChProc j) ∨ w = id) ∧ orphans i j ps !! k = Some (w (adopt i j x)).
Proof.
  intros Hx. unfold orphans. destruct (decide _); [exists (wake (ChProc j))|exists id]; (split; [tauto|]).
  - rewrite !list_lookup_fmap, Hx. done.
  - unfold id. by rewrite list_lookup_fmap, Hx.
Qed.
Lemma length_orphans i j ps : length (orphans i j ps) = length ps.
Proof. unfold orphans. destruct (decide _); [by rewrite !length_fmap|unfold id; by rewrite length_fmap]. Qed.
Lemma wake_running ch p : p_state p = RUNNING → wake ch p = p.
Proof. intros E. unfold wake. by rewrite E. Qed.

Lemma become_zombie_run {A} s i q c j : exiting s i q c j →
  become_zombie (A:=A) i s = Sleeping (s <| held := [LPtable] |> <| ptable := after_exit i q c j (ptable s) |>).
Proof.
  intros [Hh Hcur Hi Hrun Hpar Hne Hj Hl]. unfold become_zombie.
  rewrite (bind_ok _ _ _ _ _ (acquire_ok LPtable s ltac:(rewrite Hh; apply not_elem_of_nil))). rewrite Hh. set (s1 := s <| held := [LPtable] |>).
  mstep_with (proc_at_ok i q s1 Hi). rewrite Hpar. unfold wakeup_proc, wakeup1. rewrite bind_modify. set (s2 := over ptable _ s1).
  rewrite (bind_ok _ _ _ _ _ (reparent_run i j s2 Hj ltac:(cbn; by rewrite length_fmap))). change (ptable s2) with (wake (ChProc c) <$> ptable s). set (s3 := s2 <| ptable := _ |>).
  assert (Hi3 : ptable s3 !! i = Some q).
  { destruct (orphans_lookup i j (wake (ChProc c) <$> ptable s) i q) as (w & Hw & E); [rewrite list_lookup_fmap, Hi; cbn; by rewrite wake_running|].
    change (ptable s3) with (orphans i j (wake (ChProc c) <$> ptable s)). rewrite E. f_equal. unfold adopt. rewrite decide_False by (rewrite Hpar; congruence).
    destruct Hw as [->| ->]; [by apply wake_running|done]. }
  rewrite (bind_ok _ _ _ _ _ (upd_proc_at_ok i q _ s3 Hi3)).
  rewrite (sched_ok _ i (q <| p_state := ZOMBIE |>)); [|exact Hcur|by apply (set_proc_lookup i _ q)|done|done]. reflexivity.
Qed.

(** * A child's end *)

Section child.
Context `{Linker} (Hlk : linker_ok).

Lemma remains_ext s s' q q' l : remains s q l → km s' = km s → LKmem ∉ held s' → p_pgdir q' = p_pgdir q → p_kstack q' = p_kstack q → remains s' q' l.
Proof.
  intros [[U1 [U2 U3 U4] U5 U6 U7 U8] R1 R2 R3] Ek Hn Eg Es. unfold mem in *.
  split; [|by rewrite Es|by rewrite Es|unfold mem; by rewrite Eg, Es, Ek]. rewrite Eg.
  split; unfold mem; rewrite ?Ek; [by intros _|split; unfold mem; rewrite ?Ek; done|done..].
Qed.

Lemma wake_sleeping ch p : p_state p = SLEEPING → p_chan p = Some ch → wake ch p = p <| p_state := RUNNABLE |>.
Proof. intros E1 E2. unfold wake. by rewrite !bool_decide_true. Qed.

(** The parent is asleep in [wait], and there is no other dead child. *)
Record awaited (s : kstate) (i : nat) (q : proc) (c j : nat) (pc : proc) : Prop := {
  aw_exiting : exiting s i q c j;
  aw_parent : ptable s !! c = Some pc;
  aw_sleeping : p_state pc = SLEEPING ∧ p_chan pc = Some (ChProc c);
  aw_up : p_parent pc ≠ Some i;
  aw_alive k x : ptable s !! k = Some x → ¬ dead_child c x ∧ ¬ dead_child i x }.

Lemma awaited_parent s i q c j pc : awaited s i q c j pc → after_exit i q c j (ptable s) !! c = Some (pc <| p_state := RUNNABLE |>).
Proof.
  intros [Hex Hpc [Hs Hch] Hup _]. unfold after_exit. rewrite list_lookup_insert_ne by (apply not_eq_sym, Hex).
  destruct (orphans_lookup i j (wake (ChProc c) <$> ptable s) c (pc <| p_state := RUNNABLE |>)) as (w & Hw & ->); [rewrite list_lookup_fmap, Hpc; cbn; by rewrite wake_sleeping|].
  f_equal. unfold adopt. rewrite decide_False by done. destruct Hw as [->| ->]; [|done]. unfold wake. by rewrite bool_decide_false.
Qed.

Lemma awaited_dead s i q c j pc : awaited s i q c j pc →
  list_find (dead_child c) (after_exit i q c j (ptable s)) = Some (i, q <| p_state := ZOMBIE |>).
Proof.
  intros [Hex Hpc _ _ Hal]. destruct Hex as [Hh Hcur Hi Hrun Hpar Hne Hj Hl]. assert (Hil : (i < length (ptable s))%nat) by (by eapply lookup_lt_Some).
  apply list_find_Some. split_and!.
  - apply list_lookup_insert_eq. by rewrite length_orphans, length_fmap.
  - by split.
  - intros k y Hk Hki. unfold after_exit in Hk. rewrite list_lookup_insert_ne in Hk by lia.
    destruct (lookup_lt_is_Some_2 (ptable s) k) as [x Hx]; [lia|].
    destruct (orphans_lookup i j (wake (ChProc c) <$> ptable s) k (wake (ChProc c) x)) as (w & Hw & E); [by rewrite list_lookup_fmap, Hx|].
    rewrite E in Hk. injection Hk as <-. destruct (Hal k x Hx) as [Hn1 Hn2]. intros Hd.
    assert (Hd' : dead_child c (adopt i j (wake (ChProc c) x))) by (destruct Hw as [->| ->]; [by apply wake_dead in Hd|done]).
    unfold adopt in Hd'. destruct (decide (p_parent x = Some i)) as [Hxi|Hxi].
    + rewrite decide_True in Hd' by (by rewrite wake_parent). apply Hn2. split; [done|]. apply (wake_zombie (ChProc c)). apply Hd'.
    + rewrite decide_False in Hd' by (by rewrite wake_parent). by apply Hn1, (wake_dead (ChProc c)).
Qed.

Lemma exit_wait_run s i q c j pc l : awaited s i q c j pc → remains s q l →
  ∃ s3 s4 l4, become_zombie (A:=unit) i s = Sleeping s3 ∧ ptable s3 !! c = Some (pc <| p_state := RUNNABLE |>)
    ∧ (switch_to c;; wait_resume) s3 = Ok (inr (p_pid q)) s4 ∧ held s4 = [] ∧ (∃ q', ptable s4 !! i = Some q' ∧ is_unused q')
    ∧ kmem_rep l4 s4 ∧ (∀ x, x ∈ l4 ↔ x = p_kstack q ∨ pool (mem s) (p_pgdir q) l x) ∧ (∀ b, PGROUNDDOWN b ∉ l4 → ld (mem s4) b = ld (mem s) b).
Proof.
  intros Haw Hrm. pose proof (awaited_parent _ _ _ _ _ _ Haw) as Hpc. pose proof (awaited_dead _ _ _ _ _ _ Haw) as Hfind.
  pose proof (aw_exiting _ _ _ _ _ _ Haw) as Hex. pose proof (ex_self _ _ _ _ _ Hex) as Hne. pose proof (ex_len _ _ _ _ _ Hex) as Hl.
  set (s3 := s <| held := [LPtable] |> <| ptable := after_exit i q c j (ptable s) |>).
  set (p1 := pc <| p_state := RUNNABLE |>) in *. set (p2 := p1 <| p_state := RUNNING |>). set (p3 := p2 <| p_chan := None |>).
  set (s3a := set_proc c p3 (s3 <| curproc := Some c |>)).
  assert (Hlen : length (ptable s3) = NPROC).
  { change (length (after_exit i q c j (ptable s)) = NPROC). unfold after_exit. by rewrite length_insert, length_orphans, length_fmap. }
  assert (Hlo : looking s3a c p3) by (split; [done|done|by apply (set_proc_lookup c p3 p1)|change (length (<[c := p3]> (ptable s3)) = NPROC); by rewrite length_insert]).
  assert (Hf3 : list_find (dead_child c) (ptable s3a) = Some (i, q <| p_state := ZOMBIE |>)).
  { change (ptable s3a) with (<[c := p3]> (after_exit i q c j (ptable s))). apply list_find_Some in Hfind as (F1 & F2 & F3). apply list_find_Some. split_and!; [by rewrite list_lookup_insert_ne|done|].
    intros k y Hk Hki. destruct (decide (k = c)) as [->|Hkc].
    - rewrite list_lookup_insert_eq in Hk by (by eapply lookup_lt_Some). injection Hk as <-. intros [_ Hz]. done.
    - rewrite list_lookup_insert_ne in Hk by done. by apply (F3 k). }
  pose proof (wait_loop_run Hlk s3a c p3 Hlo) as Hw. rewrite Hf3 in Hw.
  destruct (Hw l) as (s4 & l4 & E4 & [R1 R2 R3 R4 R5 R6]).
  { apply (remains_ext s _ q); [done|done| |done|done]. change (held s3a) with [LPtable]. set_solver. }
  exists s3, s4, l4. split_and!.
  - by rewrite (become_zombie_run s i q c j Hex).
  - exact Hpc.
  - unfold switch_to. rewrite bind_assoc, bind_modify. mstep_with (upd_proc_at_ok c p1 (λ p, p <| p_state := RUNNING |>) (s3 <| curproc := Some c |>) Hpc). fold p2.
    unfold wait_resume, sleep_resume, upd_cur. rewrite !bind_assoc. set (s3b := set_proc c p2 (s3 <| curproc := Some c |>)).
    mstep_with (curindex_ok c s3b eq_refl). mstep_with (upd_proc_at_ok c p2 (λ p, p <| p_chan := None |>) s3b (set_proc_lookup c p2 p1 (s3 <| curproc := Some c |>) Hpc)).
    fold p3. unfold s3b. rewrite set_proc_twice. change (bool_decide (LPtable = LPtable)) with true. cbv iota. rewrite bind_mret. exact E4.
  - pose proof (f_equal held R1) as E. exact E.
  - exists (buried (q <| p_state := ZOMBIE |>)). split; [|done]. rewrite R2. apply list_lookup_insert_eq. eapply lookup_lt_Some. by apply list_find_Some in Hf3 as (? & _).
  - done.
  - done.
  - done.
Qed.
End child.

(** * Properties *)

(** a round of [wait] with the lock of the process table.  When there is a dead child, the first one in the table is buried: [wait] returns its pid, its slot
    is free, and its stack, its page table and the pages of its memory are with the free pages, with nothing else changed.  Otherwise [wait]
    returns -1 when there is no child or the process has been killed, and sleeps when there is one, on the address its children wake. *)
Theorem wait_correct `{Linker} (s : kstate) (c : nat) (p : proc) :
  linker_ok → held s = [] → curproc s = Some c → ptable s !! c = Some p → length (ptable s) = NPROC →
  match list_find (dead_child c) (ptable s) with
  | Some (i, q) => ∀ l, remains s q l → ∃ s' l', wait s = Ok (inr (p_pid q)) s' ∧ reaped s i q l s' l'
  | None => wait s = if decide (childless s c ∨ p_killed p ≠ 0) then Ok (inr (-1)) s else Ok (inl tt) (sleeps_on (ChProc c) c (s <| held := [LPtable] |>))
  end.
Proof.
  intros Hlk Hh Hc Hp Hl. rewrite (wait_held s Hh). set (s1 := s <| held := [LPtable] |>). pose proof (wait_loop_run Hlk s1 c p) as Hw.
  specialize (Hw ltac:(by split)). change (ptable s1) with (ptable s) in Hw. destruct (list_find (dead_child c) (ptable s)) as [[i q]|].
  - intros l Hr. destruct (Hw l) as (s' & l' & E & [R1 R2 R3 R4 R5 R6]).
    { apply (remains_ext s s1 q q); [done|done| |done|done]. change (held s1) with [LPtable]. set_solver. }
    exists s', l'. split; [done|]. by split.
  - assert (s1 <| held := [] |> = s) as E by (unfold s1; rewrite <-Hh; clear; by destruct s). by rewrite Hw, E.
Qed.

(** C14: the life of a child.  [fork] makes it in slot [i] with a stack and memory from the free pages [l]; it may then change its memory in any way
    that keeps its own pages and the free ones together the same.  When it ends while its parent is asleep in [wait], the parent is woken; when it is
    scheduled, [wait] returns the child's pid, the child's slot is free again, and every page that was free before
    [fork] is free again. *)
Theorem fork_exit_wait `{Linker} `{Kernel_image} (s : kstate) (c : nat) (p : proc) (l : list Z) (i : nat) (ks d : Z) (s1 : kstate) (l1 : list Z)
    (s2 : kstate) (q : proc) (j : nat) (pc : proc) (l2 : list Z) :
  linker_ok → caller s c p l → fork s = Ok (nextpid s) s1 → forked s c p l i ks d s1 l1 →
  awaited s2 i q c j pc → p_pgdir q = d → p_kstack q = ks → uvm d s2 l2 → (∀ x, pool (mem s2) d l2 x ↔ pool (mem s1) d l1 x) →
  ∃ s3 s4 l4, become_zombie (A:=unit) i s2 = Sleeping s3 ∧ (∃ pc', ptable s3 !! c = Some pc' ∧ p_state pc' = RUNNABLE)
    ∧ (switch_to c;; wait_resume) s3 = Ok (inr (p_pid q)) s4 ∧ held s4 = [] ∧ (∃ q', ptable s4 !! i = Some q' ∧ is_unused q')
    ∧ kmem_rep l4 s4 ∧ (∀ x, x ∈ l4 ↔ x ∈ l) ∧ ∀ b, PGROUNDDOWN b ∉ l → ld (mem s4) b = ld (mem s2) b.
Proof.
  intros Hlk Hc _ Hf Haw Hd Hks Hu2 Hpool. pose proof (kr_page _ _ (uv_rep _ _ _ (ca_uvm _ _ _ _ Hc))) as Hpg. rewrite Forall_forall in Hpg.
  destruct (fk_stack _ _ _ _ _ _ _ _ _ Hf) as [Hs1 Hs2]. pose proof (fk_pages _ _ _ _ _ _ _ _ _ Hf) as Hl.
  assert (Hno : ¬ pool (mem s2) d l2 ks) by (rewrite Hpool; intros [?|?]; done).
  assert (Hrm : remains s2 q l2).
  { split; rewrite ?Hd, ?Hks; [done|apply Hpg, Hl; by left|intros ?; apply Hno; by left|intros ?; apply Hno; by right]. }
  destruct (exit_wait_run Hlk s2 i q c j pc l2 Haw Hrm) as (s3 & s4 & l4 & E3 & Hpc & E4 & Hh & Hq & Hr & Hl4 & Hm).
  assert (Hll : ∀ x, x ∈ l4 ↔ x ∈ l) by (intros x; rewrite Hl4, Hl, Hd, Hks, Hpool; unfold pool; tauto).
  exists s3, s4, l4. split_and!; [done|by eexists|done|done|done|done|done|]. intros b Hb. apply Hm. by rewrite Hll.
Qed.

(** A process and its dead child, whose page table is the first page after the kernel. *)
Definition dead_proc : proc :=
  mk_proc 0 page0 (page0 + PGSIZE * 1200) ZOMBIE 2 (Some 0%nat) 0 0 None 0 (replicate NOFILE None) None [].
Definition wait_vm : kstate := fork_vm <| ptable := demo_proc RUNNING 1 :: dead_proc :: replicate 62 blank_proc |> <| curproc := Some 0%nat |>.

Lemma dead_remains : remains (H := demo_linker) wait_vm dead_proc big_pages.
Proof.
  destruct big_vm_facts as ([U1 [U2 U3 U4] U5 U6 U7 U8] & _ & Hown). split.
  - by split.
  - split; [reflexivity|]. split; [vm_compute; intros [=]|]. split; [split; reflexivity|reflexivity].
  - by apply (bool_decide_eq_false_1 (page0 + PGSIZE * 1200 ∈ big_pages)).
  - intros Hb. by apply Hown in Hb.
Qed.

Lemma wait_correct_witness :
  ∃ s' l', wait (H := demo_linker) wait_vm = Ok (inr 2) s' ∧ ptable s' !! 1%nat = Some (buried dead_proc) ∧ page0 ∈ l' ∧ kmem_rep (H := demo_linker) l' s'.
Proof.
  pose proof (@wait_correct demo_linker wait_vm 0%nat (demo_proc RUNNING 1) demo_linker_ok eq_refl eq_refl eq_refl eq_refl) as Hw.
  assert (Hf : list_find (dead_child 0) (ptable wait_vm) = Some (1%nat, dead_proc)) by (vm_compute; reflexivity). rewrite Hf in Hw. clear Hf.
  destruct (Hw big_pages dead_remains) as (s' & l' & E & [_ R2 _ R4 R5 _]). exists s', l'. split; [exact E|]. rewrite R2. split; [reflexivity|].
  split; [apply R5; right; right; left; left; reflexivity|exact R4].
Defined.

(** The child that [fork_vm]'s process makes, running, while its parent sleeps in [wait]. *)
Definition running_child (ks d : Z) : proc := (child_of 0 demo_parent 2 ks d blank_proc) <| p_state := RUNNING |>.
Definition sleeping_parent : proc := demo_parent <| p_state := SLEEPING |> <| p_chan := Some (ChProc 0) |>.
Definition later (i : nat) (ks d : Z) (s : kstate) : kstate :=
  s <| ptable := <[0%nat := sleeping_parent]> (<[i := running_child ks d]> (ptable fork_vm)) |> <| curproc := Some i |> <| initproc := Some 0%nat |> <| held := [] |>.

Lemma fork_vm_slots k x : ptable fork_vm !! k = Some x → k = 0%nat ∧ x = demo_parent ∨ k ≠ 0%nat ∧ x = blank_proc.
Proof.
  destruct k as [|k]; [intros [= <-]; by left|]. intros Hx. change (replicate 63 blank_proc !! k = Some x) in Hx. apply lookup_replicate in Hx as [-> _]. by right.
Qed.

Lemma later_awaited i ks d s : (0 < i < 64)%nat → awaited (later i ks d s) i (running_child ks d) 0 0 sleeping_parent.
Proof.
  intros Hi. assert (Hl : length (ptable fork_vm) = 64%nat) by done. split.
  - split; try done; [|lia|].
    + change (<[0%nat := sleeping_parent]> (<[i := running_child ks d]> (ptable fork_vm)) !! i = Some (running_child ks d)).
      rewrite list_lookup_insert_ne by lia. apply list_lookup_insert_eq. rewrite Hl. lia.
    + change (length (<[0%nat := sleeping_parent]> (<[i := running_child ks d]> (ptable fork_vm))) = 64%nat). by rewrite !length_insert.
  - apply list_lookup_insert_eq. rewrite length_insert, Hl. lia.
  - done.
  - done.
  - intros k x Hk. change (<[0%nat := sleeping_parent]> (<[i := running_child ks d]> (ptable fork_vm)) !! k = Some x) in Hk.
    assert (p_state x ≠ ZOMBIE); [|by split; intros [_ ?]]. rewrite !list_lookup_insert in Hk. repeat case_decide; try (by injection Hk as <-).
    by apply fork_vm_slots in Hk as [[_ ->]|[_ ->]].
Qed.

Lemma fork_exit_wait_witness :
  ∃ s s1 i ks d s3 s4 l l4, fork (H := demo_linker) (H1 := demo_image) s = Ok 2 s1 ∧ become_zombie (A:=unit) i (later i ks d s1) = Sleeping s3
    ∧ (switch_to 0;; wait_resume (H := demo_linker)) s3 = Ok (inr 2) s4 ∧ kmem_rep (H := demo_linker) l s ∧ kmem_rep (H := demo_linker) l4 s4 ∧ ∀ x, x ∈ l4 ↔ x ∈ l.
Proof.
  destruct fork_vm_grown as (s & l & _ & Hc & Hlen & Ht & Hft & Hnp & _).
  destruct (@fork_run demo_linker demo_image demo_linker_ok s 0%nat demo_parent l Hc) as [(i & ks & d & s1 & l1 & E' & Hf)|(s' & l' & _ & _ & [Hbad|Hbad])].
  - pose proof (fk_state _ _ _ _ _ _ _ _ _ Hf) as (q & cwd & Hq & Huq & _). rewrite Ht in Hq.
    assert (Hi : (0 < i < 64)%nat).
    { pose proof (lookup_lt_Some _ _ _ Hq) as Hlt. change (length (ptable fork_vm)) with 64%nat in Hlt.
      apply fork_vm_slots in Hq as [[_ ->]|[Hne _]]; [discriminate Huq|]. clear - Hlt Hne. lia. }
    pose proof (later_awaited i ks d s1 Hi) as Haw.
    destruct (@fork_exit_wait demo_linker demo_image s 0%nat demo_parent l i ks d s1 l1 (later i ks d s1) (running_child ks d) 0%nat sleeping_parent l1 demo_linker_ok Hc E' Hf Haw eq_refl eq_refl)
      as (s3 & s4 & l4 & E3 & _ & E4 & _ & _ & Hr & Hl & _).
    + destruct (fk_child _ _ _ _ _ _ _ _ _ Hf) as [U1 [U2 U3 U4] U5 U6 U7 U8]. split; [intros _; apply not_elem_of_nil|split; assumption|assumption|assumption|assumption|assumption].
    + intros x. reflexivity.
    + rewrite Hnp in E'. exists s, s1, i, ks, d, s3, s4, l, l4. split; [exact E'|]. split; [exact E3|]. split; [exact E4|]. split; [exact (uv_rep _ _ _ (ca_uvm _ _ _ _ Hc))|]. split; [exact Hr|exact Hl].
  - exfalso. apply (Hbad 1%nat blank_proc); [rewrite Ht|]; exact eq_refl.
  - exfalso. change (PGROUNDUP _ / PGSIZE) with 1 in Hbad. clear - Hlen Hbad. lia.
Defined.
