(* ===== verification/Print.v ===== *)
(** Printing numbers and formats: [printint] and [printf] of the user library
    ([printf.c]) and [printint] and [cprintf] of the console ([console.c]).  Characters are
    their codes; a run of the formatting code is the list of characters it puts out. *)
From S2P Require Export CString.

(** * Digits *)

(** The tables of the two [printint]s. *)
Definition upper_digits : list Z := [48;49;50;51;52;53;54;55;56;57;65;66;67;68;69;70].
Definition lower_digits : list Z := [48;49;50;51;52;53;54;55;56;57;97;98;99;100;101;102].

(** The [do] loop, the buffer growing at its end; every turn divides [x] by [base], so
    32 turns are enough for 32 bits. *)
Fixpoint digits_loop (digits : list Z) (base : Z) (fuel : nat) (x : Z) (buf : list Z) : list Z :=
  match fuel with
  | O => buf
  | S fuel =>
      let buf := buf ++ [digits !!! Z.to_nat (x mod base)] in
      if x / base =? 0 then buf else digits_loop digits base fuel (x / base) buf
  end.

(** Both functions fill the buffer from the least digit on, add the sign and print
    the buffer backwards. *)
Definition printint_with (digits : list Z) (xx base : Z) (sgn : bool) : list Z :=
  let neg := sgn && (xx <? 0) in
  let x := if neg then u32 (- xx) else u32 xx in
  let buf := digits_loop digits base 32 x [] in
  let buf := if neg then buf ++ [45] else buf in
  rev buf.

(** ** printf.c *)
Module Ulib.
Definition printint (xx base : Z) (sgn : bool) : list Z := printint_with upper_digits xx base sgn.

(** An argument of [printf]: a word, or a pointer to a string, possibly null. *)
Inductive arg := AWord (w : Z) | AStr (s : option (list Z)).

Definition null_string : list Z := [40; 110; 117; 108; 108; 41].

(** The state machine of [printf] over the format ([pct]: after a percent sign), with the arguments not used yet; [None] for
    a missing argument or one of the wrong kind, which C leaves undefined. *)
Fixpoint printf_loop (fmt : list Z) (pct : bool) (ap : list arg) : option (list Z) :=
  match fmt with
  | [] => Some []
  | c0 :: fmt =>
      if c0 =? 0 then Some [] else
      let c := Z.land c0 255 in
      if negb pct then
        if c =? 37 then printf_loop fmt true ap
        else out ← printf_loop fmt false ap; Some (c :: out)
      else
        if c =? 100 then
          match ap with
          | AWord w :: ap => out ← printf_loop fmt false ap; Some (printint (i32 w) 10 true ++ out)
          | _ => None
          end
        else if (c =? 120) || (c =? 112) then
          match ap with
          | AWord w :: ap => out ← printf_loop fmt false ap; Some (printint (i32 w) 16 false ++ out)
          | _ => None
          end
        else if c =? 115 then
          match ap with
          | AStr s :: ap =>
              let s := match s with Some s => cstr s | None => null_string end in
              out ← printf_loop fmt false ap; Some (s ++ out)
          | _ => None
          end
        else if c =? 99 then
          match ap with
          | AWord w :: ap => out ← printf_loop fmt false ap; Some (u8 w :: out)
          | _ => None
          end
        else if c =? 37 then out ← printf_loop fmt false ap; Some (c :: out)
        else out ← printf_loop fmt false ap; Some (37 :: c :: out)
  end.
Definition printf (fmt : list Z) (ap : list arg) : option (list Z) := printf_loop fmt false ap.
End Ulib.

(** ** console.c *)
Definition printint (xx base : Z) (sign : bool) : list Z := printint_with lower_digits xx base sign.

(** The characters [cprintf] passes to [consputc]. *)
Fixpoint cprintf_chars (fmt : list Z) (argp : list Ulib.arg) : option (list Z) :=
  match fmt with
  | [] => Some []
  | c0 :: fmt =>
      let c := Z.land c0 255 in
      if c =? 0 then Some [] else
      if negb (c =? 37) then out ← cprintf_chars fmt argp; Some (c :: out) else
      match fmt with
      | [] => Some []
      | c1 :: fmt =>
          let c := Z.land c1 255 in
          if c =? 0 then Some [] else
          if c =? 100 then
            match argp with
            | Ulib.AWord w :: argp => out ← cprintf_chars fmt argp; Some (printint (i32 w) 10 true ++ out)
            | _ => None
            end
          else if (c =? 120) || (c =? 112) then
            match argp with
            | Ulib.AWord w :: argp => out ← cprintf_chars fmt argp; Some (printint (i32 w) 16 false ++ out)
            | _ => None
            end
          else if c =? 115 then
            match argp with
            | Ulib.AStr s :: argp =>
                let s := match s with Some s => cstr s | None => Ulib.null_string end in
                out ← cprintf_chars fmt argp; Some (s ++ out)
            | _ => None
            end
          else if c =? 37 then out ← cprintf_chars fmt argp; Some (37 :: out)
          else out ← cprintf_chars fmt argp; Some (37 :: c :: out)
      end
  end.

(** * The digits are those of the number *)

(** What the loop appends: the digits of [x], least first. *)
Fixpoint digits_of (base : Z) (fuel : nat) (x : Z) : list Z :=
  match fuel with
  | O => []
  | S fuel => x mod base :: (if x / base =? 0 then [] else digits_of base fuel (x / base))
  end.
Fixpoint digits_value (base : Z) (ds : list Z) : Z :=
  match ds with [] => 0 | d :: ds => d + base * digits_value base ds end.

Lemma digits_loop_eq digits base fuel x buf :
  digits_loop digits base fuel x buf = buf ++ ((λ d, digits !!! Z.to_nat d) <$> digits_of base fuel x).
Proof.
  revert x buf. induction fuel as [|fuel IH]; intros x buf; simpl; [by rewrite app_nil_r|].
  destruct (x / base =? 0); [done|]. by rewrite IH, <- app_assoc.
Qed.

Lemma digits_of_value base fuel x : 1 < base → 0 ≤ x < base ^ Z.of_nat fuel → digits_value base (digits_of base fuel x) = x.
Proof.
  intros Hb. revert x. induction fuel as [|fuel IH]; intros x Hx; simpl.
  { change (Z.of_nat 0) with 0 in Hx. rewrite Z.pow_0_r in Hx. lia. }
  rewrite Nat2Z.inj_succ, Z.pow_succ_r in Hx by lia.
  destruct (Z.eqb_spec (x / base) 0) as [E|E]; simpl.
  - pose proof (Z.div_mod x base). lia.
  - rewrite IH; [pose proof (Z.div_mod x base); lia|].
    split; [apply Z.div_pos; lia|]. apply Z.div_lt_upper_bound; lia.
Qed.

Lemma digits_of_bound base fuel x : 0 < base → Forall (λ d, 0 ≤ d < base) (digits_of base fuel x).
Proof.
  intros Hb. revert x. induction fuel as [|fuel IH]; intros x; simpl; [apply Forall_nil; done|].
  apply Forall_cons. split; [by apply Z.mod_pos_bound|]. destruct (x / base =? 0); [by apply Forall_nil|apply IH].
Qed.

Lemma digit_char ds d : ds = upper_digits ∨ ds = lower_digits → 0 ≤ d < 10 → ds !!! Z.to_nat d = 48 + d.
Proof.
  intros Hds Hd. assert (d ∈ seqZ 0 10) as Hin by (apply elem_of_seqZ; lia).
  assert (Forall (λ d, ds !!! Z.to_nat d = 48 + d) (seqZ 0 10)) as Hf by (destruct Hds as [-> | ->]; by_decide).
  rewrite Forall_forall in Hf. by apply Hf.
Qed.

(** [atoi] on digits: it reads them most significant first. *)
Lemma atoi_loop_snoc l c n :
  Forall (λ c, 48 ≤ c ≤ 57) l → 48 ≤ c ≤ 57 →
  Ulib.atoi_loop (l ++ [c]) n = i32 (Ulib.atoi_loop l n * 10 + c - 48).
Proof.
  intros Hl Hc. revert n. induction Hl as [|x l Hx _ IH]; intros n; simpl.
  - rewrite (proj2 (Z.leb_le _ _)), (proj2 (Z.leb_le _ _)) by lia. done.
  - rewrite (proj2 (Z.leb_le _ _)), (proj2 (Z.leb_le _ _)) by lia. simpl. apply IH.
Qed.

Lemma atoi_digits ds :
  Forall (λ d, 0 ≤ d < 10) ds → 0 ≤ digits_value 10 ds < 2147483648 →
  Ulib.atoi_loop (rev ((λ d, 48 + d) <$> ds)) 0 = digits_value 10 ds.
Proof.
  induction 1 as [|d ds Hd Hds IH]; [done|]. rewrite fmap_cons. cbn [rev digits_value]. intros Hv.
  assert (0 ≤ digits_value 10 ds) by (clear -Hds; induction Hds; simpl; lia).
  rewrite atoi_loop_snoc; [|apply Forall_rev, Forall_fmap; eapply Forall_impl; [exact Hds|]; simpl; intros; lia|lia].
  rewrite IH by lia. rewrite i32_small; lia.
Qed.

Lemma printint_digits digits x :
  digits = upper_digits ∨ digits = lower_digits → 0 ≤ x < 4294967296 →
  digits_loop digits 10 32 x [] = (λ d, 48 + d) <$> digits_of 10 32 x.
Proof.
  intros Hds Hx. rewrite digits_loop_eq, app_nil_l. apply list_fmap_ext. intros i d Hd.
  apply digit_char; [done|]. pose proof (digits_of_bound 10 32 x ltac:(lia)) as Hf. rewrite Forall_lookup in Hf. by eapply Hf.
Qed.

(** * Properties *)

(** Printing a number in decimal and reading it back with [atoi] gives the number, for both the
    user's and the kernel's [printint]; a negative number is a minus sign and its absolute value. *)
Theorem printint_atoi (n : Z) :
  -2147483648 < n < 2147483648 →
  (0 ≤ n → Ulib.atoi (Ulib.printint n 10 true) = n ∧ Ulib.atoi (printint n 10 true) = n)
  ∧ (n < 0 → ∃ d, Ulib.printint n 10 true = 45 :: d ∧ printint n 10 true = 45 :: d ∧ Ulib.atoi d = - n).
Proof.
  assert (∀ ds x, ds = upper_digits ∨ ds = lower_digits → 0 ≤ x < 2147483648 →
    Ulib.atoi (rev (digits_loop ds 10 32 x [])) = x) as Hback.
  { intros ds x Hds Hx. rewrite printint_digits by (done || lia). unfold Ulib.atoi.
    rewrite atoi_digits; rewrite ?digits_of_value; try lia. by apply digits_of_bound. }
  intros Hn. unfold Ulib.printint, printint, printint_with. rewrite andb_true_l. split; intros Hs.
  - rewrite (proj2 (Z.ltb_ge _ _)) by lia. cbv zeta iota. rewrite u32_small by lia. split; apply Hback; solve [auto | lia].
  - rewrite (proj2 (Z.ltb_lt _ _)) by lia. cbv zeta iota. rewrite u32_small by lia. rewrite !rev_app_distr. change (rev [45]) with [45].
    exists (rev (digits_loop upper_digits 10 32 (- n) [])). split_and!; [done| |apply Hback; solve [auto | lia]].
    by rewrite !printint_digits by (auto || lia).
Qed.

Lemma printint_atoi_witness :
  -2147483648 < -360 < 2147483648
  ∧ ∃ d, Ulib.printint (-360) 10 true = 45 :: d ∧ printint (-360) 10 true = 45 :: d ∧ Ulib.atoi d = 360.
Proof. split; [lia|]. apply (printint_atoi (-360)); lia. Defined.
