(* ===== verification/Console.v ===== *)
(** The console ([console.c]): output, the editing of input lines and their delivery to
    readers; and the keyboard's [procdump] listing of [proc.c].

    Output is the list of the codes passed to [consputc], newest first; the serial port and the screen
    get each of them.  The screen's memory and cursor, which only [cgaputc] uses, are modelled apart. *)
From S2P Require Export Print Proc.

Definition CONSOLE : Z := 1.
Definition BACKSPACE : Z := 256.
(** The control character of a letter. *)
Definition C (x : Z) : Z := x - 64.

Definition upd_cons (f : console → console) : K unit := modify (λ s, s <| cons ::= f |>).

(** The code is recorded; [Uart.echo] passes the codes of a run on to the serial port, with [Uart.consputc_serial], and [cgaputc] below shows one on
    the screen.  The loop that stops the machine when [panicked] is set is not reached: a run ends with its first [panic]. *)
Definition consputc (c : Z) : K unit := upd_cons (λ t, t <| c_out ::= λ o, c :: o |>).

Fixpoint consputs (cs : list Z) : K unit :=
  match cs with [] => mret tt | c :: cs => consputc c;; consputs cs end.

(** An argument that is missing or of the wrong kind is undefined in C. *)
Definition cprintf (fmt : list Z) (argp : list Ulib.arg) : K unit :=
  locking ← gets (λ s, c_locking (cons s));
  (if (locking : bool) then acquire LCons else mret tt);;
  match cprintf_chars fmt argp with
  | None => trap
  | Some cs =>
      consputs cs;;
      if (locking : bool) then release LCons else mret tt
  end.

(** ** The screen *)

(** The cursor, as the CRT controller keeps it, and the cells of [crt]. *)
Record cga := mk_cga { g_pos : Z; g_cells : gmap Z Z }.

Definition crt_blank (m : gmap Z Z) (i : Z) (n : nat) : gmap Z Z := foldl (λ m k, <[i + Z.of_nat k := 0]> m) m (seq 0 n).
(** [memmove(crt, crt+80, ...)]: [n] cells, upwards. *)
Definition crt_scroll (m : gmap Z Z) (n : nat) : gmap Z Z :=
  foldl (λ m' k, <[Z.of_nat k := default 0 (m !! (Z.of_nat k + 80))]> m') m (seq 0 n).

(** [None] is the panic ["pos under/overflow"]. *)
Definition cgaputc (c : Z) (g : cga) : option cga :=
  let pos := g_pos g in
  let '(pos, m) :=
    if c =? 10 then (pos + (80 - pos mod 80), g_cells g)
    else if c =? BACKSPACE then (if 0 <? pos then pos - 1 else pos, g_cells g)
    else (pos + 1, <[pos := Z.lor (Z.land c 255) 1792]> (g_cells g)) in
  if (pos <? 0) || (25 * 80 <? pos) then None else
  let '(pos, m) :=
    if 24 <=? pos / 80 then
      let m := crt_scroll m (Z.to_nat (23 * 80)) in
      let pos := pos - 80 in
      (pos, crt_blank m pos (Z.to_nat (24 * 80 - pos)))
    else (pos, m) in
  Some (mk_cga (u16 pos) (<[pos := Z.lor 32 1792]> m)).

(** ** Input *)

(** The array index of a counter. *)
Definition ring (x : Z) : nat := Z.to_nat (x mod INPUT_BUF).

Definition kill_line : K unit :=
  iterM (S (Z.to_nat INPUT_BUF)) (λ _ : unit,
    t ← gets cons;
    if negb (c_e t =? c_w t) && negb (c_buf t !!! ring (u32 (c_e t - 1)) =? 10) then
      upd_cons (λ t, t <| c_e ::= λ e, u32 (e - 1) |>);;
      consputc BACKSPACE;;
      mret (inl tt)
    else mret (inr tt)) tt.

(** The effect of one character; the result says whether a listing was asked for. *)
Definition console_key (c : Z) : K bool :=
  if c =? C 80 then mret true else
  if c =? C 85 then kill_line;; mret false else
  if (c =? C 72) || (c =? 127) then
    t ← gets cons;
    (if negb (c_e t =? c_w t) then
       upd_cons (λ t, t <| c_e ::= λ e, u32 (e - 1) |>);;
       consputc BACKSPACE
     else mret tt);;
    mret false
  else
    t ← gets cons;
    (if negb (c =? 0) && (u32 (c_e t - c_r t) <? INPUT_BUF) then
       let c := if c =? 13 then 10 else c in
       upd_cons (λ t, t <| c_buf ::= <[ring (c_e t) := c]> |> <| c_e ::= λ e, u32 (e + 1) |>);;
       consputc c;;
       t ← gets cons;
       if (c =? 10) || (c =? C 68) || (c_e t =? u32 (c_r t + INPUT_BUF)) then
         upd_cons (λ t, t <| c_w := c_e t |>);;
         wakeup ChCons
       else mret tt
     else mret tt);;
    mret false.

(** The loop over what [getc] returns until it returns a negative number. *)
Fixpoint console_keys (keys : list Z) (doprocdump : bool) : K bool :=
  match keys with
  | [] => mret doprocdump
  | c :: keys => b ← console_key c; console_keys keys (doprocdump || b)
  end.

(** [getcallerpcs] from the frame pointer [ebp]; [n] entries are left to fill. *)
Fixpoint getcallerpcs (m : gmap Z Z) (ebp : Z) (n : nat) : list Z :=
  match n with
  | O => []
  | S n =>
      if (ebp =? 0) || (ebp <? KERNBASE) || (ebp =? 4294967295) then replicate (S n) 0
      else ld32 m (u32 (ebp + 4)) :: getcallerpcs m (ld32 m ebp) n
  end.

Definition CTX_ebp : Z := 12.

(** The table [states] of [procdump]. *)
Definition state_name (st : procstate) : list Z :=
  match st with
  | UNUSED => [117; 110; 117; 115; 101; 100; 0]
  | EMBRYO => [101; 109; 98; 114; 121; 111; 0]
  | SLEEPING => [115; 108; 101; 101; 112; 32; 0]
  | RUNNABLE => [114; 117; 110; 98; 108; 101; 0]
  | RUNNING => [114; 117; 110; 32; 32; 32; 0]
  | ZOMBIE => [122; 111; 109; 98; 105; 101; 0]
  end.

Fixpoint print_pcs (pcs : list Z) : K unit :=
  match pcs with
  | [] => mret tt
  | pc :: pcs => if pc =? 0 then mret tt else cprintf [32; 37; 112; 0] [Ulib.AWord pc];; print_pcs pcs
  end.

Definition procdump : K unit :=
  for_range 0 NPROC (λ k,
    p ← proc_at (Z.to_nat k);
    if bool_decide (p_state p = UNUSED) then mret tt else
    cprintf [37; 100; 32; 37; 115; 32; 37; 115; 0]
      [Ulib.AWord (p_pid p); Ulib.AStr (Some (state_name (p_state p))); Ulib.AStr (Some (p_name p))];;
    (if bool_decide (p_state p = SLEEPING) then
       ebp ← load32 (p_context p + CTX_ebp);
       s ← get;
       print_pcs (getcallerpcs (mem s) ebp 10)
     else mret tt);;
    cprintf [10; 0] []).

Definition consoleintr (keys : list Z) : K unit :=
  acquire LCons;;
  dump ← console_keys keys false;
  release LCons;;
  if (dump : bool) then procdump else mret tt.

(** ** Reading and writing *)

(** A turn of the loop of [consoleread]: [n] bytes are still wanted, [dst] has been
    stored; [inr (inl _)] when the process sleeps. *)
Definition consoleread_body (ip : nat) (target : Z) :
    Z * list Z → K ((Z * list Z) + ((Z * list Z) + (Z * list Z))) := λ '(n, dst),
  let finish := release LCons;; ilock (Some ip);; mret (inr (inr (target - n, dst))) in
  if 0 <? n then
    t ← gets cons;
    if c_r t =? c_w t then
      k ← killed;
      if (k : bool) then
        release LCons;;
        ilock (Some ip);;
        mret (inr (inr (-1, dst)))
      else
        suspend (sleep ChCons LCons) tt;;
        mret (inr (inl (n, dst)))
    else
      let c := c_buf t !!! ring (c_r t) in
      upd_cons (λ t, t <| c_r ::= λ r, u32 (r + 1) |>);;
      if c =? C 68 then
        (if n <? target then upd_cons (λ t, t <| c_r ::= λ r, u32 (r - 1) |>) else mret tt);;
        finish
      else if c =? 10 then
        release LCons;; ilock (Some ip);; mret (inr (inr (target - (n - 1), dst ++ [c])))
      else mret (inl (n - 1, dst ++ [c]))
  else finish.

Definition consoleread_loop (ip : nat) (target : Z) (n : Z) (dst : list Z) : K ((Z * list Z) + (Z * list Z)) :=
  iterM (S (Z.to_nat n)) (consoleread_body ip target) (n, dst).

Definition consoleread (ip : nat) (n : Z) : K ((Z * list Z) + (Z * list Z)) :=
  iunlock (Some ip);;
  acquire LCons;;
  consoleread_loop ip n n [].
Definition consoleread_resume (ip : nat) (target : Z) (p : Z * list Z) : K ((Z * list Z) + (Z * list Z)) :=
  sleep_resume LCons;;
  consoleread_loop ip target (fst p) (snd p).

Definition consolewrite (ip : nat) (buf : list Z) (n : Z) : K Z :=
  iunlock (Some ip);;
  acquire LCons;;
  consputs ((λ b, Z.land b 255) <$> take (Z.to_nat n) buf);;
  release LCons;;
  ilock (Some ip);;
  mret n.

(** The device table after [consoleinit]. *)
Definition console_devsw : Devsw := {|
  dev_read := λ d, if d =? CONSOLE then Some (λ ip n, o ← consoleread ip n; finish o) else None;
  dev_write := λ d, if d =? CONSOLE then Some consolewrite else None |}.

Definition consoleinit : K unit :=
  initlock LCons;;
  upd_cons (λ t, t <| c_locking := true |>).
