(* ===== verification/Tty.v ===== *)
(** The console as a line editor: an abstract specification of [consoleintr] and
    [consoleread], and the proof that the ring of [console.c] implements it. *)
From S2P Require Export Console.

(** * The specification *)

(** The committed input, which readers may have, and the line being edited. *)
Definition tty : Type := list Z * list Z.


(** * The ring *)

Record tty_rep (t : console) (comm edit : list Z) : Prop := {
  tr_len : length (c_buf t) = 128%nat;
  tr_r : 0 ≤ c_r t < 4294967296;
  tr_w : c_w t = u32 (c_r t + Z.of_nat (length comm));
  tr_e : c_e t = u32 (c_r t + Z.of_nat (length comm + length edit));
  tr_room : (length comm + length edit ≤ 128)%nat;
  tr_bytes k b : (comm ++ edit) !! k = Some b → c_buf t !! ring (c_r t + Z.of_nat k) = Some b;
  tr_line : 10 ∉ edit }.

Lemma ring_u32 x y : ring (u32 x + y) = ring (x + y).
Proof. unfold ring, u32, INPUT_BUF. f_equal. zlia. Qed.




Lemma tty_comm_empty t comm edit : tty_rep t comm edit → c_r t = c_w t ↔ comm = [].
Proof.
  intros [_ Hr -> _ Hl _ _]. destruct comm as [|x comm]; simpl in *.
  - split; [done|]. intros _. unfold u32. zlia.
  - split; [|done]. unfold u32. intros. exfalso. zlia.
Qed.




(** * The editor *)

(** Process [p] waits for input. *)
Definition awaits_input (p : proc) : Prop := p_state p = SLEEPING ∧ p_chan p = Some ChCons.

(** The console of [s] implements [t], and nobody sleeps while there is input. *)
Record tty_inv (s : kstate) (t : tty) : Prop := {
  ti_rep : tty_rep (cons s) (fst t) (snd t);
  ti_awake : fst t ≠ [] → ∀ i p, ptable s !! i = Some p → ¬ awaits_input p }.

Definition set_cons (t : console) (s : kstate) : kstate := s <| cons := t |>.




(** What the handler may do besides: print, and make processes runnable. *)
Record console_step (s s' : kstate) : Prop := {
  cs_out : c_out (cons s) `suffix_of` c_out (cons s');
  cs_procs : length (ptable s') = length (ptable s) }.
#[export] Instance console_step_preorder : PreOrder console_step.
Proof. split; [by split|]. intros s1 s2 s3 [O1 P1] [O2 P2]. split; [by etransitivity|congruence]. Qed.








(** * The listing *)







(** * Reading *)

(** What a reader of [n] more bytes that has [dst] already is given, and what is left: a line at most; an
    end-of-file character ends the read and is itself consumed only if nothing was read before it.  [None]:
    it takes all there is and waits. *)
Fixpoint tty_read (n : nat) (comm dst : list Z) : option (list Z * list Z) :=
  match n with
  | O => Some (dst, comm)
  | S n =>
      match comm with
      | [] => None
      | c :: rest =>
          if c =? C 68 then Some (dst, match dst with [] => rest | _ => comm end)
          else if c =? 10 then Some (dst ++ [c], rest)
          else tty_read n rest (dst ++ [c])
      end
  end.

Lemma tty_take t c comm edit :
  tty_rep t (c :: comm) edit →
  c_buf t !!! ring (c_r t) = c ∧ tty_rep (t <| c_r := u32 (c_r t + 1) |>) comm edit.
Proof.
  intros [Hn Hr Hw He Hl Hb Hnl]. simpl in *. split.
  - apply list_lookup_total_correct. pose proof (Hb 0%nat c eq_refl) as E. by rewrite Z.add_0_r in E.
  - split; simpl; unfold over; simpl; [done| | | |lia| |done].
    + unfold u32. zlia.
    + rewrite Hw. unfold u32. zlia.
    + rewrite He. unfold u32. zlia.
    + intros k b Hk. rewrite ring_u32. rewrite <- (Hb (S k) b Hk). do 2 f_equal. lia.
Qed.

(** A process that is in [consoleread] with the lock. *)
Record in_console (x : nat) (pr : proc) (s : kstate) : Prop := {
  ic_held : held s = [LCons];
  ic_cur : curproc s = Some x;
  ic_proc : ptable s !! x = Some pr }.

(** The end of [consoleread], with [bs] stored. *)
Definition read_done (ip : nat) (bs : list Z) : K ((Z * list Z) + (Z * list Z)) :=
  release LCons;; ilock (Some ip);; mret (inr (Z.of_nat (length bs), bs)).
(** It sleeps after [dst]. *)
Definition read_waits (x : nat) (n : Z) (dst : list Z) (s : kstate) : outcome kstate ((Z * list Z) + (Z * list Z)) :=
  Ok (inl (n, dst)) (asleep ChCons x s).

Lemma iterM_last {A B} (body : A → K (A + B)) (m : K B) x s s' n :
  body x s = (r ← m; mret (inr r)) s' → iterM (S n) body x s = m s'.
Proof.
  intros E. rewrite iterM_S. unfold mbind, M_bind in *. rewrite E. by destruct (m s').
Qed.

Lemma bind3_assoc {A B} (m1 m2 : K unit) (a : A) (f : A → B) s :
  (m1;; m2;; mret (f a)) s = (r ← (m1;; m2;; mret a); mret (f r)) s.
Proof. unfold mbind, M_bind. destruct (m1 s) as [? s1| | |]; [|done..]. by destruct (m2 s1). Qed.

Lemma consoleread_run ip target x pr (k : nat) : ∀ comm dst edit s fuel,
  in_console x pr s → p_killed pr = 0 → tty_inv s (comm, edit) → target = Z.of_nat (k + length dst) → (k < fuel)%nat →
  ∃ s1, in_console x pr s1 ∧
  match tty_read k comm dst with
  | Some (bs, rest) => iterM fuel (consoleread_body ip target) (Z.of_nat k, dst) s = read_done ip bs s1
      ∧ tty_inv s1 (rest, edit)
  | None => iterM fuel (consoleread_body ip target) (Z.of_nat k, dst) s
        = read_waits x (Z.of_nat (k - length comm)) (dst ++ comm) s1
      ∧ tty_inv s1 ([], edit)
  end.
Proof.
  induction k as [|k IH]; intros comm dst edit s fuel Hin Hk Hi Ht Hf; (destruct fuel as [|fuel]; [lia|]).
  - exists s. split; [done|]. simpl. split; [|done]. apply iterM_last. unfold consoleread_body. rewrite Z.ltb_irrefl.
    replace (target - Z.of_nat 0) with (Z.of_nat (length dst)) by lia. apply bind3_assoc.
  - pose proof (ti_rep _ _ Hi) as Hr; simpl in Hr. destruct comm as [|c comm].
    + exists s. split; [done|]. split; [|done]. simpl tty_read. cbv iota.
      unfold read_waits. rewrite app_nil_r, Nat.sub_0_r. eapply iterM_inr. unfold consoleread_body.
      rewrite (proj2 (Z.ltb_lt _ _)) by lia. mstep. rewrite (proj2 (Z.eqb_eq _ _) (proj2 (tty_comm_empty _ _ _ Hr) eq_refl)).
      destruct Hin as [Hh Hc Hp].
      assert (killed s = Ok false s) as Ek.
      { unfold killed, cur, curindex, myproc, proc_at. run. rewrite Hc. run. by rewrite Hp, Hk. }
      mstep_with Ek. cbv iota. by mstep_with (suspend_ok _ tt _ _ (sleep_ok (A:=unit) ChCons LCons s x pr Hh ltac:(done) Hc Hp)).
    + destruct (tty_take _ _ _ _ Hr) as [Ec Hr1]. set (t1 := over c_r _ _) in Hr1. set (s1 := set_cons t1 s).
      assert (c_r (cons s) ≠ c_w (cons s)) as Hne by (by intros E%(tty_comm_empty _ _ _ Hr)).
      assert (tty_inv s1 (comm, edit)) as Hi1 by (destruct Hi as [_ Ha]; split; [done|]; intros _; by apply Ha).
      assert (∀ B (m : K B), (upd_cons (λ t, t <| c_r ::= λ r, u32 (r + 1) |>);; m) s = m s1) as Eu.
      { intros B m. by destruct s as [? ? ? ? ? ? ? ? ? ? ? ? ? [] ?]. }
      simpl tty_read. destruct (Z.eqb_spec c (C 68)) as [->|Hc4]; [|destruct (Z.eqb_spec c 10) as [->|Hc10]].
      * set (t2 := t1 <| c_r := u32 (c_r t1 - 1) |>).
        assert (t2 = cons s) as Et2.
        { destruct Hr as [_ Hrr _ _ _ _ _]. unfold t2, t1. destruct (cons s); unfold over; simpl in *. f_equal. unfold u32. zlia. }
        exists (match dst with [] => s1 | _ => s end). split; [destruct dst; [destruct Hin; by split|done]|].
        split; [|by destruct dst]. apply iterM_last. unfold consoleread_body.
        rewrite (proj2 (Z.ltb_lt _ _)) by lia. mstep. rewrite (proj2 (Z.eqb_neq _ _) Hne). cbv zeta. rewrite Ec, Eu.
        change (C 68 =? C 68) with true. cbv iota.
        replace (target - Z.of_nat (S k)) with (Z.of_nat (length dst)) by lia. unfold read_done. rewrite <- bind3_assoc.
        destruct dst as [|d dst].
        -- rewrite (proj2 (Z.ltb_ge _ _)) by (simpl in Ht; lia). mstep. done.
        -- rewrite (proj2 (Z.ltb_lt _ _)) by (simpl in Ht; lia). unfold upd_cons. mstep. set (s2 := over cons _ s1).
           assert (s2 = s) as ->; [|done]. transitivity (set_cons t2 s); [done|]. rewrite Et2. by destruct s.
      * exists s1. split; [destruct Hin; by split|]. split; [|done]. apply iterM_last. unfold consoleread_body.
        rewrite (proj2 (Z.ltb_lt _ _)) by lia. mstep. rewrite (proj2 (Z.eqb_neq _ _) Hne). cbv zeta. rewrite Ec, Eu.
        change (10 =? C 68) with false. change (10 =? 10) with true. cbv iota. unfold read_done. rewrite <- bind3_assoc.
        by replace (target - (Z.of_nat (S k) - 1)) with (Z.of_nat (length (dst ++ [10]))) by (rewrite length_app; simpl; lia).
      * destruct (IH comm (dst ++ [c]) edit s1 fuel) as (s2 & Hin2 & H2); [destruct Hin; by split|done|done|rewrite length_app; simpl; lia|lia|].
        exists s2. split; [done|]. rewrite <- app_assoc in H2. simpl app in H2.
        erewrite iterM_inl; [exact H2|]. unfold consoleread_body.
        rewrite (proj2 (Z.ltb_lt _ _)) by lia. mstep. rewrite (proj2 (Z.eqb_neq _ _) Hne). cbv zeta. rewrite Ec, Eu.
        rewrite (proj2 (Z.eqb_neq _ _) Hc4), (proj2 (Z.eqb_neq _ _) Hc10). unfold mret, M_ret. do 3 f_equal. lia.
Qed.




(** * Properties *)





(** C21: [consoleread] gives a reader at most one line of the committed input, in order, and leaves the
    rest; an end-of-file character ends the read, and is kept for the next one if
    something was read before it; when the input runs out first the reader sleeps, and goes on later with
    what it has. *)
Theorem consoleread_lines (ip x : nat) (pr : proc) (n : Z) (comm dst edit : list Z) (s : kstate) :
  in_console x pr s → p_killed pr = 0 → tty_inv s (comm, edit) → 0 ≤ n →
  let target := n + Z.of_nat (length dst) in
  ∃ s1, in_console x pr s1 ∧
  match tty_read (Z.to_nat n) comm dst with
  | Some (bs, rest) => consoleread_loop ip target n dst s = read_done ip bs s1 ∧ tty_inv s1 (rest, edit)
  | None => consoleread_loop ip target n dst s = read_waits x (n - Z.of_nat (length comm)) (dst ++ comm) s1
      ∧ tty_inv s1 ([], edit) ∧ Z.of_nat (length comm) < n
  end.
Proof.
  intros Hin Hk Hi Hn target.
  destruct (consoleread_run ip target x pr (Z.to_nat n) comm dst edit s (S (Z.to_nat n))) as (s1 & Hin1 & Hm); [done..|lia|lia|].
  exists s1. split; [done|]. unfold consoleread_loop. rewrite Z2Nat.id in Hm by done.
  assert (∀ k comm dst, tty_read k comm dst = None → (length comm < k)%nat) as Hlt.
  { clear. induction k as [|k IH]; intros comm dst; [done|]. destruct comm as [|c comm]; simpl; [lia|].
    destruct (c =? C 68), (c =? 10); try done. intros E%IH. lia. }
  destruct (tty_read (Z.to_nat n) comm dst) as [[bs rest]|] eqn:E; [done|].
  destruct Hm as [E1 Hi1]. pose proof (Hlt _ _ _ E). split; [|split; [done|lia]]. rewrite E1. unfold read_waits.
  do 3 f_equal. lia.
Qed.

(** A committed line and the start of another. *)
Definition demo_line : kstate :=
  demo_mem0 <| cons := mk_console (97 :: 10 :: 98 :: replicate 125 0) 0 2 3 true [] |> <| held := [LCons] |>.

Lemma consoleread_lines_witness :
  ∃ s1, in_console 0 boot_proc s1
    ∧ consoleread_loop 0 6 5 [7] demo_line = read_done 0 [7; 97; 10] s1 ∧ tty_inv s1 ([], [98]).
Proof.
  apply (consoleread_lines 0 0 boot_proc 5 [97; 10] [7] [98] demo_line); [done|done| |done].
  split; [|by intros _ [|i] p [= <-] [? _]]. split; simpl; try done; [lia| |by_decide].
  intros [|[|[|k]]] b [= <-]; done.
Defined.
