(* ===== verification/Syscall.v ===== *)
(** System call arguments ([syscall.c]): the kernel reads and writes the memory of the process
    that called it through that process's page table. *)
From S2P Require Export Console.

(** * User memory *)

(** Where the byte at user address [va] is, under the page table [pgdir], if it is mapped. *)
Definition user_addr (m : gmap Z Z) (pgdir va : Z) : option Z :=
  let pte := pte_of m pgdir va in
  if present pte then Some (u32 (P2V (PTE_ADDR pte) + va mod PGSIZE)) else None.

(** A load and a store by the kernel; supervisor code may not write to a page without
    [PTE_W].  A fault in the kernel is a panic. *)
Definition uload (va : Z) : K Z :=
  p ← cur;
  m ← gets mem;
  match user_addr m (p_pgdir p) va with Some a => mret (ld m a) | None => trap end.
Definition ustore (va b : Z) : K unit :=
  p ← cur;
  m ← gets mem;
  match user_addr m (p_pgdir p) va with
  | Some a =>
      if Z.land (pte_of m (p_pgdir p) va) PTE_W =? 0 then trap else upd_mem (λ m, st m a b)
  | None => trap
  end.

Fixpoint uload_range (va : Z) (n : nat) : K (list Z) :=
  match n with
  | O => mret []
  | S n => b ← uload va; bs ← uload_range (u32 (va + 1)) n; mret (b :: bs)
  end.
Fixpoint ustore_range (va : Z) (bs : list Z) : K unit :=
  match bs with
  | [] => mret tt
  | b :: bs => ustore va b;; ustore_range (u32 (va + 1)) bs
  end.
Definition uload32 (va : Z) : K Z := bs ← uload_range va 4; mret (get32 bs 0).

(** * Fetching arguments *)

(** [None] is the error result -1. *)
Definition fetchint (addr : Z) : K (option Z) :=
  p ← cur;
  if (p_sz p <=? addr) || (p_sz p <? u32 (addr + 4)) then mret None else
  v ← uload32 addr;
  mret (Some (i32 v)).

(** The string, without its terminator; its address is [addr] and its length the result
    of the C function. *)
Definition fetchstr (addr : Z) : K (option (list Z)) :=
  p ← cur;
  if p_sz p <=? addr then mret None else
  iterM (S (Z.to_nat (p_sz p - addr))) (λ '(s, str),
    if s <? p_sz p then
      b ← uload s;
      if b =? 0 then mret (inr (Some str)) else mret (inl (s + 1, str ++ [b]))
    else mret (inr None)) (addr, []).

Definition argint (n : Z) : K (option Z) :=
  p ← cur;
  esp ← load32 (p_tf p + TF_esp);
  fetchint (u32 (esp + 4 + 4 * n)).

(** A block of [size] bytes. *)
Definition argptr (n size : Z) : K (option Z) :=
  p ← cur;
  o ← argint n;
  match o with
  | None => mret None
  | Some i =>
      if (size <? 0) || (p_sz p <=? u32 i) || (p_sz p <? u32 (u32 i + size)) then mret None
      else mret (Some (u32 i))
  end.

Definition argstr (n : Z) : K (option (list Z)) :=
  o ← argint n;
  match o with
  | None => mret None
  | Some addr => fetchstr (u32 addr)
  end.
