(* ===== verification/Exec.v ===== *)
(** Loading programs ([exec.c]). *)
From S2P Require Export Syscall.

(** * elf.h, param.h *)
Definition ELF_MAGIC : Z := 1179403647.
Definition ELF_PROG_LOAD : Z := 1.
Definition MAXARG : Z := 32.

Record elfhdr := mk_elfhdr { e_magic : Z; e_entry : Z; e_phoff : Z; e_phnum : Z }.
Record proghdr := mk_proghdr { ph_type : Z; ph_off : Z; ph_vaddr : Z; ph_filesz : Z; ph_memsz : Z }.
Definition ELFHDR_SIZE : Z := 52.
Definition PROGHDR_SIZE : Z := 32.

(** The fields [exec] uses, at their offsets. *)
Definition get_elfhdr (b : list Z) : elfhdr := mk_elfhdr (get32 b 0) (get32 b 24) (get32 b 28) (get16 b 44).
Definition get_proghdr (b : list Z) : proghdr :=
  mk_proghdr (get32 b 0) (get32 b 4) (get32 b 8) (get32 b 16) (get32 b 20).

(** "exec: fail\n" *)
Definition exec_fail : list Z := [101; 120; 101; 99; 58; 32; 102; 97; 105; 108; 10; 0].

Section exec.
Context `{Linker} `{Devsw} `{Kernel_image}.

(** The label [bad]: the new page table, 0 if there is none, and the inode if it is still locked. *)
Definition exec_bad (pgdir : Z) (ip : option nat) : K Z :=
  (if negb (pgdir =? 0) then freevm pgdir else mret tt);;
  (match ip with Some ip => iunlockput ip;; end_op | None => mret tt end);;
  mret (-1).

(** The loop over the program headers, from header [i] at [off]: the size of the image, or
    [None] for [goto bad]. *)
Definition load_segments (pgdir : Z) (ip : nat) (elf : elfhdr) : K (option Z) :=
  iterM (S (Z.to_nat (e_phnum elf))) (λ '(i, off, sz),
    if i <? e_phnum elf then
      '(r, b) ← readi ip (u32 off) PROGHDR_SIZE;
      if negb (r =? PROGHDR_SIZE) then mret (inr None) else
      let ph := get_proghdr b in
      if negb (ph_type ph =? ELF_PROG_LOAD) then mret (inl (i + 1, off + PROGHDR_SIZE, sz)) else
      if ph_memsz ph <? ph_filesz ph then mret (inr None) else
      if u32 (ph_vaddr ph + ph_memsz ph) <? ph_vaddr ph then mret (inr None) else
      sz ← allocuvm pgdir sz (u32 (ph_vaddr ph + ph_memsz ph));
      if sz =? 0 then mret (inr None) else
      if negb (ph_vaddr ph mod PGSIZE =? 0) then mret (inr None) else
      r ← loaduvm pgdir (ph_vaddr ph) ip (ph_off ph) (ph_filesz ph);
      if r <? 0 then mret (inr None) else
      mret (inl (i + 1, off + PROGHDR_SIZE, sz))
    else mret (inr (Some sz))) (0, e_phoff elf, 0).

(** The loop that pushes the argument strings: the stack pointer and the addresses of the strings, in order. *)
Fixpoint push_args (pgdir : Z) (argv : list (list Z)) (argc sp : Z) (ustack : list Z) : K (option (Z * list Z)) :=
  match argv with
  | [] => mret (Some (sp, ustack))
  | arg :: argv =>
      if MAXARG <=? argc then mret None else
      let sp := Z.land (u32 (sp - (strlen arg + 1))) (Z.lnot 3) in
      r ← copyout pgdir sp (cstr arg ++ [0]);
      if r <? 0 then mret None else
      push_args pgdir argv (argc + 1) sp (ustack ++ [sp])
  end.

(** The stack of the new image of size [sz]: the strings, and below them what [main] finds as its arguments.  The result is the stack pointer,
    or [None] for [goto bad]. *)
Definition user_stack (pgdir : Z) (argv : list (list Z)) (sz : Z) : K (option Z) :=
  o ← push_args pgdir argv 0 sz [];
  match o with
  | None => mret None
  | Some (sp, strs) =>
      let argc := Z.of_nat (length strs) in
      let ustack := [4294967295; argc; u32 (sp - (argc + 1) * 4)] ++ strs ++ [0] in
      let sp := u32 (sp - (3 + argc + 1) * 4) in
      r ← copyout pgdir sp (le_words ustack);
      mret (if r <? 0 then None else Some sp)
  end.

(** The part of the path after its last slash. *)
Fixpoint last_elem (s last : list Z) : list Z :=
  match s with
  | [] => last
  | c :: s => if c =? 0 then last else last_elem s (if c =? 47 then s else last)
  end.

Definition exec (path : list Z) (argv : list (list Z)) : K Z :=
  c ← curindex;
  begin_op;;
  o ← namei path junk_name;
  match o with
  | None =>
      end_op;;
      cprintf exec_fail [];;
      mret (-1)
  | Some ip =>
      ilock (Some ip);;
      '(r, b) ← readi ip 0 ELFHDR_SIZE;
      let elf := get_elfhdr b in
      if negb (r =? ELFHDR_SIZE) then exec_bad 0 (Some ip) else
      if negb (e_magic elf =? ELF_MAGIC) then exec_bad 0 (Some ip) else
      pgdir ← setupkvm;
      if pgdir =? 0 then exec_bad 0 (Some ip) else
      osz ← load_segments pgdir ip elf;
      match osz with
      | None => exec_bad pgdir (Some ip)
      | Some sz =>
          iunlockput ip;;
          end_op;;
          let sz := PGROUNDUP sz in
          sz ← allocuvm pgdir sz (u32 (sz + 2 * PGSIZE));
          if sz =? 0 then exec_bad pgdir None else
          clearpteu pgdir (u32 (sz - 2 * PGSIZE));;
          o ← user_stack pgdir argv sz;
          match o with
          | None => exec_bad pgdir None
          | Some sp =>
              let last := last_elem path path in
              upd_proc_at c (λ p, p <| p_name := safestrcpy (p_name p) last 16 |>);;
              p ← proc_at c;
              let oldpgdir := p_pgdir p in
              upd_proc_at c (λ p, p <| p_pgdir := pgdir |> <| p_sz := sz |>);;
              store32 (p_tf p + TF_eip) (e_entry elf);;
              store32 (p_tf p + TF_esp) sp;;
              switchuvm c;;
              freevm oldpgdir;;
              mret 0
          end
      end
  end.
End exec.
