(* ===== verification/Sysfile.v ===== *)
(** System calls on files ([sysfile.c]).  [None] and -1 are the error results. *)
From S2P Require Export Exec.

(** * fcntl.h *)
Definition O_RDONLY : Z := 0.
Definition O_WRONLY : Z := 1.
Definition O_RDWR : Z := 2.
Definition O_CREATE : Z := 512.

Section sysfile.
Context `{Linker} `{Devsw} `{Kernel_image}.

(** The descriptor and the file. *)
Definition argfd (n : Z) : K (option (Z * nat)) :=
  o ← argint n;
  match o with
  | None => mret None
  | Some fd =>
      if (fd <? 0) || (Z.of_nat NOFILE <=? fd) then mret None else
      p ← cur;
      match p_ofile p !!! Z.to_nat fd with
      | None => mret None
      | Some f => mret (Some (fd, f))
      end
  end.

Definition set_ofile (c : nat) (fd : nat) (o : option nat) : K unit :=
  upd_proc_at c (λ p, p <| p_ofile ::= <[fd := o]> |>).

Definition fdalloc (f : nat) : K Z :=
  c ← curindex;
  iterM (S NOFILE) (λ fd,
    if (fd <? NOFILE)%nat then
      p ← proc_at c;
      match p_ofile p !!! fd with
      | None => set_ofile c fd (Some f);; mret (inr (Z.of_nat fd))
      | Some _ => mret (inl (S fd))
      end
    else mret (inr (-1))) 0%nat.

Definition sys_dup : K Z :=
  o ← argfd 0;
  match o with
  | None => mret (-1)
  | Some (_, f) =>
      fd ← fdalloc f;
      if fd <? 0 then mret (-1) else
      filedup f;;
      mret fd
  end.

(** The common arguments of [read] and [write]: file, buffer and size. *)
Definition arg_rdwr : K (option (nat * Z * Z)) :=
  ofl ← argfd 0;
  match ofl with
  | None => mret None
  | Some (_, f) =>
      on ← argint 2;
      match on with
      | None => mret None
      | Some n =>
          op ← argptr 1 n;
          mret (match op with Some p => Some (f, p, n) | None => None end)
      end
  end.

Definition sys_read : K Z :=
  o ← arg_rdwr;
  match o with
  | None => mret (-1)
  | Some (f, p, n) =>
      '(r, bs) ← fileread f n;
      ustore_range p bs;;
      mret r
  end.

Definition sys_write : K Z :=
  o ← arg_rdwr;
  match o with
  | None => mret (-1)
  | Some (f, p, n) =>
      bs ← uload_range p (Z.to_nat n);
      filewrite f bs n
  end.

Definition sys_close : K Z :=
  o ← argfd 0;
  match o with
  | None => mret (-1)
  | Some (fd, f) =>
      c ← curindex;
      set_ofile c (Z.to_nat fd) None;;
      fileclose f;;
      mret 0
  end.

(** [struct stat], with its padding. *)
Definition STAT_SIZE : Z := 20.
Definition store_stat (p : Z) (st : stat) : K unit :=
  ustore_range p (le16 (st_type st));;
  ustore_range (p + 4) (le32 (st_dev st));;
  ustore_range (p + 8) (le32 (st_ino st));;
  ustore_range (p + 12) (le16 (st_nlink st));;
  ustore_range (p + 16) (le32 (st_size st)).

Definition sys_fstat : K Z :=
  ofl ← argfd 0;
  match ofl with
  | None => mret (-1)
  | Some (_, f) =>
      op ← argptr 1 STAT_SIZE;
      match op with
      | None => mret (-1)
      | Some p =>
          '(r, st) ← filestat f;
          (match st with Some st => store_stat p st | None => mret tt end);;
          mret r
      end
  end.

Definition upd_nlink (ip : nat) (d : Z) : K unit :=
  upd_inode_at ip (λ n, n <| i_nlink ::= λ k, i16 (k + d) |>);; iupdate ip.

(** The label [bad] of [sys_link]. *)
Definition link_bad (ip : nat) : K Z :=
  ilock (Some ip);;
  upd_nlink ip (-1);;
  iunlockput ip;;
  end_op;;
  mret (-1).

Definition sys_link : K Z :=
  oold ← argstr 0;
  match oold with
  | None => mret (-1)
  | Some old =>
      onew ← argstr 1;
      match onew with
      | None => mret (-1)
      | Some new =>
          begin_op;;
          oip ← namei old junk_name;
          match oip with
          | None => end_op;; mret (-1)
          | Some ip =>
              ilock (Some ip);;
              n ← inode_at ip;
              if i_type n =? T_DIR then iunlockput ip;; end_op;; mret (-1) else
              upd_nlink ip 1;;
              iunlock (Some ip);;
              '(odp, name) ← nameiparent new junk_name;
              match odp with
              | None => link_bad ip
              | Some dp =>
                  ilock (Some dp);;
                  d ← inode_at dp;
                  n ← inode_at ip;
                  r ← (if negb (i_dev d =? i_dev n) then mret (-1) else dirlink dp name (i_inum n));
                  if r <? 0 then iunlockput dp;; link_bad ip else
                  iunlockput dp;;
                  iput ip;;
                  end_op;;
                  mret 0
              end
          end
      end
  end.

Definition isdirempty (dp : nat) : K bool :=
  ip ← inode_at dp;
  iterM (S (S (Z.to_nat (i_size ip / DIRENT_SIZE)))) (λ off,
    ip ← inode_at dp;
    if off <? i_size ip then
      '(r, de) ← readi dp off DIRENT_SIZE;
      if negb (r =? DIRENT_SIZE) then panic "isdirempty: readi" else
      if negb (de_inum de =? 0) then mret (inr false) else mret (inl (off + DIRENT_SIZE))
    else mret (inr true)) (2 * DIRENT_SIZE).

(** The label [bad] of [sys_unlink]. *)
Definition unlink_bad (dp : nat) : K Z := iunlockput dp;; end_op;; mret (-1).

(** "." and ".." *)
Definition dot : list Z := [46].
Definition dotdot : list Z := [46; 46].

Definition sys_unlink : K Z :=
  opath ← argstr 0;
  match opath with
  | None => mret (-1)
  | Some path =>
      begin_op;;
      '(odp, name) ← nameiparent path junk_name;
      match odp with
      | None => end_op;; mret (-1)
      | Some dp =>
          ilock (Some dp);;
          if (namecmp name dot =? 0) || (namecmp name dotdot =? 0) then unlink_bad dp else
          o ← dirlookup dp name;
          match o with
          | None => unlink_bad dp
          | Some (ip, off) =>
              ilock (Some ip);;
              n ← inode_at ip;
              if i_nlink n <? 1 then panic "unlink: nlink < 1" else
              full ← (if i_type n =? T_DIR then e ← isdirempty ip; mret (negb e) else mret false);
              if (full : bool) then iunlockput ip;; unlink_bad dp else
              r ← writei dp (replicate (Z.to_nat DIRENT_SIZE) 0) off DIRENT_SIZE;
              if negb (r =? DIRENT_SIZE) then panic "unlink: writei" else
              n ← inode_at ip;
              (if i_type n =? T_DIR then upd_nlink dp (-1) else mret tt);;
              iunlockput dp;;
              upd_nlink ip (-1);;
              iunlockput ip;;
              end_op;;
              mret 0
          end
      end
  end.

Definition create (path : list Z) (type major minor : Z) : K (option nat) :=
  '(odp, name) ← nameiparent path junk_name;
  match odp with
  | None => mret None
  | Some dp =>
      ilock (Some dp);;
      o ← dirlookup dp name;
      match o with
      | Some (ip, _) =>
          iunlockput dp;;
          ilock (Some ip);;
          n ← inode_at ip;
          if (type =? T_FILE) && (i_type n =? T_FILE) then mret (Some ip) else
          iunlockput ip;;
          mret None
      | None =>
          d ← inode_at dp;
          ip ← ialloc (i_dev d) type;
          ilock (Some ip);;
          upd_inode_at ip (λ n, n <| i_major := i16 major |> <| i_minor := i16 minor |> <| i_nlink := 1 |>);;
          iupdate ip;;
          (if type =? T_DIR then
             upd_nlink dp 1;;
             n ← inode_at ip;
             r ← dirlink ip dot (i_inum n);
             if r <? 0 then panic "create dots" else
             d ← inode_at dp;
             r ← dirlink ip dotdot (i_inum d);
             if r <? 0 then panic "create dots" else mret tt
           else mret tt);;
          n ← inode_at ip;
          r ← dirlink dp name (i_inum n);
          if r <? 0 then panic "create: dirlink" else
          iunlockput dp;;
          mret (Some ip)
      end
  end.

(** The part of [sys_open] up to the locked inode. *)
Definition open_inode (path : list Z) (omode : Z) : K (option nat) :=
  if negb (Z.land omode O_CREATE =? 0) then
    o ← create path T_FILE 0 0;
    match o with
    | None => end_op;; mret None
    | Some ip => mret (Some ip)
    end
  else
    o ← namei path junk_name;
    match o with
    | None => end_op;; mret None
    | Some ip =>
        ilock (Some ip);;
        n ← inode_at ip;
        if (i_type n =? T_DIR) && negb (omode =? O_RDONLY) then iunlockput ip;; end_op;; mret None
        else mret (Some ip)
    end.

Definition b2z (b : bool) : Z := if b then 1 else 0.

Definition sys_open : K Z :=
  opath ← argstr 0;
  match opath with
  | None => mret (-1)
  | Some path =>
      om ← argint 1;
      match om with
      | None => mret (-1)
      | Some omode =>
          begin_op;;
          oip ← open_inode path omode;
          match oip with
          | None => mret (-1)
          | Some ip =>
              ofl ← filealloc;
              match ofl with
              | None => iunlockput ip;; end_op;; mret (-1)
              | Some f =>
                  fd ← fdalloc f;
                  if fd <? 0 then fileclose f;; iunlockput ip;; end_op;; mret (-1) else
                  iunlock (Some ip);;
                  end_op;;
                  upd_file_at f (λ f, f <| f_type := FD_INODE |> <| f_ip := ip |> <| f_off := 0 |>
                    <| f_readable := b2z (Z.land omode O_WRONLY =? 0) |>
                    <| f_writable := b2z (negb (Z.land omode O_WRONLY =? 0) || negb (Z.land omode O_RDWR =? 0)) |>);;
                  mret fd
              end
          end
      end
  end.

Definition sys_mkdir : K Z :=
  begin_op;;
  opath ← argstr 0;
  oip ← (match opath with None => mret None | Some path => create path T_DIR 0 0 end);
  match oip with
  | None => end_op;; mret (-1)
  | Some ip => iunlockput ip;; end_op;; mret 0
  end.

Definition sys_mknod : K Z :=
  begin_op;;
  opath ← argstr 0;
  oip ← (match opath with
         | None => mret None
         | Some path =>
             omajor ← argint 1;
             match omajor with
             | None => mret None
             | Some major =>
                 ominor ← argint 2;
                 match ominor with
                 | None => mret None
                 | Some minor => create path T_DEV (i16 major) (i16 minor)
                 end
             end
         end);
  match oip with
  | None => end_op;; mret (-1)
  | Some ip => iunlockput ip;; end_op;; mret 0
  end.

Definition sys_chdir : K Z :=
  c ← curindex;
  begin_op;;
  opath ← argstr 0;
  oip ← (match opath with None => mret None | Some path => namei path junk_name end);
  match oip with
  | None => end_op;; mret (-1)
  | Some ip =>
      ilock (Some ip);;
      n ← inode_at ip;
      if negb (i_type n =? T_DIR) then iunlockput ip;; end_op;; mret (-1) else
      iunlock (Some ip);;
      p ← proc_at c;
      (match p_cwd p with Some d => iput d | None => trap end);;
      end_op;;
      upd_proc_at c (λ p, p <| p_cwd := Some ip |>);;
      mret 0
  end.

(** The loop that fetches the argument vector at [uargv]. *)
Definition fetch_argv (uargv : Z) : K (option (list (list Z))) :=
  iterM (S (Z.to_nat MAXARG)) (λ '(i, argv),
    if MAXARG <=? i then mret (inr None) else
    o ← fetchint (u32 (uargv + 4 * i));
    match o with
    | None => mret (inr None)
    | Some uarg =>
        if uarg =? 0 then mret (inr (Some argv)) else
        ostr ← fetchstr (u32 uarg);
        match ostr with
        | None => mret (inr None)
        | Some str => mret (inl (i + 1, argv ++ [str]))
        end
    end) (0, []).

Definition sys_exec : K Z :=
  opath ← argstr 0;
  match opath with
  | None => mret (-1)
  | Some path =>
      ou ← argint 1;
      match ou with
      | None => mret (-1)
      | Some uargv =>
          oargv ← fetch_argv (u32 uargv);
          match oargv with
          | None => mret (-1)
          | Some argv => exec path argv
          end
      end
  end.

Definition sys_pipe : K Z :=
  o ← argptr 0 8;
  match o with
  | None => mret (-1)
  | Some fd =>
      ofl ← pipealloc;
      match ofl with
      | None => mret (-1)
      | Some (rf, wf) =>
          fd0 ← fdalloc rf;
          fd1 ← (if fd0 <? 0 then mret (-1) else fdalloc wf);
          if (fd0 <? 0) || (fd1 <? 0) then
            (if 0 <=? fd0 then c ← curindex; set_ofile c (Z.to_nat fd0) None else mret tt);;
            fileclose rf;;
            fileclose wf;;
            mret (-1)
          else
            ustore_range fd (le32 fd0);;
            ustore_range (fd + 4) (le32 fd1);;
            mret 0
      end
  end.
End sysfile.
