(* ===== verification/Trap.v ===== *)
(** Entering the kernel: the system calls of [sysproc.c], the dispatch of [syscall.c] and the
    trap handler of [trap.c].  What a system call that sleeps does after its wakeup is
    not part of its run ([Sleeping]). *)
From S2P Require Export Sysfile.

(** * traps.h *)
Definition T_SYSCALL : Z := 64.
Definition T_IRQ0 : Z := 32.
Definition IRQ_TIMER : Z := 0.
Definition IRQ_KBD : Z := 1.
Definition IRQ_COM1 : Z := 4.
Definition IRQ_IDE : Z := 14.
Definition IRQ_SPURIOUS : Z := 31.

Section trap.
Context `{Linker} `{Devsw} `{Kernel_image}.

(** * sysproc.c *)
Definition sys_fork : K Z := fork.
Definition sys_exit : K Z := exit.
Definition sys_wait : K Z := o ← wait; finish o.

Definition sys_kill : K Z :=
  o ← argint 0;
  match o with
  | None => mret (-1)
  | Some pid => kill pid
  end.

Definition sys_getpid : K Z := p ← cur; mret (p_pid p).

Definition sys_sbrk : K Z :=
  o ← argint 0;
  match o with
  | None => mret (-1)
  | Some n =>
      p ← cur;
      let addr := i32 (p_sz p) in
      r ← growproc n;
      if r <? 0 then mret (-1) else mret addr
  end.

(** A round of the loop of [sys_sleep]; [inl] if the process sleeps.  The comparison is unsigned. *)
Definition sys_sleep_loop (ticks0 n : Z) : K (unit + Z) :=
  t ← gets ticks;
  if u32 (t - ticks0) <? u32 n then
    k ← killed;
    if (k : bool) then release LTicks;; mret (inr (-1)) else
    suspend (sleep ChTicks LTicks) tt;;
    mret (inl tt)
  else
    release LTicks;;
    mret (inr 0).
Definition sys_sleep_resume (ticks0 n : Z) : K (unit + Z) := sleep_resume LTicks;; sys_sleep_loop ticks0 n.

Definition sys_sleep : K Z :=
  o ← argint 0;
  match o with
  | None => mret (-1)
  | Some n =>
      acquire LTicks;;
      ticks0 ← gets ticks;
      r ← sys_sleep_loop ticks0 n;
      finish r
  end.

Definition sys_uptime : K Z :=
  acquire LTicks;;
  xticks ← gets ticks;
  release LTicks;;
  mret (i32 xticks).

(** * syscall.c *)

(** The table [syscalls], indexed by the numbers of [syscall.h]. *)
Definition syscalls (num : Z) : option (K Z) :=
  match num with
  | 1 => Some sys_fork
  | 2 => Some sys_exit
  | 3 => Some sys_wait
  | 4 => Some sys_pipe
  | 5 => Some sys_read
  | 6 => Some sys_kill
  | 7 => Some sys_exec
  | 8 => Some sys_fstat
  | 9 => Some sys_chdir
  | 10 => Some sys_dup
  | 11 => Some sys_getpid
  | 12 => Some sys_sbrk
  | 13 => Some sys_sleep
  | 14 => Some sys_uptime
  | 15 => Some sys_open
  | 16 => Some sys_write
  | 17 => Some sys_mknod
  | 18 => Some sys_unlink
  | 19 => Some sys_link
  | 20 => Some sys_mkdir
  | 21 => Some sys_close
  | _ => None
  end.

(** "%d %s: unknown sys call %d\n" *)
Definition unknown_call : list Z :=
  [37; 100; 32; 37; 115; 58; 32; 117; 110; 107; 110; 111; 119; 110; 32; 115; 121; 115; 32; 99; 97; 108; 108; 32; 37; 100; 10; 0].

Definition syscall : K unit :=
  c ← curindex;
  p ← proc_at c;
  num ← load32 (p_tf p + TF_eax);
  match syscalls (i32 num) with
  | Some call =>
      r ← call;
      p ← proc_at c;
      store32 (p_tf p + TF_eax) r
  | None =>
      cprintf unknown_call [Ulib.AWord (p_pid p); Ulib.AStr (Some (p_name p)); Ulib.AWord num];;
      store32 (p_tf p + TF_eax) (-1)
  end.

(** * trap.c *)

(** "cpu%d: spurious interrupt at %x:%x\n" *)
Definition spurious_msg : list Z :=
  [99; 112; 117; 37; 100; 58; 32; 115; 112; 117; 114; 105; 111; 117; 115; 32; 105; 110; 116; 101; 114; 114; 117; 112; 116;
   32; 97; 116; 32; 37; 120; 58; 37; 120; 10; 0].
(** "unexpected trap %d from cpu %d eip %x (cr2=0x%x)\n" *)
Definition unexpected_msg : list Z :=
  [117; 110; 101; 120; 112; 101; 99; 116; 101; 100; 32; 116; 114; 97; 112; 32; 37; 100; 32; 102; 114; 111; 109; 32; 99; 112; 117;
   32; 37; 100; 32; 101; 105; 112; 32; 37; 120; 32; 40; 99; 114; 50; 61; 48; 120; 37; 120; 41; 10; 0].
(** "pid %d %s: trap %d err %d on cpu %d eip 0x%x addr 0x%x--kill proc\n" *)
Definition misbehaved_msg : list Z :=
  [112; 105; 100; 32; 37; 100; 32; 37; 115; 58; 32; 116; 114; 97; 112; 32; 37; 100; 32; 101; 114; 114; 32; 37; 100; 32; 111; 110;
   32; 99; 112; 117; 32; 37; 100; 32; 101; 105; 112; 32; 48; 120; 37; 120; 32; 97; 100; 100; 114; 32; 48; 120; 37; 120; 45; 45;
   107; 105; 108; 108; 32; 112; 114; 111; 99; 10; 0].

(** [myproc() && myproc()->killed && (tf->cs&3) == DPL_USER]: the process exits. *)
Definition exit_if_killed (tf : Z) : K unit :=
  o ← myproc;
  match o with
  | None => mret tt
  | Some i =>
      p ← proc_at i;
      m ← gets mem;
      if negb (p_killed p =? 0) && (Z.land (ld16 m (tf + TF_cs)) 3 =? DPL_USER) then exit else mret tt
  end.

Definition TF_err : Z := 52.

(** The switch over [tf->trapno].  [keys] is what the keyboard or the serial line delivers
    when asked, [cr2] the faulting address, and the processor is number [cpu]. *)
Definition trap_switch (tf trapno cpu cr2 : Z) (keys : list Z) : K unit :=
  if trapno =? T_IRQ0 + IRQ_TIMER then
    if cpu =? 0 then
      acquire LTicks;;
      modify (λ s, s <| ticks ::= λ t, u32 (t + 1) |>);;
      wakeup ChTicks;;
      release LTicks
    else mret tt
  else if trapno =? T_IRQ0 + IRQ_IDE then mret tt
  else if trapno =? T_IRQ0 + IRQ_IDE + 1 then mret tt
  else if trapno =? T_IRQ0 + IRQ_KBD then consoleintr keys
  else if trapno =? T_IRQ0 + IRQ_COM1 then consoleintr keys
  else if (trapno =? T_IRQ0 + 7) || (trapno =? T_IRQ0 + IRQ_SPURIOUS) then
    m ← gets mem;
    cprintf spurious_msg [Ulib.AWord cpu; Ulib.AWord (ld16 m (tf + TF_cs)); Ulib.AWord (ld32 m (tf + TF_eip))]
  else
    o ← myproc;
    m ← gets mem;
    match o with
    | Some i =>
        if Z.land (ld16 m (tf + TF_cs)) 3 =? 0 then
          cprintf unexpected_msg [Ulib.AWord trapno; Ulib.AWord cpu; Ulib.AWord (ld32 m (tf + TF_eip)); Ulib.AWord cr2];;
          panic "trap"
        else
          p ← proc_at i;
          cprintf misbehaved_msg [Ulib.AWord (p_pid p); Ulib.AStr (Some (p_name p)); Ulib.AWord trapno;
            Ulib.AWord (ld32 m (tf + TF_err)); Ulib.AWord cpu; Ulib.AWord (ld32 m (tf + TF_eip)); Ulib.AWord cr2];;
          upd_proc_at i (λ p, p <| p_killed := 1 |>)
    | None =>
        cprintf unexpected_msg [Ulib.AWord trapno; Ulib.AWord cpu; Ulib.AWord (ld32 m (tf + TF_eip)); Ulib.AWord cr2];;
        panic "trap"
    end.

(** The handler; [trap] is the name of the fault in this development. *)
Definition trap_handler (tf cpu cr2 : Z) (keys : list Z) : K unit :=
  trapno ← load32 (tf + TF_trapno);
  if trapno =? T_SYSCALL then
    k ← killed;
    (if (k : bool) then exit else mret tt);;
    upd_cur (λ p, p <| p_tf := tf |>);;
    syscall;;
    k ← killed;
    if (k : bool) then exit else mret tt
  else
    trap_switch tf trapno cpu cr2 keys;;
    exit_if_killed tf;;
    o ← myproc;
    (match o with
     | Some i =>
         p ← proc_at i;
         if bool_decide (p_state p = RUNNING) && (trapno =? T_IRQ0 + IRQ_TIMER) then yield else mret tt
     | None => mret tt
     end);;
    exit_if_killed tf.

(** What is left of the handler when the process that yielded is scheduled again. *)
Definition trap_resume (tf : Z) : K unit := yield_resume;; exit_if_killed tf.
End trap.
