(* ===== verification/Seg.v ===== *)
(** Protection: the segment descriptors, the task state and the gates that the kernel gives the processor ([mmu.h]; [seginit], [switchuvm],
    [kvmalloc] and [switchkvm] of [vm.c]; [tvinit] and [idtinit] of [trap.c]; the loads of [x86.h]; [entrypgdir] of [main.c]).

    A descriptor is the record of its bit fields; [pack] lays the fields out in a 64-bit word, and the [hw_] functions read that word as
    the processor does.  The entry points of the handlers, [vectors], are generated code. *)
From S2P Require Export Trap.
Open Scope Z_scope.

(** * Bit fields *)

(** Fields from the low end up, as pairs of width and value. *)
Fixpoint pack (l : list (Z * Z)) : Z :=
  match l with [] => 0 | (w, v) :: l => v mod 2 ^ w + 2 ^ w * pack l end.
Definition bits (x o w : Z) : Z := (x / 2 ^ o) mod 2 ^ w.
Definition widths (l : list (Z * Z)) : Z := foldr (λ '(w, _), Z.add w) 0 l.

(** * mmu.h *)

Definition SEG_KCODE : Z := 1.
Definition SEG_KDATA : Z := 2.
Definition SEG_TSS : Z := 5.
Definition NSEGS : Z := 6.

Record segdesc := mk_segdesc {
  lim_15_0 : Z; base_15_0 : Z; base_23_16 : Z; sd_type : Z; sd_s : Z; sd_dpl : Z; sd_p : Z;
  lim_19_16 : Z; avl : Z; sd_rsv1 : Z; db : Z; g : Z; base_31_24 : Z }.
#[export] Instance upd_segdesc : Updatable segdesc := λ r, mk_segdesc (lim_15_0 r) (base_15_0 r) (base_23_16 r) (sd_type r) (sd_s r) (sd_dpl r) (sd_p r)
  (lim_19_16 r) (avl r) (sd_rsv1 r) (db r) (g r) (base_31_24 r).
Definition segdesc_word (d : segdesc) : Z :=
  pack [(16, lim_15_0 d); (16, base_15_0 d); (8, base_23_16 d); (4, sd_type d); (1, sd_s d); (2, sd_dpl d); (1, sd_p d);
        (4, lim_19_16 d); (1, avl d); (1, sd_rsv1 d); (1, db d); (1, g d); (8, base_31_24 d)].

Definition SEG (type base lim dpl : Z) : segdesc :=
  mk_segdesc (Z.land (Z.shiftr lim 12) 0xffff) (Z.land (u32 base) 0xffff)
    (Z.land (Z.shiftr (u32 base) 16) 0xff) type 1 dpl 1
    (Z.shiftr (u32 lim) 28) 0 0 1 1 (Z.shiftr (u32 base) 24).
Definition SEG16 (type base lim dpl : Z) : segdesc :=
  mk_segdesc (Z.land lim 0xffff) (Z.land (u32 base) 0xffff)
    (Z.land (Z.shiftr (u32 base) 16) 0xff) type 1 dpl 1
    (Z.shiftr (u32 lim) 16) 0 0 1 0 (Z.shiftr (u32 base) 24).

Definition STA_X : Z := 0x8.
Definition STA_W : Z := 0x2.
Definition STA_R : Z := 0x2.
Definition STS_T32A : Z := 0x9.
Definition STS_IG32 : Z := 0xE.
Definition STS_TG32 : Z := 0xF.
Definition PTE_PS : Z := 0x080.

(** The fields of [struct taskstate] that the kernel sets, and its size. *)
Record taskstate := mk_taskstate { ts_esp0 : Z; ts_ss0 : Z; ts_iomb : Z }.
#[export] Instance upd_taskstate : Updatable taskstate := λ r, mk_taskstate (ts_esp0 r) (ts_ss0 r) (ts_iomb r).
Definition TASKSTATE_SIZE : Z := 104.

Record gatedesc := mk_gatedesc {
  off_15_0 : Z; cs : Z; args : Z; gd_rsv1 : Z; gd_type : Z; gd_s : Z; gd_dpl : Z; gd_p : Z; off_31_16 : Z }.
Definition gatedesc_word (d : gatedesc) : Z :=
  pack [(16, off_15_0 d); (16, cs d); (5, args d); (3, gd_rsv1 d); (4, gd_type d); (1, gd_s d); (2, gd_dpl d); (1, gd_p d); (16, off_31_16 d)].

Definition SETGATE (istrap : bool) (sel off d : Z) : gatedesc :=
  mk_gatedesc (Z.land (u32 off) 0xffff) sel 0 0 (if istrap then STS_TG32 else STS_IG32) 0 d 1 (Z.shiftr (u32 off) 16).

(** * The state of a processor *)

Record cpuhw := mk_cpuhw { gdt : list segdesc; ts : taskstate; idt : list gatedesc; gdtr : Z * Z; idtr : Z * Z; tr : Z; cr3 : Z }.
#[export] Instance upd_cpuhw : Updatable cpuhw := λ r, mk_cpuhw (gdt r) (ts r) (idt r) (gdtr r) (idtr r) (tr r) (cr3 r).

Section code.
(** The addresses of the tables in the processor's [struct cpu], of [idt], and of the handlers. *)
Context (gdt_addr ts_addr idt_addr : Z) (vectors : Z → Z).
Abbreviation CPU := (M cpuhw).

(** x86.h: the register takes the size less one and the address, in three 16-bit words. *)
Definition pseudo_desc (p size : Z) : Z * Z := (u16 (size - 1), u16 p + 65536 * u16 (Z.shiftr (u32 p) 16)).
Definition lgdt (p size : Z) : CPU unit := modify (λ c, c <| gdtr := pseudo_desc p size |>).
Definition lidt (p size : Z) : CPU unit := modify (λ c, c <| idtr := pseudo_desc p size |>).
(** The busy mark that the processor then sets in the descriptor is left out: [switchuvm] writes the descriptor anew before each load. *)
Definition ltr (sel : Z) : CPU unit := modify (λ c, c <| tr := u16 sel |>).
Definition lcr3 (val : Z) : CPU unit := modify (λ c, c <| cr3 := u32 val |>).

Definition set_gdt (i : Z) (d : segdesc) : CPU unit := modify (λ c, c <| gdt ::= <[Z.to_nat i := d]> |>).

Definition seginit : CPU unit :=
  set_gdt SEG_KCODE (SEG (Z.lor STA_X STA_R) 0 0xffffffff 0);;
  set_gdt SEG_KDATA (SEG STA_W 0 0xffffffff 0);;
  set_gdt SEG_UCODE (SEG (Z.lor STA_X STA_R) 0 0xffffffff DPL_USER);;
  set_gdt SEG_UDATA (SEG STA_W 0 0xffffffff DPL_USER);;
  lgdt gdt_addr (NSEGS * 8).

Definition switchkvm (kpgdir : Z) : CPU unit := lcr3 (V2P kpgdir).

(** What [switchuvm] tells the processor, when its checks have passed. *)
Definition switchuvm_task (p : proc) : CPU unit :=
  set_gdt SEG_TSS (SEG16 STS_T32A ts_addr (TASKSTATE_SIZE - 1) 0);;
  modify (λ c, c <| gdt ::= alter (λ d, d <| sd_s := 0 |>) (Z.to_nat SEG_TSS) |>);;
  modify (λ c, c <| ts ::= λ t, t <| ts_ss0 := u16 (Z.shiftl SEG_KDATA 3) |> |>);;
  modify (λ c, c <| ts ::= λ t, t <| ts_esp0 := u32 (p_kstack p + KSTACKSIZE) |> |>);;
  modify (λ c, c <| ts ::= λ t, t <| ts_iomb := u16 0xFFFF |> |>);;
  ltr (Z.shiftl SEG_TSS 3);;
  lcr3 (V2P (p_pgdir p)).

Definition set_gate (i : Z) (d : gatedesc) : CPU unit := modify (λ c, c <| idt ::= <[Z.to_nat i := d]> |>).

Definition tvinit : CPU unit :=
  for_range 0 256 (λ i, set_gate i (SETGATE false (Z.shiftl SEG_KCODE 3) (vectors i) 0));;
  set_gate T_SYSCALL (SETGATE true (Z.shiftl SEG_KCODE 3) (vectors T_SYSCALL) DPL_USER).

Definition idtinit : CPU unit := lidt idt_addr (256 * 8).
End code.

(** [kvmalloc]: the kernel's page table, and the processor on it. *)
Definition kvmalloc `{Linker} (c : cpuhw) : K (Z * cpuhw) :=
  kpgdir ← setupkvm;
  match switchkvm kpgdir c with
  | Ok _ c => mret (kpgdir, c)
  | _ => trap
  end.

(** The page directory of [main.c] that is used until then. *)
Definition entrypgdir : list Z :=
  <[Z.to_nat (Z.shiftr KERNBASE 22) := Z.lor 0 (Z.lor PTE_P (Z.lor PTE_W PTE_PS))]>
    (<[0%nat := Z.lor 0 (Z.lor PTE_P (Z.lor PTE_W PTE_PS))]> (replicate 1024 0)).

(** * The processor *)

Definition hw_base (x : Z) : Z := bits x 16 16 + 65536 * bits x 32 8 + 16777216 * bits x 56 8.
Definition hw_limit (x : Z) : Z :=
  let l := bits x 0 16 + 65536 * bits x 48 4 in if bits x 55 1 =? 1 then l * 4096 + 4095 else l.
Definition hw_type (x : Z) : Z := bits x 40 4.
Definition hw_app (x : Z) : bool := bits x 44 1 =? 1.
Definition hw_dpl (x : Z) : Z := bits x 45 2.
Definition hw_present (x : Z) : bool := bits x 47 1 =? 1.
Definition hw_offset (x : Z) : Z := bits x 0 16 + 65536 * bits x 48 16.
Definition hw_selector (x : Z) : Z := bits x 16 16.

(** Descriptor [sel / 8] of the table. *)
Definition descriptor (c : cpuhw) (sel : Z) : Z := default 0 (segdesc_word <$> gdt c !! Z.to_nat (sel / 8)).
Definition gate (c : cpuhw) (n : Z) : Z := default 0 (gatedesc_word <$> idt c !! Z.to_nat n).

(** The instruction [int n] at privilege level [cpl] faults on a gate of a lower level. *)
Definition int_allowed (c : cpuhw) (cpl n : Z) : bool := hw_present (gate c n) && (cpl <=? hw_dpl (gate c n)).
(** A gate of the interrupt type turns interrupts off. *)
Definition interrupts_off (c : cpuhw) (n : Z) : bool := hw_type (gate c n) =? STS_IG32.

(** Port [port] is open to user code with an I/O privilege level of 0 only when its bit is in the map, which ends with the segment. *)
Definition port_in_map (c : cpuhw) (port : Z) : bool := ts_iomb (ts c) + port / 8 + 1 <=? hw_limit (descriptor c (tr c)).

(** A page directory of large pages. *)
Definition large_page (dir : list Z) (va : Z) : option Z :=
  let e := dir !!! Z.to_nat (Z.shiftr va 22) in
  if (Z.land e PTE_P =? 0) || (Z.land e PTE_PS =? 0) then None else Some (Z.land e 0xffc00000 + va mod 4194304).

(** * Reading the fields back *)

Lemma widths_nonneg l : Forall (λ x, 0 ≤ fst x) l → 0 ≤ widths l.
Proof. induction 1 as [|[w v] l Hw _ IH]; cbn [widths foldr]; [done|]. fold (widths l). cbn in Hw. lia. Qed.

Lemma bits_pack l w v k : Forall (λ x, 0 ≤ fst x) l → 0 ≤ w → bits (pack (l ++ (w, v) :: k)) (widths l) w = v mod 2 ^ w.
Proof.
  intros Hl Hw. unfold bits. induction Hl as [|[w0 v0] l Hw0 Hl IH]; cbn [app pack widths foldr].
  - change (2 ^ 0) with 1. rewrite Z.div_1_r, (Z.mul_comm (2 ^ w)), Z_mod_plus_full. apply Z.mod_mod. pose proof (Z.pow_pos_nonneg 2 w). lia.
  - fold (widths l). cbn [fst] in Hw0. pose proof (widths_nonneg l Hl). rewrite Z.pow_add_r by lia. pose proof (Z.pow_pos_nonneg 2 w0 ltac:(lia) Hw0).
    rewrite <-Z.div_div by (try apply Z.pow_pos_nonneg; lia).
    rewrite (Z.mul_comm (2 ^ w0)), Z.div_add by lia. rewrite (Z.div_small (v0 mod 2 ^ w0)) by (apply Z.mod_pos_bound; lia). by rewrite Z.add_0_l.
Qed.

(** [bits_field l] reads the field after the fields [l]. *)
Ltac field_side := repeat constructor; cbn; lia.
Ltac bits_field l := apply (bits_pack l); [field_side|lia].

Lemma segdesc_fields d : let x := segdesc_word d in
  bits x 0 16 = lim_15_0 d mod 65536 ∧ bits x 16 16 = base_15_0 d mod 65536 ∧ bits x 32 8 = base_23_16 d mod 256 ∧ bits x 40 4 = sd_type d mod 16
  ∧ bits x 44 1 = sd_s d mod 2 ∧ bits x 45 2 = sd_dpl d mod 4 ∧ bits x 47 1 = sd_p d mod 2 ∧ bits x 48 4 = lim_19_16 d mod 16
  ∧ bits x 55 1 = g d mod 2 ∧ bits x 56 8 = base_31_24 d mod 256.
Proof.
  destruct d as [a b c t s dp p l av r d0 gr b3]. cbv zeta. unfold segdesc_word. cbn [lim_15_0 base_15_0 base_23_16 sd_type sd_s sd_dpl sd_p lim_19_16 avl sd_rsv1 db g base_31_24].
  split_and!.
  - bits_field (@nil (Z * Z)).
  - bits_field [(16, a)].
  - bits_field [(16, a); (16, b)].
  - bits_field [(16, a); (16, b); (8, c)].
  - bits_field [(16, a); (16, b); (8, c); (4, t)].
  - bits_field [(16, a); (16, b); (8, c); (4, t); (1, s)].
  - bits_field [(16, a); (16, b); (8, c); (4, t); (1, s); (2, dp)].
  - bits_field [(16, a); (16, b); (8, c); (4, t); (1, s); (2, dp); (1, p)].
  - bits_field [(16, a); (16, b); (8, c); (4, t); (1, s); (2, dp); (1, p); (4, l); (1, av); (1, r); (1, d0)].
  - bits_field [(16, a); (16, b); (8, c); (4, t); (1, s); (2, dp); (1, p); (4, l); (1, av); (1, r); (1, d0); (1, gr)].
Qed.

Lemma gatedesc_fields d : let x := gatedesc_word d in
  bits x 0 16 = off_15_0 d mod 65536 ∧ bits x 16 16 = cs d mod 65536 ∧ bits x 40 4 = gd_type d mod 16
  ∧ bits x 45 2 = gd_dpl d mod 4 ∧ bits x 47 1 = gd_p d mod 2 ∧ bits x 48 16 = off_31_16 d mod 65536.
Proof.
  destruct d as [o c a r t s dp p o2]. cbv zeta. unfold gatedesc_word. cbn [off_15_0 cs args gd_rsv1 gd_type gd_s gd_dpl gd_p off_31_16]. split_and!.
  - bits_field (@nil (Z * Z)).
  - bits_field [(16, o)].
  - bits_field [(16, o); (16, c); (5, a); (3, r)].
  - bits_field [(16, o); (16, c); (5, a); (3, r); (4, t); (1, s)].
  - bits_field [(16, o); (16, c); (5, a); (3, r); (4, t); (1, s); (2, dp)].
  - bits_field [(16, o); (16, c); (5, a); (3, r); (4, t); (1, s); (2, dp); (1, p)].
Qed.

Lemma split_base b : 0 ≤ b < 4294967296 →
  Z.land (u32 b) 0xffff mod 65536 + 65536 * (Z.land (Z.shiftr (u32 b) 16) 0xff mod 256) + 16777216 * (Z.shiftr (u32 b) 24 mod 256) = b.
Proof.
  intros Hb. rewrite u32_small by done. change 0xffff with (Z.ones 16). change 0xff with (Z.ones 8). rewrite !Z.land_ones, !Z.shiftr_div_pow2 by lia.
  change (2 ^ 16) with 65536. change (2 ^ 8) with 256. change (2 ^ 24) with 16777216. zlia.
Qed.

(** A segment with pages as the unit of its limit, and one with bytes. *)
Lemma SEG_decode type base lim dpl : 0 ≤ type < 16 → 0 ≤ base < 4294967296 → 0 ≤ lim < 4294967296 → 0 ≤ dpl < 4 →
  let x := segdesc_word (SEG type base lim dpl) in
  hw_base x = base ∧ hw_limit x = lim / 4096 * 4096 + 4095 ∧ hw_type x = type ∧ hw_app x = true ∧ hw_dpl x = dpl ∧ hw_present x = true.
Proof.
  intros Ht Hb Hl Hd x. destruct (segdesc_fields (SEG type base lim dpl)) as (F1 & F2 & F3 & F4 & F5 & F6 & F7 & F8 & F9 & F10). fold x in F1, F2, F3, F4, F5, F6, F7, F8, F9, F10.
  unfold SEG in *. cbn [lim_15_0 base_15_0 base_23_16 sd_type sd_s sd_dpl sd_p lim_19_16 g base_31_24] in *.
  unfold hw_base, hw_limit, hw_type, hw_app, hw_dpl, hw_present. rewrite F1, F2, F3, F4, F5, F6, F7, F8, F9, F10. split_and!.
  - by apply split_base.
  - change (1 mod 2 =? 1) with true. cbv iota. rewrite u32_small by done. change 0xffff with (Z.ones 16). rewrite Z.land_ones, !Z.shiftr_div_pow2 by lia.
    change (2 ^ 16) with 65536. change (2 ^ 12) with 4096. change (2 ^ 28) with 268435456. zlia.
  - by apply Z.mod_small.
  - done.
  - by apply Z.mod_small.
  - done.
Qed.

Lemma SEG16_decode type base lim dpl : 0 ≤ base < 4294967296 → 0 ≤ lim < 1048576 → 0 ≤ type < 16 →
  let x := segdesc_word ((SEG16 type base lim dpl) <| sd_s := 0 |>) in
  hw_base x = base ∧ hw_limit x = lim ∧ hw_type x = type ∧ hw_app x = false ∧ hw_present x = true.
Proof.
  intros Hb Hl Ht x. destruct (segdesc_fields ((SEG16 type base lim dpl) <| sd_s := 0 |>)) as (F1 & F2 & F3 & F4 & F5 & F6 & F7 & F8 & F9 & F10). fold x in F1, F2, F3, F4, F5, F6, F7, F8, F9, F10.
  unfold SEG16, over in *. cbn [lim_15_0 base_15_0 base_23_16 sd_type sd_s sd_dpl sd_p lim_19_16 avl sd_rsv1 db g base_31_24] in *.
  unfold hw_base, hw_limit, hw_type, hw_app, hw_present. rewrite F1, F2, F3, F4, F5, F7, F8, F9, F10. split_and!.
  - by apply split_base.
  - change (0 mod 2 =? 1) with false. cbv iota. rewrite u32_small by lia. change 0xffff with (Z.ones 16). rewrite Z.land_ones, Z.shiftr_div_pow2 by lia.
    change (2 ^ 16) with 65536. zlia.
  - by apply Z.mod_small.
  - done.
  - done.
Qed.

Lemma SETGATE_decode istrap sel off d : 0 ≤ sel < 65536 → 0 ≤ off < 4294967296 → 0 ≤ d < 4 →
  let x := gatedesc_word (SETGATE istrap sel off d) in
  hw_offset x = off ∧ hw_selector x = sel ∧ hw_type x = (if istrap then STS_TG32 else STS_IG32) ∧ hw_dpl x = d ∧ hw_present x = true.
Proof.
  intros Hs Ho Hd x. destruct (gatedesc_fields (SETGATE istrap sel off d)) as (F1 & F2 & F3 & F4 & F5 & F6). fold x in F1, F2, F3, F4, F5, F6.
  unfold SETGATE in *. cbn [off_15_0 cs gd_type gd_dpl gd_p off_31_16] in *. unfold hw_offset, hw_selector, hw_type, hw_dpl, hw_present. rewrite F1, F2, F3, F4, F5, F6. split_and!.
  - rewrite u32_small by done. change 0xffff with (Z.ones 16). rewrite Z.land_ones, Z.shiftr_div_pow2 by lia. change (2 ^ 16) with 65536. zlia.
  - by apply Z.mod_small.
  - by destruct istrap.
  - by apply Z.mod_small.
  - done.
Qed.

(** * The tables *)

Section tables.
Context (gdt_addr ts_addr idt_addr : Z) (vectors : Z → Z).

Lemma seginit_run c : length (gdt c) = 6%nat → ∃ c', seginit gdt_addr c = Ok tt c'
  ∧ (∀ sel d, (sel, d) ∈ [(8, SEG 10 0 0xffffffff 0); (16, SEG 2 0 0xffffffff 0); (24, SEG 10 0 0xffffffff 3); (32, SEG 2 0 0xffffffff 3)] →
       gdt c' !! Z.to_nat (sel / 8) = Some d)
  ∧ length (gdt c') = 6%nat ∧ c' <| gdt := gdt c |> <| gdtr := gdtr c |> = c ∧ gdtr c' = (47, u16 gdt_addr + 65536 * u16 (Z.shiftr (u32 gdt_addr) 16)).
Proof.
  intros Hl. destruct c as [gd t id gr ir tr0 cr]. cbn in Hl. destruct gd as [|g0 [|g1 [|g2 [|g3 [|g4 [|g5 [|]]]]]]]; try done.
  eexists. split; [reflexivity|]. split; [|done]. intros sel d. rewrite !elem_of_cons, elem_of_nil. intros [[= -> ->]|[[= -> ->]|[[= -> ->]|[[= -> ->]|[]]]]]; done.
Qed.

Lemma tvinit_run c : length (idt c) = 256%nat → ∃ c', tvinit vectors c = Ok tt c' ∧ c' <| idt := idt c |> = c ∧ length (idt c') = 256%nat
  ∧ ∀ n, 0 ≤ n < 256 → idt c' !! Z.to_nat n = Some (if n =? T_SYSCALL then SETGATE true 8 (vectors n) 3 else SETGATE false 8 (vectors n) 0).
Proof.
  intros Hl. pose (J := λ m c1, c1 <| idt := idt c |> = c ∧ length (idt c1) = 256%nat ∧ ∀ n, 0 ≤ n < Z.of_nat m → idt c1 !! Z.to_nat n = Some (SETGATE false 8 (vectors n) 0)).
  assert (wp (for_range 0 256 (λ i, set_gate i (SETGATE false (Z.shiftl SEG_KCODE 3) (vectors i) 0))) c (λ _ c1, J 256%nat c1)) as ([] & c1 & E1 & Hc1 & Hl1 & Hg1)%wp_elim.
  { apply (wp_for_range J); [|intros m c1 Hm (Hc1 & Hl1 & Hg1)|done].
    - split; [by destruct c|]. split; [done|]. intros; lia.
    - apply wp_modify. split; [by rewrite <-Hc1; destruct c1|]. split; [cbn; by rewrite length_insert|]. intros n Hn. cbn.
      rewrite Z.add_0_l, Nat2Z.id. destruct (decide (n = Z.of_nat m)) as [->|Hne].
      + rewrite Nat2Z.id. apply list_lookup_insert_eq. by rewrite Hl1.
      + rewrite list_lookup_insert_ne by lia. apply Hg1. lia. }
  unfold tvinit. mstep_with E1. eexists. split; [reflexivity|]. split; [by rewrite <-Hc1; destruct c1|]. split; [cbn; by rewrite length_insert|].
  intros n Hn. cbn [idt over upd_cpuhw]. unfold over. cbn [idt]. destruct (Z.eqb_spec n T_SYSCALL) as [->|Hne].
  - trans (Some (SETGATE true (Z.shiftl SEG_KCODE 3) (vectors T_SYSCALL) DPL_USER)); [|done]. apply list_lookup_insert_eq. rewrite Hl1. apply Nat.ltb_lt. done.
  - rewrite list_lookup_insert_ne by (unfold T_SYSCALL in *; lia). by apply Hg1.
Qed.

Lemma switchuvm_task_run p c : length (gdt c) = 6%nat → ∃ c', switchuvm_task ts_addr p c = Ok tt c'
  ∧ c' = mk_cpuhw (<[5%nat := (SEG16 STS_T32A ts_addr 103 0) <| sd_s := 0 |>]> (gdt c)) (mk_taskstate (u32 (p_kstack p + KSTACKSIZE)) 16 65535) (idt c) (gdtr c) (idtr c) 40 (V2P (p_pgdir p)).
Proof.
  intros Hl. destruct c as [gd t id gr ir tr0 cr]. cbn in Hl. destruct gd as [|g0 [|g1 [|g2 [|g3 [|g4 [|g5 [|]]]]]]]; try done.
  eexists. split; [reflexivity|]. unfold V2P. f_equal. cbn. unfold u32. by rewrite Z.mod_mod.
Qed.
End tables.

Lemma u16_split a : 0 ≤ a < 4294967296 → u16 a + 65536 * u16 (Z.shiftr (u32 a) 16) = a.
Proof. intros Ha. rewrite u32_small by done. rewrite Z.shiftr_div_pow2 by lia. change (2 ^ 16) with 65536. unfold u16. zlia. Qed.

(** [seginit], [tvinit], [idtinit] and [switchuvm] for the process [p], in the order of start-up. *)
Definition set_up (gdt_addr ts_addr idt_addr : Z) (vectors : Z → Z) (p : proc) : M cpuhw unit :=
  seginit gdt_addr;; tvinit vectors;; idtinit idt_addr;; switchuvm_task ts_addr p.

Lemma entrypgdir_entry i : 0 ≤ i < 1024 → entrypgdir !!! Z.to_nat i = if (i =? 0) || (i =? 512) then 131 else 0.
Proof.
  intros Hi. assert (forallb (λ i, (entrypgdir !!! Z.to_nat i) =? (if (i =? 0) || (i =? 512) then 131 else 0)) (seqZ 0 1024) = true) as E by (vm_compute; reflexivity).
  rewrite forallb_forall in E. apply Z.eqb_eq, E, list_elem_of_In, elem_of_seqZ. lia.
Qed.

(** The same memory, with or without [KERNBASE]. *)
Lemma entrypgdir_maps va : 0 ≤ va < 4294967296 →
  large_page entrypgdir va = if decide (va < 4194304) then Some va else if decide (KERNBASE ≤ va < KERNBASE + 4194304) then Some (va - KERNBASE) else None.
Proof.
  intros Hv. unfold large_page, KERNBASE. rewrite Z.shiftr_div_pow2 by lia. change (2 ^ 22) with 4194304. rewrite entrypgdir_entry by zlia.
  destruct (Z.eqb_spec (va / 4194304) 0) as [E|N]; [|destruct (Z.eqb_spec (va / 4194304) 512) as [E|N2]]; cbn [orb].
  - rewrite decide_True by zlia. change (Some (0 + va mod 4194304) = Some va). f_equal. zlia.
  - rewrite decide_False, decide_True by zlia. change (Some (0 + va mod 4194304) = Some (va - 2147483648)). f_equal. zlia.
  - rewrite !decide_False by zlia. done.
Qed.

(** * Properties *)

(** C40: the kernel's protection holds when a process is switched to.  The segments for kernel and user code and data cover all addresses, with
    privilege level 0 and 3.  Every vector goes to its handler in the kernel's code segment, with interrupts off but for system
    calls, and user code can raise no other vector than the system call's with [int].  An interrupt in user mode changes to the top of the process's own
    kernel stack, its page table is the process's, and no I/O port is open to it. *)
Theorem protection_correct (gdt_addr ts_addr idt_addr : Z) (vectors : Z → Z) (p : proc) (c : cpuhw) :
  length (gdt c) = 6%nat → length (idt c) = 256%nat → 0 ≤ gdt_addr < 4294967296 → 0 ≤ ts_addr < 4294967296 → 0 ≤ idt_addr < 4294967296 →
  (∀ n, 0 ≤ vectors n < 4294967296) →
  ∃ c', set_up gdt_addr ts_addr idt_addr vectors p c = Ok tt c'
    ∧ gdtr c' = (47, gdt_addr) ∧ idtr c' = (2047, idt_addr)
    ∧ (∀ sel dpl type, (sel, dpl, type) ∈ [(8, 0, Z.lor STA_X STA_R); (16, 0, STA_W); (24, 3, Z.lor STA_X STA_R); (32, 3, STA_W)] →
         let d := descriptor c' sel in hw_base d = 0 ∧ hw_limit d = 4294967295 ∧ hw_dpl d = dpl ∧ hw_type d = type ∧ hw_app d = true ∧ hw_present d = true)
    ∧ (∀ n, 0 ≤ n < 256 → hw_offset (gate c' n) = vectors n ∧ hw_selector (gate c' n) = 8
         ∧ interrupts_off c' n = negb (n =? T_SYSCALL) ∧ int_allowed c' 3 n = (n =? T_SYSCALL))
    ∧ (let d := descriptor c' (tr c') in hw_base d = ts_addr ∧ hw_type d = STS_T32A ∧ hw_app d = false ∧ hw_present d = true)
    ∧ ts_esp0 (ts c') = u32 (p_kstack p + KSTACKSIZE) ∧ ts_ss0 (ts c') = 16 ∧ cr3 c' = V2P (p_pgdir p)
    ∧ ∀ port, 0 ≤ port < 65536 → port_in_map c' port = false.
Proof.
  intros Hg Hi Hga Hta Hia Hv. destruct (seginit_run gdt_addr c Hg) as (c1 & E1 & Hd1 & Hl1 & Hf1 & Hgr1).
  assert (Hi1 : length (idt c1) = 256%nat) by (rewrite <-Hi, <-Hf1; by destruct c1).
  destruct (tvinit_run vectors c1 Hi1) as (c2 & E2 & Hf2 & Hl2 & Hg2).
  assert (gdt c2 = gdt c1 ∧ gdtr c2 = gdtr c1) as [Eg2 Er2] by (rewrite <-Hf2; by destruct c2).
  pose (c3 := c2 <| idtr := pseudo_desc idt_addr (256 * 8) |>). assert (E3 : idtinit idt_addr c2 = Ok tt c3) by done.
  destruct (switchuvm_task_run ts_addr p c3) as (c4 & E4 & Ec4); [change (length (gdt c2) = 6%nat); by rewrite Eg2|].
  change (gdt c3) with (gdt c2) in Ec4. change (idt c3) with (idt c2) in Ec4. change (gdtr c3) with (gdtr c2) in Ec4. change (idtr c3) with (pseudo_desc idt_addr (256 * 8)) in Ec4.
  rewrite Eg2, Er2, Hgr1, u16_split in Ec4 by done.
  assert (Htss : descriptor c4 (tr c4) = segdesc_word ((SEG16 STS_T32A ts_addr 103 0) <| sd_s := 0 |>)).
  { rewrite Ec4. unfold descriptor. cbn [gdt tr]. change (Z.to_nat (40 / 8)) with 5%nat. by rewrite list_lookup_insert_eq by (rewrite Hl1; lia). }
  destruct (SEG16_decode STS_T32A ts_addr 103 0 Hta ltac:(lia) ltac:(done)) as (T1 & T2 & T3 & T4 & T5).
  exists c4. split.
  { unfold set_up. mstep_with E1. mstep_with E2. mstep_with E3. exact E4. }
  split; [by rewrite Ec4|]. split; [rewrite Ec4; cbn [idtr]; unfold pseudo_desc; by rewrite u16_split|]. split_and!.
  - intros sel dpl type Hin. assert (Hsel : ∃ d, gdt c1 !! Z.to_nat (sel / 8) = Some d ∧ Z.to_nat (sel / 8) ≠ 5%nat ∧ d = SEG type 0 0xffffffff dpl ∧ 0 ≤ type < 16 ∧ 0 ≤ dpl < 4).
    { rewrite !elem_of_cons, elem_of_nil in Hin.
      destruct Hin as [[= -> -> ->]|[[= -> -> ->]|[[= -> -> ->]|[[= -> -> ->]|[]]]]];
        (eexists; split; [apply Hd1; rewrite !elem_of_cons; tauto|]; split_and!; done). }
    destruct Hsel as (d & Hsel & H5 & -> & Ht & Hp). destruct (SEG_decode type 0 0xffffffff dpl Ht ltac:(lia) ltac:(lia) Hp) as (D1 & D2 & D3 & D4 & D5 & D6).
    assert (descriptor c4 sel = segdesc_word (SEG type 0 0xffffffff dpl)) as ->.
    { rewrite Ec4. unfold descriptor. cbn [gdt]. rewrite list_lookup_insert_ne by done. by rewrite Hsel. }
    cbv zeta. split_and!; [done|rewrite D2; reflexivity|done|done|done|done].
  - intros n Hn. assert (gate c4 n = gatedesc_word (SETGATE (n =? T_SYSCALL) 8 (vectors n) (if n =? T_SYSCALL then 3 else 0))) as E.
    { rewrite Ec4. unfold gate. cbn [idt]. rewrite Hg2 by done. by destruct (n =? T_SYSCALL). }
    destruct (SETGATE_decode (n =? T_SYSCALL) 8 (vectors n) (if n =? T_SYSCALL then 3 else 0) ltac:(lia) (Hv n) ltac:(destruct (n =? T_SYSCALL); lia)) as (G1 & G2 & G3 & G4 & G5).
    unfold interrupts_off, int_allowed. rewrite E, G1, G2, G3, G4, G5. by destruct (n =? T_SYSCALL).
  - cbv zeta. by rewrite Htss.
  - by rewrite Ec4.
  - by rewrite Ec4.
  - by rewrite Ec4.
  - intros port Hport. unfold port_in_map. rewrite Htss, T2. rewrite Ec4. cbn [ts ts_iomb]. apply Z.leb_gt. pose proof (Z.div_pos port 8). lia.
Qed.

Definition demo_cpu : cpuhw := mk_cpuhw (replicate 6 (mk_segdesc 0 0 0 0 0 0 0 0 0 0 0 0 0)) (mk_taskstate 0 0 0) (replicate 256 (mk_gatedesc 0 0 0 0 0 0 0 0 0)) (0, 0) (0, 0) 0 0.
Definition demo_vectors (n : Z) : Z := KERNLINK + 4096 + 10 * (n mod 256).

Lemma protection_correct_witness :
  ∃ c', set_up 0x80112780 0x80112714 0x80114c60 demo_vectors (demo_proc RUNNING 1) demo_cpu = Ok tt c'
    ∧ hw_offset (gate c' 14) = demo_vectors 14 ∧ int_allowed c' 3 14 = false ∧ int_allowed c' 3 64 = true ∧ port_in_map c' 0x1f7 = false.
Proof.
  destruct (protection_correct 0x80112780 0x80112714 0x80114c60 demo_vectors (demo_proc RUNNING 1) demo_cpu) as (c' & E & _ & _ & _ & Hg & _ & _ & _ & _ & Hp).
  - reflexivity.
  - reflexivity.
  - lia.
  - lia.
  - lia.
  - intros n. unfold demo_vectors, KERNLINK, KERNBASE, EXTMEM. pose proof (Z.mod_pos_bound n 256). lia.
  - exists c'. split; [exact E|]. destruct (Hg 14 ltac:(lia)) as (G1 & _ & _ & G4). destruct (Hg 64 ltac:(lia)) as (_ & _ & _ & G5).
    split; [exact G1|]. split; [exact G4|]. split; [exact G5|]. exact (Hp 0x1f7 ltac:(lia)).
Defined.
