(* ===== verification/Irq.v ===== *)
(** Interrupts: the local interrupt controller of each processor ([lapic.c]), the I/O controller that routes the interrupts of the devices
    to the processors ([ioapic.c]) and the old controllers, which are turned off ([picirq.c]).

    The controllers are a parameter: the class [Apics] has the registers, [Apics_laws] says what they do.  The state of the code is
    the kernel's memory, which is written to start a processor, the values written to I/O ports, and the controllers. *)
From S2P Require Export Trap.
Open Scope Z_scope.

(** * lapic.c *)
Definition ID : Z := 0x0020 / 4.
Definition VER : Z := 0x0030 / 4.
Definition TPR : Z := 0x0080 / 4.
Definition EOI : Z := 0x00B0 / 4.
Definition SVR : Z := 0x00F0 / 4.
Definition ENABLE : Z := 0x00000100.
Definition ESR : Z := 0x0280 / 4.
Definition ICRLO : Z := 0x0300 / 4.
Definition INIT : Z := 0x00000500.
Definition STARTUP : Z := 0x00000600.
Definition DELIVS : Z := 0x00001000.
Definition ASSERT : Z := 0x00004000.
Definition LEVEL : Z := 0x00008000.
Definition BCAST : Z := 0x00080000.
Definition ICRHI : Z := 0x0310 / 4.
Definition TIMER : Z := 0x0320 / 4.
Definition X1 : Z := 0x0000000B.
Definition PERIODIC : Z := 0x00020000.
Definition PCINT : Z := 0x0340 / 4.
Definition LINT0 : Z := 0x0350 / 4.
Definition LINT1 : Z := 0x0360 / 4.
Definition ERROR : Z := 0x0370 / 4.
Definition MASKED : Z := 0x00010000.
Definition TICR : Z := 0x0380 / 4.
Definition TDCR : Z := 0x03E0 / 4.
Definition IRQ_ERROR : Z := 19.

(** * ioapic.c *)
Definition REG_ID : Z := 0x00.
Definition REG_VER : Z := 0x01.
Definition REG_TABLE : Z := 0x10.
Definition INT_DISABLED : Z := 0x00010000.

(** * picirq.c *)
Definition IO_PIC1 : Z := 0x20.
Definition IO_PIC2 : Z := 0xA0.

(** The registers of the local controller, by index, and the two of the I/O controller: [reg] selects what [data] shows. *)
Class Apics (D : Type) := {
  lapic_read : Z → D → Z * D;
  lapic_write : Z → Z → D → D;
  ioapic_reg : Z → D → D;
  ioapic_get : D → Z * D;
  ioapic_set : Z → D → D }.

Record board (D : Type) := mk_board { bd_mem : gmap Z Z; bd_ports : list (Z * Z); bd_apics : D }.
Arguments mk_board {D}.
Arguments bd_mem {D}.
Arguments bd_ports {D}.
Arguments bd_apics {D}.

Section code.
Context {D} `{Apics D}.
(** The address of the local controller, 0 if there is none, and the number of the I/O controller that [mpinit] has found. *)
Context (lapic ioapicid : Z).
Abbreviation B := (M (board D)).

Definition upd_apics (f : D → D) : B unit := modify (λ s, mk_board (bd_mem s) (bd_ports s) (f (bd_apics s))).
Definition set_mem (f : gmap Z Z → gmap Z Z) : B unit := modify (λ s, mk_board (f (bd_mem s)) (bd_ports s) (bd_apics s)).
Definition outb (port v : Z) : B unit := modify (λ s, mk_board (bd_mem s) ((port, u8 v) :: bd_ports s) (bd_apics s)).

Definition lapic_get (index : Z) : B Z := λ s, let '(v, d) := lapic_read index (bd_apics s) in Ok v (mk_board (bd_mem s) (bd_ports s) d).
Definition lapicw (index value : Z) : B unit :=
  upd_apics (lapic_write index (u32 value));;
  lapic_get ID;;
  mret tt.

Definition wait_delivered : B (unit + unit) :=
  v ← lapic_get ICRLO;
  mret (if Z.land v DELIVS =? 0 then inr tt else inl tt).

Definition lapicinit (fuel : nat) : B unit :=
  if lapic =? 0 then mret tt else
  lapicw SVR (Z.lor ENABLE (T_IRQ0 + IRQ_SPURIOUS));;
  lapicw TDCR X1;;
  lapicw TIMER (Z.lor PERIODIC (T_IRQ0 + IRQ_TIMER));;
  lapicw TICR 10000000;;
  lapicw LINT0 MASKED;;
  lapicw LINT1 MASKED;;
  ver ← lapic_get VER;
  (if 4 <=? Z.land (Z.shiftr ver 16) 0xFF then lapicw PCINT MASKED else mret tt);;
  lapicw ERROR (T_IRQ0 + IRQ_ERROR);;
  lapicw ESR 0;;
  lapicw ESR 0;;
  lapicw EOI 0;;
  lapicw ICRHI 0;;
  lapicw ICRLO (Z.lor BCAST (Z.lor INIT LEVEL));;
  iterM fuel (λ _ : unit, wait_delivered) tt;;
  lapicw TPR 0.

Definition lapicid : B Z :=
  if lapic =? 0 then mret 0 else
  id ← lapic_get ID;
  mret (Z.shiftr id 24).

Definition lapiceoi : B unit := if lapic =? 0 then mret tt else lapicw EOI 0.

Definition lapicstartap (apicid addr : Z) : B unit :=
  outb 0x70 0xF;;
  outb 0x71 0x0A;;
  let wrv := P2V (Z.lor (Z.shiftl 0x40 4) 0x67) in
  set_mem (λ m, st16 m wrv 0);;
  set_mem (λ m, st16 m (wrv + 2) (Z.shiftr addr 4));;
  lapicw ICRHI (Z.shiftl apicid 24);;
  lapicw ICRLO (Z.lor INIT (Z.lor LEVEL ASSERT));;
  lapicw ICRLO (Z.lor INIT LEVEL);;
  for_range 0 2 (λ _,
    lapicw ICRHI (Z.shiftl apicid 24);;
    lapicw ICRLO (Z.lor STARTUP (Z.shiftr addr 12))).

(** * ioapic.c *)
Definition ioapic_data : B Z := λ s, let '(v, d) := ioapic_get (bd_apics s) in Ok v (mk_board (bd_mem s) (bd_ports s) d).
Definition ioapicread (reg : Z) : B Z :=
  upd_apics (ioapic_reg reg);;
  ioapic_data.
Definition ioapicwrite (reg data : Z) : B unit :=
  upd_apics (ioapic_reg reg);;
  upd_apics (ioapic_set (u32 data)).

(** Whether it prints its message is the result. *)
Definition ioapicinit : B bool :=
  ver ← ioapicread REG_VER;
  let maxintr := Z.land (Z.shiftr ver 16) 0xFF in
  rid ← ioapicread REG_ID;
  let id := Z.shiftr rid 24 in
  for_range 0 (Z.to_nat (maxintr + 1)) (λ i,
    ioapicwrite (REG_TABLE + 2 * i) (Z.lor INT_DISABLED (T_IRQ0 + i));;
    ioapicwrite (REG_TABLE + 2 * i + 1) 0);;
  mret (negb (id =? ioapicid)).

Definition ioapicenable (irq cpunum : Z) : B unit :=
  ioapicwrite (REG_TABLE + 2 * irq) (T_IRQ0 + irq);;
  ioapicwrite (REG_TABLE + 2 * irq + 1) (Z.shiftl cpunum 24).

(** * picirq.c *)
Definition picinit : B unit :=
  outb (IO_PIC1 + 1) 0xFF;;
  outb (IO_PIC2 + 1) 0xFF.

(** The first of [main]'s calls that set up interrupts; [Uart.init_interrupts] has all of them, with the port's. *)
Definition init_controllers (fuel : nat) : B bool :=
  lapicinit fuel;;
  picinit;;
  ioapicinit.

(** The lines by which [consoleinit], and [ideinit] on a machine of [ncpu] processors, enable their interrupts. *)
Definition consoleinit_irq : B unit := ioapicenable IRQ_KBD 0.
Definition ideinit_irq (ncpu : Z) : B unit := ioapicenable IRQ_IDE (ncpu - 1).
End code.

(** * The controllers *)

(** What the controllers hold: the registers of the local one, the messages it has sent to other processors (destination and command)
    and how often it was told that an interrupt is done; the registers of the I/O controller and the one selected. *)
Record apics := mk_apics { a_local : Z → Z; a_sent : list (Z * Z); a_done : nat; a_io : Z → Z; a_sel : Z }.
#[export] Instance upd_apics_record : Updatable apics := λ r, mk_apics (a_local r) (a_sent r) (a_done r) (a_io r) (a_sel r).
Definition set_reg (i v : Z) (f : Z → Z) : Z → Z := λ j, if j =? i then v else f j.

(** A write of the low half of the command register sends the message to the processor that the high half names. *)
Definition apic_write (i v : Z) (a : apics) : apics :=
  if i =? ICRLO then a <| a_sent ::= λ l, l ++ [(Z.shiftr (a_local a ICRHI) 24, v)] |>
  else if i =? EOI then a <| a_done ::= S |>
  else if i =? ESR then a
  else a <| a_local ::= set_reg i v |>.

(** [busy] is how often the status must be read until it says that the last message is delivered, [delivery] at most. *)
Class Apics_laws (D : Type) `{Apics D} := {
  abs : D → apics;
  busy : D → nat;
  delivery : nat;
  abs_read i d : abs (snd (lapic_read i d)) = abs d;
  read_reg i d : i ∈ [ID; VER] → fst (lapic_read i d) = a_local (abs d) i;
  read_status d : Z.land (fst (lapic_read ICRLO d)) DELIVS = 0 ↔ busy d = 0%nat;
  read_busy d : busy (snd (lapic_read ICRLO d)) = pred (busy d);
  busy_bound d : (busy d ≤ delivery)%nat;
  abs_write i v d : abs (lapic_write i v d) = apic_write i v (abs d);
  abs_reg r d : abs (ioapic_reg r d) = (abs d) <| a_sel := r |>;
  abs_set v d : abs (ioapic_set v d) = (abs d) <| a_io ::= set_reg (a_sel (abs d)) v |>;
  abs_get d : abs (snd (ioapic_get d)) = abs d;
  get_reg d : fst (ioapic_get d) = a_io (abs d) (a_sel (abs d)) }.

(** Where the I/O controller sends interrupt [i]: the vector and the processor, if the interrupt is enabled. *)
Definition route (a : apics) (i : Z) : option (Z * Z) :=
  let low := a_io a (REG_TABLE + 2 * i) in
  if Z.testbit low 16 then None else Some (Z.land low 0xff, Z.shiftr (a_io a (REG_TABLE + 2 * i + 1)) 24).
(** The last interrupt it has. *)
Definition last_irq (a : apics) : Z := Z.land (Z.shiftr (a_io a REG_VER) 16) 0xff.

Section proofs.
Context {D} `{Apics_laws D}.
Abbreviation B := (M (board D)).

Definition view (s : board D) : gmap Z Z * list (Z * Z) * apics := (bd_mem s, bd_ports s, abs (bd_apics s)).

(** From the view [v], [m] returns [x] and leaves the view [v']. *)
Definition does {A} (m : B A) (x : A) (v v' : gmap Z Z * list (Z * Z) * apics) : Prop := ∀ s, view s = v → ∃ s', m s = Ok x s' ∧ view s' = v'.

Lemma does_ret {A} (x : A) v : does (mret x) x v v.
Proof. intros s E. by exists s. Qed.
Lemma does_bind {A C} (m : B A) (f : A → B C) x y v v1 v2 : does m x v v1 → does (f x) y v1 v2 → does (m ≫= f) y v v2.
Proof. intros Hm Hf s E. destruct (Hm s E) as (s1 & E1 & V1). destruct (Hf s1 V1) as (s2 & E2 & V2). exists s2. split; [|done]. by rewrite (bind_ok _ _ _ _ _ E1). Qed.

Lemma outb_does p x m l a : does (outb p x) tt (m, l, a) (m, (p, u8 x) :: l, a).
Proof. intros s [= <- <- <-]. by eexists. Qed.
Lemma upd_apics_does f g m l a : (∀ d, abs (f d) = g (abs d)) → does (upd_apics f) tt (m, l, a) (m, l, g a).
Proof. intros Hf s [= <- <- <-]. eexists. split; [done|]. unfold view. cbn. by rewrite Hf. Qed.
Lemma lapic_get_does i m l a : i ∈ [ID; VER] → does (lapic_get i) (a_local a i) (m, l, a) (m, l, a).
Proof.
  intros Hi s [= <- <- <-]. exists (mk_board (bd_mem s) (bd_ports s) (snd (lapic_read i (bd_apics s)))). rewrite <-read_reg by done. unfold lapic_get, view. cbn.
  rewrite abs_read. by destruct (lapic_read i (bd_apics s)).
Qed.
Lemma lapicw_does i x m l a : does (lapicw i x) tt (m, l, a) (m, l, apic_write i (u32 x) a).
Proof.
  eapply does_bind; [apply upd_apics_does; intros d; apply abs_write|]. eapply does_bind; [apply lapic_get_does; set_solver|apply does_ret].
Qed.
Lemma wait_does fuel v : (delivery < fuel)%nat → does (iterM fuel (λ _ : unit, wait_delivered) tt) tt v v.
Proof.
  intros Hf s E. assert (Hb : (busy (bd_apics s) < fuel)%nat) by (pose proof (busy_bound (bd_apics s)); lia). clear Hf. revert s E Hb.
  induction fuel as [|fuel IH]; intros s E Hb; [lia|]. set (d' := snd (lapic_read ICRLO (bd_apics s))). set (s' := mk_board (bd_mem s) (bd_ports s) d').
  assert (Ew : wait_delivered s = Ok (if Z.land (fst (lapic_read ICRLO (bd_apics s))) DELIVS =? 0 then inr tt else inl tt) s').
  { unfold wait_delivered, mbind, M_bind, lapic_get, s', d'. by destruct (lapic_read ICRLO (bd_apics s)). }
  assert (Ev : view s' = v) by (rewrite <-E; unfold view, s', d'; cbn; by rewrite abs_read).
  destruct (Z.eqb_spec (Z.land (fst (lapic_read ICRLO (bd_apics s))) DELIVS) 0) as [Hz|Hz].
  - exists s'. split; [by erewrite iterM_inr; [|exact Ew]|done].
  - erewrite iterM_inl; [|exact Ew]. apply IH; [done|]. unfold s', d'. cbn [bd_apics]. rewrite read_busy.
    destruct (busy (bd_apics s)) eqn:Eb; [|cbn; lia]. by apply read_status in Eb.
Qed.
Lemma ioapicread_does r m l a : does (ioapicread r) (a_io a r) (m, l, a) (m, l, a <| a_sel := r |>).
Proof.
  eapply does_bind; [apply (upd_apics_does _ (λ a, a <| a_sel := r |>)); intros d; apply abs_reg|]. intros s [= <- <- E].
  exists (mk_board (bd_mem s) (bd_ports s) (snd (ioapic_get (bd_apics s)))). unfold ioapic_data, view. cbn. rewrite abs_get, E. split; [|done].
  destruct (ioapic_get (bd_apics s)) as [x d] eqn:Eg. cbn. f_equal. pose proof (get_reg (bd_apics s)) as Hg. rewrite Eg, E in Hg. exact Hg.
Qed.
Lemma ioapicwrite_does r x m l a : does (ioapicwrite r x) tt (m, l, a) (m, l, a <| a_sel := r |> <| a_io ::= set_reg r (u32 x) |>).
Proof.
  eapply does_bind; [apply (upd_apics_does _ (λ a, a <| a_sel := r |>)); intros d; apply abs_reg|].
  apply (upd_apics_does _ (λ a, a <| a_io ::= set_reg (a_sel a) (u32 x) |>)). intros d. apply abs_set.
Qed.

(** ** The table of the I/O controller *)
Fixpoint times (i : Z) (n : nat) (f : Z → apics → apics) (a : apics) : apics :=
  match n with O => a | S n => times (i + 1) n f (f i a) end.
Lemma for_does body f m l : (∀ i a, does (body i) tt (m, l, a) (m, l, f i a)) → ∀ n i a, does (for_range i n body) tt (m, l, a) (m, l, times i n f a).
Proof. intros Hb n. induction n as [|n IH]; intros i a; cbn [for_range times]; [apply does_ret|]. eapply does_bind; [apply Hb|apply IH]. Qed.

Definition entry_low (i x : Z) (a : apics) : apics := a <| a_sel := REG_TABLE + 2 * i |> <| a_io ::= set_reg (REG_TABLE + 2 * i) (u32 x) |>.
Definition entry_high (i x : Z) (a : apics) : apics := a <| a_sel := REG_TABLE + 2 * i + 1 |> <| a_io ::= set_reg (REG_TABLE + 2 * i + 1) (u32 x) |>.
Definition disable (i : Z) (a : apics) : apics := entry_high i 0 (entry_low i (Z.lor INT_DISABLED (T_IRQ0 + i)) a).
Definition enable (i c : Z) (a : apics) : apics := entry_high i (Z.shiftl c 24) (entry_low i (T_IRQ0 + i) a).

Lemma entry_io i x y a r : a_io (entry_high i y (entry_low i x a)) r
  = if r =? REG_TABLE + 2 * i + 1 then u32 y else if r =? REG_TABLE + 2 * i then u32 x else a_io a r.
Proof. done. Qed.
Lemma entry_route i x y a j : route (entry_high i y (entry_low i x a)) j
  = if j =? i then (if Z.testbit (u32 x) 16 then None else Some (Z.land (u32 x) 0xff, Z.shiftr (u32 y) 24)) else route a j.
Proof.
  unfold route. rewrite !entry_io. destruct (Z.eqb_spec j i) as [->|Hne].
  - rewrite (proj2 (Z.eqb_neq (REG_TABLE + 2 * i) _)) by lia. by rewrite !Z.eqb_refl.
  - by rewrite !(proj2 (Z.eqb_neq _ _)) by lia.
Qed.
Lemma disable_route i a j : route (disable i a) j = if j =? i then None else route a j.
Proof.
  unfold disable. rewrite entry_route. replace (Z.testbit (u32 _) 16) with true; [done|]. unfold u32. change 4294967296 with (2 ^ 32).
  rewrite Z.mod_pow2_bits_low by lia. by rewrite Z.lor_spec.
Qed.
Lemma enable_route i c a j : 0 ≤ i < 24 → 0 ≤ c < 256 → route (enable i c a) j = if j =? i then Some (T_IRQ0 + i, c) else route a j.
Proof.
  intros Hi Hc. unfold enable. rewrite entry_route. destruct (j =? i); [|done]. unfold T_IRQ0. rewrite !u32_small; [|rewrite Z.shiftl_mul_pow2; lia|lia].
  assert (Z.testbit (32 + i) 16 = false) as -> by (rewrite Z.testbit_false, Z.div_small by lia; done).
  change 0xff with (Z.ones 8). rewrite Z.land_ones, Z.mod_small by lia. by rewrite Z.shiftr_shiftl_l by lia.
Qed.
Lemma disabled_route n i a j : route (times i n disable a) j = if (i <=? j) && (j <? i + Z.of_nat n) then None else route a j.
Proof.
  revert i a. induction n as [|n IH]; intros i a; cbn [times].
  - destruct (Z.leb_spec i j), (Z.ltb_spec j (i + Z.of_nat 0)); cbn [andb]; try done. lia.
  - rewrite IH, disable_route. destruct (Z.eqb_spec j i), (Z.leb_spec (i + 1) j), (Z.leb_spec i j), (Z.ltb_spec j (i + 1 + Z.of_nat n)), (Z.ltb_spec j (i + Z.of_nat (S n))); cbn [andb]; try done; lia.
Qed.
(** What is not in the table stays. *)
Definition same_local (a a' : apics) : Prop := a_local a' = a_local a ∧ a_sent a' = a_sent a ∧ a_done a' = a_done a.
Lemma disabled_local n i a : same_local a (times i n disable a).
Proof. revert i a. induction n as [|n IH]; intros i a; cbn [times]; [done|]. apply (IH (i + 1) (disable i a)). Qed.

Lemma ioapicenable_does i c m l a : does (ioapicenable i c) tt (m, l, a) (m, l, enable i c a).
Proof. eapply does_bind; [apply ioapicwrite_does|apply ioapicwrite_does]. Qed.
Lemma ioapicinit_does ioapicid m l a : ∃ b a', does (ioapicinit ioapicid) b (m, l, a) (m, l, a') ∧ same_local a a'
  ∧ ∀ j, 0 ≤ j → route a' j = if j <=? last_irq a then None else route a j.
Proof.
  eexists _, (times 0 (Z.to_nat (last_irq a + 1)) disable ((a <| a_sel := REG_VER |>) <| a_sel := REG_ID |>)). split; [|split].
  - eapply does_bind; [apply ioapicread_does|]. eapply does_bind; [apply ioapicread_does|]. cbv zeta.
    eapply does_bind; [apply (for_does _ disable); intros i a'; eapply does_bind; apply ioapicwrite_does|apply does_ret].
  - unfold same_local. by destruct (disabled_local (Z.to_nat (last_irq a + 1)) 0 ((a <| a_sel := REG_VER |>) <| a_sel := REG_ID |>)) as (-> & -> & ->).
  - intros j Hj. rewrite disabled_route. assert (0 ≤ last_irq a) by (apply Z.land_nonneg; by right).
    destruct (Z.leb_spec 0 j), (Z.ltb_spec j (0 + Z.of_nat (Z.to_nat (last_irq a + 1)))), (Z.leb_spec j (last_irq a)); cbn [andb]; try lia; done.
Qed.

(** ** The local controller *)
Lemma does_if (b : bool) (m1 m2 : B unit) m l a a1 a2 : does m1 tt (m, l, a) (m, l, a1) → does m2 tt (m, l, a) (m, l, a2) →
  does (if b then m1 else m2) tt (m, l, a) (m, l, if b then a1 else a2).
Proof. by destruct b. Qed.

(** The controller once it is set up, when [a] is what it was. *)
Record local_ready (a a' : apics) : Prop := {
  lr_enabled : a_local a' SVR = 0x13f;
  lr_timer : a_local a' TIMER = Z.lor PERIODIC T_IRQ0 ∧ a_local a' TDCR = X1 ∧ a_local a' TICR = 10000000;
  lr_lines : a_local a' LINT0 = MASKED ∧ a_local a' LINT1 = MASKED;
  lr_error : a_local a' ERROR = T_IRQ0 + IRQ_ERROR;
  lr_priority : a_local a' TPR = 0;
  lr_counter : a_local a' PCINT = if 4 <=? Z.land (Z.shiftr (a_local a VER) 16) 0xFF then MASKED else a_local a PCINT;
  lr_done : a_done a' = S (a_done a);
  lr_sent : a_sent a' = a_sent a ++ [(0, Z.lor BCAST (Z.lor INIT LEVEL))];
  lr_io : a_io a' = a_io a }.

Lemma lapicinit_does lapic fuel m l a : lapic ≠ 0 → (delivery < fuel)%nat → ∃ a', does (lapicinit lapic fuel) tt (m, l, a) (m, l, a') ∧ local_ready a a'.
Proof.
  intros Hl Hf. unfold lapicinit. rewrite (proj2 (Z.eqb_neq _ _) Hl). eexists. split.
  - do 6 (eapply does_bind; [apply lapicw_does|]). eapply does_bind; [apply lapic_get_does; set_solver|].
    eapply does_bind; [apply does_if; [apply lapicw_does|apply does_ret]|]. do 6 (eapply does_bind; [apply lapicw_does|]).
    eapply does_bind; [by apply wait_does|]. apply lapicw_does.
  - destruct (4 <=? _) eqn:E; split; cbn; try done.
    + assert ((4 <=? Z.land (Z.shiftr (a_local a VER) 16) 255) = true) as -> by exact E. reflexivity.
    + assert ((4 <=? Z.land (Z.shiftr (a_local a VER) 16) 255) = false) as -> by exact E. reflexivity.
Qed.

(** Where the interrupts of the machine go: those of the keyboard and of the serial port, if there is one, to processor 0, the disk's to the last one. *)
Definition routed (port : bool) (ncpu i : Z) : option (Z * Z) :=
  if i =? IRQ_KBD then Some (T_IRQ0 + IRQ_KBD, 0)
  else if (i =? IRQ_COM1) && port then Some (T_IRQ0 + IRQ_COM1, 0)
  else if i =? IRQ_IDE then Some (T_IRQ0 + IRQ_IDE, ncpu - 1) else None.

(** The result of starting the controllers, from the view before it. *)
Record interrupts_ready (port : bool) (ncpu : Z) (a a' : apics) : Prop := {
  ir_local : a_local a' SVR = 0x13f ∧ a_local a' TIMER = Z.lor PERIODIC T_IRQ0 ∧ a_local a' LINT0 = MASKED ∧ a_local a' LINT1 = MASKED
    ∧ a_local a' ERROR = T_IRQ0 + IRQ_ERROR ∧ a_local a' TPR = 0;
  ir_sent : a_sent a' = a_sent a ++ [(0, Z.lor BCAST (Z.lor INIT LEVEL))];
  ir_route i : 0 ≤ i ≤ last_irq a → route a' i = routed port ncpu i }.

Lemma init_controllers_does lapic ioapicid fuel m l a : lapic ≠ 0 → (delivery < fuel)%nat →
  ∃ b a', does (init_controllers lapic ioapicid fuel) b (m, l, a) (m, (IO_PIC2 + 1, 0xFF) :: (IO_PIC1 + 1, 0xFF) :: l, a')
    ∧ ∀ (port : bool) ncpu, 1 ≤ ncpu ≤ 256 →
      interrupts_ready port ncpu a (enable IRQ_IDE (ncpu - 1) ((if port then enable IRQ_COM1 0 else id) (enable IRQ_KBD 0 a'))).
Proof.
  intros Hl Hf. destruct (lapicinit_does lapic fuel m l a Hl Hf) as (a1 & E1 & [L1 [L2 _] [L3 L4] L5 L6 _ _ L7 L8]).
  destruct (ioapicinit_does ioapicid m ((IO_PIC2 + 1, 0xFF) :: (IO_PIC1 + 1, 0xFF) :: l) a1) as (b & a2 & E2 & (S1 & S2 & _) & R2).
  exists b, a2. split; [eapply does_bind; [exact E1|]; eapply does_bind; [eapply does_bind; apply outb_does|]; exact E2|]. intros port ncpu Hn. split.
  - destruct port; split_and!; (refine (eq_trans (f_equal (λ f, f _) S1) _); assumption).
  - destruct port; (etransitivity; [exact S2|exact L7]).
  - assert (Hr : ∀ i, 0 ≤ i ≤ last_irq a → route a2 i = None).
    { intros i Hi. rewrite R2 by lia. assert (last_irq a1 = last_irq a) as -> by (unfold last_irq; by rewrite L8). by rewrite (proj2 (Z.leb_le _ _)) by lia. }
    intros i Hi. specialize (Hr i Hi). unfold routed. rewrite enable_route by (unfold IRQ_IDE; lia).
    destruct port; cbn [id]; rewrite ?enable_route by (unfold IRQ_COM1, IRQ_KBD; lia); unfold IRQ_IDE, IRQ_COM1, IRQ_KBD in *;
      destruct (Z.eqb_spec i 14) as [->|]; try done; destruct (Z.eqb_spec i 4) as [->|]; try done; cbn [andb]; by rewrite Hr.
Qed.

(** ** Starting a processor *)
Lemma set_mem_does (f : gmap Z Z → gmap Z Z) m l a : does (set_mem f) tt (m, l, a) (f m, l, a).
Proof. intros s [= <- <- <-]. by eexists. Qed.

Lemma sent_low v a : a_sent (apic_write ICRLO v a) = a_sent a ++ [(Z.shiftr (a_local a ICRHI) 24, v)].
Proof. done. Qed.
Lemma sent_high v a : a_sent (apic_write ICRHI v a) = a_sent a.
Proof. done. Qed.
Lemma local_low v a : a_local (apic_write ICRLO v a) = a_local a.
Proof. done. Qed.
Lemma local_high v a : a_local (apic_write ICRHI v a) ICRHI = v.
Proof. done. Qed.

Definition WARM_RESET : Z := P2V 0x467.
Lemma lapicstartap_does apicid addr m l a : 0 ≤ apicid < 256 → ∃ a',
  does (lapicstartap apicid addr) tt (m, l, a)
    (st16 (st16 m WARM_RESET 0) (WARM_RESET + 2) (Z.shiftr addr 4), (0x71, 0x0A) :: (0x70, 0xF) :: l, a')
  ∧ a_sent a' = a_sent a ++ [(apicid, Z.lor INIT (Z.lor LEVEL ASSERT)); (apicid, Z.lor INIT LEVEL);
      (apicid, u32 (Z.lor STARTUP (Z.shiftr addr 12))); (apicid, u32 (Z.lor STARTUP (Z.shiftr addr 12)))]
  ∧ a_io a' = a_io a.
Proof.
  intros Hi. eexists. split; [|split].
  - do 2 (eapply does_bind; [apply outb_does|]). eapply does_bind; [apply set_mem_does|]. eapply does_bind; [apply set_mem_does|].
    do 3 (eapply does_bind; [apply lapicw_does|]). cbn [for_range]. do 2 (eapply does_bind; [eapply does_bind; apply lapicw_does|]). apply does_ret.
  - assert (Hs : Z.shiftr (u32 (Z.shiftl apicid 24)) 24 = apicid) by (rewrite u32_small by (rewrite Z.shiftl_mul_pow2; lia); rewrite Z.shiftr_shiftl_l by lia; by rewrite Z.shiftl_0_r).
    by repeat first [rewrite sent_low|rewrite sent_high|rewrite local_low|rewrite local_high|rewrite Hs|rewrite <-app_assoc].
  - reflexivity.
Qed.
End proofs.

(** The processor that is told to start: the page in the message and the real-mode address in the warm reset vector are its code. *)
Record started (apicid addr : Z) (m m' : gmap Z Z) (a a' : apics) : Prop := {
  sd_sent : ∃ cmd, a_sent a' = a_sent a ++ [(apicid, Z.lor INIT (Z.lor LEVEL ASSERT)); (apicid, Z.lor INIT LEVEL); (apicid, cmd); (apicid, cmd)]
    ∧ Z.land cmd 0xff * 4096 = addr ∧ Z.land cmd 0x700 = STARTUP;
  sd_reset : ld16 m' (WARM_RESET + 2) * 16 + ld16 m' WARM_RESET = addr;
  sd_mem x : ¬ (WARM_RESET ≤ x < WARM_RESET + 4) → ld m' x = ld m x;
  sd_route i : route a' i = route a i }.

Lemma started_ok apicid addr m a a' : 0 ≤ addr < 0x100000 → addr mod 4096 = 0 →
  a_sent a' = a_sent a ++ [(apicid, Z.lor INIT (Z.lor LEVEL ASSERT)); (apicid, Z.lor INIT LEVEL);
      (apicid, u32 (Z.lor STARTUP (Z.shiftr addr 12))); (apicid, u32 (Z.lor STARTUP (Z.shiftr addr 12)))] → a_io a' = a_io a →
  started apicid addr m (st16 (st16 m WARM_RESET 0) (WARM_RESET + 2) (Z.shiftr addr 4)) a a'.
Proof.
  intros Ha Hp Hs Hio. assert (Hpage : 0 ≤ Z.shiftr addr 12 < 256) by (rewrite Z.shiftr_div_pow2 by lia; change (2 ^ 12) with 4096; zlia).
  assert (Hlow : Z.land (Z.shiftr addr 12) 0xff = Z.shiftr addr 12) by (change 0xff with (Z.ones 8); rewrite Z.land_ones by lia; by apply Z.mod_small).
  assert (Hcmd : u32 (Z.lor STARTUP (Z.shiftr addr 12)) = Z.lor STARTUP (Z.shiftr addr 12)).
  { rewrite <-Hlow. unfold u32. change 4294967296 with (2 ^ 32). rewrite <-Z.land_ones, Z.land_lor_distr_l, <-Z.land_assoc by lia. done. }
  split.
  - eexists. split; [exact Hs|]. rewrite Hcmd, !Z.land_lor_distr_l. split.
    + rewrite Hlow. change (Z.land STARTUP 0xff) with 0. rewrite Z.lor_0_l, Z.shiftr_div_pow2 by lia. change (2 ^ 12) with 4096. zlia.
    + rewrite <-Hlow, <-Z.land_assoc. change (Z.land 0xff 0x700) with 0. by rewrite Z.land_0_r.
  - rewrite Z.shiftr_div_pow2 by lia. change (2 ^ 4) with 16. unfold ld16, st16. ld_tac. unfold u8. zlia.
  - intros x Hx. unfold st16. by rewrite !ld_st_ne by lia.
  - unfold route. by rewrite Hio.
Qed.

(** * Controllers that deliver a message at the second look *)
Module Sim_apics.
Record sim := mk_sim { s_apics : apics; s_busy : bool }.
#[export] Instance sim_apics : Apics sim := {
  lapic_read i d := if i =? ICRLO then (if s_busy d then DELIVS else 0, mk_sim (s_apics d) false) else (a_local (s_apics d) i, d);
  lapic_write i v d := mk_sim (apic_write i v (s_apics d)) (if i =? ICRLO then true else s_busy d);
  ioapic_reg r d := mk_sim ((s_apics d) <| a_sel := r |>) (s_busy d);
  ioapic_get d := (a_io (s_apics d) (a_sel (s_apics d)), d);
  ioapic_set v d := mk_sim ((s_apics d) <| a_io ::= set_reg (a_sel (s_apics d)) v |>) (s_busy d) }.
#[export] Instance sim_apics_laws : Apics_laws sim.
Proof.
  refine {| abs := s_apics; busy d := if s_busy d then 1%nat else 0%nat; delivery := 1%nat |}.
  - intros i d. cbn. by destruct (i =? ICRLO).
  - intros i d Hi. cbn. rewrite !elem_of_cons, elem_of_nil in Hi. by destruct Hi as [->|[->|[]]].
  - intros d. cbn. by destruct (s_busy d).
  - intros d. cbn. by destruct (s_busy d).
  - intros d. destruct (s_busy d); lia.
  - done.
  - done.
  - done.
  - done.
  - done.
Defined.
End Sim_apics.
Import Sim_apics.

(** Twenty-four interrupts. *)
Definition demo_board : board sim :=
  mk_board ∅ [] (mk_sim (mk_apics (λ i, if i =? VER then 0x50014 else 0) [] 0 (λ r, if r =? REG_VER then 0x170011 else 0) 0) false).
