(* ===== verification/Uart.v ===== *)
(** The serial port ([uart.c]): its initialisation, its output, which the console uses ([consputc] of [console.c]), and its
    input, which goes to the console's line editor; and the interrupts as [main] sets them up, that of the port included.

    The port is a parameter: the class [Line] has its registers, [Line_laws] says what they do.  Characters that the receiver holds
    are not lost, and the transmitter is ready again after a bounded number of looks at its status. *)
From S2P Require Export Irq Tty.
Open Scope Z_scope.

Definition COM1 : Z := 0x3f8.

Class Line (E : Type) := { line_in : Z → E → Z * E; line_out : Z → Z → E → E }.

(** The variable [uart], the port and the interrupt controllers. *)
Record serial (D E : Type) := mk_serial { uart : bool; u_line : E; u_board : board D }.
Arguments mk_serial {D E}.
Arguments uart {D E}.
Arguments u_line {D E}.
Arguments u_board {D E}.

Section code.
Context {D E} `{Apics D} `{Line E}.
Abbreviation U := (M (serial D E)).

Definition inb (port : Z) : U Z := λ s, let '(v, e) := line_in port (u_line s) in Ok v (mk_serial (uart s) e (u_board s)).
Definition outb (port v : Z) : U unit := modify (λ s, mk_serial (uart s) (line_out port (u8 v) (u_line s)) (u_board s)).
Definition on_board {A} (m : M (board D) A) : U A := λ s,
  match m (u_board s) with
  | Ok x b => Ok x (mk_serial (uart s) (u_line s) b)
  | Panic msg => Panic msg
  | Sleeping b => Sleeping (mk_serial (uart s) (u_line s) b)
  | Stuck => Stuck
  end.

(** A turn of the loop that waits for the transmitter, 128 times at most. *)
Definition await_line (i : Z) : U (Z + unit) :=
  if i <? 128 then
    st ← inb (COM1 + 5);
    mret (if Z.land st 0x20 =? 0 then inl (i + 1) else inr tt)
  else mret (inr tt).

Definition uartputc (c : Z) : U unit :=
  u ← gets uart;
  if negb (u : bool) then mret tt else
  iterM 129 await_line 0;;
  outb (COM1 + 0) c.


Fixpoint putall (cs : list Z) : U unit :=
  match cs with [] => mret tt | c :: cs => uartputc c;; putall cs end.
(** "xv6...\n" *)
Definition announce : list Z := [120; 118; 54; 46; 46; 46; 10].

Definition uartinit : U unit :=
  outb (COM1 + 2) 0;;
  outb (COM1 + 3) 0x80;;
  outb (COM1 + 0) (115200 / 9600);;
  outb (COM1 + 1) 0;;
  outb (COM1 + 3) 0x03;;
  outb (COM1 + 4) 0;;
  outb (COM1 + 1) 0x01;;
  st ← inb (COM1 + 5);
  if st =? 0xFF then mret tt else
  modify (λ s, mk_serial true (u_line s) (u_board s));;
  inb (COM1 + 2);;
  inb (COM1 + 0);;
  on_board (ioapicenable IRQ_COM1 0);;
  putall announce.



(** ** The kernel and the port together *)

Abbreviation W := (M (kstate * serial D E)).




(** What [main] does to the interrupt controllers and the port, on a machine of [ncpu] processors.  The disk's interrupt is enabled by the [ideinit]
    of [ide.c], not by that of [memide.c]. *)
Definition init_interrupts (lapic ioapicid : Z) (fuel : nat) (ncpu : Z) : U bool :=
  r ← on_board (init_controllers lapic ioapicid fuel);
  on_board consoleinit_irq;;
  uartinit;;
  on_board (ideinit_irq ncpu);;
  mret r.
End code.

(** * The port *)

(** The registers, what has been sent, and what has arrived or is on its way and has not been read. *)
Record line := mk_line { l_divisor : Z; l_control : Z; l_enabled : Z; l_sent : list Z; l_incoming : list Z }.
#[export] Instance upd_line : Updatable line := λ r, mk_line (l_divisor r) (l_control r) (l_enabled r) (l_sent r) (l_incoming r).

(** With bit 7 of the control register set the first two registers are the halves of the divisor. *)
Definition latch (a : line) : bool := Z.testbit (l_control a) 7.
Definition line_write (port v : Z) (a : line) : line :=
  if port =? COM1 + 0 then
    (if latch a then a <| l_divisor := l_divisor a / 256 * 256 + v |> else a <| l_sent ::= λ l, l ++ [v] |>)
  else if port =? COM1 + 1 then
    (if latch a then a <| l_divisor := l_divisor a mod 256 + 256 * v |> else a <| l_enabled := v |>)
  else if port =? COM1 + 3 then a <| l_control := v |>
  else a.

Class Line_laws (E : Type) `{Line E} := {
  labs : E → line;
  present : E → bool;
  sending : E → nat;
  received : E → bool;
  patience : nat;
  out_present p v e : present (line_out p v e) = present e;
  in_present p e : present (snd (line_in p e)) = present e;
  absent e : present e = false → fst (line_in (COM1 + 5) e) = 0xFF;
  out_abs p v e : present e = true → (p = COM1 + 0 → latch (labs e) = false → sending e = 0%nat) → labs (line_out p v e) = line_write p v (labs e);
  sending_bound e : (sending e ≤ patience)%nat;
  status e : present e = true → fst (line_in (COM1 + 5) e) ≠ 0xFF
    ∧ Z.land (fst (line_in (COM1 + 5) e)) 0x20 = (if (sending e =? 0)%nat then 0x20 else 0)
    ∧ Z.land (fst (line_in (COM1 + 5) e)) 0x01 = (if received e then 1 else 0)
    ∧ labs (snd (line_in (COM1 + 5) e)) = labs e ∧ (received e = true → received (snd (line_in (COM1 + 5) e)) = true)
    ∧ sending (snd (line_in (COM1 + 5) e)) = pred (sending e);
  in_abs p e : present e = true → p ≠ COM1 + 0 → labs (snd (line_in p e)) = labs e;
  data e : present e = true → latch (labs e) = false → received e = true →
    ∃ c cs, l_incoming (labs e) = c :: cs ∧ 0 ≤ c < 256 ∧ fst (line_in (COM1 + 0) e) = c ∧ labs (snd (line_in (COM1 + 0) e)) = (labs e) <| l_incoming := cs |>;
  no_data e : present e = true → latch (labs e) = false → received e = false → labs (snd (line_in (COM1 + 0) e)) = labs e }.

Section proofs.
Context {D E} `{Apics_laws D} `{Line_laws E}.
Implicit Types (s : serial D E) (e : E).


Lemma inb_run p s : inb p s = Ok (fst (line_in p (u_line s))) (mk_serial (uart s) (snd (line_in p (u_line s))) (u_board s)).
Proof. unfold inb. by destruct (line_in p (u_line s)). Qed.







(** ** Input *)










(** ** Initialisation *)
Lemma outb_run p v s : outb p v s = Ok tt (mk_serial (uart s) (line_out p (u8 v) (u_line s)) (u_board s)).
Proof. done. Qed.



(** ** The controllers, with a port or without one *)

Lemma on_board_does {A} (m : M (board D) A) x s v' : does m x (view (u_board s)) v' →
  ∃ b, on_board m s = Ok x (mk_serial (uart s) (u_line s) b) ∧ view b = v'.
Proof. intros Hm. destruct (Hm (u_board s) eq_refl) as (b & Em & V). exists b. unfold on_board. by rewrite Em. Qed.

(** Sending takes a bounded number of steps, whatever the transmitter does, and leaves the controllers alone. *)
Lemma await_board n i s : i + Z.of_nat n = 128 → ∃ e', iterM (S n) await_line i s = Ok tt (mk_serial (uart s) e' (u_board s)).
Proof.
  revert i s. induction n as [|n IH]; intros i s Hi.
  - exists (u_line s). apply iterM_inr. unfold await_line. rewrite (proj2 (Z.ltb_ge _ _)) by lia. by destruct s.
  - set (s1 := mk_serial (uart s) (snd (line_in (COM1 + 5) (u_line s))) (u_board s)).
    assert (Ea : await_line i s = Ok (if Z.land (fst (line_in (COM1 + 5) (u_line s))) 0x20 =? 0 then inl (i + 1) else inr tt) s1).
    { unfold await_line. rewrite (proj2 (Z.ltb_lt _ _)) by lia. mstep_with (inb_run (COM1 + 5) s). done. }
    destruct (_ =? 0); [|by eexists; erewrite iterM_inr; [|exact Ea]]. destruct (IH (i + 1) s1) as [e' E']; [lia|]. exists e'. by erewrite iterM_inl; [|exact Ea].
Qed.
Lemma putall_board cs s : ∃ e', putall cs s = Ok tt (mk_serial (uart s) e' (u_board s)).
Proof.
  revert s. induction cs as [|c cs IH]; intros s; cbn [putall]; [exists (u_line s); by destruct s|].
  assert (∃ e1, uartputc c s = Ok tt (mk_serial (uart s) e1 (u_board s))) as [e1 E1].
  { unfold uartputc. rewrite bind_gets. destruct (uart s) eqn:Eu; cbn [negb]; [|exists (u_line s); destruct s; cbn in *; by subst].
    destruct (await_board 128 0 s eq_refl) as [e1 E1]. eexists. mstep_with E1. rewrite outb_run. by rewrite Eu. }
  destruct (IH (mk_serial (uart s) e1 (u_board s))) as [e' E']. exists e'. by mstep_with E1.
Qed.

(** [uartinit] enables its interrupt just if there is a port. *)
Lemma uartinit_board s :
  ∃ s1, uartinit s = Ok tt s1 ∧ view (u_board s1) = (bd_mem (u_board s), bd_ports (u_board s),
    (if present (u_line s) then enable IRQ_COM1 0 else id) (abs (bd_apics (u_board s)))).
Proof.
  unfold uartinit. do 7 (erewrite bind_ok; [|apply outb_run]). cbn [uart u_line u_board]. set (x := line_out _ _ _).
  assert (Hx : present x = present (u_line s)) by (unfold x; by rewrite !out_present). clearbody x.
  mstep_with (inb_run (COM1 + 5) (mk_serial (uart s) x (u_board s))). cbn [uart u_line u_board]. destruct (present (u_line s)).
  - rewrite (proj2 (Z.eqb_neq _ _)) by (by apply status). rewrite bind_modify. cbn [uart u_line u_board].
    erewrite bind_ok; [|apply inb_run]. cbn [uart u_line u_board]. erewrite bind_ok; [|apply inb_run]. cbn [uart u_line u_board]. set (y := snd _).
    destruct (on_board_does (ioapicenable IRQ_COM1 0) tt (mk_serial true y (u_board s)) _ (ioapicenable_does IRQ_COM1 0 _ _ _)) as (b & Eb & V).
    mstep_with Eb. cbn [uart u_line u_board]. destruct (putall_board announce (mk_serial true y b)) as [e' E']. rewrite E'. by eexists.
  - rewrite absent by done. rewrite Z.eqb_refl. by eexists.
Qed.

Lemma init_interrupts_ok lapic ioapicid fuel ncpu s : lapic ≠ 0 → (delivery < fuel)%nat → 1 ≤ ncpu ≤ 256 →
  ∃ b s1, init_interrupts lapic ioapicid fuel ncpu s = Ok b s1 ∧ bd_mem (u_board s1) = bd_mem (u_board s)
    ∧ bd_ports (u_board s1) = [(0xA1, 0xFF); (0x21, 0xFF)] ++ bd_ports (u_board s)
    ∧ interrupts_ready (present (u_line s)) ncpu (abs (bd_apics (u_board s))) (abs (bd_apics (u_board s1))).
Proof.
  intros Hl Hf Hn. destruct (init_controllers_does lapic ioapicid fuel (bd_mem (u_board s)) (bd_ports (u_board s)) (abs (bd_apics (u_board s))) Hl Hf) as (r & a1 & E1 & R1).
  destruct (on_board_does _ r s _ E1) as (b1 & B1 & V1). set (s1 := mk_serial (uart s) (u_line s) b1) in *.
  destruct (on_board_does consoleinit_irq tt s1 (bd_mem b1, bd_ports b1, enable IRQ_KBD 0 (abs (bd_apics b1))) (ioapicenable_does IRQ_KBD 0 _ _ _)) as (b2 & B2 & V2).
  set (s2 := mk_serial (uart s1) (u_line s1) b2) in *. destruct (uartinit_board s2) as (s3 & B3 & V3).
  destruct (on_board_does (ideinit_irq ncpu) tt s3 (bd_mem (u_board s3), bd_ports (u_board s3), enable IRQ_IDE (ncpu - 1) (abs (bd_apics (u_board s3))))
    (ioapicenable_does IRQ_IDE (ncpu - 1) _ _ _)) as (b4 & B4 & V4).
  exists r, (mk_serial (uart s3) (u_line s3) b4). split; [unfold init_interrupts; mstep_with B1; mstep_with B2; mstep_with B3; by mstep_with B4|].
  unfold view in *. injection V1 as M1 P1 A1. injection V2 as M2 P2 A2. injection V3 as M3 P3 A3. injection V4 as M4 P4 A4. cbn [u_board s2] in *.
  split_and!; [by rewrite M4, M3, M2|by rewrite P4, P3, P2, P1|]. rewrite A4, A3. rewrite A2, A1. by apply R1.
Qed.
End proofs.

(** * A port whose transmitter takes three looks at its status to be ready again *)
Module Sim_line.
Record sim := mk_sim { s_line : line; s_busy : nat }.
Definition got (l : list Z) : bool := match l with c :: _ => (0 <=? c) && (c <? 256) | [] => false end.
#[export] Instance sim_line : Line sim := {
  line_in p d :=
    if p =? COM1 + 5 then
      (Z.lor (if (Nat.min 3 (s_busy d) =? 0)%nat then 0x20 else 0) (if got (l_incoming (s_line d)) then 1 else 0), mk_sim (s_line d) (pred (Nat.min 3 (s_busy d))))
    else if p =? COM1 + 0 then
      (if negb (latch (s_line d)) && got (l_incoming (s_line d)) then (hd 0 (l_incoming (s_line d)), mk_sim ((s_line d) <| l_incoming ::= tail |>) (s_busy d)) else (0, d))
    else (0, d);
  line_out p v d := mk_sim (line_write p v (s_line d)) (if p =? COM1 + 0 then 3%nat else s_busy d) }.
#[export] Instance sim_line_laws : Line_laws sim.
Proof.
  refine {| labs := s_line; present _ := true; sending d := Nat.min 3 (s_busy d); received d := got (l_incoming (s_line d)); patience := 3%nat |}; try done.
  - intros e. lia.
  - intros [l b] _. cbn. split_and!; [by destruct (_ =? 0)%nat, (got _)|by destruct (_ =? 0)%nat, (got _)|by destruct (_ =? 0)%nat, (got _)|done|done|by destruct b as [|[|[|b]]]].
  - intros p e _ Hne. cbn. destruct (p =? COM1 + 5); [done|]. by rewrite (proj2 (Z.eqb_neq _ _) Hne).
  - intros [[d0 c0 i0 l0 n0] b] _ Hl Hg. unfold latch in *. cbn in *. rewrite Hl, Hg. cbn. destruct n0 as [|c cs]; [done|]. cbn in Hg. apply andb_true_iff in Hg as [?%Z.leb_le ?%Z.ltb_lt]. exists c, cs. split_and!; done.
  - intros [[d0 c0 i0 l0 n0] b] _ Hl Hg. unfold latch in *. cbn in *. by rewrite Hl, Hg.
Defined.
End Sim_line.
Import Sim_apics Sim_line.

(** * Properties *)


Definition demo_serial (incoming : list Z) : serial Sim_apics.sim Sim_line.sim :=
  mk_serial false (Sim_line.mk_sim (mk_line 0 0 0 [] incoming) 0) demo_board.


(** C37: When [main] has set up the controllers, the old ones are silent, the local controller accepts interrupts, its timer ticks on the vector of the
    timer, and of the interrupts of the devices exactly those that the kernel has asked for are enabled, each with
    its own vector and processor: the keyboard's, the disk's, and the serial port's if the machine has one; a processor that [lapicstartap] then
    starts is sent the official messages, which lead it to the code at [addr], and no route changes. *)
Theorem interrupts_correct `{Apics_laws D} `{Line_laws E} (lapic ioapicid : Z) (fuel : nat) (ncpu : Z) (s : serial D E) :
  lapic ≠ 0 → (delivery < fuel)%nat → 1 ≤ ncpu ≤ 256 →
  ∃ b s1, init_interrupts lapic ioapicid fuel ncpu s = Ok b s1 ∧ bd_mem (u_board s1) = bd_mem (u_board s)
    ∧ bd_ports (u_board s1) = [(0xA1, 0xFF); (0x21, 0xFF)] ++ bd_ports (u_board s)
    ∧ interrupts_ready (present (u_line s)) ncpu (abs (bd_apics (u_board s))) (abs (bd_apics (u_board s1)))
    ∧ ∀ apicid addr, 0 ≤ apicid < 256 → 0 ≤ addr < 0x100000 → addr mod 4096 = 0 →
        ∃ b2, lapicstartap apicid addr (u_board s1) = Ok tt b2 ∧ bd_ports b2 = [(0x71, 0x0A); (0x70, 0xF)] ++ bd_ports (u_board s1)
          ∧ started apicid addr (bd_mem (u_board s1)) (bd_mem b2) (abs (bd_apics (u_board s1))) (abs (bd_apics b2)).
Proof.
  intros Hl Hf Hn. destruct (init_interrupts_ok lapic ioapicid fuel ncpu s Hl Hf Hn) as (b & s1 & E1 & M1 & P1 & R1).
  exists b, s1. split_and!; [done|done|done|done|]. intros apicid addr Hi Ha Hp.
  destruct (lapicstartap_does apicid addr (bd_mem (u_board s1)) (bd_ports (u_board s1)) (abs (bd_apics (u_board s1))) Hi) as (a2 & E2 & S2 & R2).
  destruct (E2 (u_board s1) eq_refl) as (b2 & E' & [= W1 W2 W3]). exists b2. split_and!; [done|done|]. rewrite W1, W3. by apply started_ok.
Qed.

(** Two processors; the second starts at 0x7000. *)
Lemma interrupts_correct_witness :
  ∃ b s1, init_interrupts 0xfee00000 0 2 2 (demo_serial []) = Ok b s1 ∧ route (abs (bd_apics (u_board s1))) 14 = Some (46, 1)
    ∧ route (abs (bd_apics (u_board s1))) 4 = Some (36, 0) ∧ route (abs (bd_apics (u_board s1))) 15 = None
    ∧ ∃ b2, lapicstartap 1 0x7000 (u_board s1) = Ok tt b2 ∧ route (abs (bd_apics b2)) 14 = Some (46, 1).
Proof.
  destruct (interrupts_correct 0xfee00000 0 2 2 (demo_serial [])) as (b & s1 & E1 & _ & _ & [_ _ R] & Hs); [discriminate|apply Nat.lt_1_2|lia|].
  exists b, s1. split; [exact E1|]. clear E1. change (last_irq (abs (bd_apics (u_board (demo_serial []))))) with 23 in R.
  assert (R14 : route (abs (bd_apics (u_board s1))) 14 = Some (46, 1)) by (rewrite (R 14); [reflexivity|lia]).
  split; [exact R14|]. split; [rewrite (R 4); [reflexivity|lia]|]. split; [rewrite (R 15); [reflexivity|lia]|].
  destruct (Hs 1 0x7000 ltac:(lia) ltac:(lia) eq_refl) as (b2 & E2 & _ & [_ _ _ R2]). exists b2. split; [exact E2|]. rewrite R2. exact R14.
Defined.
