(* ===== verification/Sh.v ===== *)
(** The parser of the shell ([sh.c]).

    The line is an array [buf] that ends in a zero; [char *] into it is an index.  [*ps] is
    the state of the parser, and [panic] ends it.  A [struct execcmd] is filled while
    [struct redircmd]s that point to it are put around it; here the redirections are collected
    first and put around the command when it is complete. *)
From S2P Require Export CString.
From S2P Require Import Prelude.

(** * Commands *)

Definition O_RDONLY : Z := 0.
Definition O_WRONLY : Z := 1.
Definition O_CREATE : Z := 512.
Definition MAXARGS : nat := 10.

(** [struct cmd] and its variants, over what stands for a string.  The parser has a word of the line,
    given by its start and its end; [runcmd] has a string. *)
Inductive cmd (W : Type) :=
  | EXEC (argv : list W)
  | REDIR (c : cmd W) (file : W) (mode fd : Z)
  | PIPE (left right : cmd W)
  | LIST (left right : cmd W)
  | BACK (c : cmd W).
Arguments EXEC {W} argv.
Arguments REDIR {W} c file mode fd.
Arguments PIPE {W} left right.
Arguments LIST {W} left right.
Arguments BACK {W} c.
Definition word : Type := nat * nat.

Fixpoint cmd_map {W W'} (f : W → W') (c : cmd W) : cmd W' :=
  match c with
  | EXEC argv => EXEC (f <$> argv)
  | REDIR c w mode fd => REDIR (cmd_map f c) (f w) mode fd
  | PIPE l r => PIPE (cmd_map f l) (cmd_map f r)
  | LIST l r => LIST (cmd_map f l) (cmd_map f r)
  | BACK c => BACK (cmd_map f c)
  end.

(** A redirection that has been parsed: file, mode and descriptor. *)
Definition redir (W : Type) : Type := W * Z * Z.
Definition redircmd {W} (c : cmd W) (r : redir W) : cmd W := let '(file, mode, fd) := r in REDIR c file mode fd.
Definition redircmds {W} (c : cmd W) (rs : list (redir W)) : cmd W := foldl redircmd c rs.

Definition whitespace : list Z := [32; 9; 13; 10; 11].
Definition symbols : list Z := [60; 124; 62; 38; 59; 40; 41].

Definition strchr_b (l : list Z) (c : Z) : bool := match Ulib.strchr l c with Some _ => true | None => false end.
Definition is_space (c : Z) : bool := strchr_b whitespace c.
Definition is_symbol (c : Z) : bool := strchr_b symbols c.

Abbreviation P := (M nat).

Section parser.
Context (buf : list Z) (es : nat).

Definition at_ (s : nat) : Z := default 0 (buf !! s).

(** [while(s < es && strchr(whitespace, *s)) s++;] *)
Fixpoint skip_space (fuel s : nat) : nat :=
  match fuel with
  | O => s
  | S fuel => if (s <? es)%nat && is_space (at_ s) then skip_space fuel (S s) else s
  end.
Definition skip (s : nat) : nat := skip_space (es - s) s.

(** The end of the word at [s]. *)
Fixpoint skip_word (fuel s : nat) : nat :=
  match fuel with
  | O => s
  | S fuel =>
      if (s <? es)%nat && negb (is_space (at_ s)) && negb (is_symbol (at_ s))
      then skip_word fuel (S s) else s
  end.

(** The token, and where it starts and ends. *)
Definition gettoken : P (Z * word) := λ s,
  let s := skip s in
  let q := s in
  let ret := at_ s in
  let '(ret, s) :=
    if ret =? 0 then (ret, s)
    else if (ret =? 124) || (ret =? 40) || (ret =? 41) || (ret =? 59) || (ret =? 38) || (ret =? 60) then (ret, S s)
    else if ret =? 62 then (if at_ (S s) =? 62 then (43, S (S s)) else (ret, S s))
    else (97, skip_word (es - s) s) in
  let eq := s in
  Ok (ret, (q, eq)) (skip s).

Definition peek (toks : list Z) : P bool := λ s,
  let s := skip s in
  Ok (negb (at_ s =? 0) && strchr_b toks (at_ s)) s.

(** "missing file for redirection" and the other messages are the arguments of [panic]. *)
Definition parseredirs_body (rs : list (redir word)) : P (list (redir word) + list (redir word)) :=
  b ← peek [60; 62];
  if negb b then mret (inr rs) else
  '(tok, _) ← gettoken;
  '(tok', w) ← gettoken;
  if negb (tok' =? 97) then panic "missing file for redirection" else
  if tok =? 60 then mret (inl (rs ++ [(w, O_RDONLY, 0)]))
  else mret (inl (rs ++ [(w, Z.lor O_WRONLY O_CREATE, 1)])).
Definition parseredirs (rs : list (redir word)) : P (list (redir word)) := iterM (S (S es)) parseredirs_body rs.

(** A turn of the loop of [parseexec], given the arguments and the redirections so far. *)
Definition parseexec_body : list word * list (redir word) → P ((list word * list (redir word)) + (list word * list (redir word))) :=
  λ '(argv, rs),
    b ← peek [124; 41; 38; 59];
    if (b : bool) then mret (inr (argv, rs)) else
    '(tok, w) ← gettoken;
    if tok =? 0 then mret (inr (argv, rs)) else
    if negb (tok =? 97) then panic "syntax" else
    let argv := argv ++ [w] in
    if (MAXARGS <=? length argv)%nat then panic "too many args" else
    rs ← parseredirs rs;
    mret (inl (argv, rs)).

(** A turn of the loop of [parseline]. *)
Definition parseback_body (c : cmd word) : P (cmd word + cmd word) :=
  b ← peek [38];
  if (b : bool) then gettoken;; mret (inl (BACK c)) else mret (inr c).

(** [parseline], [parsepipe] and [parseexec]; [fuel] bounds the depth of the calls. *)
Fixpoint parseline (fuel : nat) : P (cmd word) :=
  match fuel with
  | O => λ _, Stuck
  | S fuel =>
      c ← parsepipe fuel;
      c ← iterM (S (S es)) parseback_body c;
      b ← peek [59];
      if (b : bool) then gettoken;; c' ← parseline fuel; mret (LIST c c') else mret c
  end
with parsepipe (fuel : nat) : P (cmd word) :=
  match fuel with
  | O => λ _, Stuck
  | S fuel =>
      c ← parseexec fuel;
      b ← peek [124];
      if (b : bool) then gettoken;; c' ← parsepipe fuel; mret (PIPE c c') else mret c
  end
with parseexec (fuel : nat) : P (cmd word) :=
  match fuel with
  | O => λ _, Stuck
  | S fuel =>
      b ← peek [40];
      if (b : bool) then parseblock fuel else
      rs ← parseredirs [];
      '(argv, rs) ← iterM (S (S es)) parseexec_body ([], rs);
      mret (redircmds (EXEC argv) rs)
  end
with parseblock (fuel : nat) : P (cmd word) :=
  match fuel with
  | O => λ _, Stuck
  | S fuel =>
      b ← peek [40];
      if negb b then panic "parseblock" else
      gettoken;;
      c ← parseline fuel;
      b ← peek [41];
      if negb b then panic "syntax - missing )" else
      gettoken;;
      rs ← parseredirs [];
      mret (redircmds c rs)
  end.
End parser.

(** A zero is written at the end of every word of the command. *)
Fixpoint nulterminate (c : cmd word) (buf : list Z) : list Z :=
  match c with
  | EXEC argv => foldl (λ buf (w : word), <[snd w := 0]> buf) buf argv
  | REDIR c w _ _ => <[snd w := 0]> (nulterminate c buf)
  | PIPE l r | LIST l r => nulterminate r (nulterminate l buf)
  | BACK c => nulterminate c buf
  end.

(** Depth of the calls: each token costs at most four. *)
Definition parse_fuel (buf : list Z) : nat := 4 * length buf + 4.

(** The command and the line, now cut into strings; or, for a line that is wrong, what [parsecmd] itself
    prints and the message of [panic].  [None] would be a parse that has run out of fuel. *)
Definition parsecmd (buf : list Z) : option ((cmd word * list Z) + (list Z * string)) :=
  let es := Z.to_nat (strlen buf) in
  match (c ← parseline buf es (parse_fuel buf);
         peek buf es [];;
         s ← get;
         mret (if negb (s =? es)%nat then inr s else inl c)) 0%nat with
  | Ok (inl c) _ => Some (inl (c, nulterminate c buf))
  | Ok (inr s) _ => Some (inr (str "leftovers: " ++ cstr (drop s buf) ++ [10], "syntax"%string))
  | Panic msg => Some (inr ([], msg))
  | _ => None
  end.

(** The command as [runcmd] reads it: every [char *] as the string it points to. *)
Definition str_at (buf : list Z) (w : word) : list Z := cstr (drop (fst w) buf).
Definition cmd_strings (buf : list Z) (c : cmd word) : cmd (list Z) := cmd_map (str_at buf) c.
