(* ===== verification/Parse.v ===== *)
(** The shell's parser on any line: what its tokens are, that it ends, and that the words of the command it
    returns are strings of the line. *)
From S2P Require Export Sh.
From S2P Require Import Prelude CString.

(** * Lines *)

Definition word_char (c : Z) : Prop := c ≠ 0 ∧ is_space c = false ∧ is_symbol c = false.
#[global] Instance word_char_dec c : Decision (word_char c).
Proof. unfold word_char. apply _. Defined.

Lemma strchr_b_iff (l : list Z) (c : Z) : Forall (λ x, x ≠ 0) l → strchr_b l c = bool_decide (c ∈ l).
Proof.
  intros Hl. unfold strchr_b. induction l as [|x l IH]; [done|].
  apply Forall_cons in Hl as [Hx Hl]. simpl. rewrite (proj2 (Z.eqb_neq x 0)) by done.
  destruct (Z.eqb_spec x c) as [->|Hne]; [by rewrite bool_decide_true by left|].
  rewrite (IH Hl). apply bool_decide_ext. rewrite elem_of_cons. naive_solver.
Qed.
Lemma is_space_iff c : is_space c = bool_decide (c ∈ whitespace).
Proof. apply strchr_b_iff. by repeat constructor. Qed.
Lemma is_symbol_iff c : is_symbol c = bool_decide (c ∈ symbols).
Proof. apply strchr_b_iff. by repeat constructor. Qed.

(** A symbol is not white space. *)
Lemma symbol_not_space c : c ∈ symbols → is_space c = false.
Proof. rewrite is_space_iff. unfold symbols. intros Hc. repeat (apply elem_of_cons in Hc as [->|Hc]; [done|]). by apply not_elem_of_nil in Hc. Qed.

Section lex.
Context (buf : list Z) (es : nat).

(** [es] is the end of the string in [buf]. *)
Definition terminated : Prop := at_ buf es = 0 ∧ ∀ k, (k < es)%nat → at_ buf k ≠ 0.
Context (Ht : terminated).

Lemma space_lt s : is_space (at_ buf s) = true → (s ≤ es)%nat → (s < es)%nat.
Proof. intros Hs Hle. destruct (decide (s = es)) as [->|]; [|lia]. by rewrite (proj1 Ht) in Hs. Qed.

Lemma skip_space_unique n s e :
  (s ≤ e ≤ es)%nat → (∀ k, (s ≤ k < e)%nat → is_space (at_ buf k) = true) → is_space (at_ buf e) = false →
  (e - s ≤ n)%nat → skip_space buf es n s = e.
Proof.
  revert s. induction n as [|n IH]; intros s Hse Hsp Hne Hn; simpl; [lia|].
  destruct (decide (s = e)) as [->|]; [by rewrite Hne, andb_false_r|].
  rewrite Hsp by lia. rewrite (proj2 (Nat.ltb_lt s es)) by lia. apply IH; [lia| |done|lia].
  intros k ?. apply Hsp. lia.
Qed.
Lemma skip_unique s e :
  (s ≤ e ≤ es)%nat → (∀ k, (s ≤ k < e)%nat → is_space (at_ buf k) = true) → is_space (at_ buf e) = false → skip buf es s = e.
Proof. intros. apply skip_space_unique; (done || lia). Qed.

(** Where a run of positions with a property ends. *)
Lemma run_end (Q : nat → bool) s :
  (s ≤ es)%nat → ∃ e, (s ≤ e ≤ es)%nat ∧ (∀ k, (s ≤ k < e)%nat → Q k = true) ∧ (e = es ∨ Q e = false).
Proof.
  intros Hs. remember (es - s)%nat as n eqn:En. revert s Hs En. induction n as [|n IH]; intros s Hs En.
  - exists s. split_and!; [lia|lia| |lia]. intros; lia.
  - destruct (Q s) eqn:E; [|exists s; split_and!; [lia|lia|intros; lia|by right]].
    destruct (IH (S s)) as (e & He & Hq & Hend); [lia|lia|]. exists e. split_and!; [lia|lia| |done].
    intros k Hk. destruct (decide (k = s)) as [->|]; [done|]. apply Hq. lia.
Qed.

Lemma skip_spec s :
  (s ≤ es)%nat → (s ≤ skip buf es s ≤ es)%nat ∧ (∀ k, (s ≤ k < skip buf es s)%nat → is_space (at_ buf k) = true)
    ∧ is_space (at_ buf (skip buf es s)) = false.
Proof.
  intros Hs. destruct (run_end (λ k, is_space (at_ buf k)) s Hs) as (e & He & Hq & Hend).
  assert (is_space (at_ buf e) = false) as Hne by (destruct Hend as [->|?]; [by rewrite (proj1 Ht)|done]).
  rewrite (skip_unique s e) by done. done.
Qed.
Lemma skip_idem s : (s ≤ es)%nat → skip buf es (skip buf es s) = skip buf es s.
Proof. intros Hs. destruct (skip_spec s Hs) as (? & _ & ?). apply skip_unique; [lia|lia|done]. Qed.

Lemma skip_word_unique n s e :
  (s ≤ e ≤ es)%nat → (∀ k, (s ≤ k < e)%nat → word_char (at_ buf k)) → ¬ word_char (at_ buf e) →
  (e - s ≤ n)%nat → skip_word buf es n s = e.
Proof.
  revert s. induction n as [|n IH]; intros s Hse Hw Hne Hn; simpl; [lia|].
  destruct (decide (s = e)) as [->|].
  - destruct (decide (e = es)) as [->|]; [by rewrite Nat.ltb_irrefl|].
    assert (at_ buf e ≠ 0) by (apply Ht; lia).
    destruct (is_space (at_ buf e)) eqn:Es; [by rewrite andb_false_r|].
    destruct (is_symbol (at_ buf e)) eqn:Ey; [by rewrite andb_false_r|]. by destruct Hne.
  - destruct (Hw s) as (_ & -> & ->); [lia|]. rewrite (proj2 (Nat.ltb_lt s es)) by lia. apply IH; [lia| |done|lia].
    intros k ?. apply Hw. lia.
Qed.

(** A maximal word. *)
Definition word_ok (w : word) : Prop :=
  (fst w < snd w ≤ es)%nat ∧ (∀ k, (fst w ≤ k < snd w)%nat → word_char (at_ buf k)) ∧ ¬ word_char (at_ buf (snd w)).

(** The token at a character. *)
Definition tok_of (c c' : Z) : Z :=
  if c =? 0 then 0 else if c =? 62 then (if c' =? 62 then 43 else 62) else if is_symbol c then c else 97.

Lemma tok_of_zero c c' : tok_of c c' = 0 ↔ c = 0.
Proof.
  unfold tok_of. destruct (Z.eqb_spec c 0) as [->|?]; [done|].
  repeat case_match; split; try lia; try done.
Qed.

(** [gettoken] at the character [c] it finds after the white space. *)
Lemma gettoken_spec s :
  (s ≤ es)%nat →
  let q := skip buf es s in let c := at_ buf q in
  ∃ e, gettoken buf es s = Ok (tok_of c (at_ buf (S q)), (q, e)) (skip buf es e) ∧ (q ≤ e ≤ es)%nat
    ∧ (c ≠ 0 → (q < e)%nat) ∧ (c = 0 → q = es) ∧ (tok_of c (at_ buf (S q)) = 97 → word_ok (q, e)).
Proof.
  intros Hs q c. destruct (skip_spec s Hs) as (Hq & _ & Hns). fold q in Hq, Hns. fold c in Hns.
  assert (c = 0 → q = es) as Hend.
  { intros E. destruct (decide (q < es)%nat) as [Hlt|?]; [|lia]. by destruct (proj2 Ht q Hlt). }
  assert (c ≠ 0 → (q < es)%nat) as Hlt.
  { intros Hc. destruct (decide (q = es)) as [E|]; [|lia]. unfold c in Hc. by rewrite E, (proj1 Ht) in Hc. }
  unfold gettoken. fold q. fold c. unfold tok_of. destruct (Z.eqb_spec c 0) as [E0|E0].
  { exists q. rewrite E0. split_and!; solve [done | lia]. }
  specialize (Hlt E0).
  destruct (Z.eqb_spec c 62) as [E62|E62].
  { rewrite E62. simpl. destruct (Z.eqb_spec (at_ buf (S q)) 62) as [E|E].
    - exists (S (S q)). assert (S q ≠ es) by (intros E'; rewrite E', (proj1 Ht) in E; done).
      split_and!; solve [done | lia].
    - exists (S q). split_and!; solve [done | lia]. }
  rewrite is_symbol_iff.
  destruct ((c =? 124) || (c =? 40) || (c =? 41) || (c =? 59) || (c =? 38) || (c =? 60)) eqn:Esy.
  - exists (S q). rewrite bool_decide_true.
    { split_and!; solve [done | lia | intros E; rewrite E in Esy; done]. }
    unfold symbols. rewrite !orb_true_iff, !Z.eqb_eq in Esy. set_solver.
  - rewrite !orb_false_iff, !Z.eqb_neq in Esy.
    assert (c ∉ symbols) as Hsy by (unfold symbols; set_solver). rewrite bool_decide_false by done.
    destruct (run_end (λ k, bool_decide (word_char (at_ buf k))) q ltac:(lia)) as (e & He & Hw & Hstop).
    assert (¬ word_char (at_ buf e)) as Hne.
    { destruct Hstop as [->|?%bool_decide_eq_false]; [|done]. rewrite (proj1 Ht). by intros []. }
    assert (∀ k, (q ≤ k < e)%nat → word_char (at_ buf k)) as Hw' by (intros; by eapply bool_decide_eq_true, Hw).
    exists e. rewrite (skip_word_unique _ _ e) by (done || lia).
    assert (q ≠ e) as Hqe.
    { intros <-. destruct Hne. split_and!; [done|done|]. rewrite is_symbol_iff. by rewrite bool_decide_false. }
    split_and!; try done; try lia. intros _. split; [simpl; lia|done].
Qed.

(** [peek] moves over the white space and looks at one character. *)
Lemma peek_eq toks s : peek buf es toks s = Ok (negb (at_ buf (skip buf es s) =? 0) && strchr_b toks (at_ buf (skip buf es s))) (skip buf es s).
Proof. done. Qed.

Lemma peek_safe toks s :
  (s ≤ es)%nat → safe (peek buf es toks) s (λ b s', (s ≤ s' ≤ es)%nat ∧ (b = true → at_ buf (skip buf es s') ≠ 0)).
Proof.
  intros Hs. unfold safe. rewrite peek_eq. destruct (skip_spec s Hs) as (? & _ & _).
  split; [done|]. rewrite skip_idem by done. by intros [?%negb_true_iff%Z.eqb_neq _]%andb_true_iff.
Qed.

Lemma gettoken_safe s :
  (s ≤ es)%nat → safe (gettoken buf es) s (λ '(tok, w) s', (s ≤ s' ≤ es)%nat
    ∧ (tok ≠ 0 ∨ at_ buf (skip buf es s) ≠ 0 → (s < s')%nat) ∧ (tok = 97 → word_ok w)).
Proof.
  intros Hs. unfold safe. destruct (gettoken_spec s Hs) as (e & -> & He & Hlt & _ & Hw).
  destruct (skip_spec s Hs) as (? & _ & _), (skip_spec e) as (? & _ & _); [lia|].
  split_and!; [lia|lia| |done]. rewrite tok_of_zero. intros [?|?]; specialize (Hlt ltac:(done)); lia.
Qed.

(** ** The parser on any line *)

Definition redirs_ok (rs : list (redir word)) : Prop := Forall (λ r, word_ok r.1.1) rs.

(** All words of a command satisfy [Q], and its argument lists fit in [argv]. *)
Fixpoint cmd_ok {W} (Q : W → Prop) (c : cmd W) : Prop :=
  match c with
  | EXEC argv => (length argv < MAXARGS)%nat ∧ Forall Q argv
  | REDIR c w _ _ => cmd_ok Q c ∧ Q w
  | PIPE l r | LIST l r => cmd_ok Q l ∧ cmd_ok Q r
  | BACK c => cmd_ok Q c
  end.

Lemma redircmds_ok c rs : cmd_ok word_ok c → redirs_ok rs → cmd_ok word_ok (redircmds c rs).
Proof.
  unfold redircmds. intros Hc Hr. revert c Hc. induction Hr as [|[[w m] fd] rs Hw Hr IH]; intros c Hc; [done|].
  simpl. apply IH. done.
Qed.

Lemma parseredirs_safe rs s :
  (s ≤ es)%nat → redirs_ok rs →
  safe (parseredirs buf es rs) s (λ rs' s', (s ≤ s' ≤ es)%nat ∧ redirs_ok rs').
Proof.
  intros Hs Hr. apply (safe_iterM (λ rs s', (s ≤ s' ≤ es)%nat ∧ redirs_ok rs) (λ _ s', es - s')%nat); [done|lia|].
  clear rs Hr. intros rs s1 [Hs1 Hr]. unfold parseredirs_body.
  eapply safe_bind; [apply peek_safe; lia|]. intros b s2 [Hs2 Hb]. destruct b; simpl; [|split; [lia|done]].
  eapply safe_bind; [apply gettoken_safe; lia|]. intros [tok w] s3 (Hs3 & Hlt & _). specialize (Hlt ltac:(auto)).
  eapply safe_bind; [apply gettoken_safe; lia|]. intros [tok' w'] s4 (Hs4 & _ & Hw).
  destruct (Z.eqb_spec tok' 97) as [E|E]; [|done]. specialize (Hw E). simpl.
  destruct (tok =? 60); (split; [split; [lia|]|lia]); apply Forall_app; split; try done; by apply Forall_singleton.
Qed.

Definition args_ok (x : list word * list (redir word)) : Prop :=
  (length x.1 < MAXARGS)%nat ∧ Forall word_ok x.1 ∧ redirs_ok x.2.

Lemma parseexec_loop_safe x s :
  (s ≤ es)%nat → args_ok x →
  safe (iterM (S (S es)) (parseexec_body buf es) x) s (λ x' s', (s ≤ s' ≤ es)%nat ∧ args_ok x').
Proof.
  intros Hs Hx. apply (safe_iterM (λ x s', (s ≤ s' ≤ es)%nat ∧ args_ok x) (λ _ s', es - s')%nat); [done|lia|].
  clear x Hx. intros [argv rs] s1 [Hs1 (Hl & Hws & Hr)]. unfold parseexec_body.
  eapply safe_bind; [apply peek_safe; lia|]. intros b s2 [Hs2 _]. destruct b; [split; [lia|done]|].
  eapply safe_bind; [apply gettoken_safe; lia|]. intros [tok w] s3 (Hs3 & Hlt & Hw).
  destruct (Z.eqb_spec tok 0) as [E0|E0]; [split; [lia|done]|]. specialize (Hlt ltac:(auto)).
  destruct (Z.eqb_spec tok 97) as [E|E]; [|done]. specialize (Hw E). cbn [negb]. cbv zeta.
  destruct (Nat.leb_spec MAXARGS (length (argv ++ [w]))) as [|Hlen]; [done|].
  eapply safe_bind; [apply parseredirs_safe; [lia|exact Hr]|]. intros rs' s4 [Hs4 Hr'].
  split; [split; [lia|]|lia]. split_and!; [done| |done]. apply Forall_app. by split; [|apply Forall_singleton].
Qed.

Definition parsed (s : nat) (c : cmd word) (s' : nat) : Prop := (s ≤ s' ≤ es)%nat ∧ cmd_ok word_ok c.

Lemma parseback_safe c s :
  (s ≤ es)%nat → cmd_ok word_ok c → safe (iterM (S (S es)) (parseback_body buf es) c) s (parsed s).
Proof.
  intros Hs Hc. apply (safe_iterM (λ c s', parsed s c s') (λ _ s', es - s')%nat); [by split; [lia|]|lia|].
  clear c Hc. intros c s1 [Hs1 Hc]. eapply safe_bind; [apply peek_safe; lia|]. intros b s2 [Hs2 Hb].
  destruct b; [|by split; [lia|]]. eapply safe_bind; [apply gettoken_safe; lia|].
  intros [tok w] s3 (Hs3 & Hlt & _). specialize (Hlt ltac:(auto)). split; [by split; [lia|]|lia].
Qed.

(** The fuel [4 * (es - s) + 4] is enough: a nested command is at least one token further on. *)
Lemma parse_safe fuel s :
  (s ≤ es)%nat →
  ((4 * (es - s) + 4 ≤ fuel)%nat → safe (parseline buf es fuel) s (parsed s))
  ∧ ((4 * (es - s) + 3 ≤ fuel)%nat → safe (parsepipe buf es fuel) s (parsed s))
  ∧ ((4 * (es - s) + 2 ≤ fuel)%nat → safe (parseexec buf es fuel) s (parsed s))
  ∧ ((4 * (es - s) + 1 ≤ fuel)%nat → safe (parseblock buf es fuel) s (parsed s)).
Proof.
  revert s. induction fuel as [|fuel IH]; intros s Hs; [lia|]. split_and!; intros Hf; simpl.
  - eapply safe_bind; [apply IH; lia|]. intros c s1 [Hs1 Hc].
    eapply safe_bind; [by apply parseback_safe; [lia|]|].
    intros c' s2 [Hs2 Hc']. eapply safe_bind; [apply peek_safe; lia|]. intros b s3 [Hs3 Hb].
    destruct b; [|split; [lia|done]]. eapply safe_bind; [apply gettoken_safe; lia|].
    intros [tok w] s4 (Hs4 & Hlt & _). specialize (Hlt ltac:(auto)).
    eapply safe_bind; [apply IH; lia|]. intros c2 s5 [Hs5 Hc2]. split; [lia|done].
  - eapply safe_bind; [apply IH; lia|]. intros c s1 [Hs1 Hc].
    eapply safe_bind; [apply peek_safe; lia|]. intros b s3 [Hs3 Hb].
    destruct b; [|split; [lia|done]]. eapply safe_bind; [apply gettoken_safe; lia|].
    intros [tok w] s4 (Hs4 & Hlt & _). specialize (Hlt ltac:(auto)).
    eapply safe_bind; [apply IH; lia|]. intros c2 s5 [Hs5 Hc2]. split; [lia|done].
  - eapply safe_bind; [apply peek_safe; lia|]. intros b s1 [Hs1 _]. destruct b.
    { eapply safe_mono; [apply IH; lia|]. intros c s2 [??]. split; [lia|done]. }
    eapply safe_bind; [apply parseredirs_safe; [lia|constructor]|]. intros rs s2 [Hs2 Hr].
    eapply safe_bind; [apply (parseexec_loop_safe ([], rs)); [lia|split_and!; [unfold MAXARGS; simpl; lia|done|done]]|].
    intros [argv rs'] s3 [Hs3 (Hl & Hws & Hr')]. split; [lia|]. by apply redircmds_ok.
  - eapply safe_bind; [apply peek_safe; lia|]. intros b s1 [Hs1 Hb]. destruct b; [|done]. simpl.
    eapply safe_bind; [apply gettoken_safe; lia|]. intros [tok w] s2 (Hs2 & Hlt & _). specialize (Hlt ltac:(auto)).
    eapply safe_bind; [apply IH; lia|]. intros c s3 [Hs3 Hc].
    eapply safe_bind; [apply peek_safe; lia|]. intros b s4 [Hs4 _]. destruct b; [|done]. simpl.
    eapply safe_bind; [apply gettoken_safe; lia|]. intros [tok' w'] s5 (Hs5 & _ & _).
    eapply safe_bind; [apply parseredirs_safe; [lia|constructor]|]. intros rs s6 [Hs6 Hr].
    split; [lia|]. by apply redircmds_ok.
Qed.
End lex.

(** * Cutting the line into strings *)

(** The characters of a word, and the positions where [nulterminate] writes. *)
Definition wtext (buf : list Z) (w : word) : list Z := take (snd w - fst w) (drop (fst w) buf).
Fixpoint cuts (c : cmd word) : list nat :=
  match c with
  | EXEC argv => snd <$> argv
  | REDIR c w _ _ => cuts c ++ [snd w]
  | PIPE l r | LIST l r => cuts l ++ cuts r
  | BACK c => cuts c
  end.
Definition cut (buf : list Z) (e : nat) : list Z := <[e := 0]> buf.

Lemma nulterminate_cuts c buf : nulterminate c buf = foldl cut buf (cuts c).
Proof.
  revert buf. induction c as [argv|c IH w m fd|l IHl r IHr|l IHl r IHr|c IH]; intros buf; simpl; [|by rewrite foldl_app, IH|by rewrite foldl_app, IHl, IHr|by rewrite foldl_app, IHl, IHr|apply IH].
  revert buf. induction argv as [|w argv IH]; intros buf; [done|]. apply IH.
Qed.

Lemma foldl_cut es buf : length (foldl cut buf es) = length buf
  ∧ ∀ k, foldl cut buf es !! k = if decide (k ∈ es) then (λ _, 0) <$> buf !! k else buf !! k.
Proof.
  revert buf. induction es as [|e es IH]; intros buf; [done|]. simpl. destruct (IH (cut buf e)) as [-> Hk]. unfold cut.
  split; [by rewrite length_insert|]. intros k. rewrite Hk. unfold cut. destruct (decide (k = e)) as [->|Hne].
  - rewrite (decide_True (P := e ∈ e :: es)) by left. destruct (buf !! e) as [x|] eqn:E.
    + rewrite list_lookup_insert_eq by (by eapply lookup_lt_Some). by case_decide.
    + rewrite list_insert_ge by (by eapply lookup_ge_None). rewrite E. by case_decide.
  - rewrite list_lookup_insert_ne by done. repeat case_decide; try done; exfalso; set_solver.
Qed.

Lemma cmd_ok_cuts (Q : word → Prop) c e : cmd_ok Q c → e ∈ cuts c → ∃ w, Q w ∧ snd w = e.
Proof.
  induction c as [argv|c IH w m fd|l IHl r IHr|l IHl r IHr|c IH]; simpl.
  - intros [_ Hq] (p & -> & Hp)%list_elem_of_fmap. rewrite Forall_forall in Hq. eauto.
  - intros [Hc Hw] [?| ->%list_elem_of_singleton]%elem_of_app; eauto.
  - intros [Hl Hr] [?|?]%elem_of_app; eauto.
  - intros [Hl Hr] [?|?]%elem_of_app; eauto.
  - eauto.
Qed.
Lemma cmd_ok_in (Q : word → Prop) c : cmd_ok Q c → cmd_ok (λ w, Q w ∧ snd w ∈ cuts c) c.
Proof.
  assert (∀ (A B : word → Prop) c, (∀ w, A w → B w) → cmd_ok A c → cmd_ok B c) as Hmono.
  { intros A B c' Hab. induction c'; simpl; try naive_solver. intros [? ?]. split; [done|]. by eapply Forall_impl. }
  induction c as [argv|c IH w m fd|l IHl r IHr|l IHl r IHr|c IH]; simpl.
  - intros [Hl Hq]. split; [done|]. rewrite Forall_forall in *. intros w Hw. split; [by apply Hq|]. apply list_elem_of_fmap. eauto.
  - intros [Hc Hw]. split; [|split; [done|set_solver]]. eapply Hmono; [|by apply IH]. set_solver.
  - intros [Hl Hr]. split; (eapply Hmono; [|by first [apply IHl|apply IHr]]); set_solver.
  - intros [Hl Hr]. split; (eapply Hmono; [|by first [apply IHl|apply IHr]]); set_solver.
  - done.
Qed.

Lemma cmd_ok_impl {W} (A B : W → Prop) c : (∀ w, A w → B w) → cmd_ok A c → cmd_ok B c.
Proof.
  intros Hab. induction c; simpl; try naive_solver. intros [? ?]. split; [done|]. by eapply Forall_impl.
Qed.

Lemma at_lookup buf k : (k < length buf)%nat → buf !! k = Some (at_ buf k).
Proof. intros [x Hx]%lookup_lt_is_Some_2. unfold at_. by rewrite Hx. Qed.

Lemma wtext_chars buf es w : word_ok buf es w → (es < length buf)%nat → Forall word_char (wtext buf w).
Proof.
  intros ([Hl ?] & Hw & _) Hes. unfold wtext. apply Forall_lookup. intros i x.
  rewrite lookup_take. case_decide; [|done]. rewrite lookup_drop. rewrite at_lookup by lia.
  intros [= <-]. apply Hw. lia.
Qed.

(** A word of the command is a string of the cut line. *)
Lemma cut_string buf es c w :
  terminated buf es → (es < length buf)%nat → cmd_ok (word_ok buf es) c → word_ok buf es w → snd w ∈ cuts c →
  str_at (nulterminate c buf) w = wtext buf w.
Proof.
  intros Ht Hes Hc Hw Hin. pose proof (wtext_chars buf es w Hw Hes) as Hch. destruct Hw as ([Hlt Hle] & Hch' & _).
  rewrite nulterminate_cuts. destruct (foldl_cut (cuts c) buf) as [Hlen Hk]. set (buf' := foldl cut buf (cuts c)) in *.
  assert (take (snd w - fst w) (drop (fst w) buf') = wtext buf w) as Et.
  { unfold wtext. apply list_eq. intros i. rewrite !lookup_take. case_decide as Hi; [|done]. rewrite !lookup_drop, Hk.
    rewrite decide_False; [done|]. intros Hcut. apply (cmd_ok_cuts _ _ _ Hc) in Hcut as (w' & (_ & _ & Hn) & E).
    apply Hn. rewrite E. apply Hch'. lia. }
  unfold str_at. rewrite <- (take_drop (snd w - fst w) (drop (fst w) buf')), Et, drop_drop.
  replace (fst w + (snd w - fst w))%nat with (snd w) by lia.
  rewrite (drop_S _ 0). { apply cstr_app_zero. eapply Forall_impl; [exact Hch|]. by intros ? []. }
  rewrite Hk, decide_True by done. by rewrite at_lookup by lia.
Qed.

Lemma terminated_strlen buf : 0 ∈ buf → let es := Z.to_nat (strlen buf) in terminated buf es ∧ (es < length buf)%nat.
Proof.
  intros Hz es. assert (es = length (cstr buf)) as -> by (unfold es; rewrite strlen_cstr; lia);
  induction buf as [|c buf IH]; [by apply not_elem_of_nil in Hz|]. simpl. destruct (Z.eqb_spec c 0) as [->|Hc].
  { split; [split; [done|intros; simpl in *; lia]|simpl; lia]. }
  destruct IH as [[He Hn] Hl]; [set_solver|]. simpl. split; [split; [done|]|lia]. intros [|k] Hk; [done|]. apply Hn. lia.
Qed.

(** * Properties *)

(** C26: [parsecmd] ends on every line: with the message of [panic], or with a command whose argument vectors
    fit in their arrays and all of whose words are strings of the line as [nulterminate] has cut it: not
    empty, inside the buffer and without white space or symbols. *)
Theorem parsecmd_terminates (buf : list Z) :
  0 ∈ buf →
  ∃ r, parsecmd buf = Some r ∧
  match r with
  | inl (c, buf') => length buf' = length buf
      ∧ cmd_ok (λ w, (fst w < snd w < length buf)%nat ∧ str_at buf' w = wtext buf w ∧ Forall word_char (wtext buf w)) c
  | inr _ => True
  end.
Proof.
  intros [Ht Hes]%terminated_strlen. unfold parsecmd. set (es := Z.to_nat (strlen buf)) in *.
  assert (safe (c ← parseline buf es (parse_fuel buf); peek buf es [];; s ← get;
    mret (if negb (s =? es)%nat then inr s else inl c)) 0%nat (λ r _, match r with inl c => cmd_ok (word_ok buf es) c | inr _ => True end)) as Hsafe.
  { eapply safe_bind; [apply (parse_safe buf es Ht); [lia|unfold parse_fuel; lia]|]. intros c s1 [Hs1 Hc].
    eapply safe_bind; [apply (peek_safe buf es Ht); lia|]. intros b s2 [Hs2 _]. unfold safe. rewrite bind_get.
    by destruct (s2 =? es)%nat. }
  unfold safe in Hsafe. match type of Hsafe with match ?m with _ => _ end => destruct m as [[c|n] s'|msg|s'|] end; [|by eauto|by eauto|done|done].
  eexists. split; [done|]. cbv beta iota. split.
  - rewrite nulterminate_cuts. apply foldl_cut.
  - eapply cmd_ok_impl; [|by apply cmd_ok_in]. intros w [Hw Hin]. split_and!.
    + apply Hw.
    + destruct Hw as ([? ?] & _). lia.
    + by apply (cut_string buf es).
    + by eapply wtext_chars.
Qed.

(** A pipeline with a redirection, in the background. *)
Definition demo_line : list Z := [99; 97; 116; 32; 60; 120; 124; 119; 99; 38; 0].
Lemma parsecmd_terminates_witness :
  0 ∈ demo_line ∧ ∃ r, parsecmd demo_line = Some r ∧
  match r with
  | inl (c, buf') => length buf' = length demo_line
      ∧ cmd_ok (λ w, (fst w < snd w < length demo_line)%nat ∧ str_at buf' w = wtext demo_line w ∧ Forall word_char (wtext demo_line w)) c
  | inr _ => True
  end.
Proof. assert (0 ∈ demo_line) as H by by_decide. split; [exact H|]. by apply (parsecmd_terminates demo_line). Defined.
Example demo_parse :
  (λ r, match r with Some (inl (c, buf)) => Some (cmd_strings buf c) | _ => None end) (parsecmd demo_line)
  = Some (BACK (PIPE (REDIR (EXEC [[99; 97; 116]]) [120] O_RDONLY 0) (EXEC [[119; 99]]))).
Proof. by vm_compute. Qed.
