(* ===== verification/Grammar.v ===== *)
(** A grammar of command lines, its layout as text, and the theorem that the shell's parser
    reads the text of a line back as the command the line stands for. *)
From S2P Require Export Parse.
From S2P Require Import Prelude CString.

(** * The grammar *)

(** A redirection is written [<], [>] or [>>] and a file name. *)
Inductive rkind := RIn | ROut | RApp.
Definition sredir : Type := rkind * list Z.

(** A command is a list of words, with redirections before, between and after them, or a block. *)
Inductive sline :=
  | LOne (p : spipe) (bg : nat)
  | LSeq (p : spipe) (bg : nat) (l : sline)
with spipe :=
  | POne (e : sexec)
  | PBar (e : sexec) (p : spipe)
with sexec :=
  | XCmd (rs : list sredir) (args : list (list Z * list sredir))
  | XBlock (l : sline) (rs : list sredir).

Scheme sline_mut := Induction for sline Sort Prop
with spipe_mut := Induction for spipe Sort Prop
with sexec_mut := Induction for sexec Sort Prop.
Combined Scheme grammar_ind from sline_mut, spipe_mut, sexec_mut.

(** ** What a line stands for *)

(** [>>] truncates the file, or not, as [>] does: both have the same mode. *)
Definition den_redir (r : sredir) : redir (list Z) :=
  match fst r with
  | RIn => (snd r, O_RDONLY, 0)
  | ROut | RApp => (snd r, Z.lor O_WRONLY O_CREATE, 1)
  end.
Definition den_bg {W} (bg : nat) (c : cmd W) : cmd W := Nat.iter bg BACK c.
Fixpoint den_line (l : sline) : cmd (list Z) :=
  match l with
  | LOne p bg => den_bg bg (den_pipe p)
  | LSeq p bg l => LIST (den_bg bg (den_pipe p)) (den_line l)
  end
with den_pipe (p : spipe) : cmd (list Z) :=
  match p with
  | POne e => den_exec e
  | PBar e p => PIPE (den_exec e) (den_pipe p)
  end
with den_exec (e : sexec) : cmd (list Z) :=
  match e with
  | XCmd rs args => redircmds (EXEC (fst <$> args)) (den_redir <$> (rs ++ concat (snd <$> args)))
  | XBlock l rs => redircmds (den_line l) (den_redir <$> rs)
  end.

(** ** How it is written *)

Inductive token := TSym (c : Z) | TApp | TWord (w : list Z).
Definition toks_redir (r : sredir) : list token :=
  [match fst r with RIn => TSym 60 | ROut => TSym 62 | RApp => TApp end; TWord (snd r)].
Definition toks_redirs (rs : list sredir) : list token := concat (toks_redir <$> rs).
Definition toks_arg (a : list Z * list sredir) : list token := TWord (fst a) :: toks_redirs (snd a).
Fixpoint toks_line (l : sline) : list token :=
  match l with
  | LOne p bg => toks_pipe p ++ replicate bg (TSym 38)
  | LSeq p bg l => toks_pipe p ++ replicate bg (TSym 38) ++ TSym 59 :: toks_line l
  end
with toks_pipe (p : spipe) : list token :=
  match p with
  | POne e => toks_exec e
  | PBar e p => toks_exec e ++ TSym 124 :: toks_pipe p
  end
with toks_exec (e : sexec) : list token :=
  match e with
  | XCmd rs args => toks_redirs rs ++ concat (toks_arg <$> args)
  | XBlock l rs => TSym 40 :: toks_line l ++ TSym 41 :: toks_redirs rs
  end.

Definition tok_text (t : token) : list Z :=
  match t with TSym c => [c] | TApp => [62; 62] | TWord w => w end.
(** White space may come before every token, and must come between two words and between two [>]. *)
Fixpoint layout (gaps : list (list Z)) (ts : list token) : list Z :=
  match gaps, ts with
  | g :: gaps, t :: ts => g ++ tok_text t ++ layout gaps ts
  | _, _ => []
  end.

Definition white (g : list Z) : Prop := Forall (λ c, c ∈ whitespace) g.
#[global] Instance white_dec g : Decision (white g).
Proof. unfold white. apply _. Defined.
(** Words that can be written as they are, and fit in [argv]. *)
Definition word_text (w : list Z) : Prop := w ≠ [] ∧ Forall word_char w.
Fixpoint line_ok (l : sline) : Prop :=
  match l with
  | LOne p _ => pipe_ok p
  | LSeq p _ l => pipe_ok p ∧ line_ok l
  end
with pipe_ok (p : spipe) : Prop :=
  match p with
  | POne e => exec_ok e
  | PBar e p => exec_ok e ∧ pipe_ok p
  end
with exec_ok (e : sexec) : Prop :=
  match e with
  | XCmd _ args => (length args < MAXARGS)%nat
  | XBlock l _ => line_ok l
  end.
Definition tok_ok (t : token) : Prop :=
  match t with TSym c => c ∈ symbols | TApp => True | TWord w => word_text w end.

(** * Streams of tokens *)

Definition tok_code (t : token) : Z := match t with TSym c => c | TApp => 43 | TWord _ => 97 end.
(** The first character, if it is a symbol. *)
Definition tok_sym (t : token) : Z := match t with TSym c => c | TApp => 62 | TWord _ => 0 end.
Definition head_sym (ts : list token) : Z := match ts with [] => 0 | t :: _ => tok_sym t end.

(** Two tokens that would be read as others if nothing was between them. *)
Definition clash (t t' : token) : Prop :=
  match t with TWord _ => tok_sym t' = 0 | TSym c => c = 62 ∧ tok_sym t' = 62 | TApp => False end.
Fixpoint spaced (prev : option token) (gaps : list (list Z)) (ts : list token) : Prop :=
  match gaps, ts with
  | [], [] => True
  | g :: gaps, t :: ts => white g ∧ (g = [] → ∀ t', prev = Some t' → ¬ clash t' t) ∧ spaced (Some t) gaps ts
  | _, _ => False
  end.

Section stream.
Context (buf : list Z) (es : nat) (Ht : terminated buf es).

(** [gettoken], from position [s] on, reads the tokens [ts]. *)
Inductive lexes : nat → list token → Prop :=
  | lexes_nil s : (s ≤ es)%nat → skip buf es s = es → lexes s []
  | lexes_cons s t w s' ts :
      (s ≤ es)%nat → gettoken buf es s = Ok (tok_code t, w) s' → tok_code t ≠ 0 →
      (∀ x, t = TWord x → wtext buf w = x) → (∀ c, t = TSym c → c ∈ symbols) → lexes s' ts → lexes s (t :: ts).

Lemma lexes_le s ts : lexes s ts → (s ≤ es)%nat.
Proof. by inversion 1. Qed.

Lemma symbols_iff c : c ∈ symbols ↔ is_symbol c = true.
Proof. by rewrite is_symbol_iff, bool_decide_eq_true. Qed.

(** The character a token starts with. *)
Lemma lexes_head s ts :
  lexes s ts → let c := at_ buf (skip buf es s) in
  match ts with [] => c = 0 | t :: _ => c ≠ 0 ∧ (if is_symbol c then c else 0) = tok_sym t end.
Proof.
  destruct 1 as [s Hs E|s t w s' ts Hs E Hc _ Hsym _]; intros c.
  - unfold c. by rewrite E, (proj1 Ht).
  - destruct (gettoken_spec buf es Ht s Hs) as (e & E' & _). fold c in E'. rewrite E in E'. injection E' as Et _ _.
    assert (c ≠ 0) as Hc0 by (intros E0; rewrite E0 in Et; done). split; [done|].
    unfold tok_of in Et. destruct (Z.eqb_spec c 0); [done|]. destruct (Z.eqb_spec c 62) as [E62|E62].
    + rewrite E62. simpl. destruct t as [x| |x]; simpl in *; [|done|by case_match].
      specialize (Hsym x eq_refl). destruct (at_ buf _ =? 62); [|done]. subst x. by apply symbols_iff in Hsym.
    + destruct (is_symbol c) eqn:Esy; destruct t as [x| |x]; simpl in *; try done.
      * rewrite <- Et in Esy. by vm_compute in Esy.
      * rewrite <- Et in Esy. by vm_compute in Esy.
      * specialize (Hsym x eq_refl). rewrite Et in Hsym. by apply symbols_iff in Hsym.
Qed.
Lemma lexes_skip s ts : lexes s ts → lexes (skip buf es s) ts.
Proof.
  intros Hl. pose proof (lexes_le _ _ Hl) as Hs. destruct (skip_spec buf es Ht s Hs) as ([? ?] & _ & _).
  destruct Hl as [s _ E|s t w s' ts _ E Hc Hw Hy Hl]; [apply lexes_nil; [done|by rewrite skip_idem]|].
  eapply lexes_cons; [done| |done..]. rewrite <- E. unfold gettoken. by rewrite skip_idem.
Qed.

Lemma peek_lexes toks s ts :
  lexes s ts → Forall (λ c, c ∈ symbols) toks →
  ∃ s', peek buf es toks s = Ok (bool_decide (head_sym ts ∈ toks)) s' ∧ (s ≤ s')%nat ∧ lexes s' ts.
Proof.
  intros Hl Hsym. pose proof (lexes_le _ _ Hl) as Hs. pose proof (lexes_head _ _ Hl) as Hh. cbv zeta in Hh.
  destruct (skip_spec buf es Ht s Hs) as ([? ?] & _ & _). exists (skip buf es s).
  assert (Forall (λ x, x ≠ 0) toks ∧ (0 ∉ toks)) as [Hnz Hn0].
  { rewrite Forall_forall in Hsym. split; [apply Forall_forall; intros x Hx E|intros Hx; apply Hsym in Hx; by apply symbols_iff in Hx].
    apply Hsym in Hx. rewrite E in Hx. by apply symbols_iff in Hx. }
  split_and!; [|done|].
  - rewrite peek_eq, strchr_b_iff by done. f_equal. destruct ts as [|t ts]; simpl.
    + rewrite Hh. by rewrite bool_decide_false.
    + destruct Hh as [Hc Hh]. rewrite (proj2 (Z.eqb_neq _ 0)) by done. simpl. apply bool_decide_ext.
      destruct (is_symbol _) eqn:E; [by rewrite Hh|]. rewrite <- Hh. split; [|done].
      intros Hx. rewrite Forall_forall in Hsym. apply Hsym, symbols_iff in Hx. congruence.
  - by apply lexes_skip.
Qed.

Lemma gettoken_lexes s t ts :
  lexes s (t :: ts) → ∃ w s', gettoken buf es s = Ok (tok_code t, w) s' ∧ (s < s')%nat
    ∧ (∀ x, t = TWord x → wtext buf w = x) ∧ lexes s' ts.
Proof.
  intros Hl. destruct (lexes_head _ _ Hl) as [Hc _]. inversion Hl as [|? ? w s' ? Hs E _ Hw _ Hl']; subst.
  exists w, s'. split_and!; [done| |done|done].
  destruct (gettoken_spec buf es Ht s Hs) as (e & E' & He & Hlt & _). rewrite E in E'. injection E' as _ _ ->.
  destruct (skip_spec buf es Ht s Hs) as ([? ?] & _ & _), (skip_spec buf es Ht e) as ([? ?] & _ & _); [lia|].
  specialize (Hlt Hc). lia.
Qed.
Lemma gettoken_end s : lexes s [] → ∃ w s', gettoken buf es s = Ok (0, w) s' ∧ (s ≤ s')%nat ∧ lexes s' [].
Proof.
  intros Hl. pose proof (lexes_head _ _ Hl) as Hc. pose proof (lexes_le _ _ Hl) as Hs. cbv zeta in Hc.
  destruct (gettoken_spec buf es Ht s Hs) as (e & E & He & _). rewrite Hc in E. exists (skip buf es s, e), (skip buf es e). split; [done|].
  destruct (skip_spec buf es Ht s Hs) as ([? ?] & _ & _), (skip_spec buf es Ht e) as ([? ?] & _ & _); [lia|].
  split; [lia|]. inversion Hl as [? ? E0|]. apply lexes_nil; [lia|]. rewrite skip_idem by (done || lia).
  apply (skip_unique buf es); [lia|intros; lia|by rewrite (proj1 Ht)].
Qed.

(** [m] reads tokens up to [ts] and returns a result with [Q]. *)
Definition parses {A} (m : M nat A) (s : nat) (ts : list token) (Q : A → Prop) : Prop :=
  ∃ a s', m s = Ok a s' ∧ (s ≤ s')%nat ∧ lexes s' ts ∧ Q a.

Lemma parses_ret {A} (a : A) s ts (Q : A → Prop) : lexes s ts → Q a → parses (mret a) s ts Q.
Proof. intros. by exists a, s. Qed.
Lemma parses_bind {A B} (m : M nat A) (k : A → M nat B) s ts ts' (Pa : A → Prop) Q :
  parses m s ts Pa → (∀ a s', Pa a → (s ≤ s')%nat → lexes s' ts → parses (k a) s' ts' Q) → parses (m ≫= k) s ts' Q.
Proof.
  intros (a & s1 & E & Hs & Hl & Ha) Hk. destruct (Hk a s1 Ha Hs Hl) as (b & s2 & E2 & Hs2 & Hl2 & Hb).
  exists b, s2. split_and!; [by rewrite (bind_ok _ _ _ _ _ E)|lia|done|done].
Qed.
Lemma parses_mono {A} (m : M nat A) s ts (P Q : A → Prop) : parses m s ts P → (∀ a, P a → Q a) → parses m s ts Q.
Proof. intros (a & s' & ? & ? & ? & ?) Hpq. exists a, s'. naive_solver. Qed.
Lemma parses_peek toks s ts :
  lexes s ts → Forall (λ c, c ∈ symbols) toks → parses (peek buf es toks) s ts (λ b, b = bool_decide (head_sym ts ∈ toks)).
Proof. intros Hl Hs. destruct (peek_lexes toks s ts Hl Hs) as (s' & E & ? & ?). by exists (bool_decide (head_sym ts ∈ toks)), s'. Qed.
(** After a token at least one character has gone. *)
Lemma parses_token {B} (k : Z * word → M nat B) s t ts ts' Q :
  lexes s (t :: ts) →
  (∀ w s', (s < s')%nat → (∀ x, t = TWord x → wtext buf w = x) → lexes s' ts → parses (k (tok_code t, w)) s' ts' Q) →
  parses (gettoken buf es ≫= k) s ts' Q.
Proof.
  intros Hl Hk. destruct (gettoken_lexes s t ts Hl) as (w & s1 & E & Hlt & Hw & Hl1).
  destruct (Hk w s1 Hlt Hw Hl1) as (b & s2 & E2 & Hs2 & Hl2 & Hb).
  exists b, s2. split_and!; [by rewrite (bind_ok _ _ _ _ _ E)|lia|done|done].
Qed.
Lemma lexes_length s ts : lexes s ts → (length ts ≤ es - s)%nat.
Proof.
  revert s. induction ts as [|t ts IH]; intros s Hl; [simpl; lia|]. pose proof (lexes_le _ _ Hl).
  destruct (gettoken_lexes _ _ _ Hl) as (w & s' & _ & ? & _ & Hl'). pose proof (lexes_le _ _ Hl'). apply IH in Hl'. simpl. lia.
Qed.

(** ** The parser on a stream *)

Definition redir_map {W W'} (f : W → W') (r : redir W) : redir W' := let '(w, mode, fd) := r in (f w, mode, fd).

Ltac symbols_tac := unfold symbols; repeat constructor; set_solver.

Lemma parseredirs_body_end rs0 s ts :
  lexes s ts → head_sym ts ∉ [60; 62] → parses (parseredirs_body buf es rs0) s ts (λ r, r = inr rs0).
Proof.
  intros Hl Hh. unfold parseredirs_body. eapply parses_bind; [apply parses_peek; [done|symbols_tac]|].
  intros b s1 -> _ Hl1. rewrite bool_decide_false by done. by apply parses_ret.
Qed.
Lemma parseredirs_body_one rs0 r s ts :
  lexes s (toks_redir r ++ ts) →
  parses (parseredirs_body buf es rs0) s ts (λ x, ∃ r', x = inl (rs0 ++ [r']) ∧ redir_map (wtext buf) r' = den_redir r).
Proof.
  intros Hl. unfold parseredirs_body. eapply parses_bind; [apply parses_peek; [done|symbols_tac]|].
  intros b s1 -> _ Hl1. rewrite bool_decide_true by (destruct r as [[] x]; set_solver). simpl.
  destruct r as [k x]. unfold toks_redir in Hl1; simpl in Hl1.
  eapply parses_token; [done|]. intros w s2 _ _ Hl2. eapply parses_token; [done|]. intros w' s3 _ Hw Hl3. specialize (Hw x eq_refl).
  change (negb (tok_code (TWord x) =? 97)) with false. cbv iota.
  destruct k; apply parses_ret; try done; eexists; (split; [reflexivity|]); unfold den_redir; simpl; by rewrite Hw.
Qed.

Lemma parseredirs_lexes rs n rs0 s ts :
  lexes s (toks_redirs rs ++ ts) → (length rs < n)%nat → head_sym ts ∉ [60; 62] →
  parses (iterM n (parseredirs_body buf es) rs0) s ts
    (λ r, ∃ r', r = rs0 ++ r' ∧ redir_map (wtext buf) <$> r' = den_redir <$> rs).
Proof.
  revert n rs0 s. induction rs as [|r rs IH]; intros n rs0 s Hl Hn Hh; (destruct n as [|n]; [simpl in Hn; lia|]); rewrite iterM_S.
  - eapply parses_bind; [by apply parseredirs_body_end|]. intros x s1 -> _ Hl1. apply parses_ret; [done|]. exists []. by rewrite app_nil_r.
  - change (toks_redirs (r :: rs) ++ ts) with (toks_redir r ++ toks_redirs rs ++ ts) in Hl.
    eapply parses_bind; [by apply parseredirs_body_one|]. intros x s1 (r' & -> & Er) _ Hl1.
    eapply parses_mono; [apply IH; [done|simpl in Hn; lia|done]|]. intros y (rs' & -> & Ers). exists (r' :: rs').
    rewrite <- app_assoc. split; [done|]. rewrite !fmap_cons. by rewrite Er, Ers.
Qed.

Lemma toks_redirs_length rs : length (toks_redirs rs) = (2 * length rs)%nat.
Proof. induction rs as [|r rs IH]; [done|]. change (toks_redirs (r :: rs)) with (toks_redir r ++ toks_redirs rs). rewrite length_app, IH. simpl. lia. Qed.

(** What may come after a command, a pipeline and a line. *)
Definition follows (l : list Z) (ts : list token) : Prop := ts = [] ∨ head_sym ts ∈ l.
Lemma follows_none l l' ts : follows l ts → Forall (λ c, c ≠ 0 ∧ c ∉ l) l' → head_sym ts ∉ l'.
Proof.
  rewrite Forall_forall. intros [->|Hl] Hn Hin; apply Hn in Hin as [? ?]; [done|]. by eauto.
Qed.
Lemma follows_mono l l' ts : follows l ts → l ⊆ l' → follows l' ts.
Proof. intros [->|Hl] Hs; [by left|right; set_solver]. Qed.


(** The redirections of [parseredirs], whose fuel is the length of the line. *)
Lemma redirs_lexes rs rs0 s ts :
  lexes s (toks_redirs rs ++ ts) → head_sym ts ∉ [60; 62] →
  parses (parseredirs buf es rs0) s ts (λ r, ∃ r', r = rs0 ++ r' ∧ redir_map (wtext buf) <$> r' = den_redir <$> rs).
Proof.
  intros Hl Hh. apply parseredirs_lexes; [done| |done]. pose proof (lexes_length _ _ Hl) as Hn.
  rewrite length_app, toks_redirs_length in Hn. lia.
Qed.

Lemma parseexec_body_end x s ts :
  lexes s ts → follows [124; 41; 38; 59] ts → parses (parseexec_body buf es x) s ts (λ r, r = inr x).
Proof.
  intros Hl Hf. destruct x as [argv rs]. unfold parseexec_body. eapply parses_bind; [apply parses_peek; [done|symbols_tac]|].
  intros b s1 -> _ Hl1. destruct Hf as [->|Hf].
  - rewrite bool_decide_false by (simpl; set_solver). destruct (gettoken_end s1 Hl1) as (w & s2 & E & ? & Hl2).
    exists (inr (argv, rs)), s2. rewrite (bind_ok _ _ _ _ _ E). done.
  - rewrite bool_decide_true by done. by apply parses_ret.
Qed.
Lemma parseexec_body_one argv rs0 w rs s ts :
  lexes s (toks_arg (w, rs) ++ ts) → (S (length argv) < MAXARGS)%nat → head_sym ts ∉ [60; 62] →
  parses (parseexec_body buf es (argv, rs0)) s ts
    (λ r, ∃ a rs', r = inl (argv ++ [a], rs0 ++ rs') ∧ wtext buf a = w ∧ redir_map (wtext buf) <$> rs' = den_redir <$> rs).
Proof.
  intros Hl Hn Hh. unfold parseexec_body. eapply parses_bind; [apply parses_peek; [done|symbols_tac]|].
  intros b s1 -> _ Hl1. rewrite bool_decide_false by (simpl; set_solver).
  change (toks_arg (w, rs) ++ ts) with (TWord w :: toks_redirs rs ++ ts) in Hl1.
  eapply parses_token; [done|]. intros a s2 _ Ha Hl2. specialize (Ha w eq_refl).
  change (tok_code (TWord w) =? 0) with false. change (negb (tok_code (TWord w) =? 97)) with false. cbv iota zeta.
  rewrite length_app. rewrite (proj2 (Nat.leb_gt _ _)) by (simpl; lia).
  eapply parses_bind; [by apply redirs_lexes|]. intros r s3 (rs' & -> & Er) _ Hl3. apply parses_ret; [done|]. by exists a, rs'.
Qed.

Lemma parseexec_loop_lexes args n argv rs0 s ts :
  lexes s (concat (toks_arg <$> args) ++ ts) → (length args < n)%nat → (length argv + length args < MAXARGS)%nat →
  follows [124; 41; 38; 59] ts →
  parses (iterM n (parseexec_body buf es) (argv, rs0)) s ts (λ x, ∃ argv' rs', x = (argv ++ argv', rs0 ++ rs')
    ∧ wtext buf <$> argv' = fst <$> args ∧ redir_map (wtext buf) <$> rs' = den_redir <$> concat (snd <$> args)).
Proof.
  revert n argv rs0 s. induction args as [|[w rs] args IH]; intros n argv rs0 s Hl Hn Hm Hf; (destruct n as [|n]; [simpl in Hn; lia|]); rewrite iterM_S.
  - eapply parses_bind; [by apply parseexec_body_end|]. intros x s1 -> _ Hl1. apply parses_ret; [done|]. exists [], [].
    by rewrite !app_nil_r.
  - simpl in Hn, Hm. rewrite fmap_cons, concat_cons, <- app_assoc in Hl.
    assert (head_sym (concat (toks_arg <$> args) ++ ts) ∉ [60; 62]) as Hh.
    { destruct args as [|[w' rs''] args]; [|simpl; set_solver]. simpl. eapply follows_none; [exact Hf|by_decide]. }
    eapply parses_bind; [apply parseexec_body_one; [done|lia|done]|]. intros x s1 (a & rs1 & -> & Ea & Er) _ Hl1.
    eapply parses_mono; [apply IH; [done|lia|rewrite length_app; simpl; lia|done]|].
    intros y (argv' & rs2 & -> & Ea' & Er'). exists (a :: argv'), (rs1 ++ rs2). rewrite <- !app_assoc. split; [done|].
    simpl. rewrite Ea, !fmap_app, Er, Er'. split; [|done]. f_equal. exact Ea'.
Qed.

Lemma parseback_lexes bg n c s ts :
  lexes s (replicate bg (TSym 38) ++ ts) → (bg < n)%nat → head_sym ts ≠ 38 →
  parses (iterM n (parseback_body buf es) c) s ts (λ c', c' = den_bg bg c).
Proof.
  revert n c s. induction bg as [|bg IH]; intros n c s Hl Hn Hh; (destruct n as [|n]; [lia|]); rewrite iterM_S.
  - eapply parses_bind.
    { unfold parseback_body. eapply parses_bind; [apply parses_peek; [done|symbols_tac]|]. intros b s1 -> _ Hl1.
      rewrite bool_decide_false by set_solver. apply (parses_ret _ _ ts (λ r, r = inr c)); done. }
    intros x s1 -> _ Hl1. by apply parses_ret.
  - eapply parses_bind.
    { unfold parseback_body. eapply parses_bind; [apply parses_peek; [done|symbols_tac]|]. intros b s1 -> _ Hl1.
      rewrite bool_decide_true by (simpl; set_solver). eapply parses_token; [exact Hl1|]. intros w s2 _ _ Hl2.
      apply (parses_ret _ _ (replicate bg (TSym 38) ++ ts) (λ r, r = inl (BACK c))); done. }
    intros x s1 -> _ Hl1. eapply parses_mono; [apply IH; [done|lia|done]|]. intros c' ->. unfold den_bg. by rewrite Nat.iter_succ_r.
Qed.

Lemma cmd_map_redircmds {W W'} (f : W → W') c rs : cmd_map f (redircmds c rs) = redircmds (cmd_map f c) (redir_map f <$> rs).
Proof. unfold redircmds. revert c. induction rs as [|[[w m] fd] rs IH]; intros c; [done|]. simpl. by rewrite IH. Qed.
Lemma cmd_map_bg {W W'} (f : W → W') bg c : cmd_map f (den_bg bg c) = den_bg bg (cmd_map f c).
Proof. unfold den_bg. induction bg as [|bg IH]; [done|]. simpl. by rewrite IH. Qed.

Definition reads (m : M nat (cmd word)) (s : nat) (ts : list token) (c : cmd (list Z)) : Prop :=
  parses m s ts (λ c', cmd_map (wtext buf) c' = c).

Definition ends_line (ts : list token) : Prop := follows [41] ts ∨ head_sym ts = 59.
Lemma follows_bg bg ts : ends_line ts → follows [41; 38; 59] (replicate bg (TSym 38) ++ ts).
Proof.
  intros Hf. destruct bg as [|bg]; [|right; simpl; set_solver].
  destruct Hf as [Hf|E]; [eapply follows_mono; [exact Hf|]; set_solver|right; simpl; rewrite E; set_solver].
Qed.

(** The loop of [parseline], whose fuel is the length of the line. *)
Lemma reads_background bg c d s ts :
  lexes s (replicate bg (TSym 38) ++ ts) → ends_line ts → cmd_map (wtext buf) c = d →
  reads (iterM (S (S es)) (parseback_body buf es) c) s ts (den_bg bg d).
Proof.
  intros Hl Hf Ec. eapply parses_mono; [apply parseback_lexes; [done| |]|].
  - pose proof (lexes_length _ _ Hl) as Hn. rewrite length_app, length_replicate in Hn. lia.
  - intros E. destruct Hf as [[->|Hf]|Hf]; [done| |congruence]. rewrite E in Hf. set_solver.
  - intros c' ->. by rewrite cmd_map_bg, Ec.
Qed.

Lemma reads_redirs c d rs rs0 s ts :
  lexes s (toks_redirs rs ++ ts) → head_sym ts ∉ [60; 62] → cmd_map (wtext buf) c = d →
  reads (rs' ← parseredirs buf es []; mret (redircmds c (rs0 ++ rs'))) s ts (redircmds d ((redir_map (wtext buf) <$> rs0) ++ (den_redir <$> rs))).
Proof.
  intros Hl Hh Ec. eapply parses_bind; [by apply redirs_lexes|]. intros r s1 (r' & -> & Er) _ Hl1.
  apply parses_ret; [done|]. rewrite cmd_map_redircmds, Ec, fmap_app. do 2 f_equal. exact Er.
Qed.

Lemma reads_all :
  (∀ l, line_ok l → ∀ fuel s ts, lexes s (toks_line l ++ ts) → follows [41] ts → (4 * (es - s) + 4 ≤ fuel)%nat →
     reads (parseline buf es fuel) s ts (den_line l))
  ∧ (∀ p, pipe_ok p → ∀ fuel s ts, lexes s (toks_pipe p ++ ts) → follows [41; 38; 59] ts → (4 * (es - s) + 3 ≤ fuel)%nat →
     reads (parsepipe buf es fuel) s ts (den_pipe p))
  ∧ (∀ e, exec_ok e → ∀ fuel s ts, lexes s (toks_exec e ++ ts) → follows [124; 41; 38; 59] ts → (4 * (es - s) + 2 ≤ fuel)%nat →
     reads (parseexec buf es fuel) s ts (den_exec e)).
Proof.
  apply grammar_ind.
  - intros p IH bg Hok fuel s ts Hl Hf Hfuel. destruct fuel as [|fuel]; [lia|]. simpl in *. rewrite <- app_assoc in Hl.
    assert (ends_line ts) as He by (by left).
    eapply parses_bind; [apply IH; [done..|by apply follows_bg|lia]|]. intros c s1 Ec Hs1 Hl1.
    eapply parses_bind; [by eapply (reads_background bg c (den_pipe p))|]. intros c' s2 Ec' Hs2 Hl2.
    eapply parses_bind; [apply parses_peek; [done|symbols_tac]|]. intros b s3 -> _ Hl3.
    rewrite bool_decide_false by (eapply follows_none; [exact Hf|by_decide]). by apply parses_ret.
  - intros p IHp bg l IHl [Hokp Hokl] fuel s ts Hl Hf Hfuel. destruct fuel as [|fuel]; [lia|]. simpl in *. rewrite <- !app_assoc in Hl.
    assert (ends_line (TSym 59 :: toks_line l ++ ts)) as He by (by right).
    eapply parses_bind; [apply IHp; [done..|by apply follows_bg|lia]|]. intros c s1 Ec Hs1 Hl1.
    eapply parses_bind; [by eapply (reads_background bg c (den_pipe p))|]. intros c' s2 Ec' Hs2 Hl2.
    eapply parses_bind; [apply parses_peek; [done|symbols_tac]|]. intros b s3 -> Hs3 Hl3.
    rewrite bool_decide_true by (simpl; set_solver). eapply parses_token; [done|]. intros w s4 Hs4 _ Hl4.
    pose proof (lexes_le _ _ Hl4). eapply parses_bind; [apply IHl; [done..|lia]|]. intros c2 s5 Ec2 _ Hl5.
    apply parses_ret; [done|]. simpl. by rewrite Ec', Ec2.
  - intros e IH Hok fuel s ts Hl Hf Hfuel. destruct fuel as [|fuel]; [lia|]. simpl in *.
    eapply parses_bind; [apply IH; [done..|eapply follows_mono; [exact Hf|set_solver]|lia]|]. intros c s1 Ec Hs1 Hl1.
    eapply parses_bind; [apply parses_peek; [done|symbols_tac]|]. intros b s3 -> Hs3 Hl3.
    rewrite bool_decide_false by (eapply follows_none; [exact Hf|by_decide]). by apply parses_ret.
  - intros e IHe p IHp [Hoke Hokp] fuel s ts Hl Hf Hfuel. destruct fuel as [|fuel]; [lia|]. simpl in *. rewrite <- app_assoc in Hl.
    eapply parses_bind; [apply IHe; [done..|right; simpl; set_solver|lia]|]. intros c s1 Ec Hs1 Hl1.
    eapply parses_bind; [apply parses_peek; [done|symbols_tac]|]. intros b s3 -> Hs3 Hl3.
    rewrite bool_decide_true by (simpl; set_solver). eapply parses_token; [done|]. intros w s4 Hs4 _ Hl4.
    pose proof (lexes_le _ _ Hl4). eapply parses_bind; [apply IHp; [done..|lia]|]. intros c2 s5 Ec2 _ Hl5.
    apply parses_ret; [done|]. simpl. by rewrite Ec, Ec2.
  - intros rs args Hok fuel s ts Hl Hf Hfuel. destruct fuel as [|fuel]; [lia|]. simpl in *. rewrite <- app_assoc in Hl.
    assert (∀ l', Forall (λ c, c ≠ 0 ∧ c ∉ [124; 41; 38; 59]) l' → head_sym (concat (toks_arg <$> args) ++ ts) ∉ l') as Hh.
    { intros l' Hl'. destruct args as [|[w' rs''] args]; [simpl; by eapply follows_none|]. simpl. rewrite Forall_forall in Hl'. intros Hin. by apply Hl' in Hin as [??]. }
    eapply parses_bind; [apply parses_peek; [done|symbols_tac]|]. intros b s1 -> Hs1 Hl1.
    rewrite bool_decide_false.
    2:{ destruct rs as [|[[] x] rs]; [apply Hh; by_decide|simpl; set_solver..]. }
    eapply parses_bind; [apply redirs_lexes; [done|apply Hh; by_decide]|]. intros r s2 (rs' & -> & Er) Hs2 Hl2.
    eapply parses_bind.
    { apply parseexec_loop_lexes; [done| |simpl; lia|done]. pose proof (lexes_length _ _ Hl2) as Hn. rewrite length_app in Hn.
      assert (length args ≤ length (concat (toks_arg <$> args)))%nat; [|lia].
      clear. induction args as [|a args IH]; [done|]. rewrite fmap_cons, concat_cons, length_app, length_cons.
      assert (1 ≤ length (toks_arg a))%nat by (simpl; lia). lia. }
    intros x s3 (argv & rs2 & -> & Ea & Er2) Hs3 Hl3. apply parses_ret; [done|].
    rewrite cmd_map_redircmds. simpl. rewrite !fmap_app. f_equal; [f_equal; exact Ea|f_equal; [exact Er|exact Er2]].
  - intros l IH rs Hok fuel s ts Hl Hf Hfuel. destruct fuel as [|fuel]; [lia|]. simpl in *. rewrite <- app_assoc in Hl. simpl in Hl.
    eapply parses_bind; [apply parses_peek; [done|symbols_tac]|]. intros b s1 -> Hs1 Hl1.
    rewrite bool_decide_true by (simpl; set_solver). destruct fuel as [|fuel]; [lia|]. simpl.
    eapply parses_bind; [apply parses_peek; [done|symbols_tac]|]. intros b s2 -> Hs2 Hl2.
    rewrite bool_decide_true by (simpl; set_solver). change (negb true) with false. cbv iota.
    eapply parses_token; [done|]. intros w s3 Hs3 _ Hl3. pose proof (lexes_le _ _ Hl3).
    eapply parses_bind; [apply IH; [done..|right; simpl; set_solver|lia]|]. intros c s4 Ec Hs4 Hl4.
    eapply parses_bind; [apply parses_peek; [done|symbols_tac]|]. intros b s5 -> Hs5 Hl5.
    rewrite bool_decide_true by (simpl; set_solver). change (negb true) with false. cbv iota.
    eapply parses_token; [done|]. intros w' s6 Hs6 _ Hl6.
    apply (reads_redirs c (den_line l) rs []); [done|eapply follows_none; [exact Hf|by_decide]|done].
Qed.
End stream.

(** * Layout *)

Lemma at_app pre l i : at_ (pre ++ l) (length pre + i) = at_ l i.
Proof. unfold at_. rewrite lookup_app_r by lia. do 2 f_equal. lia. Qed.

Section layout.
Context (buf tail : list Z) (es : nat) (Ht : terminated buf es) (Htail : white tail).

(** The text after a token does not continue it. *)
Lemma next_char t gaps ts :
  spaced (Some t) gaps ts → Forall tok_ok ts →
  let c := at_ (layout gaps ts ++ tail ++ [0]) 0 in
  match t with TWord _ => ¬ word_char c | TSym x => x = 62 → c ≠ 62 | TApp => True end.
Proof.
  assert (∀ c, c ∈ whitespace → ¬ word_char c ∧ c ≠ 62) as Hsp.
  { intros c Hc. split; [|intros ->; pose proof (is_space_iff 62) as E; rewrite bool_decide_true in E by done; by vm_compute in E]. intros (_ & Hn & _).
    by rewrite is_space_iff, bool_decide_true in Hn. }
  assert (∀ c, c ∈ symbols → ¬ word_char c) as Hsy.
  { intros c Hc (_ & _ & Hn). apply symbols_iff in Hc. congruence. }
  intros Hsd Hok c.
  destruct gaps as [|[|x g] gaps], ts as [|t' ts]; simpl in Hsd; try done; unfold c; clear c.
  - destruct tail as [|x tail']; simpl; [destruct t; [done|done|by intros []]|].
    apply Forall_cons in Htail as [Hx _]. destruct (Hsp x Hx) as [? ?]. by destruct t.
  - destruct Hsd as (_ & Hcl & _). specialize (Hcl eq_refl t eq_refl). apply Forall_cons in Hok as [Hok' _].
    destruct t' as [x| |[|x w]]; simpl in *.
    + destruct t; [naive_solver|done|]. by apply Hsy.
    + destruct t; [naive_solver|done|]. change (¬ word_char 62). apply Hsy. by_decide.
    + by destruct Hok'.
    + destruct Hok' as [_ [Hx _]%Forall_cons]. destruct t; [|done|done]. intros _ E. simpl in E. unfold at_ in E. simpl in E. subst x. revert Hx. apply Hsy. by_decide.
  - destruct Hsd as ([Hx _]%Forall_cons & _). destruct (Hsp x Hx) as [? ?]. by destruct t.
Qed.

(** [gettoken] reads a token that the text at [q] starts with. *)
Lemma gettoken_layout t s q rest :
  skip buf es s = q → tok_ok t → (q + length (tok_text t) ≤ es)%nat →
  (∀ i, at_ buf (q + i) = at_ (tok_text t ++ rest) i) →
  match t with TWord _ => ¬ word_char (at_ rest 0) | TSym x => x = 62 → at_ rest 0 ≠ 62 | TApp => True end →
  gettoken buf es s = Ok (tok_code t, (q, q + length (tok_text t))%nat) (skip buf es (q + length (tok_text t))).
Proof.
  intros Eq Hok Hle Hat Hnext. pose proof (Hat 0%nat) as H0. pose proof (Hat 1%nat) as H1. rewrite Nat.add_0_r in H0. rewrite Nat.add_1_r in H1.
  unfold gettoken. rewrite Eq. destruct t as [x| |w]; simpl in *.
  - change (at_ buf q = x) in H0. rewrite H0, Nat.add_1_r. unfold symbols in Hok.
    repeat (apply elem_of_cons in Hok as [->|Hok]; [try done|]); [|by apply not_elem_of_nil in Hok].
    simpl. rewrite H1. change (at_ (62 :: rest) 1) with (at_ rest 0). rewrite (proj2 (Z.eqb_neq _ 62)) by auto. done.
  - change (at_ buf q = 62) in H0. change (at_ buf (S q) = 62) in H1. rewrite H0. simpl. rewrite H1. simpl.
    by replace (q + 2)%nat with (S (S q)) by lia.
  - destruct Hok as [Hne Hw]. set (e := (q + length w)%nat) in *.
    assert (∀ k, (q ≤ k < e)%nat → word_char (at_ buf k)) as Hch.
    { intros k Hk. replace k with (q + (k - q))%nat by lia. rewrite Hat. unfold at_. rewrite lookup_app_l by lia.
      destruct (lookup_lt_is_Some_2 w (k - q)) as [x Hx]; [lia|]. rewrite Hx. by eapply Forall_lookup_1 in Hw. }
    assert (q < e)%nat as Hqe by (destruct w; [done|simpl in e; lia]).
    destruct (Hch q) as (Hz & _ & Hsy); [lia|]. rewrite is_symbol_iff in Hsy. apply bool_decide_eq_false in Hsy.
    rewrite (proj2 (Z.eqb_neq _ 0)) by done. unfold symbols in Hsy.
    do 7 (apply not_elem_of_cons in Hsy as [? Hsy]). rewrite !(proj2 (Z.eqb_neq _ _)) by done. simpl.
    rewrite (skip_word_unique buf es Ht _ _ e); [done|lia|done| |lia].
    intros Hc. apply Hnext. unfold e in Hc. rewrite Hat in Hc. replace (length w) with (length w + 0)%nat in Hc by lia. by rewrite at_app in Hc.
Qed.

Lemma layout_lexes ts gaps prev pre :
  buf = pre ++ layout gaps ts ++ tail ++ [0] → es = (length buf - 1)%nat →
  spaced prev gaps ts → Forall tok_ok ts → lexes buf es (length pre) ts.
Proof.
  revert gaps prev pre. induction ts as [|t ts IH]; intros gaps prev pre Eb Ee Hsd Hok.
  - destruct gaps; [|done]. simpl in Eb. assert (es = length pre + length tail)%nat as Ee'.
    { rewrite Ee, Eb, !length_app. simpl. lia. }
    apply lexes_nil; [lia|]. apply (skip_unique buf es); [lia| |by rewrite (proj1 Ht)].
    intros k Hk. rewrite Eb. replace k with (length pre + (k - length pre))%nat by lia. rewrite at_app.
    unfold at_. rewrite lookup_app_l by lia. destruct (lookup_lt_is_Some_2 tail (k - length pre)) as [x Hx]; [lia|].
    rewrite Hx. simpl. rewrite is_space_iff, bool_decide_true; [done|]. by eapply Forall_lookup_1 in Htail.
  - destruct gaps as [|g gaps]; [done|]. simpl in Eb, Hsd. destruct Hsd as (Hg & _ & Hsd). apply Forall_cons in Hok as [Ht' Hok].
    pose proof (next_char t gaps ts Hsd Hok) as Hnext. cbv zeta in Hnext.
    rewrite <- !app_assoc in Eb. set (rest := layout gaps ts ++ tail ++ [0]) in *. set (q := (length pre + length g)%nat).
    assert (∀ i, at_ buf (q + i) = at_ (tok_text t ++ rest) i) as Hat.
    { intros i. rewrite Eb, (app_assoc pre). unfold q. rewrite <- length_app. apply at_app. }
    assert (q + length (tok_text t) ≤ es)%nat as Hle.
    { rewrite Ee, Eb. unfold rest, q. rewrite !length_app. simpl. lia. }
    assert (is_space (at_ buf q) = false) as Hns.
    { specialize (Hat 0%nat). rewrite Nat.add_0_r in Hat. rewrite Hat. destruct t as [x| |[|x w]]; simpl in *; [by apply symbol_not_space|done|by destruct Ht'|].
      by destruct Ht' as [_ [(_ & ? & _) _]%Forall_cons]. }
    assert (skip buf es (length pre) = q) as Eq.
    { apply (skip_unique buf es); [lia| |done]. intros k Hk. unfold q in Hk. replace k with (length pre + (k - length pre))%nat by lia.
      rewrite Eb, at_app. unfold at_. rewrite lookup_app_l by lia.
      destruct (lookup_lt_is_Some_2 g (k - length pre)) as [x Hx]; [lia|]. rewrite Hx. simpl.
      rewrite is_space_iff, bool_decide_true; [done|]. by eapply Forall_lookup_1 in Hg. }
    eapply (lexes_cons buf es _ t); [lia|by apply (gettoken_layout t _ q rest)| | | |].
    + destruct t as [x| |]; [|done|done]. simpl in *. intros ->. by apply symbols_iff in Ht'.
    + intros x ->. unfold wtext. simpl fst. simpl snd. change (tok_text (TWord x)) with x. rewrite (Nat.add_comm q), Nat.add_sub.
      rewrite Eb, (app_assoc pre). replace q with (length (pre ++ g)) by (by rewrite length_app). rewrite drop_app_length. apply take_app_length.
    + intros x ->. done.
    + apply lexes_skip; [done|]. replace (q + length (tok_text t))%nat with (length (pre ++ g ++ tok_text t)) by (rewrite !length_app; unfold q; lia).
      apply (IH gaps (Some t)); [|done..]. rewrite Eb. unfold rest. by rewrite <- !app_assoc.
Qed.
End layout.

Lemma nonzero_white g : white g → Forall (λ c, c ≠ 0) g.
Proof. intros Hg. eapply Forall_impl; [exact Hg|]. intros c Hc ->. revert Hc. unfold whitespace. set_solver. Qed.
Lemma nonzero_layout gaps ts prev : spaced prev gaps ts → Forall tok_ok ts → Forall (λ c, c ≠ 0) (layout gaps ts).
Proof.
  revert gaps prev. induction ts as [|t ts IH]; intros [|g gaps] prev Hs Hok; try done.
  simpl in Hs. destruct Hs as (Hg & _ & Hs). apply Forall_cons in Hok as [Ht Hok]. simpl. rewrite !Forall_app. split_and!.
  - by apply nonzero_white.
  - destruct t as [x| |w]; simpl in *; [constructor; [|done]|by repeat constructor|].
    + intros ->. by apply symbols_iff in Ht.
    + destruct Ht as [_ Hw]. eapply Forall_impl; [exact Hw|]. by intros ? [].
  - by eapply IH.
Qed.

Lemma cmd_map_ext {W W'} (f g : W → W') c : cmd_ok (λ w, f w = g w) c → cmd_map f c = cmd_map g c.
Proof.
  induction c as [argv|c IH w m fd|l IHl r IHr|l IHl r IHr|c IH]; simpl.
  - intros [_ Hl]. f_equal. by apply Forall_fmap_ext.
  - intros [Hc ->]. by rewrite IH.
  - intros [? ?]. by rewrite IHl, IHr.
  - intros [? ?]. by rewrite IHl, IHr.
  - intros ?. by rewrite IH.
Qed.

(** * Properties *)

(** C4: The parser reads a line back as what it stands for.  For every line of the grammar (lists, pipelines,
    blocks, background commands and redirections anywhere), and however it is laid out with white space,
    [parsecmd] succeeds, and the command with its strings cut out is the one the line denotes. *)
Theorem parsecmd_reads (l : sline) (gaps : list (list Z)) (tail : list Z) :
  line_ok l → Forall tok_ok (toks_line l) → spaced None gaps (toks_line l) → white tail →
  ∃ c buf', parsecmd (layout gaps (toks_line l) ++ tail ++ [0]) = Some (inl (c, buf')) ∧ cmd_strings buf' c = den_line l.
Proof.
  intros Hl Hok Hs Htail. set (buf := layout _ _ ++ tail ++ [0]). unfold parsecmd.
  assert (Hz : 0 ∈ buf) by (unfold buf; set_solver). destruct (terminated_strlen buf Hz) as [Ht Hes].
  assert (Z.to_nat (strlen buf) = (length buf - 1)%nat) as Ee.
  { rewrite strlen_cstr. unfold buf at 1. rewrite app_assoc, cstr_app_zero.
    - unfold buf. rewrite !length_app. simpl. lia.
    - apply Forall_app. split; [by eapply nonzero_layout|by apply nonzero_white]. }
  set (es := Z.to_nat (strlen buf)) in *.
  pose proof (layout_lexes buf tail es Ht Htail (toks_line l) gaps None [] eq_refl Ee Hs Hok) as Hlex.
  assert (4 * (es - 0) + 4 ≤ parse_fuel buf)%nat as Hfuel by (unfold parse_fuel; lia).
  destruct (proj1 (reads_all buf es Ht) l Hl (parse_fuel buf) 0%nat []) as (c & s1 & E & _ & Hl1 & Ec);
    [by rewrite app_nil_r|by left|done|].
  pose proof (proj1 (parse_safe buf es Ht (parse_fuel buf) 0 ltac:(lia)) Hfuel) as Hc. unfold safe in Hc. rewrite E in Hc. destruct Hc as [_ Hc].
  exists c, (nulterminate c buf). split.
  - rewrite (bind_ok _ _ _ _ _ E). inversion Hl1 as [? _ Esk|]; subst.
    rewrite (bind_ok _ _ _ _ _ (peek_eq buf es [] s1)), Esk. rewrite bind_get, Nat.eqb_refl. done.
  - rewrite <- Ec. apply cmd_map_ext. eapply cmd_ok_impl; [|by apply cmd_ok_in]. intros w [Hw Hin]. by apply (cut_string buf es).
Qed.

(** [(echo hi >>f; ls) <in | grep x &] *)
Definition demo_tree : sline :=
  LOne (PBar (XBlock (LSeq (POne (XCmd [] [([101; 99; 104; 111], []); ([104; 105], [(RApp, [102])])])) 0
                     (LOne (POne (XCmd [] [([108; 115], [])])) 0)) [(RIn, [105; 110])])
             (POne (XCmd [] [([103; 114; 101; 112], []); ([120], [])]))) 1.
Definition demo_gaps : list (list Z) := [[]; []; [32]; [32]; []; []; [32; 9]; []; []; [32]; []; [32]; [32]; []].
Lemma parsecmd_reads_witness :
  (line_ok demo_tree ∧ Forall tok_ok (toks_line demo_tree) ∧ spaced None demo_gaps (toks_line demo_tree) ∧ white [10])
  ∧ ∃ c buf', parsecmd (layout demo_gaps (toks_line demo_tree) ++ [10] ++ [0]) = Some (inl (c, buf')) ∧ cmd_strings buf' c = den_line demo_tree.
Proof.
  assert (line_ok demo_tree) as H1 by (simpl; unfold MAXARGS; lia).
  assert (Forall tok_ok (toks_line demo_tree)) as H2.
  { repeat constructor; simpl; solve [by_decide | done | split; [done|by_decide]]. }
  assert (spaced None demo_gaps (toks_line demo_tree)) as H3.
  { assert (∀ g, bool_decide (white g) = true → white g) as Hw by (intros g; apply bool_decide_eq_true).
    repeat (split; [by apply Hw|split; [intros ?; naive_solver|]]). done. }
  assert (white [10]) as H4 by by_decide.
  split; [done|]. by apply (parsecmd_reads demo_tree demo_gaps [10]).
Defined.
