(* ===== verification/Unix.v ===== *)
(** What a user program sees of the system ([user.h]): the class of the system calls, what a
    program that only reads and writes relies on, and the functions of [ulib.c] that make system calls.

    The programs are written against the class [Unix], so they run on any implementation of it.  A program
    that calls [exit] ends its run there: [Sleeping], with the state it leaves. *)
From S2P Require Export Fs Print.
From S2P Require Import Prelude.

(** * user.h *)

(** A call that fails returns -1; [read] and [pipe] store something only when they succeed, and [None] is
    their failure.  The number [read] returns is the length of what it stores. *)
Class Unix (S : Type) := {
  fork_ : M S Z;
  wait_ : M S Z;
  pipe_ : M S (option (Z * Z));
  write_ : Z → list Z → M S Z;
  read_ : Z → Z → M S (option (list Z));
  close_ : Z → M S Z;
  kill_ : Z → M S Z;
  exec_ : list Z → list (list Z) → M S Z;
  open_ : list Z → Z → M S Z;
  mknod_ : list Z → Z → Z → M S Z;
  unlink_ : list Z → M S Z;
  fstat_ : Z → M S (option stat);
  link_ : list Z → list Z → M S Z;
  mkdir_ : list Z → M S Z;
  chdir_ : list Z → M S Z;
  dup_ : Z → M S Z;
  sleep_ : Z → M S Z }.

Definition exit_ {S A} : M S A := λ s, Sleeping s.

(** * Streams *)

(** The files of a program as streams: [inp s fd] are the pieces in which what can be read from [fd] will be
    delivered, [outp s fd] is what has been written to it. *)
Class Streams (S : Type) `{Unix S} := {
  inp : S → Z → list (list Z);
  outp : S → Z → list Z;
  (** A read takes what it can of the next piece, and is at the end of the file when there is none. *)
  read_piece s fd n c cs : inp s fd = c :: cs → c ≠ [] → 0 < n →
    ∃ s', read_ fd n s = Ok (Some (take (Z.to_nat n) c)) s'
    ∧ inp s' fd = (if decide (Z.of_nat (length c) ≤ n) then cs else drop (Z.to_nat n) c :: cs)
    ∧ (∀ fd', fd' ≠ fd → inp s' fd' = inp s fd') ∧ outp s' = outp s;
  read_end s fd n : inp s fd = [] → 0 < n → ∃ s', read_ fd n s = Ok (Some []) s' ∧ inp s' = inp s ∧ outp s' = outp s;
  (** A write takes everything. *)
  write_all s fd bs : ∃ s', write_ fd bs s = Ok (Z.of_nat (length bs)) s' ∧ inp s' = inp s
    ∧ outp s' fd = outp s fd ++ bs ∧ ∀ fd', fd' ≠ fd → outp s' fd' = outp s fd' }.

Section ulib.
Context {S : Type} `{Unix S}.

(** [putc] of [printf.c], for every character of the output. *)
Fixpoint putcs (fd : Z) (cs : list Z) : M S unit :=
  match cs with [] => mret tt | c :: cs => write_ fd [c];; putcs fd cs end.
Definition printf (fd : Z) (fmt : list Z) (ap : list Ulib.arg) : M S unit :=
  match Ulib.printf fmt ap with Some cs => putcs fd cs | None => λ _, Panic "undefined" end.

(** The line without its terminator. *)
Definition gets (max : Z) : M S (list Z) :=
  iterM (Datatypes.S (Z.to_nat max)) (λ buf : list Z,
    if Z.of_nat (length buf) + 1 <? max then
      cc ← read_ 0 1;
      match cc with
      | Some [c] => if (c =? 10) || (c =? 13) then mret (inr (buf ++ [c])) else mret (inl (buf ++ [c]))
      | _ => mret (inr buf)
      end
    else mret (inr buf)) [].

(** [stat] of [ulib.c]; [None] is -1. *)
Definition stat_ (n : list Z) : M S (option stat) :=
  fd ← open_ n 0;
  if fd <? 0 then mret None else
  r ← fstat_ fd;
  close_ fd;;
  mret r.
End ulib.

(** * A machine with streams only *)

(** It has no processes and no files: the calls that need them fail. *)
Record tape := mk_tape { t_in : Z → list (list Z); t_out : Z → list Z }.

Definition set_at {A} (f : Z → A) (k : Z) (x : A) : Z → A := λ k', if k' =? k then x else f k'.
Lemma set_at_eq {A} (f : Z → A) k x : set_at f k x k = x.
Proof. unfold set_at. by rewrite Z.eqb_refl. Qed.
Lemma set_at_ne {A} (f : Z → A) k x k' : k' ≠ k → set_at f k x k' = f k'.
Proof. intros. unfold set_at. by rewrite (proj2 (Z.eqb_neq _ _)). Qed.

Definition tape_read (fd n : Z) : M tape (option (list Z)) := λ t,
  match t_in t fd with
  | c :: cs =>
      let rest := if decide (Z.of_nat (length c) ≤ n) then cs else drop (Z.to_nat n) c :: cs in
      Ok (Some (take (Z.to_nat n) c)) (mk_tape (set_at (t_in t) fd rest) (t_out t))
  | [] => Ok (Some []) t
  end.
Definition tape_write (fd : Z) (bs : list Z) : M tape Z := λ t,
  Ok (Z.of_nat (length bs)) (mk_tape (t_in t) (set_at (t_out t) fd (t_out t fd ++ bs))).

#[global] Instance tape_unix : Unix tape := {|
  fork_ := mret (-1); wait_ := mret (-1); pipe_ := mret None;
  write_ := tape_write; read_ := tape_read;
  close_ _ := mret 0; kill_ _ := mret (-1); exec_ _ _ := mret (-1); open_ _ _ := mret (-1); mknod_ _ _ _ := mret (-1);
  unlink_ _ := mret (-1); fstat_ _ := mret None; link_ _ _ := mret (-1); mkdir_ _ := mret (-1); chdir_ _ := mret (-1);
  dup_ _ := mret (-1); sleep_ _ := mret 0 |}.

#[global] Instance tape_streams : Streams tape.
Proof.
  refine {| inp := t_in; outp := t_out |}.
  - intros t fd n c cs E _ _. simpl. unfold tape_read. rewrite E. eexists. split; [done|]. simpl.
    split_and!; [by rewrite set_at_eq|intros; by rewrite set_at_ne|done].
  - intros t fd n E _. simpl. unfold tape_read. rewrite E. by exists t.
  - intros t fd bs. simpl. unfold tape_write. eexists. split; [done|]. simpl.
    split_and!; [done|by rewrite set_at_eq|intros; by rewrite set_at_ne].
Defined.

(** A program's standard input. *)
Definition typed (cs : list (list Z)) : tape := mk_tape (λ fd, if fd =? 0 then cs else []) (λ _, []).
