(* ===== verification/Grep.v ===== *)
(** [grep.c]: the regular expression matcher of Kernighan and Pike, and the loop that cuts the
    input into lines and prints those that match.

    A [char *] is the list of the characters from there on, without the terminator. *)
From S2P Require Export Unix.
From S2P Require Import Prelude.

(** * The matcher *)

(** [matchstar(c, re, text)], given [matchhere] for [re]. *)
Fixpoint matchstar (here : list Z → bool) (c : Z) (text : list Z) : bool :=
  here text || match text with
               | [] => false
               | x :: text => negb (x =? 0) && ((x =? c) || (c =? 46)) && matchstar here c text
               end.

Fixpoint matchhere (re : list Z) : list Z → bool :=
  match re with
  | [] => λ _, true
  | c :: re' => λ text,
      if c =? 0 then true else
      match re' with
      | s :: re'' =>
          if s =? 42 then matchstar (matchhere re'') c text else
          if (c =? 36) && (s =? 0) then deref text =? 0 else
          if negb (deref text =? 0) && ((c =? 46) || (c =? deref text)) then matchhere re' (tail text) else false
      | [] =>
          if c =? 36 then deref text =? 0 else
          if negb (deref text =? 0) && ((c =? 46) || (c =? deref text)) then matchhere re' (tail text) else false
      end
  end.

(** The [do] loop of [match]. *)
Fixpoint match_anywhere (re text : list Z) : bool :=
  matchhere re text || match text with [] => false | x :: text => negb (x =? 0) && match_anywhere re text end.
Definition match_ (re text : list Z) : bool :=
  if deref re =? 94 then matchhere (tail re) text else match_anywhere re text.

(** * The program *)
Section grep.
Context {S : Type} `{Unix S} (fuel : nat) (pattern : list Z).

(** The inner loop: [p] is what is left of the buffer.  The result says whether a newline was
    found, and what is left after the last one. *)
Definition lines_body : bool * list Z → M S ((bool * list Z) + (bool * list Z)) := λ '(found, p),
  match Ulib.strchr p 10 with
  | None => mret (inr (found, p))
  | Some q =>
      let line := take (length p - length q) p in
      (if match_ pattern line then write_ 1 (line ++ [10]);; mret tt else mret tt);;
      mret (inl (true, tail q))
  end.
Definition grep_lines (buf : list Z) : M S (bool * list Z) := iterM (Datatypes.S (length buf)) lines_body (false, buf).

(** A turn of the outer loop; [buf] is the beginning of a line, of [m] characters. *)
Definition grep_body (fd : Z) (buf : list Z) : M S (list Z + unit) :=
  r ← read_ fd (1024 - Z.of_nat (length buf) - 1);
  match r with
  | None | Some [] => mret (inr tt)
  | Some bs =>
      '(found, p) ← grep_lines (buf ++ bs);
      mret (inl (if (found : bool) then p else []))
  end.
Definition grep (fd : Z) : M S unit := iterM fuel (grep_body fd) [].
End grep.

Section main.
Context {S : Type} `{Unix S} (fuel : nat).

(** The loop over the files of the command line. *)
Fixpoint grep_files (pattern : list Z) (argv : list (list Z)) : M S unit :=
  match argv with
  | [] => exit_
  | arg :: argv =>
      fd ← open_ arg 0;
      if fd <? 0 then printf 1 (line "grep: cannot open %s") [Ulib.AStr (Some arg)];; exit_ else
      grep fuel pattern fd;;
      close_ fd;;
      grep_files pattern argv
  end.

Definition grep_main (argv : list (list Z)) : M S unit :=
  match tail argv with
  | [] => printf 2 (line "usage: grep pattern [file ...]") [];; exit_
  | [pattern] => grep fuel pattern 0;; exit_
  | pattern :: files => grep_files pattern files
  end.
End main.

(** * What a pattern means *)

(** A character of a pattern, and the parts a pattern is made of. *)
Inductive item := IOnce (c : Z) | IStar (c : Z) | IEnd.

Fixpoint items (re : list Z) : list item :=
  match re with
  | [] => []
  | c :: re' =>
      match re' with
      | s :: re'' => if s =? 42 then IStar c :: items re'' else IOnce c :: items re'
      | [] => if c =? 36 then [IEnd] else [IOnce c]
      end
  end.

(** [c] stands for the character [x]. *)
Definition stands_for (c x : Z) : Prop := c = 46 ∨ c = x.

(** The items read a beginning of the text, and leave the rest. *)
Inductive reads : list item → list Z → list Z → Prop :=
  | reads_nil t : reads [] t t
  | reads_once c x l t r : stands_for c x → reads l t r → reads (IOnce c :: l) (x :: t) r
  | reads_star c xs l t r : Forall (stands_for c) xs → reads l t r → reads (IStar c :: l) (xs ++ t) r
  | reads_end : reads [IEnd] [] [].

(** A pattern that starts with a caret is for the beginning of the line, any other for every
    part of it. *)
Definition matches (re text : list Z) : Prop :=
  match re with
  | 94 :: re => ∃ r, reads (items re) text r
  | _ => ∃ p t r, text = p ++ t ∧ reads (items re) t r
  end.

(** A string: no character ends it. *)
Definition nonzero (s : list Z) : Prop := Forall (λ c, c ≠ 0) s.

Lemma reads_star_inv c l t r :
  reads (IStar c :: l) t r ↔ reads l t r ∨ ∃ x t', t = x :: t' ∧ stands_for c x ∧ reads (IStar c :: l) t' r.
Proof.
  split.
  - inversion 1 as [| |? xs ? t' ? Hxs Hr|]; subst. destruct Hxs as [|x xs Hx Hxs]; [by left|]. right. simpl. eexists x, _. split; [done|]. split; [done|by constructor].
  - intros [Hr|(x & t' & -> & Hx & Hr)]; [apply (reads_star c [] l t r); [constructor|done]|].
    inversion Hr as [| |? xs ? t'' ? Hxs Hr'|]; subst. apply (reads_star c (x :: xs)); [by constructor|done].
Qed.

Lemma stands_for_iff c x : stands_for c x ↔ (x =? c) || (c =? 46) = true.
Proof. unfold stands_for. rewrite orb_true_iff, !Z.eqb_eq. naive_solver. Qed.

Lemma matchstar_spec here l c text :
  nonzero text → (∀ t, nonzero t → here t = true ↔ ∃ r, reads l t r) →
  matchstar here c text = true ↔ ∃ r, reads (IStar c :: l) text r.
Proof.
  intros Ht Hh. induction Ht as [|x text Hx Ht IH]; cbn [matchstar].
  - rewrite orb_false_r, (Hh []) by constructor. split; intros [r Hr]; exists r; [by apply reads_star_inv; left|].
    by apply reads_star_inv in Hr as [?|(? & ? & ? & _)].
  - rewrite orb_true_iff, !andb_true_iff, (Hh (x :: text)), IH by (by constructor). rewrite negb_true_iff, Z.eqb_neq, <- stands_for_iff. split.
    + intros [[r Hr]|[[_ Hs] [r Hr]]]; exists r; apply reads_star_inv; [by left|right; eauto].
    + intros [r Hr]. apply reads_star_inv in Hr as [Hr|(y & t' & [= <- <-] & Hs & Hr)]; [left; eauto|right; eauto].
Qed.

Lemma matchhere_spec re text : nonzero re → nonzero text → matchhere re text = true ↔ ∃ r, reads (items re) text r.
Proof.
  remember (length re) as n eqn:En. revert re En text. induction n as [n IH] using lt_wf_ind. intros re -> text Hre Ht.
  destruct Hre as [|c re Hc Hre]; [split; [intros _; eexists; constructor|done]|]. cbn [matchhere items].
  rewrite (proj2 (Z.eqb_neq c 0)) by done.
  assert ((if negb (deref text =? 0) && ((c =? 46) || (c =? deref text)) then matchhere re (tail text) else false) = true
    ↔ ∃ r, reads (IOnce c :: items re) text r) as Honce.
  { destruct Ht as [|x text Hx Ht]; [split; [done|intros [r Hr]; inversion Hr]|]. simpl.
    rewrite (proj2 (Z.eqb_neq x 0)) by done. simpl.
    transitivity (stands_for c x ∧ ∃ r, reads (items re) text r); [|split; [intros [? [r ?]]; exists r; by constructor|intros [r Hr]; inversion Hr; eauto]].
    rewrite <- (IH (length re) ltac:(simpl; lia) re eq_refl text Hre Ht). rewrite stands_for_iff, (Z.eqb_sym x c), orb_comm. destruct (_ || _); naive_solver. }
  destruct re as [|s re].
  - destruct (Z.eqb_spec c 36) as [->|Hd]; [|done]. split.
    + destruct text as [|x text]; [intros _; exists []; constructor|]. apply Forall_cons in Ht as [Hx _]. simpl. by rewrite (proj2 (Z.eqb_neq x 0)).
    + intros [r Hr]. by inversion Hr.
  - apply Forall_cons in Hre as [Hs Hre]. destruct (Z.eqb_spec s 42) as [->|Hs'].
    + apply matchstar_spec; [done|]. intros t Htn. by apply (IH (length re)); [simpl; lia|..].
    + rewrite (proj2 (Z.eqb_neq s 0)), andb_false_r by done. exact Honce.
Qed.

Lemma match_anywhere_spec re text : nonzero re → nonzero text → match_anywhere re text = true ↔ ∃ p t r, text = p ++ t ∧ reads (items re) t r.
Proof.
  intros Hre Ht. induction Ht as [|x text Hx Ht IH]; cbn [match_anywhere].
  - rewrite orb_false_r, matchhere_spec by (done || constructor). split.
    + intros [r Hr]. by exists [], [], r.
    + intros (p & t & r & E & Hr). symmetry in E. apply app_eq_nil in E as [-> ->]. eauto.
  - rewrite orb_true_iff, andb_true_iff, matchhere_spec, IH, negb_true_iff, Z.eqb_neq by (done || by constructor). split.
    + intros [[r Hr]|[_ (p & t & r & -> & Hr)]]; [by exists [], (x :: text), r|by exists (x :: p), t, r].
    + intros (p & t & r & E & Hr). destruct p as [|y p]; simpl in E; [subst t; left; by exists r|]. injection E as <- ->. right. split; [done|]. by exists p, t, r.
Qed.

(** * Lines *)

(** The complete lines of a text, and what comes after the last one. *)
Fixpoint lines (s : list Z) : list (list Z) * list Z :=
  match s with
  | [] => ([], [])
  | c :: s =>
      let '(ls, r) := lines s in
      if c =? 10 then ([] :: ls, r) else
      match ls with [] => ([], c :: r) | l :: ls => ((c :: l) :: ls, r) end
  end.

(** The lines that match, each with its newline. *)
Definition grepped (pattern : list Z) (ls : list (list Z)) : list Z :=
  concat ((λ l, if match_ pattern l then l ++ [10] else []) <$> ls).

Lemma lines_app a b : lines (a ++ b) = (fst (lines a) ++ fst (lines (snd (lines a) ++ b)), snd (lines (snd (lines a) ++ b))).
Proof.
  induction a as [|c a IH]; [simpl; by destruct (lines b)|].
  simpl. rewrite IH. destruct (lines a) as [la ra]. simpl.
  destruct (Z.eqb_spec c 10) as [->|Hc]; [done|]. destruct la as [|l la]; simpl; [|done].
  rewrite (proj2 (Z.eqb_neq c 10)) by done. destruct (lines (ra ++ b)) as [[|l lb] rb]; done.
Qed.
Lemma lines_none s : 10 ∉ s → lines s = ([], s).
Proof.
  induction s as [|c s IH]; [done|]. intros [Hc Hs]%not_elem_of_cons. simpl. rewrite IH by done.
  by rewrite (proj2 (Z.eqb_neq c 10)).
Qed.
Lemma lines_length s : (length (snd (lines s)) ≤ length s)%nat ∧ (fst (lines s) ≠ [] → (length (snd (lines s)) < length s)%nat).
Proof.
  induction s as [|c s [IH1 IH2]]; [done|]. simpl. destruct (lines s) as [[|l ls] r]; simpl in *.
  - destruct (c =? 10); simpl; (split; [lia|]); intros Hf; [lia|done].
  - specialize (IH2 ltac:(done)). destruct (c =? 10); simpl; split; intros; lia.
Qed.
Lemma lines_rest s : 10 ∉ snd (lines s).
Proof.
  induction s as [|c s IH]; [apply not_elem_of_nil|]. simpl. destruct (lines s) as [ls r]. simpl in IH.
  destruct (Z.eqb_spec c 10); [done|]. destruct ls; simpl; [|done]. by apply not_elem_of_cons.
Qed.
Lemma lines_nonzero s : nonzero s → nonzero (snd (lines s)).
Proof.
  induction 1 as [|c s Hc Hs IH]; [constructor|]. simpl. destruct (lines s) as [ls r]. simpl in IH.
  destruct (c =? 10); [done|]. destruct ls; simpl; [by constructor|done].
Qed.
Lemma lines_nil_iff s : fst (lines s) = [] ↔ 10 ∉ s.
Proof.
  split; [|intros Hs; by rewrite lines_none]. induction s as [|c s IH]; [intros _; apply not_elem_of_nil|]. simpl.
  destruct (lines s) as [ls r]. simpl in IH. destruct (Z.eqb_spec c 10); [done|]. destruct ls; [|done]. intros _. apply not_elem_of_cons. by auto.
Qed.

(** What [strchr] finds. *)
Lemma strchr_newline p : nonzero p →
  (Ulib.strchr p 10 = None ∧ 10 ∉ p) ∨ ∃ l t, p = l ++ 10 :: t ∧ 10 ∉ l ∧ Ulib.strchr p 10 = Some (10 :: t).
Proof.
  induction 1 as [|c p Hc Hp IH]; [left; split; [done|apply not_elem_of_nil]|]. simpl. rewrite (proj2 (Z.eqb_neq c 0)) by done.
  destruct (Z.eqb_spec c 10) as [->|Hn].
  - right. exists [], p. split_and!; [done|apply not_elem_of_nil|done].
  - destruct IH as [[E Hin]|(l & t & -> & Hl & E)]; [left; split; [done|by apply not_elem_of_cons]|].
    right. exists (c :: l), t. split_and!; [done|by apply not_elem_of_cons|done].
Qed.
Lemma lines_first l t : 10 ∉ l → lines (l ++ 10 :: t) = (l :: fst (lines t), snd (lines t)).
Proof.
  induction l as [|c l IH]; [simpl; by destruct (lines t)|]. intros [Hc Hl]%not_elem_of_cons. simpl.
  rewrite IH by done. by rewrite (proj2 (Z.eqb_neq c 10)).
Qed.

(** * The loops *)
Section loops.
Context {S : Type} `{Streams S} (pattern : list Z).

(** What the program writes to standard output; its input stays. *)
Definition wrote (s : S) (bs : list Z) (s' : S) : Prop := inp s' = inp s ∧ outp s' 1 = outp s 1 ++ bs.

Lemma grep_lines_ok n found p s :
  nonzero p → (length p < n)%nat →
  ∃ s', iterM n (lines_body pattern) (found, p) s = Ok (found || bool_decide (fst (lines p) ≠ []), snd (lines p)) s'
    ∧ wrote s (grepped pattern (fst (lines p))) s'.
Proof.
  revert found p s. induction n as [|n IH]; intros found p s Hp Hn; [lia|].
  destruct (strchr_newline p Hp) as [[E Hno]|(l & t & -> & Hl & E)].
  - exists s. rewrite lines_none by done. simpl. rewrite orb_false_r. split; [|split; [done|unfold grepped; simpl; by rewrite app_nil_r]].
    apply iterM_inr. simpl. by rewrite E.
  - rewrite lines_first by done. apply Forall_app in Hp as [_ [_ Ht]%Forall_cons]. rewrite length_app in Hn. simpl in Hn.
    assert (∃ s1, lines_body pattern (found, l ++ 10 :: t) s = Ok (inl (true, t)) s1
      ∧ wrote s (if match_ pattern l then l ++ [10] else []) s1) as (s1 & E1 & Hi1 & Ho1).
    { simpl. rewrite E. rewrite length_app. replace (length l + length (10%Z :: t) - length (10%Z :: t))%nat with (length l) by lia.
      rewrite take_app_length. destruct (match_ pattern l).
      - destruct (write_all s 1 (l ++ [10])) as (s1 & Ew & Hi & Ho & _). exists s1. rewrite bind_assoc, (bind_ok _ _ _ _ _ Ew). done.
      - exists s. split; [done|]. split; [done|]. by rewrite app_nil_r. }
    rewrite (iterM_inl _ _ _ _ _ _ E1). destruct (IH true t s1 Ht ltac:(lia)) as (s2 & E2 & Hi2 & Ho2).
    exists s2. rewrite E2. simpl. rewrite orb_true_r. split; [done|]. split; [congruence|].
    rewrite Ho2, Ho1, <- app_assoc. done.
Qed.

(** What is left of a file of which [rest] has not been read. *)
Definition file_piece (rest : list Z) : list (list Z) := match rest with [] => [] | _ => [rest] end.
(** Every line fits in the buffer, with its newline and the terminator. *)
Definition lines_fit (s : list Z) : Prop := Forall (λ l, (length l < 1023)%nat) (fst (lines s)).

Lemma read_file s fd n rest :
  inp s fd = file_piece rest → 0 < n →
  ∃ s', read_ fd n s = Ok (Some (take (Z.to_nat n) rest)) s' ∧ inp s' fd = file_piece (drop (Z.to_nat n) rest)
    ∧ (∀ fd', fd' ≠ fd → inp s' fd' = inp s fd') ∧ outp s' = outp s.
Proof.
  intros Hi Hn. destruct rest as [|c rest].
  - destruct (read_end s fd n Hi Hn) as (s' & E & Ei & Eo). exists s'. rewrite take_nil, drop_nil, Ei. by split_and!.
  - destruct (read_piece s fd n (c :: rest) [] Hi ltac:(done) Hn) as (s' & E & Ei & Ef & Eo). exists s'. split_and!; try done.
    rewrite Ei. case_decide as Hd; [by rewrite drop_ge by (simpl in *; lia)|].
    destruct (drop (Z.to_nat n) (c :: rest)) eqn:Ed; [|done]. apply (f_equal length) in Ed. rewrite length_drop in Ed. simpl in *. lia.
Qed.

Lemma grepped_app l l' : grepped pattern (l ++ l') = grepped pattern l ++ grepped pattern l'.
Proof. unfold grepped. by rewrite fmap_app, concat_app. Qed.

(** A turn of the outer loop. *)
Lemma grep_body_ok fd buf rest s :
  inp s fd = file_piece rest → (length buf < 1023)%nat → nonzero (buf ++ rest) → rest ≠ [] →
  let k := (1023 - length buf)%nat in let p := buf ++ take k rest in
  ∃ s', grep_body pattern fd buf s = Ok (inl (if decide (fst (lines p) = []) then [] else snd (lines p))) s'
    ∧ inp s' fd = file_piece (drop k rest) ∧ outp s' 1 = outp s 1 ++ grepped pattern (fst (lines p)).
Proof.
  intros Hi Hb Hz Hr k p. unfold grep_body.
  destruct (read_file s fd (1024 - Z.of_nat (length buf) - 1) rest Hi) as (s1 & E & Hi1 & _ & Ho1); [lia|].
  rewrite (bind_ok _ _ _ _ _ E). replace (Z.to_nat (1024 - Z.of_nat (length buf) - 1)) with k in * by lia.
  destruct (take k rest) as [|c bs] eqn:Et.
  { apply (f_equal length) in Et. rewrite length_take in Et. destruct rest; [done|]. simpl in Et. lia. }
  destruct (grep_lines_ok (Datatypes.S (length p)) false p s1) as (s2 & E2 & Hi2 & Ho2); [|lia|].
  { unfold p. apply Forall_app in Hz as [Hz1 Hz2]. apply Forall_app. split; [done|]. rewrite <- Et. by apply Forall_take. }
  exists s2. unfold grep_lines. fold p. rewrite (bind_ok _ _ _ _ _ E2). simpl. split_and!; [|congruence|congruence].
  unfold mret, M_ret. do 2 f_equal. case_decide as Hd; [by rewrite Hd|]. by rewrite bool_decide_true.
Qed.

Lemma grep_loop n buf rest s fd :
  inp s fd = file_piece rest → 10 ∉ buf → (length buf < 1023)%nat → nonzero (buf ++ rest) → lines_fit (buf ++ rest) →
  (length rest < n)%nat →
  ∃ s', iterM n (grep_body pattern fd) buf s = Ok tt s' ∧ outp s' 1 = outp s 1 ++ grepped pattern (fst (lines (buf ++ rest))).
Proof.
  revert buf rest s. induction n as [|n IH]; intros buf rest s Hi Hnl Hb Hz Hfit Hn; [lia|].
  destruct (decide (rest = [])) as [->|Hr].
  - destruct (read_file s fd (1024 - Z.of_nat (length buf) - 1) [] Hi) as (s1 & E & _ & _ & Ho1); [lia|]. rewrite take_nil in E.
    exists s1. rewrite app_nil_r, lines_none by done. unfold grepped. simpl. rewrite app_nil_r, Ho1. split; [|done].
    apply iterM_inr. unfold grep_body. by rewrite (bind_ok _ _ _ _ _ E).
  - destruct (grep_body_ok fd buf rest s Hi Hb Hz Hr) as (s1 & E & Hi1 & Ho1). cbv zeta in *.
    set (k := (1023 - length buf)%nat) in *. set (p := buf ++ take k rest) in *.
    assert (buf ++ rest = p ++ drop k rest) as Es by (unfold p; by rewrite <- app_assoc, take_drop).
    assert (length (drop k rest) < n)%nat as Hn' by (rewrite length_drop; destruct rest; [done|simpl in *; lia]).
    assert (length p ≤ 1023)%nat as Hp by (unfold p; rewrite length_app, length_take; lia).
    pose proof (lines_app p (drop k rest)) as El. rewrite <- Es in El. rewrite El. simpl.
    assert (nonzero (snd (lines p) ++ drop k rest)) as Hz'.
    { rewrite Es in Hz. apply Forall_app in Hz as [Hz1 Hz2]. apply Forall_app. split; [by apply lines_nonzero|done]. }
    unfold lines_fit in Hfit. rewrite El in Hfit. simpl in Hfit. apply Forall_app in Hfit as [_ Hfit].
    rewrite (iterM_inl _ _ _ _ _ _ E). rewrite grepped_app, app_assoc, <- Ho1. case_decide as Hd.
    + (* no newline: the line does not fit, or there is nothing more to read *)
      pose proof Hd as Hno. apply lines_nil_iff in Hno. rewrite (lines_none p Hno) in *. simpl in *.
      assert (fst (lines (p ++ drop k rest)) = [] ∧ fst (lines (drop k rest)) = []) as [Ea Eb].
      { destruct (decide (10 ∈ drop k rest)) as [Hin|Hnin].
        - exfalso. destruct (list_elem_of_split_l _ _ Hin) as (l & t & Ek & Hl). rewrite Ek in Hfit.
          rewrite app_assoc, lines_first in Hfit by (rewrite elem_of_app; naive_solver).
          apply Forall_cons in Hfit as [Hfit _]. rewrite length_app in Hfit.
          assert (length p = 1023)%nat; [|lia]. unfold p. rewrite length_app, length_take.
          assert (k < length rest)%nat; [|lia]. destruct (decide (k < length rest)%nat); [done|]. rewrite drop_ge in Ek by lia. by destruct l.
        - split; [apply lines_nil_iff; rewrite elem_of_app; naive_solver|by apply lines_nil_iff]. }
      destruct (IH [] (drop k rest) s1 Hi1) as (s2 & E2 & Ho2); [apply not_elem_of_nil|simpl; lia| | |done|].
      { simpl. by apply Forall_app in Hz' as [_ ?]. }
      { simpl. unfold lines_fit. by rewrite Eb. }
      exists s2. split; [done|]. rewrite Ho2. simpl. by rewrite Ea, Eb.
    + destruct (IH (snd (lines p)) (drop k rest) s1 Hi1) as (s2 & E2 & Ho2); [apply lines_rest| |done|done|done|].
      { pose proof (proj2 (lines_length p) Hd). lia. }
      exists s2. by split.
Qed.
End loops.

(** * Properties *)

(** C23: The matcher decides the meaning of patterns: [match] accepts a line just if some part of it (its
    beginning, after a caret) is read by the pattern, where a character stands for itself, a dot for any, a
    star for any number and a final dollar for the end of the line. *)
Theorem match_correct (re text : list Z) : nonzero re → nonzero text → match_ re text = true ↔ matches re text.
Proof.
  intros Hre Ht. unfold match_. destruct Hre as [|c re Hc Hre]; [simpl; apply (match_anywhere_spec []); [constructor|done]|]. simpl.
  destruct (Z.eqb_spec c 94) as [->|Hn]; [by apply matchhere_spec|].
  transitivity (∃ p t r, text = p ++ t ∧ reads (items (c :: re)) t r); [apply match_anywhere_spec; [by constructor|done]|].
  unfold matches. destruct c as [|c|c]; try done. do 7 (destruct c as [c|c|]; try done).
Qed.

(** "a.*b$" and "xaab" *)
Lemma match_correct_witness :
  (nonzero [97; 46; 42; 98; 36] ∧ nonzero [120; 97; 97; 98]) ∧ (match_ [97; 46; 42; 98; 36] [120; 97; 97; 98] = true ↔ matches [97; 46; 42; 98; 36] [120; 97; 97; 98]).
Proof.
  assert (nonzero [97; 46; 42; 98; 36]) as H1 by (unfold nonzero; by_decide).
  assert (nonzero [120; 97; 97; 98]) as H2 by (unfold nonzero; by_decide).
  split; [done|]. by apply match_correct.
Defined.

(** C24: [grep] prints just the lines of a file that match, in order, for any file without null
    characters whose lines fit in its buffer, and wherever the buffer's ends cut the lines; it ends. *)
Theorem grep_correct {S : Type} `{Streams S} (pattern content : list Z) (fd : Z) (fuel : nat) (s : S) :
  inp s fd = file_piece content → nonzero content → lines_fit content → (length content < fuel)%nat →
  ∃ s', grep fuel pattern fd s = Ok tt s' ∧ outp s' 1 = outp s 1 ++ grepped pattern (fst (lines content)).
Proof.
  intros Hi Hz Hfit Hn. unfold grep. apply (grep_loop pattern fuel [] content s fd); try done; [apply not_elem_of_nil|simpl; lia].
Qed.

Definition demo_text : list Z := line "the cat" ++ line "a dog" ++ line "cats".
Lemma grep_correct_witness :
  (inp (typed [demo_text]) 0 = file_piece demo_text ∧ nonzero demo_text ∧ lines_fit demo_text)
  ∧ ∃ s', grep 20 (str "cat") 0 (typed [demo_text]) = Ok tt s'
      ∧ outp s' 1 = outp (typed [demo_text]) 1 ++ grepped (str "cat") (fst (lines demo_text)).
Proof.
  assert (nonzero demo_text) as H2 by (unfold nonzero; by_decide).
  assert (lines_fit demo_text) as H3 by (apply (bool_decide_eq_true_1 (Forall _ _)); by vm_compute).
  split; [by split_and!|]. apply grep_correct; [done|exact H2|exact H3|]. apply Nat.ltb_lt. by vm_compute.
Defined.

(** A line that arrives in two pieces without a newline in the first is lost: the loop forgets what it has
    read ([m = 0]) when the buffer holds no newline. *)
Theorem grep_split_line :
  (∃ s', grep 5 (str "abc") 0 (typed [line "abc"]) = Ok tt s' ∧ outp s' 1 = line "abc")
  ∧ ∃ s', grep 5 (str "abc") 0 (typed [str "ab"; line "c"]) = Ok tt s' ∧ outp s' 1 = [].
Proof.
  split; eexists; (split; [vm_compute; reflexivity|by vm_compute]).
Qed.
