(* ===== verification/Progs.v ===== *)
(** The small user programs: [cat.c], [wc.c], [echo.c], [ln.c], [rm.c], [mkdir.c], [kill.c],
    [zombie.c], [init.c], [stressfs.c], [forktest.c], [ls.c], [pipetest.c] and [cp.c].

    [argv] is the argument vector, with the name of the program first.  Loops that only the system can
    end have a bound, [fuel]. *)
From S2P Require Export Unix.
From S2P Require Import Prelude Sysfile.

Section progs.
Context {S : Type} `{Unix S} (fuel : nat).

Definition undefined {A} : M S A := λ _, Panic "undefined".

(** * cat.c *)
Definition cat_body (fd : Z) (_ : unit) : M S (unit + unit) :=
  r ← read_ fd 512;
  match r with
  | None => printf 1 (line "cat: read error") [];; exit_
  | Some [] => mret (inr tt)
  | Some buf =>
      w ← write_ 1 buf;
      if negb (w =? Z.of_nat (length buf)) then printf 1 (line "cat: write error") [];; exit_
      else mret (inl tt)
  end.
Definition cat (fd : Z) : M S unit := iterM fuel (cat_body fd) tt.

(** The loop of [main] over the files of the command line, for [cat] and [wc]. *)
Fixpoint each_file (msg : list Z) (run : Z → list Z → M S unit) (files : list (list Z)) : M S unit :=
  match files with
  | [] => exit_
  | arg :: files =>
      fd ← open_ arg 0;
      if fd <? 0 then printf 1 msg [Ulib.AStr (Some arg)];; exit_ else
      run fd arg;;
      close_ fd;;
      each_file msg run files
  end.

Definition cat_main (argv : list (list Z)) : M S unit :=
  match tail argv with
  | [] => cat 0;; exit_
  | files => each_file (line "cat: cannot open %s") (λ fd _, cat fd) files
  end.

(** * wc.c *)
Record counts := mk_counts { c_l : Z; c_w : Z; c_c : Z; c_inword : bool }.

(** The body of the loop over the buffer. *)
Definition wc_char (t : counts) (c : Z) : counts :=
  let t := mk_counts (if c =? 10 then c_l t + 1 else c_l t) (c_w t) (c_c t + 1) (c_inword t) in
  match Ulib.strchr [32; 13; 9; 10; 11] c with
  | Some _ => mk_counts (c_l t) (c_w t) (c_c t) false
  | None => if c_inword t then t else mk_counts (c_l t) (c_w t + 1) (c_c t) true
  end.
Definition wc_body (fd : Z) (t : counts) : M S (counts + counts) :=
  r ← read_ fd 512;
  match r with
  | None => printf 1 (line "wc: read error") [];; exit_
  | Some [] => mret (inr t)
  | Some buf => mret (inl (foldl wc_char t buf))
  end.
Definition wc (fd : Z) (name : list Z) : M S unit :=
  t ← iterM fuel (wc_body fd) (mk_counts 0 0 0 false);
  printf 1 (line "%d %d %d %s") [Ulib.AWord (c_l t); Ulib.AWord (c_w t); Ulib.AWord (c_c t); Ulib.AStr (Some name)].

Definition wc_main (argv : list (list Z)) : M S unit :=
  match tail argv with
  | [] => wc 0 [];; exit_
  | files => each_file (line "wc: cannot open %s") wc files
  end.

(** * echo.c, ln.c, rm.c, mkdir.c, kill.c, cp.c *)
Fixpoint echo_args (argv : list (list Z)) : M S unit :=
  match argv with
  | [] => exit_
  | arg :: argv =>
      printf 1 (str "%s%s") [Ulib.AStr (Some arg); Ulib.AStr (Some (match argv with [] => [10] | _ => [32] end))];;
      echo_args argv
  end.
Definition echo_main (argv : list (list Z)) : M S unit := echo_args (tail argv).

Definition ln_main (argv : list (list Z)) : M S unit :=
  match argv with
  | [_; old; new] =>
      r ← link_ old new;
      (if r <? 0 then printf 2 (line "link %s %s: failed") [Ulib.AStr (Some old); Ulib.AStr (Some new)] else mret tt);;
      exit_
  | _ => printf 2 (line "Usage: ln old new") [];; exit_
  end.

(** The loop of [rm] and [mkdir], which stops at the first failure. *)
Fixpoint each_name (op : list Z → M S Z) (msg : list Z) (names : list (list Z)) : M S unit :=
  match names with
  | [] => exit_
  | arg :: names =>
      r ← op arg;
      if r <? 0 then printf 2 msg [Ulib.AStr (Some arg)];; exit_ else each_name op msg names
  end.
Definition rm_main (argv : list (list Z)) : M S unit :=
  if (length argv <? 2)%nat then printf 2 (line "Usage: rm files...") [];; exit_
  else each_name unlink_ (line "rm: %s failed to delete") (tail argv).
Definition mkdir_main (argv : list (list Z)) : M S unit :=
  if (length argv <? 2)%nat then printf 2 (line "Usage: mkdir files...") [];; exit_
  else each_name mkdir_ (line "mkdir: %s failed to create") (tail argv).

Fixpoint kill_args (argv : list (list Z)) : M S unit :=
  match argv with
  | [] => exit_
  | arg :: argv => kill_ (Ulib.atoi arg);; kill_args argv
  end.
Definition kill_main (argv : list (list Z)) : M S unit :=
  if (length argv <? 2)%nat then printf 2 (line "usage: kill pid...") [];; exit_ else kill_args (tail argv).

(** An exercise that has not been done: it only looks at the number of arguments. *)
Definition cp_main (argv : list (list Z)) : M S unit :=
  (if negb (length argv =? 3)%nat then printf 1 (line "usage: cp src_file dest_file") [];; exit_ else mret tt);;
  exit_.

(** * zombie.c, init.c *)
Definition zombie_main : M S unit :=
  pid ← fork_;
  (if 0 <? pid then sleep_ 5;; mret tt else mret tt);;
  exit_.

(** [while((wpid=wait()) >= 0 && wpid != pid)] *)
Definition await (pid : Z) : M S unit :=
  iterM fuel (λ _ : unit,
    wpid ← wait_;
    if (0 <=? wpid) && negb (wpid =? pid) then printf 1 (line "zombie!") [];; mret (inl tt) else mret (inr tt)) tt.

Definition init_body (_ : unit) : M S (unit + unit) :=
  printf 1 (line "init: starting sh") [];;
  pid ← fork_;
  if pid <? 0 then printf 1 (line "init: fork failed") [];; exit_ else
  if pid =? 0 then
    exec_ (str "sh") [str "sh"];;
    printf 1 (line "init: exec sh failed") [];;
    exit_
  else
    await pid;;
    mret (inl tt).

Definition init_main : M S unit :=
  fd ← open_ (str "console") O_RDWR;
  (if fd <? 0 then mknod_ (str "console") 1 1;; open_ (str "console") O_RDWR;; mret tt else mret tt);;
  dup_ 0;;
  dup_ 0;;
  iterM fuel init_body tt.

(** * stressfs.c *)
(** [for(i = 0; i < 4; i++) if(fork() > 0) break;] *)
Definition stressfs_forks : M S Z :=
  iterM 5 (λ i : Z,
    if i <? 4 then pid ← fork_; if 0 <? pid then mret (inr i) else mret (inl (i + 1))
    else mret (inr i)) 0.
Definition stressfs_main : M S unit :=
  printf 1 (line "stressfs starting") [];;
  let data := replicate 512 97 in
  i ← stressfs_forks;
  printf 1 (line "write %d") [Ulib.AWord i];;
  let path := str "stressfs" ++ [u8 (48 + i)] in
  fd ← open_ path (Z.lor O_CREATE O_RDWR);
  for_range 0 20 (λ _, write_ fd data;; mret tt);;
  close_ fd;;
  printf 1 (line "read") [];;
  fd ← open_ path O_RDONLY;
  for_range 0 20 (λ _, read_ fd 512;; mret tt);;
  close_ fd;;
  wait_;;
  exit_.

(** * forktest.c *)
(** Its own [printf]. *)
Definition ft_printf (fd : Z) (s : list Z) : M S unit := write_ fd s;; mret tt.
Definition FORKS : Z := 1000.

Definition forktest : M S unit :=
  ft_printf 1 (line "fork test");;
  n ← iterM (Datatypes.S (Z.to_nat FORKS)) (λ n,
    if n <? FORKS then
      pid ← fork_;
      if pid <? 0 then mret (inr n) else
      if pid =? 0 then exit_ else mret (inl (n + 1))
    else mret (inr n)) 0;
  if n =? FORKS then ft_printf 1 (line "fork claimed to work N times!");; exit_ else
  iterM (Datatypes.S (Z.to_nat n)) (λ n,
    if 0 <? n then
      r ← wait_;
      if r <? 0 then ft_printf 1 (line "wait stopped early");; exit_ else mret (inl (n - 1))
    else mret (inr tt)) n;;
  r ← wait_;
  if negb (r =? -1) then ft_printf 1 (line "wait got too many");; exit_ else
  ft_printf 1 (line "fork test OK").
Definition forktest_main : M S unit := forktest;; exit_.

(** * ls.c *)

(** The part of the path after its last slash, padded with blanks. *)
Fixpoint after_slash (path name : list Z) : list Z :=
  match path with [] => name | c :: path => after_slash path (if c =? 47 then path else name) end.
Definition fmtname (path : list Z) : list Z :=
  let p := after_slash path path in
  if (DIRSIZ <=? length p)%nat then p else p ++ replicate (DIRSIZ - length p) 32.

Definition print_stat (path : list Z) (st : stat) : M S unit :=
  printf 1 (line "%s %d %d %d") [Ulib.AStr (Some (fmtname path)); Ulib.AWord (st_type st); Ulib.AWord (st_ino st); Ulib.AWord (st_size st)].

(** A turn of the loop over the entries of the directory [path]. *)
Definition ls_entry (path : list Z) (fd : Z) (_ : unit) : M S (unit + unit) :=
  r ← read_ fd DIRENT_SIZE;
  match r with
  | Some de =>
      if negb (Z.of_nat (length de) =? DIRENT_SIZE) then mret (inr tt) else
      if de_inum de =? 0 then mret (inl tt) else
      let buf := path ++ [47] ++ cstr (take DIRSIZ (de_name de)) in
      o ← stat_ buf;
      match o with
      | None => printf 1 (line "ls: cannot stat %s") [Ulib.AStr (Some buf)];; mret (inl tt)
      | Some st => print_stat buf st;; mret (inl tt)
      end
  | None => mret (inr tt)
  end.

Definition ls (path : list Z) : M S unit :=
  fd ← open_ path 0;
  if fd <? 0 then printf 2 (line "ls: cannot open %s") [Ulib.AStr (Some path)] else
  o ← fstat_ fd;
  match o with
  | None =>
      printf 2 (line "ls: cannot stat %s") [Ulib.AStr (Some path)];;
      close_ fd;;
      mret tt
  | Some st =>
      (if st_type st =? T_FILE then print_stat path st
       else if st_type st =? T_DIR then
         if (512 <? length path + 1 + DIRSIZ + 1)%nat then printf 1 (line "ls: path too long") []
         else iterM fuel (ls_entry path fd) tt
       else mret tt);;
      close_ fd;;
      mret tt
  end.

Fixpoint ls_args (argv : list (list Z)) : M S unit :=
  match argv with [] => exit_ | arg :: argv => ls arg;; ls_args argv end.
Definition ls_main (argv : list (list Z)) : M S unit :=
  match tail argv with [] => ls (str ".");; exit_ | args => ls_args args end.

(** * pipetest.c *)
(** When [pipe] fails the descriptors are not initialised. *)
Definition pipetest_main : M S unit :=
  o ← pipe_;
  match o with
  | None => undefined
  | Some (p0, p1) =>
      pid ← fork_;
      (if pid =? 0 then
         close_ 0;;
         dup_ p0;;
         close_ p0;;
         close_ p1;;
         exec_ (str "wc") [str "wc"];; mret tt
       else
         write_ p1 (line "hello world");;
         close_ p0;;
         close_ p1;;
         wait_;; mret tt);;
      exit_
  end.
End progs.

(** * Reading to the end *)

(** A loop that handles its input piece by piece, where handling a text in two parts is handling the
    whole of it: [f] is what it computes and [g] what it writes. *)
Section drain.
Context {S X R : Type} `{Streams S} (body : X → M S (X + R)) (fd : Z) (r : X → R).
Context (f : X → list Z → X) (g : list Z → list Z).

Definition piecewise : Prop :=
  (∀ x a b, f x (a ++ b) = f (f x a) b) ∧ (∀ x, f x [] = x) ∧ (∀ a b, g (a ++ b) = g a ++ g b) ∧ g [] = [].
Definition drains : Prop :=
  (∀ x s bs s1, read_ fd 512 s = Ok (Some bs) s1 → bs ≠ [] → ∃ s2, body x s = Ok (inl (f x bs)) s2 ∧ inp s2 = inp s1 ∧ outp s2 1 = outp s1 1 ++ g bs)
  ∧ (∀ x s s1, read_ fd 512 s = Ok (Some []) s1 → body x s = Ok (inr (r x)) s1).

Lemma drain_ok n x s :
  piecewise → drains → Forall (λ c, c ≠ []) (inp s fd) → (length (concat (inp s fd)) < n)%nat →
  ∃ s', iterM n body x s = Ok (r (f x (concat (inp s fd)))) s' ∧ outp s' 1 = outp s 1 ++ g (concat (inp s fd)).
Proof.
  intros Hpw [Hone Hend]. pose proof Hpw as (Hf & Hf0 & Hg & Hg0). revert x s. induction n as [|n IH]; intros x s Hne Hn; [lia|].
  destruct (inp s fd) as [|c cs] eqn:Ei.
  - destruct (read_end s fd 512 Ei) as (s1 & E & _ & Ho); [lia|]. exists s1. simpl. rewrite Hf0, Hg0, app_nil_r, Ho.
    split; [|done]. apply iterM_inr. by apply Hend.
  - pose proof Hne as [Hc Hcs]%Forall_cons. destruct (read_piece s fd 512 c cs Ei Hc) as (s1 & E & Ei1 & _ & Ho1); [lia|].
    change (Z.to_nat 512) with 512%nat in *.
    assert (take 512 c ≠ []) as Ht by (by destruct c). destruct (Hone x s _ s1 E Ht) as (s2 & Eb & Ei2 & Ho2).
    assert (Forall (λ c, c ≠ []) (inp s2 fd) ∧ concat (c :: cs) = take 512 c ++ concat (inp s2 fd)) as [Hne2 Ec].
    { rewrite Ei2, Ei1. case_decide as Hd.
      - rewrite take_ge by lia. done.
      - split; [constructor; [|done]|simpl; by rewrite app_assoc, take_drop].
        intros Ed. apply (f_equal length) in Ed. rewrite length_drop in Ed. simpl in Ed. lia. }
    destruct (IH (f x (take 512 c)) s2 Hne2) as (s3 & E3 & Ho3).
    { rewrite Ec, length_app in Hn. assert (length (take 512 c) ≠ 0)%nat; [|lia]. destruct c; [done|]. simpl. lia. }
    exists s3. rewrite (iterM_inl _ _ _ _ _ _ Eb), E3, Ec, Hf, Hg, Ho3, Ho2, Ho1. by rewrite app_assoc.
Qed.
End drain.

(** * What wc counts *)

Definition is_blank (c : Z) : bool := bool_decide (c ∈ [32; 13; 9; 10; 11]).
(** The beginning of the text up to its first blank, and the words after it. *)
Fixpoint cut_words (s : list Z) : list Z * list (list Z) :=
  match s with
  | [] => ([], [])
  | c :: s => let '(w, ws) := cut_words s in if is_blank c then ([], match w with [] => ws | _ => w :: ws end) else (c :: w, ws)
  end.
Definition words (s : list Z) : list (list Z) := let '(w, ws) := cut_words s in match w with [] => ws | _ => w :: ws end.
Definition count (c : Z) (s : list Z) : Z := Z.of_nat (length (filter (λ x, x = c) s)).

Lemma wc_char_blank c : Ulib.strchr [32; 13; 9; 10; 11] c = None ↔ is_blank c = false.
Proof.
  unfold is_blank. rewrite bool_decide_eq_false, !not_elem_of_cons. cbn [Ulib.strchr].
  change (32 =? 0) with false. change (13 =? 0) with false. change (9 =? 0) with false. change (10 =? 0) with false. change (11 =? 0) with false. cbv iota.
  destruct (Z.eqb_spec 32 c) as [<-|?]; [split; [done|naive_solver]|].
  destruct (Z.eqb_spec 13 c) as [<-|?]; [split; [done|naive_solver]|].
  destruct (Z.eqb_spec 9 c) as [<-|?]; [split; [done|naive_solver]|].
  destruct (Z.eqb_spec 10 c) as [<-|?]; [split; [done|naive_solver]|].
  destruct (Z.eqb_spec 11 c) as [<-|?]; [split; [done|naive_solver]|].
  split; [intros _; repeat (split; [by apply not_eq_sym|]); apply not_elem_of_nil|done].
Qed.

Lemma wc_text s t :
  let t' := foldl wc_char t s in
  c_l t' = c_l t + count 10 s ∧ c_c t' = c_c t + Z.of_nat (length s)
  ∧ c_w t' = c_w t + Z.of_nat (length (snd (cut_words s))) + (if negb (c_inword t) then match fst (cut_words s) with [] => 0 | _ => 1 end else 0).
Proof.
  revert t. induction s as [|c s IH]; intros t; simpl.
  { unfold count. simpl. destruct (c_inword t); simpl; lia. }
  destruct (IH (wc_char t c)) as (El & Ec & Ew). rewrite El, Ec, Ew. clear IH El Ec Ew.
  assert (c_l (wc_char t c) = c_l t + (if c =? 10 then 1 else 0) ∧ c_c (wc_char t c) = c_c t + 1
    ∧ c_inword (wc_char t c) = negb (is_blank c) ∧ c_w (wc_char t c) = c_w t + (if is_blank c || c_inword t then 0 else 1)) as (-> & -> & -> & ->).
  { unfold wc_char. destruct (Ulib.strchr _ c) eqn:E.
    - assert (is_blank c = true) as -> by (destruct (is_blank c) eqn:Eb; [done|]; apply wc_char_blank in Eb; congruence).
      simpl. case_match; simpl; lia || (split_and!; lia || done).
    - apply wc_char_blank in E as ->. destruct t as [l w n []]; simpl; (case_match; simpl; split_and!; lia || done). }
  unfold count. rewrite filter_cons. destruct (cut_words s) as [w ws]. simpl.
  destruct (Z.eqb_spec c 10) as [->|Hc]; [rewrite decide_True by done|rewrite decide_False by done];
    destruct (is_blank _), (c_inword t), w; simpl; split_and!; lia.
Qed.
Lemma count_words s : Z.of_nat (length (words s)) = Z.of_nat (length (snd (cut_words s))) + match fst (cut_words s) with [] => 0 | _ => 1 end.
Proof. unfold words. destruct (cut_words s) as [[|c w] ws]; simpl; lia. Qed.
Lemma count_bound c s : 0 ≤ count c s ≤ Z.of_nat (length s).
Proof. unfold count. pose proof (length_filter (λ x, x = c) s). lia. Qed.
Lemma words_bound s : (length (words s) ≤ length s)%nat.
Proof.
  unfold words. assert (let '(w, ws) := cut_words s in (length w + length ws ≤ length s)%nat) as Hl.
  { induction s as [|c s IH]; [simpl; lia|]. simpl. destruct (cut_words s) as [w ws]. destruct (is_blank c), w; simpl in *; lia. }
  destruct (cut_words s) as [[|c w] ws]; simpl in *; lia.
Qed.

Lemma putcs_ok {S : Type} `{Streams S} fd cs s : ∃ s', putcs fd cs s = Ok tt s' ∧ inp s' = inp s ∧ outp s' fd = outp s fd ++ cs.
Proof.
  revert s. induction cs as [|c cs IH]; intros s; [exists s; by rewrite app_nil_r|]. simpl.
  destruct (write_all s fd [c]) as (s1 & E & Hi & Ho & _). destruct (IH s1) as (s2 & E2 & Hi2 & Ho2).
  exists s2. rewrite (bind_ok _ _ _ _ _ E). split; [done|]. split; [congruence|]. by rewrite Ho2, Ho, <- app_assoc.
Qed.

(** * Properties *)

(** [cat] copies its input to standard output, all of it and in order, however it is delivered; it ends
    at the end of the file. *)
Theorem cat_correct {S : Type} `{Streams S} (fd : Z) (fuel : nat) (s : S) :
  Forall (λ c, c ≠ []) (inp s fd) → (length (concat (inp s fd)) < fuel)%nat →
  ∃ s', cat fuel fd s = Ok tt s' ∧ outp s' 1 = outp s 1 ++ concat (inp s fd).
Proof.
  intros Hne Hn. apply (drain_ok (cat_body fd) fd (λ _, tt) (λ x _, x) (λ bs, bs)); [done| |done|done]. split.
  - intros [] s0 bs s1 E Hbs. destruct (write_all s1 1 bs) as (s2 & Ew & Hi & Ho & _). exists s2. split; [|done].
    unfold cat_body. rewrite (bind_ok _ _ _ _ _ E). destruct bs; [done|]. rewrite (bind_ok _ _ _ _ _ Ew). by rewrite Z.eqb_refl.
  - intros [] s0 s1 E. unfold cat_body. by rewrite (bind_ok _ _ _ _ _ E).
Qed.
Lemma cat_correct_witness :
  Forall (λ c, c ≠ []) (inp (typed [str "ab"; str "c"]) 0)
  ∧ ∃ s', cat 9 0 (typed [str "ab"; str "c"]) = Ok tt s' ∧ outp s' 1 = outp (typed [str "ab"; str "c"]) 1 ++ concat (inp (typed [str "ab"; str "c"]) 0).
Proof.
  assert (Forall (λ c, c ≠ []) (inp (typed [str "ab"; str "c"]) 0)) as Hne by (repeat constructor; done).
  split; [done|]. apply cat_correct; [done|]. simpl. lia.
Defined.

(** [wc] prints the numbers of newlines, of words (the longest parts of the text without blanks) and
    of characters of its input, and these do not depend on the pieces in which it is read. *)
Theorem wc_correct {S : Type} `{Streams S} (fd : Z) (name : list Z) (fuel : nat) (s : S) :
  let text := concat (inp s fd) in
  Forall (λ c, c ≠ []) (inp s fd) → (length text < fuel)%nat → Z.of_nat (length text) < 2147483648 →
  ∃ s', wc fuel fd name s = Ok tt s' ∧ outp s' 1 = outp s 1 ++ Ulib.printint (count 10 text) 10 true ++ [32]
    ++ Ulib.printint (Z.of_nat (length (words text))) 10 true ++ [32] ++ Ulib.printint (Z.of_nat (length text)) 10 true ++ [32] ++ cstr name ++ [10].
Proof.
  intros text Hne Hn Hmax.
  destruct (drain_ok (wc_body fd) fd (λ t, t) (foldl wc_char) (λ _, []) fuel (mk_counts 0 0 0 false) s) as (s1 & E & Ho); [|split|done|done|].
  - split_and!; [|done|done|done]. intros. by rewrite foldl_app.
  - intros t s0 bs s1 E Hbs. exists s1. rewrite app_nil_r. split; [|done]. unfold wc_body. rewrite (bind_ok _ _ _ _ _ E). by destruct bs.
  - intros t s0 s1 E. unfold wc_body. by rewrite (bind_ok _ _ _ _ _ E).
  - rewrite app_nil_r in Ho. unfold wc. rewrite (bind_ok _ _ _ _ _ E). fold text.
    destruct (wc_text text (mk_counts 0 0 0 false)) as (El & Ec & Ew). cbv zeta in El, Ec, Ew. simpl c_l in *. simpl c_c in *. simpl c_w in *.
    assert (c_w (foldl wc_char (mk_counts 0 0 0 false) text) = Z.of_nat (length (words text))) as Ew' by (rewrite count_words, Ew; simpl; lia).
    unfold printf. rewrite El, Ec, Ew'. pose proof (count_bound 10 text). pose proof (words_bound text).
    set (l := 0 + count 10 text) in *. set (w := Z.of_nat (length (words text))) in *. set (c := 0 + Z.of_nat (length text)) in *.
    destruct (putcs_ok 1 (Ulib.printint l 10 true ++ [32] ++ Ulib.printint w 10 true ++ [32] ++ Ulib.printint c 10 true ++ [32] ++ cstr name ++ [10]) s1) as (s2 & Ep & _ & Ho2).
    exists s2. split; [|by rewrite Ho2, Ho; unfold l, c; rewrite !Z.add_0_l].
    assert (∀ x, 0 ≤ x < 2147483648 → i32 x = x) as Hi by (intros; unfold i32; rewrite Z.mod_small by lia; lia).
    change (Ulib.printf (line "%d %d %d %s") [Ulib.AWord l; Ulib.AWord w; Ulib.AWord c; Ulib.AStr (Some name)])
      with (Some (Ulib.printint (i32 l) 10 true ++ 32 :: Ulib.printint (i32 w) 10 true ++ 32 :: Ulib.printint (i32 c) 10 true ++ 32 :: cstr name ++ [10])).
    rewrite !Hi by (unfold l, w, c; lia). exact Ep.
Qed.
Lemma wc_correct_witness :
  Forall (λ c, c ≠ []) (inp (typed [line "a bc"; line "d"]) 0)
  ∧ ∃ s', wc 9 0 (str "f") (typed [line "a bc"; line "d"]) = Ok tt s' ∧ outp s' 1 = line "2 3 7 f".
Proof.
  assert (Forall (λ c, c ≠ []) (inp (typed [line "a bc"; line "d"]) 0)) as Hne by (repeat constructor; done).
  split; [done|]. destruct (wc_correct 0 (str "f") 9 (typed [line "a bc"; line "d"])) as (s' & E & Ho); [done|simpl; lia|simpl; lia|].
  exists s'. split; [exact E|]. rewrite Ho. by vm_compute.
Defined.
