(* ===== verification/Shell.v ===== *)
(** Running commands: the second half of the shell ([sh.c]): [runcmd], [fork1], [getcmd] and [main].

    [runcmd] never returns; every branch ends in [exit]. *)
From S2P Require Export Sh Unix.
From S2P Require Import Prelude Sysfile.

Section shell.
Context {S : Type} `{Unix S} (fuel : nat).

Definition sh_panic {A} (s : list Z) : M S A := printf 2 (line "%s") [Ulib.AStr (Some s)];; exit_.

Definition fork1 : M S Z :=
  pid ← fork_;
  if pid =? -1 then sh_panic (str "fork") else mret pid.

(** [if(fork1() == 0) child] *)
Definition in_child (child : M S unit) : M S unit :=
  pid ← fork1;
  if pid =? 0 then child else mret tt.

(** What the two children of a pipeline do first: [p[i]] becomes descriptor [fd]. *)
Definition plumb (fd p p0 p1 : Z) : M S unit :=
  close_ fd;;
  dup_ p;;
  close_ p0;;
  close_ p1;;
  mret tt.

Fixpoint runcmd (c : cmd (list Z)) : M S unit :=
  match c with
  | EXEC [] => exit_
  | EXEC (arg :: argv) =>
      exec_ arg (arg :: argv);;
      printf 2 (line "exec %s failed") [Ulib.AStr (Some arg)];;
      exit_
  | REDIR c file mode fd =>
      close_ fd;;
      r ← open_ file mode;
      if r <? 0 then printf 2 (line "open %s failed") [Ulib.AStr (Some file)];; exit_
      else runcmd c
  | LIST l r =>
      in_child (runcmd l);;
      wait_;;
      runcmd r
  | PIPE l r =>
      o ← pipe_;
      match o with
      | None => sh_panic (str "pipe")
      | Some (p0, p1) =>
          in_child (plumb 1 p1 p0 p1;; runcmd l);;
          in_child (plumb 0 p0 p0 p1;; runcmd r);;
          close_ p0;;
          close_ p1;;
          wait_;;
          wait_;;
          exit_
      end
  | BACK c =>
      in_child (runcmd c);;
      exit_
  end.

(** The line in a buffer of [nbuf] bytes that has been filled with zeros, or [None] at the end of the input. *)
Definition getcmd (nbuf : Z) : M S (option (list Z)) :=
  printf 2 (str "$ ") [];;
  buf ← Unix.gets nbuf;
  mret (if deref buf =? 0 then None else Some (buf ++ replicate (Z.to_nat nbuf - length buf) 0)).

(** The loop that makes sure that three descriptors are open. *)
Definition open_console : M S unit :=
  iterM fuel (λ _ : unit,
    fd ← open_ (str "console") O_RDWR;
    if 0 <=? fd then
      if 3 <=? fd then close_ fd;; mret (inr tt) else mret (inl tt)
    else mret (inr tt)) tt.

(** What the child does with the line. *)
Definition run_line (buf : list Z) : M S unit :=
  match parsecmd buf with
  | Some (inl (c, buf)) => runcmd (cmd_strings buf c)
  | Some (inr (msg, s)) => putcs 2 msg;; sh_panic (str s)
  | None => λ _, Stuck
  end.

Definition sh_body (_ : unit) : M S (unit + unit) :=
  o ← getcmd 100;
  match o with
  | None => mret (inr tt)
  | Some buf =>
      if (buf !!! 0%nat =? 99) && (buf !!! 1%nat =? 100) && (buf !!! 2%nat =? 32) then
        let buf := <[Z.to_nat (strlen buf - 1) := 0]> buf in
        r ← chdir_ (cstr (drop 3 buf));
        (if r <? 0 then printf 2 (line "cannot cd %s") [Ulib.AStr (Some (drop 3 buf))] else mret tt);;
        mret (inl tt)
      else
        in_child (run_line buf);;
        wait_;;
        mret (inl tt)
  end.

Definition sh_main : M S unit :=
  open_console;;
  iterM fuel sh_body tt;;
  exit_.
End shell.

(** * Descriptors *)

(** What the shell relies on about descriptors and children: [fdt s] says what each open descriptor of the process is, [children s] is the number of
    its children that it has not yet waited for. *)
Class Descriptors (O S : Type) `{Unix S} := {
  fdt : S → gmap Z O;
  children : S → nat;
  close_drops s fd : ∃ r s', close_ fd s = Ok r s' ∧ fdt s' = delete fd (fdt s) ∧ children s' = children s;
  (** [dup] takes the lowest descriptor that is free. *)
  dup_lowest s fd n o : fdt s !! fd = Some o → 0 ≤ n < Z.of_nat NOFILE → fdt s !! n = None → (∀ m, 0 ≤ m < n → is_Some (fdt s !! m)) →
    ∃ s', dup_ fd s = Ok n s' ∧ fdt s' = <[n := o]> (fdt s);
  wait_collects s : ∃ r s', wait_ s = Ok r s' ∧ fdt s' = fdt s ∧ children s' = pred (children s) }.

Section pipeline.
Context {O S : Type} `{Descriptors O S}.

Lemma plumb_ok fd p p0 p1 o s :
  0 ≤ fd < Z.of_nat NOFILE → (∀ m, 0 ≤ m < fd → is_Some (fdt s !! m)) → fdt s !! p = Some o → fd < p →
  (∀ m, 0 ≤ m ≤ fd → m ≠ p0 ∧ m ≠ p1) →
  ∃ s', plumb fd p p0 p1 s = Ok tt s' ∧ fdt s' = delete p1 (delete p0 (<[fd := o]> (fdt s))).
Proof.
  intros Hfd Hlow Hp Hlt Hne. unfold plumb.
  destruct (close_drops s fd) as (r1 & s1 & E1 & F1 & _). rewrite (bind_ok _ _ _ _ _ E1).
  destruct (dup_lowest s1 p fd o) as (s2 & E2 & F2).
  { rewrite F1, lookup_delete_ne by lia. done. }
  { done. }
  { by rewrite F1, lookup_delete_eq. }
  { intros m Hm. rewrite F1, lookup_delete_ne by lia. by apply Hlow. }
  rewrite (bind_ok _ _ _ _ _ E2). destruct (close_drops s2 p0) as (r3 & s3 & E3 & F3 & _). rewrite (bind_ok _ _ _ _ _ E3).
  destruct (close_drops s3 p1) as (r4 & s4 & E4 & F4 & _). rewrite (bind_ok _ _ _ _ _ E4).
  exists s4. split; [done|]. by rewrite F4, F3, F2, F1, insert_delete_eq.
Qed.

Lemma in_child_yes child s s' : fork_ s = Ok 0 s' → in_child child s = child s'.
Proof. intros E. unfold in_child, fork1. by rewrite bind_assoc, (bind_ok _ _ _ _ _ E). Qed.
Lemma in_child_no child s s' pid : fork_ s = Ok pid s' → 0 < pid → in_child child s = Ok tt s'.
Proof.
  intros E Hp. unfold in_child, fork1. rewrite bind_assoc, (bind_ok _ _ _ _ _ E).
  rewrite (proj2 (Z.eqb_neq pid (-1))) by lia. simpl. rewrite bind_mret. by rewrite (proj2 (Z.eqb_neq pid 0)) by lia.
Qed.

(** A program that does not return. *)
Definition never (m : M S unit) : Prop := ∀ s a s', m s ≠ Ok a s'.
Lemma never_bind {A} (m : M S A) k : (∀ a, never (k a)) → never (m ≫= k).
Proof. intros Hk s a s'. unfold mbind, M_bind. destruct (m s); [apply Hk|done..]. Qed.
Lemma never_exit : never exit_.
Proof. done. Qed.
Lemma never_cut m (k : unit → M S unit) s : never m → (m ≫= k) s = m s.
Proof. intros Hm. unfold mbind, M_bind. destruct (m s) as [a s'| | |] eqn:E; [by apply Hm in E|done..]. Qed.

Lemma runcmd_never c : never (runcmd c).
Proof.
  induction c as [[|arg argv]|c IH w m fd|l IHl r IHr|l IHl r IHr|c IH]; simpl.
  - apply never_exit.
  - repeat (apply never_bind; intros). apply never_exit.
  - repeat (apply never_bind; intros). case_match; [|done]. apply never_bind. intros. apply never_exit.
  - apply never_bind. intros [[p0 p1]|]; repeat (apply never_bind; intros); apply never_exit.
  - repeat (apply never_bind; intros). done.
  - repeat (apply never_bind; intros). apply never_exit.
Qed.

(** In the child, the rest of the parent's code is not run. *)
Lemma child_runs fd p p0 p1 c (k : unit → M S unit) s s1 s2 :
  fork_ s = Ok 0 s1 → plumb fd p p0 p1 s1 = Ok tt s2 → (in_child (plumb fd p p0 p1;; runcmd c) ≫= k) s = runcmd c s2.
Proof.
  intros Ef Ep. transitivity (((plumb fd p p0 p1;; runcmd c) ≫= k) s1).
  - unfold mbind at 1 3, M_bind at 1 3. by rewrite (in_child_yes _ _ _ Ef).
  - rewrite never_cut by (apply never_bind; intros; apply runcmd_never). by rewrite (bind_ok _ _ _ _ _ Ep).
Qed.

(** The standard descriptors are open. *)
Definition std_open (s : S) : Prop := is_Some (fdt s !! 0) ∧ is_Some (fdt s !! 1) ∧ is_Some (fdt s !! 2).
(** A pipe with the ends [rd] and [wr] on the free descriptors [p0] and [p1]. *)
Definition piped (s : S) (p0 p1 : Z) (rd wr : O) (s1 : S) : Prop :=
  pipe_ s = Ok (Some (p0, p1)) s1 ∧ 0 ≤ p0 ∧ 0 ≤ p1 ∧ p0 ≠ p1 ∧ fdt s !! p0 = None ∧ fdt s !! p1 = None
  ∧ fdt s1 = <[p1 := wr]> (<[p0 := rd]> (fdt s)) ∧ children s1 = children s.
(** [fork] keeps the descriptors, on both sides; the parent has a child more. *)
Definition forks (s : S) (pid : Z) (s1 : S) : Prop :=
  fork_ s = Ok pid s1 ∧ fdt s1 = fdt s ∧ (0 < pid → children s1 = Datatypes.S (children s)).

Lemma std_ne s p m : std_open s → 0 ≤ p → fdt s !! p = None → 0 ≤ m ≤ 2 → m ≠ p.
Proof.
  intros ([? O0] & [? O1] & [? O2]) Hp Hn Hm ->.
  assert (p = 0 ∨ p = 1 ∨ p = 2) as [->|[->| ->]] by lia; congruence.
Qed.

(** The descriptors of a child after it has made the end [o] of the pipe its descriptor [fd]. *)
Lemma plumb_piped fd p p0 p1 rd wr o s s1 s2 :
  std_open s → piped s p0 p1 rd wr s1 → fdt s2 = fdt s1 → 0 ≤ fd ≤ 1 → p = p0 ∧ o = rd ∨ p = p1 ∧ o = wr →
  ∃ s3, plumb fd p p0 p1 s2 = Ok tt s3 ∧ fdt s3 = <[fd := o]> (fdt s).
Proof.
  intros Hstd (_ & P0 & P1 & P01 & F0 & F1 & F & _) F2 Hfd Hp.
  assert (∀ m, 0 ≤ m ≤ 2 → m ≠ p0 ∧ m ≠ p1) as Hne by (intros m Hm; split; by eapply std_ne).
  assert (∀ m, 0 ≤ m ≤ 2 → fdt s2 !! m = fdt s !! m) as Hsame.
  { intros m Hm. destruct (Hne m Hm). by rewrite F2, F, !lookup_insert_ne by done. }
  destruct (plumb_ok fd p p0 p1 o s2) as (s3 & E3 & F3).
  - unfold NOFILE. lia.
  - intros m Hm. rewrite Hsame by lia. destruct Hstd as (? & ? & ?). assert (m = 0) as -> by lia. done.
  - rewrite F2, F. destruct Hp as [[-> ->]|[-> ->]]; [rewrite lookup_insert_ne by done|]; apply lookup_insert_eq.
  - destruct (Hne 0 ltac:(lia)), (Hne 1 ltac:(lia)), (Hne 2 ltac:(lia)), Hp as [[-> _]|[-> _]]; lia.
  - intros m Hm. apply Hne. lia.
  - exists s3. split; [done|]. rewrite F3, F2, F. destruct (Hne fd) as [Hf0 Hf1]; [lia|].
    rewrite !(delete_insert_ne _ _ fd) by done. f_equal.
    rewrite (delete_insert_ne _ p0 p1) by congruence. by rewrite !delete_insert_id by (rewrite ?delete_insert_id by done; done).
Qed.
End pipeline.

(** * Properties *)

(** C22: The shell connects a pipeline as it should.  In the child that runs the left command, standard output is
    the write end of a new pipe; in the child that runs the right command, standard input is its read end; in
    both every other descriptor is the shell's and neither end is left open besides.  The parent keeps
    neither end, and exits only when it has waited for both children: it has as many left as before. *)
Theorem pipeline_wired {O S : Type} `{Descriptors O S} (l r : cmd (list Z)) (p0 p1 : Z) (rd wr : O) (s s1 : S) :
  std_open s → piped s p0 p1 rd wr s1 →
  (∀ s2, forks s1 0 s2 → ∃ s3, runcmd (PIPE l r) s = runcmd l s3 ∧ fdt s3 = <[1 := wr]> (fdt s))
  ∧ (∀ pid s2 s3, forks s1 pid s2 → 0 < pid → forks s2 0 s3 → ∃ s4, runcmd (PIPE l r) s = runcmd r s4 ∧ fdt s4 = <[0 := rd]> (fdt s))
  ∧ (∀ pid pid' s2 s3, forks s1 pid s2 → 0 < pid → forks s2 pid' s3 → 0 < pid' →
      children s3 = (children s + 2)%nat ∧ ∃ s4, runcmd (PIPE l r) s = Sleeping s4 ∧ fdt s4 = fdt s ∧ children s4 = children s).
Proof.
  intros Hstd Hp. pose proof Hp as (E & _ & _ & P01 & F0 & F1 & F & C).
  simpl. rewrite (bind_ok _ _ _ _ _ E). split_and!.
  - intros s2 (Ef & Ff & _). destruct (plumb_piped 1 p1 p0 p1 rd wr wr s s1 s2) as (s3 & Ep & F3); [done..|lia|by right|].
    exists s3. split; [by apply (child_runs _ _ _ _ _ _ _ s2)|done].
  - intros pid s2 s3 (Ef & Ff & _) Hpid (Ef' & Ff' & _). rewrite (bind_ok _ _ _ _ _ (in_child_no _ _ _ _ Ef Hpid)).
    destruct (plumb_piped 0 p0 p0 p1 rd wr rd s s1 s3) as (s4 & Ep & F4); [done..|congruence|lia|by left|].
    exists s4. split; [by apply (child_runs _ _ _ _ _ _ _ s3)|done].
  - intros pid pid' s2 s3 (Ef & Ff & Cf) Hpid (Ef' & Ff' & Cf') Hpid'. specialize (Cf Hpid). specialize (Cf' Hpid'). split; [lia|].
    rewrite (bind_ok _ _ _ _ _ (in_child_no _ _ _ _ Ef Hpid)). rewrite (bind_ok _ _ _ _ _ (in_child_no _ _ _ _ Ef' Hpid')).
    destruct (close_drops s3 p0) as (r4 & s4 & E4 & F4 & C4). rewrite (bind_ok _ _ _ _ _ E4).
    destruct (close_drops s4 p1) as (r5 & s5 & E5 & F5 & C5). rewrite (bind_ok _ _ _ _ _ E5).
    destruct (wait_collects s5) as (r6 & s6 & E6 & F6 & C6). rewrite (bind_ok _ _ _ _ _ E6).
    destruct (wait_collects s6) as (r7 & s7 & E7 & F7 & C7). rewrite (bind_ok _ _ _ _ _ E7).
    exists s7. split; [done|]. split; [|lia]. rewrite F7, F6, F5, F4, Ff', Ff, F.
    rewrite (delete_insert_ne _ p0 p1) by done. by rewrite !delete_insert_id by (rewrite ?delete_insert_id by done; done).
Qed.

(** ** A machine with descriptors only *)

(** Descriptors are numbers here; the results of the next calls of [fork] are given. *)
Record desk := mk_desk { d_fds : gmap Z nat; d_forks : list Z; d_children : nat }.
Definition lowest_free (m : gmap Z nat) : option Z :=
  snd <$> list_find (λ k, m !! k = None) (Z.of_nat <$> seq 0 NOFILE).
Definition desk_take (o : nat) : M desk Z := λ d,
  match lowest_free (d_fds d) with
  | Some n => Ok n (mk_desk (<[n := o]> (d_fds d)) (d_forks d) (d_children d))
  | None => Ok (-1) d
  end.
#[global] Instance desk_unix : Unix desk := {|
  fork_ := λ d, let pid := hd (-1) (d_forks d) in Ok pid (mk_desk (d_fds d) (tl (d_forks d)) (if 0 <? pid then Datatypes.S (d_children d) else 0));
  wait_ := λ d, Ok 1 (mk_desk (d_fds d) (d_forks d) (pred (d_children d)));
  pipe_ := p0 ← desk_take 100; p1 ← desk_take 101; mret (Some (p0, p1));
  close_ fd := λ d, Ok 0 (mk_desk (delete fd (d_fds d)) (d_forks d) (d_children d));
  dup_ fd := λ d, match d_fds d !! fd with Some o => desk_take o d | None => Ok (-1) d end;
  write_ _ bs := mret (Z.of_nat (length bs)); read_ _ _ := mret (Some []); kill_ _ := mret (-1); exec_ _ _ := mret (-1);
  open_ _ _ := mret (-1); mknod_ _ _ _ := mret (-1); unlink_ _ := mret (-1); fstat_ _ := mret None; link_ _ _ := mret (-1);
  mkdir_ _ := mret (-1); chdir_ _ := mret (-1); sleep_ _ := mret 0 |}.

Lemma lowest_free_spec m n :
  0 ≤ n < Z.of_nat NOFILE → m !! n = None → (∀ k, 0 ≤ k < n → is_Some (m !! k)) → lowest_free m = Some n.
Proof.
  intros Hn Hfree Hlow. unfold lowest_free.
  assert (list_find (λ k, m !! k = None) (Z.of_nat <$> seq 0 NOFILE) = Some (Z.to_nat n, n)) as ->; [|done].
  apply list_find_Some. split_and!; [|done|].
  - rewrite list_lookup_fmap, lookup_seq_lt by lia. simpl. by rewrite Z2Nat.id by lia.
  - intros j y Hj Hlt. rewrite list_lookup_fmap, lookup_seq_lt in Hj by lia. injection Hj as <-.
    destruct (Hlow (Z.of_nat j)) as [x Hx]; [lia|]. simpl. congruence.
Qed.

#[global] Instance desk_descriptors : Descriptors nat desk.
Proof.
  refine {| fdt := d_fds; children := d_children |}.
  - intros d fd. by eexists _, _.
  - intros d fd n o Ho Hn Hfree Hlow. simpl. rewrite Ho. unfold desk_take. rewrite (lowest_free_spec _ n) by done. by eexists.
  - intros d. by eexists _, _.
Defined.

(** The shell forks twice; the numbers are the results in the process that is followed: the right child, and the parent. *)
Definition demo_desk (forks : list Z) : desk := mk_desk (<[0 := 10%nat]> (<[1 := 11%nat]> (<[2 := 12%nat]> ∅))) forks 0.
Lemma pipeline_wired_witness :
  (∃ s4, runcmd (PIPE (EXEC []) (EXEC [])) (demo_desk [7; 0]) = runcmd (EXEC []) s4 ∧ fdt s4 = <[0 := 100%nat]> (fdt (demo_desk [7; 0])))
  ∧ ∃ s4, runcmd (PIPE (EXEC []) (EXEC [])) (demo_desk [7; 8]) = Sleeping s4 ∧ fdt s4 = fdt (demo_desk [7; 8]) ∧ children s4 = 0%nat.
Proof.
  assert (Hgen : ∀ k, let d := demo_desk [7; k] in let d1 := mk_desk (<[4 := 101%nat]> (<[3 := 100%nat]> (d_fds d))) [7; k] 0 in
    std_open d ∧ piped d 3 4 100%nat 101%nat d1) by (intros k; split; [split_and!; by eexists|split_and!; by vm_compute]).
  split.
  - destruct (Hgen 0) as [Hstd Hp]. destruct (pipeline_wired (EXEC []) (EXEC []) 3 4 100%nat 101%nat _ _ Hstd Hp) as (_ & Hr & _).
    eapply (Hr 7 (mk_desk _ [0] 1) (mk_desk _ [] 0)); [by split|lia|by split].
  - destruct (Hgen 8) as [Hstd Hp]. destruct (pipeline_wired (EXEC []) (EXEC []) 3 4 100%nat 101%nat _ _ Hstd Hp) as (_ & _ & Hr).
    eapply (Hr 7 8 (mk_desk _ [8] 1) (mk_desk _ [] 2)); [by split|lia|by split|lia].
Defined.
