(* ===== verification/Spin.v ===== *)
(** Spin locks on several processors ([spinlock.c]): [pushcli] and [popcli], and [acquire], [release] and
    [holding] as the sequences of memory accesses that other processors can interleave with.

    The other components run on one processor and keep the list [held] of the locks it holds; what is proved
    here justifies that: with the locks and the processors' fields as the code has them, the list is what
    [holding] finds and its length is [ncli]. *)
From stdpp Require Export functions.
From S2P Require Export Prelude.
From S2P Require Import State.

(** * State *)

(** The fields of [struct cpu] and the interrupt flag of the processor.  [c_held] is not in the code: the locks the
    processor has, the last one first. *)
Record cpu := mk_cpu { c_if : bool; c_ncli : Z; c_intena : bool; c_held : list lockid }.

Definition pushcli (c : cpu) : cpu :=
  mk_cpu false (c_ncli c + 1) (if c_ncli c =? 0 then c_if c else c_intena c) (c_held c).
(** [None] is a panic. *)
Definition popcli (c : cpu) : option cpu :=
  if c_if c then None else
  let n := c_ncli c - 1 in
  if n <? 0 then None else
  Some (mk_cpu ((n =? 0) && c_intena c) n (c_intena c) (c_held c)).

(** [struct spinlock]; the processor is its number. *)
Record spinlock := mk_spinlock { l_locked : bool; l_cpu : option nat }.

(** Where a processor is: outside, or at a memory access of [acquire] or [release].  [AHold] and [RHold] are the two
    accesses of [holding]. *)
Inductive pc :=
  | Outside
  | AHold1 (l : lockid) | AHold2 (l : lockid) | ASpin (l : lockid) | ASet (l : lockid)
  | RHold1 (l : lockid) | RHold2 (l : lockid) | RClear (l : lockid) | RUnlock (l : lockid)
  | Panicked.

Record machine := mk_machine { locks : lockid → spinlock; cpus : nat → cpu; pcs : nat → pc }.

(** * Steps *)

Definition set_cpu (i : nat) (c : cpu) (p : pc) (m : machine) : machine :=
  mk_machine (locks m) (<[i := c]> (cpus m)) (<[i := p]> (pcs m)).
Definition set_lock (l : lockid) (k : spinlock) (m : machine) : machine :=
  mk_machine (<[l := k]> (locks m)) (cpus m) (pcs m).

(** [popcli] and then [p], or the panic. *)
Definition pop_to (i : nat) (p : pc) (m : machine) : machine :=
  match popcli (cpus m i) with Some c => set_cpu i c p m | None => set_cpu i (cpus m i) Panicked m end.

(** What processor [i] does next when it is inside [acquire] or [release]. *)
Definition run_cpu (i : nat) (m : machine) : machine :=
  let c := cpus m i in
  match pcs m i with
  | Outside | Panicked => m
  | AHold1 l => if l_locked (locks m l) then set_cpu i c (AHold2 l) m else pop_to i (ASpin l) m
  | AHold2 l => pop_to i (if decide (l_cpu (locks m l) = Some i) then Panicked else ASpin l) m
  | ASpin l =>
      (* the result of xchg; when it is 1, the 1 it has stored was there before *)
      if l_locked (locks m l) then m
      else set_cpu i (mk_cpu (c_if c) (c_ncli c) (c_intena c) (l :: c_held c)) (ASet l)
             (set_lock l (mk_spinlock true (l_cpu (locks m l))) m)
  | ASet l => set_cpu i c Outside (set_lock l (mk_spinlock (l_locked (locks m l)) (Some i)) m)
  | RHold1 l => if l_locked (locks m l) then set_cpu i c (RHold2 l) m else pop_to i Panicked m
  | RHold2 l => pop_to i (if decide (l_cpu (locks m l) = Some i) then RClear l else Panicked) m
  | RClear l => set_cpu i c (RUnlock l) (set_lock l (mk_spinlock (l_locked (locks m l)) None) m)
  | RUnlock l =>
      let m := set_lock l (mk_spinlock false (l_cpu (locks m l))) m in
      pop_to i Outside (set_cpu i (mk_cpu (c_if c) (c_ncli c) (c_intena c) (filter (λ l', l' ≠ l) (c_held c))) (pcs m i) m)
  end.

(** Processors take turns in any order; one that is outside may call [acquire] or [release].  When [proper]
    is set it only acquires what it does not have and releases what it has. *)
Inductive step (proper : bool) : machine → machine → Prop :=
  | step_run i m : step proper m (run_cpu i m)
  | step_acquire i l m : pcs m i = Outside → (proper = true → l ∉ c_held (cpus m i)) →
      step proper m (set_cpu i (pushcli (pushcli (cpus m i))) (AHold1 l) m)
  | step_release i l m : pcs m i = Outside → (proper = true → l ∈ c_held (cpus m i)) →
      step proper m (set_cpu i (pushcli (cpus m i)) (RHold1 l) m).

(** All locks are free, and every processor is outside, with its interrupts on or off. *)
Definition powered_on (m : machine) : Prop :=
  (∀ l, locks m l = mk_spinlock false None) ∧ ∀ i, pcs m i = Outside ∧ c_ncli (cpus m i) = 0 ∧ c_held (cpus m i) = [].

(** * The invariant *)

(** The levels of [pushcli] that are not for a lock in [c_held]. *)
Definition extra (p : pc) : Z :=
  match p with AHold1 _ | AHold2 _ => 2 | ASpin _ | RHold1 _ | RHold2 _ => 1 | _ => 0 end.

Record cpu_ok (base : bool) (c : cpu) (p : pc) : Prop := {
  ok_ncli : p ≠ Panicked → c_ncli c = Z.of_nat (length (c_held c)) + extra p;
  ok_if : p ≠ Panicked → if decide (c_ncli c = 0) then c_if c = base else c_if c = false ∧ c_intena c = base;
  ok_nodup : NoDup (c_held c) }.

(** What a processor knows about the lock it is working on, [k], where it is. *)
Definition pc_ok (proper : bool) (i : nat) (held : list lockid) (locks : lockid → spinlock) (p : pc) : Prop :=
  match p with
  | Outside => True
  | AHold1 l | AHold2 l => proper = true → l ∉ held
  | ASpin l => l ∉ held
  | ASet l => l ∈ held
  | RHold1 l | RHold2 l => proper = true → l ∈ held
  | RClear l => l ∈ held ∧ l_cpu (locks l) = Some i
  | RUnlock l => l ∈ held ∧ l_cpu (locks l) ≠ Some i
  | Panicked => proper = false
  end.

(** The lock has been taken but not been marked yet, or is about to be released. *)
Definition unmarked (p : pc) (l : lockid) : Prop := p = ASet l ∨ p = RUnlock l.

Record inv (proper : bool) (base : nat → bool) (m : machine) : Prop := {
  inv_cpu i : cpu_ok (base i) (cpus m i) (pcs m i);
  inv_pc i : pc_ok proper i (c_held (cpus m i)) (locks m) (pcs m i);
  inv_locked l : l_locked (locks m l) = true ↔ ∃ i, l ∈ c_held (cpus m i);
  inv_one i j l : l ∈ c_held (cpus m i) → l ∈ c_held (cpus m j) → i = j;
  inv_marked i l : l ∈ c_held (cpus m i) → l_cpu (locks m l) = Some i ∨ unmarked (pcs m i) l;
  inv_owner i l : l_cpu (locks m l) = Some i → l ∈ c_held (cpus m i) }.

Lemma pushcli_ok base c : c_ncli c = Z.of_nat (length (c_held c)) → cpu_ok base c Outside → ∀ n p, extra p = Z.of_nat (S n) →
  cpu_ok base (Nat.iter (S n) pushcli c) p ∧ c_held (Nat.iter (S n) pushcli c) = c_held c.
Proof.
  intros En [_ Hif Hnd] n p Hp. specialize (Hif ltac:(done)).
  assert (∀ n, let c' := Nat.iter (S n) pushcli c in c_held c' = c_held c ∧ c_ncli c' = c_ncli c + Z.of_nat (S n) ∧ c_if c' = false ∧ c_intena c' = base) as Hit.
  { clear n p Hp. induction n as [|n (Eh & Ec & Ei & Ea)]; cbv zeta.
    - simpl. split_and!; [done|lia|done|]. case_decide as Hz; [by rewrite Hz, Hif|]. by rewrite (proj2 (Z.eqb_neq _ 0)), (proj2 Hif).
    - cbv zeta in *. set (x := Nat.iter (S n) pushcli c) in *. change (Nat.iter (S (S n)) pushcli c) with (pushcli x). unfold pushcli. cbn [c_held c_ncli c_if c_intena].
      split_and!; [done|lia|done|]. by rewrite (proj2 (Z.eqb_neq _ 0)) by lia. }
  destruct (Hit n) as (Eh & Ec & Ei & Ea). split; [|done]. split.
  - intros _. rewrite Ec, Eh, Hp. lia.
  - intros _. rewrite decide_False by lia. done.
  - by rewrite Eh.
Qed.

Lemma cpu_ok_move base c p p' : cpu_ok base c p → p ≠ Panicked → extra p' = extra p → cpu_ok base c p'.
Proof. intros [En Hif Hnd] Hp E. split; [intros _; rewrite E; auto|intros _; by apply Hif|done]. Qed.

(** [popcli] undoes one level, and gives back the interrupts with the last. *)
Definition one_less (p p' : pc) : Prop := 1 ≤ extra p ∧ (p' ≠ Panicked → extra p = extra p' + 1).
Lemma popcli_ok base c p p' :
  cpu_ok base c p → p ≠ Panicked → one_less p p' → ∃ c', popcli c = Some c' ∧ cpu_ok base c' p' ∧ c_held c' = c_held c.
Proof.
  intros [En Hif Hnd] Hp [Hx Hx']. specialize (En Hp). specialize (Hif Hp).
  rewrite decide_False in Hif by lia. destruct Hif as [Ei Ea]. unfold popcli. rewrite Ei, Ea, (proj2 (Z.ltb_ge _ _)) by lia.
  eexists. split; [done|]. split; [|done]. split; simpl; [intros Hn; specialize (Hx' Hn); lia| |done]. intros _. case_decide as Hz.
  - rewrite Hz. done.
  - by rewrite (proj2 (Z.eqb_neq _ 0)).
Qed.

Section inv.
Context (proper : bool) (base : nat → bool).

(** A step that only moves processor [i]. *)
Lemma inv_set_cpu i c p m :
  inv proper base m → c_held c = c_held (cpus m i) → cpu_ok (base i) c p → pc_ok proper i (c_held c) (locks m) p →
  (∀ l, unmarked (pcs m i) l → unmarked p l) → inv proper base (set_cpu i c p m).
Proof.
  intros [Ic Ip Il Io Im Iw] Eh Hc Hp Hu.
  assert (∀ j, c_held (cpus (set_cpu i c p m) j) = c_held (cpus m j)) as Eh'.
  { intros j. simpl. unfold insert, fn_insert. case_decide; [by subst|done]. }
  split.
  - intros j. simpl. unfold insert, fn_insert. case_decide; [by subst|done].
  - intros j. rewrite Eh'. simpl. unfold insert, fn_insert. case_decide; [subst; by rewrite <- Eh|done].
  - intros l. simpl locks. rewrite Il. by setoid_rewrite Eh'.
  - intros j k l. rewrite !Eh'. apply Io.
  - intros j l. rewrite Eh'. intros Hl. simpl. unfold insert, fn_insert. destruct (Im j l Hl); [by left|right].
    case_decide; [subst; by apply Hu|done].
  - intros j l. rewrite Eh'. apply Iw.
Qed.
Lemma inv_pop_to i p m :
  inv proper base m → pcs m i ≠ Panicked → one_less (pcs m i) p → pc_ok proper i (c_held (cpus m i)) (locks m) p →
  (∀ l, unmarked (pcs m i) l → unmarked p l) → inv proper base (pop_to i p m).
Proof.
  intros Hi Hn Hx Hp Hu. destruct (popcli_ok (base i) (cpus m i) (pcs m i) p) as (c & E & Hc & Eh); [by apply Hi|done|done|].
  unfold pop_to. rewrite E. apply inv_set_cpu; [done|done|done|by rewrite Eh|done].
Qed.

(** A step of the holder [i] of [l] on the lock itself; no other processor looks at it. *)
Lemma inv_set_lock i l k p m :
  inv proper base m → l ∈ c_held (cpus m i) → l_locked k = true → (l_cpu k = Some i ∨ l_cpu k = None ∧ p = RUnlock l) →
  extra p = 0 → pcs m i ≠ Panicked → extra (pcs m i) = 0 → p ≠ Panicked → (∀ l', unmarked (pcs m i) l' → l' = l) →
  pc_ok proper i (c_held (cpus m i)) (<[l := k]> (locks m)) p →
  inv proper base (set_cpu i (cpus m i) p (set_lock l k m)).
Proof.
  intros [Ic Ip Il Io Im Iw] Hl Hk Hkc Hx Hn Hx' Hn' Hu Hp.
  assert (∀ j, c_held (cpus (set_cpu i (cpus m i) p (set_lock l k m)) j) = c_held (cpus m j)) as Eh'.
  { intros j. simpl. unfold insert, fn_insert. case_decide; [by subst|done]. }
  split.
  - intros j. simpl. unfold insert, fn_insert. case_decide; [subst|done]. destruct (Ic j) as [En Hif Hnd]. split; [|intros _; by apply Hif|done].
    intros _. rewrite Hx, En by done. lia.
  - intros j. rewrite Eh'. simpl pcs. unfold insert at 1, fn_insert at 1. case_decide as Hij; [by subst|].
    specialize (Ip j). destruct (pcs m j) as [|l'|l'|l'|l'|l'|l'|l'|l'|] eqn:Ej; simpl in *; try done; unfold insert, fn_insert; case_decide; try done; subst l';
      (destruct Hij; eapply Io; [exact Hl|tauto]).
  - intros l'. setoid_rewrite Eh'. simpl. unfold insert, fn_insert. case_decide; [|apply Il]. subst. split; [eauto|done].
  - intros j j' l'. rewrite !Eh'. apply Io.
  - intros j l'. rewrite Eh'. intros Hl'. simpl. unfold insert, fn_insert. case_decide as E1.
    + subst l'. assert (i = j) as <- by (by eapply Io). rewrite decide_True by done. destruct Hkc as [->|[_ ->]]; [by left|right; by right].
    + destruct (Im j l' Hl'); [by left|]. case_decide; [|by right]. subst. by destruct E1; symmetry; apply Hu.
  - intros j l'. rewrite Eh'. simpl. unfold insert, fn_insert. case_decide; [|apply Iw]. subst. destruct Hkc as [->|[-> _]]; [|done]. by intros [= <-].
Qed.

(** [xchg] returns 0: the lock is taken. *)
Lemma inv_take i l m :
  inv proper base m → pcs m i = ASpin l → l_locked (locks m l) = false → inv proper base (run_cpu i m).
Proof.
  intros Hi Ep El. pose proof Hi as [Ic Ip Il Io Im Iw]. unfold run_cpu. rewrite Ep, El.
  assert (∀ j, l ∉ c_held (cpus m j)) as Hfree.
  { intros j Hj. assert (l_locked (locks m l) = true) by (apply Il; eauto). congruence. }
  assert (l_cpu (locks m l) = None) as Hcpu by (destruct (l_cpu (locks m l)) as [j|] eqn:E; [by apply Iw, Hfree in E|done]).
  set (m' := set_cpu i _ _ _).
  assert (∀ j l', l' ∈ c_held (cpus m' j) ↔ l' ∈ c_held (cpus m j) ∨ j = i ∧ l' = l) as Hh.
  { intros j l'. simpl. unfold insert, fn_insert. case_decide as E; [subst j; simpl; rewrite elem_of_cons; naive_solver|naive_solver]. }
  split.
  - intros j. simpl. unfold insert, fn_insert. case_decide; [subst j|done]. destruct (Ic i) as [En Hif Hnd]. rewrite Ep in *.
    split; simpl; [intros _; rewrite En by done; simpl; lia|intros _; by apply Hif|]. constructor; [apply Hfree|done].
  - intros j. simpl. unfold insert, fn_insert. case_decide; [subst j; simpl; by left|]. specialize (Ip j).
    destruct (pcs m j) as [|l'|l'|l'|l'|l'|l'|l'|l'|]; simpl in *; try done; case_decide; try done; subst l'; simpl; try done.
  - intros l'. setoid_rewrite Hh. simpl. unfold insert, fn_insert. case_decide as E.
    + subst l'. split; [intros _; exists i; by right|done].
    + rewrite Il. naive_solver.
  - intros j k l'. rewrite !Hh. intros [Hj|[-> ->]] [Hk|[-> E]]; [by eapply Io|subst l'; by apply Hfree in Hj|by apply Hfree in Hk|done].
  - intros j l'. rewrite Hh. simpl. unfold insert, fn_insert. intros [Hj|[-> ->]]; [|right; rewrite decide_True by done; by left].
    rewrite decide_False by (intros <-; by apply Hfree in Hj). destruct (Im j l' Hj) as [?|Hu]; [by left|right]. case_decide; [subst j|done].
    rewrite Ep in Hu. by destruct Hu.
  - intros j l'. rewrite Hh. simpl. unfold insert, fn_insert. case_decide; [subst l'; simpl; by rewrite Hcpu|]. intros Hj. left. by apply Iw.
Qed.

(** The lock is released. *)
Lemma length_filter_out (l : lockid) (h : list lockid) : NoDup h → l ∈ h → length h = S (length (filter (λ l', l' ≠ l) h)).
Proof.
  induction 1 as [|x h Hx Hnd IH]; [by intros ?%not_elem_of_nil|]. intros [->|Hin]%elem_of_cons.
  - rewrite filter_cons_False by auto. simpl. f_equal. assert (filter (λ l', l' ≠ x) h = h) as ->; [|done]. clear IH Hnd.
    induction h as [|y h IH]; [done|]. apply not_elem_of_cons in Hx as [Hy Hh]. rewrite filter_cons_True by auto. by rewrite IH.
  - rewrite filter_cons_True by (intros ->; done). simpl. by rewrite IH.
Qed.

Lemma inv_release i l m :
  inv proper base m → pcs m i = RUnlock l → inv proper base (run_cpu i m).
Proof.
  intros Hi Ep. pose proof Hi as [Ic Ip Il Io Im Iw]. pose proof (Ip i) as Hp. rewrite Ep in Hp. destruct Hp as [Hl Hcpu].
  destruct (Ic i) as [En Hif Hnd]. rewrite Ep in En, Hif. specialize (En ltac:(done)). specialize (Hif ltac:(done)). simpl in En.
  pose proof (length_filter_out l _ Hnd Hl) as Hlen.
  set (c0 := mk_cpu (c_if (cpus m i)) (c_ncli (cpus m i)) (c_intena (cpus m i)) (filter (λ l', l' ≠ l) (c_held (cpus m i)))).
  destruct (popcli_ok (base i) c0 (RHold1 l) Outside) as (c1 & E1 & Hc1 & Eh1); [|done|by split|].
  { split; [intros _; simpl; lia|intros _; by apply Hif|by apply NoDup_filter]. }
  assert (run_cpu i m = set_cpu i c1 Outside (set_cpu i c0 (RUnlock l) (set_lock l (mk_spinlock false (l_cpu (locks m l))) m))) as ->.
  { unfold run_cpu. rewrite Ep. cbv zeta. simpl pcs. rewrite Ep. fold c0. unfold pop_to. simpl cpus. rewrite fn_lookup_insert. by rewrite E1. }
  set (m' := set_cpu i c1 _ _). clear Hif.
  assert (∀ j l', l' ∈ c_held (cpus m' j) ↔ l' ∈ c_held (cpus m j) ∧ ¬ (j = i ∧ l' = l)) as Hh.
  { intros j l'. simpl. unfold insert, fn_insert. case_decide as E; [subst j|naive_solver].
    rewrite Eh1. simpl. rewrite list_elem_of_filter. naive_solver. }
  split.
  - intros j. simpl. unfold insert, fn_insert. case_decide; [by subst j|done].
  - intros j. simpl. unfold insert, fn_insert. case_decide; [by subst j|]. specialize (Ip j).
    destruct (pcs m j) as [|l'|l'|l'|l'|l'|l'|l'|l'|]; simpl in *; try done; case_decide; try done; subst l'; by simpl.
  - intros l'. setoid_rewrite Hh. simpl. unfold insert, fn_insert. case_decide as E.
    + subst l'. split; [done|]. intros (j & Hj & Hn). destruct Hn. split; [by eapply Io|done].
    + rewrite Il. naive_solver.
  - intros j k l'. rewrite !Hh. intros [Hj _] [Hk _]. by eapply Io.
  - intros j l'. rewrite Hh. simpl. unfold insert, fn_insert. intros [Hj Hn]. case_decide as E.
    + subst l'. destruct Hn. split; [by eapply Io|done].
    + destruct (Im j l' Hj) as [?|Hu]; [by left|right]. case_decide; [subst j|done]. rewrite Ep in Hu. destruct Hu as [|[= ->]]; done.
  - intros j l'. rewrite Hh. simpl. unfold insert, fn_insert. case_decide as E.
    + subst l'. simpl. intros Hj. pose proof (Iw j l Hj) as Hjl. assert (j = i) as -> by (by eapply Io). done.
    + intros Hj. split; [by apply Iw|naive_solver].
Qed.

Lemma inv_step m m' : inv proper base m → step proper m m' → inv proper base m'.
Proof.
  intros Hi Hs. destruct Hs as [i m|i l m Ep Hg|i l m Ep Hg].
  - pose proof (inv_pc _ _ _ Hi i) as Hp. pose proof (inv_cpu _ _ _ Hi i) as Hc.
    destruct (pcs m i) as [|l|l|l|l|l|l|l|l|] eqn:Ep; try (unfold run_cpu; rewrite Ep; done).
    + unfold run_cpu. rewrite Ep. simpl in Hp. destruct (l_locked (locks m l)) eqn:El.
      * apply inv_set_cpu; [done|done|by eapply cpu_ok_move|done|rewrite Ep; by intros ? []].
      * apply inv_pop_to; [done|by rewrite Ep|rewrite Ep; by split| |rewrite Ep; by intros ? []]. simpl. intros Hin.
        assert (l_locked (locks m l) = true) by (apply (inv_locked _ _ _ Hi); eauto). congruence.
    + unfold run_cpu. rewrite Ep. simpl in Hp. apply inv_pop_to; [done|by rewrite Ep|rewrite Ep; by case_decide; split| |rewrite Ep; by intros ? []].
      case_decide as Ecpu; simpl.
      * apply (inv_owner _ _ _ Hi) in Ecpu. destruct proper; [by destruct Hp|done].
      * intros Hin. destruct (inv_marked _ _ _ Hi i l Hin) as [?|Hu]; [done|]. rewrite Ep in Hu. by destruct Hu.
    + destruct (l_locked (locks m l)) eqn:El; [unfold run_cpu; by rewrite Ep, El|]. by eapply inv_take.
    + unfold run_cpu. rewrite Ep. simpl in Hp. apply inv_set_lock; try done; try by rewrite Ep.
      * simpl. apply (inv_locked _ _ _ Hi). eauto.
      * by left.
      * rewrite Ep. intros l' [[= ->]|?]; done.
    + unfold run_cpu. rewrite Ep. simpl in Hp. destruct (l_locked (locks m l)) eqn:El.
      * apply inv_set_cpu; [done|done|by eapply cpu_ok_move|done|rewrite Ep; by intros ? []].
      * apply inv_pop_to; [done|by rewrite Ep|rewrite Ep; by split| |rewrite Ep; by intros ? []]. simpl. destruct proper; [|done].
        assert (l_locked (locks m l) = true) by (apply (inv_locked _ _ _ Hi); eauto). congruence.
    + unfold run_cpu. rewrite Ep. simpl in Hp. apply inv_pop_to; [done|by rewrite Ep|rewrite Ep; by case_decide; split| |rewrite Ep; by intros ? []].
      case_decide as Ecpu; simpl; [split; [by apply (inv_owner _ _ _ Hi)|done]|]. destruct proper; [|done].
      destruct (inv_marked _ _ _ Hi i l (Hp eq_refl)) as [?|Hu]; [done|]. rewrite Ep in Hu. by destruct Hu.
    + unfold run_cpu. rewrite Ep. simpl in Hp. destruct Hp as [Hl Hcpu]. apply inv_set_lock; try done; try by rewrite Ep.
      * simpl. apply (inv_locked _ _ _ Hi). eauto.
      * by right.
      * rewrite Ep. intros l' [?|?]; done.
      * simpl. split; [done|]. by rewrite fn_lookup_insert.
    + by eapply inv_release.
  - pose proof (inv_cpu _ _ _ Hi i) as Hc. rewrite Ep in Hc.
    destruct (pushcli_ok (base i) (cpus m i) ltac:(rewrite (ok_ncli _ _ _ Hc) by done; simpl; lia) Hc 1 (AHold1 l) eq_refl) as [Hc' Eh].
    change (Nat.iter 2 pushcli (cpus m i)) with (pushcli (pushcli (cpus m i))) in *.
    apply inv_set_cpu; [done|done|done|by rewrite Eh|rewrite Ep; by intros ? []].
  - pose proof (inv_cpu _ _ _ Hi i) as Hc. rewrite Ep in Hc.
    destruct (pushcli_ok (base i) (cpus m i) ltac:(rewrite (ok_ncli _ _ _ Hc) by done; simpl; lia) Hc 0 (RHold1 l) eq_refl) as [Hc' Eh].
    change (Nat.iter 1 pushcli (cpus m i)) with (pushcli (cpus m i)) in *.
    apply inv_set_cpu; [done|done|done|by rewrite Eh|rewrite Ep; by intros ? []].
Qed.
End inv.

Lemma inv_start proper m : powered_on m → inv proper (λ i, c_if (cpus m i)) m.
Proof.
  intros [Hl Hc]. split.
  - intros i. destruct (Hc i) as (-> & En & Eh). split; [intros _; by rewrite En, Eh|intros _; by rewrite En|rewrite Eh; constructor].
  - intros i. by rewrite (proj1 (Hc i)).
  - intros l. rewrite Hl. split; [done|]. intros (i & Hi). destruct (Hc i) as (_ & _ & Eh). rewrite Eh in Hi. by apply not_elem_of_nil in Hi.
  - intros i j l Hi. destruct (Hc i) as (_ & _ & Eh). rewrite Eh in Hi. by apply not_elem_of_nil in Hi.
  - intros i l Hi. destruct (Hc i) as (_ & _ & Eh). rewrite Eh in Hi. by apply not_elem_of_nil in Hi.
  - intros i l. by rewrite Hl.
Qed.

(** * Properties *)

(** C13: Spin locks work on any number of processors, in any interleaving of their memory accesses.  No lock is ever
    held by two processors; while a processor holds a lock its interrupts are off; outside of [acquire]
    and [release] the depth [ncli] is the number of locks held, [holding] finds just these locks, and with none
    held the interrupts are as they were in the beginning; and a processor that acquires only what it does not hold
    and releases only what it holds never panics. *)
Theorem spinlock_correct (proper : bool) (m0 m : machine) :
  powered_on m0 → rtc (step proper) m0 m →
  (∀ l i j, l ∈ c_held (cpus m i) → l ∈ c_held (cpus m j) → i = j)
  ∧ (∀ l i, l ∈ c_held (cpus m i) → pcs m i ≠ Panicked → c_if (cpus m i) = false)
  ∧ (∀ i, pcs m i = Outside → c_ncli (cpus m i) = Z.of_nat (length (c_held (cpus m i)))
      ∧ (∀ l, l ∈ c_held (cpus m i) ↔ l_locked (locks m l) = true ∧ l_cpu (locks m l) = Some i)
      ∧ (c_held (cpus m i) = [] → c_if (cpus m i) = c_if (cpus m0 i)))
  ∧ (proper = true → ∀ i, pcs m i ≠ Panicked).
Proof.
  intros H0 Hr. assert (inv proper (λ i, c_if (cpus m0 i)) m) as Hi.
  { pose proof (inv_start proper m0 H0) as Hs. generalize dependent (λ i, c_if (cpus m0 i)). clear H0.
    induction Hr as [|x y z Hxy _ IH]; intros base Hs; [done|]. eapply IH, inv_step; eauto. }
  split_and!.
  - intros l i j. apply (inv_one _ _ _ Hi).
  - intros l i Hl Hp. destruct (inv_cpu _ _ _ Hi i) as [En Hif _]. specialize (En Hp). specialize (Hif Hp). case_decide as Hz; [|by apply Hif].
    destruct (c_held (cpus m i)); [by apply not_elem_of_nil in Hl|]. simpl in En. assert (0 ≤ extra (pcs m i)) by (by destruct (pcs m i)). lia.
  - intros i Hp. destruct (inv_cpu _ _ _ Hi i) as [En Hif _]. rewrite Hp in *. specialize (En ltac:(done)). specialize (Hif ltac:(done)).
    simpl in En. rewrite Z.add_0_r in En. split_and!; [done| |intros Eh; rewrite Eh in En; by rewrite En in Hif].
    intros l. split; [|intros [_ Hc]; by apply (inv_owner _ _ _ Hi)]. intros Hl. split; [apply (inv_locked _ _ _ Hi); eauto|].
    destruct (inv_marked _ _ _ Hi i l Hl) as [?|[?|?]]; [done|congruence|congruence].
  - intros -> i E. pose proof (inv_pc _ _ _ Hi i) as Hp. by rewrite E in Hp.
Qed.

(** Processor 0 takes a lock, and processor 1 waits for it. *)
Definition demo_machine : machine := mk_machine (λ _, mk_spinlock false None) (λ _, mk_cpu true 0 false []) (λ _, Outside).
Definition demo_call (i : nat) (l : lockid) (m : machine) : machine := set_cpu i (pushcli (pushcli (cpus m i))) (AHold1 l) m.
Definition demo_run : machine :=
  let m := demo_call 0 LPtable demo_machine in
  let m := run_cpu 0 (run_cpu 0 (run_cpu 0 m)) in
  run_cpu 1 (run_cpu 1 (run_cpu 1 (demo_call 1 LPtable m))).
Lemma spinlock_correct_witness :
  (powered_on demo_machine ∧ rtc (step true) demo_machine demo_run)
  ∧ pcs demo_run 0 = Outside ∧ pcs demo_run 1 = ASpin LPtable ∧ c_ncli (cpus demo_run 0) = Z.of_nat (length (c_held (cpus demo_run 0))) ∧ pcs demo_run 1 ≠ Panicked.
Proof.
  assert (powered_on demo_machine) as H0 by done.
  assert (rtc (step true) demo_machine demo_run) as Hr.
  { do 3 (eapply rtc_r; [|apply step_run]). eapply rtc_r; [|apply step_acquire; [by vm_compute|intros _; by_decide]].
    do 3 (eapply rtc_r; [|apply step_run]). eapply rtc_r; [apply rtc_refl|]. apply step_acquire; [done|intros _; apply not_elem_of_nil]. }
  split; [done|]. destruct (spinlock_correct true demo_machine demo_run H0 Hr) as (_ & _ & Hout & Hp).
  split; [by vm_compute|]. split; [by vm_compute|]. split; [apply Hout; by vm_compute|by apply Hp].
Defined.
