(* ===== verification/Kbd.v ===== *)
(** The keyboard ([kbd.c], [kbd.h]): scan codes to characters.  The bytes that the controller delivers are
    the input; the state is the static variable [shift]. *)
From S2P Require Export Console.
From S2P Require Import Prelude.

(** * kbd.h *)
Definition SHIFT : Z := 1.
Definition CTL : Z := 2.
Definition ALT : Z := 4.
Definition CAPSLOCK : Z := 8.
Definition NUMLOCK : Z := 16.
Definition SCROLLLOCK : Z := 32.
Definition E0ESC : Z := 64.

(** An array of 256 bytes: its first entries, and others by their index. *)
Definition table (first : list Z) (later : list (nat * Z)) : list Z :=
  u8 <$> foldl (λ t (x : nat * Z), <[fst x := snd x]> t) (first ++ replicate (256 - length first) 0) later.

Definition shiftcode : list Z := table []
  [(29%nat, CTL); (42%nat, SHIFT); (54%nat, SHIFT); (56%nat, ALT); (157%nat, CTL); (184%nat, ALT)].
Definition togglecode : list Z := table [] [(58%nat, CAPSLOCK); (69%nat, NUMLOCK); (70%nat, SCROLLLOCK)].
Definition normalmap : list Z := table
  [0; 27; 49; 50; 51; 52; 53; 54; 55; 56; 57; 48; 45; 61; 8; 9;
   113; 119; 101; 114; 116; 121; 117; 105; 111; 112; 91; 93; 10; 0; 97; 115;
   100; 102; 103; 104; 106; 107; 108; 59; 39; 96; 0; 92; 122; 120; 99; 118;
   98; 110; 109; 44; 46; 47; 0; 42; 0; 32; 0; 0; 0; 0; 0; 0;
   0; 0; 0; 0; 0; 0; 0; 55; 56; 57; 45; 52; 53; 54; 43; 49;
   50; 51; 48; 46; 0; 0; 0; 0]
  [(156%nat, 10); (181%nat, 47); (200%nat, 226); (208%nat, 227); (201%nat, 230); (209%nat, 231); (203%nat, 228); (205%nat, 229); (151%nat, 224); (207%nat, 225); (210%nat, 232); (211%nat, 233)].
Definition shiftmap : list Z := table
  [0; 27; 33; 64; 35; 36; 37; 94; 38; 42; 40; 41; 95; 43; 8; 9;
   81; 87; 69; 82; 84; 89; 85; 73; 79; 80; 123; 125; 10; 0; 65; 83;
   68; 70; 71; 72; 74; 75; 76; 58; 34; 126; 0; 124; 90; 88; 67; 86;
   66; 78; 77; 60; 62; 63; 0; 42; 0; 32; 0; 0; 0; 0; 0; 0;
   0; 0; 0; 0; 0; 0; 0; 55; 56; 57; 45; 52; 53; 54; 43; 49;
   50; 51; 48; 46; 0; 0; 0; 0]
  [(156%nat, 10); (181%nat, 47); (200%nat, 226); (208%nat, 227); (201%nat, 230); (209%nat, 231); (203%nat, 228); (205%nat, 229); (151%nat, 224); (207%nat, 225); (210%nat, 232); (211%nat, 233)].
Definition ctlmap : list Z := table
  [0; 0; 0; 0; 0; 0; 0; 0; 0; 0; 0; 0; 0; 0; 0; 0;
   17; 23; 5; 18; 20; 25; 21; 9; 15; 16; 0; 0; 13; 0; 1; 19;
   4; 6; 7; 8; 10; 11; 12; 0; 0; 0; 0; 28; 26; 24; 3; 22;
   2; 14; 13; 0; 0; -17; 0; 0]
  [(156%nat, 13); (181%nat, -17); (200%nat, 226); (208%nat, 227); (201%nat, 230); (209%nat, 231); (203%nat, 228); (205%nat, 229); (151%nat, 224); (207%nat, 225); (210%nat, 232); (211%nat, 233)].

(** * kbd.c *)

Definition charcode (k : Z) : list Z :=
  match k with 0 => normalmap | 1 => shiftmap | _ => ctlmap end.

(** [None] when the controller has no data.  The result and the new value of [shift]. *)
Definition kbdgetc (input : option Z) (shift : Z) : Z * Z :=
  match input with
  | None => (-1, shift)
  | Some data =>
      if data =? 224 then (0, Z.lor shift E0ESC) else
      if negb (Z.land data 128 =? 0) then
        let data := if negb (Z.land shift E0ESC =? 0) then data else Z.land data 127 in
        (0, Z.land shift (Z.lnot (Z.lor (shiftcode !!! Z.to_nat data) E0ESC)))
      else
        let '(data, shift) := if negb (Z.land shift E0ESC =? 0) then (Z.lor data 128, Z.land shift (Z.lnot E0ESC)) else (data, shift) in
        let shift := Z.lor shift (shiftcode !!! Z.to_nat data) in
        let shift := Z.lxor shift (togglecode !!! Z.to_nat data) in
        let c := charcode (Z.land shift (Z.lor CTL SHIFT)) !!! Z.to_nat data in
        let c :=
          if negb (Z.land shift CAPSLOCK =? 0) then
            if (97 <=? c) && (c <=? 122) then c + (65 - 97)
            else if (65 <=? c) && (c <=? 90) then c + (97 - 65) else c
          else c in
        (c, shift)
  end.

(** What [consoleintr] gets while the controller has the bytes [codes]. *)
Fixpoint kbd_keys (codes : list Z) (shift : Z) : list Z * Z :=
  match codes with
  | [] => ([], shift)
  | d :: codes =>
      let '(c, shift) := kbdgetc (Some d) shift in
      let '(cs, shift) := kbd_keys codes shift in (c :: cs, shift)
  end.
Definition kbdintr (codes : list Z) (shift : Z) : K Z :=
  let '(keys, shift) := kbd_keys codes shift in
  consoleintr keys;;
  mret shift.

(** * Properties *)

(** A property of a byte and a state of [shift] that holds of all of them. *)
Definition for_all_codes (P : Z → Z → bool) : bool :=
  forallb (λ d, forallb (λ s, P (Z.of_nat d) (Z.of_nat s)) (seq 0 128)) (seq 0 256).
Lemma for_all_codes_spec P d s : for_all_codes P = true → 0 ≤ d < 256 → 0 ≤ s < 128 → P d s = true.
Proof.
  intros H Hd Hs. unfold for_all_codes in H. rewrite forallb_forall in H. specialize (H (Z.to_nat d)).
  rewrite in_seq, forallb_forall in H. specialize (H ltac:(lia) (Z.to_nat s)). rewrite in_seq in H.
  specialize (H ltac:(lia)). by rewrite !Z2Nat.id in H by lia.
Qed.

(** The letter on a key, and the state of a modifier. *)
Definition letter_key (d : Z) : option Z :=
  let c := normalmap !!! Z.to_nat d in if (97 <=? c) && (c <=? 122) then Some c else None.
Definition pressed (bit s : Z) : bool := negb (Z.land s bit =? 0).

Definition kbd_check (d s : Z) : bool :=
  let '(c, s') := kbdgetc (Some d) s in
  (0 <=? c) && (c <? 256) && (0 <=? s') && (s' <? 128)
  && (if (d =? 224) then pressed E0ESC s' else negb (pressed E0ESC s'))
  && match letter_key d with
     | Some l => if pressed E0ESC s || negb (d <? 128) || pressed CTL s then true
                 else c =? (if xorb (pressed SHIFT s) (pressed CAPSLOCK s) then l - 32 else l)
     | None => true
     end.

(** Whatever the keyboard sends, the result is a byte and [shift] stays a set of the seven flags, the escape flag
    lasting for one code, so no table is read out of its bounds; and a letter key gives the capital letter
    just if one of shift and caps lock is on. *)
Theorem kbdgetc_correct (d s : Z) :
  0 ≤ d < 256 → 0 ≤ s < 128 →
  let '(c, s') := kbdgetc (Some d) s in
  0 ≤ c < 256 ∧ 0 ≤ s' < 128 ∧ (pressed E0ESC s' = true ↔ d = 224)
  ∧ ∀ l, letter_key d = Some l → d < 128 → pressed E0ESC s = false → pressed CTL s = false →
      c = if xorb (pressed SHIFT s) (pressed CAPSLOCK s) then l - 32 else l.
Proof.
  intros Hd Hs. assert (for_all_codes kbd_check = true) as Hall by (by vm_compute).
  pose proof (for_all_codes_spec _ d s Hall Hd Hs) as Hc. clear Hall. unfold kbd_check in Hc. destruct (kbdgetc (Some d) s) as [c s'].
  rewrite !andb_true_iff, !Z.leb_le, !Z.ltb_lt in Hc. destruct Hc as [[[[[? ?] ?] ?] He] Hl]. split_and!; [lia..| |].
  - destruct (Z.eqb_spec d 224); [done|]. apply negb_true_iff in He. rewrite He. done.
  - intros l El Hlt E0 Ec. rewrite El, E0, Ec, (proj2 (Z.ltb_lt _ _)) in Hl by done. by apply Z.eqb_eq in Hl.
Qed.
Lemma kbdgetc_correct_witness :
  (0 ≤ 30 < 256 ∧ 0 ≤ SHIFT < 128) ∧ let '(c, s') := kbdgetc (Some 30) SHIFT in 0 ≤ c < 256 ∧ c = 65.
Proof.
  assert (0 ≤ 30 < 256) as H1 by lia. assert (0 ≤ SHIFT < 128) as H2 by (unfold SHIFT; lia). split; [done|].
  pose proof (kbdgetc_correct 30 SHIFT H1 H2) as H. destruct (kbdgetc (Some 30) SHIFT) as [c s'] eqn:E.
  destruct H as (Hc & _ & _ & Hl). split; [exact Hc|]. rewrite (Hl 97); [done|by vm_compute|lia|done|done].
Defined.
