(* ===== verification/LinkedList.v ===== *)
(** The linked lists of [lab1Revision/linkedList.c]: cells in a heap, changed in place.

    [malloc] is not part of the repository: it is a parameter that gives an address that is neither null nor in
    use.  A cell that is not allocated cannot be read, written or freed ([Panic]). *)
From S2P Require Export Prelude.

(** [struct Link_s], and the cells in use. *)
Record link := mk_link { next : Z; value : Z }.
Abbreviation heap := (gmap Z link).
Definition NULL : Z := 0.

(** What the code relies on about [malloc]. *)
Class Allocator := {
  malloc : heap → Z;
  malloc_fresh h : malloc h ≠ NULL ∧ h !! malloc h = None }.

Abbreviation H := (M heap).

Definition load (p : Z) : H link := λ h, match h !! p with Some c => Ok c h | None => Panic "segmentation fault" end.
Definition store (p : Z) (c : link) : H unit := λ h,
  match h !! p with Some _ => Ok tt (<[p := c]> h) | None => Panic "segmentation fault" end.
Definition free (p : Z) : H unit := λ h,
  match h !! p with Some _ => Ok tt (delete p h) | None => Panic "free: invalid pointer" end.

(** Enough for a loop along a list without a cycle. *)
Definition loop {X R} (body : X → H (X + R)) (x : X) : H R := λ h, iterM (S (size h)) body x h.

Section operations.
Context `{Allocator}.

(** The cell is allocated with nothing in particular in it; both fields are set at once. *)
Definition list_append (x head : Z) : H Z := λ h, let p := malloc h in Ok p (<[p := mk_link head x]> h).

(** A turn of the loop of [list_reverse]: the list that is left, and the one that is reversed. *)
Definition reverse_body : Z * Z → H ((Z * Z) + Z) := λ '(l, head),
  if l =? NULL then mret (inr head) else
  c ← load l;
  store l (mk_link head (value c));;
  mret (inl (next c, l)).
Definition list_reverse (list : Z) : H Z := loop reverse_body (list, NULL).

Definition map_body (f : Z → Z) : Z * Z → H ((Z * Z) + Z) := λ '(l, new_list),
  if l =? NULL then mret (inr new_list) else
  c ← load l;
  new_list ← list_append (f (value c)) new_list;
  mret (inl (next c, new_list)).
Definition list_map (list : Z) (f : Z → Z) : H Z :=
  new_list ← loop (map_body f) (list, NULL);
  list_reverse new_list.

(** The loop of [fibonacci] from [i] on, [n] times. *)
Fixpoint fib_loop (n : nat) (head prev latest : Z) : H Z :=
  match n with
  | O => mret head
  | S n =>
      head ← list_append (i32 (latest + prev)) head;
      c ← load head;
      fib_loop n head latest (value c)
  end.
Definition fibonacci (n : Z) : H Z :=
  head ← (if 0 <? n then list_append 1 NULL else mret NULL);
  head ← (if 1 <? n then list_append 1 head else mret head);
  head ← fib_loop (Z.to_nat (n - 2)) head 1 1;
  list_reverse head.

Definition free_body (l : Z) : H (Z + unit) :=
  if l =? NULL then mret (inr tt) else
  c ← load l;
  free l;;
  mret (inl (next c)).
Definition list_free (list : Z) : H unit :=
  loop free_body list;;
  if negb (list =? NULL) then free list else mret tt.

Definition square (x : Z) : Z := i32 (x * x).
End operations.

(** * Lists in the heap *)

(** From [p] on, the cells with these addresses and values. *)
Fixpoint chain (h : heap) (p : Z) (cs : list (Z * Z)) : Prop :=
  match cs with
  | [] => p = NULL
  | (a, v) :: cs => p = a ∧ a ≠ NULL ∧ ∃ n, h !! a = Some (mk_link n v) ∧ chain h n cs
  end.
(** A list: its cells with their values, no cell twice. *)
Definition list_at (h : heap) (p : Z) (cs : list (Z * Z)) : Prop := NoDup (cs.*1) ∧ chain h p cs.
(** What was allocated is as it was. *)
Definition extends (h h' : heap) : Prop := h ⊆ h'.

Lemma cells_ext h h' p cs : chain h p cs → (∀ a, a ∈ cs.*1 → h' !! a = h !! a) → chain h' p cs.
Proof.
  revert p. induction cs as [|[a v] cs IH]; intros p; [done|]. intros (-> & Ha & n & Hn & Hc) He.
  split_and!; [done|done|]. exists n. split; [rewrite He by (simpl; left); done|]. apply IH; [done|].
  intros b Hb. apply He. simpl. by right.
Qed.
Lemma chain_size h p cs : chain h p cs → NoDup (cs.*1) → (length cs ≤ size h)%nat.
Proof.
  intros Hc Hn. assert (size h = size (dom h)) as -> by (symmetry; apply size_dom).
  rewrite <- (length_fmap fst), <- (size_list_to_set (C := gset Z) _ Hn). apply subseteq_size. intros a Ha. apply elem_of_list_to_set in Ha. apply elem_of_dom.
  clear Hn. revert p Hc. induction cs as [|[b v] cs IH]; intros p; [by apply not_elem_of_nil in Ha|].
  intros (-> & _ & n & Hb & Hc). simpl in Ha. apply elem_of_cons in Ha as [->|Ha]; [by eexists|by eapply IH].
Qed.

(** The loop that reverses: [cs] is left, [done] is reversed. *)
Lemma reverse_loop n h l head cs rs :
  chain h l cs → chain h head rs → NoDup (cs.*1 ++ rs.*1) → (length cs < n)%nat →
  ∃ p h', iterM n reverse_body (l, head) h = Ok p h' ∧ chain h' p (rev cs ++ rs) ∧ ∀ a, a ∉ cs.*1 → h' !! a = h !! a.
Proof.
  revert h l head cs rs. induction n as [|n IH]; intros h l head cs rs Hc Hr Hnd Hn; [lia|].
  destruct cs as [|[a v] cs]; simpl in Hc.
  - exists head, h. split; [|done]. subst l. apply iterM_inr. done.
  - destruct Hc as (-> & Ha & m & Hm & Hc). simpl in Hnd. apply NoDup_cons in Hnd as [Hna Hnd].
    rewrite not_elem_of_app in Hna. destruct Hna as [Hnc Hnr].
    set (h1 := <[a := mk_link head v]> h).
    assert (reverse_body (a, head) h = Ok (inl (m, a)) h1) as E1.
    { unfold reverse_body. rewrite (proj2 (Z.eqb_neq a NULL)) by done. unfold load, store, mbind, M_bind. rewrite Hm. simpl. by rewrite Hm. }
    destruct (IH h1 m a cs ((a, v) :: rs)) as (p & h' & E & Hp & He).
    + eapply cells_ext; [done|]. intros b Hb. unfold h1. rewrite lookup_insert_ne by (intros ->; done). done.
    + split_and!; [done|done|]. exists head. split; [apply lookup_insert_eq|].
      eapply cells_ext; [done|]. intros b Hb. unfold h1. rewrite lookup_insert_ne by (intros ->; done). done.
    + simpl. rewrite <- Permutation_middle. apply NoDup_cons; by rewrite not_elem_of_app.
    + simpl in Hn. lia.
    + exists p, h'. rewrite (iterM_inl _ _ _ _ _ _ E1). split; [done|]. simpl. rewrite <- app_assoc. split; [done|].
      intros b [Hb1 Hb2]%not_elem_of_cons. rewrite He by done. unfold h1. by rewrite lookup_insert_ne by auto.
Qed.

Lemma chain_mono h h' p cs : chain h p cs → extends h h' → chain h' p cs.
Proof.
  revert p. induction cs as [|[a v] cs IH]; intros p; [done|]. intros (-> & Ha & n & Hn & Hc) He.
  split_and!; [done|done|]. exists n. split; [by eapply lookup_weaken|by apply IH].
Qed.
Lemma chain_alloc h p cs a : chain h p cs → a ∈ cs.*1 → is_Some (h !! a).
Proof.
  revert p. induction cs as [|[b v] cs IH]; intros p; [by intros _ ?%not_elem_of_nil|].
  intros (-> & _ & n & Hb & Hc). simpl. intros [->|Ha]%elem_of_cons; [by eexists|by eapply IH].
Qed.

Lemma fmap_rev_rev {A B} (f : A → B) l : f <$> rev l = rev (f <$> l).
Proof. induction l as [|x l IH]; [done|]. simpl. by rewrite fmap_app, IH. Qed.

Lemma list_reverse_ok h p cs :
  list_at h p cs → ∃ p' h', list_reverse p h = Ok p' h' ∧ list_at h' p' (rev cs) ∧ ∀ a, a ∉ cs.*1 → h' !! a = h !! a.
Proof.
  intros [Hnd Hc]. destruct (reverse_loop (S (size h)) h p NULL cs []) as (p' & h' & E & Hc' & He); [done|done|by rewrite app_nil_r| |].
  { pose proof (chain_size h p cs Hc Hnd). lia. }
  exists p', h'. rewrite app_nil_r in Hc'. split_and!; [done| |done]. split; [|done]. rewrite fmap_rev_rev. by rewrite <- Permutation_rev.
Qed.

(** A list made of cells that were not allocated in [h0], with the rest as it was. *)
Definition new_list (h0 h : heap) (p : Z) (cs : list (Z * Z)) : Prop :=
  list_at h p cs ∧ extends h0 h ∧ ∀ a, a ∈ cs.*1 → h0 !! a = None.

Lemma new_list_reverse h0 h p cs :
  new_list h0 h p cs → ∃ p' h', list_reverse p h = Ok p' h' ∧ new_list h0 h' p' (rev cs).
Proof.
  intros (Hl & Hx & Hn). destruct (list_reverse_ok h p cs Hl) as (p' & h' & E & Hl' & He). exists p', h'. split; [done|].
  split_and!; [done| |].
  - apply map_subseteq_spec. intros a c Ha. rewrite He; [by eapply lookup_weaken|]. intros Hin. apply Hn in Hin. congruence.
  - intros a. rewrite fmap_rev_rev, <- Permutation_rev. apply Hn.
Qed.

Section allocated.
Context `{Allocator}.

Lemma new_list_append h0 h head cs x :
  new_list h0 h head cs → ∃ p h', list_append x head h = Ok p h' ∧ new_list h0 h' p ((p, x) :: cs) ∧ h' !! p = Some (mk_link head x) ∧ extends h h'.
Proof.
  intros ((Hnd & Hc) & Hx & Hnew). destruct (malloc_fresh h) as [Hn Hf]. set (p := malloc h) in *. exists p, (<[p := mk_link head x]> h).
  assert (extends h (<[p := mk_link head x]> h)) as He by (by apply insert_subseteq).
  split_and!; [done| |apply lookup_insert_eq|done]. split_and!; [|by etrans|].
  - split.
    + simpl. apply NoDup_cons. split; [|done]. intros Hp. destruct (chain_alloc h head cs p Hc Hp). congruence.
    + split_and!; [done|done|]. exists head. split; [apply lookup_insert_eq|by eapply chain_mono].
  - intros b [->|Hb]%elem_of_cons; [|by apply Hnew]. destruct (h0 !! p) eqn:E0; [|done]. eapply lookup_weaken in E0; [|done]. congruence.
Qed.

(** The loop of [list_map]: [cs] is left, [rs] is the new list. *)
Lemma list_map_loop h0 f n h l new cs rs :
  chain h l cs → new_list h0 h new rs → (length cs < n)%nat →
  ∃ p h' rs', iterM n (map_body f) (l, new) h = Ok p h' ∧ new_list h0 h' p rs' ∧ rs'.*2 = rev (f <$> cs.*2) ++ rs.*2.
Proof.
  revert h l new cs rs. induction n as [|n IH]; intros h l new cs rs Hc Hr Hn; [lia|].
  destruct cs as [|[a v] cs]; simpl in Hc.
  - exists new, h, rs. split; [|done]. subst l. by apply iterM_inr.
  - destruct Hc as (-> & Ha & m & Hm & Hc). destruct (new_list_append h0 h new rs (f v) Hr) as (p & h1 & Ea & Hr1 & _ & Hx1).
    assert (map_body f (a, new) h = Ok (inl (m, p)) h1) as E1.
    { unfold map_body. rewrite (proj2 (Z.eqb_neq a NULL)) by done. unfold load, mbind, M_bind. rewrite Hm. cbn [value next]. by rewrite Ea. }
    destruct (IH h1 m p cs ((p, f v) :: rs)) as (p' & h' & rs' & E & Hl & Ev); [by eapply chain_mono|done|simpl in Hn; lia|].
    exists p', h', rs'. rewrite (iterM_inl _ _ _ _ _ _ E1). split_and!; [done|done|]. rewrite Ev. simpl. by rewrite <- app_assoc.
Qed.

Lemma list_map_ok h p f cs :
  list_at h p cs → ∃ p' h' cs', list_map p f h = Ok p' h' ∧ new_list h h' p' cs' ∧ cs'.*2 = f <$> cs.*2.
Proof.
  intros [Hnd Hc]. assert (new_list h h NULL []) as Hnil by (split_and!; [split; [constructor|done]|done|by intros ? ?%not_elem_of_nil]).
  destruct (list_map_loop h f (S (size h)) h p NULL cs [] Hc Hnil) as (q & h1 & rs & E & Hl & Ev).
  { pose proof (chain_size h p cs Hc Hnd). lia. }
  destruct (new_list_reverse h h1 q rs Hl) as (p' & h' & E' & Hl'). exists p', h', (rev rs). split_and!; [|done|].
  - unfold list_map. unfold mbind, M_bind, loop. by rewrite E.
  - by rewrite fmap_rev_rev, Ev, app_nil_r, rev_involutive.
Qed.

(** The Fibonacci numbers, as 32-bit integers. *)
Fixpoint fib_pair (n : nat) : Z * Z :=
  match n with O => (1, 1) | S n => let '(a, b) := fib_pair n in (b, i32 (b + a)) end.
Definition fib (n : nat) : Z := fst (fib_pair n).
Lemma fib_step n : fib (S (S n)) = i32 (fib (S n) + fib n).
Proof. unfold fib. simpl. by destruct (fib_pair n). Qed.

Lemma fib_loop_ok h0 n k h head cs :
  new_list h0 h head cs → cs.*2 = rev (fib <$> seq 0 (S (S k))) →
  ∃ p h' cs', fib_loop n head (fib k) (fib (S k)) h = Ok p h' ∧ new_list h0 h' p cs' ∧ cs'.*2 = rev (fib <$> seq 0 (n + S (S k))).
Proof.
  revert k h head cs. induction n as [|n IH]; intros k h head cs Hl Ev; [by exists head, h, cs|]. cbn [fib_loop].
  destruct (new_list_append h0 h head cs (i32 (fib (S k) + fib k)) Hl) as (p & h1 & Ea & Hl1 & Hm & _).
  rewrite (bind_ok _ _ _ _ _ Ea).
  assert (load p h1 = Ok (mk_link head (i32 (fib (S k) + fib k))) h1) as El by (unfold load; by rewrite Hm).
  rewrite (bind_ok _ _ _ _ _ El). simpl value. rewrite <- fib_step.
  destruct (IH (S k) h1 p ((p, fib (S (S k))) :: cs)) as (p' & h' & cs' & E & Hl' & Ev').
  - by rewrite fib_step.
  - simpl snd. rewrite fmap_cons, Ev. rewrite (seq_S (S (S k))), fmap_app, rev_app_distr. done.
  - exists p', h', cs'. split_and!; [done|done|]. rewrite Ev'. do 3 f_equal. lia.
Qed.

Lemma fibonacci_ok n h :
  ∃ p h' cs, fibonacci n h = Ok p h' ∧ new_list h h' p cs ∧ cs.*2 = fib <$> seq 0 (Z.to_nat n).
Proof.
  assert (new_list h h NULL []) as Hnil by (split_and!; [split; [constructor|done]|done|by intros ? ?%not_elem_of_nil]).
  assert (∃ p h1 cs, new_list h h1 p cs ∧ cs.*2 = rev (fib <$> seq 0 (Z.to_nat n)) ∧ fibonacci n h = list_reverse p h1) as (p & h1 & cs & Hl & Ev & ->).
  { unfold fibonacci. destruct (Z.ltb_spec 0 n) as [Hn|Hn].
    2:{ rewrite bind_mret, (proj2 (Z.ltb_ge 1 n)), bind_mret by lia. exists NULL, h, []. replace (Z.to_nat (n - 2)) with 0%nat by lia. by replace (Z.to_nat n) with 0%nat by lia. }
    destruct (new_list_append h h NULL [] 1 Hnil) as (p & h1 & E & Hl & _). rewrite (bind_ok _ _ _ _ _ E).
    destruct (Z.ltb_spec 1 n) as [Hn'|Hn'].
    2:{ rewrite bind_mret. exists p, h1, [(p, 1)]. replace (Z.to_nat (n - 2)) with 0%nat by lia. by replace (Z.to_nat n) with 1%nat by lia. }
    destruct (new_list_append h h1 p [(p, 1)] 1 Hl) as (p2 & h2 & E2 & Hl2 & _). rewrite (bind_ok _ _ _ _ _ E2).
    destruct (fib_loop_ok h (Z.to_nat (n - 2)) 0 h2 p2 [(p2, 1); (p, 1)] Hl2 eq_refl) as (p3 & h3 & cs & E3 & Hl3 & Ev3).
    exists p3, h3, cs. rewrite (bind_ok _ _ _ _ _ E3). split_and!; [done| |done]. rewrite Ev3. do 3 f_equal. lia. }
  destruct (new_list_reverse h h1 p cs Hl) as (p' & h' & E' & Hl'). exists p', h', (rev cs).
  split_and!; [done|done|]. by rewrite fmap_rev_rev, Ev, rev_involutive.
Qed.
End allocated.

(** * Properties *)

(** [list_reverse] reverses a list in place: it uses the cells of the list and no others, whose values stay
    with them, and it ends. *)
Theorem list_reverse_correct (h : heap) (p : Z) (cs : list (Z * Z)) :
  list_at h p cs →
  ∃ p' h', list_reverse p h = Ok p' h' ∧ list_at h' p' (rev cs) ∧ ∀ a, a ∉ cs.*1 → h' !! a = h !! a.
Proof. apply list_reverse_ok. Qed.

(** [malloc] for the examples: the first address after all that are in use. *)
#[global] Instance bump : Allocator.
Proof.
  refine {| malloc h := Z.succ (Z.max 0 (set_fold Z.max 0 (dom h))) |}. intros h. unfold NULL. split; [lia|].
  apply not_elem_of_dom. intros Hin.
  assert (∀ (X : gset Z) a, a ∈ X → a ≤ set_fold Z.max 0 X) as Hmax.
  { intros X. apply (set_fold_ind_L (λ r (X : gset Z), ∀ a, a ∈ X → a ≤ r)); [set_solver|].
    intros x X' r Hx IH a [->%elem_of_singleton|Ha]%elem_of_union; [lia|]. specialize (IH a Ha). lia. }
  apply Hmax in Hin. lia.
Defined.

Definition demo_heap : heap := <[8 := mk_link 24 1]> (<[24 := mk_link 16 2]> (<[16 := mk_link 0 3]> ∅)).
Lemma list_reverse_correct_witness :
  list_at demo_heap 8 [(8, 1); (24, 2); (16, 3)]
  ∧ ∃ p' h', list_reverse 8 demo_heap = Ok p' h' ∧ list_at h' p' [(16, 3); (24, 2); (8, 1)] ∧ ∀ a, a ∉ [8; 24; 16] → h' !! a = demo_heap !! a.
Proof.
  assert (list_at demo_heap 8 [(8, 1); (24, 2); (16, 3)]) as Hl.
  { split; [apply (bool_decide_eq_true_1 (NoDup [8; 24; 16])); by vm_compute|]. simpl. split_and!; [done|done|].
    exists 24. split; [by vm_compute|]. split_and!; [done|done|]. exists 16. split; [by vm_compute|]. split_and!; [done|done|].
    exists 0. split; [by vm_compute|done]. }
  split; [exact Hl|]. exact (list_reverse_correct demo_heap 8 [(8, 1); (24, 2); (16, 3)] Hl).
Defined.

(** [fibonacci] makes a list of the first [n] Fibonacci numbers, and [list_map] makes a list of the images of
    its values, in order; both use new cells only and leave every cell there was as it is. *)
Theorem fibonacci_map_correct `{Allocator} (n : Z) (f : Z → Z) (h : heap) :
  ∃ p h1 cs p' h2 cs', fibonacci n h = Ok p h1 ∧ list_map p f h1 = Ok p' h2
  ∧ list_at h2 p cs ∧ cs.*2 = fib <$> seq 0 (Z.to_nat n) ∧ list_at h2 p' cs' ∧ cs'.*2 = f <$> cs.*2 ∧ extends h h2.
Proof.
  destruct (fibonacci_ok n h) as (p & h1 & cs & E & (Hl & Hx & _) & Ev).
  destruct (list_map_ok h1 p f cs Hl) as (p' & h2 & cs' & E' & (Hl' & Hx' & _) & Ev').
  exists p, h1, cs, p', h2, cs'. split_and!; try done; [|by etrans]. destruct Hl as [Hnd Hc]. split; [done|by eapply chain_mono].
Qed.

(** [list_free] frees every cell and then the first one again. *)
Theorem list_free_twice : list_free 8 demo_heap = Panic "free: invalid pointer" ∧ list_free NULL demo_heap = Ok tt demo_heap.
Proof. split; by vm_compute. Qed.
