(* ===== verification/Arrays.v ===== *)
(** Small programs on arrays from the labs: [lab1Revision/buffer.c] and [vector.c], [lab1Revision/numSort.c]
    and [lab8Distributed/sort.c].

    An array is the list of its elements; an access out of bounds is undefined in C, and the theorems
    show that there is none.  Floating point numbers and their operations are parameters. *)
From S2P Require Export Prelude.

(** * Loops *)

(** [for (i = 0; i < n; ++i) x = body(i, x)] *)
Definition for_loop {X} (n : nat) (body : nat → X → X) (x : X) : X := foldl (λ x i, body i x) x (seq 0 n).

Lemma for_loop_S {X} n (body : nat → X → X) x : for_loop (S n) body x = body n (for_loop n body x).
Proof. unfold for_loop. by rewrite seq_S, foldl_app. Qed.

(** * buffer.c *)
Record Buffer := mk_Buffer { b_data : list Z; b_size : nat }.

(** [memset] from the beginning of an array. *)
Definition fill (c : Z) (n : nat) (l : list Z) : list Z := replicate n c ++ drop n l.

(** [junk] is what the new memory holds. *)
Definition copyBuffer (junk : list Z) (buffer : Buffer) : Buffer :=
  let size := b_size buffer in
  mk_Buffer (for_loop size (λ i data, fill (b_data buffer !!! (size - i - 1)%nat) (size - i) data) junk) size.

Lemma copy_loop (data junk : list Z) size k :
  length data = size → length junk = size → (k ≤ size)%nat →
  let r := for_loop k (λ i l, fill (data !!! (size - i - 1)%nat) (size - i) l) junk in
  length r = size ∧ drop (size - k) r = drop (size - k) data.
Proof.
  intros Hd Hj. induction k as [|k IH]; intros Hk; cbv zeta.
  - rewrite Nat.sub_0_r. unfold for_loop. simpl. split; [done|]. by rewrite !drop_ge by lia.
  - rewrite for_loop_S. destruct IH as [Hl Hs]; [lia|]. cbv zeta in Hs, Hl. set (r := for_loop k _ junk) in *. unfold fill.
    rewrite length_app, length_replicate, length_drop. split; [lia|].
    destruct (lookup_lt_is_Some_2 data (size - k - 1)) as [x Hx]; [lia|]. rewrite (list_lookup_total_correct _ _ x) by done.
    replace (size - S k)%nat with (size - k - 1)%nat by lia.
    rewrite drop_app_le by (rewrite length_replicate; lia). rewrite Hs, drop_replicate.
    replace (size - k - (size - k - 1))%nat with 1%nat by lia. rewrite (drop_S data x (size - k - 1)) by done. simpl.
    by replace (S (size - k - 1)) with (size - k)%nat by lia.
Qed.

(** * vector.c *)
Section vector.
Context {F : Type} (zero : F) (add : F → F → F) `{Inhabited F}.

Record Vector := mk_Vector { v_data : list F; v_size : nat }.
Definition newVector (n : nat) : Vector := mk_Vector (replicate n zero) n.
Definition newFrom (data : list F) (n : nat) : Vector :=
  let v := newVector n in
  mk_Vector (for_loop n (λ i d, <[i := data !!! i]> d) (v_data v)) (v_size v).
(** [None] when the assertion fails. *)
Definition addVectors (v1 v2 : Vector) : option Vector :=
  if (v_size v1 =? v_size v2)%nat then
    let result := newVector (v_size v1) in
    Some (mk_Vector (for_loop (v_size v1) (λ i d, <[i := add (v_data v1 !!! i) (v_data v2 !!! i)]> d) (v_data result)) (v_size result))
  else None.
End vector.

(** * numSort.c *)
(** [compare] of [numSort.c], on the integers it is given the addresses of. *)
Definition compare_int (a b : Z) : Z := if a <? b then -1 else if b <? a then 1 else 0.

(** [qsort] of the C library, and what the code relies on. *)
Class Qsort (A : Type) (compare : A → A → Z) := {
  qsort : list A → list A;
  qsort_perm l : qsort l ≡ₚ l;
  qsort_sorted l : Sorted (λ x y, compare x y ≤ 0) (qsort l) }.
Definition sort_ints `{Qsort Z compare_int} (arr : list Z) : list Z := qsort arr.

(** * sort.c *)
Section sort.
Context {A : Type} (lt : A → A → bool) `{Inhabited A}.

(** [compare] of [sort.c]. *)
Definition compare_float (x y : A) : Z := if lt x y then -1 else if lt y x then 1 else 0.

(** The first loop of [merge], and the loop that copies what is left of an array. *)
Fixpoint merge_loop (fuel : nat) (a : list A) (n1 : nat) (b : list A) (n2 : nat) (i j n : nat) (arr : list A) : nat * nat * nat * list A :=
  match fuel with
  | O => (i, j, n, arr)
  | S fuel =>
      if (i <? n1)%nat && (j <? n2)%nat then
        if lt (a !!! i) (b !!! j) then merge_loop fuel a n1 b n2 (S i) j (S n) (<[n := a !!! i]> arr)
        else merge_loop fuel a n1 b n2 i (S j) (S n) (<[n := b !!! j]> arr)
      else (i, j, n, arr)
  end.
Fixpoint copy_rest (fuel : nat) (a : list A) (n1 i n : nat) (arr : list A) : nat * list A :=
  match fuel with
  | O => (n, arr)
  | S fuel => if (i <? n1)%nat then copy_rest fuel a n1 (S i) (S n) (<[n := a !!! i]> arr) else (n, arr)
  end.
Definition merge (a : list A) (n1 : nat) (b : list A) (n2 : nat) (arr : list A) : list A :=
  let '(i, j, n, arr) := merge_loop (n1 + n2) a n1 b n2 0 0 0 arr in
  let '(n, arr) := copy_rest n1 a n1 i n arr in
  snd (copy_rest n2 b n2 j n arr).
Definition mergeAlloc (junk : list A) (a : list A) (n1 : nat) (b : list A) (n2 : nat) : list A := merge a n1 b n2 junk.

(** [values[i] > values[i + 1]] *)
Fixpoint checkSorted_loop (fuel i : nat) (values : list A) (n : nat) : Z :=
  match fuel with
  | O => 1
  | S fuel => if (S i <? n)%nat then if lt (values !!! S i) (values !!! i) then 0 else checkSorted_loop fuel (S i) values n else 1
  end.
Definition checkSorted (values : list A) (n : nat) : Z := checkSorted_loop n 0 values n.

(** What [merge] computes, on lists. *)
Fixpoint merged (l1 : list A) : list A → list A :=
  fix merged2 l2 :=
    match l1, l2 with
    | [], _ => l2
    | _, [] => l1
    | x :: l1', y :: l2' => if lt x y then x :: merged l1' l2 else y :: merged2 l2'
    end.
End sort.

Definition nextPower2_loop (n : Z) : nat → Z → Z :=
  fix go fuel x := match fuel with O => x | S fuel => if x <? n then go fuel (i32 (Z.shiftl x 1)) else x end.
(** 31 turns are enough: after 30 of them [x] is as large as it can be. *)
Definition nextPower2 (n : Z) : Z := nextPower2_loop n 31 1.

(** * Lemmas on merging *)
Section merge_lemmas.
Context {A : Type} (lt : A → A → bool) `{Inhabited A}.
Implicit Types a b arr : list A.

Lemma write_next n x arr l k :
  (n + S (length l) ≤ length arr)%nat → k = (n + S (length l))%nat →
  take (S n) (<[n := x]> arr) ++ l ++ drop k (<[n := x]> arr) = take n arr ++ (x :: l) ++ drop k arr.
Proof.
  intros Hn ->. rewrite drop_insert_lt by lia. rewrite (take_S_r _ _ x) by (apply list_lookup_insert_eq; lia).
  rewrite take_insert_ge by lia. by rewrite <- !app_assoc.
Qed.
Lemma drop_take_S a n1 i x : a !! i = Some x → (i < n1)%nat → drop i (take n1 a) = x :: drop (S i) (take n1 a).
Proof. intros Hx Hi. apply drop_S. rewrite lookup_take. by rewrite decide_True. Qed.

Lemma copy_rest_spec fuel a n1 i n arr :
  (i ≤ n1 ≤ length a)%nat → (n1 - i ≤ fuel)%nat → (n + (n1 - i) ≤ length arr)%nat →
  copy_rest fuel a n1 i n arr = ((n + (n1 - i))%nat, take n arr ++ drop i (take n1 a) ++ drop (n + (n1 - i)) arr).
Proof.
  revert i n arr. induction fuel as [|fuel IH]; intros i n arr Hi Hf Hn.
  - simpl. assert (i = n1) as -> by lia. rewrite Nat.sub_diag, Nat.add_0_r, (drop_ge (take n1 a)) by (rewrite length_take; lia).
    simpl. by rewrite take_drop.
  - cbn [copy_rest]. destruct (Nat.ltb_spec i n1) as [Hlt|Hge].
    + destruct (lookup_lt_is_Some_2 a i) as [x Hx]; [lia|]. rewrite (list_lookup_total_correct _ _ _ Hx).
      rewrite IH by (rewrite ?length_insert; lia). rewrite (drop_take_S a n1 i x) by done.
      f_equal; [lia|]. rewrite <- write_next.
      * do 2 f_equal. f_equal. lia.
      * rewrite length_drop, length_take. lia.
      * rewrite length_drop, length_take. lia.
    + assert (i = n1) as -> by lia. rewrite Nat.sub_diag, Nat.add_0_r, (drop_ge (take n1 a)) by (rewrite length_take; lia).
      simpl. by rewrite take_drop.
Qed.

Lemma merged_nil_l l : merged lt [] l = l.
Proof. by destruct l. Qed.
Lemma merged_nil_r l : merged lt l [] = l.
Proof. by destruct l. Qed.
Lemma merged_cons x l1 y l2 : merged lt (x :: l1) (y :: l2) = if lt x y then x :: merged lt l1 (y :: l2) else y :: merged lt (x :: l1) l2.
Proof. done. Qed.
Lemma merged_perm l1 l2 : merged lt l1 l2 ≡ₚ l1 ++ l2.
Proof.
  revert l2. induction l1 as [|x l1 IH1]; [intros; by rewrite merged_nil_l|]. induction l2 as [|y l2 IH2]; [by rewrite merged_nil_r, app_nil_r|].
  rewrite merged_cons. destruct (lt x y); [by rewrite IH1|]. rewrite IH2. by rewrite (Permutation_middle (x :: l1) l2 y).
Qed.
Lemma merged_length l1 l2 : length (merged lt l1 l2) = (length l1 + length l2)%nat.
Proof. by rewrite merged_perm, length_app. Qed.

(** The three loops together, from any point on. *)
Definition merge_rest (a : list A) (n1 : nat) (b : list A) (n2 : nat) (r : nat * nat * nat * list A) : list A :=
  let '(i, j, n, arr) := r in let '(n, arr) := copy_rest n1 a n1 i n arr in snd (copy_rest n2 b n2 j n arr).

Lemma merge_loop_spec fuel a n1 b n2 i j arr :
  (i ≤ n1 ≤ length a)%nat → (j ≤ n2 ≤ length b)%nat → ((n1 - i) + (n2 - j) ≤ fuel)%nat → (n1 + n2 ≤ length arr)%nat →
  merge_rest a n1 b n2 (merge_loop lt fuel a n1 b n2 i j (i + j) arr)
  = take (i + j) arr ++ merged lt (drop i (take n1 a)) (drop j (take n2 b)) ++ drop (n1 + n2) arr.
Proof.
  assert (∀ i j arr, (i ≤ n1 ≤ length a)%nat → (j ≤ n2 ≤ length b)%nat → (n1 + n2 ≤ length arr)%nat → (i = n1 ∨ j = n2)%nat →
    merge_rest a n1 b n2 (i, j, (i + j)%nat, arr) = take (i + j) arr ++ merged lt (drop i (take n1 a)) (drop j (take n2 b)) ++ drop (n1 + n2) arr) as Hend.
  { clear i j arr. intros i j arr Hi Hj Hn Hd. unfold merge_rest. rewrite copy_rest_spec by lia.
    assert (length (drop i (take n1 a)) = (n1 - i)%nat) as Ea by (rewrite length_drop, length_take; lia).
    rewrite copy_rest_spec; [|lia|lia|rewrite !length_app, Ea, length_take, length_drop; lia]. simpl.
    rewrite (app_assoc (take (i + j) arr)). assert (length (take (i + j) arr ++ drop i (take n1 a)) = (i + j + (n1 - i))%nat) as El.
    { rewrite length_app, length_take, Ea. lia. }
    rewrite take_app_le, take_ge by lia. rewrite drop_app_ge, El, drop_drop by lia. rewrite <- app_assoc. f_equal.
    rewrite app_assoc. f_equal; [|f_equal; lia].
    destruct Hd as [->| ->]; [rewrite (drop_ge (take n1 a)), merged_nil_l by (rewrite length_take; lia)|rewrite (drop_ge (take n2 b)), merged_nil_r, app_nil_r by (rewrite length_take; lia)]; done. }
  revert i j arr. induction fuel as [|fuel IH]; intros i j arr Hi Hj Hf Hn; cbn [merge_loop]; [apply Hend; lia|].
  destruct (Nat.ltb_spec i n1) as [Hi'|]; [|apply Hend; lia]. destruct (Nat.ltb_spec j n2) as [Hj'|]; [|apply Hend; lia].
  destruct (lookup_lt_is_Some_2 a i) as [x Hx]; [lia|]. destruct (lookup_lt_is_Some_2 b j) as [y Hy]; [lia|].
  rewrite (list_lookup_total_correct _ _ _ Hx), (list_lookup_total_correct _ _ _ Hy), (drop_take_S a n1 i x), (drop_take_S b n2 j y), merged_cons by done.
  cbn [andb]. destruct (lt x y).
  - replace (S (i + j)) with (S i + j)%nat by lia. rewrite IH by (rewrite ?length_insert; lia). rewrite (drop_take_S b n2 j y) by done.
    change (S i + j)%nat with (S (i + j)). apply write_next; rewrite merged_length; simpl; rewrite !length_drop, !length_take; lia.
  - replace (S (i + j)) with (i + S j)%nat by lia. rewrite IH by (rewrite ?length_insert; lia). rewrite (drop_take_S a n1 i x) by done.
    replace (i + S j)%nat with (S (i + j)) by lia. apply write_next; rewrite merged_length; simpl; rewrite !length_drop, !length_take; lia.
Qed.

Lemma merge_spec a n1 b n2 arr :
  (n1 ≤ length a)%nat → (n2 ≤ length b)%nat → (n1 + n2 ≤ length arr)%nat →
  merge lt a n1 b n2 arr = merged lt (take n1 a) (take n2 b) ++ drop (n1 + n2) arr.
Proof.
  intros Ha Hb Hn. pose proof (merge_loop_spec (n1 + n2) a n1 b n2 0 0 arr) as Hs. simpl in Hs. rewrite !drop_0 in Hs.
  rewrite <- Hs by lia. unfold merge, merge_rest. by destruct (merge_loop _ _ _ _ _ _ _ _ _ _) as [[[??]?]?].
Qed.

(** Numbers that are in order: no later one is smaller. *)
Definition ordered (l : list A) : Prop := Sorted (λ x y, lt y x = false) l.
Context (lt_asym : ∀ x y, lt x y = true → lt y x = false).

Lemma merged_ordered l1 l2 : ordered l1 → ordered l2 → ordered (merged lt l1 l2).
Proof.
  unfold ordered. revert l2. induction l1 as [|x l1 IH1]; [intros; by rewrite merged_nil_l|].
  induction l2 as [|y l2 IH2]; [by rewrite merged_nil_r|]. intros H1 H2. rewrite merged_cons.
  pose proof H1 as [H1' Hx]%Sorted_inv. pose proof H2 as [H2' Hy]%Sorted_inv. destruct (lt x y) eqn:E.
  - constructor; [by apply IH1|]. destruct l1 as [|x' l1]; [rewrite merged_nil_l; constructor; by apply lt_asym|].
    rewrite merged_cons. apply HdRel_inv in Hx. destruct (lt x' y); constructor; [done|by apply lt_asym].
  - constructor; [by apply IH2|]. destruct l2 as [|y' l2]; [rewrite merged_nil_r; by constructor|].
    rewrite merged_cons. apply HdRel_inv in Hy. by destruct (lt x y'); constructor.
Qed.
End merge_lemmas.

Lemma nextPower2_loop_spec n k fuel :
  n ≤ 2 ^ 30 → 0 ≤ k ≤ 30 → (k = 0 ∨ 2 ^ (k - 1) < n) → 30 - k < Z.of_nat fuel →
  ∃ k', 0 ≤ k' ≤ 30 ∧ nextPower2_loop n fuel (2 ^ k) = 2 ^ k' ∧ n ≤ 2 ^ k' ∧ (k' = 0 ∨ 2 ^ (k' - 1) < n).
Proof.
  intros Hn. revert k. induction fuel as [|fuel IH]; intros k Hk Hlow Hf; [lia|]. cbn [nextPower2_loop].
  destruct (Z.ltb_spec (2 ^ k) n) as [Hlt|Hge]; [|by exists k].
  assert (k < 30) as Hk30. { destruct (decide (k = 30)) as [->|]; [|lia]. lia. }
  assert (i32 (Z.shiftl (2 ^ k) 1) = 2 ^ (k + 1)) as ->.
  { rewrite Z.shiftl_mul_pow2, <- Z.pow_add_r by lia. pose proof (Z.pow_pos_nonneg 2 (k + 1)). pose proof (Z.pow_le_mono_r 2 (k + 1) 30).
    unfold i32. rewrite Z.mod_small; lia. }
  apply IH; [lia|right|lia]. by replace (k + 1 - 1) with k by lia.
Qed.

Lemma checkSorted_loop_spec {A} (lt : A → A → bool) `{Inhabited A} fuel i values n :
  (n ≤ length values)%nat → ordered lt (drop i (take n values)) → checkSorted_loop lt fuel i values n = 1.
Proof.
  revert i. induction fuel as [|fuel IH]; intros i Hn Ho; [done|]. cbn [checkSorted_loop].
  destruct (Nat.ltb_spec (S i) n) as [Hlt|]; [|done].
  destruct (lookup_lt_is_Some_2 values i) as [x Hx]; [lia|]. destruct (lookup_lt_is_Some_2 values (S i)) as [y Hy]; [lia|].
  rewrite (list_lookup_total_correct _ _ _ Hx), (list_lookup_total_correct _ _ _ Hy).
  rewrite (drop_take_S values n i x) in Ho by (done || lia). apply Sorted_inv in Ho as [Ho Hh].
  rewrite (drop_take_S values n (S i) y) in Hh by done. apply HdRel_inv in Hh as ->. by apply IH.
Qed.

(** * Properties *)

(** [copyBuffer] copies: its loop fills ever shorter beginnings of the new memory, and in the end every byte
    is that of the original, null characters too. *)
Theorem copyBuffer_correct (junk : list Z) (buffer : Buffer) :
  length (b_data buffer) = b_size buffer → length junk = b_size buffer → copyBuffer junk buffer = buffer.
Proof.
  intros Hd Hj. destruct buffer as [data size]. simpl in *. unfold copyBuffer. simpl.
  destruct (copy_loop data junk size size Hd Hj) as [_ Hs]; [done|]. rewrite Nat.sub_diag, !drop_0 in Hs. by rewrite Hs.
Qed.
Lemma copyBuffer_correct_witness :
  copyBuffer [9; 9; 9] (mk_Buffer [104; 0; 105] 3) = mk_Buffer [104; 0; 105] 3.
Proof. by apply copyBuffer_correct. Defined.

(** [merge] puts two sorted arrays together into one that is sorted and has exactly their elements, writes
    nothing behind it, and its result passes [checkSorted]. *)
Theorem merge_correct {A} (lt : A → A → bool) `{Inhabited A} (a b arr : list A) (n1 n2 : nat) :
  (∀ x y, lt x y = true → lt y x = false) → (n1 ≤ length a)%nat → (n2 ≤ length b)%nat → (n1 + n2 ≤ length arr)%nat →
  ordered lt (take n1 a) → ordered lt (take n2 b) →
  let r := merge lt a n1 b n2 arr in
  ordered lt (take (n1 + n2) r) ∧ take (n1 + n2) r ≡ₚ take n1 a ++ take n2 b ∧ drop (n1 + n2) r = drop (n1 + n2) arr
  ∧ length r = length arr ∧ checkSorted lt r (n1 + n2) = 1.
Proof.
  intros Hlt Ha Hb Hn Ho1 Ho2 r. unfold r. rewrite merge_spec by done. set (l := merged lt (take n1 a) (take n2 b)).
  assert (length l = (n1 + n2)%nat) as Hl by (unfold l; rewrite merged_length, !length_take; lia).
  assert (ordered lt l) as Ho by (by apply merged_ordered).
  rewrite take_app_le, take_ge, drop_app_ge, Hl, Nat.sub_diag, drop_0 by lia. split_and!.
  - done.
  - apply merged_perm.
  - done.
  - rewrite length_app, length_drop, Hl. lia.
  - unfold checkSorted. apply checkSorted_loop_spec; [rewrite length_app; lia|]. by rewrite drop_0, take_app_le, take_ge by lia.
Qed.
Lemma merge_correct_witness :
  take 5 (merge Z.ltb [1; 4; 6] 3 [2; 4] 2 (replicate 7 0)) ≡ₚ [1; 4; 6; 2; 4] ∧ checkSorted Z.ltb (merge Z.ltb [1; 4; 6] 3 [2; 4] 2 (replicate 7 0)) 5 = 1.
Proof.
  destruct (merge_correct Z.ltb [1; 4; 6] [2; 4] (replicate 7 0) 3 2) as (_ & Hp & _ & _ & Hc).
  - intros x y. rewrite Z.ltb_lt, Z.ltb_ge. lia.
  - simpl; lia.
  - simpl; lia.
  - simpl; lia.
  - repeat constructor.
  - repeat constructor.
  - by split.
Defined.

(** [nextPower2] finds the least power of two that is not less than its argument, and ends, for every
    argument up to 2^30 (beyond that the product overflows). *)
Theorem nextPower2_correct (n : Z) :
  n ≤ 1073741824 → ∃ k, 0 ≤ k ≤ 30 ∧ nextPower2 n = 2 ^ k ∧ n ≤ 2 ^ k ∧ (k = 0 ∨ 2 ^ (k - 1) < n).
Proof. intros Hn. apply (nextPower2_loop_spec n 0 31); [done|lia|by left|simpl; lia]. Qed.
Lemma nextPower2_correct_witness : ∃ k, 0 ≤ k ≤ 30 ∧ nextPower2 5 = 2 ^ k ∧ 5 ≤ 2 ^ k ∧ (k = 0 ∨ 2 ^ (k - 1) < 5).
Proof. apply nextPower2_correct. lia. Defined.
