(* ===== verification/Matrix.v ===== *)
(** Square matrices of doubles in row-major arrays: [lab5Cache/matrix.c] and the finished part of
    [matrixMul.c].  Double-precision arithmetic is a parameter: a type with zero, addition and multiplication
    and a test for two numbers that differ by more than the tolerance. *)
From S2P Require Export Arrays.
From S2P Require Import Prelude.

Class Double (F : Type) := {
  dzero : F;
  dadd : F → F → F;
  dmul : F → F → F;
  (** [fabs(x - y) > 1e-6] *)
  differs : F → F → bool }.

Section matrix.
Context {F : Type} `{Double F, Inhabited F}.

(** Two nested loops over rows and columns. *)
Definition for_cells (n : nat) (body : nat → nat → list F → list F) (res : list F) : list F :=
  for_loop n (λ i, for_loop n (body i)) res.

Definition matrixTranspose (res a : list F) (n : nat) : list F :=
  for_cells n (λ i j res, <[(i * n + j)%nat := a !!! (j * n + i)%nat]> res) res.
Definition zeroMatrix (m : list F) (n : nat) : list F := replicate (n * n) dzero ++ drop (n * n) m.

(** The inner loop of [matrixMulBasic], over [k]. *)
Definition dot (a b : list F) (n i j : nat) : F :=
  for_loop n (λ k r, dadd r (dmul (a !!! (i * n + k)%nat) (b !!! (k * n + j)%nat))) dzero.
Definition matrixMulBasic (res a b : list F) (n : nat) : list F :=
  for_cells n (λ i j res, <[(i * n + j)%nat := dot a b n i j]> res) res.

(** The product is still to be written: [res] stays as it is. *)
Definition matrixMulTransposed (junk res a b : list F) (n : nat) : list F :=
  let bt := matrixTranspose junk b n in res.
(** The blocked product: the result is cleared, and the inner loops are still to be written. *)
Definition matrixMulBlocked (res a b : list F) (n block : nat) : list F := zeroMatrix res n.

(** The loops stop at the first cell that differs. *)
Definition compareMatrix (a b : list F) (n : nat) : Z :=
  if existsb (λ i, existsb (λ j, differs (a !!! (i * n + j)%nat) (b !!! (i * n + j)%nat)) (seq 0 n)) (seq 0 n) then 0 else 1.

(** * Lemmas *)

(** Loops that write a cell each: cell [(i, j)] gets [f i j]. *)
Lemma row_loop (f : nat → F) (n base m : nat) (res : list F) :
  (base + m ≤ length res)%nat →
  let r := for_loop m (λ j res, <[(base + j)%nat := f j]> res) res in
  length r = length res ∧ ∀ k, r !! k = if decide (base ≤ k < base + m)%nat then Some (f (k - base)%nat) else res !! k.
Proof.
  induction m as [|m IH]; intros Hm; cbv zeta.
  - unfold for_loop. simpl. split; [done|]. intros k. by rewrite decide_False by lia.
  - rewrite for_loop_S. destruct IH as [Hl Hk]; [lia|]. cbv zeta in Hl, Hk. set (r := for_loop m _ res) in *.
    split; [by rewrite length_insert|]. intros k. destruct (decide (k = base + m)%nat) as [->|Hne].
    + rewrite list_lookup_insert_eq by lia. rewrite decide_True by lia. do 2 f_equal. lia.
    + rewrite list_lookup_insert_ne by done. rewrite Hk. repeat case_decide; lia || done.
Qed.

Lemma for_cells_spec (f : nat → nat → F) (n : nat) (res : list F) :
  (n * n ≤ length res)%nat →
  let r := for_cells n (λ i j res, <[(i * n + j)%nat := f i j]> res) res in
  length r = length res ∧ (∀ i j, (i < n)%nat → (j < n)%nat → r !! (i * n + j)%nat = Some (f i j)) ∧ drop (n * n) r = drop (n * n) res.
Proof.
  intros Hn. unfold for_cells.
  assert (∀ m, (m ≤ n)%nat → let r := for_loop m (λ i, for_loop n (λ j res, <[(i * n + j)%nat := f i j]> res)) res in
    length r = length res ∧ (∀ i j, (i < m)%nat → (j < n)%nat → r !! (i * n + j)%nat = Some (f i j)) ∧ ∀ k, (m * n ≤ k)%nat → r !! k = res !! k) as Hm.
  { induction m as [|m IH]; intros Hmn; cbv zeta; [unfold for_loop; simpl; split_and!; [done|lia|done]|].
    rewrite for_loop_S. destruct IH as (Hl & Hc & Hk); [lia|]. cbv zeta in *. set (r := for_loop m _ res) in *.
    assert (S m * n ≤ n * n)%nat by (apply Nat.mul_le_mono_r; lia).
    destruct (row_loop (f m) n (m * n) n r) as [Hl' Hk']; [simpl in *; lia|]. cbv zeta in *. split_and!; [lia| |].
    - intros i j Hi Hj. rewrite Hk'. case_decide as Hd.
      + assert (i = m) as -> by (destruct (decide (i = m)); [done|]; assert (S i * n ≤ m * n)%nat by (apply Nat.mul_le_mono_r; lia); simpl in *; lia).
        do 2 f_equal. lia.
      + apply Hc; [|done]. destruct (decide (i = m)) as [->|]; [lia|lia].
    - intros k Hkk. rewrite Hk'. rewrite decide_False by (simpl in *; lia). apply Hk. simpl in *. lia. }
  destruct (Hm n) as (Hl & Hc & Hk); [done|]. cbv zeta in *. split_and!; [done|done|].
  apply list_eq. intros k. rewrite !lookup_drop. apply Hk. lia.
Qed.

Lemma matrixTranspose_at res a n i j :
  (n * n ≤ length res)%nat → (i < n)%nat → (j < n)%nat → matrixTranspose res a n !! (i * n + j)%nat = Some (a !!! (j * n + i)%nat).
Proof. intros Hn Hi Hj. by apply (for_cells_spec (λ i j, a !!! (j * n + i)%nat)). Qed.
Lemma matrixMulBasic_at res a b n i j :
  (n * n ≤ length res)%nat → (i < n)%nat → (j < n)%nat → matrixMulBasic res a b n !! (i * n + j)%nat = Some (dot a b n i j).
Proof. intros Hn Hi Hj. by apply (for_cells_spec (dot a b n)). Qed.

Lemma matrixTranspose_total res a n i j :
  (n * n ≤ length res)%nat → (i < n)%nat → (j < n)%nat → matrixTranspose res a n !!! (i * n + j)%nat = a !!! (j * n + i)%nat.
Proof. intros. by apply list_lookup_total_correct, matrixTranspose_at. Qed.
Lemma matrixMulBasic_total res a b n i j :
  (n * n ≤ length res)%nat → (i < n)%nat → (j < n)%nat → matrixMulBasic res a b n !!! (i * n + j)%nat = dot a b n i j.
Proof. intros. by apply list_lookup_total_correct, matrixMulBasic_at. Qed.

(** A position of the array is a cell. *)
Lemma cell_of n k : (k < n * n)%nat → ∃ i j, k = (i * n + j)%nat ∧ (i < n)%nat ∧ (j < n)%nat.
Proof.
  intros Hk. assert (n ≠ 0)%nat by (intros ->; lia). exists (k / n)%nat, (k mod n)%nat. split_and!.
  - rewrite Nat.mul_comm. by apply Nat.div_mod.
  - by apply Nat.Div0.div_lt_upper_bound.
  - by apply Nat.mod_upper_bound.
Qed.
Lemma matrix_eq (r r' : list F) n :
  length r = (n * n)%nat → length r' = (n * n)%nat → (∀ i j, (i < n)%nat → (j < n)%nat → r !! (i * n + j)%nat = r' !! (i * n + j)%nat) → r = r'.
Proof.
  intros Hl Hl' He. apply list_eq. intros k. destruct (decide (k < n * n)%nat) as [Hk|Hk].
  - destruct (cell_of n k Hk) as (i & j & -> & Hi & Hj). by apply He.
  - by rewrite !lookup_ge_None_2 by lia.
Qed.
Lemma for_loop_ext {X} n (f g : nat → X → X) x : (∀ i y, (i < n)%nat → f i y = g i y) → for_loop n f x = for_loop n g x.
Proof.
  intros He. induction n as [|n IH]; [done|]. rewrite !for_loop_S, IH; [|intros; apply He; lia]. apply He. lia.
Qed.
End matrix.

(** [matrixTranspose] undoes itself, and the product of two transposed matrices is the transposed product of the two in
    the other order, to the last bit: all that is needed of the arithmetic is that multiplication commutes. *)
Theorem transpose_product {F} `{Double F, Inhabited F} (a b r1 r2 r3 r4 r5 : list F) (n : nat) :
  (∀ x y : F, dmul x y = dmul y x) →
  length a = (n * n)%nat → length r1 = (n * n)%nat → length r2 = (n * n)%nat → length r3 = (n * n)%nat → length r4 = (n * n)%nat → length r5 = (n * n)%nat →
  matrixTranspose r2 (matrixTranspose r1 a n) n = a
  ∧ matrixMulBasic r3 (matrixTranspose r1 a n) (matrixTranspose r2 b n) n = matrixTranspose r5 (matrixMulBasic r4 b a n) n.
Proof.
  intros Hmul La L1 L2 L3 L4 L5.
  assert (∀ r a : list F, length r = (n * n)%nat → length (matrixTranspose r a n) = (n * n)%nat) as Lt.
  { intros r a' Hr. destruct (for_cells_spec (λ i j, a' !!! (j * n + i)%nat) n r ltac:(lia)) as [Hl _]. cbv zeta in Hl. unfold matrixTranspose. by rewrite Hl. }
  assert (∀ r a b : list F, length r = (n * n)%nat → length (matrixMulBasic r a b n) = (n * n)%nat) as Lm.
  { intros r a' b' Hr. destruct (for_cells_spec (dot a' b' n) n r ltac:(lia)) as [Hl _]. cbv zeta in Hl. unfold matrixMulBasic. by rewrite Hl. }
  split.
  - apply (matrix_eq _ _ n); [by apply Lt|done|]. intros i j Hi Hj. rewrite matrixTranspose_at by lia.
    rewrite matrixTranspose_total by lia.
    symmetry. apply list_lookup_lookup_total_lt. rewrite La. assert (S i * n ≤ n * n)%nat by (apply Nat.mul_le_mono_r; lia). simpl in *. lia.
  - apply (matrix_eq _ _ n); [by apply Lm|by apply Lt|]. intros i j Hi Hj. rewrite matrixMulBasic_at, matrixTranspose_at by lia.
    rewrite matrixMulBasic_total by lia. f_equal.
    unfold dot. apply for_loop_ext. intros k r Hk. f_equal.
    rewrite !matrixTranspose_total by lia. apply Hmul.
Qed.

(** Integers in the place of doubles. *)
#[local] Instance Z_double : Double Z := {| dzero := 0; dadd := Z.add; dmul := Z.mul; differs x y := negb (x =? y) |}.
Lemma transpose_product_witness :
  matrixMulBasic (replicate 4 0) (matrixTranspose (replicate 4 0) [1; 2; 3; 4] 2) (matrixTranspose (replicate 4 0) [5; 6; 7; 8] 2) 2
  = matrixTranspose (replicate 4 0) (matrixMulBasic (replicate 4 0) [5; 6; 7; 8] [1; 2; 3; 4] 2) 2.
Proof. apply (transpose_product [1; 2; 3; 4] [5; 6; 7; 8] _ (replicate 4 0)); [apply Z.mul_comm|done..]. Defined.
