(* ===== verification/Integrate.v ===== *)
(** Numerical integration, the assignment's programs: the functions and the trapezoid rule that
    [assignment/serial.c], [process.c], [thread.c] and [processThread.c] share, and the split of the range over
    [THREADS] threads of the last two.

    Arithmetic on doubles, and [exp], [sqrt] and [sin] of the C library, are parameters.  The split is proved
    right in exact arithmetic (a field); in IEEE doubles ([SpecFloat]) the code gives NaN for fewer steps than threads. *)
From S2P Require Export Arrays CString.
From Stdlib Require Import Field Floats.SpecFloat QArith Qcanon.
#[local] Close Scope Q_scope.
#[local] Open Scope Z_scope.

(** * The code *)

(** Arithmetic on doubles; [d_of] converts a [size_t]. *)
Class Floating (F : Type) := {
  d_of : nat → F; d_opp : F → F; d_add : F → F → F; d_sub : F → F → F; d_mul : F → F → F; d_div : F → F → F;
  d_lt : F → F → bool; d_le : F → F → bool
}.

(** [math.h]. *)
Class Libm (F : Type) := { exp : F → F; sqrt : F → F; sin : F → F; M_PI : F }.

(** [#define THREADS] of [thread.c] and of [processThread.c]. *)
Definition thread_THREADS : nat := 7.
Definition processThread_THREADS : nat := 4.

Section programs.
Context {F : Type} `{Floating F}.

(** [integrateTrap]. *)
Definition integrateTrap (func : F → F) (rangeStart rangeEnd : F) (numSteps : nat) : F :=
  let dx := d_div (d_sub rangeEnd rangeStart) (d_of numSteps) in
  let sum := for_loop numSteps (λ i sum,
    let smallx := d_add rangeStart (d_mul (d_of i) dx) in
    let bigx := d_add rangeStart (d_mul (d_of (i + 1)) dx) in
    d_add sum (d_div (d_add (func smallx) (func bigx)) (d_of 2))) (d_of 0) in
  d_mul sum dx.

(** The number of threads, 7 in [thread.c] and 4 in [processThread.c]. *)
Context (THREADS : nat).

(** [struct ThreadArgs_t]. *)
Record ThreadArgs := mk_ThreadArgs { a_func : F → F; a_start : F; a_end : F; a_steps : nat }.

(** [integrateTrap] of [thread.c] on its argument, and its update of [total]. *)
Definition thread_area (a : ThreadArgs) : F := integrateTrap (a_func a) (a_start a) (a_end a) (a_steps a).
Definition add_area (total : F) (a : ThreadArgs) : F := d_add total (thread_area a).

(** The loop of [main] that fills [threadArgs]; its state is [currentStart] and the arguments so far. *)
Definition split_body (func : F → F) (totalRange : F) (numSteps : nat) (i : nat) (st : F * list ThreadArgs)
    : F * list ThreadArgs :=
  let '(currentStart, args) := st in
  let baseSteps := (numSteps / THREADS)%nat in
  let remainderSteps := (numSteps mod THREADS)%nat in
  let steps := (baseSteps + (if (i <? remainderSteps)%nat then 1 else 0))%nat in
  let currentEnd := d_add currentStart (d_div (d_mul totalRange (d_of steps)) (d_of numSteps)) in
  (currentEnd, args ++ [mk_ThreadArgs func currentStart currentEnd steps]).
Definition threadArgs (func : F → F) (rangeStart rangeEnd : F) (numSteps : nat) : list ThreadArgs :=
  snd (for_loop THREADS (split_body func (d_sub rangeEnd rangeStart) numSteps) (rangeStart, [])).

(** [total] when every thread has been joined, the threads having taken [mutex] in [order]. *)
Definition threaded (func : F → F) (rangeStart rangeEnd : F) (numSteps : nat) (order : list nat) : F :=
  foldl (λ total i, match threadArgs func rangeStart rangeEnd numSteps !! i with
    | Some a => add_area total a | None => total end) (d_of 0) order.

End programs.

Section functions.
Context {F : Type} `{Floating F, Libm F}.
Definition gaussian (x : F) : F := d_div (exp (d_div (d_opp (d_mul x x)) (d_of 2))) (sqrt (d_mul (d_of 2) M_PI)).
Definition chargeDecay (x : F) : F :=
  if d_lt x (d_of 0) then d_of 0 else if d_lt x (d_of 1) then d_sub (d_of 1) (exp (d_mul (d_opp (d_of 5)) x))
  else exp (d_opp (d_sub x (d_of 1))).

(** [getValidInput]: what [scanf] read, with the number of its items. *)
Definition named_func (funcName : list Z) : option (F → F) :=
  if bool_decide (funcName = str "sin") then Some sin else if bool_decide (funcName = str "gauss") then Some gaussian
  else if bool_decide (funcName = str "decay") then Some chargeDecay else None.
Definition getValidInput (numRead : Z) (funcName : list Z) (start end_ : F) (numSteps : nat) : option (F → F) :=
  match named_func funcName with
  | Some func => if (numRead =? 4) && d_le start end_ && (0 <? numSteps)%nat then Some func else None
  | None => None
  end.
End functions.

(** * Exact arithmetic *)

(** A field in which the numbers of steps are distinct. *)
Class Exact (F : Type) `{Floating F} := {
  d_inv : F → F;
  exact_field : field_theory (d_of 0) (d_of 1) d_add d_mul d_sub d_opp d_div d_inv eq;
  d_of_S n : d_of (S n) = d_add (d_of n) (d_of 1);
  d_of_pos n : d_of (S n) ≠ d_of 0
}.

Section exact.
Context {F : Type} `{Exact F}.
#[local] Notation "0" := (d_of 0%nat).
#[local] Infix "+" := d_add.
#[local] Infix "*" := d_mul.
#[local] Infix "-" := d_sub.
#[local] Infix "/" := d_div.
Add Field exact : (exact_field (F := F)).

Lemma d_of_add n m : d_of (n + m)%nat = d_of n + d_of m.
Proof. induction m as [|m IH]; [rewrite Nat.add_0_r; ring|]. rewrite Nat.add_succ_r, (d_of_S (n + m)), (d_of_S m), IH. ring. Qed.

(** The sum of the trapezoids' mean heights over [n] steps of width [h] from [x]. *)
Definition heights (f : F → F) (x h : F) (n : nat) : F :=
  for_loop n (λ i sum, sum + (f (x + d_of i * h) + f (x + d_of (i + 1) * h)) / d_of 2) 0.

Lemma heights_S f x h n :
  heights f x h (S n) = heights f x h n + (f (x + d_of n * h) + f (x + d_of (n + 1) * h)) / d_of 2.
Proof. unfold heights. by rewrite for_loop_S. Qed.

Lemma heights_app f x h n m : heights f x h (n + m) = heights f x h n + heights f (x + d_of n * h) h m.
Proof.
  induction m as [|m IH]; [rewrite Nat.add_0_r; unfold heights at 3; cbn; ring|].
  rewrite Nat.add_succ_r, !heights_S, IH, (d_of_add m), <-Nat.add_assoc, !d_of_add.
  replace (x + d_of n * h + d_of m * h) with (x + (d_of n + d_of m) * h) by ring.
  replace (x + d_of n * h + (d_of m + d_of 1) * h) with (x + (d_of n + (d_of m + d_of 1)) * h) by ring. ring.
Qed.

Lemma foldl_same {A B} (g g' : A → B → A) l x : (∀ x i, i ∈ l → g x i = g' x i) → foldl g x l = foldl g' x l.
Proof.
  revert x. induction l as [|i l IH]; intros x E; cbn [foldl]; [done|].
  rewrite E by set_solver. apply IH. intros y j Hj. apply E. set_solver.
Qed.

Lemma foldl_sum_perm (g : nat → F) l l' x :
  l ≡ₚ l' → foldl (λ t i, t + g i) x l = foldl (λ t i, t + g i) x l'.
Proof.
  intros Hp. revert x. induction Hp as [|i l l' _ IH|i j l|l l' l2 _ IH1 _ IH2]; intros x; cbn [foldl]; auto.
  - f_equal. ring.
  - by rewrite IH1.
Qed.

Context (THREADS : nat).

(** The steps of thread [i], and of the threads before it. *)
Definition steps_of (N i : nat) : nat := N / THREADS + (if (i <? N mod THREADS)%nat then 1 else 0).
Definition steps_below (N i : nat) : nat := for_loop i (λ i k, (k + steps_of N i)%nat) 0%nat.

Lemma steps_below_S N i : steps_below N (S i) = (steps_below N i + steps_of N i)%nat.
Proof. unfold steps_below. by rewrite for_loop_S. Qed.

Lemma steps_below_eq N i : steps_below N i = (i * (N / THREADS) + Nat.min i (N mod THREADS))%nat.
Proof.
  induction i as [|i IH]; [done|]. rewrite steps_below_S, IH. unfold steps_of.
  destruct (Nat.ltb_spec i (N mod THREADS)); lia.
Qed.

Lemma steps_below_all N : (0 < THREADS)%nat → steps_below N THREADS = N.
Proof.
  intros HT. rewrite steps_below_eq. pose proof (Nat.mod_upper_bound N THREADS ltac:(lia)) as Hm.
  rewrite Nat.min_r by lia. symmetry. apply Nat.div_mod_eq.
Qed.

Section split.
Context (f : F → F) (a b : F) (N : nat) (HN : (0 < N)%nat).
Let h : F := (b - a) / d_of N.

Lemma d_of_ne n : (0 < n)%nat → d_of n ≠ 0.
Proof. intros Hn. destruct n as [|n]; [lia|]. apply d_of_pos. Qed.

(** The argument of thread [i] in exact arithmetic. *)
Definition exact_arg (i : nat) : ThreadArgs :=
  mk_ThreadArgs f (a + d_of (steps_below N i) * h) (a + d_of (steps_below N (S i)) * h) (steps_of N i).

Lemma split_exact n :
  for_loop n (split_body THREADS f (b - a) N) (a, []) = (a + d_of (steps_below N n) * h, exact_arg <$> seq 0 n).
Proof.
  pose proof (d_of_ne N HN) as HN0. induction n as [|n IH].
  - unfold for_loop, steps_below. cbn. f_equal. ring.
  - rewrite for_loop_S, IH. unfold split_body. fold (steps_of N n).
    replace (a + d_of (steps_below N n) * h + (b - a) * d_of (steps_of N n) / d_of N)
      with (a + d_of (steps_below N (S n)) * h) by (rewrite steps_below_S, d_of_add; unfold h; field; done).
    rewrite seq_S, fmap_app. done.
Qed.

Lemma exact_area i : thread_area (exact_arg i) = heights f (a + d_of (steps_below N i) * h) h (steps_of N i) * h.
Proof.
  unfold thread_area, integrateTrap. cbn [a_func a_start a_end a_steps exact_arg].
  destruct (decide (steps_of N i = 0%nat)) as [->|Hs]; [unfold heights, for_loop; cbn [seq foldl]; ring|].
  replace ((a + d_of (steps_below N (S i)) * h - (a + d_of (steps_below N i) * h)) / d_of (steps_of N i)) with h; [done|].
  rewrite steps_below_S, d_of_add. pose proof (d_of_ne N HN). pose proof (d_of_ne (steps_of N i) ltac:(lia)).
  unfold h. field. done.
Qed.

Lemma areas_below n :
  foldl (λ t i, t + thread_area (exact_arg i)) 0 (seq 0 n) = heights f a h (steps_below N n) * h.
Proof.
  induction n as [|n IH]; [unfold heights, steps_below, for_loop; cbn; ring|].
  rewrite seq_S, foldl_app, IH, steps_below_S, heights_app. cbn [foldl]. rewrite exact_area. cbn [plus]. ring.
Qed.
End split.

(** The areas of the threads, added in any order. *)
Lemma areas_any_order (f : F → F) a b N order : (0 < THREADS)%nat → (0 < N)%nat → order ≡ₚ seq 0 THREADS →
  foldl (λ t i, t + thread_area (exact_arg f a b N i)) 0 order = integrateTrap f a b N.
Proof.
  intros HT HN Hp. rewrite (foldl_sum_perm (λ i, thread_area (exact_arg f a b N i)) _ _ _ Hp), (areas_below f a b N HN), steps_below_all by done. done.
Qed.

(** In exact arithmetic the threads of [thread.c] and [processThread.c] compute, in whatever order they
    take the mutex to add their areas, the integral that [serial.c] and [process.c] compute, for every
    positive number of steps: the ranges are contiguous, all the steps are done, each once. *)
Theorem threaded_correct (f : F → F) a b N order :
  (0 < THREADS)%nat → (0 < N)%nat → order ≡ₚ seq 0 THREADS → threaded THREADS f a b N order = integrateTrap f a b N.
Proof.
  intros HT HN Hp. unfold threaded, threadArgs. rewrite split_exact by done. cbn [snd].
  rewrite (foldl_same _ (λ t i, t + thread_area (exact_arg f a b N i))).
  - by apply areas_any_order.
  - intros t i Hi. rewrite Hp, elem_of_seq in Hi. rewrite list_lookup_fmap, lookup_seq_lt by lia. done.
Qed.
End exact.

(** The rationals are exact. *)
#[export] Instance Qc_floating : Floating Qc := {|
  d_of n := Q2Qc (inject_Z (Z.of_nat n)); d_opp := Qcopp; d_add := Qcplus; d_sub := Qcminus; d_mul := Qcmult; d_div := Qcdiv;
  d_lt x y := match Qccompare x y with Lt => true | _ => false end;
  d_le x y := match Qccompare x y with Gt => false | _ => true end |}.

Lemma Q2Qc_plus x y : Q2Qc (x + y)%Q = Qcplus (Q2Qc x) (Q2Qc y).
Proof. apply Qc_is_canon. cbn. by rewrite !Qred_correct. Qed.

#[export] Instance Qc_exact : Exact Qc.
Proof.
  refine {| d_inv := Qcinv |}.
  - exact Qcft.
  - intros n. cbn [d_of d_add Qc_floating]. rewrite Nat2Z.inj_succ, <-Q2Qc_plus. apply Qc_is_canon. cbn.
    rewrite !Qred_correct. unfold Qeq. cbn. lia.
  - intros n E. apply (f_equal this) in E. cbn [d_of Qc_floating this Q2Qc] in E.
    assert (E' : (inject_Z (Z.of_nat (S n)) == inject_Z (Z.of_nat 0))%Q) by (rewrite <-(Qred_correct (inject_Z (Z.of_nat (S n)))), E; apply Qred_correct).
    unfold Qeq in E'. cbn in E'. lia.
Defined.

Definition demo_square (x : Qc) : Qc := Qcmult x x.

Lemma threaded_correct_witness :
  (0 < 10)%nat ∧ [2; 0; 3; 1]%nat ≡ₚ seq 0 processThread_THREADS ∧
  threaded processThread_THREADS demo_square (d_of 0) (d_of 3) 10 [2; 0; 3; 1]%nat = integrateTrap demo_square (d_of 0) (d_of 3) 10.
Proof.
  assert (Hp : [2; 0; 3; 1]%nat ≡ₚ seq 0 processThread_THREADS) by (apply (bool_decide_unpack _); vm_compute; exact I).
  split_and!; [lia|exact Hp|]. apply (threaded_correct processThread_THREADS demo_square); [unfold processThread_THREADS; lia|lia|exact Hp].
Defined.

(** IEEE 754 double precision, as the Standard Library specifies it. *)
#[export] Instance double : Floating spec_float := {|
  d_of n := binary_normalize 53 1024 (Z.of_nat n) 0 false; d_opp := SFopp;
  d_add := SFadd 53 1024; d_sub := SFsub 53 1024; d_mul := SFmul 53 1024; d_div := SFdiv 53 1024;
  d_lt := SFltb; d_le := SFleb |}.

(** With fewer steps than threads a thread has no steps and divides zero by zero: the serial program integrates the
    constant function 1 over [0, 1] in one step to 1, the threads to NaN. *)
Theorem threaded_nan :
  integrateTrap (λ _, d_of 1) (d_of 0) (d_of 1) 1 = d_of 1 ∧
  threaded thread_THREADS (λ _, d_of 1) (d_of 0) (d_of 1) 1 (seq 0 thread_THREADS) = S754_nan.
Proof. split; vm_compute; reflexivity. Qed.
