(* ===== verification/Children.v ===== *)
(** The children of the assignment's [process.c] and [processThread.c]: the parent's loop, the semaphore that bounds
    its children and the [SIGCHLD] handler that reaps them, as a transition system.

    The operating system's part is written out: a child that ends is a zombie until it is reaped and raises [SIGCHLD],
    which is pending at most once, is delivered between two of the parent's steps and is blocked in its handler. *)
From S2P Require Export Prelude.

(** What the parent does next.  [Handler p] and [HandlerPost p] are in [handleChildExit], called at [p]: at the condition of
    its loop and at [sem_post]. *)
Inductive at_ :=
  | Wait | Input | Fork | ForkFailed
  | Reap | ReapPost | Exited
  | Handler (p : at_) | HandlerPost (p : at_).

(** The semaphore [numFreeChildren], the parent, the children that run, those that have ended but are not reaped, and
    the pending signal. *)
Record processes := mk_processes { numFreeChildren : nat; parent : at_; running : nat; zombies : nat; sigchld : bool }.

Section system.
Context (MAX_CHILDREN : nat).

Definition start : processes := mk_processes MAX_CHILDREN Wait 0 0 false.

Definition in_handler (p : at_) : bool := match p with Handler _ | HandlerPost _ => true | _ => false end.

Inductive step : processes → processes → Prop :=
  (** [main] *)
  | sem_wait n r z g : step (mk_processes (S n) Wait r z g) (mk_processes n Input r z g)
  | valid_input n r z g : step (mk_processes n Input r z g) (mk_processes n Fork r z g)
  | end_of_input n r z g : step (mk_processes n Input r z g) (mk_processes n Reap r z g)
  | fork_child n r z g : step (mk_processes n Fork r z g) (mk_processes n Wait (S r) z g)
  | fork_fails n r z g : step (mk_processes n Fork r z g) (mk_processes n ForkFailed r z g)
  | sem_post_fork n r z g : step (mk_processes n ForkFailed r z g) (mk_processes (S n) Wait r z g)
  | wait_child n r z g : step (mk_processes n Reap r (S z) g) (mk_processes n ReapPost r z g)
  | sem_post_wait n r z g : step (mk_processes n ReapPost r z g) (mk_processes (S n) Reap r z g)
  | wait_none n g : step (mk_processes n Reap 0 0 g) (mk_processes n Exited 0 0 g)
  (** [handleChildExit] *)
  | signal n p r z : in_handler p = false → p ≠ Exited → step (mk_processes n p r z true) (mk_processes n (Handler p) r z false)
  | waitpid n p r z g : step (mk_processes n (Handler p) r (S z) g) (mk_processes n (HandlerPost p) r z g)
  | sem_post_handler n p r z g : step (mk_processes n (HandlerPost p) r z g) (mk_processes (S n) (Handler p) r z g)
  | waitpid_none n p r g : step (mk_processes n (Handler p) r 0 g) (mk_processes n p r 0 g)
  (** a child ends *)
  | child_exit n p r z g : step (mk_processes n p (S r) z g) (mk_processes n p r (S z) true).

(** The slots that the parent holds. *)
Fixpoint held (p : at_) : nat :=
  match p with
  | Wait => 0
  | Input | Fork | ForkFailed | Reap | Exited => 1
  | ReapPost => 2
  | Handler p => held p
  | HandlerPost p => S (held p)
  end.
(** The handler interrupts [main], not itself and not a parent that has ended. *)
Definition plain (p : at_) : Prop := in_handler p = false ∧ p ≠ Exited.
Definition parent_ok (p : at_) : Prop := match p with Handler q | HandlerPost q => plain q | _ => True end.

Record inv (s : processes) : Prop := {
  inv_slots : (numFreeChildren s + held (parent s) + running s + zombies s = MAX_CHILDREN)%nat;
  inv_parent : parent_ok (parent s);
  inv_signal : zombies s ≠ 0%nat → sigchld s = true ∨ in_handler (parent s) = true;
  inv_exited : parent s = Exited → running s = 0%nat ∧ zombies s = 0%nat }.

Lemma step_inv s s' : step s s' → inv s → inv s'.
Proof.
  intros Hs [Hsl Hp Hg He]. destruct Hs; split; cbn in *; unfold plain in *; try tauto; try lia; try done.
  - intros _. apply Hg. lia.
  - by destruct p as [| | | | | | |p|p], Hp.
  - intros E. destruct (He E). lia.
Qed.

Lemma reachable_inv s : rtc step start s → inv s.
Proof.
  intros Hr. remember start as s0 eqn:E0. assert (H0 : inv s0) by (subst s0; split; cbn; lia || done).
  clear E0. induction Hr as [s0|s0 s1 s2 Hs _ IH]; [done|]. apply IH, (step_inv s0); done.
Qed.

(** In every reachable state of the parent and its children the free slots, the children that run, the zombies and
    the slots the parent holds add up to [MAX_CHILDREN]: no slot is lost or made up, whenever the signals arrive.
    So at most [MAX_CHILDREN] children exist, a parent that exits leaves none behind, and unless it has exited
    there is a step to take: the parent never waits for a slot that nobody will free. *)
Theorem children_bounded s :
  (0 < MAX_CHILDREN)%nat → rtc step start s →
  (numFreeChildren s + running s + zombies s + held (parent s) = MAX_CHILDREN)%nat ∧
  (running s + zombies s ≤ MAX_CHILDREN)%nat ∧
  (parent s = Exited → running s = 0%nat ∧ zombies s = 0%nat) ∧
  (parent s ≠ Exited → ∃ s', step s s').
Proof.
  intros HM Hr. destruct (reachable_inv s Hr) as [Hsl Hp Hg He]. split_and!; [lia|lia|done|].
  intros Hne. destruct s as [n p r z g]; cbn in *. destruct p as [| | | | | | |p|p]; cbn in Hsl, Hg.
  - destruct n as [|n]; [|eexists; constructor]. destruct r as [|r]; [|eexists; constructor].
    destruct g; [eexists; by constructor|]. destruct (Hg ltac:(lia)); done.
  - eexists; apply end_of_input.
  - eexists; apply fork_child.
  - eexists; constructor.
  - destruct z; [|eexists; constructor]. destruct r; [eexists; constructor|eexists; constructor].
  - eexists; constructor.
  - done.
  - destruct z; eexists; constructor.
  - eexists; constructor.
Qed.
End system.

(** Two slots: two children fill them, both end, one signal reaps both. *)
Definition demo_state : processes := mk_processes 2 Wait 0 0 false.
Lemma children_bounded_witness :
  (0 < 2)%nat ∧ rtc step (start 2) demo_state ∧ (running demo_state + zombies demo_state ≤ 2)%nat.
Proof.
  assert (Hr : rtc step (start 2) demo_state).
  { do 3 (eapply rtc_l; [first [apply sem_wait|apply valid_input|apply fork_child]|]).
    do 3 (eapply rtc_l; [first [apply sem_wait|apply valid_input|apply fork_child]|]).
    do 2 (eapply rtc_l; [apply child_exit|]). eapply rtc_l; [by apply signal|].
    do 2 (eapply rtc_l; [apply waitpid|]; eapply rtc_l; [apply sem_post_handler|]).
    eapply rtc_l; [apply waitpid_none|]. apply rtc_refl. }
  split_and!; [lia|exact Hr|]. apply (children_bounded 2 demo_state); [lia|exact Hr].
Defined.
