(* ===== verification/Queries.v ===== *)
(** The assignment's [processThread.c] as a whole: the parent of [Children], which reads the queries, and its children, each
    of which shares the work of a query among threads that add their areas to a total under a mutex ([Integrate]).

    A transition system interleaves the parent, its signal handler, the children and their threads.  Standard output is a
    terminal, and the state has the list of the results printed (a file would lose them, since [_exit] does not flush); the input ends.
    [pthread_create] and [fork] may fail at any call.  Arithmetic on doubles and the C library's functions are parameters, without any law: what a child prints is
    stated as the operations that compute it, in the order in which its threads have added their areas ([Integrate.threaded]), rounding,
    infinities and NaN included.  A [size_t] is a [nat]: the program only counts with it up to the number of steps it has read. *)
From S2P Require Export Integrate Children.
From Stdlib Require Import Floats.SpecFloat.
#[local] Open Scope Z_scope.

Definition MAX_CHILDREN : nat := 4.
#[local] Notation THREADS := processThread_THREADS.

(** * The code *)
Section program.
Context {F : Type} `{Floating F, Libm F}.

(** A line of input as [scanf] reads it. *)
Record query := mk_query { q_numRead : Z; q_funcName : list Z; q_start : F; q_end : F; q_steps : nat }.
Definition q_func (q : query) : option (F → F) := getValidInput (q_numRead q) (q_funcName q) (q_start q) (q_end q) (q_steps q).

(** What a thread does next: compute its area and take the mutex, read [total], write it, release the mutex. *)
Inductive thread_pc := Computing | Locked | Loaded (total : F) | Stored | Ended.

(** What the main thread of a child does next: create thread [i], or wait for it. *)
Inductive child_pc := Create (i : nat) | Join (i : nat).

(** A child: [c_split] is [currentStart] with the arguments filled in so far, [c_mutex] the thread that has the mutex. *)
Record child := mk_child {
  c_query : query; c_func : F → F; c_at : child_pc; c_split : F * list (ThreadArgs (F := F)); c_threads : list thread_pc; c_mutex : option nat; c_total : F }.

Definition new_child (q : query) (f : F → F) : child := mk_child q f (Create 0) (q_start q, []) [] None (d_of 0).

Inductive child_step : child → child → Prop :=
  (** the loops of [main] *)
  | pthread_create q f i sp ts m t : (i < THREADS)%nat →
    child_step (mk_child q f (Create i) sp ts m t)
      (mk_child q f (Create (S i)) (split_body THREADS f (d_sub (q_end q) (q_start q)) (q_steps q) i sp) (ts ++ [Computing]) m t)
  | all_created q f i sp ts m t : (THREADS ≤ i)%nat → child_step (mk_child q f (Create i) sp ts m t) (mk_child q f (Join 0) sp ts m t)
  | pthread_join q f i sp ts m t : (i < THREADS)%nat → ts !! i = Some Ended →
    child_step (mk_child q f (Join i) sp ts m t) (mk_child q f (Join (S i)) sp ts m t)
  (** [integrateTrap] *)
  | mutex_lock q f p sp ts t j : ts !! j = Some Computing →
    child_step (mk_child q f p sp ts None t) (mk_child q f p sp (<[j:=Locked]> ts) (Some j) t)
  | load_total q f p sp ts m t j : ts !! j = Some Locked →
    child_step (mk_child q f p sp ts m t) (mk_child q f p sp (<[j:=Loaded t]> ts) m t)
  | store_total q f p sp ts m t j v a : ts !! j = Some (Loaded v) → snd sp !! j = Some a →
    child_step (mk_child q f p sp ts m t) (mk_child q f p sp (<[j:=Stored]> ts) m (add_area v a))
  | mutex_unlock q f p sp ts m t j : ts !! j = Some Stored →
    child_step (mk_child q f p sp ts m t) (mk_child q f p sp (<[j:=Ended]> ts) None t).

(** The system: the semaphore, the parent, the input not read yet, the query to fork for, the children, the zombies, the
    pending signal, what has been printed, and the queries that a failure of [fork] or [pthread_create] has lost. *)
Record system := mk_system {
  s_free : nat; s_at : at_; s_input : list query; s_current : option (query * (F → F)); s_children : list child;
  s_zombies : nat; s_sigchld : bool; s_output : list (query * F); s_failed : list query }.

Definition start_system (inp : list query) : system := mk_system MAX_CHILDREN Wait inp None [] 0 false [] [].

Inductive system_step : system → system → Prop :=
  (** [main] of the parent *)
  | ss_sem_wait n inp cu ch z g o x : system_step (mk_system (S n) Wait inp cu ch z g o x) (mk_system n Input inp cu ch z g o x)
  | ss_valid n q f inp cu ch z g o x : q_func q = Some f →
    system_step (mk_system n Input (q :: inp) cu ch z g o x) (mk_system n Fork inp (Some (q, f)) ch z g o x)
  | ss_invalid n q inp cu ch z g o x : q_func q = None →
    system_step (mk_system n Input (q :: inp) cu ch z g o x) (mk_system n Reap inp cu ch z g o x)
  | ss_end_of_input n cu ch z g o x : system_step (mk_system n Input [] cu ch z g o x) (mk_system n Reap [] cu ch z g o x)
  | ss_fork n inp q f ch z g o x :
    system_step (mk_system n Fork inp (Some (q, f)) ch z g o x) (mk_system n Wait inp None (ch ++ [new_child q f]) z g o x)
  | ss_fork_fails n inp q f ch z g o x :
    system_step (mk_system n Fork inp (Some (q, f)) ch z g o x) (mk_system n ForkFailed inp None ch z g o (x ++ [q]))
  | ss_post_fork n inp cu ch z g o x : system_step (mk_system n ForkFailed inp cu ch z g o x) (mk_system (S n) Wait inp cu ch z g o x)
  | ss_wait n inp cu ch z g o x : system_step (mk_system n Reap inp cu ch (S z) g o x) (mk_system n ReapPost inp cu ch z g o x)
  | ss_post_wait n inp cu ch z g o x : system_step (mk_system n ReapPost inp cu ch z g o x) (mk_system (S n) Reap inp cu ch z g o x)
  | ss_wait_none n inp cu g o x : system_step (mk_system n Reap inp cu [] 0 g o x) (mk_system n Exited inp cu [] 0 g o x)
  (** [handleChildExit] *)
  | ss_signal n p inp cu ch z o x : in_handler p = false → p ≠ Exited →
    system_step (mk_system n p inp cu ch z true o x) (mk_system n (Handler p) inp cu ch z false o x)
  | ss_waitpid n p inp cu ch z g o x :
    system_step (mk_system n (Handler p) inp cu ch (S z) g o x) (mk_system n (HandlerPost p) inp cu ch z g o x)
  | ss_post_handler n p inp cu ch z g o x :
    system_step (mk_system n (HandlerPost p) inp cu ch z g o x) (mk_system (S n) (Handler p) inp cu ch z g o x)
  | ss_waitpid_none n p inp cu ch g o x : system_step (mk_system n (Handler p) inp cu ch 0 g o x) (mk_system n p inp cu ch 0 g o x)
  (** a child, which prints its result and ends, or ends when it cannot create a thread *)
  | ss_child n p inp cu l c c' l' z g o x : child_step c c' →
    system_step (mk_system n p inp cu (l ++ c :: l') z g o x) (mk_system n p inp cu (l ++ c' :: l') z g o x)
  | ss_print n p inp cu l q f sp ts m t l' z g o x :
    system_step (mk_system n p inp cu (l ++ mk_child q f (Join THREADS) sp ts m t :: l') z g o x)
      (mk_system n p inp cu (l ++ l') (S z) true (o ++ [(q, t)]) x)
  | ss_create_fails n p inp cu l q f i sp ts m t l' z g o x : (i < THREADS)%nat →
    system_step (mk_system n p inp cu (l ++ mk_child q f (Create i) sp ts m t :: l') z g o x)
      (mk_system n p inp cu (l ++ l') (S z) true o (x ++ [q])).
End program.

(** * Children *)
Section system.
Context {F : Type} `{Floating F, !Libm F}.
Implicit Types (c : child (F := F)) (q : query (F := F)) (s : system (F := F)).

#[local] Arguments for_loop : simpl never.
#[local] Opaque processThread_THREADS.

(** What a query may print: the sum of the areas of all the threads, added in some order. *)
Definition answers q (r : F) : Prop :=
  ∃ f order, q_func q = Some f ∧ order ≡ₚ seq 0 THREADS ∧ r = threaded THREADS f (q_start q) (q_end q) (q_steps q) order.

(** A thread that is between [lock] and [unlock], and one that has added its area. *)
Definition locked (pc : thread_pc (F := F)) : bool := match pc with Locked | Loaded _ | Stored => true | _ => false end.
Definition added (pc : thread_pc (F := F)) : bool := match pc with Stored | Ended => true | _ => false end.

(** The state of the loop that creates the threads after [n] turns, and the total when the threads in [order] have added their areas. *)
Definition split_at c (n : nat) : F * list (ThreadArgs (F := F)) :=
  for_loop n (split_body THREADS (c_func c) (d_sub (q_end (c_query c)) (q_start (c_query c))) (q_steps (c_query c))) (q_start (c_query c), []).
Definition total_of c (order : list nat) : F := threaded THREADS (c_func c) (q_start (c_query c)) (q_end (c_query c)) (q_steps (c_query c)) order.

Lemma split_at_S c n : ∃ e a, split_at c (S n) = (e, snd (split_at c n) ++ [a]).
Proof. unfold split_at. rewrite for_loop_S. destruct (for_loop n _ _) as [x l]. by eexists _, _. Qed.
Lemma split_at_length c n : length (snd (split_at c n)) = n.
Proof. induction n as [|n IH]; [done|]. destruct (split_at_S c n) as (e & a & ->). cbn [snd]. rewrite length_app, IH. cbn. lia. Qed.
Lemma split_at_prefix c n m : (n ≤ m)%nat → snd (split_at c n) `prefix_of` snd (split_at c m).
Proof.
  induction 1 as [|m _ IH]; [done|]. destruct (split_at_S c m) as (e & a & ->). cbn [snd]. by apply prefix_app_r.
Qed.

Definition created c : nat := match c_at c with Create i => i | Join _ => THREADS end.

(** [total] is the sum of the areas of the threads in [order], those that have added theirs. *)
Record child_inv c (order : list nat) : Prop := {
  ci_func : q_func (c_query c) = Some (c_func c);
  ci_at : (created c ≤ THREADS)%nat ∧ length (c_threads c) = created c;
  ci_split : c_split c = split_at c (created c);
  ci_order : NoDup order ∧ ∀ j, j ∈ order ↔ ∃ pc, c_threads c !! j = Some pc ∧ added pc = true;
  ci_total : c_total c = total_of c order;
  ci_mutex j pc : c_threads c !! j = Some pc → locked pc = true ↔ c_mutex c = Some j;
  ci_holder j : c_mutex c = Some j → (j < length (c_threads c))%nat;
  ci_loaded j v : c_threads c !! j = Some (Loaded v) → v = c_total c;
  ci_joined i j : c_at c = Join i → (i ≤ THREADS)%nat ∧ ((j < i)%nat → c_threads c !! j = Some Ended) }.

Lemma new_child_inv q f : q_func q = Some f → child_inv (new_child q f) [].
Proof.
  intros Hf. split; cbn; [done|lia|done| |done|done|done|done|done].
  split; [apply NoDup_nil_2|]. intros j. split; [set_solver|]. intros (pc & E & _). done.
Qed.

(** A thread goes on. *)
Lemma thread_inv q f p sp ts m t order j pc pc' m' t' order' :
  child_inv (mk_child q f p sp ts m t) order → ts !! j = Some pc → added pc = false ∨ (added pc' = true ∧ pc ≠ Ended) →
  (locked pc' = true ↔ m' = Some j) → (∀ k, k ≠ j → m' = Some k ↔ m = Some k) →
  order' = order ++ (if added pc' && negb (added pc) then [j] else []) →
  t' = total_of (mk_child q f p sp ts m t) order' →
  (∀ k v, k ≠ j → ts !! k = Some (Loaded v) → v = t') → (∀ v, pc' = Loaded v → v = t') →
  child_inv (mk_child q f p sp (<[j:=pc']> ts) m' t') order'.
Proof.
  intros [Hf [Hat Hl] Hsp [Hnd Ho] Ht Hm Hh Hld Hj] Hpc Hadd Hlk Hmk -> Ht' Hothers Hown. cbn in *. pose proof (lookup_lt_Some _ _ _ Hpc) as Hlt.
  split; cbn; [done|by rewrite length_insert|done| |done|..].
  - split.
    + apply NoDup_app. split_and!; [done|..].
      * intros k Hk. destruct (added pc' && negb (added pc)) eqn:E; [|set_solver]. intros ->%list_elem_of_singleton. apply Ho in Hk as (x & Ex & Hx).
        rewrite Hpc in Ex. injection Ex as <-. by rewrite Hx, andb_false_r in E.
      * destruct (added pc' && negb (added pc)); [apply NoDup_singleton|apply NoDup_nil_2].
    + intros k. rewrite elem_of_app. destruct (decide (k = j)) as [->|Hne].
      * rewrite list_lookup_insert_eq by done. split.
        -- intros [Hk|Hk]; exists pc'; (split; [done|]).
           ++ apply Ho in Hk as (x & Ex & Hx). rewrite Hpc in Ex. injection Ex as <-. destruct Hadd as [?|[? _]]; congruence.
           ++ destruct (added pc'); [done|set_solver].
        -- intros (x & [= <-] & Hx). rewrite Hx. destruct (added pc) eqn:Ea; [left|right; set_solver]. apply Ho. by exists pc.
      * rewrite list_lookup_insert_ne by done. rewrite Ho. split; [|by left]. intros [?|Hk]; [done|]. destruct (_ && _) in Hk; set_solver.
  - intros k x. destruct (decide (k = j)) as [->|Hne]; [rewrite list_lookup_insert_eq by done; by intros [= <-]|].
    rewrite list_lookup_insert_ne by done. intros Hx. rewrite Hmk by done. by apply Hm.
  - intros k Hk. rewrite length_insert. destruct (decide (k = j)) as [->|Hne]; [done|]. by apply Hh, Hmk.
  - intros k v. destruct (decide (k = j)) as [->|Hne]; [rewrite list_lookup_insert_eq by done; intros [= E]; by apply Hown|].
    rewrite list_lookup_insert_ne by done. by apply Hothers.
  - intros i k Hp. destruct (Hj i k Hp) as [Hi Hk]. split; [done|]. intros Hlt'. destruct (decide (k = j)) as [->|Hne]; [|rewrite list_lookup_insert_ne by done; auto].
    exfalso. rewrite (Hk Hlt') in Hpc. injection Hpc as <-. by destruct Hadd as [?|[_ ?]].
Qed.

Lemma child_step_inv c c' order : child_step c c' → child_inv c order → ∃ order', child_inv c' order'.
Proof.
  intros Hs Hc. pose proof Hc as [Hf [Hat Hl] Hsp [Hnd Ho] Ht Hm Hh Hld Hj]. destruct Hs; cbn in *.
  - exists order. split; cbn; [done|rewrite length_app; cbn; lia| | |done|..].
    + rewrite Hsp. unfold split_at. cbn. by rewrite for_loop_S.
    + split; [done|]. intros j. rewrite Ho. split; intros (pc & E & Hpc); exists pc; (split; [|done]).
      * by apply lookup_app_l_Some.
      * apply lookup_app_Some in E as [E|[_ E]]; [done|]. destruct (j - length ts)%nat; [|done]. cbn in E. injection E as <-. done.
    + intros j pc E. apply lookup_app_Some in E as [E|[Hj' E]]; [by apply Hm|]. destruct (j - length ts)%nat; [|done]. cbn in E. injection E as <-. split; [done|].
      intros ->. specialize (Hh j eq_refl). lia.
    + intros j ->. specialize (Hh j eq_refl). rewrite length_app. cbn. lia.
    + intros j v E. apply lookup_app_Some in E as [E|[_ E]]; [by apply (Hld j)|]. destruct (j - length ts)%nat; [|done]. done.
    + done.
  - assert (i = THREADS) as -> by lia. exists order. split; cbn; try done. intros i j [= <-]. split; [lia|]. intros ?. lia.
  - exists order. split; cbn; try done. intros i' j [= <-]. split; [lia|]. intros Hji. destruct (decide (j = i)) as [->|]; [done|]. apply (Hj i j); [done|lia].
  - exists order. eapply (thread_inv _ _ _ _ _ _ _ order j Computing Locked); try done; [by left|intros k ?; split; congruence|by rewrite app_nil_r|].
    + intros k v _. apply Hld.
  - exists order. eapply (thread_inv _ _ _ _ _ _ _ order j Locked (Loaded t)); try done; [by left| |by rewrite app_nil_r|..].
    + rewrite <-(Hm j Locked) by done. done.
    + intros k v _. apply Hld.
    + by intros v [= <-].
  - exists (order ++ [j]). assert (Hmj : m = Some j) by (by apply (Hm j (Loaded v))). eapply (thread_inv _ _ _ _ _ _ _ order j (Loaded v) Stored); try done; [by left|..].
    + pose proof (split_at_prefix (mk_child q f p sp ts m t) (created (mk_child q f p sp ts m t)) THREADS ltac:(lia)) as Hpre. rewrite <-Hsp in Hpre.
      assert (Ea : threadArgs THREADS f (q_start q) (q_end q) (q_steps q) !! j = Some a) by (eapply prefix_lookup_Some; [|exact Hpre]; done).
      unfold total_of, threaded in *. cbn in *. rewrite foldl_app. cbn [foldl]. rewrite Ea. by rewrite <-Ht, (Hld j v).
    + intros k w Hne Hk. assert (m = Some k) by (by apply (Hm k (Loaded w))). congruence.
  - exists order. assert (Hmj : m = Some j) by (by apply (Hm j Stored)). eapply (thread_inv _ _ _ _ _ _ _ order j Stored Ended); try done; [by right|..].
    + intros k Hne. split; congruence.
    + by rewrite app_nil_r.
    + intros k v _. apply Hld.
Qed.

Definition at_end c : Prop := c_at c = Join THREADS.

(** A child has a step to take until it ends: its threads do not wait for each other for ever. *)
Lemma child_progress c order : child_inv c order → at_end c ∨ ∃ c', child_step c c'.
Proof.
  unfold at_end. destruct c as [q f [i|i] sp ts m t]; intros [Hf [Hat Hl] Hsp Ho Ht Hm Hh Hld Hj]; cbn in *.
  - right. destruct (decide (i < THREADS)%nat); eexists; [by apply pthread_create|apply all_created; lia].
  - destruct (Hj i 0%nat eq_refl) as [Hi _]. destruct (decide (i = THREADS)) as [->|Hne]; [by left|right].
    destruct (lookup_lt_is_Some_2 ts i) as [pc Hpc]; [lia|]. destruct m as [j|].
    + destruct (lookup_lt_is_Some_2 ts j) as [pj Hpj]; [by apply Hh|]. pose proof (proj2 (Hm j pj Hpj) eq_refl) as Hlk. destruct pj as [| |v| |]; try done.
      * eexists. by eapply load_total.
      * destruct (lookup_lt_is_Some_2 (snd sp) j) as [a Ha]; [rewrite Hsp, split_at_length; specialize (Hh j eq_refl); unfold created in *; cbn in *; lia|].
        eexists. by eapply store_total.
      * eexists. by eapply mutex_unlock.
    + destruct pc as [| |v| |]; try (discriminate (proj1 (Hm i _ Hpc) eq_refl)).
      * eexists. by eapply mutex_lock.
      * eexists. apply pthread_join; [lia|done].
Qed.

(** What a child prints is what its query asks for. *)
Lemma child_result c order : child_inv c order → at_end c → answers (c_query c) (c_total c).
Proof.
  unfold at_end. intros [Hf [Hat Hl] Hsp [Hnd Ho] Ht Hm Hh Hld Hj] He. exists (c_func c), order. split; [done|]. split; [|done]. apply NoDup_Permutation; [done|apply NoDup_seq|].
  intros j. rewrite Ho, elem_of_seq. unfold created in *. rewrite He in *. split.
  - intros (pc & E & _). apply lookup_lt_Some in E. lia.
  - intros Hlt. exists Ended. split; [|done]. apply (Hj THREADS j eq_refl). lia.
Qed.

(** ** Every run ends *)
Definition thread_weight (pc : thread_pc (F := F)) : nat := match pc with Computing => 4 | Locked => 3 | Loaded _ => 2 | Stored => 1 | Ended => 0 end.
Definition child_weight c : nat :=
  5 + sum_list_with thread_weight (c_threads c)
  + match c_at c with Create i => 5 * (THREADS - i) + THREADS + 2 | Join i => THREADS - i + 1 end.

Lemma thread_weight_insert (ts : list (thread_pc (F := F))) j pc pc' : ts !! j = Some pc →
  (sum_list_with thread_weight (<[j:=pc']> ts) + thread_weight pc = sum_list_with thread_weight ts + thread_weight pc')%nat.
Proof.
  intros E. destruct (list_elem_of_split_length _ _ _ E) as (l1 & l2 & -> & ->).
  rewrite insert_app_r_alt, Nat.sub_diag by lia. rewrite !sum_list_with_app. cbn. lia.
Qed.

Lemma child_step_weight c c' : child_step c c' → (child_weight c' < child_weight c)%nat.
Proof.
  unfold child_weight. intros Hs. destruct Hs; cbn [c_threads c_at]; try lia.
  - rewrite sum_list_with_app. cbn. lia.
  - pose proof (thread_weight_insert ts j Computing Locked ltac:(done)) as E. cbn in *. lia.
  - pose proof (thread_weight_insert ts j Locked (Loaded t) ltac:(done)) as E. cbn in *. lia.
  - pose proof (thread_weight_insert ts j (Loaded v) Stored ltac:(done)) as E. cbn in *. lia.
  - pose proof (thread_weight_insert ts j Stored Ended ltac:(done)) as E. cbn in *. lia.
Qed.

(** * The system *)

(** The processes as [Children] sees them. *)
Definition proj s : processes := mk_processes (s_free s) (s_at s) (length (s_children s)) (s_zombies s) (s_sigchld s).

(** The system refines the one of [Children]: the threads of the children take steps of their own, every other step is one of [Children]. *)
Lemma system_sim s s' : system_step s s' → proj s' = proj s ∨ step (proj s) (proj s').
Proof.
  intros Hs. destruct Hs; unfold proj; cbn; rewrite ?length_app; cbn [length]; rewrite ?Nat.add_1_r, ?Nat.add_succ_r;
    first [left; reflexivity|right; by constructor].
Qed.

Lemma system_sims s s' : rtc system_step s s' → rtc step (proj s) (proj s').
Proof.
  induction 1 as [s|s s1 s2 Hs _ IH]; [done|]. destruct (system_sim _ _ Hs) as [E|Hst]; [by rewrite <-E|by eapply rtc_l].
Qed.

(** The queries that the parent reads: those before the first that is not valid. *)
Fixpoint asked (inp : list (query (F := F))) : list (query (F := F)) :=
  match inp with q :: inp' => match q_func q with Some _ => q :: asked inp' | None => [] end | [] => [] end.

Fixpoint reads (p : at_) : bool :=
  match p with Wait | Input | Fork | ForkFailed => true | Reap | ReapPost | Exited => false | Handler p | HandlerPost p => reads p end.
Fixpoint forks (p : at_) : bool := match p with Fork => true | Handler p | HandlerPost p => forks p | _ => false end.

(** Where the queries are. *)
Definition accounted s : list query :=
  (s_output s).*1 ++ s_failed s ++ (match s_current s with Some (q, _) => [q] | None => [] end) ++ (c_query <$> s_children s) ++ (if reads (s_at s) then asked (s_input s) else []).

Record system_inv (inp : list query) s : Prop := {
  si_account : accounted s ≡ₚ asked inp;
  si_current : forks (s_at s) = true ↔ is_Some (s_current s);
  si_func q f : s_current s = Some (q, f) → q_func q = Some f;
  si_children : Forall (λ c, ∃ order, child_inv c order) (s_children s);
  si_output : Forall (λ r, answers r.1 r.2) (s_output s) }.

Lemma start_system_inv inp : system_inv inp (start_system inp).
Proof. split; cbn; [done|by split; [|intros []]|done|constructor..]. Qed.

Lemma child_step_query c c' : child_step c c' → c_query c' = c_query c.
Proof. by destruct 1. Qed.

Lemma not_forking s : (forks (s_at s) = true ↔ is_Some (s_current s)) → forks (s_at s) = false → s_current s = None.
Proof. intros [_ Hc] Hf. destruct (s_current s); [|done]. rewrite Hc in Hf by done. done. Qed.

Lemma system_step_account s s' : system_step s s' → (forks (s_at s) = true ↔ is_Some (s_current s)) → accounted s' ≡ₚ accounted s.
Proof.
  intros Hs Hc. pose proof (not_forking s Hc) as Hn. destruct Hs as [| ? q f ? ? ? ? ? ? ? Hq|? q ? ? ? ? ? ? ? Hq| | | | | | | | | | | | ? ? ? ? ? ? ? ? ? ? ? ? Hst| |]; unfold accounted; cbn in *; try done.
  - rewrite (Hn eq_refl), Hq. cbn. by rewrite <-!Permutation_middle.
  - by rewrite Hq.
  - rewrite fmap_app, <-!app_assoc. cbn. by rewrite <-!Permutation_middle.
  - by rewrite <-!app_assoc.
  - by rewrite !fmap_app, !fmap_cons, (child_step_query _ _ Hst).
  - rewrite !fmap_app, <-!app_assoc. cbn. by rewrite <-!Permutation_middle.
  - rewrite !fmap_app, <-!app_assoc. cbn. by rewrite <-!Permutation_middle.
Qed.

Lemma system_step_inv inp s s' : system_step s s' → system_inv inp s → system_inv inp s'.
Proof.
  intros Hs [Ha Hc Hf Hch Ho]. pose proof (system_step_account _ _ Hs Hc) as Hac. split; [by rewrite Hac| | | |]; clear Ha Hac.
  - destruct Hs; cbn in *; try done; (split; [done|]); intros HS; first [by destruct HS|apply Hc in HS; done].
  - destruct Hs; cbn in *; try done; try (intros q' f' [= <- <-]; by auto); eauto.
  - destruct Hs as [| | | | | | | | | | | | | |n p inp' cu l c c' l' z g o x Hst| |]; cbn in *; try done.
    + apply Forall_app_2; [done|]. apply Forall_singleton. exists []. apply new_child_inv. by apply Hf.
    + apply Forall_app in Hch as [Hl1 Hl2]. inversion_clear Hl2 as [|? ? [order Hc'] Hl3]. apply Forall_app_2; [done|]. constructor; [|done].
      by apply (child_step_inv c c' order).
    + apply Forall_app in Hch as [Hl1 Hl2]. inversion_clear Hl2. by apply Forall_app_2.
    + apply Forall_app in Hch as [Hl1 Hl2]. inversion_clear Hl2. by apply Forall_app_2.
  - destruct Hs as [| | | | | | | | | | | | | | |n p inp' cu l q f sp ts m t l' z g o x|]; cbn in *; try done.
    apply Forall_app in Hch as [_ Hch]. inversion_clear Hch as [|? ? [order Hc'] _]. apply Forall_app_2; [done|]. apply Forall_singleton. cbn.
    by apply (child_result (mk_child q f (Join THREADS) sp ts m t) order).
Qed.

Lemma reachable_system_inv inp s : rtc system_step (start_system inp) s → system_inv inp s.
Proof.
  intros Hr. remember (start_system inp) as s0 eqn:E0. assert (Hi : system_inv inp s0) by (subst s0; apply start_system_inv). clear E0.
  induction Hr as [s0|s0 s1 s2 Hs _ IH]; [done|]. by apply IH, (system_step_inv inp s0).
Qed.

Lemma reachable_proj_inv inp s : rtc system_step (start_system inp) s → inv MAX_CHILDREN (proj s).
Proof. intros Hr. apply reachable_inv. change (start MAX_CHILDREN) with (proj (start_system inp)). by apply system_sims. Qed.

(** ** A step to take *)
Lemma children_progress s : Forall (λ c, ∃ order, child_inv c order) (s_children s) → s_children s ≠ [] → ∃ s', system_step s s'.
Proof.
  destruct s as [n p inp cu [|c ch] z g o x]; cbn; [done|]. intros Hch _. inversion_clear Hch as [|? ? [order Hc] _].
  destruct (child_progress c order Hc) as [He|[c' Hs]]; [|eexists; by apply (ss_child n p inp cu [] c c')].
  destruct c as [q f at_ sp ts m t]. unfold at_end in He. cbn in He. subst at_. eexists. by apply (ss_print n p inp cu []).
Qed.

Lemma system_progress inp s : rtc system_step (start_system inp) s → s_at s ≠ Exited → ∃ s', system_step s s'.
Proof.
  intros Hr Hne. destruct (reachable_system_inv inp s Hr) as [_ Hc Hf Hch _]. destruct (reachable_proj_inv inp s Hr) as [Hsl Hp Hg _]. cbn in *.
  destruct s as [n p inp' cu ch z g o x]; cbn in *. destruct p as [| | | | | | |p|p]; cbn in *.
  - destruct n as [|n]; [|eexists; apply ss_sem_wait]. destruct ch as [|c ch]; [|by apply children_progress].
    destruct g; [eexists; by apply ss_signal|]. destruct Hg; [unfold MAX_CHILDREN in *; cbn in *; lia|done|done].
  - destruct inp' as [|q inp']; [eexists; apply ss_end_of_input|]. destruct (q_func q) eqn:E; eexists; [by apply ss_valid|by apply ss_invalid].
  - destruct cu as [[q f]|]; [eexists; apply ss_fork|]. by destruct (proj1 Hc eq_refl).
  - eexists. apply ss_post_fork.
  - destruct z; [|eexists; apply ss_wait]. destruct ch; [eexists; apply ss_wait_none|by apply children_progress].
  - eexists. apply ss_post_wait.
  - done.
  - destruct z; eexists; [apply ss_waitpid_none|apply ss_waitpid].
  - eexists. apply ss_post_handler.
Qed.

(** ** Every run ends *)
Definition child_cost : nat := 5 + (5 * THREADS + THREADS + 2).
Fixpoint at_weight (p : at_) : nat :=
  match p with
  | Wait => 4 | Input => 3 | Fork => child_cost + 6 | ForkFailed => 5 | Reap => 1 | ReapPost => 2 | Exited => 0
  | Handler p => at_weight p + 1 | HandlerPost p => at_weight p + 2
  end.
Definition system_weight s : nat :=
  at_weight (s_at s) + (child_cost + 4) * length (s_input s) + sum_list_with child_weight (s_children s) + 2 * s_zombies s + (if s_sigchld s then 2 else 0).

Lemma system_step_weight s s' : system_step s s' → (system_weight s' < system_weight s)%nat.
Proof.
  unfold system_weight. intros Hs. destruct Hs as [| | | | | | | | | | | | | |n p inp cu l c c' l' z g o x Hst| |]; cbn [s_at at_weight s_input s_children s_zombies s_sigchld length sum_list_with];
    rewrite ?sum_list_with_app; cbn [sum_list_with]; try lia.
  - unfold child_weight, child_cost. cbn. lia.
  - pose proof (child_step_weight _ _ Hst). lia.
  - unfold child_weight. cbn. destruct g; lia.
  - unfold child_weight. cbn. destruct g; lia.
Qed.

Lemma system_ends s : sn system_step s.
Proof.
  remember (system_weight s) as n eqn:E. revert s E. induction (lt_wf n) as [n _ IH]. intros s ->. constructor. intros s' Hs.
  by apply (IH (system_weight s')); [apply system_step_weight|].
Qed.
End system.

(** * Properties *)

(** C25: [processThread.c], whatever the order in which its processes, their threads and the signals run: at most [MAX_CHILDREN]
    children exist; every result printed is the sum of the areas of all [THREADS] parts of its query's range, computed by the program's own
    double operations and each added exactly once, in some order (no update of the total is lost); no state is stuck until the parent has
    exited, and then every query before the first invalid one has been answered exactly once, except those for which [fork] or
    [pthread_create] failed; and every run ends. *)
Theorem queries_correct {F} `{Floating F, !Libm F} (inp : list (query (F := F))) s :
  rtc system_step (start_system inp) s →
  (length (s_children s) + s_zombies s ≤ MAX_CHILDREN)%nat
  ∧ Forall (λ r, answers r.1 r.2) (s_output s)
  ∧ (s_at s ≠ Exited → ∃ s', system_step s s')
  ∧ (s_at s = Exited → (s_output s).*1 ++ s_failed s ≡ₚ asked inp)
  ∧ sn system_step s.
Proof.
  intros Hr. destruct (reachable_system_inv inp s Hr) as [Ha Hc _ _ Ho]. destruct (reachable_proj_inv inp s Hr) as [Hsl _ _ He]. cbn in *.
  split_and!; [lia|done|by apply (system_progress inp)| |apply system_ends].
  intros Hx. destruct (He Hx) as [Hch _]. apply nil_length_inv in Hch. unfold accounted in Ha. rewrite (not_forking s Hc), Hch, Hx in Ha by (by rewrite Hx). cbn in Ha.
  by rewrite app_nil_r in Ha.
Qed.

(** IEEE doubles, the identity in place of [sin]: four threads integrate it over [0, 1] in six steps; the first two of them contend for the mutex. *)
#[local] Transparent processThread_THREADS.
#[local] Instance demo_libm : Libm spec_float := {| exp x := x; sqrt x := x; sin x := x; M_PI := d_of 3 |}.
Definition demo_query : query := mk_query 4 (str "sin") (d_of 0 : spec_float) (d_of 1) 6.

#[local] Ltac child_goes t := eapply rtc_l; [apply (ss_child _ _ _ _ []); t|]; cbn [app].
#[local] Tactic Notation "thread_goes" open_constr(t) := child_goes ltac:(eapply t; reflexivity); cbn [insert list_insert].
#[local] Ltac thread_adds j :=
  thread_goes (mutex_lock (F := spec_float) _ _ _ _ _ _ j); thread_goes (load_total (F := spec_float) _ _ _ _ _ _ _ j);
  thread_goes (store_total (F := spec_float) _ _ _ _ _ _ _ j _ _); thread_goes (mutex_unlock (F := spec_float) _ _ _ _ _ _ _ j).
Lemma demo_run : ∃ s, rtc system_step (start_system [demo_query]) s ∧ s_at s = Exited ∧ length (s_output s) = 1%nat.
Proof.
  eexists. split; [|shelve].
  eapply rtc_l; [apply ss_sem_wait|]. eapply rtc_l; [apply (ss_valid _ _ sin); reflexivity|]. eapply rtc_l; [apply ss_fork|]. unfold new_child. cbn [app].
  do 2 (child_goes ltac:(apply pthread_create; unfold THREADS; lia)).
  thread_goes (mutex_lock (F := spec_float) _ _ _ _ _ _ 1%nat). thread_goes (load_total (F := spec_float) _ _ _ _ _ _ _ 1%nat).
  do 2 (child_goes ltac:(apply pthread_create; unfold THREADS; lia)). child_goes ltac:(apply all_created; unfold THREADS; lia).
  thread_goes (store_total (F := spec_float) _ _ _ _ _ _ _ 1%nat _ _). thread_goes (mutex_unlock (F := spec_float) _ _ _ _ _ _ _ 1%nat).
  thread_adds 0%nat. thread_adds 3%nat. thread_adds 2%nat.
  do 4 (child_goes ltac:(apply pthread_join; [unfold THREADS; lia|reflexivity])).
  eapply rtc_l; [apply (ss_print _ _ _ _ [])|]. cbn [app].
  eapply rtc_l; [apply ss_signal; done|]. eapply rtc_l; [apply ss_waitpid|]. eapply rtc_l; [apply ss_post_handler|]. eapply rtc_l; [apply ss_waitpid_none|].
  eapply rtc_l; [apply ss_sem_wait|]. eapply rtc_l; [apply ss_end_of_input|]. eapply rtc_l; [apply ss_wait_none|]. apply rtc_refl.
  Unshelve. split; reflexivity.
Qed.

Lemma queries_correct_witness : ∃ s, rtc system_step (start_system [demo_query]) s ∧ s_at s = Exited ∧ length (s_output s) = 1%nat
  ∧ (s_output s).*1 ++ s_failed s ≡ₚ [demo_query] ∧ Forall (λ r, answers r.1 r.2) (s_output s).
Proof.
  destruct demo_run as (s & Hr & Hx & Hl). exists s. destruct (queries_correct [demo_query] s Hr) as (_ & Ho & _ & Ha & _).
  split_and!; [exact Hr|exact Hx|exact Hl|exact (Ha Hx)|exact Ho].
Defined.
