(* ===== verification/Umalloc.v ===== *)
(** The memory allocator of user programs ([umalloc.c], by Kernighan and Ritchie): a ring of free blocks in the order of
    their addresses.

    Sizes are in units of a header (8 bytes).  The memory is a map from the addresses of headers to headers; what the
    program keeps in its blocks is elsewhere.  [base] is the static header the ring starts at; [room] says whether the
    kernel has the pages for a growth ([growproc]). *)
From S2P Require Export Kalloc.

(** * The code *)

Record header := mk_header { ptr : Z; hsize : Z }.
Record arena := mk_arena { cells : gmap Z header; freep : Z; brk : Z }.
#[export] Instance upd_arena : Updatable arena := λ r, mk_arena (cells r) (freep r) (brk r).
Abbreviation U := (M arena).
Definition HDR : Z := 8.

Section allocator.
Context (base : Z) (room : Z → Z → bool).

Definition hdr (p : Z) : U header := gets (λ s, default (mk_header 0 0) (cells s !! p)).
Definition put (p : Z) (h : header) : U unit := modify (λ s, s <| cells ::= <[p := h]> |>).
Definition set_ptr (p v : Z) : U unit := h ← hdr p; put p (mk_header v (hsize h)).
Definition set_size (p v : Z) : U unit := h ← hdr p; put p (mk_header (ptr h) v).
Definition set_freep (p : Z) : U unit := modify (λ s, s <| freep := p |>).

(** The system call: the old end of the memory, or -1. *)
Definition sbrk (n : Z) : U Z := λ s,
  if (brk s + n <? KERNBASE) && room (brk s) n then Ok (brk s) (s <| brk ::= λ b, b + n |>) else Ok (-1) s.

(** The loop of [free]: it stops at the block after which [bp] belongs. *)
Definition free_body (bp p : Z) : U (Z + Z) :=
  h ← hdr p;
  if (p <? bp) && (bp <? ptr h) then mret (inr p)
  else if (ptr h <=? p) && ((p <? bp) || (bp <? ptr h)) then mret (inr p)
  else mret (inl (ptr h)).

(** [free] when it has found [p]: it joins [bp] with the block after it, or points it there, and then [p] with [bp]. *)
Definition join_at (b n : Z) : U unit :=
  h ← hdr b;
  if b + HDR * hsize h =? n then
    nh ← hdr n;
    set_size b (u32 (hsize h + hsize nh));;
    set_ptr b (ptr nh)
  else set_ptr b n.
Definition join (bp p : Z) : U unit :=
  ph ← hdr p;
  join_at bp (ptr ph);;
  join_at p bp;;
  set_freep p.

Definition free (ap : Z) : U unit :=
  let bp := ap - HDR in
  s ← get;
  p ← iterM (S (size (cells s))) (free_body bp) (freep s);
  join bp p.

Definition morecore (nu : Z) : U Z :=
  let nu := if nu <? 4096 then 4096 else nu in
  p ← sbrk (i32 (u32 (nu * HDR)));
  if p =? -1 then mret 0 else
  set_size p nu;;
  free (p + HDR);;
  gets freep.

(** The loop of [malloc] over [prevp] and [p]. *)
Definition malloc_body (nunits : Z) : Z * Z → U ((Z * Z) + Z) := λ '(prevp, p),
  h ← hdr p;
  if nunits <=? hsize h then
    q ← (if hsize h =? nunits then set_ptr prevp (ptr h);; mret p
         else
           set_size p (hsize h - nunits);;
           let q := p + HDR * (hsize h - nunits) in
           set_size q nunits;;
           mret q);
    set_freep prevp;;
    mret (inr (q + HDR))
  else
    let next p := h ← hdr p; mret (inl (p, ptr h)) in
    s ← get;
    if p =? freep s then
      p ← morecore nunits;
      if p =? 0 then mret (inr 0) else next p
    else next p.

Definition malloc (nbytes : Z) : U Z :=
  let nunits := u32 (nbytes + HDR - 1) / HDR + 1 in
  fp ← gets freep;
  prevp ← (if fp =? 0 then set_ptr base base;; set_freep base;; set_size base 0;; mret base else mret fp);
  h ← hdr prevp;
  s ← get;
  iterM (2 * size (cells s) + 6) (malloc_body nunits) (prevp, ptr h).

(** * The ring *)
Abbreviation block := (Z * Z)%type.

Definition hd_addr (l : list block) (q : Z) : Z := match l with [] => q | (a, _) :: _ => a end.

(** The headers of the blocks [l], each pointing to the next, the last to [q]. *)
Fixpoint ring (c : gmap Z header) (l : list block) (q : Z) : Prop :=
  match l with
  | [] => True
  | (a, z) :: l => c !! a = Some (mk_header (hd_addr l q) z) ∧ ring c l q
  end.

(** The blocks are in order, and no two of them touch. *)
Fixpoint gaps (lo : Z) (l : list block) : Prop :=
  match l with [] => True | (a, z) :: l => lo < a ∧ gaps (a + HDR * z) l end.
Definition end_of (lo : Z) (l : list block) : Z := foldl (λ _ b, fst b + HDR * snd b) lo l.

Lemma hd_addr_app l1 l2 q : hd_addr (l1 ++ l2) q = hd_addr l1 (hd_addr l2 q).
Proof. by destruct l1 as [|[a z] l1]. Qed.

Lemma hd_ring_app c l1 l2 q : ring c (l1 ++ l2) q ↔ ring c l1 (hd_addr l2 q) ∧ ring c l2 q.
Proof.
  induction l1 as [|[a z] l1 IH]; cbn [app ring]; [naive_solver|]. rewrite IH, hd_addr_app. naive_solver.
Qed.

Lemma ring_cells_ext c c' l q : (∀ a z, (a, z) ∈ l → c' !! a = c !! a) → ring c l q → ring c' l q.
Proof.
  induction l as [|[a z] l IH]; cbn [ring]; [done|]. intros E [Ha Hl]. split.
  - rewrite (E a z) by (apply elem_of_cons; auto). done.
  - apply IH; [|done]. intros b w Hb. apply (E b w), elem_of_cons. auto.
Qed.

Lemma gaps_app lo l1 l2 : gaps lo (l1 ++ l2) ↔ gaps lo l1 ∧ gaps (end_of lo l1) l2.
Proof.
  revert lo. induction l1 as [|[a z] l1 IH]; intros lo; cbn [app gaps]; [naive_solver|]. rewrite IH. cbn. naive_solver.
Qed.

Lemma gaps_mono lo lo' l : lo' ≤ lo → gaps lo l → gaps lo' l.
Proof. destruct l as [|[a z] l]; cbn [gaps]; [done|]. intros ? []. split; [lia|done]. Qed.

Lemma ring_lookup c l q i a z :
  ring c l q → l !! i = Some (a, z) → c !! a = Some (mk_header (hd_addr (drop (S i) l) q) z).
Proof.
  revert i. induction l as [|[b w] l IH]; intros i; [done|]. cbn [ring]. intros [Hb Hl].
  destruct i as [|i]; cbn [lookup list_lookup drop]; [intros [= -> ->]; exact Hb|]. intros E. by apply IH.
Qed.

Lemma gaps_first lo l i a z : (∀ b w, (b, w) ∈ l → 0 ≤ w) → gaps lo l → l !! i = Some (a, z) → lo < a.
Proof.
  revert lo i. induction l as [|[b w] l IH]; intros lo i Hp; [done|]. cbn [gaps]. intros [Hb Hl].
  destruct i as [|i]; cbn; [intros [= -> ->]; done|]. intros E.
  assert (0 ≤ w) by (apply (Hp b), elem_of_cons; auto).
  assert (b + HDR * w < a); [|unfold HDR in *; lia].
  eapply IH; [|done|done]. intros b' w' Hw. apply (Hp b'), elem_of_cons. auto.
Qed.

Lemma gaps_lookup lo l i j a z b w :
  (∀ b w, (b, w) ∈ l → 0 ≤ w) → gaps lo l → l !! i = Some (a, z) → l !! j = Some (b, w) → (i < j)%nat → a + HDR * z < b.
Proof.
  revert lo i j. induction l as [|[b' w'] l IH]; intros lo i j Hp; [done|]. cbn [gaps]. intros [Hb Hl].
  assert (Hp' : ∀ b w, (b, w) ∈ l → 0 ≤ w) by (intros c v Hc; apply (Hp c), elem_of_cons; auto).
  destruct j as [|j]; [lia|]. destruct i as [|i]; cbn.
  - intros [= -> ->] E _. by eapply gaps_first.
  - intros Ei Ej Hij. eapply (IH _ i j); try done. lia.
Qed.

(** The addresses in a block and in the blocks [l]. *)
Definition within (a z x : Z) : Prop := a ≤ x < a + HDR * z.
Definition covers (l : list block) (x : Z) : Prop := ∃ b w, (b, w) ∈ l ∧ within b w x.

Lemma covers_nil x : covers [] x ↔ False.
Proof. split; [|done]. by intros (b & w & Hb%elem_of_nil & _). Qed.
Lemma covers_cons a z l x : covers ((a, z) :: l) x ↔ within a z x ∨ covers l x.
Proof.
  unfold covers. split.
  - intros (b & w & [[= -> ->]|Hb]%elem_of_cons & Hx); [by left|right; eauto].
  - intros [Hx|(b & w & Hb & Hx)]; [exists a, z|exists b, w]; (split; [apply elem_of_cons; auto|done]).
Qed.
Lemma covers_app l1 l2 x : covers (l1 ++ l2) x ↔ covers l1 x ∨ covers l2 x.
Proof.
  induction l1 as [|[a z] l1 IH]; cbn [app]; [rewrite covers_nil; tauto|]. rewrite !covers_cons, IH. tauto.
Qed.

(** Whether two blocks are apart. *)
Definition apart (a z b w : Z) : Prop := a + HDR * z ≤ b ∨ b + HDR * w ≤ a.

Definition starts_after (x : Z) (l : list block) : Prop := match l with [] => True | (b, _) :: _ => x ≤ b end.

(** The last block before [a], in a list that starts before it. *)
Lemma place l p zp a z :
  (∀ b w, (b, w) ∈ l → 0 < w ∧ apart a z b w) → gaps (p + HDR * zp) l → p < a → p + HDR * zp ≤ a →
  ∃ R1 p' zp' R2, (p, zp) :: l = R1 ++ (p', zp') :: R2 ∧ p' < a ∧ p' + HDR * zp' ≤ a
    ∧ starts_after (a + HDR * z) R2.
Proof.
  revert p zp. induction l as [|[b w] l IH]; intros p zp Hd Hg Hp Hz.
  - exists [], p, zp, []. by split_and!.
  - destruct (Hd b w ltac:(apply elem_of_cons; auto)) as [Hw [Hab|Hba]].
    + exists [], p, zp, ((b, w) :: l). by split_and!.
    + destruct Hg as [Hpb Hg]. destruct (IH b w) as (R1 & p' & zp' & R2 & E & Hrest); [|done|unfold HDR in *; lia|done|].
      { intros c v Hc. apply Hd, elem_of_cons. auto. }
      exists ((p, zp) :: R1), p', zp', R2. split; [by rewrite E|done].
Qed.

(** * What the allocator keeps *)

(** The blocks that are free are [F], those the program has are [A], by address: all lie between [base] and the end of the
    memory, and no address is in two of them. *)
Record inv (F : list block) (A : gmap Z Z) (s : arena) : Prop := {
  inv_ring : ring (cells s) ((base, 0) :: F) base;
  inv_gaps : gaps (base - 1) ((base, 0) :: F);
  inv_free a z : (a, z) ∈ F → 0 < z;
  inv_used a z : A !! a = Some z → 0 < z ∧ ∃ p, cells s !! a = Some (mk_header p z);
  inv_free_in x : covers F x → base + HDR ≤ x < brk s;
  inv_used_in a z x : A !! a = Some z → within a z x → base + HDR ≤ x < brk s ∧ ¬ covers F x;
  inv_used_apart a z b w x : A !! a = Some z → A !! b = Some w → within a z x → within b w x → a = b;
  inv_freep : freep s ∈ base :: F.*1;
  inv_brk : 0 < base ∧ base + HDR ≤ brk s < KERNBASE }.

Lemma inv_sizes F A s : inv F A s → ∀ b w, (b, w) ∈ (base, 0) :: F → 0 ≤ w.
Proof. intros Hi b w [[= -> ->]|Hb]%elem_of_cons; [lia|]. pose proof (inv_free _ _ _ Hi b w Hb). lia. Qed.

Lemma inv_free_range F A s b w : inv F A s → (b, w) ∈ F → base + HDR ≤ b ∧ b + HDR * w ≤ brk s.
Proof.
  intros Hi Hb. pose proof (inv_free _ _ _ Hi b w Hb). unfold HDR in *.
  pose proof (inv_free_in _ _ _ Hi b ltac:(exists b, w; unfold within, HDR; split; [done|lia])).
  pose proof (inv_free_in _ _ _ Hi (b + 8 * w - 1) ltac:(exists b, w; unfold within, HDR; split; [done|lia])). unfold HDR in *. lia.
Qed.

Lemma inv_used_range F A s a z : inv F A s → A !! a = Some z → base + HDR ≤ a ∧ a + HDR * z ≤ brk s.
Proof.
  intros Hi Ha. destruct (inv_used _ _ _ Hi a z Ha) as [Hz _].
  destruct (inv_used_in _ _ _ Hi a z a Ha ltac:(unfold within, HDR; lia)) as [H1 _].
  destruct (inv_used_in _ _ _ Hi a z (a + HDR * z - 1) Ha ltac:(unfold within, HDR in *; lia)) as [H2 _]. unfold HDR in *. lia.
Qed.

Lemma inv_base F A s b w : inv F A s → (b, w) ∈ (base, 0) :: F → base ≤ b.
Proof. intros Hi [[= -> ->]|Hb]%elem_of_cons; [lia|]. pose proof (inv_free_range _ _ _ _ _ Hi Hb). unfold HDR in *. lia. Qed.

(** A block of the program and a free block. *)
Lemma inv_apart F A s a z b w : inv F A s → A !! a = Some z → (b, w) ∈ F → apart a z b w ∧ a ≠ b.
Proof.
  intros Hi Ha Hb. pose proof (inv_free _ _ _ Hi b w Hb). destruct (inv_used _ _ _ Hi a z Ha) as [Hz _].
  assert (apart a z b w) as Hap; [|split; [done|]; intros ->; unfold apart, HDR in *; lia].
  unfold apart. destruct (decide (a + HDR * z ≤ b)); [by left|]. destruct (decide (b + HDR * w ≤ a)); [by right|]. exfalso.
  eapply (inv_used_in _ _ _ Hi a z (Z.max a b) Ha); [unfold within, HDR in *; lia|].
  exists b, w. split; [done|]. unfold within, HDR in *. lia.
Qed.

Lemma inv_not_ring F A s a z w : inv F A s → A !! a = Some z → (a, w) ∉ (base, 0) :: F.
Proof.
  intros Hi Ha [[= -> ->]|Hw]%elem_of_cons; [|by destruct (inv_apart _ _ _ _ _ _ _ Hi Ha Hw)].
  pose proof (inv_used_range _ _ _ _ _ Hi Ha). unfold HDR in *; lia.
Qed.

Lemma inv_freep_at F A s : inv F A s → ∃ i z, ((base, 0) :: F) !! i = Some (freep s, z).
Proof.
  intros Hi. pose proof (inv_freep _ _ _ Hi) as Hf. change (base :: F.*1) with (((base, 0) :: F).*1) in Hf.
  apply list_elem_of_fmap in Hf as ([b z] & E & Hb). apply list_elem_of_lookup in Hb as [i Hb]. exists i, z. cbn in E. by rewrite E.
Qed.

(** Running the accessors. *)
Lemma hdr_ok s p h : cells s !! p = Some h → hdr p s = Ok h s.
Proof. intros E. unfold hdr, gets. by rewrite E. Qed.
Lemma set_ptr_ok s p v h : cells s !! p = Some h → set_ptr p v s = Ok tt (s <| cells ::= <[p := mk_header v (hsize h)]> |>).
Proof. intros E. unfold set_ptr. by mstep_with (hdr_ok _ _ _ E). Qed.
Lemma set_size_ok s p v h : cells s !! p = Some h → set_size p v s = Ok tt (s <| cells ::= <[p := mk_header (ptr h) v]> |>).
Proof. intros E. unfold set_size. by mstep_with (hdr_ok _ _ _ E). Qed.

(** * [free] finds the place *)
Section find.
Context (F : list block) (A : gmap Z Z) (s : arena) (Hi : inv F A s).
Context (a : Z) (R1 R2 : list block) (p zp : Z) (ER : (base, 0) :: F = R1 ++ (p, zp) :: R2).
Context (Ha : base < a) (Hp : p < a) (Hn : starts_after (a + 1) R2).
Let R := (base, 0) :: F.
Let Hr : ring (cells s) R base := inv_ring _ _ _ Hi.
Let Hs : ∀ b w, (b, w) ∈ R → 0 ≤ w := inv_sizes _ _ _ Hi.

Lemma place_index : R !! length R1 = Some (p, zp).
Proof. unfold R. rewrite ER, lookup_app_r by lia. by rewrite Nat.sub_diag. Qed.

Lemma place_drop : drop (S (length R1)) R = R2.
Proof. unfold R. rewrite ER, cons_middle, app_assoc. rewrite drop_app_length' by (rewrite length_app; cbn; lia). done. Qed.

Lemma blocks_lt i j q z b w : R !! i = Some (q, z) → R !! j = Some (b, w) → (i < j)%nat → q < b.
Proof.
  intros Eq Eb Hij. pose proof (gaps_lookup _ _ _ _ _ _ _ _ Hs (inv_gaps _ _ _ Hi) Eq Eb Hij).
  assert (0 ≤ z) by (eapply (Hs q), list_elem_of_lookup_2, Eq). unfold HDR in *. lia.
Qed.

Lemma before_place i q z : R !! i = Some (q, z) → (i ≤ length R1)%nat → q ≤ p.
Proof.
  intros Eq Hle. pose proof place_index as Ep. destruct (decide (i = length R1)) as [->|Hne].
  - rewrite Ep in Eq. injection Eq as <- <-. lia.
  - pose proof (blocks_lt _ _ _ _ _ _ Eq Ep ltac:(lia)). lia.
Qed.

Lemma after_place i q z : R !! i = Some (q, z) → (length R1 < i)%nat → a < q.
Proof.
  intros Eq Hlt. pose proof place_drop as Ed. destruct R2 as [|[b w] R2'].
  - apply lookup_lt_Some in Eq. apply (f_equal length) in Ed. rewrite length_drop in Ed. change (length (@nil block)) with 0%nat in Ed. lia.
  - assert (Eb : R !! S (length R1) = Some (b, w)) by (rewrite <-(Nat.add_0_r (S (length R1))), <-lookup_drop, Ed; done).
    cbn in Hn. destruct (decide (i = S (length R1))) as [->|Hne].
    + rewrite Eb in Eq. injection Eq as <- <-. lia.
    + pose proof (blocks_lt _ _ _ _ _ _ Eb Eq ltac:(lia)). lia.
Qed.

(** At every block but [p] the loop goes on to the next. *)
Lemma free_body_at i q zq : R !! i = Some (q, zq) →
  free_body a q s = Ok (if decide (i = length R1) then inr p else inl (hd_addr (drop (S i) R) base)) s.
Proof.
  intros Eq. assert (Hbq : base ≤ q) by (eapply (inv_base F A s q zq Hi), list_elem_of_lookup_2, Eq).
  unfold free_body. rewrite (bind_ok _ _ _ _ _ (hdr_ok _ _ _ (ring_lookup _ _ _ _ _ _ Hr Eq))). cbn [ptr hsize].
  case_decide as Ei.
  - subst i. rewrite place_index in Eq. injection Eq as <- <-. rewrite place_drop. rewrite (proj2 (Z.ltb_lt p a)) by done.
    destruct R2 as [|[b w] R2']; cbn [hd_addr starts_after] in *.
    + by rewrite (proj2 (Z.ltb_ge a base)), (proj2 (Z.leb_le base p)) by lia.
    + by rewrite (proj2 (Z.ltb_lt a b)) by lia.
  - destruct (R !! S i) as [[b w]|] eqn:Eb.
    + rewrite (drop_S _ _ _ Eb). cbn [hd_addr]. pose proof (blocks_lt _ _ _ _ _ _ Eq Eb ltac:(lia)) as Hlt.
      rewrite (proj2 (Z.leb_gt b q)) by lia. destruct (decide (i < length R1)%nat) as [Hi1|Hi1].
      * pose proof (before_place _ _ _ Eb ltac:(lia)). by rewrite (proj2 (Z.ltb_ge a b)), andb_false_r by lia.
      * pose proof (after_place _ _ _ Eq ltac:(lia)). by rewrite (proj2 (Z.ltb_ge q a)) by lia.
    + apply lookup_ge_None in Eb. rewrite drop_ge by done. cbn [hd_addr].
      pose proof (lookup_lt_Some _ _ _ place_index). pose proof (after_place _ _ _ Eq ltac:(lia)).
      rewrite (proj2 (Z.ltb_ge q a)), (proj2 (Z.ltb_ge a base)) by lia. cbn [orb andb]. by rewrite andb_false_r.
Qed.

(** From a block up to [p] the loop walks up to it; from one behind [p] it first walks round to [base]. *)
Lemma free_up i q zq fuel : R !! i = Some (q, zq) → (i ≤ length R1 < i + fuel)%nat → iterM fuel (free_body a) q s = Ok p s.
Proof.
  revert i q zq. induction fuel as [|fuel IH]; intros i q zq Eq Hle; [lia|].
  pose proof (free_body_at _ _ _ Eq) as Eb. case_decide as Ei; [by apply iterM_inr|].
  rewrite (iterM_inl _ _ _ _ _ _ Eb). pose proof (lookup_lt_Some _ _ _ place_index).
  destruct (lookup_lt_is_Some_2 R (S i) ltac:(lia)) as [[b w] E]. rewrite (drop_S _ _ _ E). cbn [hd_addr].
  apply (IH (S i) b w); [done|lia].
Qed.

Lemma free_round i q zq fuel : R !! i = Some (q, zq) → (length R + length R1 < i + fuel)%nat → iterM fuel (free_body a) q s = Ok p s.
Proof.
  revert i q zq. induction fuel as [|fuel IH]; intros i q zq Eq Hle; [apply lookup_lt_Some in Eq; lia|].
  pose proof (lookup_lt_Some _ _ _ place_index). pose proof (lookup_lt_Some _ _ _ Eq).
  destruct (decide (i ≤ length R1)%nat); [apply (free_up i q zq); [done|lia]|].
  pose proof (free_body_at _ _ _ Eq) as Eb. rewrite decide_False in Eb by lia. rewrite (iterM_inl _ _ _ _ _ _ Eb).
  destruct (R !! S i) as [[b w]|] eqn:E.
  - rewrite (drop_S _ _ _ E). apply (IH (S i) b w); [done|lia].
  - apply lookup_ge_None in E. rewrite drop_ge by done. apply (free_up 0 base 0); [done|lia].
Qed.
End find.

(** * [free] joins *)
Definition absorb (a z : Z) (l : list block) : list block :=
  match l with
  | [] => [(a, z)]
  | (n, w) :: l' => if a + HDR * z =? n then (a, z + w) :: l' else (a, z) :: l
  end.

(** Putting a header in front of its ring. *)
Lemma ring_front c l q a z : (∀ w, (a, w) ∉ l) → ring c l q → ring (<[a := mk_header (hd_addr l q) z]> c) ((a, z) :: l) q.
Proof.
  intros Ha Hl. cbn [ring]. split; [apply lookup_insert_eq|].
  eapply ring_cells_ext; [|exact Hl]. intros b w Hb. apply lookup_insert_ne. intros ->. by destruct (Ha w).
Qed.

(** What [absorb] gives: the block [a], grown, and blocks of [l]; in order and within bounds as [l] is. *)
Lemma absorb_spec a z l lo : 0 ≤ z → gaps lo l → (∀ b w, (b, w) ∈ l → 0 ≤ w) → starts_after (a + HDR * z) l →
  ∃ z' l', absorb a z l = (a, z') :: l' ∧ z ≤ z' ∧ (∀ b, b ∈ l' → b ∈ l) ∧ gaps (a + HDR * z') l'
  ∧ (z' = z ∨ ∃ n w, (n, w) ∈ l ∧ n = a + HDR * z ∧ z' = z + w) ∧ (length l' ≤ length l)%nat
  ∧ ∀ x, covers ((a, z') :: l') x ↔ within a z x ∨ covers l x.
Proof.
  intros Hz Hg Hp Hst. destruct l as [|[n w] l]; cbn [absorb].
  { exists z, []. split_and!; try done; [by left|]. intros x. by rewrite covers_cons. }
  cbn in Hst. destruct Hg as [Hlo Hg]. assert (0 ≤ w) by (apply (Hp n), elem_of_cons; auto). unfold HDR in *.
  destruct (Z.eqb_spec (a + 8 * z) n) as [En|Nn].
  - exists (z + w), l. split_and!; [done|lia|intros; apply elem_of_cons; auto| | | |].
    + by replace (a + 8 * (z + w)) with (n + 8 * w) by lia.
    + right. exists n, w. split; [apply elem_of_cons; auto|lia].
    + cbn; lia.
    + intros x. rewrite !covers_cons. assert (within a (z + w) x ↔ within a z x ∨ within n w x) by (unfold within, HDR; lia). tauto.
  - exists z, ((n, w) :: l). split_and!; [done|lia|auto|cbn; split; [lia|done]|by left|done|].
    intros x. by rewrite covers_cons.
Qed.

(** [join_at a] makes [a] absorb. *)
Lemma join_at_ok s l q a x z :
  ring (cells s) l q → cells s !! a = Some (mk_header x z) → (l = [] → a + HDR * z ≠ q) →
  (∀ w, (a, w) ∉ l) → (∀ n w, (n, w) ∈ l → n = a + HDR * z → 0 ≤ z + w < 4294967296) →
  ∃ c z' l', absorb a z l = (a, z') :: l' ∧ join_at a (hd_addr l q) s = Ok tt (mk_arena c (freep s) (brk s))
  ∧ c = <[a := mk_header (hd_addr l' q) z']> (cells s) ∧ ring c (absorb a z l) q.
Proof.
  intros Hr Ha Hq Hn Hu. unfold join_at. mstep_with (hdr_ok _ _ _ Ha). cbn [hsize ptr].
  assert (Hx : ∀ z' l', (∀ b, b ∈ l' → b ∈ l) → ring (cells s) l' q →
    ring (<[a := mk_header (hd_addr l' q) z']> (cells s)) ((a, z') :: l') q).
  { intros z' l' Hsub Hl'. apply ring_front; [|done]. intros w Hw. by apply (Hn w), Hsub. }
  destruct l as [|[n w] l]; cbn [absorb].
  - specialize (Hq eq_refl). cbn [hd_addr]. rewrite (proj2 (Z.eqb_neq _ _)) by done.
    exists (<[a := mk_header q z]> (cells s)), z, []. split_and!; [done| |done|by apply (Hx z [])].
    by rewrite (set_ptr_ok _ _ _ _ Ha); destruct s.
  - cbn [hd_addr]. destruct (Z.eqb_spec (a + HDR * z) n) as [En|Nn].
    + destruct Hr as [Hnc Hl]. mstep_with (hdr_ok _ _ _ Hnc). cbn [hsize ptr].
      assert (0 ≤ z + w < 4294967296) by (apply (Hu n); [apply elem_of_cons; auto|done]).
      rewrite (bind_ok _ _ _ _ _ (set_size_ok _ _ _ _ Ha)). cbn [ptr]. unfold u32. rewrite Z.mod_small by done.
      exists (<[a := mk_header (hd_addr l q) (z + w)]> (cells s)), (z + w), l.
      split_and!; [done| |done|apply Hx; [intros; apply elem_of_cons; auto|done]].
      rewrite (set_ptr_ok _ _ _ (mk_header x (z + w))) by (cbn; apply lookup_insert_eq).
      destruct s as [c f b]. change (Ok tt (mk_arena (<[a := mk_header (hd_addr l q) (z + w)]> (<[a := mk_header x (z + w)]> c)) f b)
        = Ok tt (mk_arena (<[a := mk_header (hd_addr l q) (z + w)]> c) f b)). by rewrite insert_insert_eq.
    + exists (<[a := mk_header n z]> (cells s)), z, ((n, w) :: l). split_and!; [done| |done|by apply (Hx z ((n, w) :: l))].
      by rewrite (set_ptr_ok _ _ _ _ Ha); destruct s.
Qed.

(** * [free] is right *)
Lemma ring_tail R1 p zp R2 F b w : (base, 0) :: F = R1 ++ (p, zp) :: R2 → (b, w) ∈ R2 → (b, w) ∈ F.
Proof.
  intros E Hb. destruct R1 as [|r R1]; injection E as E1 E2; subst; [done|].
  apply elem_of_app. right. apply elem_of_cons. by right.
Qed.

Lemma covers_base F x : covers ((base, 0) :: F) x ↔ covers F x.
Proof. rewrite covers_cons. unfold within. split; [intros [?|?]; [lia|done]|by right]. Qed.

(** The new ring is one of free blocks: those before and the block [a]. *)
Lemma joined F A s a z R1 p zp R2 :
  inv F A s → A !! a = Some z → (base, 0) :: F = R1 ++ (p, zp) :: R2 → p + HDR * zp ≤ a → starts_after (a + HDR * z) R2 →
  ∃ F', R1 ++ absorb p zp (absorb a z R2) = (base, 0) :: F' ∧ gaps (base - 1) ((base, 0) :: F')
  ∧ (∀ b w, (b, w) ∈ F' → 0 < w) ∧ (∀ x, covers F' x ↔ covers F x ∨ within a z x) ∧ (∃ b w, (b, w) ∈ F' ∧ z ≤ w) ∧ p ∈ base :: F'.*1 ∧ (length F' ≤ S (length F))%nat.
Proof.
  intros Hi Ha ER Hp Hst. destruct (inv_used _ _ _ Hi a z Ha) as [Hz _]. pose proof (inv_used_range _ _ _ _ _ Hi Ha) as Hr.
  pose proof (inv_gaps _ _ _ Hi) as Hg. rewrite ER in Hg. apply gaps_app in Hg as [Hg1 [Hg2 Hg3]].
  assert (HR2 : ∀ b w, (b, w) ∈ R2 → 0 ≤ w) by (intros b w Hb; pose proof (inv_free _ _ _ Hi b w (ring_tail _ _ _ _ _ _ _ ER Hb)); lia).
  destruct (absorb_spec a z R2 _ ltac:(lia) Hg3 HR2 Hst) as (z1 & l1 & E1 & Hz1 & Hsub & Hgl & _ & Hlen & Hcov). rewrite E1.
  assert (Hl1 : ∀ b w, (b, w) ∈ l1 → 0 < w) by (intros b w Hb; eapply (inv_free _ _ _ Hi b), ring_tail, Hsub, Hb; exact ER).
  assert (HcR : ∀ x, covers F x ↔ covers R1 x ∨ within p zp x ∨ covers R2 x) by (intros x; by rewrite <-covers_base, ER, covers_app, covers_cons).
  cbn [absorb]. destruct (Z.eqb_spec (p + HDR * zp) a) as [Ea|Na].
  - destruct R1 as [|r R1]; injection ER as <- EF; [unfold HDR in *; lia|].
    assert (0 < zp) by (apply (inv_free _ _ _ Hi p); rewrite EF; apply elem_of_app; right; apply elem_of_cons; auto).
    exists (R1 ++ (p, zp + z1) :: l1). split_and!.
    + done.
    + change ((base, 0) :: R1 ++ (p, zp + z1) :: l1) with (((base, 0) :: R1) ++ (p, zp + z1) :: l1). apply gaps_app. split; [done|].
      split; [done|]. replace (p + HDR * (zp + z1)) with (a + HDR * z1) by (unfold HDR in *; lia). done.
    + intros b w [Hb|[[= -> ->]|Hb]%elem_of_cons]%elem_of_app; [|lia|by eapply Hl1].
      apply (inv_free _ _ _ Hi b). rewrite EF. apply elem_of_app. by left.
    + intros x. rewrite HcR, covers_base, covers_app, covers_cons. specialize (Hcov x). rewrite covers_cons in Hcov.
      assert (within p (zp + z1) x ↔ within p zp x ∨ within a z1 x) by (unfold within, HDR in *; lia). tauto.
    + exists p, (zp + z1). split; [apply elem_of_app; right; apply elem_of_cons; auto|lia].
    + rewrite fmap_app. cbn. set_solver.
    + rewrite EF, !length_app. cbn. lia.
  - assert (Hg' : gaps (base - 1) (R1 ++ (p, zp) :: (a, z1) :: l1)) by (apply gaps_app; split; [done|split; [done|split; [lia|done]]]).
    destruct R1 as [|r R1]; injection ER; [intros EF <- <-|intros EF <-].
    + exists ((a, z1) :: l1). split_and!; [done|done| | |exists a, z1; split; [apply elem_of_cons; auto|done]|apply elem_of_cons; auto|rewrite EF; cbn; lia].
      * intros b w [[= -> ->]|Hb]%elem_of_cons; [lia|by eapply Hl1].
      * intros x. rewrite Hcov, EF. tauto.
    + exists (R1 ++ (p, zp) :: (a, z1) :: l1). split_and!; [done|done| | | |rewrite fmap_app; cbn; set_solver|rewrite EF, !length_app; cbn; lia].
      * intros b w [Hb|[Hb|[[= -> ->]|Hb]%elem_of_cons]%elem_of_cons]%elem_of_app; [| |lia|by eapply Hl1].
        -- apply (inv_free _ _ _ Hi b). rewrite EF. apply elem_of_app. by left.
        -- apply (inv_free _ _ _ Hi b). rewrite EF, Hb. apply elem_of_app. right. apply elem_of_cons. by left.
      * intros x. rewrite HcR, covers_base, covers_app, covers_cons. specialize (Hcov x). tauto.
      * exists a, z1. split; [|done]. apply elem_of_app. right. apply elem_of_cons. right. apply elem_of_cons. by left.
Qed.

Lemma ring_addresses F A s i j q z w :
  inv F A s → ((base, 0) :: F) !! i = Some (q, z) → ((base, 0) :: F) !! j = Some (q, w) → i = j.
Proof.
  intros Hi Ei Ej. destruct (lt_eq_lt_dec i j) as [[Hlt| ->]|Hlt]; [|done|]; exfalso.
  - pose proof (blocks_lt F A s Hi _ _ _ _ _ _ Ei Ej Hlt). lia.
  - pose proof (blocks_lt F A s Hi _ _ _ _ _ _ Ej Ei Hlt). lia.
Qed.

Lemma ring_NoDup F A s : inv F A s → NoDup (((base, 0) :: F).*1).
Proof.
  intros Hi. apply NoDup_alt. intros i j q Ei Ej. rewrite list_lookup_fmap in Ei, Ej.
  destruct (((base, 0) :: F) !! i) as [[q1 z]|] eqn:E1, (((base, 0) :: F) !! j) as [[q2 w]|] eqn:E2; try done.
  cbn in Ei, Ej. injection Ei as ->. injection Ej as ->. by eapply ring_addresses.
Qed.

(** The ring is no longer than the table of the headers, which is the fuel of the loops. *)
Lemma blocks_size F A s : inv F A s → (length F < size (cells s))%nat.
Proof.
  intros Hi. pose proof (ring_NoDup _ _ _ Hi) as Hnd. rewrite <-size_dom.
  assert (length (((base, 0%Z) :: F).*1) ≤ length (elements (dom (cells s))))%nat as Hle.
  { apply submseteq_length, NoDup_submseteq; [done|]. intros q (b & -> & [i Hb]%list_elem_of_lookup)%list_elem_of_fmap. destruct b as [q z].
    apply elem_of_elements, elem_of_dom. cbn [fst]. rewrite (ring_lookup _ _ _ _ _ _ (inv_ring _ _ _ Hi) Hb). by eexists. }
  rewrite length_fmap in Hle. change (length F < length (elements (dom (cells s))))%nat. exact Hle.
Qed.

(** The loop of [free] stops at the block before [a]. *)
Lemma free_find F A s a R1 p zp R2 :
  inv F A s → (base, 0) :: F = R1 ++ (p, zp) :: R2 → base < a → p < a → starts_after (a + 1) R2 →
  iterM (S (size (cells s))) (free_body a) (freep s) s = Ok p s.
Proof.
  intros Hi ER Hb Hp Hst. destruct (inv_freep_at _ _ _ Hi) as (i & z & Ef). pose proof (blocks_size _ _ _ Hi) as Hsz.
  pose proof (lookup_lt_Some _ _ _ Ef) as Hlt. cbn in Hlt.
  pose proof (f_equal length ER) as El. rewrite length_app in El. cbn in El.
  destruct (decide (i ≤ length R1)%nat).
  - eapply (free_up F A s Hi a R1 R2 p zp ER Hb Hp Hst i); [exact Ef|lia].
  - eapply (free_round F A s Hi a R1 R2 p zp ER Hb Hp Hst i); [exact Ef|cbn [length]; lia].
Qed.

(** [free] when its place is known. *)
Lemma join_ok F A s a z R1 p zp R2 :
  inv F A s → A !! a = Some z → (base, 0) :: F = R1 ++ (p, zp) :: R2 → p < a → p + HDR * zp ≤ a → starts_after (a + HDR * z) R2 →
  ∃ c, join a p s = Ok tt (mk_arena c p (brk s)) ∧ ring c (R1 ++ absorb p zp (absorb a z R2)) base
  ∧ ∀ b, b ≠ a → b ≠ p → c !! b = cells s !! b.
Proof.
  intros Hi Ha ER Hpa Hp Hst. destruct (inv_used _ _ _ Hi a z Ha) as [Hz [x Hx]]. pose proof (inv_used_range _ _ _ _ _ Hi Ha) as Har.
  destruct (inv_brk _ _ _ Hi) as [Hb0 Hbk]. unfold KERNBASE in Hbk.
  pose proof (inv_ring _ _ _ Hi) as Hr. rewrite ER in Hr. apply hd_ring_app in Hr as [Hr1 [Hrp Hr2]]. cbn in Hr1.
  assert (Hnd : p ∉ R1.*1 ∧ p ∉ R2.*1).
  { pose proof (ring_NoDup _ _ _ Hi) as Hnd. rewrite ER, fmap_app in Hnd. cbn in Hnd.
    apply NoDup_app in Hnd as (_ & Hd & [Hd2 _]%NoDup_cons). split; [intros Hin; apply (Hd p Hin), elem_of_cons; auto|done]. }
  pose proof (λ w, inv_not_ring F A s a z w Hi Ha) as HaR.
  assert (HF : ∀ n w, (n, w) ∈ R2 → (n, w) ∈ F) by (intros; by eapply ring_tail).
  unfold join. mstep_with (hdr_ok _ _ _ Hrp). cbn [ptr].
  destruct (join_at_ok s R2 base a x z Hr2 Hx) as (c1 & z1 & l1 & E1 & J1 & Ec1 & Rc1).
  { unfold HDR in *; lia. }
  { intros w Hw. apply (HaR w), elem_of_cons. right. by apply HF. }
  { intros n w Hn _. pose proof (inv_free_range _ _ _ _ _ Hi (HF _ _ Hn)). pose proof (inv_free _ _ _ Hi n w (HF _ _ Hn)). unfold HDR in *; lia. }
  mstep_with J1. rewrite E1 in *.
  assert (Hp1 : c1 !! p = Some (mk_header (hd_addr R2 base) zp)) by (rewrite Ec1, lookup_insert_ne by lia; done).
  pose proof (inv_gaps _ _ _ Hi) as Hg. rewrite ER in Hg. apply gaps_app in Hg as [_ [_ Hg]].
  destruct (absorb_spec a z R2 _ ltac:(lia) Hg ltac:(intros b w Hb; pose proof (inv_free _ _ _ Hi b w (HF _ _ Hb)); lia) Hst)
    as (z1' & l1' & E1' & Hz1 & Hl1 & _ & Hz1' & _ & _).
  rewrite E1 in E1'. injection E1' as <- <-.
  assert (Hz1e : a + HDR * z1 ≤ brk s).
  { destruct Hz1' as [->|(n & w & Hn & -> & ->)]; [lia|]. pose proof (inv_free_range _ _ _ _ _ Hi (HF _ _ Hn)). unfold HDR in *; lia. }
  destruct (join_at_ok (mk_arena c1 (freep s) (brk s)) ((a, z1) :: l1) base p (hd_addr R2 base) zp Rc1 Hp1) as (c2 & z2 & l2 & E2 & J2 & Ec2 & Rc2).
  { done. }
  { intros w [[= <- ->]|Hw]%elem_of_cons; [lia|]. apply (proj2 Hnd), list_elem_of_fmap. exists (p, w). split; [done|by apply Hl1]. }
  { assert (0 ≤ zp ∧ 0 < p) as [? ?].
    { assert ((p, zp) ∈ (base, 0) :: F) as Hin by (rewrite ER; apply elem_of_app; right; apply elem_of_cons; auto).
      pose proof (inv_sizes _ _ _ Hi _ _ Hin). pose proof (inv_base _ _ _ _ _ Hi Hin). lia. }
    intros n w [[= -> ->]|Hn]%elem_of_cons En.
    - unfold HDR in *; lia.
    - pose proof (inv_free_range _ _ _ _ _ Hi (HF _ _ (Hl1 _ Hn))). pose proof (inv_free _ _ _ Hi n w (HF _ _ (Hl1 _ Hn))). unfold HDR in *; lia. }
  cbn [hd_addr] in J2. mstep_with J2. exists c2. split; [by destruct s|]. split.
  - apply hd_ring_app. split; [|done]. rewrite E2. cbn [hd_addr]. eapply ring_cells_ext; [|exact Hr1]. intros b w Hb.
    rewrite Ec2, lookup_insert_ne by (intros ->; apply (proj1 Hnd), list_elem_of_fmap; by exists (b, w)).
    cbn. rewrite Ec1, lookup_insert_ne; [done|]. intros ->. apply (HaR w). rewrite ER. apply elem_of_app. by left.
  - intros b Hba Hbp. rewrite Ec2, lookup_insert_ne by done. cbn. by rewrite Ec1, lookup_insert_ne.
Qed.

(** [free] gives the block back: all its addresses, and no others, are free afterwards. *)
Lemma free_ok F A s a z :
  inv F A s → A !! a = Some z →
  ∃ s' F', free (a + HDR) s = Ok tt s' ∧ inv F' (delete a A) s' ∧ brk s' = brk s
  ∧ (∀ x, covers F' x ↔ covers F x ∨ within a z x) ∧ (∃ b w, (b, w) ∈ F' ∧ z ≤ w) ∧ (length F' ≤ S (length F))%nat.
Proof.
  intros Hi Ha. pose proof (inv_used_range _ _ _ _ _ Hi Ha) as Har. destruct (inv_used _ _ _ Hi a z Ha) as [Hz _].
  destruct (place F base 0 a z) as (R1 & p & zp & R2 & ER & Hpa & Hp & Hst).
  { intros b w Hb. split; [by apply (inv_free _ _ _ Hi b)|]. by apply (inv_apart _ _ _ _ _ _ _ Hi Ha). }
  { apply (inv_gaps _ _ _ Hi). }
  { unfold HDR in *; lia. }
  { unfold HDR in *; lia. }
  destruct (join_ok F A s a z R1 p zp R2 Hi Ha ER Hpa Hp Hst) as (c & J & Hr & Hc).
  destruct (joined F A s a z R1 p zp R2 Hi Ha ER Hp Hst) as (F' & EF & Hg & Hpos & Hcov & Hbig & Hpin & Hlen).
  exists (mk_arena c p (brk s)), F'. split_and!; [|split|done|done|done|done].
  - unfold free. replace (a + HDR - HDR) with a by lia. rewrite bind_get.
    rewrite (bind_ok _ _ _ _ _ (free_find F A s a R1 p zp R2 Hi ER ltac:(unfold HDR in *; lia) Hpa
      ltac:(destruct R2 as [|[n w] R2]; [done|]; cbn in *; unfold HDR in *; lia))). exact J.
  - cbn [cells]. by rewrite <-EF.
  - done.
  - exact Hpos.
  - intros b w [Hne Hb]%lookup_delete_Some. destruct (inv_used _ _ _ Hi b w Hb) as [Hw [y Hy]]. split; [done|]. exists y.
    cbn [cells]. rewrite Hc; [done|done|]. intros ->. apply (inv_not_ring F A s p w zp Hi Hb). rewrite ER.
    apply elem_of_app. right. apply elem_of_cons. by left.
  - intros x [Hx|Hx]%Hcov; [by apply (inv_free_in _ _ _ Hi)|by apply (inv_used_in _ _ _ Hi a z)].
  - intros b w x [Hne Hb]%lookup_delete_Some Hx. destruct (inv_used_in _ _ _ Hi b w x Hb Hx) as [Hin Hnc]. split; [done|].
    intros [Hc'|Hc']%Hcov; [done|]. apply Hne. by apply (inv_used_apart _ _ _ Hi a z b w x).
  - intros b w b' w' x [_ Hb]%lookup_delete_Some [_ Hb']%lookup_delete_Some. by apply (inv_used_apart _ _ _ Hi).
  - exact Hpin.
  - apply (inv_brk _ _ _ Hi).
Qed.

(** * Taking a block from the ring *)

(** What is left of a free block [q] of [z] units when its last [n] are taken. *)
Definition kept (q z n : Z) : list block := if decide (z = n) then [] else [(q, z - n)].
Definition taken (q z n : Z) : Z := q + HDR * (z - n).

Lemma gaps_apart lo l1 q z l2 x :
  (∀ b w, (b, w) ∈ l1 ++ (q, z) :: l2 → 0 ≤ w) → gaps lo (l1 ++ (q, z) :: l2) → within q z x → ¬ covers (l1 ++ l2) x.
Proof.
  intros Hp Hg Hx (b & w & Hb & Hbx). unfold within in *. apply elem_of_app in Hb as [Hb|Hb]; apply list_elem_of_lookup in Hb as [i Hb].
  - assert (b + HDR * w < q); [|lia]. pose proof (lookup_lt_Some _ _ _ Hb).
    apply (gaps_lookup _ _ i (length l1) _ _ _ z Hp Hg); [by rewrite lookup_app_l|by rewrite lookup_app_r, Nat.sub_diag|done].
  - assert (q + HDR * z < b); [|lia].
    apply (gaps_lookup _ _ (length l1) (S (length l1 + i)) _ _ _ w Hp Hg); [by rewrite lookup_app_r, Nat.sub_diag| |lia].
    rewrite lookup_app_r by lia. by replace (S (length l1 + i) - length l1)%nat with (S i) by lia.
Qed.

Lemma covers_kept q z n x : 0 ≤ n ≤ z → within q z x ↔ covers (kept q z n) x ∨ within (taken q z n) n x.
Proof.
  intros Hn. unfold kept, taken. case_decide; [rewrite covers_nil|rewrite covers_cons, covers_nil]; unfold within, HDR; lia.
Qed.

Lemma inv_allot F1 q z F2 n A s c f :
  inv (F1 ++ (q, z) :: F2) A s → 0 < n ≤ z → ring c ((base, 0) :: F1 ++ kept q z n ++ F2) base →
  (∃ y, c !! taken q z n = Some (mk_header y n)) → (∀ a w, A !! a = Some w → c !! a = cells s !! a) → f ∈ base :: F1.*1 →
  inv (F1 ++ kept q z n ++ F2) (<[taken q z n := n]> A) (mk_arena c f (brk s)) ∧ A !! taken q z n = None
  ∧ ∀ x, covers (F1 ++ (q, z) :: F2) x ↔ covers (F1 ++ kept q z n ++ F2) x ∨ within (taken q z n) n x.
Proof.
  intros Hi Hn Hr Hb Hc Hf. set (b := taken q z n) in *. set (F := F1 ++ (q, z) :: F2) in *.
  pose proof (inv_gaps _ _ _ Hi) as [Hg0 Hg].
  assert (Hsz : ∀ b w, (b, w) ∈ F → 0 ≤ w) by (intros a w Ha; pose proof (inv_free _ _ _ Hi a w Ha); lia).
  assert (Hcov : ∀ x, covers F x ↔ covers (F1 ++ kept q z n ++ F2) x ∨ within b n x).
  { intros x. unfold F, b. rewrite !covers_app, covers_cons, (covers_kept q z n x) by lia. tauto. }
  assert (Hbin : within q z b) by (unfold b, taken, within, HDR; lia).
  assert (HbF : covers F b) by (apply covers_app; right; apply covers_cons; by left).
  assert (Hnb : ∀ a w x, A !! a = Some w → within a w x → ¬ within b n x).
  { intros a w x Ha Hx Hx'. apply (inv_used_in _ _ _ Hi a w x Ha Hx), Hcov. by right. }
  assert (HAb : A !! b = None).
  { destruct (A !! b) as [w|] eqn:Ew; [|done]. destruct (inv_used _ _ _ Hi b w Ew) as [Hw _].
    exfalso. apply (inv_used_in _ _ _ Hi b w b Ew ltac:(unfold within, HDR; lia)). done. }
  split; [split|done]; cbn [cells freep brk].
  - done.
  - split; [done|]. unfold F in Hg. apply gaps_app in Hg as [Hg1 [Hq Hg2]]. apply gaps_app. split; [done|]. unfold kept. case_decide.
    + cbn. eapply gaps_mono; [|exact Hg2]. unfold HDR in *; lia.
    + cbn. split; [done|]. eapply gaps_mono; [|exact Hg2]. unfold HDR in *; lia.
  - intros a w [Ha|[Ha|Ha]%elem_of_app]%elem_of_app.
    + apply (inv_free _ _ _ Hi a). apply elem_of_app. by left.
    + unfold kept in Ha. case_decide; [by apply elem_of_nil in Ha|]. apply list_elem_of_singleton in Ha as [= -> ->]. lia.
    + apply (inv_free _ _ _ Hi a). apply elem_of_app. right. apply elem_of_cons. by right.
  - intros a w [[<- <-]|[Hne Ha]]%lookup_insert_Some; [by split; [lia|]|].
    destruct (inv_used _ _ _ Hi a w Ha) as [Hw Hy]. split; [done|]. by rewrite (Hc a w Ha).
  - intros x Hx. apply (inv_free_in _ _ _ Hi), Hcov. by left.
  - intros a w x [[<- <-]|[Hne Ha]]%lookup_insert_Some Hx.
    + split; [apply (inv_free_in _ _ _ Hi), Hcov; by right|]. intros Hx'.
      assert (Hxq : within q z x) by (apply (covers_kept q z n x); [lia|by right]).
      pose proof (gaps_apart _ F1 q z F2 x Hsz Hg Hxq) as Hno. 
      assert (Hk : covers (kept q z n) x) by (apply covers_app in Hx' as [?|[?|?]%covers_app]; [|done|]; by destruct Hno; apply covers_app; auto). unfold kept, b, taken in *. revert Hk. case_decide; [by rewrite covers_nil|].
      rewrite covers_cons, covers_nil. unfold within, HDR in *. lia.
    + destruct (inv_used_in _ _ _ Hi a w x Ha Hx) as [Hin Hnc]. split; [done|]. intros Hx'. apply Hnc, Hcov. by left.
  - intros a w a' w' x [[<- <-]|[Hne Ha]]%lookup_insert_Some [[<- <-]|[Hne' Ha']]%lookup_insert_Some Hx Hx'; [done| | |].
    + by destruct (Hnb a' w' x Ha' Hx').
    + by destruct (Hnb a w x Ha Hx).
    + by apply (inv_used_apart _ _ _ Hi a w a' w' x).
  - rewrite fmap_app. set_solver.
  - apply (inv_brk _ _ _ Hi).
Qed.

Lemma ring_retarget c R1 pv zv q q' :
  pv ∉ R1.*1 → ring c (R1 ++ [(pv, zv)]) q → ring (<[pv := mk_header q' zv]> c) (R1 ++ [(pv, zv)]) q'.
Proof.
  intros Hn [H1 _]%hd_ring_app. apply hd_ring_app. split; [|cbn; split; [apply lookup_insert_eq|done]].
  cbn [hd_addr] in *. eapply ring_cells_ext; [|exact H1]. intros b w Hb. apply lookup_insert_ne. intros ->.
  apply Hn, list_elem_of_fmap. by exists (b, w).
Qed.

Lemma set_size_any s p v : ∃ y, set_size p v s = Ok tt (mk_arena (<[p := mk_header y v]> (cells s)) (freep s) (brk s)).
Proof. eexists. unfold set_size, hdr, gets, put, modify. destruct s. reflexivity. Qed.

(** The step of [malloc] that finds the block [q], behind [pv] in the ring. *)
Section take.
Context (F1 : list block) (q z : Z) (F2 R1 : list block) (pv zv n : Z) (A : gmap Z Z) (s : arena).
Let F := F1 ++ (q, z) :: F2.
Context (Hi : inv F A s) (ER : (base, 0) :: F1 = R1 ++ [(pv, zv)]) (Hn : 0 < n ≤ z).

Lemma take_ring : ring (cells s) ((base, 0) :: F1) q ∧ cells s !! q = Some (mk_header (hd_addr F2 base) z) ∧ ring (cells s) F2 base.
Proof.
  pose proof (inv_ring _ _ _ Hi) as Hr. change ((base, 0) :: F) with (((base, 0) :: F1) ++ (q, z) :: F2) in Hr.
  apply hd_ring_app in Hr as [Hr1 [Hq Hr2]]. done.
Qed.

Lemma take_pv : pv ∉ R1.*1 ∧ pv ≠ q ∧ (∀ w, (pv, w) ∉ F2) ∧ (pv, zv) ∈ (base, 0) :: F ∧ pv ∈ base :: F1.*1.
Proof.
  pose proof (ring_NoDup _ _ _ Hi) as Hnd.
  change ((base, 0) :: F) with (((base, 0) :: F1) ++ (q, z) :: F2) in Hnd |- *. rewrite ER, !fmap_app, <-(assoc_L app) in Hnd. cbn in Hnd.
  apply NoDup_app in Hnd as (_ & Hd & [Hd2 _]%NoDup_cons). split_and!.
  - intros Hin. apply (Hd pv Hin), elem_of_cons. auto.
  - intros ->. apply Hd2, elem_of_cons. by left.
  - intros w Hw. apply Hd2, elem_of_cons. right. apply list_elem_of_fmap. by exists (pv, w).
  - rewrite ER. set_solver.
  - change (base :: F1.*1) with (((base, 0) :: F1).*1). rewrite ER, fmap_app. cbn. set_solver.
Qed.

Lemma take_q : (∀ w, (q, w) ∉ (base, 0) :: F1) ∧ ∀ w, (q, w) ∉ F2.
Proof.
  pose proof (ring_NoDup _ _ _ Hi) as Hnd.
  change ((base, 0) :: F) with (((base, 0) :: F1) ++ (q, z) :: F2) in Hnd. rewrite fmap_app in Hnd.
  apply NoDup_app in Hnd as (_ & Hd & [Hd2 _]%NoDup_cons). split.
  - intros w Hw. apply (Hd q); [apply list_elem_of_fmap; by exists (q, w)|apply elem_of_cons; by left].
  - intros w Hw. apply Hd2, list_elem_of_fmap. by exists (q, w).
Qed.

(** The header of the part that is taken is a new one. *)
Lemma taken_new : z ≠ n → covers F (taken q z n) ∧ q < taken q z n
  ∧ (∀ w, (taken q z n, w) ∉ (base, 0) :: F1) ∧ ∀ w, (taken q z n, w) ∉ F2.
Proof.
  intros Hzn. set (b := taken q z n). assert (Hbq : within q z b ∧ q < b) by (unfold b, taken, within, HDR; lia).
  assert (HbF : covers F b) by (apply covers_app; right; apply covers_cons; left; apply Hbq).
  assert (Hno : ∀ w, (b, w) ∉ F1 ++ F2).
  { intros w Hw.
    assert (0 < w) by (apply (inv_free _ _ _ Hi b), elem_of_app; apply elem_of_app in Hw as [?|?]; [by left|right; apply elem_of_cons; by right]).
    apply (gaps_apart base F1 q z F2 b); [| |apply Hbq|exists b, w; split; [done|unfold within, HDR; lia]].
    - intros b' w' Hw'. pose proof (inv_free _ _ _ Hi b' w' Hw'). lia.
    - pose proof (inv_gaps _ _ _ Hi) as [_ Hg]. eapply gaps_mono; [|exact Hg]. unfold HDR; lia. }
  split_and!; [done|apply Hbq| |].
  - intros w [[= Eb _]|Hw]%elem_of_cons; [|apply (Hno w), elem_of_app; by left].
    pose proof (inv_free_in _ _ _ Hi b HbF). unfold HDR in *; lia.
  - intros w Hw. apply (Hno w), elem_of_app. by right.
Qed.

Definition took (s' : arena) : Prop :=
  brk s' = brk s ∧ inv (F1 ++ kept q z n ++ F2) (<[taken q z n := n]> A) s' ∧ A !! taken q z n = None
  ∧ ∀ x, covers F x ↔ covers (F1 ++ kept q z n ++ F2) x ∨ within (taken q z n) n x.

Lemma take_exact : z = n → ∃ s', malloc_body n (pv, q) s = Ok (inr (taken q z n + HDR)) s' ∧ took s'.
Proof.
  intros Ezn. destruct take_ring as (Hr1 & Hq & Hr2). destruct take_pv as (Hpv1 & Hpq & Hpv2 & HinR & HpvF).
  assert (Et : taken q z n = q) by (unfold taken, HDR; lia). assert (Ek : kept q z n = []) by (unfold kept; by rewrite decide_True).
  rewrite ER in Hr1. pose proof Hr1 as [_ [Hpc _]]%hd_ring_app. cbn [hd_addr] in Hpc.
  destruct (inv_allot F1 q z F2 n A s (<[pv := mk_header (hd_addr F2 base) zv]> (cells s)) pv Hi ltac:(lia)) as (Hi' & HA & Hcov).
  - rewrite Ek. cbn [app]. change ((base, 0) :: F1 ++ F2) with (((base, 0) :: F1) ++ F2). apply hd_ring_app. rewrite ER.
    split; [eapply ring_retarget; [apply Hpv1|exact Hr1]|].
    eapply ring_cells_ext; [|exact Hr2]. intros b w Hb. apply lookup_insert_ne. intros ->. by apply (Hpv2 w).
  - rewrite Et, lookup_insert_ne, Hq, Ezn by done. by eexists.
  - intros a w Ha. apply lookup_insert_ne. intros ->. by apply (inv_not_ring _ _ _ a w zv Hi Ha).
  - done.
  - eexists. split; [|split; [|by split]]; [|done]. rewrite Et. unfold malloc_body. mstep_with (hdr_ok _ _ _ Hq). cbn [hsize ptr].
    rewrite (proj2 (Z.leb_le n z)), (proj2 (Z.eqb_eq z n)), bind_assoc by lia.
    mstep_with (set_ptr_ok _ _ (hd_addr F2 base) _ Hpc). by destruct s.
Qed.

Lemma take_part : z ≠ n → ∃ s', malloc_body n (pv, q) s = Ok (inr (taken q z n + HDR)) s' ∧ took s'.
Proof.
  intros Hzn. destruct take_ring as (Hr1 & Hq & Hr2). destruct take_pv as (_ & _ & _ & _ & HpvF). destruct take_q as [HqR HqF2].
  destruct (taken_new Hzn) as (HbF & Hqb & HbR & HbF2). assert (Ek : kept q z n = [(q, z - n)]) by (unfold kept; by rewrite decide_False).
  set (b := taken q z n) in *. set (s1 := mk_arena (<[q := mk_header (hd_addr F2 base) (z - n)]> (cells s)) (freep s) (brk s)).
  destruct (set_size_any s1 b n) as [y E2].
  destruct (inv_allot F1 q z F2 n A s (<[b := mk_header y n]> (cells s1)) pv Hi ltac:(lia)) as (Hi' & HA & Hcov).
  - rewrite Ek. cbn [app]. change ((base, 0) :: F1 ++ (q, z - n) :: F2) with (((base, 0) :: F1) ++ (q, z - n) :: F2).
    apply hd_ring_app. cbn [hd_addr s1 cells]. split.
    + eapply ring_cells_ext; [|exact Hr1]. intros a w Ha. rewrite !lookup_insert_ne; [done|intros <-; by apply (HqR w)|intros <-; by apply (HbR w)].
    + cbn [ring]. split; [rewrite lookup_insert_ne by lia; apply lookup_insert_eq|].
      eapply ring_cells_ext; [|exact Hr2]. intros a w Ha. rewrite !lookup_insert_ne; [done|intros <-; by apply (HqF2 w)|intros <-; by apply (HbF2 w)].
  - exists y. apply lookup_insert_eq.
  - intros a w Ha. cbn [s1 cells]. rewrite !lookup_insert_ne; [done| |]; intros <-.
    + apply (inv_not_ring _ _ _ q w z Hi Ha). set_solver.
    + destruct (inv_used _ _ _ Hi b w Ha) as [Hw _]. by apply (inv_used_in _ _ _ Hi b w b Ha ltac:(unfold within, HDR; lia)).
  - done.
  - eexists. split; [|split; [|by split]]; [|done]. unfold malloc_body. mstep_with (hdr_ok _ _ _ Hq). cbn [hsize ptr].
    rewrite (proj2 (Z.leb_le n z)), (proj2 (Z.eqb_neq z n)), bind_assoc by (done || lia).
    mstep_with (set_size_ok _ _ (z - n) _ Hq). rewrite bind_assoc.
    change (over cells _ s) with (over cells (λ _, cells s1) s). replace (s <| cells := cells s1 |>) with s1 by (by destruct s).
    fold (taken q z n). fold b. mstep_with E2. by destruct s.
Qed.

Lemma take_ok : ∃ s', malloc_body n (pv, q) s = Ok (inr (taken q z n + HDR)) s' ∧ took s'.
Proof. destruct (decide (z = n)); [by apply take_exact|by apply take_part]. Qed.
End take.

(** * The search of [malloc] *)
Section search.
Context (F : list block) (A : gmap Z Z) (s : arena) (Hi : inv F A s) (n : Z) (Hn : 0 < n).
Let R := (base, 0) :: F.
Context (f : nat) (zf : Z) (Hf : R !! f = Some (freep s, zf)).

(** The [k]th block after [freep]. *)
Definition pos (k : nat) : nat := if (f + k <? length R)%nat then f + k else f + k - length R.
Definition addr (k : nat) : Z := match R !! pos k with Some (q, _) => q | None => base end.
Definition big (k : nat) : Prop := ∃ q z, R !! pos k = Some (q, z) ∧ n ≤ z.

Lemma pos_lt k : (k ≤ length R)%nat → (pos k < length R)%nat.
Proof. intros Hk. pose proof (lookup_lt_Some _ _ _ Hf). unfold pos. destruct (Nat.ltb_spec (f + k) (length R)); lia. Qed.

Lemma pos_lookup k : (k ≤ length R)%nat → ∃ q z, R !! pos k = Some (q, z) ∧ addr k = q.
Proof.
  intros Hk. destruct (lookup_lt_is_Some_2 R (pos k) (pos_lt k Hk)) as [[q z] E]. exists q, z. split; [done|]. unfold addr. by rewrite E.
Qed.

Lemma pos_next k q z : (k < length R)%nat → R !! pos k = Some (q, z) → cells s !! q = Some (mk_header (addr (S k)) z).
Proof.
  intros Hk E. rewrite (ring_lookup _ _ _ _ _ _ (inv_ring _ _ _ Hi) E). do 2 f_equal. fold R.
  pose proof (lookup_lt_Some _ _ _ Hf). pose proof (pos_lt k ltac:(lia)). unfold addr.
  destruct (decide (S (pos k) < length R)%nat) as [Hlt|Hge].
  - replace (pos (S k)) with (S (pos k)) by (unfold pos in *; destruct (Nat.ltb_spec (f + S k) (length R)), (Nat.ltb_spec (f + k) (length R)); lia).
    destruct (lookup_lt_is_Some_2 R (S (pos k)) Hlt) as [[b w] Eb]. by rewrite (drop_S _ _ _ Eb), Eb.
  - rewrite drop_ge by lia. replace (pos (S k)) with 0%nat; [done|].
    unfold pos in *; destruct (Nat.ltb_spec (f + S k) (length R)), (Nat.ltb_spec (f + k) (length R)); lia.
Qed.

Lemma addr_freep k : (1 ≤ k ≤ length R)%nat → addr k = freep s ↔ k = length R.
Proof.
  intros Hk. destruct (pos_lookup k ltac:(lia)) as (q & z & E & ->). pose proof (lookup_lt_Some _ _ _ Hf). split.
  - intros ->. pose proof (ring_addresses _ _ _ _ _ _ _ _ Hi E Hf). unfold pos in *. destruct (Nat.ltb_spec (f + k) (length R)); lia.
  - intros ->. replace (pos (length R)) with f in E by (unfold pos; destruct (Nat.ltb_spec (f + length R) (length R)); lia).
    rewrite Hf in E. by injection E as <- <-.
Qed.

Lemma addr_first q z : cells s !! freep s = Some (mk_header q z) → q = addr 1.
Proof.
  intros Hc. assert (Ep : pos 0 = f) by (unfold pos; pose proof (lookup_lt_Some _ _ _ Hf); destruct (Nat.ltb_spec (f + 0) (length R)); lia).
  pose proof (pos_next 0 (freep s) zf ltac:(cbn; lia)) as Hnext. rewrite Hc, Ep in Hnext. specialize (Hnext Hf). by injection Hnext.
Qed.

(** A block that is too small is passed, unless it is the last of the round. *)
Lemma pass_small k : (1 ≤ k < length R)%nat → ¬ big k → malloc_body n (addr (k - 1), addr k) s = Ok (inl (addr k, addr (S k))) s.
Proof.
  intros Hk Hb. destruct (pos_lookup k ltac:(lia)) as (q & z & E & Eq). unfold malloc_body. rewrite Eq.
  pose proof (pos_next k q z ltac:(lia) E) as Hc. mstep_with (hdr_ok _ _ _ Hc). cbn [hsize ptr].
  rewrite (proj2 (Z.leb_gt n z)) by (destruct (decide (n ≤ z)); [destruct Hb; by exists q, z|lia]).
  rewrite bind_get. rewrite (proj2 (Z.eqb_neq q (freep s))) by (rewrite <-Eq; intros Ef; apply addr_freep in Ef; lia).
  by mstep_with (hdr_ok _ _ _ Hc).
Qed.

Lemma pass_all d k fuel : (1 ≤ k)%nat → (k + d ≤ length R)%nat → (∀ j, (k ≤ j < k + d)%nat → ¬ big j) →
  iterM (d + fuel) (malloc_body n) (addr (k - 1), addr k) s = iterM fuel (malloc_body n) (addr (k + d - 1), addr (k + d)) s.
Proof.
  revert k. induction d as [|d IH]; intros k Hk Hd Hb; [by rewrite Nat.add_0_r|].
  change (S d + fuel)%nat with (S (d + fuel)). rewrite (iterM_inl _ _ _ _ _ _ (pass_small k ltac:(lia) (Hb k ltac:(lia)))).
  replace (addr k) with (addr (S k - 1)) by (f_equal; lia).
  rewrite IH; [f_equal; f_equal; f_equal; lia|lia|lia|intros j Hj; apply Hb; lia].
Qed.

Lemma big_dec k : {big k} + {¬ big k}.
Proof.
  destruct (R !! pos k) as [[q z]|] eqn:E; [destruct (decide (n ≤ z))|].
  - left. by exists q, z.
  - right. intros (q' & z' & E' & Hz). rewrite E in E'. by injection E' as <- <-.
  - right. intros (q' & z' & E' & Hz). by rewrite E in E'.
Qed.

(** The first block of the round that is big enough. *)
Lemma first_big m : (∀ j, (1 ≤ j ≤ m)%nat → ¬ big j) ∨ ∃ k, (1 ≤ k ≤ m)%nat ∧ big k ∧ ∀ j, (1 ≤ j < k)%nat → ¬ big j.
Proof.
  induction m as [|m [IH|(k & Hk & Hb & Hs)]]; [left; lia| |right; exists k; split; [lia|done]].
  destruct (big_dec (S m)) as [Hb|Hb]; [right; exists (S m); split; [lia|split; [done|intros; apply IH; lia]]|].
  left. intros j Hj. destruct (decide (j = S m)) as [->|]; [done|apply IH; lia].
Qed.

Lemma big_exists b w : (b, w) ∈ F → n ≤ w → ∃ k, (1 ≤ k ≤ length R)%nat ∧ big k.
Proof.
  intros Hb Hw. assert (∃ i, R !! i = Some (b, w)) as [i Ei] by (apply list_elem_of_lookup, elem_of_cons; by right).
  pose proof (lookup_lt_Some _ _ _ Hf). pose proof (lookup_lt_Some _ _ _ Ei).
  exists (if decide (f < i)%nat then i - f else i + length R - f)%nat.
  assert (pos (if decide (f < i)%nat then i - f else i + length R - f) = i) as Ep.
  { unfold pos. case_decide; match goal with |- context [(?x <? ?y)%nat] => destruct (Nat.ltb_spec x y) end; lia. }
  split; [case_decide; lia|]. exists b, w. by rewrite Ep.
Qed.

(** What a step that takes a block has done. *)
Definition allotted (b : Z) (s' : arena) (F' : list block) : Prop :=
  inv F' (<[b := n]> A) s' ∧ A !! b = None ∧ brk s' = brk s ∧ ∀ x, covers F x ↔ covers F' x ∨ within b n x.

Lemma take_big k : (1 ≤ k ≤ length R)%nat → big k →
  ∃ b s' F', malloc_body n (addr (k - 1), addr k) s = Ok (inr (b + HDR)) s' ∧ allotted b s' F'.
Proof.
  intros Hk (q & z & E & Hz). destruct (pos_lookup k ltac:(lia)) as (q' & z' & E' & ->). rewrite E in E'. injection E' as <- <-.
  destruct (pos_lookup (k - 1) ltac:(lia)) as (pv & zv & Ev & ->).
  assert (Hpk : pos k = S (pos (k - 1))).
  { destruct (pos k) as [|i] eqn:Ek; [injection E as _ <-; lia|]. pose proof (lookup_lt_Some _ _ _ Hf).
    unfold pos in *. destruct (Nat.ltb_spec (f + k) (length R)), (Nat.ltb_spec (f + (k - 1)) (length R)); lia. }
  rewrite Hpk in E. pose proof (take_drop_middle _ _ _ E) as ER. set (i := pos (k - 1)) in *.
  assert (EF : F = take i F ++ (q, z) :: drop (S i) F).
  { symmetry. apply take_drop_middle. exact E. }
  assert (ER1 : (base, 0) :: take i F = take i R ++ [(pv, zv)]) by (rewrite <-(take_S_r _ _ _ Ev); done).
  pose proof Hi as Hi'. rewrite EF in Hi'.
  destruct (take_ok (take i F) q z (drop (S i) F) (take i R) pv zv n A s Hi' ER1 ltac:(lia)) as (s' & E1 & Hb & HI & HA & Hcov).
  exists (taken q z n), s', (take i F ++ kept q z n ++ drop (S i) F). split; [done|]. split; [done|]. split; [done|]. split; [done|].
  intros x. rewrite EF at 1. apply Hcov.
Qed.

(** The search from the block behind [freep]: it finds a block in one round if there is one. *)
Lemma search_ok fuel : (length R ≤ fuel)%nat → (∃ b w, (b, w) ∈ F ∧ n ≤ w) →
  ∃ b s' F', iterM fuel (malloc_body n) (freep s, addr 1) s = Ok (b + HDR) s' ∧ allotted b s' F'.
Proof.
  intros Hfuel (b & w & Hb & Hw). destruct (big_exists b w Hb Hw) as (k & Hk & Hbk).
  destruct (first_big (length R)) as [Hno|(k' & Hk' & Hbk' & Hs)]; [by destruct (Hno k Hk)|].
  destruct (take_big k' Hk' Hbk') as (b' & s' & F' & E & Ha). exists b', s', F'. split; [|done].
  assert (Ef : freep s = addr 0).
  { unfold addr. replace (pos 0) with f; [by rewrite Hf|]. unfold pos. pose proof (lookup_lt_Some _ _ _ Hf). destruct (Nat.ltb_spec (f + 0) (length R)); lia. }
  rewrite Ef. replace fuel with ((k' - 1) + S (fuel - k'))%nat by lia.
  rewrite (pass_all (k' - 1) 1) by (lia || (intros j Hj; apply Hs; lia)).
  replace (1 + (k' - 1))%nat with k' by lia. by apply iterM_inr.
Qed.

(** ... and comes back to [freep] if there is none. *)
Lemma search_none fuel : (∀ b w, (b, w) ∈ F → w < n) →
  iterM (length F + fuel) (malloc_body n) (freep s, addr 1) s = iterM fuel (malloc_body n) (addr (length F), freep s) s
  ∧ cells s !! freep s = Some (mk_header (addr 1) zf) ∧ zf < n.
Proof.
  intros Hs.
  assert (Hno : ∀ j, ¬ big j).
  { intros j (q & z & E & Hz). apply list_elem_of_lookup_2 in E as [[= -> ->]|E]%elem_of_cons; [lia|]. specialize (Hs _ _ E). lia. }
  assert (Ef : pos 0 = f) by (unfold pos; pose proof (lookup_lt_Some _ _ _ Hf); destruct (Nat.ltb_spec (f + 0) (length R)); lia).
  assert (El : addr (length R) = freep s) by (apply addr_freep; [cbn; lia|done]).
  split_and!.
  - assert (E0 : freep s = addr 0) by (unfold addr; by rewrite Ef, Hf). rewrite E0 at 1.
    rewrite (pass_all (length F) 1) by (cbn; lia || (intros; apply Hno)).
    replace (1 + length F)%nat with (length R) by done. replace (length R - 1)%nat with (length F) by (cbn; lia). by rewrite El.
  - apply pos_next; [cbn; lia|]. by rewrite Ef.
  - destruct (decide (n ≤ zf)); [|lia]. destruct (Hno 0%nat). exists (freep s), zf. by rewrite Ef.
Qed.
End search.

(** * [malloc] is right *)

(** What [morecore] asks the kernel for, in units. *)
Definition grown (n : Z) : Z := if n <? 4096 then 4096 else n.

(** Whether the kernel gives it: the memory stays below the kernel's, and there are pages for it. *)
Definition granted (n : Z) (s : arena) : bool := (brk s + HDR * grown n <? KERNBASE) && room (brk s) (HDR * grown n).
(** Some free block has [n] units. *)
Definition has_big (n : Z) (F : list block) : Prop := ∃ a z, (a, z) ∈ F ∧ n ≤ z.

(** The memory the kernel gives is a block of the program's. *)
Lemma inv_grow F A s g y :
  inv F A s → 0 < g → brk s + HDR * g < KERNBASE →
  A !! brk s = None ∧ inv F (<[brk s := g]> A) (mk_arena (<[brk s := mk_header y g]> (cells s)) (freep s) (brk s + HDR * g)).
Proof.
  intros Hi Hg Hlt. destruct (inv_brk _ _ _ Hi) as [Hb0 Hbk].
  assert (Hring : ∀ w, (brk s, w) ∉ (base, 0) :: F).
  { intros w [[= E _]|Hw]%elem_of_cons; [unfold HDR in *; lia|]. pose proof (inv_free_range _ _ _ _ _ Hi Hw).
    pose proof (inv_free _ _ _ Hi _ _ Hw). unfold HDR in *; lia. }
  assert (HA : ∀ a w, A !! a = Some w → a < brk s).
  { intros a w Ha. pose proof (inv_used_range _ _ _ _ _ Hi Ha). destruct (inv_used _ _ _ Hi a w Ha). unfold HDR in *; lia. }
  split; [destruct (A !! brk s) as [w'|] eqn:E; [pose proof (HA _ _ E); lia|done]|].
  split; cbn [cells freep brk].
  - eapply ring_cells_ext; [|apply (inv_ring _ _ _ Hi)]. intros b w Hb. apply lookup_insert_ne. intros <-. by apply (Hring w).
  - apply (inv_gaps _ _ _ Hi).
  - apply (inv_free _ _ _ Hi).
  - intros a w [[<- <-]|[Hne Ha]]%lookup_insert_Some; [split; [lia|exists y; apply lookup_insert_eq]|].
    destruct (inv_used _ _ _ Hi a w Ha) as [Hw Hy]. split; [done|]. by rewrite lookup_insert_ne.
  - intros x Hx. pose proof (inv_free_in _ _ _ Hi x Hx). unfold HDR in *. cbn. lia.
  - intros a w x [[<- <-]|[Hne Ha]]%lookup_insert_Some Hx.
    + split; [unfold within, HDR in *; cbn; lia|]. intros Hc. pose proof (inv_free_in _ _ _ Hi x Hc). unfold within in *; lia.
    + destruct (inv_used_in _ _ _ Hi a w x Ha Hx). split; [unfold HDR in *; cbn; lia|done].
  - intros a w a' w' x [[<- <-]|[Hne Ha]]%lookup_insert_Some [[<- <-]|[Hne' Ha']]%lookup_insert_Some Hx Hx'; [done| | |].
    + destruct (inv_used_in _ _ _ Hi a' w' x Ha' Hx'). unfold within in *; lia.
    + destruct (inv_used_in _ _ _ Hi a w x Ha Hx). unfold within in *; lia.
    + by apply (inv_used_apart _ _ _ Hi a w a' w' x).
  - apply (inv_freep _ _ _ Hi).
  - unfold HDR in *; cbn; lia.
Qed.

Lemma morecore_ok F A s n :
  inv F A s → 0 < n → n * HDR < 2147483648 →
  granted n s = false ∧ morecore n s = Ok 0 s ∨
  ∃ s' F', granted n s = true ∧ morecore n s = Ok (freep s') s' ∧ freep s' ≠ 0 ∧ inv F' A s' ∧ brk s' = brk s + HDR * grown n
  ∧ (∀ x, covers F' x ↔ covers F x ∨ within (brk s) (grown n) x) ∧ (∃ b w, (b, w) ∈ F' ∧ n ≤ w) ∧ (length F' ≤ S (length F))%nat.
Proof.
  intros Hi Hn Hnb. unfold morecore. fold (grown n). destruct (inv_brk _ _ _ Hi) as [Hb0 Hbk].
  assert (Hg : n ≤ grown n ∧ 0 < grown n ∧ grown n * HDR < 2147483648) by (unfold grown, HDR in *; destruct (Z.ltb_spec n 4096); lia).
  assert (Hi32 : i32 (u32 (grown n * HDR)) = HDR * grown n).
  { unfold i32, u32. rewrite (Z.mod_small (grown n * HDR)) by (unfold HDR in *; lia). rewrite Z.mod_small; unfold HDR in *; lia. }
  rewrite Hi32. set (s1 := mk_arena (cells s) (freep s) (brk s + HDR * grown n)).
  assert (Es : sbrk (HDR * grown n) s = if (brk s + HDR * grown n <? KERNBASE) && room (brk s) (HDR * grown n) then Ok (brk s) s1 else Ok (-1) s)
    by (by destruct s).
  unfold granted. destruct ((brk s + HDR * grown n <? KERNBASE) && room (brk s) (HDR * grown n)) eqn:Eroom; [|left; split; [done|by mstep_with Es]].
  apply andb_prop in Eroom as [Hlt%Z.ltb_lt _]. right. mstep_with Es.
  rewrite (proj2 (Z.eqb_neq (brk s) (-1))) by (unfold HDR in *; lia).
  destruct (set_size_any s1 (brk s) (grown n)) as [y E1]. mstep_with E1. cbn [s1 cells freep brk] in *.
  set (s2 := mk_arena (<[brk s := mk_header y (grown n)]> (cells s)) (freep s) (brk s + HDR * grown n)) in *.
  destruct (inv_grow F A s (grown n) y Hi ltac:(lia) Hlt) as [HA Hi2].
  destruct (free_ok F _ s2 (brk s) (grown n) Hi2 ltac:(apply lookup_insert_eq)) as (s3 & F3 & E3 & Hi3 & Eb3 & Hcov & (b & w & Hb & Hw) & Hlen).
  rewrite delete_insert_id in Hi3 by done.
  exists s3, F3. split; [done|]. split; [by mstep_with E3|]. split_and!; [|done|by rewrite Eb3|done|exists b, w; split; [done|lia]|done].
  destruct (inv_freep_at _ _ _ Hi3) as (i & z & E). apply list_elem_of_lookup_2 in E. pose proof (inv_base _ _ _ _ _ Hi3 E).
  pose proof (inv_brk _ _ _ Hi3). lia.
Qed.

(** The last step of a round without a block: more memory, or none. *)
Lemma no_block F A s n prevp z p :
  inv F A s → 0 < n → n * HDR < 2147483648 → cells s !! freep s = Some (mk_header p z) → z < n →
  granted n s = false ∧ malloc_body n (prevp, freep s) s = Ok (inr 0) s ∨
  ∃ s' F' q, granted n s = true ∧ malloc_body n (prevp, freep s) s = Ok (inl (freep s', q)) s' ∧ (∃ z', cells s' !! freep s' = Some (mk_header q z'))
  ∧ inv F' A s' ∧ brk s' = brk s + HDR * grown n ∧ (∀ x, covers F' x ↔ covers F x ∨ brk s ≤ x < brk s')
  ∧ (∃ b w, (b, w) ∈ F' ∧ n ≤ w) ∧ (length F' ≤ S (length F))%nat.
Proof.
  intros Hi Hn Hnb Hc Hz.
  assert (Hg : 0 < grown n) by (unfold grown; destruct (Z.ltb_spec n 4096); lia).
  unfold malloc_body. mstep_with (hdr_ok _ _ _ Hc). cbn [hsize ptr].
  rewrite (proj2 (Z.leb_gt n z)), bind_get, Z.eqb_refl by done.
  destruct (morecore_ok F A s n Hi Hn Hnb) as [[Hgr E]|(s' & F' & Hgr & E & Hp & Hi' & Eb & Hcov & Hbig & Hlen)]; mstep_with E; [by left|right].
  rewrite (proj2 (Z.eqb_neq (freep s') 0)) by done.
  destruct (inv_freep_at _ _ _ Hi') as (i & z' & Ef). pose proof (ring_lookup _ _ _ _ _ _ (inv_ring _ _ _ Hi') Ef) as Hc'.
  exists s', F'. eexists. split; [done|]. split; [by mstep_with (hdr_ok _ _ _ Hc')|]. split; [by eexists|].
  split_and!; [done|done| |done|done]. intros x. rewrite Hcov, Eb. unfold within, HDR. tauto.
Qed.

Lemma malloc_loop F A s n q z fuel :
  inv F A s → 0 < n → n * HDR < 2147483648 → cells s !! freep s = Some (mk_header q z) → (2 * length F + 3 ≤ fuel)%nat →
  ¬ has_big n F ∧ granted n s = false ∧ iterM fuel (malloc_body n) (freep s, q) s = Ok 0 s ∨
  ∃ p F' s', iterM fuel (malloc_body n) (freep s, q) s = Ok (p + HDR) s' ∧ inv F' (<[p := n]> A) s' ∧ A !! p = None
  ∧ (has_big n F ∧ brk s' = brk s ∨ ¬ has_big n F ∧ granted n s = true ∧ brk s' = brk s + HDR * grown n) ∧ ∀ x, covers F' x ∨ within p n x ↔ covers F x ∨ brk s ≤ x < brk s'.
Proof.
  intros Hi Hn Hnb Hc Hfuel. destruct (inv_freep_at _ _ _ Hi) as (f & zf & Ef).
  pose proof (addr_first F A s Hi f zf Ef q z Hc) as Hq.
  destruct (decide (Exists (λ b, n ≤ snd b) F)) as [Hex|Hno].
  - apply Exists_exists in Hex as ([b w] & Hb & Hw). right. rewrite Hq.
    destruct (search_ok F A s Hi n Hn f zf Ef fuel ltac:(cbn; lia)) as (p & s' & F' & E & Hi' & HA & Eb & Hcov); [by exists b, w|].
    exists p, F', s'. split_and!; [done|done|done|left; split; [by exists b, w|done]|]. intros x. rewrite Eb, Hcov. split; [tauto|]. intros [?|?]; [done|lia].
  - assert (Hs : ∀ b w, (b, w) ∈ F → w < n).
    { intros b w Hb. destruct (decide (n ≤ w)); [|lia]. destruct Hno. apply Exists_exists. by exists (b, w). }
    assert (Hnb2 : ¬ has_big n F) by (intros (b & w & Hb & Hw); specialize (Hs _ _ Hb); lia).
    replace fuel with (length F + S (fuel - length F - 1))%nat by lia.
    destruct (search_none F A s Hi n Hn f zf Ef (S (fuel - length F - 1)) Hs) as (E & Hc0 & Hzf). rewrite Hq, E.
    destruct (no_block F A s n (addr F f (length F)) zf _ Hi Hn Hnb Hc0 Hzf)
      as [[Hgr E1]|(s' & F' & q' & Hgr & E1 & [z' Hc'] & Hi' & Hbrk & Hcov & (b & w & Hb & Hw) & Hlen)]; [left; split_and!; [done|done|by apply iterM_inr]|right].
    rewrite (iterM_inl _ _ _ _ _ _ E1). destruct (inv_freep_at _ _ _ Hi') as (f' & zf' & Ef').
    pose proof (addr_first F' A s' Hi' f' zf' Ef' q' z' Hc') as Hq'.
    rewrite Hq'.
    destruct (search_ok F' A s' Hi' n Hn f' zf' Ef' (fuel - length F - 1)%nat ltac:(cbn; lia)) as (p & s2 & F2 & E2 & Hi2 & HA & Eb & Hcov2); [by exists b, w|].
    exists p, F2, s2. split_and!; [done|done|done|right; split_and!; [done|done|lia]|]. intros x. rewrite <-Hcov2, Hcov, Eb. done.
Qed.

(** Before its first call the allocator has no ring. *)
Definition ready (F : list block) (A : gmap Z Z) (s : arena) : Prop :=
  inv F A s ∨ F = [] ∧ A = ∅ ∧ freep s = 0 ∧ 0 < base ∧ base + HDR ≤ brk s < KERNBASE.

Lemma first_ring c b : 0 < base → base + HDR ≤ b < KERNBASE → inv [] ∅ (mk_arena (<[base := mk_header base 0]> c) base b).
Proof.
  intros Hb Hk. split; cbn [cells freep brk].
  - cbn. split; [apply lookup_insert_eq|done].
  - cbn. lia.
  - by intros a z Ha%elem_of_nil.
  - done.
  - by intros x Hx%covers_nil.
  - done.
  - done.
  - apply elem_of_cons. by left.
  - done.
Qed.

(** C8: [malloc] is a memory allocator.  In a state where the blocks [F] are free and the program has the blocks [A], it
    ends, and returns null exactly when no free block is large enough and the kernel does not give the memory that [morecore] asks for (4096 units, or as many
    as are needed), and then nothing has changed; otherwise it returns a new block of the size that [nbytes] needs, which overlaps no other block
    of the program and no free one, and it asks the kernel for memory only when no free block is large enough; the free memory is then what it was,
    with what the kernel has added, less the block: nothing is lost. *)
Theorem malloc_correct F A s nbytes :
  let n := (nbytes + 7) / HDR + 1 in
  ready F A s → 0 ≤ nbytes < 2147483632 →
  (¬ has_big n F ∧ granted n s = false ∧ ∃ s', malloc nbytes s = Ok 0 s' ∧ inv F A s' ∧ brk s' = brk s)
  ∨ ∃ p F' s', malloc nbytes s = Ok (p + HDR) s' ∧ 0 < p ∧ nbytes ≤ HDR * (n - 1) ∧ A !! p = None ∧ inv F' (<[p := n]> A) s'
    ∧ (has_big n F ∧ brk s' = brk s ∨ ¬ has_big n F ∧ granted n s = true ∧ brk s' = brk s + HDR * grown n)
    ∧ ∀ x, covers F' x ∨ within p n x ↔ covers F x ∨ brk s ≤ x < brk s'.
Proof.
  intros n0 Hs Hb. unfold malloc.
  assert (Hun : u32 (nbytes + HDR - 1) = nbytes + 7) by (unfold u32, HDR; rewrite Z.mod_small; lia). rewrite Hun.
  set (n := (nbytes + 7) / HDR + 1) in *. subst n0. assert (Hn : 0 < n ∧ nbytes ≤ HDR * (n - 1) ∧ n * HDR < 2147483648) by (unfold n, HDR; zlia).
  assert (∃ s1 q z, inv F A s1 ∧ brk s1 = brk s ∧ cells s1 !! freep s1 = Some (mk_header q z) ∧
    malloc nbytes s = iterM (2 * size (cells s1) + 6) (malloc_body n) (freep s1, q) s1) as (s1 & q & z & Hi & Eb & Hc & E).
  { unfold malloc. rewrite Hun. fold n. mstep. destruct Hs as [Hi|(-> & -> & E0 & Hb0 & Hk)].
    - destruct (inv_freep_at _ _ _ Hi) as (f & zf & Ef). pose proof (ring_lookup _ _ _ _ _ _ (inv_ring _ _ _ Hi) Ef) as Hc.
      pose proof (inv_base _ _ _ _ _ Hi (list_elem_of_lookup_2 _ _ _ Ef)). pose proof (inv_brk _ _ _ Hi).
      rewrite (proj2 (Z.eqb_neq (freep s) 0)), bind_mret by lia. mstep_with (hdr_ok _ _ _ Hc). do 3 eexists. by split_and!.
    - rewrite E0, Z.eqb_refl. exists (mk_arena (<[base := mk_header base 0]> (cells s)) base (brk s)), base, 0.
      split_and!; [by apply first_ring|done|apply lookup_insert_eq|].
      destruct s as [c fp b]. unfold set_ptr, set_size, set_freep, hdr, put, gets, modify, get, mbind, M_bind, mret, M_ret. cbn.
      rewrite !lookup_insert_eq. cbn. rewrite insert_insert_eq. f_equal.
      set (z0 := hsize (default (mk_header 0 0) (c !! base))).
      change (mk_arena (<[base := mk_header base 0]> (<[base := mk_header base z0]> c)) base b = mk_arena (<[base := mk_header base 0]> c) base b).
      by rewrite insert_insert_eq. }
  unfold malloc in E. rewrite Hun in E. fold n in E. rewrite E. pose proof (blocks_size _ _ _ Hi) as Hsz. unfold granted. rewrite <-Eb. fold (granted n s1).
  destruct (malloc_loop F A s1 n q z (2 * size (cells s1) + 6) Hi ltac:(lia) ltac:(lia) Hc ltac:(lia)) as [(Hnb & Hgr & E1)|(p & F' & s' & E1 & Hi' & HA & Hbrk & Hcov)].
  - left. split; [done|]. split; [done|]. exists s1. by split_and!.
  - right. exists p, F', s'. split_and!; [done| |lia|done|done|done|done].
    destruct (inv_used _ _ _ Hi' p n (lookup_insert_eq _ _ _)) as [Hp0 _]. pose proof (inv_used_range _ _ _ p n Hi' (lookup_insert_eq _ _ _)). destruct (inv_brk _ _ _ Hi). unfold HDR in *. lia.
Qed.

(** C9: [free] gives a block of the program back: it ends, the addresses of the block, and no others, become free, every
    other block stays the program's, and the ring stays in order with no two free blocks that touch. *)
Theorem free_correct F A s a z :
  inv F A s → A !! a = Some z →
  ∃ s' F', free (a + HDR) s = Ok tt s' ∧ inv F' (delete a A) s' ∧ brk s' = brk s
  ∧ ∀ x, covers F' x ↔ covers F x ∨ within a z x.
Proof. intros Hi Ha. destruct (free_ok F A s a z Hi Ha) as (s' & F' & H1 & H2 & H3 & H4 & _). by exists s', F'. Qed.
End allocator.

(** A program's first call: 4096 units are asked for, the last ones of them are taken. *)
Definition demo_arena : arena := mk_arena ∅ 0 8192.
Definition demo_room (_ _ : Z) : bool := true.

Lemma malloc_correct_witness :
  ready 4096 [] ∅ demo_arena ∧ 0 ≤ 100 < 2147483632 ∧
  ∃ p F' s', malloc 4096 demo_room 100 demo_arena = Ok (p + HDR) s' ∧ inv 4096 F' (<[p := 14]> ∅) s' ∧ brk s' = 8192 + 32768.
Proof.
  assert (Hr : ready 4096 [] ∅ demo_arena) by (right; unfold HDR, KERNBASE; cbn; split_and!; solve [done | lia]).
  split_and!; [exact Hr|lia|lia|].
  destruct (malloc_correct 4096 demo_room [] ∅ demo_arena 100 Hr) as [(_ & Hg & _)|(p & F' & s' & E & _ & _ & _ & Hi & Hb & _)]; [lia|discriminate Hg|].
  exists p, F', s'. split; [exact E|]. split; [exact Hi|]. destruct Hb as [[(a & z & Hin & _) _]|(_ & _ & Hb)]; [by apply elem_of_nil in Hin|exact Hb].
Defined.

(** Two blocks at the end of the free memory; the first is given back. *)
Definition demo_used : arena := mk_arena (<[4096 := mk_header 8192 0]> (<[8192 := mk_header 4096 10]> (<[8272 := mk_header 0 5]> ∅))) 4096 8312.

Lemma free_correct_witness :
  inv 4096 [(8192, 10)] {[8272 := 5]} demo_used ∧ ({[8272 := 5]} : gmap Z Z) !! 8272 = Some 5 ∧
  ∃ s' F', free 8280 demo_used = Ok tt s' ∧ inv 4096 F' (delete 8272 {[8272 := 5]}) s' ∧ brk s' = 8312
  ∧ ∀ x, covers F' x ↔ covers [(8192, 10)] x ∨ within 8272 5 x.
Proof.
  assert (Hi : inv 4096 [(8192, 10)] {[8272 := 5]} demo_used).
  { split; cbn [demo_used cells freep brk].
    - cbn. split_and!; done.
    - cbn. unfold HDR. lia.
    - intros a z [= -> ->]%list_elem_of_singleton. lia.
    - intros a z [<- <-]%lookup_singleton_Some. split; [lia|]. by exists 0.
    - intros x [Hx|[]%covers_nil]%covers_cons. unfold within, HDR in *. lia.
    - intros a z x [<- <-]%lookup_singleton_Some Hx. unfold within, HDR in *. split; [lia|].
      intros [Hx'|[]%covers_nil]%covers_cons. unfold within, HDR in *. lia.
    - intros a z b w x [<- <-]%lookup_singleton_Some [<- <-]%lookup_singleton_Some. done.
    - set_solver.
    - unfold HDR, KERNBASE. lia. }
  split_and!; [exact Hi|reflexivity|]. apply (free_correct 4096 demo_room [(8192, 10)] {[8272 := 5]} demo_used 8272 5 Hi). reflexivity.
Defined.

(** The size in bytes that is passed to [sbrk] wraps around: a call for nearly 4 GB gets a block without any memory
    behind it. *)
Theorem malloc_overflow :
  ∃ p s', malloc 4096 demo_room 4294967288 demo_arena = Ok p s' ∧ p ≠ 0 ∧ brk s' = brk demo_arena.
Proof. eexists _, _. split; [vm_compute; reflexivity|]. split; [done|reflexivity]. Qed.
