(* ===== verification/Mkfs.v ===== *)
(** The program that builds the first file system image ([mkfs.c]), and what it builds: an image on which the kernel's
    bitmap and inodes are well formed and the files have the contents they were given.

    The image file is a list of blocks; a block that is written past its end extends it.  [exit] and a failing
    [assert] end a run with [Panic].  The files to be put into the image are given with the pieces in which [read]
    delivers them. *)
From S2P Require Export Rdwr.

(** * The code *)
Module Host.

Definition FSSIZE : Z := 1000.
Definition NINODES : Z := 200.
Definition nbitmap : Z := FSSIZE / (BSIZE * 8) + 1.
Definition ninodeblocks : Z := NINODES / IPB + 1.
Definition nlog : Z := LOGSIZE.
Definition nmeta : Z := 2 + nlog + ninodeblocks + nbitmap.
Definition nblocks : Z := FSSIZE - nmeta.
Definition sb : superblock :=
  mk_superblock FSSIZE nblocks NINODES nlog 2 (2 + nlog) (2 + nlog + ninodeblocks).

Record host := mk_host { img : list block; freeinode : Z; freeblock : Z }.
Abbreviation H := (M host).
Definition assert_ (b : bool) : H unit := if b then mret tt else panic "assert".

(** Integers are stored least significant byte first, and read back by the host as the same number. *)
Definition xshort (x : Z) : Z := u16 x.
Definition xint (x : Z) : Z := get32 [u8 x; u8 (x / 256); u8 (x / 65536); u8 (x / 16777216)] 0.

Definition wsect (sec : Z) (buf : block) : H unit := λ s,
  let n := Z.to_nat sec in
  let l := if (n <? length (img s))%nat then <[n := buf]> (img s)
           else img s ++ replicate (n - length (img s)) zero_block ++ [buf] in
  Ok tt (mk_host l (freeinode s) (freeblock s)).
Definition rsect (sec : Z) : H block := λ s,
  match img s !! Z.to_nat sec with Some b => Ok b s | None => Panic "exit" end.

Definition winode (inum : Z) (ip : dinode) : H unit :=
  buf ← rsect (IBLOCK inum sb);
  wsect (IBLOCK inum sb) (put_dinode buf (dinode_off inum) ip).
Definition rinode (inum : Z) : H dinode :=
  buf ← rsect (IBLOCK inum sb);
  mret (get_dinode buf (dinode_off inum)).

Definition ialloc (type : Z) : H Z := λ s,
  let inum := freeinode s in
  (winode inum (mk_dinode (xshort type) 0 0 (xshort 1) (xint 0) (replicate 13 0));; mret inum)
    (mk_host (img s) (inum + 1) (freeblock s)).

(** [freeblock++] *)
Definition new_block : H Z := λ s, Ok (freeblock s) (mk_host (img s) (freeinode s) (freeblock s + 1)).

Definition balloc (used : Z) : H unit :=
  assert_ (used <? BSIZE * 8);;
  let buf := foldl (λ buf i, set_byte buf (i / 8) (u8 (Z.lor (byte_at buf (i / 8)) (Z.shiftl 1 (i mod 8))))) zero_block (seqZ 0 used) in
  wsect (sb_bmapstart sb) buf.

(** The block for byte [off] of the file, allocated if need be. *)
Definition iappend_block (din : dinode) (fbn : Z) : H (dinode * Z) :=
  let addr k := di_addrs din !!! Z.to_nat k in
  let set_addr k a := mk_dinode (di_type din) (di_major din) (di_minor din) (di_nlink din) (di_size din) (<[Z.to_nat k := a]> (di_addrs din)) in
  if fbn <? NDIRECT then
    if xint (addr fbn) =? 0 then x ← new_block; mret (set_addr fbn (xint x), xint (xint x))
    else mret (din, xint (addr fbn))
  else
    '(din, ind) ← (if xint (addr NDIRECT) =? 0 then x ← new_block; mret (set_addr NDIRECT (xint x), xint (xint x))
                   else mret (din, xint (addr NDIRECT)));
    indirect ← rsect ind;
    if get32 indirect (4 * (fbn - NDIRECT)) =? 0 then
      x ← new_block;
      wsect ind (put32 indirect (4 * (fbn - NDIRECT)) (xint x));;
      mret (din, xint (xint x))
    else mret (din, xint (get32 indirect (4 * (fbn - NDIRECT)))).

(** One turn of the loop of [iappend]: [p] is what is still to be written. *)
Definition iappend_body : list Z * Z * dinode → H ((list Z * Z * dinode) + (Z * dinode)) := λ '(p, off, din),
  let n := Z.of_nat (length p) in
  if n =? 0 then mret (inr (off, din)) else
  let fbn := off / BSIZE in
  assert_ (fbn <? MAXFILE);;
  '(din, x) ← iappend_block din fbn;
  let n1 := Z.min n ((fbn + 1) * BSIZE - off) in
  buf ← rsect x;
  wsect x (splice buf (Z.to_nat (off - fbn * BSIZE)) (take (Z.to_nat n1) p));;
  mret (inl (drop (Z.to_nat n1) p, off + n1, din)).

Definition set_disize (din : dinode) (n : Z) : dinode :=
  mk_dinode (di_type din) (di_major din) (di_minor din) (di_nlink din) n (di_addrs din).
Definition iappend (inum : Z) (p : list Z) : H unit :=
  din ← rinode inum;
  '(off, din) ← iterM (S (length p)) iappend_body (p, xint (di_size din), din);
  winode inum (set_disize din (xint off)).

(** A directory entry for [name]: the number and [DIRSIZ] characters. *)
Definition dirent_bytes (inum : Z) (name : list Z) : list Z :=
  le16 (xshort inum) ++ take DIRSIZ (name ++ replicate DIRSIZ 0).

(** The file system without files: the loop of [main] over the sectors, the superblock and the root directory. *)
Definition sb_bytes : list Z :=
  le_words (xint <$> [sb_size sb; sb_nblocks sb; sb_ninodes sb; sb_nlog sb; sb_logstart sb; sb_inodestart sb; sb_bmapstart sb]).
Definition empty_fs : H Z :=
  for_range 0 (Z.to_nat FSSIZE) (λ i, wsect i zero_block);;
  wsect 1 (splice zero_block 0 sb_bytes);;
  rootino ← ialloc T_DIR;
  assert_ (rootino =? ROOTINO);;
  iappend rootino (dirent_bytes rootino (str "."));;
  iappend rootino (dirent_bytes rootino (str ".."));;
  mret rootino.

(** The loop of [main] over its arguments. *)
Definition strip (name : list Z) : list Z := match name with 95 :: name' => name' | _ => name end.
Fixpoint append_all (inum : Z) (pieces : list (list Z)) : H unit :=
  match pieces with [] => mret tt | p :: ps => iappend inum p;; append_all inum ps end.
Fixpoint add_files (rootino : Z) (files : list (list Z * list (list Z))) : H unit :=
  match files with
  | [] => mret tt
  | (name, pieces) :: files =>
      assert_ (negb (bool_decide (47 ∈ name)));;
      inum ← ialloc T_FILE;
      iappend rootino (dirent_bytes inum (strip name));;
      append_all inum pieces;;
      add_files rootino files
  end.

Definition fix_root (rootino : Z) : H unit :=
  din ← rinode rootino;
  let off := (xint (di_size din) / BSIZE + 1) * BSIZE in
  winode rootino (set_disize din (xint off)).

Definition main (files : list (list Z * list (list Z))) : H unit :=
  rootino ← empty_fs;
  add_files rootino files;;
  fix_root rootino;;
  used ← gets freeblock;
  balloc used.

(** [main] on a new image file. *)
Definition new_image : host := mk_host [] 1 nmeta.
End Host.
Import Host.

Definition L_of (s : host) (b : Z) : block := img s !!! Z.to_nat b.
Example mkfs_demo : match main [(str "_cat", [[1; 2; 3]; [4]]); (str "README", [])] new_image with
  | Ok _ s => (freeblock s, length (img s), take 20 (L_of s 59), L_of s 60 !! 3%nat) | _ => (0, 0%nat, [], None) end
  = (61, 1000%nat, [1; 0; 46; 0; 0; 0; 0; 0; 0; 0; 0; 0; 0; 0; 0; 0; 1; 0; 46; 46], Some 4).
Proof. vm_compute. reflexivity. Qed.

(** * Files as slots

    Slot [k < MAXFILE] of inode [i] is the address of its block [k], slot [MAXFILE] that of its indirect block; 0 means none. *)
Definition slot (D : Z → dinode) (L : Z → block) (i k : Z) : Z :=
  let addr k := di_addrs (D i) !!! Z.to_nat k in
  if k =? MAXFILE then addr NDIRECT
  else if k <? NDIRECT then addr k
  else if addr NDIRECT =? 0 then 0 else get32 (L (addr NDIRECT)) (4 * (k - NDIRECT)).

Record slots_wf (S : Z → Z → Z) (sz : Z → Z) (fi fb : Z) (L : Z → block) : Prop := {
  sw_range i k : 1 ≤ i < fi → 0 ≤ k ≤ MAXFILE → S i k ≠ 0 → nmeta ≤ S i k < fb;
  sw_inj i k i' k' : 1 ≤ i < fi → 0 ≤ k ≤ MAXFILE → 1 ≤ i' < fi → 0 ≤ k' ≤ MAXFILE →
    S i k ≠ 0 → S i k = S i' k' → i = i' ∧ k = k';
  sw_have i n : 1 ≤ i < fi → 0 ≤ n < MAXFILE → n * BSIZE < sz i → S i n ≠ 0;
  sw_tail i j : 1 ≤ i < fi → 0 ≤ j < MAXFILE * BSIZE → sz i ≤ j → byte_of L (S i) j = 0;
  sw_zero b : fb ≤ b < FSSIZE → L b = zero_block }.

(** [S'] is [S] with the new block [a] in slot [k] of [i]. *)
Definition upd_slot (S : Z → Z → Z) (i k a : Z) : Z → Z → Z := λ i' k', if (i' =? i) && (k' =? k) then a else S i' k'.

Lemma upd_slot_eq S i k a : upd_slot S i k a i k = a.
Proof. unfold upd_slot. by rewrite !Z.eqb_refl. Qed.
Lemma upd_slot_ne S i k a i' k' : i' ≠ i ∨ k' ≠ k → upd_slot S i k a i' k' = S i' k'.
Proof. intros Hne. unfold upd_slot. destruct (Z.eqb_spec i' i), (Z.eqb_spec k' k); cbn; try done. lia. Qed.

Lemma byte_zero b : 0 ≤ b < BSIZE → byte_at zero_block b = 0.
Proof. intros Hb. unfold byte_at, zero_block. rewrite list_lookup_total_alt, lookup_replicate_2; [done|unfold BSIZE in *; lia]. Qed.

Lemma nmeta_eq : nmeta = 59. Proof. reflexivity. Qed.

Section slots.
Context (S : Z → Z → Z) (sz : Z → Z) (fi fb : Z) (L : Z → block) (Hw : slots_wf S sz fi fb L).

(** Taking the next free block as slot [k] of [i]; the index block of the file may change. *)
Lemma slots_alloc L' i k :
  1 ≤ i < fi → 0 ≤ k ≤ MAXFILE → S i k = 0 → nmeta ≤ fb < FSSIZE → (∀ b, b ≠ S i MAXFILE ∨ S i MAXFILE = 0 → L' b = L b) →
  slots_wf (upd_slot S i k fb) sz fi (fb + 1) L' ∧
  ∀ i' j, 1 ≤ i' < fi → 0 ≤ j < MAXFILE * BSIZE → byte_of L' (upd_slot S i k fb i') j = byte_of L (S i') j.
Proof.
  intros Hi Hk Hs Hfb HL. pose proof nmeta_eq as Hnm.
  assert (HLfb : ∀ b, fb ≤ b < FSSIZE → L' b = zero_block).
  { intros b Hb. rewrite HL; [by apply (sw_zero _ _ _ _ _ Hw)|].
    destruct (decide (S i MAXFILE = 0)); [by right|left; intros ->].
    pose proof (sw_range _ _ _ _ _ Hw i MAXFILE Hi ltac:(unfold MAXFILE, NDIRECT, NINDIRECT; lia) ltac:(done)). lia. }
  assert (Hbyte : ∀ i' j, 1 ≤ i' < fi → 0 ≤ j < MAXFILE * BSIZE → byte_of L' (upd_slot S i k fb i') j = byte_of L (S i') j).
  { intros i' j Hi' Hj. unfold byte_of. assert (0 ≤ j / BSIZE < MAXFILE) as Hq by (unfold MAXFILE, NDIRECT, NINDIRECT, BSIZE in *; zlia).
    destruct (decide (i' = i ∧ j / BSIZE = k)) as [[-> ->]|Hne].
    - rewrite upd_slot_eq, Hs. cbn. destruct (Z.eqb_spec fb 0); [done|]. rewrite HLfb by lia. apply byte_zero. unfold BSIZE. zlia.
    - rewrite upd_slot_ne by lia. destruct (Z.eqb_spec (S i' (j / BSIZE)) 0); [done|]. rewrite HL; [done|].
      destruct (decide (S i MAXFILE = 0)); [by right|left]. intros E.
      destruct (sw_inj _ _ _ _ _ Hw i' (j / BSIZE) i MAXFILE Hi' ltac:(lia) Hi ltac:(unfold MAXFILE, NDIRECT, NINDIRECT; lia) ltac:(done) E). lia. }
  split; [split|done].
  - intros i' k' Hi' Hk' Hne. destruct (decide (i' = i ∧ k' = k)) as [[-> ->]|Hn]; [rewrite upd_slot_eq; lia|].
    rewrite upd_slot_ne in * by lia. pose proof (sw_range _ _ _ _ _ Hw i' k' Hi' Hk' Hne). lia.
  - intros i1 k1 i2 k2 H1 Hk1 H2 Hk2 Hne.
    destruct (decide (i1 = i ∧ k1 = k)) as [[-> ->]|Hn1], (decide (i2 = i ∧ k2 = k)) as [[-> ->]|Hn2]; [done| | |].
    + rewrite upd_slot_eq, (upd_slot_ne _ _ _ _ i2) by lia. intros E.
      pose proof (sw_range _ _ _ _ _ Hw i2 k2 H2 Hk2 ltac:(lia)). lia.
    + rewrite upd_slot_eq, (upd_slot_ne _ _ _ _ i1) in * by lia. intros E. pose proof (sw_range _ _ _ _ _ Hw i1 k1 H1 Hk1 Hne). lia.
    + rewrite !upd_slot_ne in * by lia. by apply (sw_inj _ _ _ _ _ Hw).
  - intros i' n Hi' Hn Hsz. unfold upd_slot. destruct ((i' =? i) && (n =? k)); [lia|]. by apply (sw_have _ _ _ _ _ Hw).
  - intros i' j Hi' Hj Hsz. rewrite Hbyte by done. by apply (sw_tail _ _ _ _ _ Hw).
  - intros b Hb. apply HLfb. lia.
Qed.

(** Writing bytes at the end of the file, in one of its blocks. *)
Lemma slots_write L' i x bs :
  1 ≤ i < fi → 0 ≤ sz i → sz i / BSIZE < MAXFILE → x = S i (sz i / BSIZE) → x ≠ 0 → length (L x) = Z.to_nat BSIZE →
  sz i mod BSIZE + Z.of_nat (length bs) ≤ BSIZE →
  L' x = splice (L x) (Z.to_nat (sz i mod BSIZE)) bs → (∀ b, b ≠ x → L' b = L b) →
  let sz' j := if j =? i then sz i + Z.of_nat (length bs) else sz j in
  slots_wf S sz' fi fb L' ∧
  ∀ i' j, 1 ≤ i' < fi → 0 ≤ j < MAXFILE * BSIZE → byte_of L' (S i') j =
    if decide (i' = i ∧ sz i ≤ j < sz i + Z.of_nat (length bs)) then byte_at bs (j - sz i) else byte_of L (S i') j.
Proof.
  intros Hi Hsz Hn Hx Hx0 Hlen Hm HLx HL sz'.
  assert (Hq : 0 ≤ sz i / BSIZE < MAXFILE) by (unfold BSIZE in *; zlia).
  assert (Hmod : 0 ≤ sz i mod BSIZE) by (unfold BSIZE; zlia).
  assert (Hfit : (Z.to_nat (sz i mod BSIZE) + length bs ≤ length (L x))%nat) by (rewrite Hlen; unfold BSIZE in *; lia).
  assert (Hbyte : ∀ i' j, 1 ≤ i' < fi → 0 ≤ j < MAXFILE * BSIZE → byte_of L' (S i') j =
    if decide (i' = i ∧ sz i ≤ j < sz i + Z.of_nat (length bs)) then byte_at bs (j - sz i) else byte_of L (S i') j).
  { intros i' j Hi' Hj. unfold byte_of. assert (0 ≤ j / BSIZE < MAXFILE) as Hqj by (unfold MAXFILE, NDIRECT, NINDIRECT, BSIZE in *; zlia).
    case_decide as Hc.
    - destruct Hc as [-> Hc]. destruct (chunk_block (sz i) j (Z.of_nat (length bs)) Hsz Hm Hc) as [-> ->].
      rewrite <-Hx, (proj2 (Z.eqb_neq x 0)), HLx, byte_at_splice, decide_True by (done || lia). unfold byte_at. do 2 f_equal. lia.
    - destruct (Z.eqb_spec (S i' (j / BSIZE)) 0); [done|].
      destruct (decide (S i' (j / BSIZE) = x)) as [E|]; [|by rewrite HL]. rewrite E, HLx, byte_at_splice by (done || (unfold BSIZE; zlia)).
      rewrite decide_False; [done|]. intros Hin.
      destruct (sw_inj _ _ _ _ _ Hw i' (j / BSIZE) i (sz i / BSIZE) Hi' ltac:(lia) Hi ltac:(lia) ltac:(done) ltac:(congruence)) as [-> Ej].
      destruct Hc. split; [done|]. unfold BSIZE in *. zlia. }
  split; [split|done].
  - apply (sw_range _ _ _ _ _ Hw).
  - apply (sw_inj _ _ _ _ _ Hw).
  - intros i' n Hi' Hn'. unfold sz'. destruct (Z.eqb_spec i' i) as [->|]; [|by apply (sw_have _ _ _ _ _ Hw)].
    intros Hlt. destruct (decide (n = sz i / BSIZE)) as [->|]; [by rewrite <-Hx|]. apply (sw_have _ _ _ _ _ Hw); [done|done|]. unfold BSIZE in *; zlia.
  - intros i' j Hi' Hj. unfold sz'. rewrite Hbyte by done. destruct (Z.eqb_spec i' i) as [->|Hne]; intros Hge.
    + rewrite decide_False by lia. apply (sw_tail _ _ _ _ _ Hw); [done|done|lia].
    + rewrite decide_False by lia. by apply (sw_tail _ _ _ _ _ Hw).
  - intros b Hb. rewrite HL; [by apply (sw_zero _ _ _ _ _ Hw)|]. intros ->.
    pose proof (sw_range _ _ _ _ _ Hw i (sz i / BSIZE) Hi ltac:(lia) ltac:(congruence)). lia.
Qed.
End slots.

Lemma slots_wf_ext S S' sz fi fb L :
  (∀ i k, 1 ≤ i < fi → 0 ≤ k ≤ MAXFILE → S' i k = S i k) → slots_wf S sz fi fb L → slots_wf S' sz fi fb L.
Proof.
  intros E [H1 H2 H3 H4 H5].
  assert (Hb : ∀ i j, 1 ≤ i < fi → 0 ≤ j < MAXFILE * BSIZE → byte_of L (S' i) j = byte_of L (S i) j).
  { intros i j Hi Hj. unfold byte_of. rewrite E; [done|done|]. unfold MAXFILE, NDIRECT, NINDIRECT, BSIZE in *. zlia. }
  split.
  - intros i k Hi Hk. rewrite E by done. by apply H1.
  - intros i k i' k' Hi Hk Hi' Hk'. rewrite !E by done. by apply H2.
  - intros i n Hi Hn. rewrite E by lia. by apply H3.
  - intros i j Hi Hj. rewrite Hb by done. by apply H4.
  - done.
Qed.

(** * How the addresses of an inode make slots *)

Definition set_daddr (din : dinode) (k a : Z) : dinode :=
  mk_dinode (di_type din) (di_major din) (di_minor din) (di_nlink din) (di_size din) (<[Z.to_nat k := a]> (di_addrs din)).
Definition upd_table (D : Z → dinode) (i : Z) (di : dinode) : Z → dinode := λ j, if j =? i then di else D j.

Lemma lookup_set_daddr din k a k' : 0 ≤ k < Z.of_nat (length (di_addrs din)) → 0 ≤ k' →
  di_addrs (set_daddr din k a) !!! Z.to_nat k' = if decide (k' = k) then a else di_addrs din !!! Z.to_nat k'.
Proof.
  intros Hk Hk'. cbn. case_decide; [subst; apply list_lookup_total_insert_eq; lia|]. apply list_lookup_total_insert_ne. lia.
Qed.

(** A direct address, or the address of the indirect block, which is empty. *)
Lemma slot_set_daddr D L i m a i' k :
  length (di_addrs (D i)) = 13%nat → 0 ≤ m ≤ NDIRECT → 0 ≤ k ≤ MAXFILE →
  (m = NDIRECT → di_addrs (D i) !!! Z.to_nat NDIRECT = 0 ∧ L a = zero_block ∧ a ≠ 0) →
  slot (upd_table D i (set_daddr (D i) m a)) L i' k
  = upd_slot (slot D L) i (if m =? NDIRECT then MAXFILE else m) a i' k.
Proof.
  intros Hl Hm Hk Hind. unfold slot, upd_table. unfold NDIRECT, MAXFILE, NINDIRECT, NDIRECT in *.
  destruct (Z.eqb_spec i' i) as [->|Hi]; [|by rewrite upd_slot_ne by lia].
  rewrite !lookup_set_daddr by lia. unfold upd_slot. rewrite Z.eqb_refl. cbn [andb].
  destruct (Z.eqb_spec m 12) as [->|Hm12].
  - destruct Hind as (H0 & Hz & Ha); [done|]. rewrite decide_True by done. change (12 + 128) with 140.
    destruct (Z.eqb_spec k 140); [done|]. destruct (Z.ltb_spec k 12); [by rewrite decide_False by lia|].
    rewrite (proj2 (Z.eqb_neq a 0)), H0 by done. cbn. rewrite Hz. unfold get32. rewrite !byte_zero by (unfold BSIZE; lia). done.
  - rewrite (decide_False (P := 12 = m)) by lia. change (12 + 128) with 140. destruct (Z.eqb_spec k 140) as [->|].
    + by rewrite (proj2 (Z.eqb_neq 140 m)) by lia.
    + destruct (Z.ltb_spec k 12); [|by rewrite (proj2 (Z.eqb_neq k m)) by lia].
      case_decide; [subst; by rewrite Z.eqb_refl|by rewrite (proj2 (Z.eqb_neq k m)) by lia].
Qed.

(** An address in the indirect block. *)
Lemma slot_put32 D L L' i m a i' k :
  let ind := di_addrs (D i) !!! Z.to_nat NDIRECT in
  ind ≠ 0 → length (L ind) = Z.to_nat BSIZE → NDIRECT ≤ m < MAXFILE → 0 ≤ k ≤ MAXFILE → 0 ≤ a < 4294967296 →
  L' ind = put32 (L ind) (4 * (m - NDIRECT)) a → (∀ b, b ≠ ind → L' b = L b) →
  (i' ≠ i → slot D L i' MAXFILE ≠ ind) →
  slot D L' i' k = upd_slot (slot D L) i m a i' k.
Proof.
  intros ind Hind Hl Hm Hk Ha HL' HL Hne. unfold slot in *. unfold NDIRECT, MAXFILE, NINDIRECT, NDIRECT, BSIZE in *. cbn [Z.eqb Z.add] in Hne.
  destruct (decide (i' = i)) as [->|Hi].
  - unfold upd_slot. rewrite Z.eqb_refl. cbn [andb]. fold ind. change (12 + 128) with 140 in *.
    destruct (Z.eqb_spec k 140) as [->|]; [by rewrite (proj2 (Z.eqb_neq 140 m)) by lia|].
    destruct (Z.ltb_spec k 12); [by rewrite (proj2 (Z.eqb_neq k m)) by lia|].
    rewrite (proj2 (Z.eqb_neq ind 0)), HL' by done. destruct (Z.eqb_spec k m) as [->|].
    + rewrite get32_put32_eq by lia. by apply u32_small.
    + rewrite get32_put32_ne by lia. done.
  - rewrite upd_slot_ne by lia. specialize (Hne Hi). change (12 + 128) with 140 in *. cbn in Hne.
    destruct (k =? 140); [done|]. destruct (k <? 12); [done|]. destruct (_ =? 0); [done|]. by rewrite HL.
Qed.

(** * The image while it is built *)

Record image_wf (s : host) (D : Z → dinode) (sz : Z → Z) : Prop := {
  iw_len : length (img s) = Z.to_nat FSSIZE;
  iw_blk b : 0 ≤ b < FSSIZE → length (L_of s b) = Z.to_nat BSIZE;
  iw_fi : 1 ≤ freeinode s ≤ NINODES;
  iw_fb : nmeta ≤ freeblock s ≤ FSSIZE;
  iw_fits i : 1 ≤ i < freeinode s → dinode_fits (D i);
  iw_slots : slots_wf (slot D (L_of s)) sz (freeinode s) (freeblock s) (L_of s) }.

(** What [iappend_block] and writing to blocks of files leave alone. *)
Record grows_image (s s' : host) : Prop := {
  gi_fi : freeinode s' = freeinode s;
  gi_fb : freeblock s ≤ freeblock s';
  gi_meta b : 0 ≤ b < nmeta → L_of s' b = L_of s b }.
#[export] Instance grows_image_preorder : PreOrder grows_image.
Proof.
  split; [by intros s; split; try done; lia|]. intros s1 s2 s3 [E1 F1 G1] [E2 F2 G2]. split; [congruence|lia|].
  intros b Hb. by rewrite G2, G1.
Qed.

(** The contents: byte [j] of the file with inode [i]. *)
Definition fbyte_of (s : host) (D : Z → dinode) (i j : Z) : Z := byte_of (L_of s) (slot D (L_of s) i) j.

Lemma xint_small x : 0 ≤ x < 4294967296 → xint x = x.
Proof.
  intros Hx. change (u8 x + 256 * u8 (x / 256) + 65536 * u8 (x / 65536) + 16777216 * u8 (x / 16777216) = x). unfold u8. zlia.
Qed.

Lemma rsect_ok s b : 0 ≤ b < FSSIZE → length (img s) = Z.to_nat FSSIZE → rsect b s = Ok (L_of s b) s.
Proof.
  intros Hb Hl. unfold rsect, L_of. rewrite list_lookup_total_alt.
  destruct (lookup_lt_is_Some_2 (img s) (Z.to_nat b)) as [d ->]; [unfold FSSIZE in *; lia|done].
Qed.

Lemma wsect_ok s b d : 0 < b < FSSIZE → length (img s) = Z.to_nat FSSIZE →
  ∃ s', wsect b d s = Ok tt s' ∧ length (img s') = Z.to_nat FSSIZE ∧ freeinode s' = freeinode s ∧ freeblock s' = freeblock s
  ∧ ∀ x, L_of s' x = if decide (x = b) then d else L_of s x.
Proof.
  intros Hb Hl. unfold wsect. rewrite (proj2 (Nat.ltb_lt _ _)) by (unfold FSSIZE in *; lia).
  eexists. split; [done|]. cbn. split; [by rewrite length_insert|]. do 2 (split; [done|]). intros x.
  unfold L_of. cbn. case_decide; [subst; apply list_lookup_total_insert_eq; unfold FSSIZE in *; lia|].
  apply list_lookup_total_insert_ne. lia.
Qed.

Section image.
Context (s : host) (D : Z → dinode) (sz : Z → Z) (Hw : image_wf s D sz) (i : Z) (Hi : 1 ≤ i < freeinode s).
Let L := L_of s.
Let ind := di_addrs (D i) !!! Z.to_nat NDIRECT.

Lemma addr_fits k : 0 ≤ k ≤ NDIRECT → 0 ≤ di_addrs (D i) !!! Z.to_nat k < 4294967296.
Proof.
  intros Hk. destruct (iw_fits _ _ _ Hw i Hi) as [_ _ _ _ _ Hl Ha]. rewrite list_lookup_total_alt.
  destruct (lookup_lt_is_Some_2 (di_addrs (D i)) (Z.to_nat k)) as [a Ea]; [unfold NDIRECT in *; lia|]. rewrite Ea.
  exact (Forall_lookup_1 _ _ _ _ Ha Ea).
Qed.

Lemma set_daddr_fits k a : 0 ≤ a < 4294967296 → dinode_fits (set_daddr (D i) k a).
Proof.
  intros Ha. destruct (iw_fits _ _ _ Hw i Hi) as [H1 H2 H3 H4 H5 H6 H7]. split; cbn; try done; [by rewrite length_insert|].
  apply Forall_insert; [done|]. exact Ha.
Qed.

(** [freeblock++] into an address of the inode. *)
Lemma take_addr m :
  0 ≤ m ≤ NDIRECT → di_addrs (D i) !!! Z.to_nat m = 0 → freeblock s < FSSIZE →
  let a := freeblock s in
  let D' := upd_table D i (set_daddr (D i) m a) in
  ∃ s', new_block s = Ok a s' ∧ image_wf s' D' sz ∧ grows_image s s' ∧ freeblock s' = a + 1 ∧ L_of s' = L
  ∧ ∀ i' j, 1 ≤ i' < freeinode s → 0 ≤ j < MAXFILE * BSIZE → fbyte_of s' D' i' j = fbyte_of s D i' j.
Proof.
  intros Hm H0 Hfb a D'. exists (mk_host (img s) (freeinode s) (a + 1)). pose proof (iw_fb _ _ _ Hw) as Hfb'. pose proof nmeta_eq as Hnm.
  set (k := if m =? NDIRECT then MAXFILE else m).
  assert (Hk : 0 ≤ k ≤ MAXFILE) by (unfold k, MAXFILE, NINDIRECT, NDIRECT in *; destruct (Z.eqb_spec m 12); lia).
  assert (Hza : L a = zero_block) by (apply (sw_zero _ _ _ _ _ (iw_slots _ _ _ Hw)); unfold a; lia).
  assert (ES : ∀ i' k', 0 ≤ k' ≤ MAXFILE → slot D' L i' k' = upd_slot (slot D L) i k a i' k').
  { intros i' k' Hk'. apply slot_set_daddr; [apply (fit_addrs _ (iw_fits _ _ _ Hw i Hi))|done|done|]. intros ->. split_and!; [done|done|unfold a; lia]. }
  assert (HS0 : slot D L i k = 0).
  { unfold k, slot. destruct (Z.eqb_spec m NDIRECT) as [->|]; [by rewrite Z.eqb_refl|].
    rewrite (proj2 (Z.eqb_neq m MAXFILE)), (proj2 (Z.ltb_lt m NDIRECT)) by (unfold MAXFILE, NINDIRECT, NDIRECT in *; lia). done. }
  destruct (slots_alloc _ _ _ _ _ (iw_slots _ _ _ Hw) L i k Hi Hk HS0 ltac:(unfold a in *; lia) ltac:(done)) as [Hs' Hbytes].
  split_and!; [done| |split; cbn; [done|lia|done]|done|done|].
  - split; cbn [img freeinode freeblock]; try apply Hw; [lia| |].
    + intros i' Hi'. unfold D', upd_table. destruct (Z.eqb_spec i' i) as [->|]; [apply set_daddr_fits; unfold a, FSSIZE in *; lia|by apply Hw].
    + eapply slots_wf_ext; [|exact Hs']. intros i' k' _ Hk'. by apply ES.
  - intros i' j Hi' Hj. etransitivity; [|exact (Hbytes i' j Hi' Hj)]. unfold fbyte_of, byte_of.
    assert (0 ≤ j / BSIZE < MAXFILE) by (unfold MAXFILE, NDIRECT, NINDIRECT, BSIZE in *; zlia).
    change (L_of _) with L. by rewrite ES by lia.
Qed.

(** [freeblock++] into the indirect block. *)
Lemma take_indirect m :
  NDIRECT ≤ m < MAXFILE → ind ≠ 0 → slot D L i m = 0 → freeblock s < FSSIZE →
  let a := freeblock s in
  ∃ s', (x ← new_block; wsect ind (put32 (L ind) (4 * (m - NDIRECT)) x);; mret x) s = Ok a s' ∧ image_wf s' D sz ∧ grows_image s s'
  ∧ freeblock s' = a + 1 ∧ slot D (L_of s') i m = a
  ∧ ∀ i' j, 1 ≤ i' < freeinode s → 0 ≤ j < MAXFILE * BSIZE → fbyte_of s' D i' j = fbyte_of s D i' j.
Proof.
  intros Hm Hind HS0 Hfb a. pose proof (iw_fb _ _ _ Hw) as Hfb'. pose proof nmeta_eq as Hnm.
  assert (Hslot : slot D L i MAXFILE = ind) by done.
  pose proof (sw_range _ _ _ _ _ (iw_slots _ _ _ Hw) i MAXFILE Hi ltac:(unfold MAXFILE, NINDIRECT, NDIRECT; lia) Hind) as Hr. change (nmeta ≤ ind < freeblock s) in Hr.
  set (s1 := mk_host (img s) (freeinode s) (a + 1)).
  destruct (wsect_ok s1 ind (put32 (L ind) (4 * (m - NDIRECT)) a) ltac:(lia) (iw_len _ _ _ Hw)) as (s' & E & Hlen & Hfi & Hfb1 & HL').
  assert (HL : ∀ b, b ≠ ind → L_of s' b = L b) by (intros b Hne; rewrite HL'; by rewrite decide_False).
  assert (HLi : L_of s' ind = put32 (L ind) (4 * (m - NDIRECT)) a) by (rewrite HL'; by rewrite decide_True).
  assert (ES : ∀ i' k', 1 ≤ i' < freeinode s → 0 ≤ k' ≤ MAXFILE → slot D (L_of s') i' k' = upd_slot (slot D L) i m a i' k').
  { intros i' k' Hi' Hk'. apply (slot_put32 D L (L_of s') i m a i' k' Hind); [apply (iw_blk _ _ _ Hw ind); lia|done|done|unfold a, FSSIZE in *; lia|done|done|].
    intros Hne E'. destruct (sw_inj _ _ _ _ _ (iw_slots _ _ _ Hw) i' MAXFILE i MAXFILE Hi' ltac:(unfold MAXFILE, NINDIRECT, NDIRECT; lia) Hi
      ltac:(unfold MAXFILE, NINDIRECT, NDIRECT; lia)) as [Ei _]; [intros E0; exact (Hind (eq_trans (eq_sym E') E0))|exact (eq_trans E' (eq_sym Hslot))|done]. }
  assert (Hm' : 0 ≤ m ≤ MAXFILE) by (unfold NDIRECT in *; lia).
  destruct (slots_alloc _ _ _ _ _ (iw_slots _ _ _ Hw) (L_of s') i m Hi Hm' HS0 ltac:(unfold a in *; lia)) as [Hs' Hbytes].
  { intros b [Hb|Hb]; [by apply HL|exact (False_ind _ (Hind Hb))]. }
  exists s'. split; [change ((wsect ind (put32 (L ind) (4 * (m - NDIRECT)) a);; mret a) s1 = Ok a s'); by mstep_with E|]. split_and!.
  - split; rewrite ?Hfi, ?Hfb1; cbn [freeinode freeblock s1]; try apply Hw; [done| |unfold a; lia|].
    + intros b Hb. rewrite HL'. case_decide; [subst; rewrite length_put32|]; by apply (iw_blk _ _ _ Hw).
    + eapply slots_wf_ext; [|exact Hs']. intros i' k' Hi' Hk'. by apply ES.
  - split; rewrite ?Hfi, ?Hfb1; cbn [freeinode freeblock s1]; [done|unfold a; lia|]. intros b Hb. rewrite HL by lia. done.
  - by rewrite Hfb1.
  - rewrite ES by done. apply upd_slot_eq.
  - intros i' j Hi' Hj. etransitivity; [|exact (Hbytes i' j Hi' Hj)]. unfold fbyte_of, byte_of.
    assert (0 ≤ j / BSIZE < MAXFILE) by (unfold MAXFILE, NDIRECT, NINDIRECT, BSIZE in *; zlia). by rewrite ES by lia.
Qed.
End image.

Definition need (di : dinode) : Z := if di_addrs di !!! Z.to_nat NDIRECT =? 0 then 1 else 0.
(** 1 when a block is still to be found. *)
Definition fresh (a : Z) : Z := if a =? 0 then 1 else 0.
Definition same_kind (d d' : dinode) : Prop :=
  di_type d' = di_type d ∧ di_major d' = di_major d ∧ di_minor d' = di_minor d ∧ di_nlink d' = di_nlink d ∧ di_size d' = di_size d.

(** From [s] and [D] to [s'] and [D'], while file [i] is extended: other inodes and all contents are the same. *)
Record extends_to (i : Z) (s : host) (D : Z → dinode) (s' : host) (D' : Z → dinode) : Prop := {
  et_grows : grows_image s s';
  et_other j : j ≠ i → D' j = D j;
  et_kind : same_kind (D i) (D' i);
  et_bytes j k : 1 ≤ j < freeinode s → 0 ≤ k < MAXFILE * BSIZE → fbyte_of s' D' j k = fbyte_of s D j k }.
Lemma extends_refl i s D : extends_to i s D s D.
Proof. split; done. Qed.
Lemma extends_trans i s D s1 D1 s2 D2 : extends_to i s D s1 D1 → extends_to i s1 D1 s2 D2 → extends_to i s D s2 D2.
Proof.
  intros [G1 O1 (?&?&?&?&?) B1] [G2 O2 (?&?&?&?&?) B2]. split; [by transitivity s1| | |].
  - intros j Hj. by rewrite O2, O1.
  - unfold same_kind. split_and!; congruence.
  - intros j k Hj Hk. rewrite B2, B1 by (done || by rewrite (gi_fi _ _ G1)). done.
Qed.

Lemma take_addr_ok s D sz i m :
  image_wf s D sz → 1 ≤ i < freeinode s → 0 ≤ m ≤ NDIRECT → di_addrs (D i) !!! Z.to_nat m = 0 → freeblock s < FSSIZE →
  ∃ s' D', new_block s = Ok (freeblock s) s' ∧ D' i = set_daddr (D i) m (freeblock s) ∧ image_wf s' D' sz ∧ extends_to i s D s' D'
  ∧ freeblock s' = freeblock s + 1 ∧ L_of s' = L_of s.
Proof.
  intros Hw Hi Hm H0 Hfb. destruct (take_addr s D sz Hw i Hi m Hm H0 Hfb) as (s' & E & Hw' & Hg & Hf & HL & Hb).
  exists s', (upd_table D i (set_daddr (D i) m (freeblock s))). unfold upd_table at 1. rewrite Z.eqb_refl. split_and!; try done.
  split; [done| | |done]; unfold upd_table.
  - intros j Hj. by rewrite (proj2 (Z.eqb_neq j i)).
  - rewrite Z.eqb_refl. by split_and!.
Qed.

Lemma iappend_block_ok s D sz i fbn :
  image_wf s D sz → 1 ≤ i < freeinode s → 0 ≤ fbn < MAXFILE → freeblock s + fresh (slot D (L_of s) i fbn) + need (D i) ≤ FSSIZE →
  ∃ s' D', iappend_block (D i) fbn s = Ok (D' i, slot D' (L_of s') i fbn) s' ∧ image_wf s' D' sz ∧ extends_to i s D s' D'
  ∧ slot D' (L_of s') i fbn ≠ 0 ∧ freeblock s' + need (D' i) ≤ freeblock s + fresh (slot D (L_of s) i fbn) + need (D i).
Proof.
  intros Hw Hi Hn Hroom. pose proof nmeta_eq as Hnm. pose proof (iw_fb _ _ _ Hw) as Hfb.
  assert (Hxfb : ∀ x, 0 ≤ x ≤ FSSIZE → xint x = x) by (intros x Hx; apply xint_small; unfold FSSIZE in *; lia).
  assert (Hneed : 0 ≤ need (D i) ≤ 1) by (unfold need; destruct (_ =? 0); lia).
  assert (Hm12 : MAXFILE = 140) by done. assert (H12 : NDIRECT = 12) by done.
  assert (Hfr : ∀ a, 0 ≤ fresh a ≤ 1) by (intros a; unfold fresh; destruct (a =? 0); lia). pose proof (Hfr (slot D (L_of s) i fbn)) as Hfr0.
  unfold iappend_block. destruct (Z.ltb_spec fbn NDIRECT) as [Hlt|Hge].
  - rewrite (xint_small (di_addrs (D i) !!! Z.to_nat fbn)) by (eapply addr_fits; [done|done|lia]).
    assert (Hslot : ∀ D L, slot D L i fbn = di_addrs (D i) !!! Z.to_nat fbn).
    { intros D0 L0. unfold slot. by rewrite (proj2 (Z.eqb_neq fbn MAXFILE)), (proj2 (Z.ltb_lt fbn NDIRECT)) by lia. }
    destruct (Z.eqb_spec (di_addrs (D i) !!! Z.to_nat fbn) 0) as [E0|N0].
    + rewrite Hslot, E0 in *. change (fresh 0) with 1 in *.
      destruct (take_addr_ok s D sz i fbn Hw Hi ltac:(lia) E0 ltac:(lia)) as (s' & D' & E & ED & Hw' & Hex & Hf & HL).
      exists s', D'. rewrite ?Hslot, ED, lookup_set_daddr, decide_True by (rewrite ?(fit_addrs _ (iw_fits _ _ _ Hw i Hi)); unfold NDIRECT in *; lia || done).
      split; [mstep_with E; by rewrite !Hxfb by lia|]. split_and!; [done|done|lia|].
      unfold need. rewrite lookup_set_daddr, decide_False by (rewrite ?(fit_addrs _ (iw_fits _ _ _ Hw i Hi)); unfold NDIRECT in *; lia). lia.
    + exists s, D. rewrite Hslot in Hfr0 |- *. split_and!; [done|done|apply extends_refl|done|lia].
  - rewrite (xint_small (di_addrs (D i) !!! Z.to_nat NDIRECT)) by (eapply addr_fits; [done|done|lia]).
    assert (Hslot : ∀ D L, di_addrs (D i) !!! Z.to_nat NDIRECT ≠ 0 → slot D L i fbn = get32 (L (di_addrs (D i) !!! Z.to_nat NDIRECT)) (4 * (fbn - NDIRECT))).
    { intros D0 L0 Hne. unfold slot. rewrite (proj2 (Z.eqb_neq fbn MAXFILE)), (proj2 (Z.ltb_ge fbn NDIRECT)) by lia. by rewrite (proj2 (Z.eqb_neq _ 0)). }
    assert (∃ s1 D1, (if di_addrs (D i) !!! Z.to_nat NDIRECT =? 0
        then x ← new_block; mret (set_daddr (D i) NDIRECT (xint x), xint (xint x)) else mret (D i, di_addrs (D i) !!! Z.to_nat NDIRECT)) s
        = Ok (D1 i, di_addrs (D1 i) !!! Z.to_nat NDIRECT) s1
      ∧ image_wf s1 D1 sz ∧ extends_to i s D s1 D1 ∧ di_addrs (D1 i) !!! Z.to_nat NDIRECT ≠ 0 ∧ freeblock s1 ≤ freeblock s + need (D i)
      ∧ fresh (slot D1 (L_of s1) i fbn) ≤ fresh (slot D (L_of s) i fbn))
      as (s1 & D1 & E1 & Hw1 & Hex1 & Hne1 & Hf1 & Hfr1).
    { unfold need in *. destruct (Z.eqb_spec (di_addrs (D i) !!! Z.to_nat NDIRECT) 0) as [E0|N0].
      - destruct (take_addr_ok s D sz i NDIRECT Hw Hi ltac:(lia) E0 ltac:(lia)) as (s1 & D1 & E & ED & Hw' & Hex & Hf & HL).
        exists s1, D1. rewrite ED, lookup_set_daddr, decide_True by (rewrite ?(fit_addrs _ (iw_fits _ _ _ Hw i Hi)); unfold NDIRECT in *; lia || done).
        split; [mstep_with E; by rewrite !Hxfb by lia|]. split_and!; [done|done|lia|lia|].
        assert (E1 : slot D (L_of s) i fbn = 0) by (unfold slot; rewrite (proj2 (Z.eqb_neq fbn MAXFILE)), (proj2 (Z.ltb_ge fbn NDIRECT)) by lia; by rewrite E0).
        rewrite E1. apply Hfr.
      - exists s, D. split_and!; [done|done|apply extends_refl|done|lia|done]. }
    assert (Hi1 : 1 ≤ i < freeinode s1) by (by rewrite (gi_fi _ _ (et_grows _ _ _ _ _ Hex1))).
    assert (Hnd : need (D1 i) = 0) by (unfold need; by rewrite (proj2 (Z.eqb_neq _ 0))).
    set (ind := di_addrs (D1 i) !!! Z.to_nat NDIRECT) in *.
    pose proof (sw_range _ _ _ _ _ (iw_slots _ _ _ Hw1) i MAXFILE Hi1 ltac:(lia) Hne1) as Hr. change (nmeta ≤ ind < freeblock s1) in Hr.
    pose proof (iw_fb _ _ _ Hw1) as Hfb1. unfold set_daddr in E1. mstep_with E1. cbn beta iota.
    mstep_with (rsect_ok s1 ind ltac:(lia) (iw_len _ _ _ Hw1)). pose proof (Hslot D1 (L_of s1) Hne1) as Hs1. fold ind in Hs1. rewrite <-Hs1.
    destruct (Z.eqb_spec (slot D1 (L_of s1) i fbn) 0) as [E0|N0].
    + rewrite E0 in Hfr1. change (fresh 0) with 1 in Hfr1.
      destruct (take_indirect s1 D1 sz Hw1 i Hi1 fbn ltac:(lia) Hne1 E0 ltac:(lia)) as (s' & E & Hw' & Hg & Hf & Hsl & Hb).
      exists s', D1. rewrite Hsl. split.
      * revert E. unfold mbind, M_bind. destruct (new_block s1) as [x s2| | |] eqn:Eb; try done. intros E.
        assert (x = freeblock s1) as -> by (unfold new_block in Eb; by injection Eb as <- <-). rewrite !Hxfb by lia.
        destruct (wsect _ _ s2) as [[] s3| | |]; try done. by injection E as ->.
      * split_and!; [done| |lia|rewrite Hnd; lia].
        eapply extends_trans; [exact Hex1|]. split; [done|done|by split_and!|exact Hb].
    + exists s1, D1. split; [|split_and!; [done|done|done|rewrite Hnd; lia]].
      rewrite xint_small; [done|]. pose proof (sw_range _ _ _ _ _ (iw_slots _ _ _ Hw1) i fbn Hi1 ltac:(lia) N0). unfold FSSIZE in *. lia.
Qed.

(** * [iappend] *)

(** The bytes [bs] have been put at [off] of file [i]. *)
Record appends (i off : Z) (bs : list Z) (s : host) (D : Z → dinode) (s' : host) (D' : Z → dinode) : Prop := {
  ap_grows : grows_image s s';
  ap_other j : j ≠ i → D' j = D j;
  ap_kind : same_kind (D i) (D' i);
  ap_bytes j k : 1 ≤ j < freeinode s → 0 ≤ k < MAXFILE * BSIZE → fbyte_of s' D' j k =
    if decide (j = i ∧ off ≤ k < off + Z.of_nat (length bs)) then byte_at bs (k - off) else fbyte_of s D j k }.

Lemma appends_app i off b1 b2 s D s1 D1 s2 D2 :
  appends i off b1 s D s1 D1 → appends i (off + Z.of_nat (length b1)) b2 s1 D1 s2 D2 → 0 ≤ off → appends i off (b1 ++ b2) s D s2 D2.
Proof.
  intros [G1 O1 (?&?&?&?&?) B1] [G2 O2 (?&?&?&?&?) B2] Hoff. split; [by transitivity s1| | |].
  - intros j Hj. by rewrite O2, O1.
  - unfold same_kind. split_and!; congruence.
  - intros j k Hj Hk. rewrite B2, B1 by (done || by rewrite (gi_fi _ _ G1)). rewrite length_app.
    destruct (decide (j = i)) as [->|Hne].
    + repeat case_decide; try lia; unfold byte_at; rewrite ?list_lookup_total_alt;
        first [done | rewrite lookup_app_r by lia; do 2 f_equal; lia | rewrite lookup_app_l by lia; done].
    + rewrite !decide_False by tauto. done.
Qed.

Definition upd_size (sz : Z → Z) (i n : Z) : Z → Z := λ j, if j =? i then n else sz j.

(** Writing into the block of the file. *)
Lemma write_block_ok s D sz i x bs :
  image_wf s D sz → 1 ≤ i < freeinode s → 0 ≤ sz i → sz i / BSIZE < MAXFILE → x = slot D (L_of s) i (sz i / BSIZE) → x ≠ 0 →
  sz i mod BSIZE + Z.of_nat (length bs) ≤ BSIZE →
  ∃ s', (buf ← rsect x; wsect x (splice buf (Z.to_nat (sz i mod BSIZE)) bs)) s = Ok tt s'
  ∧ image_wf s' D (upd_size sz i (sz i + Z.of_nat (length bs))) ∧ freeblock s' = freeblock s ∧ appends i (sz i) bs s D s' D.
Proof.
  intros Hw Hi Hsz Hn Hx Hx0 Hm. pose proof nmeta_eq as Hnm. pose proof (iw_fb _ _ _ Hw) as Hfb. assert (HM : MAXFILE = 140) by done.
  assert (Hq : 0 ≤ sz i / BSIZE < MAXFILE) by (unfold BSIZE in *; zlia).
  pose proof (sw_range _ _ _ _ _ (iw_slots _ _ _ Hw) i (sz i / BSIZE) Hi ltac:(lia) ltac:(congruence)) as Hr. rewrite <-Hx in Hr.
  destruct (wsect_ok s x (splice (L_of s x) (Z.to_nat (sz i mod BSIZE)) bs) ltac:(lia) (iw_len _ _ _ Hw)) as (s' & E & Hlen & Hfi & Hfb' & HL').
  assert (HLx : L_of s' x = splice (L_of s x) (Z.to_nat (sz i mod BSIZE)) bs) by (rewrite HL'; by rewrite decide_True).
  assert (HL : ∀ b, b ≠ x → L_of s' b = L_of s b) by (intros b Hb; rewrite HL'; by rewrite decide_False).
  assert (ES : ∀ j k, 1 ≤ j < freeinode s → slot D (L_of s') j k = slot D (L_of s) j k).
  { intros j k Hj. unfold slot. destruct (k =? MAXFILE); [done|]. destruct (k <? NDIRECT); [done|].
    destruct (Z.eqb_spec (di_addrs (D j) !!! Z.to_nat NDIRECT) 0); [done|]. rewrite HL; [done|]. intros Ej.
    destruct (sw_inj _ _ _ _ _ (iw_slots _ _ _ Hw) j MAXFILE i (sz i / BSIZE) Hj ltac:(lia) Hi ltac:(lia)) as [_ Ek]; [done|by rewrite <-Hx|lia]. }
  destruct (slots_write _ _ _ _ _ (iw_slots _ _ _ Hw) (L_of s') i x bs Hi Hsz Hn Hx Hx0 (iw_blk _ _ _ Hw x ltac:(lia)) Hm HLx HL) as [Hs' Hb].
  exists s'. split; [by mstep_with (rsect_ok s x ltac:(lia) (iw_len _ _ _ Hw))|]. split_and!; [|done|].
  - split; rewrite ?Hfi, ?Hfb'; try apply Hw; [done| |].
    + intros b Hb0. rewrite HL'. case_decide; [subst; rewrite length_splice|]; by apply (iw_blk _ _ _ Hw).
    + eapply slots_wf_ext; [|exact Hs']. intros j k Hj _. by apply ES.
  - split; [split; [done|lia|intros b Hb0; apply HL; lia]|done|by split_and!|].
    intros j k Hj Hk. unfold fbyte_of. rewrite <-(Hb j k Hj Hk). unfold byte_of. by rewrite ES.
Qed.

Lemma image_wf_ext s D sz sz' : (∀ i, sz' i = sz i) → image_wf s D sz → image_wf s D sz'.
Proof.
  intros E [H1 H2 H3 H4 H5 [S1 S2 S3 S4 S5]]. split; try done. split; try done.
  - intros i n Hi Hn Hs. apply S3; [done|done|]. by rewrite <-E.
  - intros i j Hi Hj Hs. apply S4; [done|done|]. by rewrite <-E.
Qed.

(** The blocks of a file of [n] bytes. *)
Definition ceil (n : Z) : Z := (n + (BSIZE - 1)) / BSIZE.

Lemma iappend_step s D sz i p :
  image_wf s D sz → 1 ≤ i < freeinode s → 0 ≤ sz i → p ≠ [] → sz i + Z.of_nat (length p) ≤ MAXFILE * BSIZE →
  freeblock s + (ceil (sz i + Z.of_nat (length p)) - ceil (sz i)) + need (D i) ≤ FSSIZE →
  let n1 := chunk (sz i) (Z.of_nat (length p)) in
  ∃ s' D', iappend_body (p, sz i, D i) s = Ok (inl (drop (Z.to_nat n1) p, sz i + n1, D' i)) s'
  ∧ image_wf s' D' (upd_size sz i (sz i + n1)) ∧ appends i (sz i) (take (Z.to_nat n1) p) s D s' D'
  ∧ freeblock s' + need (D' i) ≤ freeblock s + (ceil (sz i + n1) - ceil (sz i)) + need (D i).
Proof.
  intros Hw Hi Hsz Hp Hmax Hroom n1. destruct (chunk_step (sz i) (Z.of_nat (length p)) Hsz ltac:(destruct p; [done|cbn; lia])) as (Hn1 & Hfit & _). fold n1 in Hn1, Hfit.
  assert (Hq : 0 ≤ sz i / BSIZE < MAXFILE) by (unfold MAXFILE, NINDIRECT, NDIRECT, BSIZE in *; zlia).
  assert (Hfr : fresh (slot D (L_of s) i (sz i / BSIZE)) ≤ ceil (sz i + n1) - ceil (sz i)).
  { unfold fresh. destruct (Z.eqb_spec (slot D (L_of s) i (sz i / BSIZE)) 0) as [E0|]; [|unfold ceil, BSIZE in *; zlia].
    destruct (decide (sz i / BSIZE * BSIZE < sz i)); [by destruct (sw_have _ _ _ _ _ (iw_slots _ _ _ Hw) i (sz i / BSIZE) Hi Hq)|].
    unfold ceil, BSIZE in *. zlia. }
  assert (Hmono : ceil (sz i + n1) ≤ ceil (sz i + Z.of_nat (length p))) by (unfold ceil, BSIZE in *; zlia).
  destruct (iappend_block_ok s D sz i (sz i / BSIZE) Hw Hi Hq ltac:(lia)) as (s1 & D1 & E1 & Hw1 & Hex & Hx0 & Hf1).
  set (x := slot D1 (L_of s1) i (sz i / BSIZE)) in *.
  assert (Hi1 : 1 ≤ i < freeinode s1) by (by rewrite (gi_fi _ _ (et_grows _ _ _ _ _ Hex))).
  assert (Hlen : Z.of_nat (length (take (Z.to_nat n1) p)) = n1) by (rewrite length_take; lia).
  destruct (write_block_ok s1 D1 sz i x (take (Z.to_nat n1) p) Hw1 Hi1 Hsz ltac:(lia) eq_refl Hx0 ltac:(rewrite Hlen; lia)) as (s2 & E2 & Hw2 & Hf2 & Hap).
  rewrite Hlen in Hw2. exists s2, D1. split_and!; [|done| |lia].
  - unfold iappend_body. rewrite (proj2 (Z.eqb_neq _ 0)) by (destruct p; [done|cbn; lia]).
    unfold assert_. rewrite (proj2 (Z.ltb_lt (sz i / BSIZE) MAXFILE)), bind_mret by lia. mstep_with E1. cbn beta iota.
    replace (Z.min (Z.of_nat (length p)) ((sz i / BSIZE + 1) * BSIZE - sz i)) with n1 by (unfold n1, chunk, BSIZE; f_equal; zlia).
    replace (sz i - sz i / BSIZE * BSIZE) with (sz i mod BSIZE) by (unfold BSIZE; zlia). fold x.
    rewrite <-bind_assoc. by mstep_with E2.
  - destruct Hex as [G1 O1 K1 B1]. destruct Hap as [G2 O2 K2 B2]. split; [by transitivity s1| | |].
    + intros j Hj. by rewrite O1.
    + done.
    + intros j k Hj Hk. rewrite B2 by (done || by rewrite (gi_fi _ _ G1)). by rewrite B1.
Qed.

Lemma iappend_loop fuel s D sz i p :
  image_wf s D sz → 1 ≤ i < freeinode s → 0 ≤ sz i → sz i + Z.of_nat (length p) ≤ MAXFILE * BSIZE → (length p < fuel)%nat →
  freeblock s + (ceil (sz i + Z.of_nat (length p)) - ceil (sz i)) + need (D i) ≤ FSSIZE →
  ∃ s' D', iterM fuel iappend_body (p, sz i, D i) s = Ok (sz i + Z.of_nat (length p), D' i) s'
  ∧ image_wf s' D' (upd_size sz i (sz i + Z.of_nat (length p))) ∧ appends i (sz i) p s D s' D'
  ∧ freeblock s' + need (D' i) ≤ freeblock s + (ceil (sz i + Z.of_nat (length p)) - ceil (sz i)) + need (D i).
Proof.
  revert s D sz p. induction fuel as [|fuel IH]; intros s D sz p Hw Hi Hsz Hmax Hfuel Hroom; [lia|].
  destruct (decide (p = [])) as [->|Hp].
  - exists s, D. split; [erewrite iterM_inr; [|reflexivity]; by rewrite Z.add_0_r|].
    split_and!; [|split; [done|done|by split_and!|]|change (Z.of_nat (length (@nil Z))) with 0; rewrite Z.add_0_r; lia].
    + eapply image_wf_ext; [|exact Hw]. intros j. unfold upd_size. cbn. destruct (Z.eqb_spec j i); [subst; lia|done].
    + intros j k _ _. rewrite decide_False; [done|]. cbn. lia.
  - destruct (iappend_step s D sz i p Hw Hi Hsz Hp Hmax Hroom) as (s1 & D1 & E1 & Hw1 & Hap1 & Hf1).
    set (n1 := chunk (sz i) (Z.of_nat (length p))) in *.
    assert (Hn1 : 0 < n1 ≤ Z.of_nat (length p)) by (apply (chunk_step (sz i)); [done|destruct p; [done|cbn; lia]]).
    set (sz1 := upd_size sz i (sz i + n1)) in *. assert (Es : sz1 i = sz i + n1) by (unfold sz1, upd_size; by rewrite Z.eqb_refl).
    assert (Hl : Z.of_nat (length (drop (Z.to_nat n1) p)) = Z.of_nat (length p) - n1) by (rewrite length_drop; lia).
    destruct (IH s1 D1 sz1 (drop (Z.to_nat n1) p)) as (s' & D' & E' & Hw' & Hap' & Hf').
    + done.
    + by rewrite (gi_fi _ _ (ap_grows _ _ _ _ _ _ _ Hap1)).
    + lia.
    + rewrite Hl, Es. lia.
    + lia.
    + rewrite Hl, Es. replace (sz i + n1 + (Z.of_nat (length p) - n1)) with (sz i + Z.of_nat (length p)) by lia. lia.
    + rewrite Hl, Es in *. exists s', D'. split_and!.
      * rewrite (iterM_inl _ _ _ _ _ _ E1), E'. do 2 f_equal. lia.
      * eapply image_wf_ext; [|exact Hw']. intros j. unfold upd_size, sz1, upd_size. destruct (j =? i); lia.
      * rewrite <-(take_drop (Z.to_nat n1) p). eapply appends_app; [exact Hap1| |done]. rewrite length_take_le by lia.
        by rewrite Z2Nat.id by lia.
      * replace (sz i + n1 + (Z.of_nat (length p) - n1)) with (sz i + Z.of_nat (length p)) in Hf' by lia. lia.
Qed.

(** * The inode table *)

Definition table (s : host) (D : Z → dinode) (i : Z) : Prop := get_dinode (L_of s (IBLOCK i sb)) (dinode_off i) = D i.

Lemma IBLOCK_range i : 1 ≤ i ≤ NINODES → 32 ≤ IBLOCK i sb < nmeta - 1 ∧ IBLOCK i sb = i / 8 + 32.
Proof.
  intros Hi. unfold NINODES in Hi. assert (E : IBLOCK i sb = i / 8 + 32).
  { unfold IBLOCK. change (sb_inodestart sb) with 32. change IPB with 8. apply u32_small. zlia. }
  rewrite E, nmeta_eq. zlia.
Qed.

(** A change below the blocks of the files. *)
Lemma meta_change s s' D sz :
  image_wf s D sz → length (img s') = Z.to_nat FSSIZE → freeinode s' = freeinode s → freeblock s' = freeblock s →
  (∀ b, 0 ≤ b < FSSIZE → length (L_of s' b) = Z.to_nat BSIZE) → (∀ b, nmeta ≤ b → L_of s' b = L_of s b) →
  image_wf s' D sz ∧ (∀ i k, 1 ≤ i < freeinode s → slot D (L_of s') i k = slot D (L_of s) i k)
  ∧ ∀ i j, 1 ≤ i < freeinode s → 0 ≤ j < MAXFILE * BSIZE → fbyte_of s' D i j = fbyte_of s D i j.
Proof.
  intros Hw Hlen Hfi Hfb Hblk HL. pose proof (iw_slots _ _ _ Hw) as Hsw. assert (HM : MAXFILE = 140) by done.
  assert (ES : ∀ i k, 1 ≤ i < freeinode s → slot D (L_of s') i k = slot D (L_of s) i k).
  { intros i k Hi. unfold slot. destruct (k =? MAXFILE); [done|]. destruct (k <? NDIRECT); [done|].
    destruct (Z.eqb_spec (di_addrs (D i) !!! Z.to_nat NDIRECT) 0); [done|]. rewrite HL; [done|].
    pose proof (sw_range _ _ _ _ _ Hsw i MAXFILE Hi ltac:(lia) ltac:(done)) as Hr. apply Hr. }
  assert (HB : ∀ i j, 1 ≤ i < freeinode s → 0 ≤ j < MAXFILE * BSIZE → fbyte_of s' D i j = fbyte_of s D i j).
  { intros i j Hi Hj. unfold fbyte_of, byte_of. rewrite ES by done. destruct (Z.eqb_spec (slot D (L_of s) i (j / BSIZE)) 0); [done|].
    rewrite HL; [done|]. assert (0 ≤ j / BSIZE < MAXFILE) by (unfold MAXFILE, NDIRECT, NINDIRECT, BSIZE in *; zlia).
    pose proof (sw_range _ _ _ _ _ Hsw i (j / BSIZE) Hi ltac:(lia) ltac:(done)). lia. }
  split; [|done]. split; rewrite ?Hfi, ?Hfb; try apply Hw; try done.
  destruct Hsw as [S1 S2 S3 S4 S5]. split.
  - intros i k Hi Hk. rewrite ES by done. by apply S1.
  - intros i k i' k' Hi Hk Hi' Hk'. rewrite !ES by done. by apply S2.
  - intros i n Hi Hn. rewrite ES by done. by apply S3.
  - intros i j Hi Hj Hs. pose proof (HB i j Hi Hj) as Hb. unfold fbyte_of in Hb. rewrite Hb. by apply S4.
  - intros b Hb. rewrite HL; [by apply S5|]. pose proof (iw_fb _ _ _ Hw). lia.
Qed.

Lemma rinode_ok s D sz i : image_wf s D sz → 1 ≤ i < freeinode s → table s D i → rinode i s = Ok (D i) s.
Proof.
  intros Hw Hi Ht. destruct (IBLOCK_range i) as [Hr _]; [pose proof (iw_fi _ _ _ Hw); lia|]. pose proof nmeta_eq.
  unfold rinode. mstep_with (rsect_ok s (IBLOCK i sb) ltac:(unfold FSSIZE; lia) (iw_len _ _ _ Hw)). by rewrite Ht.
Qed.

Lemma winode_ok s D sz i :
  image_wf s D sz → 1 ≤ i < freeinode s → (∀ j, 1 ≤ j < NINODES → j ≠ i → table s D j) →
  ∃ s', winode i (D i) s = Ok tt s' ∧ image_wf s' D sz ∧ (∀ j, 1 ≤ j < NINODES → table s' D j)
  ∧ freeinode s' = freeinode s ∧ freeblock s' = freeblock s ∧ (∀ b, b ≠ IBLOCK i sb → L_of s' b = L_of s b)
  ∧ ∀ j k, 1 ≤ j < freeinode s → 0 ≤ k < MAXFILE * BSIZE → fbyte_of s' D j k = fbyte_of s D j k.
Proof.
  intros Hw Hi Ht. pose proof (iw_fi _ _ _ Hw) as Hfi. destruct (IBLOCK_range i) as [Hr Ei]; [lia|]. pose proof nmeta_eq as Hnm.
  assert (HF : FSSIZE = 1000) by done. set (b := IBLOCK i sb) in *.
  destruct (wsect_ok s b (put_dinode (L_of s b) (dinode_off i) (D i)) ltac:(lia) (iw_len _ _ _ Hw)) as (s' & E & Hlen & Hfi' & Hfb' & HL).
  assert (Hbl : length (L_of s b) = Z.to_nat BSIZE) by (apply (iw_blk _ _ _ Hw); lia).
  assert (Hoff : 0 ≤ dinode_off i) by (unfold dinode_off, IPB, DINODE_SIZE; zlia).
  assert (HLne : ∀ x, x ≠ b → L_of s' x = L_of s x) by (intros x Hx; rewrite HL; by rewrite decide_False).
  destruct (meta_change s s' D sz Hw Hlen Hfi' Hfb') as (Hw' & _ & HB).
  { intros x Hx. rewrite HL. case_decide; [subst; by rewrite length_put_dinode|by apply (iw_blk _ _ _ Hw)]. }
  { intros x Hx. apply HLne. lia. }
  exists s'. split_and!; [|done| |done|done|done|done].
  - unfold winode. fold b. mstep_with (rsect_ok s b ltac:(lia) (iw_len _ _ _ Hw)). exact E.
  - intros j Hj. unfold table. destruct (IBLOCK_range j) as [_ Ej]; [lia|]. rewrite HL. pose proof (iw_fits _ _ _ Hw i Hi) as Hfit.
    destruct (decide (j = i)) as [->|Hne]; [fold b; rewrite decide_True by done; by apply get_put_dinode|].
    case_decide as Hb; [|by apply (Ht j)]. rewrite get_put_dinode_ne; [rewrite <-Hb; by apply (Ht j)|done|done|].
    unfold IPB. zlia.
Qed.

(** * What has been built: a list of files *)

Abbreviation files := (list (Z * list Z)).

Fixpoint needs (D : Z → dinode) (n : nat) : Z :=
  match n with O => 0 | S n => needs D n + need (D (1 + Z.of_nat n)) end.
Fixpoint weight (fs : files) : Z :=
  match fs with [] => 0 | (_, c) :: fs => ceil (Z.of_nat (length c)) + 1 + weight fs end.

(** Files that the image has room for. *)
Record roomy (fs : files) : Prop := {
  ro_blocks : nmeta + weight fs ≤ FSSIZE;
  ro_inodes : Z.of_nat (length fs) < NINODES;
  ro_size n t c : fs !! n = Some (t, c) → Z.of_nat (length c) ≤ MAXFILE * BSIZE }.

Definition has_file (s : host) (D : Z → dinode) (i t : Z) (c : list Z) : Prop :=
  di_type (D i) = t ∧ di_nlink (D i) = 1 ∧ di_size (D i) = Z.of_nat (length c)
  ∧ ∀ k, 0 ≤ k < Z.of_nat (length c) → fbyte_of s D i k = byte_at c k.

(** The superblock has been written, the blocks of the log are zero. *)
Definition head_block (b : Z) : block := if b =? 1 then splice zero_block 0 sb_bytes else zero_block.

(** An inode that is not in use. *)
Definition no_inode : dinode := mk_dinode 0 0 0 0 0 (replicate 13 0).

Record built (s : host) (D : Z → dinode) (fs : files) : Prop := {
  bu_wf : image_wf s D (λ i, di_size (D i));
  bu_table i : 1 ≤ i < NINODES → table s D i;
  bu_free i : freeinode s ≤ i < NINODES → D i = no_inode;
  bu_count : freeinode s = 1 + Z.of_nat (length fs);
  bu_room : freeblock s + needs D (length fs) ≤ nmeta + weight fs;
  bu_file n t c : fs !! n = Some (t, c) → has_file s D (1 + Z.of_nat n) t c;
  bu_head b : 0 ≤ b < 32 → L_of s b = head_block b }.

Lemma needs_bound D n : 0 ≤ needs D n.
Proof. induction n as [|n IH]; cbn [needs]; [lia|]. unfold need. destruct (_ =? 0); lia. Qed.
Lemma needs_other D D' n : (∀ k, (k < n)%nat → D' (1 + Z.of_nat k) = D (1 + Z.of_nat k)) → needs D' n = needs D n.
Proof. induction n as [|n IH]; intros E; cbn [needs]; [done|]. rewrite IH by (intros; apply E; lia). by rewrite E by lia. Qed.
Lemma needs_one D D' n m : (m < n)%nat → (∀ j, j ≠ 1 + Z.of_nat m → D' j = D j) →
  needs D' n = needs D n + need (D' (1 + Z.of_nat m)) - need (D (1 + Z.of_nat m)).
Proof.
  intros Hm E. induction n as [|n IH]; [lia|]. cbn [needs]. destruct (decide (m = n)) as [->|].
  - rewrite (needs_other D D') by (intros k Hk; apply E; lia). lia.
  - rewrite IH by lia. rewrite (E (1 + Z.of_nat n)) by lia. lia.
Qed.
Lemma weight_insert fs n t c t' c' : fs !! n = Some (t, c) →
  weight (<[n := (t', c')]> fs) = weight fs + ceil (Z.of_nat (length c')) - ceil (Z.of_nat (length c)).
Proof.
  revert n. induction fs as [|[t0 c0] fs IH]; intros n; [done|]. destruct n as [|n].
  - intros [= <- <-]. cbn [insert list_insert weight]. lia.
  - intros E. change (<[S n := (t', c')]> ((t0, c0) :: fs)) with ((t0, c0) :: <[n := (t', c')]> fs). cbn [weight]. rewrite (IH n E). lia.
Qed.
Lemma weight_app fs fs' : weight (fs ++ fs') = weight fs + weight fs'.
Proof. induction fs as [|[t c] fs IH]; cbn; [done|]. rewrite IH. lia. Qed.
Lemma ceil_nonneg n : 0 ≤ n → 0 ≤ ceil n.
Proof. unfold ceil, BSIZE. intros. zlia. Qed.

Lemma needs_ge D n m : (m < n)%nat → need (D (1 + Z.of_nat m)) ≤ needs D n.
Proof.
  intros Hm. assert (Hb : ∀ k, 0 ≤ need (D k)) by (intros k; unfold need; destruct (_ =? 0); lia).
  induction n as [|n IH]; [lia|]. cbn [needs]. destruct (decide (m = n)) as [->|].
  - pose proof (needs_bound D n). lia.
  - pose proof (Hb (1 + Z.of_nat n)). specialize (IH ltac:(lia)). lia.
Qed.

(** The size in the inode, after the bytes. *)
Definition resize (D : Z → dinode) (i m : Z) : Z → dinode := upd_table D i (set_disize (D i) m).
Lemma resize_eq D i m : resize D i m i = set_disize (D i) m.
Proof. unfold resize, upd_table. by rewrite Z.eqb_refl. Qed.
Lemma resize_ne D i m j : j ≠ i → resize D i m j = D j.
Proof. intros Hj. unfold resize, upd_table. by rewrite (proj2 (Z.eqb_neq j i)). Qed.
Lemma resize_slot D i m L j k : slot (resize D i m) L j k = slot D L j k.
Proof.
  assert (E : di_addrs (resize D i m j) = di_addrs (D j)).
  { destruct (decide (j = i)) as [->|]; [by rewrite resize_eq|by rewrite resize_ne]. }
  unfold slot. by rewrite E.
Qed.
Lemma resize_bytes s D i m j k : fbyte_of s (resize D i m) j k = fbyte_of s D j k.
Proof. unfold fbyte_of, byte_of. by rewrite resize_slot. Qed.
Lemma resize_wf s D sz i m : image_wf s D sz → is_uint m → image_wf s (resize D i m) sz.
Proof.
  intros [W1 W2 W3 W4 W5 W6] Hm. split; try done.
  - intros j Hj. destruct (decide (j = i)) as [->|]; [rewrite resize_eq|rewrite resize_ne by done; by apply W5].
    destruct (W5 i Hj) as [F1 F2 F3 F4 F5 F6 F7]. by split.
  - eapply slots_wf_ext; [|exact W6]. intros j k _ _. apply resize_slot.
Qed.

(** [iappend] of a file with contents [c]: the inode, and the bytes of all files. *)
Lemma iappend_inode s D i p :
  image_wf s D (λ i, di_size (D i)) → (∀ j, 1 ≤ j < NINODES → table s D j) → 1 ≤ i < freeinode s →
  let off := di_size (D i) in let m := off + Z.of_nat (length p) in
  m ≤ MAXFILE * BSIZE → freeblock s + (ceil m - ceil off) + need (D i) ≤ FSSIZE →
  ∃ s' D', iappend i p s = Ok tt s' ∧ image_wf s' D' (λ i, di_size (D' i)) ∧ (∀ j, 1 ≤ j < NINODES → table s' D' j)
  ∧ freeinode s' = freeinode s ∧ freeblock s' + need (D' i) ≤ freeblock s + (ceil m - ceil off) + need (D i)
  ∧ (∀ b, 0 ≤ b < 32 → L_of s' b = L_of s b)
  ∧ (∀ j, j ≠ i → D' j = D j) ∧ di_type (D' i) = di_type (D i) ∧ di_nlink (D' i) = di_nlink (D i) ∧ di_size (D' i) = m
  ∧ ∀ j k, 1 ≤ j < freeinode s → 0 ≤ k < MAXFILE * BSIZE → fbyte_of s' D' j k =
      if decide (j = i ∧ off ≤ k < m) then byte_at p (k - off) else fbyte_of s D j k.
Proof.
  intros Hw Ht Hi off m Hmax Hroom. assert (HM : MAXFILE * BSIZE = 71680) by done. pose proof (iw_fi _ _ _ Hw) as Hfi.
  assert (Hoff : 0 ≤ off) by apply (iw_fits _ _ _ Hw i Hi).
  destruct (iappend_loop (S (length p)) s D _ i p Hw Hi Hoff Hmax ltac:(lia) Hroom) as (s1 & D1 & E1 & Hw1 & [Hg Ho Hk Hb] & Hfb1).
  cbn beta in *. fold off m in E1, Hw1, Hfb1, Hb. pose proof (gi_fi _ _ Hg) as Hfi1. set (D2 := resize D1 i m).
  destruct Hk as (K1 & K2 & K3 & K4 & K5).
  assert (Hw2 : image_wf s1 D2 (λ j, di_size (D2 j))).
  { eapply image_wf_ext; [|apply resize_wf; [exact Hw1|unfold is_uint; lia]]. intros j. unfold upd_size.
    destruct (Z.eqb_spec j i) as [->|]; unfold D2; [by rewrite resize_eq|rewrite resize_ne, Ho by done; done]. }
  destruct (winode_ok s1 D2 _ i Hw2 ltac:(lia)) as (s2 & E2 & Hw3 & Ht3 & Hfi2 & Hfb2 & HL2 & Hb2).
  { intros j Hj Hne. unfold table, D2. destruct (IBLOCK_range j) as [Hrj _]; [lia|].
    rewrite (gi_meta _ _ Hg), resize_ne, Ho by (done || lia). apply Ht. lia. }
  exists s2, D2. split.
  - unfold iappend. mstep_with (rinode_ok s D _ i Hw Hi (Ht i ltac:(lia))). fold off. rewrite (xint_small off) by lia.
    mstep_with E1. rewrite (xint_small m) by lia. rewrite <-resize_eq. exact E2.
  - destruct (IBLOCK_range i) as [Hri _]; [lia|]. pose proof nmeta_eq.
    assert (ED2 : D2 i = set_disize (D1 i) m) by apply resize_eq. rewrite ED2, Hfb2, Hfi2.
    split_and!; try done.
    + intros b Hb'. rewrite HL2, (gi_meta _ _ Hg) by lia. done.
    + intros j Hj. unfold D2. rewrite resize_ne by done. by apply Ho.
    + intros j k Hj Hk. rewrite Hb2 by (done || lia). unfold D2. rewrite resize_bytes, Hb by done. done.
Qed.

(** [iappend] appends. *)
Lemma iappend_ok s D fs n t c p :
  built s D fs → fs !! n = Some (t, c) → roomy (<[n := (t, c ++ p)]> fs) →
  ∃ s' D', iappend (1 + Z.of_nat n) p s = Ok tt s' ∧ built s' D' (<[n := (t, c ++ p)]> fs).
Proof.
  intros [Hw Ht Hz Hc Hr Hf Hh] Hn [Rb Ri Rs]. set (i := 1 + Z.of_nat n). pose proof (lookup_lt_Some _ _ _ Hn) as Hlt.
  assert (Hi : 1 ≤ i < freeinode s) by (rewrite Hc; unfold i; lia).
  destruct (Hf n t c Hn) as (Htype & Hnlink & Hsize & Hbytes). fold i in Htype, Hnlink, Hsize, Hbytes.
  assert (Hmax : Z.of_nat (length (c ++ p)) ≤ MAXFILE * BSIZE) by (apply (Rs n t), list_lookup_insert_eq; done).
  rewrite (weight_insert _ _ _ _ _ _ Hn) in Rb. rewrite length_app, Nat2Z.inj_add in *. pose proof (needs_ge D _ _ Hlt) as Hnd. fold i in Hnd.
  destruct (iappend_inode s D i p Hw Ht Hi) as (s' & D' & E & Hw' & Ht' & Hfi' & Hfb' & HL' & Ho & T1 & T2 & T3 & HB); [lia|rewrite Hsize; lia|].
  exists s', D'. rewrite Hsize in *. split; [done|]. split; rewrite ?length_insert, ?Hfi'; try done.
  - intros j Hj. rewrite Ho by lia. by apply Hz.
  - rewrite (weight_insert _ _ _ _ _ _ Hn), length_app, Nat2Z.inj_add, (needs_one D D' (length fs) n Hlt) by done. fold i. lia.
  - intros n' t' c' Hn'. destruct (decide (n' = n)) as [->|Hne].
    + rewrite list_lookup_insert_eq in Hn' by done. injection Hn' as <- <-. fold i. unfold has_file. rewrite T1, T2, T3, length_app.
      split_and!; [done|done|lia|]. intros k Hk. rewrite HB by lia. unfold byte_at. rewrite !list_lookup_total_alt. case_decide as Hd.
      * rewrite lookup_app_r by lia. do 2 f_equal. lia.
      * rewrite lookup_app_l by lia. rewrite Hbytes by lia. unfold byte_at. by rewrite list_lookup_total_alt.
    + rewrite list_lookup_insert_ne in Hn' by done. destruct (Hf n' t' c' Hn') as (G1 & G2 & G3 & G4).
      unfold has_file. rewrite Ho by lia. split_and!; try done. intros k Hk'.
      assert (Z.of_nat (length c') ≤ MAXFILE * BSIZE) by (apply (Rs n' t'); by rewrite list_lookup_insert_ne).
      pose proof (lookup_lt_Some _ _ _ Hn'). rewrite HB, decide_False by lia. by apply G4.
  - intros b Hb. rewrite HL' by done. by apply Hh.
Qed.

(** * [ialloc] *)

(** One more file, with no blocks. *)
Lemma slots_new S S' sz sz' fi fb L :
  slots_wf S sz fi fb L → (∀ i, i ≠ fi → sz' i = sz i) → sz' fi = 0 → (∀ i k, i ≠ fi → S' i k = S i k) → (∀ k, 0 ≤ k ≤ MAXFILE → S' fi k = 0) →
  slots_wf S' sz' (fi + 1) fb L.
Proof.
  intros [H1 H2 H3 H4 H5] Hsz Hsz0 HS HS0. split.
  - intros i k Hi Hk. destruct (decide (i = fi)) as [->|]; [by rewrite HS0|]. rewrite HS by done. apply H1; lia.
  - intros i k i' k' Hi Hk Hi' Hk'. destruct (decide (i = fi)) as [->|]; [by rewrite HS0|]. rewrite (HS i) by done.
    destruct (decide (i' = fi)) as [->|]; [rewrite HS0 by done; lia|]. rewrite HS by done. apply H2; lia.
  - intros i n Hi Hn. destruct (decide (i = fi)) as [->|]; [rewrite Hsz0; unfold BSIZE in *; lia|]. rewrite HS, Hsz by done. apply H3; lia.
  - intros i j Hi Hj. assert (0 ≤ j / BSIZE < MAXFILE) by (unfold MAXFILE, NDIRECT, NINDIRECT, BSIZE in *; zlia).
    unfold byte_of. destruct (decide (i = fi)) as [->|Hne]; [by rewrite HS0 by lia|]. rewrite Hsz, HS by done. apply (H4 i j); [lia|done].
  - done.
Qed.

Definition new_dinode (t : Z) : dinode := mk_dinode t 0 0 1 0 (replicate 13 0).

Lemma slot_new D L i t k : 0 ≤ k ≤ MAXFILE → slot (upd_table D i (new_dinode t)) L i k = 0.
Proof.
  intros Hk. unfold slot, upd_table. rewrite Z.eqb_refl.
  assert (E : ∀ m, 0 ≤ m ≤ NDIRECT → di_addrs (new_dinode t) !!! Z.to_nat m = 0).
  { intros m Hm. cbn [new_dinode di_addrs]. rewrite list_lookup_total_alt, lookup_replicate_2; [done|]. unfold NDIRECT in *. lia. }
  destruct (k =? MAXFILE); [by apply E|]. destruct (Z.ltb_spec k NDIRECT); [apply E; lia|]. by rewrite E.
Qed.

Lemma ialloc_ok s D fs t :
  built s D fs → 0 ≤ t < 32768 → roomy (fs ++ [(t, [])]) →
  ∃ s' D', ialloc t s = Ok (1 + Z.of_nat (length fs)) s' ∧ built s' D' (fs ++ [(t, [])]).
Proof.
  intros [Hw Ht Hz Hc Hr Hf Hh] Hty [Hroom Hcount Hsz]. rewrite length_app in Hcount. cbn [length] in Hcount. set (i := freeinode s) in *. set (s0 := mk_host (img s) (i + 1) (freeblock s)).
  set (D' := upd_table D i (new_dinode t)).
  assert (Ei : D' i = new_dinode t) by (unfold D', upd_table; by rewrite Z.eqb_refl).
  assert (Eo : ∀ j, j ≠ i → D' j = D j) by (intros j Hj; unfold D', upd_table; by rewrite (proj2 (Z.eqb_neq j i))).
  assert (HS : ∀ L j k, j ≠ i → slot D' L j k = slot D L j k) by (intros L j k Hj; unfold slot; by rewrite Eo).
  assert (Hw0 : image_wf s0 D' (λ j, di_size (D' j))).
  { destruct Hw as [W1 W2 W3 W4 W5 W6]. split; cbn [s0 freeinode freeblock img]; try done; [unfold NINODES in *; lia| |].
    - intros j Hj. destruct (decide (j = i)) as [->|]; [|rewrite Eo by done; apply W5; fold i; lia]. rewrite Ei.
      split; cbn; unfold is_short, is_uint; try lia; [done|]. repeat constructor; lia.
    - apply (slots_new (slot D (L_of s)) _ (λ j, di_size (D j))); [done|intros j Hj; by rewrite Eo|by rewrite Ei|intros j k Hj; by apply HS|intros k Hk; by apply slot_new]. }
  assert (Hi0 : 1 ≤ i < freeinode s0) by (cbn; lia).
  destruct (winode_ok s0 D' _ i Hw0 Hi0) as (s' & E & Hw' & Ht' & Hfi & Hfb & HL & HB).
  { intros j Hj Hne. unfold table. rewrite Eo by done. by apply Ht. }
  cbn [s0 freeinode freeblock] in Hfi, Hfb, HB. exists s', D'. split; [|split].
  - unfold ialloc. fold i. assert (u16 t = t) as Eu by (unfold u16; zlia). unfold xshort. rewrite Eu. change (u16 1) with 1. change (xint 0) with 0.
    rewrite Ei in E. mstep_with E. rewrite <-Hc. done.
  - done.
  - done.
  - intros j Hj. rewrite Eo by lia. apply Hz. lia.
  - rewrite length_app. cbn [length]. lia.
  - rewrite length_app, weight_app, Hfb. cbn [length weight]. change (ceil 0) with 0. rewrite Nat.add_1_r. cbn [needs]. rewrite <-Hc, Ei.
    rewrite (needs_other D) by (intros k Hk; apply Eo; lia). change (need (new_dinode t)) with 1. change (ceil (Z.of_nat 0)) with 0. lia.
  - intros n t' c' Hn. destruct (decide (n = length fs)) as [->|Hne].
    + rewrite lookup_app_r, Nat.sub_diag in Hn by lia. injection Hn as <- <-. unfold has_file. rewrite <-Hc, Ei. cbn. split_and!; try done. lia.
    + pose proof (lookup_lt_Some _ _ _ Hn) as Hlt. rewrite length_app in Hlt. cbn [length] in Hlt. rewrite lookup_app_l in Hn by lia.
      destruct (Hf n t' c' Hn) as (G1 & G2 & G3 & G4). unfold has_file. rewrite Eo by lia. split_and!; try done. intros k Hk.
      assert (Z.of_nat (length c') ≤ MAXFILE * BSIZE) by (apply (Hsz n t'); by rewrite lookup_app_l by lia).
      rewrite <-G4 by done. rewrite HB by lia. unfold fbyte_of, byte_of. by rewrite HS by lia.
  - intros b Hb. destruct (IBLOCK_range i) as [Hri _]; [unfold NINODES in *; lia|]. rewrite HL by lia. by apply Hh.
Qed.

(** * The files that [main] makes *)

Definition dots : list Z := dirent_bytes ROOTINO (str ".") ++ dirent_bytes ROOTINO (str "..").
Fixpoint entries (k : Z) (args : list (list Z * list (list Z))) : list Z :=
  match args with [] => [] | (name, _) :: args => dirent_bytes k (strip name) ++ entries (k + 1) args end.
Definition file_list (args : list (list Z * list (list Z))) : files := (λ a, (T_FILE, concat (snd a))) <$> args.
Definition files_of (args : list (list Z * list (list Z))) : files := (T_DIR, dots ++ entries 2 args) :: file_list args.

(** Fewer and shorter files. *)
Inductive part_of : files → files → Prop :=
| part_nil fs : part_of [] fs
| part_cons t t' c c' fs fs' : (length c ≤ length c')%nat → part_of fs fs' → part_of ((t, c) :: fs) ((t', c') :: fs').

Lemma part_refl fs : part_of fs fs.
Proof. induction fs as [|[t c] fs IH]; by constructor. Qed.
Lemma part_insert n t t' c c' fs : (length c ≤ length c')%nat → part_of (<[n := (t, c)]> fs) (<[n := (t', c')]> fs).
Proof.
  intros Hc. revert n. induction fs as [|[t0 c0] fs IH]; intros [|n]; [apply part_refl..| |].
  - constructor; [done|apply part_refl].
  - constructor; [done|apply IH].
Qed.
Lemma part_app fs fs' fs2 : part_of fs fs' → part_of fs (fs' ++ fs2).
Proof. induction 1; by constructor. Qed.
Lemma part_app_l fs fs1 fs2 : part_of fs1 fs2 → part_of (fs ++ fs1) (fs ++ fs2).
Proof. intros Hp. induction fs as [|[t c] fs IH]; [done|]. by constructor. Qed.

Lemma ceil_mono n m : n ≤ m → ceil n ≤ ceil m.
Proof. unfold ceil, BSIZE. intros. zlia. Qed.
Lemma weight_nonneg fs : 0 ≤ weight fs.
Proof. induction fs as [|[t c] fs IH]; cbn [weight]; [done|]. pose proof (ceil_nonneg (Z.of_nat (length c)) ltac:(lia)). lia. Qed.
Lemma part_roomy fs fs' : part_of fs fs' → roomy fs' → roomy fs.
Proof.
  intros Hp [R1 R2 R3]. split.
  - assert (weight fs ≤ weight fs'); [|lia]. clear R1 R2 R3. induction Hp as [|? ? c c' ? ? Hl _ IH]; [apply weight_nonneg|]. cbn [weight].
    pose proof (ceil_mono (Z.of_nat (length c)) (Z.of_nat (length c')) ltac:(lia)). lia.
  - assert (length fs ≤ length fs')%nat; [|lia]. clear R1 R2 R3. induction Hp; cbn; lia.
  - clear R1 R2. revert R3. induction Hp as [|t t' c c' ? ? Hl _ IH]; intros R3 n t0 c0; [done|]. destruct n as [|n].
    + intros [= <- <-]. pose proof (R3 0%nat t' c' eq_refl). lia.
    + intros E. apply (IH (λ n, R3 (S n)) n t0 c0 E).
Qed.

Lemma append_all_ok s D fs n t c ps :
  built s D fs → fs !! n = Some (t, c) → roomy (<[n := (t, c ++ concat ps)]> fs) →
  ∃ s' D', append_all (1 + Z.of_nat n) ps s = Ok tt s' ∧ built s' D' (<[n := (t, c ++ concat ps)]> fs).
Proof.
  revert s D fs c. induction ps as [|p ps IH]; intros s D fs c Hb Hn Hr; cbn [append_all concat] in *.
  - exists s, D. split; [done|]. by rewrite app_nil_r, list_insert_id.
  - assert (Hr1 : roomy (<[n := (t, c ++ p)]> fs)).
    { eapply part_roomy; [|exact Hr]. apply part_insert. rewrite !length_app. lia. }
    destruct (iappend_ok s D fs n t c p Hb Hn Hr1) as (s1 & D1 & E1 & Hb1). pose proof (lookup_lt_Some _ _ _ Hn).
    destruct (IH s1 D1 _ (c ++ p) Hb1) as (s' & D' & E' & Hb').
    + by apply list_lookup_insert_eq.
    + by rewrite list_insert_insert_eq, <-app_assoc.
    + exists s', D'. rewrite list_insert_insert_eq, <-app_assoc in Hb'. split; [by mstep_with E1|done].
Qed.

Lemma add_files_ok args s D r fs :
  built s D ((T_DIR, r) :: fs) → Forall (λ a, 47 ∉ fst a) args →
  let fs' := (T_DIR, r ++ entries (2 + Z.of_nat (length fs)) args) :: fs ++ file_list args in
  roomy fs' → ∃ s' D', add_files ROOTINO args s = Ok tt s' ∧ built s' D' fs'.
Proof.
  intros Hb Hargs. revert s D r fs Hb. induction Hargs as [|[name ps] args Hname Hargs IH]; intros s D r fs Hb fs' Hr; unfold fs' in *; clear fs'.
  - exists s, D. split; [done|]. cbn [entries file_list fmap list_fmap]. by rewrite !app_nil_r.
  - cbn [entries] in *. change (file_list ((name, ps) :: args)) with ((T_FILE, concat ps) :: file_list args) in *.
    set (k := 2 + Z.of_nat (length fs)) in *. set (e := dirent_bytes k (strip name)) in *.
    assert (Hr3 : roomy ((T_DIR, r ++ e) :: fs ++ [(T_FILE, concat ps)])).
    { eapply part_roomy; [|exact Hr]. constructor; [rewrite !length_app; lia|]. apply part_app_l. constructor; [done|constructor]. }
    assert (Hr2 : roomy ((T_DIR, r ++ e) :: fs ++ [(T_FILE, [])])).
    { eapply part_roomy; [|exact Hr3]. constructor; [done|]. apply part_app_l. constructor; [cbn; lia|constructor]. }
    assert (Hr1 : roomy (((T_DIR, r) :: fs) ++ [(T_FILE, [])])).
    { eapply part_roomy; [|exact Hr2]. constructor; [rewrite length_app; lia|apply part_refl]. }
    destruct (ialloc_ok s D _ T_FILE Hb ltac:(done) Hr1) as (s1 & D1 & E1 & Hb1).
    assert (Ek : 1 + Z.of_nat (length ((T_DIR, r) :: fs)) = k) by (cbn [length]; unfold k; lia). rewrite Ek in E1.
    destruct (iappend_ok s1 D1 _ 0 T_DIR r e Hb1 eq_refl Hr2) as (s2 & D2 & E2 & Hb2). change (1 + Z.of_nat 0) with ROOTINO in E2.
    change (built s2 D2 ((T_DIR, r ++ e) :: fs ++ [(T_FILE, [])])) in Hb2.
    assert (Ei : ∀ x : Z * list Z, <[S (length fs) := x]> ((T_DIR, r ++ e) :: fs ++ [(T_FILE, [])]) = (T_DIR, r ++ e) :: fs ++ [x]).
    { intros x. change ((T_DIR, r ++ e) :: <[length fs := x]> (fs ++ [(T_FILE, [])]) = (T_DIR, r ++ e) :: fs ++ [x]). f_equal.
      rewrite insert_app_r_alt, Nat.sub_diag by lia. done. }
    destruct (append_all_ok s2 D2 _ (S (length fs)) T_FILE [] ps Hb2) as (s3 & D3 & E3 & Hb3).
    { change ((fs ++ [(T_FILE, [])]) !! length fs = Some (T_FILE, [])). by rewrite lookup_app_r, Nat.sub_diag by lia. }
    { by rewrite Ei. }
    rewrite Ei in Hb3. replace (1 + Z.of_nat (S (length fs))) with k in E3 by (unfold k; lia).
    destruct (IH s3 D3 (r ++ e) (fs ++ [(T_FILE, concat ps)]) Hb3) as (s' & D' & E' & Hb').
    + rewrite <-!app_assoc, length_app. cbn [length]. replace (2 + Z.of_nat (length fs + 1)) with (k + 1) by (unfold k; lia). exact Hr.
    + exists s', D'. split.
      * cbn [add_files]. unfold assert_. rewrite bool_decide_eq_false_2 by exact Hname. cbn [negb]. rewrite bind_mret. mstep_with E1. mstep_with E2. mstep_with E3. exact E'.
      * rewrite <-!app_assoc, length_app in Hb'. cbn [length] in Hb'. replace (2 + Z.of_nat (length fs + 1)) with (k + 1) in Hb' by (unfold k; lia). exact Hb'.
Qed.

(** * The image without files *)

Definition blank : host := mk_host (<[1%nat := splice zero_block 0 sb_bytes]> (replicate (Z.to_nat FSSIZE) zero_block)) 1 nmeta.

Lemma zero_inode o : 0 ≤ o < 8 → get_dinode zero_block (o * DINODE_SIZE) = no_inode.
Proof.
  intros Ho. assert (o = 0 ∨ o = 1 ∨ o = 2 ∨ o = 3 ∨ o = 4 ∨ o = 5 ∨ o = 6 ∨ o = 7) as Hc by lia.
  by destruct Hc as [->|[->|[->|[->|[->|[->|[->| ->]]]]]]]; vm_compute.
Qed.

Lemma blank_block b : 0 ≤ b < FSSIZE → L_of blank b = if b =? 1 then splice zero_block 0 sb_bytes else zero_block.
Proof.
  intros Hb. assert (HF : FSSIZE = 1000) by done. unfold L_of, blank. cbn [img]. destruct (Z.eqb_spec b 1) as [->|].
  - apply list_lookup_total_insert_eq. rewrite length_replicate. lia.
  - rewrite list_lookup_total_insert_ne by lia. rewrite list_lookup_total_alt, lookup_replicate_2 by lia. done.
Qed.

Lemma blank_built : built blank (λ _, no_inode) [].
Proof.
  pose proof nmeta_eq as Hnm. split; cbn [blank freeinode freeblock length needs weight]; try done.
  - split; cbn [blank freeinode freeblock img]; try (done || lia).
    + intros b Hb. rewrite blank_block by done. by destruct (b =? 1).
    + split; try (intros; lia). intros b Hb. rewrite blank_block by lia. by rewrite (proj2 (Z.eqb_neq b 1)) by lia.
  - intros i Hi. unfold table. destruct (IBLOCK_range i) as [Hr _]; [lia|]. rewrite blank_block, (proj2 (Z.eqb_neq _ 1)) by (unfold FSSIZE; lia).
    unfold dinode_off. apply zero_inode. change IPB with 8. zlia.
  - intros b Hb. apply blank_block. unfold FSSIZE. lia.
Qed.

Lemma zero_sectors n k fi fb :
  for_range (Z.of_nat k) n (λ i, wsect i zero_block) (mk_host (replicate k zero_block) fi fb) = Ok tt (mk_host (replicate (k + n) zero_block) fi fb).
Proof.
  revert k. induction n as [|n IH]; intros k; cbn [for_range]; [by rewrite Nat.add_0_r|].
  assert (E : wsect (Z.of_nat k) zero_block (mk_host (replicate k zero_block) fi fb) = Ok tt (mk_host (replicate (S k) zero_block) fi fb)).
  { unfold wsect. cbn [img freeinode freeblock]. rewrite Nat2Z.id, length_replicate, Nat.ltb_irrefl, Nat.sub_diag, replicate_S_end. done. }
  mstep_with E. replace (Z.of_nat k + 1) with (Z.of_nat (S k)) by lia. rewrite IH. by rewrite Nat.add_succ_comm.
Qed.

Lemma empty_sectors :
  (for_range 0 (Z.to_nat FSSIZE) (λ i, wsect i zero_block);; wsect 1 (splice zero_block 0 sb_bytes)) new_image = Ok tt blank.
Proof.
  pose proof (zero_sectors (Z.to_nat FSSIZE) 0 1 nmeta) as E. cbn [Nat.add] in E.
  change (Z.of_nat 0) with 0 in E. change (mk_host (replicate 0 zero_block) 1 nmeta) with new_image in E. mstep_with E.
  unfold wsect, blank. cbn [img freeinode freeblock]. rewrite length_replicate.
  by rewrite (proj2 (Nat.ltb_lt _ _)) by (unfold FSSIZE; lia).
Qed.

Lemma empty_fs_ok : roomy [(T_DIR, dots)] → ∃ s' D', empty_fs new_image = Ok ROOTINO s' ∧ built s' D' [(T_DIR, dots)].
Proof.
  intros Hr.
  assert (Hr1 : roomy ([] ++ [(T_DIR, [])])).
  { eapply part_roomy; [|exact Hr]. constructor; [cbn; lia|constructor]. }
  destruct (ialloc_ok blank _ [] T_DIR blank_built ltac:(done) Hr1) as (s1 & D1 & E1 & Hb1). change (1 + Z.of_nat (length [])) with ROOTINO in E1.
  assert (Hr2 : roomy (<[0%nat := (T_DIR, [] ++ dirent_bytes ROOTINO (str "."))]> ([] ++ [(T_DIR, [])]))).
  { eapply part_roomy; [|exact Hr]. constructor; [unfold dots; cbn [app]; rewrite length_app; lia|constructor]. }
  destruct (iappend_ok s1 D1 _ 0 T_DIR [] _ Hb1 eq_refl Hr2) as (s2 & D2 & E2 & Hb2).
  destruct (iappend_ok s2 D2 _ 0 T_DIR _ (dirent_bytes ROOTINO (str "..")) Hb2 eq_refl Hr) as (s3 & D3 & E3 & Hb3).
  exists s3, D3. split; [|exact Hb3]. unfold empty_fs. rewrite <-bind_assoc. mstep_with empty_sectors. mstep_with E1.
  unfold assert_. rewrite Z.eqb_refl, bind_mret. change (1 + Z.of_nat 0) with ROOTINO in E2, E3. mstep_with E2. by mstep_with E3.
Qed.

(** * The bitmap *)

Definition bitmap (n : Z) : block := foldl mark zero_block (seqZ 0 n).

Lemma marked_foldl l d b :
  length d = Z.to_nat BSIZE → 0 ≤ b < BPB → Forall (λ i, 0 ≤ i < BPB) l → marked (foldl mark d l) b = bool_decide (b ∈ l) || marked d b.
Proof.
  intros Hd Hb Hl. revert d Hd. induction Hl as [|i l Hi Hl IH]; intros d Hd; cbn [foldl]; [by rewrite bool_decide_eq_false_2 by apply not_elem_of_nil|].
  rewrite IH by (unfold mark, set_byte; by rewrite length_insert). rewrite marked_mark by (done || (unfold BPB, BSIZE in *; zlia)).
  rewrite orb_assoc. f_equal. apply eq_true_iff_eq. rewrite orb_true_iff, !bool_decide_eq_true, elem_of_cons. tauto.
Qed.

Lemma bitmap_marked n b : 0 ≤ n ≤ BPB → 0 ≤ b < BPB → marked (bitmap n) b = (b <? n).
Proof.
  intros Hn Hb. unfold bitmap. rewrite marked_foldl; [|done|done|].
  - assert (marked zero_block b = false) as ->.
    { unfold marked. rewrite byte_zero by apply bit_byte_bound. by rewrite Z.land_0_l. }
    rewrite orb_false_r. apply eq_true_iff_eq. rewrite bool_decide_eq_true, elem_of_seqZ, Z.ltb_lt. lia.
  - apply Forall_forall. intros i Hi%elem_of_seqZ. lia.
Qed.

Lemma length_bitmap n : length (bitmap n) = Z.to_nat BSIZE.
Proof.
  unfold bitmap. assert (∀ l d, length (foldl mark d l) = length d) as ->; [|done].
  intros l. induction l as [|i l IH]; intros d; cbn [foldl]; [done|]. rewrite IH. unfold mark, set_byte. apply length_insert.
Qed.

Lemma foldl_mark l d : Forall (λ i, 0 ≤ i < BPB) l →
  foldl (λ buf i, set_byte buf (i / 8) (u8 (Z.lor (byte_at buf (i / 8)) (Z.shiftl 1 (i mod 8))))) d l = foldl mark d l.
Proof.
  intros Hl. revert d. induction Hl as [|i l Hi Hl IH]; intros d; cbn [foldl]; [done|]. rewrite IH. f_equal.
  unfold mark, bit_byte, bit_mask. by rewrite (Z.mod_small i BPB).
Qed.

Lemma balloc_bitmap used : 0 ≤ used < BPB → balloc used = wsect (sb_bmapstart sb) (bitmap used).
Proof.
  intros Hu. unfold balloc, assert_. change (BSIZE * 8) with BPB. rewrite (proj2 (Z.ltb_lt used BPB)) by lia.
  rewrite foldl_mark; [done|]. apply Forall_forall. intros i Hi%elem_of_seqZ. lia.
Qed.

(** * The finished image *)

(** [main] rounds the size of the root directory up. *)
Definition rounded (n : Z) : Z := (n / BSIZE + 1) * BSIZE.
Definition size_of (n : nat) (c : list Z) : Z := match n with O => rounded (Z.of_nat (length c)) | _ => Z.of_nat (length c) end.

(** What the kernel finds on the blocks [L]: file [i] of type [t] and size [m], with contents [c] and zeros after that; the blocks
    of [c] are there. *)
Record stored (L : Z → block) (i t : Z) (c : list Z) (m : Z) (ip : inode) : Prop := {
  sd_wf : file_wf sb L ip;
  sd_type : i_type ip = t;
  sd_nlink : i_nlink ip = 1;
  sd_size : i_size ip = m;
  sd_alloc : allocated L ip 0 (Z.of_nat (length c));
  sd_bytes k : 0 ≤ k < m → fbyte L ip k = if decide (k < Z.of_nat (length c)) then byte_at c k else 0 }.

(** Block [a] is one of those of the file with inode [i]. *)
Definition owns (L : Z → block) (i a : Z) : Prop :=
  a ≠ 0 ∧ ∃ k, 0 ≤ k ≤ MAXFILE ∧ slot (dinode_of sb L) L i k = a.

Record image_holds (L : Z → block) (fs : files) : Prop := {
  ih_sb : decode_sb (L 1) = sb;
  ih_disk : disk_wf sb L FSSIZE;
  ih_log b : 2 ≤ b < 2 + nlog → L b = zero_block;
  ih_file n t c ip : fs !! n = Some (t, c) → let i := 1 + Z.of_nat n in stored L i t c (size_of n c) (load_di (dinode_of sb L i) ip);
  ih_apart i j a : 1 ≤ i < NINODES → 1 ≤ j < NINODES → owns L i a → owns L j a → i = j;
  ih_owned i a : 1 ≤ i < NINODES → owns L i a → nmeta ≤ a < FSSIZE ∧ used sb L a = true;
  ih_free i : 1 + Z.of_nat (length fs) ≤ i < NINODES → dinode_of sb L i = no_inode;
  ih_unused b : 0 ≤ b < FSSIZE → used sb L b = false → nmeta ≤ b ∧ L b = zero_block }.

Lemma BBLOCK_image b : 0 ≤ b < FSSIZE → BBLOCK b sb = 58.
Proof.
  intros Hb. unfold BBLOCK. change (sb_bmapstart sb) with 58. replace (b / BPB) with 0; [done|]. unfold FSSIZE, BPB, BSIZE in *. zlia.
Qed.

(** A built image whose bitmap has been written. *)
Section finished.
Context (s : host) (D : Z → dinode) (sz : Z → Z) (Hw : image_wf s D sz) (Ht : ∀ i, 1 ≤ i < NINODES → table s D i).
Context (Hbm : L_of s 58 = bitmap (freeblock s)) (Hfree : ∀ i, freeinode s ≤ i < NINODES → D i = no_inode).
Let L := L_of s.

Lemma finished_used b : 0 ≤ b < FSSIZE → used sb L b = (b <? freeblock s).
Proof.
  intros Hb. unfold used. rewrite BBLOCK_image by done. unfold L. rewrite Hbm. pose proof (iw_fb _ _ _ Hw). pose proof nmeta_eq.
  apply bitmap_marked; unfold FSSIZE, BPB, BSIZE in *; lia.
Qed.

Lemma finished_disk : disk_wf sb L FSSIZE.
Proof.
  pose proof (iw_fb _ _ _ Hw) as Hfb. rewrite nmeta_eq in Hfb. change (sb_size sb) with FSSIZE in *. split; change (sb_size sb) with FSSIZE.
  - by unfold FSSIZE.
  - apply (iw_blk _ _ _ Hw).
  - done.
  - intros b Hb. rewrite BBLOCK_image by done. by unfold FSSIZE.
  - intros b Hb. rewrite BBLOCK_image, finished_used by done. apply Z.ltb_lt. lia.
  - rewrite finished_used by done. apply Z.ltb_lt. lia.
Qed.

Lemma finished_data i k : 1 ≤ i < freeinode s → 0 ≤ k ≤ MAXFILE → slot D L i k ≠ 0 → data_block sb L (slot D L i k).
Proof.
  intros Hi Hk Hne. pose proof (sw_range _ _ _ _ _ (iw_slots _ _ _ Hw) i k Hi Hk Hne) as Hr. fold L in Hr. pose proof (iw_fb _ _ _ Hw).
  pose proof nmeta_eq. split_and!; [lia|change (sb_size sb) with FSSIZE; lia|rewrite finished_used by lia; apply Z.ltb_lt; lia|].
  intros y Hy. rewrite BBLOCK_image by done. lia.
Qed.

Lemma finished_slot_free i k : freeinode s ≤ i < NINODES → 0 ≤ k ≤ MAXFILE → slot D L i k = 0.
Proof.
  intros Hi Hk. unfold slot. rewrite Hfree by done.
  assert (E : ∀ m, 0 ≤ m ≤ NDIRECT → di_addrs no_inode !!! Z.to_nat m = 0).
  { intros m Hm. cbn [no_inode di_addrs]. rewrite list_lookup_total_alt, lookup_replicate_2; [done|]. unfold NDIRECT in *. lia. }
  destruct (k =? MAXFILE); [by apply E|]. destruct (Z.ltb_spec k NDIRECT); [apply E; lia|]. by rewrite E.
Qed.

(** The addresses the kernel uses for the file. *)
Lemma blk_addr_slot i ip0 n : 1 ≤ i < NINODES → 0 ≤ n < MAXFILE → blk_addr L (load_di (dinode_of sb L i) ip0) n = slot D L i n.
Proof.
  intros Hi Hn. unfold dinode_of. rewrite (Ht i Hi : get_dinode (L (IBLOCK i sb)) (dinode_off i) = D i).
  unfold slot. by rewrite (proj2 (Z.eqb_neq n MAXFILE)) by lia.
Qed.

Lemma finished_stored i c m ip0 :
  1 ≤ i < freeinode s → di_nlink (D i) = 1 → di_size (D i) = m → sz i = Z.of_nat (length c) → sz i ≤ m ≤ MAXFILE * BSIZE →
  (∀ k, 0 ≤ k < sz i → fbyte_of s D i k = byte_at c k) → stored L i (di_type (D i)) c m (load_di (dinode_of sb L i) ip0).
Proof.
  intros Hi H1 H2 Hsz Hm H3. pose proof (iw_fi _ _ _ Hw) as Hfi. assert (Hi' : 1 ≤ i < NINODES) by lia. set (ip := load_di _ _).
  assert (E : dinode_of sb L i = D i) by apply (Ht i Hi'). assert (HM : MAXFILE = 140) by done. pose proof (iw_slots _ _ _ Hw) as Hs. fold L in Hs.
  assert (HA : ∀ n, 0 ≤ n < MAXFILE → blk_addr L ip n = slot D L i n) by (intros n Hn; by apply blk_addr_slot).
  assert (HI : addr_at ip NDIRECT = slot D L i MAXFILE) by (unfold ip; by rewrite E).
  pose proof (sw_inj _ _ _ _ _ Hs) as Hinj. assert (HB : BSIZE = 512) by done.
  split; [|unfold ip; by rewrite E..| |].
  - split; [unfold ip; rewrite E; apply (fit_addrs _ (iw_fits _ _ _ Hw i Hi))|]. rewrite HI. split.
    + intros n Hn. rewrite HA by done. intros Hne. split; [apply finished_data; [done|lia|done]|].
      intros Eq. destruct (Hinj i n i MAXFILE Hi ltac:(lia) Hi ltac:(lia) Hne Eq) as [_ ->]. lia.
    + intros n k Hn Hk. rewrite !HA by done. intros Hne Eq. by destruct (Hinj i n i k Hi ltac:(lia) Hi ltac:(lia) Hne Eq) as [_ ->].
    + intros Hne. apply finished_data; [done|lia|done].
  - intros j Hj. assert (0 ≤ j / BSIZE < MAXFILE) by (rewrite HB in *; zlia). rewrite HA by done.
    apply (sw_have _ _ _ _ _ Hs); [done|done|]. rewrite HB in *. zlia.
  - intros k Hk. assert (0 ≤ k / BSIZE < MAXFILE) by (rewrite HB in *; zlia).
    transitivity (fbyte_of s D i k); [unfold fbyte, fbyte_of, byte_of; by rewrite HA|].
    case_decide; [apply H3; lia|]. apply (sw_tail _ _ _ _ _ Hs); lia.
Qed.

Lemma finished_holds fs :
  freeinode s = 1 + Z.of_nat (length fs) → L_of s 1 = head_block 1 → (∀ b, 2 ≤ b < 32 → L_of s b = zero_block) →
  (∀ n t c, fs !! n = Some (t, c) → let i := 1 + Z.of_nat n in Z.of_nat (length c) ≤ size_of n c ≤ MAXFILE * BSIZE ∧ di_type (D i) = t ∧
    di_nlink (D i) = 1 ∧ di_size (D i) = size_of n c ∧ sz i = Z.of_nat (length c) ∧ ∀ k, 0 ≤ k < sz i → fbyte_of s D i k = byte_at c k) →
  image_holds L fs.
Proof.
  intros Hfi Hh1 Hlog Hf. pose proof (iw_fi _ _ _ Hw) as Hfi'. assert (Ed : ∀ i, 1 ≤ i < NINODES → dinode_of sb L i = D i) by apply Ht.
  assert (Hown : ∀ i a, 1 ≤ i < NINODES → owns L i a → i < freeinode s ∧ a ≠ 0 ∧ ∃ k, 0 ≤ k ≤ MAXFILE ∧ slot D L i k = a).
  { intros i a Hi (Ha & k & Hk & Es). assert (slot (dinode_of sb L) L i k = slot D L i k) as E by (unfold slot; by rewrite Ed).
    rewrite E in Es. split; [|by eauto]. destruct (decide (i < freeinode s)); [done|]. rewrite finished_slot_free in Es by lia. by subst. }
  split.
  - unfold L. rewrite Hh1. by vm_compute.
  - apply finished_disk.
  - apply Hlog.
  - intros n t c ip0 E i. destruct (Hf n t c E) as (Hm & <- & T2 & T3 & T4 & T5). pose proof (lookup_lt_Some _ _ _ E).
    apply finished_stored; [lia|done|done|done|fold i in T4; lia|done].
  - intros i j a Hi Hj Hoi Hoj. destruct (Hown i a Hi Hoi) as (Hi' & Ha & k & Hk & E1), (Hown j a Hj Hoj) as (Hj' & _ & m & Hm & E2).
    destruct (sw_inj _ _ _ _ _ (iw_slots _ _ _ Hw) i k j m ltac:(lia) Hk ltac:(lia) Hm) as [-> _]; [fold L; congruence|fold L; congruence|done].
  - intros i a Hi Ho. destruct (Hown i a Hi Ho) as (Hi' & Ha & k & Hk & <-).
    pose proof (sw_range _ _ _ _ _ (iw_slots _ _ _ Hw) i k ltac:(lia) Hk Ha). pose proof (iw_fb _ _ _ Hw). fold L in H. split; [lia|].
    apply finished_data; [lia|done|done].
  - intros i Hi. rewrite Ed by lia. apply Hfree. lia.
  - intros b Hb. rewrite finished_used by done. intros Hge%Z.ltb_ge. pose proof (iw_fb _ _ _ Hw). split; [lia|]. apply (sw_zero _ _ _ _ _ (iw_slots _ _ _ Hw)). lia.
Qed.
End finished.

(** ** [main] *)

Lemma length_dirent_bytes k name : length (dirent_bytes k name) = 16%nat.
Proof. unfold dirent_bytes. rewrite length_app, length_take, length_app, length_replicate. unfold DIRSIZ. cbn [le16 length]. lia. Qed.
Lemma length_entries k args : length (entries k args) = (16 * length args)%nat.
Proof.
  revert k. induction args as [|[name ps] args IH]; intros k; cbn [entries]; [done|]. rewrite length_app, length_dirent_bytes, IH. cbn [length]. lia.
Qed.
Lemma length_root args : Z.of_nat (length (dots ++ entries 2 args)) = 16 * (Z.of_nat (length args) + 2).
Proof. rewrite length_app, length_entries. unfold dots. rewrite length_app, !length_dirent_bytes. lia. Qed.
Lemma rounded_bound n : 0 ≤ n → n < rounded n ≤ n + BSIZE.
Proof. unfold rounded, BSIZE. intros. zlia. Qed.
(** [main] after the files: the size of the root directory, and the bitmap. *)
Lemma finish_ok s D c fs :
  built s D ((T_DIR, c) :: fs) → roomy ((T_DIR, c) :: fs) → rounded (Z.of_nat (length c)) ≤ MAXFILE * BSIZE →
  ∃ s', (fix_root ROOTINO;; used ← gets freeblock; balloc used) s = Ok tt s' ∧ length (img s') = Z.to_nat FSSIZE
  ∧ image_holds (L_of s') ((T_DIR, c) :: fs).
Proof.
  intros [Hw Ht Hz Hc Hr Hf Hh] [_ Hn Hsz] Hmax. cbn [length] in *. assert (HM : MAXFILE * BSIZE = 71680) by done.
  destruct (Hf 0%nat T_DIR c eq_refl) as (T1 & T2 & T3 & T4). change (1 + Z.of_nat 0) with ROOTINO in *.
  pose proof (rounded_bound (Z.of_nat (length c)) ltac:(lia)) as Hrd. set (m := rounded (Z.of_nat (length c))) in *. set (D' := resize D ROOTINO m).
  assert (Hi : 1 ≤ ROOTINO < freeinode s) by (unfold ROOTINO; lia).
  assert (Hw1 : image_wf s D' (λ i, di_size (D i))) by (apply resize_wf; [done|unfold is_uint; lia]).
  destruct (winode_ok s D' _ ROOTINO Hw1 Hi) as (s1 & E1 & Hw2 & Ht2 & Hfi2 & Hfb2 & HL2 & HB2).
  { intros j Hj Hne. unfold table, D'. rewrite resize_ne by done. by apply Ht. }
  pose proof (iw_fb _ _ _ Hw) as Hfb. pose proof nmeta_eq as Hnm. assert (HF : FSSIZE = 1000) by done.
  destruct (wsect_ok s1 58 (bitmap (freeblock s1)) ltac:(lia) (iw_len _ _ _ Hw2)) as (s2 & E2 & Hlen3 & Hfi3 & Hfb3 & HL3).
  destruct (meta_change s1 s2 D' _ Hw2 Hlen3 Hfi3 Hfb3) as (Hw3 & _ & HB3).
  { intros b Hb. rewrite HL3. case_decide; [apply length_bitmap|by apply (iw_blk _ _ _ Hw2)]. }
  { intros b Hb. rewrite HL3, decide_False by lia. done. }
  assert (Hlow : ∀ b, 0 ≤ b < 32 → L_of s2 b = head_block b).
  { intros b Hb. destruct (IBLOCK_range ROOTINO) as [Hr1 _]; [by unfold ROOTINO, NINODES|]. rewrite HL3, decide_False, HL2 by lia. by apply Hh. }
  exists s2. split_and!; [|done|].
  - unfold fix_root. rewrite bind_assoc. mstep_with (rinode_ok s D _ ROOTINO Hw Hi (Ht _ ltac:(by unfold ROOTINO, NINODES))).
    rewrite T3, (xint_small (Z.of_nat (length c))) by lia. change ((Z.of_nat (length c) / BSIZE + 1) * BSIZE) with m. rewrite xint_small by lia.
    rewrite <-(resize_eq D ROOTINO m). fold D'. mstep_with E1. rewrite bind_gets, balloc_bitmap by (unfold BPB, BSIZE; lia). exact E2.
  - apply (finished_holds s2 D' (λ i, di_size (D i)) Hw3).
    + intros j Hj. unfold table. destruct (IBLOCK_range j) as [Hrj _]; [lia|]. rewrite HL3, decide_False by lia. by apply Ht2.
    + rewrite HL3, Hfb3. by rewrite decide_True.
    + intros j Hj. unfold D'. rewrite resize_ne; [apply Hz; lia|unfold ROOTINO; lia].
    + rewrite Hfi3, Hfi2, Hc. done.
    + by apply Hlow.
    + intros b Hb. rewrite Hlow by lia. unfold head_block. by rewrite (proj2 (Z.eqb_neq b 1)) by lia.
    + assert (HB : ∀ i k, 1 ≤ i < freeinode s → 0 ≤ k < MAXFILE * BSIZE → fbyte_of s2 D' i k = fbyte_of s D i k).
      { intros i k Hi' Hk. rewrite HB3, HB2 by lia. apply resize_bytes. }
      intros n t c' E i. pose proof (lookup_lt_Some _ _ _ E) as Hlt. cbn [length] in Hlt. destruct (Hf n t c' E) as (G1 & G2 & G3 & G4). fold i in G1, G2, G3, G4.
      pose proof (Hsz n t c' E) as Hl. assert (Hsize : Z.of_nat (length c') ≤ size_of n c' ≤ MAXFILE * BSIZE).
      { destruct n as [|n]; cbn [size_of]; [injection E as <- <-; fold m; lia|lia]. }
      assert (HD : di_type (D' i) = t ∧ di_nlink (D' i) = 1 ∧ di_size (D' i) = size_of n c').
      { unfold D'. destruct n as [|n]; [injection E as <- <-; unfold i; change (1 + Z.of_nat 0) with ROOTINO; by rewrite resize_eq|].
        rewrite resize_ne by (unfold i, ROOTINO; lia). done. }
      destruct HD as (-> & -> & ->). split_and!; try done; [lia|lia|]. intros k Hk. rewrite HB by (unfold i in *; lia). apply G4. lia.
Qed.

Lemma image_main (args : list (list Z * list (list Z))) :
  Forall (λ a, 47 ∉ fst a) args → roomy (files_of args) →
  ∃ s, main args new_image = Ok tt s ∧ length (img s) = Z.to_nat FSSIZE ∧ image_holds (L_of s) (files_of args).
Proof.
  intros Hargs Hr. assert (Hr0 : roomy [(T_DIR, dots)]).
  { eapply part_roomy; [|exact Hr]. constructor; [rewrite length_app; lia|constructor]. }
  destruct (empty_fs_ok Hr0) as (s1 & D1 & E1 & Hb1).
  destruct (add_files_ok args s1 D1 dots [] Hb1 Hargs) as (s2 & D2 & E2 & Hb2); [exact Hr|].
  change (2 + Z.of_nat (length [])) with 2 in Hb2. cbn [app] in Hb2. pose proof (ro_inodes _ Hr) as Hn. cbn [length files_of] in Hn.
  unfold file_list in Hn. rewrite length_fmap in Hn. pose proof (length_root args) as Hl.
  destruct (finish_ok s2 D2 _ _ Hb2 Hr) as (s3 & E3 & Hlen & Hih).
  { pose proof (rounded_bound (Z.of_nat (length (dots ++ entries 2 args))) ltac:(lia)). unfold MAXFILE, NINDIRECT, NDIRECT, BSIZE, NINODES in *. lia. }
  exists s3. split_and!; [|done|done]. unfold main. mstep_with E1. mstep_with E2. exact E3.
Qed.

(** C7: [mkfs] given files that fit builds an image that the kernel can use: [main] returns, the image has
    [FSSIZE] blocks and the superblock that was computed, the disk is well formed, the blocks that the bitmap does not mark are
    zero, and so is the log; inode 1 is the root directory, holding an entry for [.], for
    [..] and for each file, and zeros up to its size, file [n] of the arguments has inode [2 + n] with the bytes that [read] delivered as its contents, these are
    well-formed files for the kernel's [readi] and [writei], their blocks are marked and no two of them share one, and all other inodes are free. *)
Theorem mkfs_correct (args : list (list Z * list (list Z))) :
  Forall (λ a, 47 ∉ fst a) args → roomy (files_of args) →
  ∃ s, main args new_image = Ok tt s ∧ length (img s) = Z.to_nat FSSIZE ∧ image_holds (L_of s) (files_of args).
Proof. apply image_main. Qed.

(** The program [_cat] and the file [README]. *)
Definition demo_args : list (list Z * list (list Z)) := [(str "_cat", [[1; 2; 3]; [4]]); (str "README", [])].
Lemma demo_names : Forall (λ a, 47 ∉ fst a) demo_args.
Proof.
  apply (Forall_forall _ demo_args). intros a Ha. unfold demo_args in Ha. rewrite !elem_of_cons, elem_of_nil in Ha.
  destruct Ha as [->|[->|[]]]; cbn [fst]; apply (bool_decide_eq_true_1 _); vm_compute; reflexivity.
Qed.
Lemma demo_roomy : roomy (files_of demo_args).
Proof. split; [by vm_compute|by vm_compute|]. intros [|[|[|n]]] t c; [intros [= <- <-]..|done]; by vm_compute. Qed.

Lemma mkfs_correct_witness :
  ∃ s, main demo_args new_image = Ok tt s ∧ length (img s) = Z.to_nat FSSIZE ∧ image_holds (L_of s) (files_of demo_args).
Proof. apply (mkfs_correct demo_args); [exact demo_names|exact demo_roomy]. Defined.
