(* ===== verification/Image.v ===== *)
(** The root directory of the first file system, as the kernel reads it: the entries that [mkfs] writes against the
    search of [dirlookup]. *)
From S2P Require Export Mkfs Dir.
Import Host.

(** The names in the root directory; entry [k] is that of inode [k], but for [.], which has inode 1. *)
Definition root_names (args : list (list Z * list (list Z))) : list (list Z) :=
  str "." :: str ".." :: ((λ a, strip (fst a)) <$> args).
Definition root_entry (args : list (list Z * list (list Z))) (k : nat) : list Z :=
  dirent_bytes (Z.max 1 (Z.of_nat k)) (root_names args !!! k).

(** ** The bytes of the directory *)

Lemma byte_concat ls k l j :
  Forall (λ l, length l = 16%nat) ls → ls !! k = Some l → 0 ≤ j < 16 → byte_at (concat ls) (16 * Z.of_nat k + j) = byte_at l j.
Proof.
  intros Hls. revert k. induction Hls as [|l0 ls Hl _ IH]; intros k E Hj; [done|]. destruct k as [|k]; cbn [concat].
  - injection E as ->. unfold byte_at. rewrite !list_lookup_total_alt, lookup_app_l by lia. by rewrite Z.add_0_l.
  - rewrite byte_at_app_r by lia. rewrite <-(IH k E Hj). f_equal. lia.
Qed.

Lemma entries_concat k args : entries k args = concat (imap (λ n a, dirent_bytes (k + Z.of_nat n) (strip (fst a))) args).
Proof.
  revert k. induction args as [|[name ps] args IH]; intros k; cbn [entries imap concat]; [done|].
  rewrite Z.add_0_r. f_equal. rewrite IH. f_equal. apply imap_ext. intros n a _.
  change (dirent_bytes (k + 1 + Z.of_nat n) (strip (fst a)) = dirent_bytes (k + Z.of_nat (S n)) (strip (fst a))). f_equal. lia.
Qed.

Definition root_list (args : list (list Z * list (list Z))) : list (list Z) :=
  dirent_bytes 1 (str ".") :: dirent_bytes 1 (str "..") :: imap (λ n a, dirent_bytes (2 + Z.of_nat n) (strip (fst a))) args.
Lemma root_concat args : dots ++ entries 2 args = concat (root_list args).
Proof. unfold dots, root_list. cbn [concat]. by rewrite (entries_concat 2), <-app_assoc. Qed.
Lemma root_list_16 args : Forall (λ l, length l = 16%nat) (root_list args).
Proof.
  unfold root_list. repeat constructor; try apply length_dirent_bytes. apply Forall_forall. intros l Hl.
  apply list_elem_of_lookup in Hl as [n Hn]. rewrite list_lookup_imap in Hn. destruct (args !! n) as [a|]; [|done].
  cbn in Hn. injection Hn as <-. apply length_dirent_bytes.
Qed.
Lemma root_list_lookup args k : (k < 2 + length args)%nat → root_list args !! k = Some (root_entry args k).
Proof.
  intros Hk. unfold root_list, root_entry, root_names. destruct k as [|[|k]]; [done|done|].
  change ((imap (λ n a, dirent_bytes (2 + Z.of_nat n) (strip (fst a))) args) !! k = Some (dirent_bytes (Z.max 1 (Z.of_nat (S (S k)))) (((λ a, strip (fst a)) <$> args) !!! k))).
  rewrite list_lookup_imap, list_lookup_total_alt, list_lookup_fmap. destruct (lookup_lt_is_Some_2 args k) as [a ->]; [lia|].
  change (Some (dirent_bytes (2 + Z.of_nat k) (strip (fst a))) = Some (dirent_bytes (Z.max 1 (Z.of_nat (S (S k)))) (strip (fst a)))). do 2 f_equal. lia.
Qed.

(** ** Entries and names *)

Lemma dirent_inum k name : 0 ≤ k < 65536 → de_inum (dirent_bytes k name) = k.
Proof. intros Hk. change (u8 (xshort k) + 256 * u8 (xshort k / 256) = k). unfold xshort, u16, u8. zlia. Qed.

Lemma dirent_name k name n :
  Forall (λ c, c ≠ 0) name → namecmp n (de_name (dirent_bytes k name)) = 0 ↔ take DIRSIZ (cstr n) = take DIRSIZ name.
Proof.
  intros Hname. unfold namecmp. rewrite strncmp_spec. change (de_name (dirent_bytes k name)) with (take DIRSIZ (name ++ replicate DIRSIZ 0)).
  assert (take DIRSIZ (cstr (take DIRSIZ (name ++ replicate DIRSIZ 0))) = take DIRSIZ name) as ->; [|done].
  destruct (decide (DIRSIZ ≤ length name)%nat) as [Hl|Hl].
  - rewrite take_app_le by done. rewrite <-(app_nil_r (take DIRSIZ name)) at 1. rewrite cstr_app by (by apply Forall_take).
    cbn [cstr]. by rewrite app_nil_r, take_take, Nat.min_id.
  - rewrite take_app_ge by lia. destruct (DIRSIZ - length name)%nat as [|m] eqn:Em; [lia|].
    rewrite take_replicate. replace (min (S m) DIRSIZ) with (S m) by lia.
    cbn [replicate]. by rewrite cstr_app_zero, take_ge by (done || lia).
Qed.

(** Entry [k] of the stored root directory. *)
Lemma root_dirent L args ip k :
  stored L 1 T_DIR (dots ++ entries 2 args) (rounded (Z.of_nat (length (dots ++ entries 2 args)))) ip → (k < 2 + length args)%nat →
  dirent L ip (Z.of_nat k) = root_entry args k.
Proof.
  intros Hs Hk. pose proof (length_root args) as Hl. pose proof (rounded_bound _ (Nat2Z.is_nonneg (length (dots ++ entries 2 args)))) as Hr.
  apply list_eq_same_length with 16%nat; unfold dirent, DIRENT_SIZE.
  - apply length_dirent_bytes.
  - by rewrite length_fmap, length_seqZ.
  - intros j x y Hj. rewrite list_lookup_fmap, lookup_seqZ_lt by lia. cbn [fmap option_fmap option_map]. intros [= <-] Hy.
    rewrite (sd_bytes _ _ _ _ _ _ Hs), decide_True by lia. rewrite root_concat.
    rewrite (byte_concat _ k _ (Z.of_nat j) (root_list_16 args) (root_list_lookup args k Hk)) by lia.
    unfold byte_at. rewrite list_lookup_total_alt, Nat2Z.id. by rewrite Hy.
Qed.

Lemma strip_nonzero name : Forall (λ c, c ≠ 0) name → Forall (λ c, c ≠ 0) (strip name).
Proof.
  intros Hn. unfold strip. destruct name as [|c name]; [done|]. apply Forall_cons in Hn as Hc. destruct Hc as [_ Hc].
  repeat (case_match; try done).
Qed.
Lemma root_names_nonzero args : Forall (λ a, Forall (λ c, c ≠ 0) (fst a)) args → Forall (Forall (λ c, c ≠ 0)) (root_names args).
Proof.
  intros Hz. unfold root_names. constructor; [by repeat constructor|]. constructor; [by repeat constructor|].
  apply Forall_fmap. eapply Forall_impl; [exact Hz|]. intros a. apply strip_nonzero.
Qed.

(** The search in the root directory for its name number [k]. *)
Lemma root_search L args ip k name :
  stored L 1 T_DIR (dots ++ entries 2 args) (rounded (Z.of_nat (length (dots ++ entries 2 args)))) ip →
  Forall (λ a, Forall (λ c, c ≠ 0) (fst a)) args → NoDup (take DIRSIZ <$> root_names args) → root_names args !! k = Some name →
  Z.of_nat (length args) < 65534 →
  find_entry L ip name 0 (Z.to_nat (i_size ip / DIRENT_SIZE)) = Some (Z.of_nat k).
Proof.
  intros Hs Hz Hnd Hk Hlen. pose proof (length_root args) as Hl. pose proof (rounded_bound _ (Nat2Z.is_nonneg (length (dots ++ entries 2 args)))) as Hr.
  assert (Hln : length (root_names args) = (2 + length args)%nat) by (unfold root_names; cbn [length]; by rewrite length_fmap).
  pose proof (lookup_lt_Some _ _ _ Hk) as Hk'. pose proof (root_names_nonzero args Hz) as Hnz.
  assert (Hm : ∀ j, (j ≤ k)%nat → entry_matches L ip name (Z.of_nat j) = bool_decide (j = k)).
  { intros j Hj. destruct (lookup_lt_is_Some_2 (root_names args) j ltac:(lia)) as [nj Hnj].
    unfold entry_matches. rewrite (root_dirent L args ip j Hs) by lia. unfold root_entry. rewrite (list_lookup_total_correct _ _ _ Hnj).
    rewrite dirent_inum by lia. rewrite (proj2 (Z.eqb_neq _ 0)) by lia. cbn [negb andb]. apply eq_true_iff_eq.
    rewrite Z.eqb_eq, bool_decide_eq_true, dirent_name by exact (Forall_lookup_1 _ _ _ _ Hnz Hnj).
    assert (cstr name = name) as -> by (pose proof (cstr_app name [] (Forall_lookup_1 _ _ _ _ Hnz Hk)) as Ec; by rewrite !app_nil_r in Ec).
    split; [|intros ->; congruence]. intros Eq. symmetry. eapply NoDup_lookup; [exact Hnd|..]; rewrite list_lookup_fmap; [by rewrite Hk|by rewrite Hnj, Eq]. }
  apply find_entry_first.
  - rewrite (sd_size _ _ _ _ _ _ Hs), Z2Nat.id by (unfold DIRENT_SIZE; zlia). unfold DIRENT_SIZE. zlia.
  - rewrite Hm by lia. by apply bool_decide_eq_true.
  - intros j Hj. rewrite <-(Z2Nat.id j), Hm by lia. apply bool_decide_eq_false. lia.
Qed.

(** Sizes of directories. *)
Lemma rounded_16 n : rounded n = 16 * (32 * (n / BSIZE + 1)).
Proof. unfold rounded. change BSIZE with 512. lia. Qed.
Lemma last_block n j : 0 ≤ j < rounded n → n mod BSIZE ≠ 0 → 0 < n → j / BSIZE = Z.min j (n - 1) / BSIZE.
Proof. unfold rounded. change BSIZE with 512. intros Hj Hn Hpos. destruct (Z.min_spec j (n - 1)) as [[_ ->]|[Hle ->]]; [done|]. zlia. Qed.
Lemma mod_512 n k : n = 16 * (k + 2) → (2 + k) mod 32 ≠ 0 → n mod BSIZE ≠ 0.
Proof. change BSIZE with 512. intros -> Hk. rewrite (Z.add_comm k), (Zmult_mod_distr_l (2 + k) 32 16 : 16 * (2 + k) mod 512 = _). lia. Qed.

(** C30: In the image that [mkfs] builds, the root directory leads to the files: the kernel's search for the
    name of a file, as [dirlookup] does it, ends at the entry with the file's number, provided no two names
    (with [.] and [..]) agree in their first [DIRSIZ] characters; and it is a well-formed directory for [dirlookup], unless its entries fill its
    blocks exactly. *)
Theorem mkfs_lookup (args : list (list Z * list (list Z))) (n : nat) (name : list Z) (ps : list (list Z)) (ip0 : inode) :
  Forall (λ a, 47 ∉ fst a) args → roomy (files_of args) →
  Forall (λ a, Forall (λ c, c ≠ 0) (fst a)) args → NoDup (take DIRSIZ <$> root_names args) → args !! n = Some (name, ps) →
  ∃ s, main args new_image = Ok tt s ∧
    let L := L_of s in let root := load_di (dinode_of Host.sb L ROOTINO) ip0 in let size := Z.to_nat (i_size root / DIRENT_SIZE) in
    find_entry L root (strip name) 0 size = Some (2 + Z.of_nat n) ∧ de_inum (dirent L root (2 + Z.of_nat n)) = 2 + Z.of_nat n
    ∧ ((2 + Z.of_nat (length args)) mod 32 ≠ 0 → dir_wf L root size).
Proof.
  intros Hargs Hr Hz Hnd Hn. destruct (image_main args Hargs Hr) as (s & E & _ & Hih). exists s. split; [done|]. intros L root size.
  pose proof (ih_file _ _ Hih 0%nat T_DIR (dots ++ entries 2 args) ip0 eq_refl) as Hs. cbn [size_of] in Hs.
  change (1 + Z.of_nat 0) with ROOTINO in Hs. fold L in Hs. fold root in Hs.
  pose proof (ro_inodes _ Hr) as Hc. cbn [length files_of] in Hc. unfold file_list in Hc. rewrite length_fmap in Hc.
  assert (Hk : root_names args !! S (S n) = Some (strip name)).
  { change (((λ a, strip (fst a)) <$> args) !! n = Some (strip name)). by rewrite list_lookup_fmap, Hn. }
  replace (2 + Z.of_nat n) with (Z.of_nat (S (S n))) by lia. pose proof (lookup_lt_Some _ _ _ Hn).
  pose proof (length_root args) as Hl. pose proof (rounded_bound _ (Nat2Z.is_nonneg (length (dots ++ entries 2 args)))) as Hrd.
  split_and!.
  - apply (root_search L args root _ _ Hs Hz Hnd Hk). unfold NINODES in Hc. lia.
  - rewrite (root_dirent L args root _ Hs) by lia. unfold root_entry. rewrite dirent_inum; unfold NINODES in *; lia.
  - intros H32. pose proof (sd_size _ _ _ _ _ _ Hs) as Es. set (len := Z.of_nat (length (dots ++ entries 2 args))) in *. unfold NINODES in Hc. split.
    + exact (sd_type _ _ _ _ _ _ Hs).
    + unfold size, DIRENT_SIZE. rewrite Es, rounded_16 in *. set (q := 32 * _) in *. rewrite (Z.mul_comm 16 q), Z.div_mul, Z2Nat.id by lia. lia.
    + rewrite Es. change (MAXFILE * BSIZE) with 71680. change BSIZE with 512 in Hrd. lia.
    + rewrite Es. intros j Hj. rewrite (last_block len j) by (lia || exact (mod_512 _ _ Hl H32)). apply (sd_alloc _ _ _ _ _ _ Hs). lia.
Qed.

Lemma mkfs_lookup_witness :
  ∃ s, main demo_args new_image = Ok tt s ∧
    let L := L_of s in let root := load_di (dinode_of Host.sb L ROOTINO) demo_dir in let size := Z.to_nat (i_size root / DIRENT_SIZE) in
    find_entry L root (strip (str "_cat")) 0 size = Some (2 + Z.of_nat 0) ∧ de_inum (dirent L root (2 + Z.of_nat 0)) = 2 + Z.of_nat 0
    ∧ ((2 + Z.of_nat (length demo_args)) mod 32 ≠ 0 → dir_wf L root size).
Proof.
  apply (mkfs_lookup demo_args 0 (str "_cat") [[1; 2; 3]; [4]] demo_dir); [exact demo_names|exact demo_roomy| | |reflexivity].
  - repeat constructor; discriminate.
  - apply (bool_decide_eq_true_1 _). vm_compute. reflexivity.
Defined.

(** With thirty files the entries fill a block exactly; [main] rounds the size of the root directory up to two blocks, the second of
    which has no address. *)
Lemma root_hole :
  match main ((λ c, ([c], [])) <$> seqZ 97 30) new_image with
  | Ok _ s => (di_size (dinode_of Host.sb (L_of s) ROOTINO), take 3 (di_addrs (dinode_of Host.sb (L_of s) ROOTINO))) | _ => (0, []) end = (1024, [59; 0; 0]).
Proof. vm_compute. reflexivity. Qed.
