(* ===== verification/Link.v ===== *)
(** Names of files come and go: [dirlink] of [fs.c] against the block layer. *)
From S2P Require Export Dir.

(** ** [iput] of an inode that stays *)

Section iput.
Context {T : Z → (Z → block) → gmap nat (Z * block) → nat → kstate → Prop} `{!BlockLayer T} (pid : Z).
Implicit Types (L : Z → block).

(** The inode after [iput], when this does not free it. *)
Definition put_inode (ip : inode) : inode := ip <| i_lock := unlocked |> <| i_ref ::= λ r, r - 1 |>.

(** The last part of [iput]. *)
Lemma wp_iput_end s L H k i ip (Q : unit → kstate → Prop) :
  T pid L H k s → icache s !! i = Some ip →
  (∀ s', T pid L H k s' → same_i s s' → icache s' = <[i := put_inode ip]> (icache s) → Q tt s') →
  wp (releasesleep (SInode i);; acquire LIcache;; upd_inode_at i (λ ip, ip <| i_ref ::= λ r, r - 1 |>);; release LIcache) s Q.
Proof.
  intros Ht Hip HQ. destruct (bl_running pid L H k s Ht) as [Hh _].
  set (s1 := wakes (ChSleep (SInode i)) (sl_set (SInode i) unlocked s)). set (ips := <[i := put_inode ip]> (icache s)).
  assert (Ei : alter (λ ip, ip <| i_ref ::= λ r, r - 1 |>) i (icache s1) = ips).
  { change (icache s1) with (alter (λ ip, ip <| i_lock := unlocked |>) i (icache s)). rewrite (alter_lookup _ _ _ _ Hip).
    rewrite (alter_lookup _ _ _ (ip <| i_lock := unlocked |>)); [by rewrite list_insert_insert_eq|].
    apply list_lookup_insert_eq. by eapply lookup_lt_Some. }
  eapply (wp_intro _ _ tt (s1 <| icache := ips |>)).
  - mstep_with (releasesleep_ok s (SInode i) Hh). fold s1. assert (Hh1 : held s1 = []) by exact Hh.
    mstep_with (acquire_ok LIcache s1 ltac:(rewrite Hh1; apply not_elem_of_nil)). unfold upd_inode_at. rewrite bind_modify.
    rewrite (release_ok LIcache _ []); [|by simpl; rewrite Hh|apply not_elem_of_nil]. f_equal. unfold over; cbn. unfold over in Ei; cbn in Ei.
    rewrite Ei. cbn. by rewrite Hh.
  - apply HQ; [|by split|done]. apply T_icache, bl_wakes. eapply bl_state; [exact Ht|done..].
Qed.

Lemma wp_iput_keep s L H k i ip (Q : unit → kstate → Prop) :
  T pid L H k s → icache s !! i = Some ip → sl_locked (i_lock ip) = false → i_valid ip = 0 ∨ i_nlink ip ≠ 0 →
  (∀ s', T pid L H k s' → same_i s s' → icache s' = <[i := put_inode ip]> (icache s) → Q tt s') →
  wp (iput i) s Q.
Proof.
  intros Ht Hip Hl Hkeep HQ. unfold iput. apply wp_bind. eapply wp_acquiresleep_inode; [exact Ht|exact Hip|exact Hl|].
  set (ip1 := ip <| i_lock := mk_sleeplock true pid |>). set (s1 := over icache _ s).
  assert (Hip1 : icache s1 !! i = Some ip1) by (apply list_lookup_insert_eq; by eapply lookup_lt_Some).
  apply wp_bind, (wp_inode_at _ _ _ _ Hip1).
  assert (negb (i_valid ip1 =? 0) && (i_nlink ip1 =? 0) = false) as ->.
  { change (i_valid ip1) with (i_valid ip). change (i_nlink ip1) with (i_nlink ip).
    destruct Hkeep as [->|Hn]; [done|]. by rewrite (proj2 (Z.eqb_neq _ 0) Hn), andb_false_r. }
  apply wp_bind, wp_ret. cbv beta. eapply wp_iput_end; [by apply T_icache|exact Hip1|]. intros s' Ht' Es Ei. apply HQ; [done| |].
  - transitivity s1; [apply same_i_icache|done].
  - rewrite Ei. unfold s1, over. cbn. by rewrite list_insert_insert_eq.
Qed.
End iput.

(** * [dirlink] *)

Definition name_field (name : list Z) : list Z := take DIRSIZ (cstr name) ++ replicate (DIRSIZ - length (cstr name)) 0.
Definition new_entry (inum : Z) (name : list Z) : list Z := le16 inum ++ name_field name.

(** The first free entry among those from [k] on, [n] of them, or the place after them. *)
Fixpoint free_slot L ip (k : Z) (n : nat) : Z :=
  match n with O => k | S n => if de_inum (dirent L ip k) =? 0 then k else free_slot L ip (k + 1) n end.

Lemma free_slot_bound L ip k n : k ≤ free_slot L ip k n ≤ k + Z.of_nat n.
Proof. revert k. induction n as [|n IH]; intros k; cbn [free_slot]; [lia|]. destruct (_ =? 0); [lia|]. specialize (IH (k + 1)). lia. Qed.
Lemma length_dirent L ip k : length (dirent L ip k) = 16%nat.
Proof. unfold dirent. by rewrite length_fmap, length_seqZ. Qed.
Lemma length_name_field name : length (name_field name) = DIRSIZ.
Proof. unfold name_field. rewrite length_app, length_take, length_replicate. lia. Qed.
Lemma new_entry_inum inum name : 0 ≤ inum < 65536 → de_inum (new_entry inum name) = inum.
Proof. intros Hi. change (u8 inum + 256 * u8 (inum / 256) = inum). unfold u8. zlia. Qed.
Lemma strncpy_field de name : length de = 16%nat → strncpy (de_name de) name (Z.of_nat DIRSIZ) = name_field name.
Proof.
  intros Hl. assert (length (de_name de) = DIRSIZ) as Hn by (unfold de_name; rewrite length_drop; unfold DIRSIZ; lia).
  rewrite strncpy_spec by lia. rewrite Nat2Z.id, drop_ge by lia. by rewrite app_nil_r.
Qed.

Section link.
Context {T : Z → (Z → block) → gmap nat (Z * block) → nat → kstate → Prop} `{!BlockLayer T} (pid : Z).
Context `{Devsw}.

(** The search for a place. *)
Definition link_body (dp : nat) : Z * list Z → K ((Z * list Z) + (Z * list Z)) := λ '(off, de),
  ip ← inode_at dp;
  if off <? i_size ip then
    '(r, de) ← readi dp off DIRENT_SIZE;
    if negb (r =? DIRENT_SIZE) then panic "dirlink read" else
    if de_inum de =? 0 then mret (inr (off, de))
    else mret (inl (off + DIRENT_SIZE, de))
  else mret (inr (off, de)).

Lemma wp_link_place s L ip i k n de (Q : Z * list Z → kstate → Prop) :
  bmap_pre (T:=T) pid s L ip i k → dir_wf L ip n → length de = 16%nat →
  (∀ s' de', T pid L ∅ k s' → same s s' → length de' = 16%nat → Q (DIRENT_SIZE * free_slot L ip 0 n, de') s') →
  wp (iterM (S (S (Z.to_nat (i_size ip / DIRENT_SIZE)))) (link_body i) (0, de)) s Q.
Proof.
  intros Hq Hdir Hde HQ. pose proof Hq as [_ Hip Hd _ _ _]. pose proof Hdir as [Hty Hsz Hmax _].
  apply (wp_iterM (λ fuel '(off, de) s', ∃ j m, bmap_pre (T:=T) pid s' L ip i k ∧ same s s' ∧ off = DIRENT_SIZE * j ∧ 0 ≤ j
    ∧ Z.of_nat n = j + Z.of_nat m ∧ (m < fuel)%nat ∧ length de = 16%nat ∧ free_slot L ip 0 n = free_slot L ip j m)).
  - exists 0, n. unfold DIRENT_SIZE in *. split_and!; [done|done|lia|lia|lia| |done|done].
    rewrite Hsz. replace (16 * Z.of_nat n / 16) with (Z.of_nat n) by zlia. lia.
  - intros [off de'] s' (j & m & _ & _ & _ & _ & _ & ? & _). lia.
  - intros fuel [off de'] s' (j & m & Hq' & Es & -> & Hj & Hn & Hm & Hl & Ef).
    assert (icache s' !! i = Some ip) as Hip' by (by rewrite (same_icache _ _ Es)).
    unfold link_body. wps. apply (wp_inode_at _ _ _ _ Hip'). rewrite Hsz. unfold DIRENT_SIZE at 1 2.
    destruct (Z.ltb_spec (16 * j) (16 * Z.of_nat n)) as [Hlt|Hge].
    + destruct m as [|m]; [lia|]. wps. eapply wp_read_dirent; [exact Hq'|exact Hdir|lia|].
      intros s1 Ht1 E1. rewrite Z.eqb_refl. simpl negb. cbv iota. cbn [free_slot] in Ef.
      assert (same s s1) as Es1 by (by transitivity s').
      destruct (Z.eqb_spec (de_inum (dirent L ip j)) 0) as [E0|E0].
      * wps. rewrite <-Ef. apply HQ; [done|done|apply length_dirent].
      * wps. exists (j + 1), m. split_and!; [by eapply bmap_pre_same|done|unfold DIRENT_SIZE; lia|lia..|apply length_dirent|exact Ef].
    + destruct m as [|m]; [|lia]. wps. cbn [free_slot] in Ef. rewrite <-Ef. apply HQ; [by apply (bq_tx _ _ _ _ _ _ Hq')|done|done].
Qed.

Lemma chunks_dirent j : 0 ≤ j → chunks (DIRENT_SIZE * j) DIRENT_SIZE = 1.
Proof. intros Hj. unfold chunks, DIRENT_SIZE, BSIZE. change (16 =? 0) with false. cbv iota. zlia. Qed.

Lemma wp_dirlink_new s L ip i k n name inum (Q : Z → kstate → Prop) :
  let j := free_slot L ip 0 n in
  bmap_pre (T:=T) pid s L ip i (7 + k) → dir_wf L ip n → find_entry L ip name 0 n = None → has_free (sb s) L 2 →
  DIRENT_SIZE * (j + 1) ≤ MAXFILE * BSIZE → unowned (sb s) L ip (IBLOCK (i_inum ip) (sb s)) → shorts_fit ip →
  (∀ L' ip' s', written (sb s) L L' ip ip' (new_entry inum name) (DIRENT_SIZE * j) DIRENT_SIZE (disksize (hdisk s)) →
     T pid L' ∅ k s' → icache s' = <[i := ip']> (icache s) → same_i s s' → Q 0 s') →
  wp (dirlink i name inum) s Q.
Proof.
  intros j Hq Hdir Hnone Hfree Hmax Hun Hsh HQ. unfold dirlink. apply wp_bind. eapply wp_dirlookup; [exact Hq|exact Hdir|]. rewrite Hnone.
  intros s1 Ht1 E1. assert (Hq1 : bmap_pre (T:=T) pid s1 L ip i (7 + k)) by (by eapply bmap_pre_same).
  apply wp_bind, (wp_inode_at _ _ _ _ (bq_icache _ _ _ _ _ _ Hq1)). apply wp_bind.
  eapply (wp_link_place s1 L ip i _ n); [exact Hq1|exact Hdir|done|]. intros s2 de Ht2 E2 Hde. fold j. cbv beta iota zeta.
  rewrite strncpy_field by done. fold (new_entry inum name). apply wp_bind.
  assert (Ess : same s s2) by (by transitivity s1). pose proof (free_slot_bound L ip 0 n) as Hb. fold j in Hb. pose proof Hdir as [Hty Hsz Hmx _].
  assert (Ec : Z.to_nat (chunks (DIRENT_SIZE * j) DIRENT_SIZE) = 1%nat) by (by rewrite chunks_dirent by lia).
  eapply (wp_writei_written pid s2 L ip i k (new_entry inum name) (DIRENT_SIZE * j) DIRENT_SIZE); rewrite ?Ec, ?(same_sb _ _ Ess), ?(same_disksize _ _ Ess).
  - by eapply bmap_pre_same.
  - done.
  - by rewrite Hty.
  - unfold DIRENT_SIZE in *. lia.
  - done.
  - unfold new_entry. rewrite length_app, length_name_field. done.
  - unfold DIRENT_SIZE in *. lia.
  - done.
  - done.
  - intros L' ip' s' Hwn Ht' Ei Es. rewrite Z.eqb_refl. apply wp_ret. apply (HQ L' ip' s' Hwn Ht').
    + by rewrite Ei, (same_icache _ _ Ess).
    + transitivity s2; [by apply same_same_i|done].
Qed.
End link.

(** ** The directory with the new entry *)

Section linked.
Context (S : superblock) (L L' : Z → block) (ip ip' : inode) (n : nat) (inum : Z) (name : list Z) (dsz : Z).
Let j := free_slot L ip 0 n.
Let n' := Nat.max n (Datatypes.S (Z.to_nat j)).
Context (Hdir : dir_wf L ip n) (Hwn : written S L L' ip ip' (new_entry inum name) (DIRENT_SIZE * j) DIRENT_SIZE dsz).
Context (Hmax : DIRENT_SIZE * (j + 1) ≤ MAXFILE * BSIZE).

Lemma link_slot : 0 ≤ j ≤ Z.of_nat n.
Proof. pose proof (free_slot_bound L ip 0 n). unfold j. lia. Qed.

Lemma linked_dir : dir_wf L' ip' n'.
Proof.
  pose proof link_slot as Hj. pose proof Hdir as [Hty Hsz Hmx Hall].
  assert (Es : i_size ip' = DIRENT_SIZE * Z.of_nat n').
  { rewrite (wn_inode _ _ _ _ _ _ _ _ _ Hwn). change (Z.max (i_size ip) (DIRENT_SIZE * j + DIRENT_SIZE) = DIRENT_SIZE * Z.of_nat n').
    rewrite Hsz. unfold n', DIRENT_SIZE. lia. }
  split; [|done|rewrite Es; unfold n', DIRENT_SIZE in *; lia|].
  - rewrite (wn_inode _ _ _ _ _ _ _ _ _ Hwn). exact Hty.
  - rewrite Es. intros x Hx. unfold DIRENT_SIZE in *. destruct (decide (16 * j ≤ x < 16 * j + 16)) as [Hin|Hout]; [by apply (wn_alloc _ _ _ _ _ _ _ _ _ Hwn)|].
    apply (wn_keep _ _ _ _ _ _ _ _ _ Hwn); [change (MAXFILE * BSIZE) with 71680 in *; unfold n', MAXFILE, NDIRECT, NINDIRECT, BSIZE in *; zlia|].
    apply Hall. unfold n' in *. lia.
Qed.

Lemma linked_bytes k x : 0 ≤ k → DIRENT_SIZE * (k + 1) ≤ MAXFILE * BSIZE → 0 ≤ x < DIRENT_SIZE →
  fbyte L' ip' (DIRENT_SIZE * k + x) = if decide (k = j) then new_entry inum name !!! Z.to_nat x else fbyte L ip (DIRENT_SIZE * k + x).
Proof.
  intros Hk Hkm Hx. rewrite (wn_byte _ _ _ _ _ _ _ _ _ Hwn) by (unfold DIRENT_SIZE in *; lia). unfold overwrite, DIRENT_SIZE in *.
  case_decide as E.
  - subst. rewrite (proj2 (Z.leb_le _ _)), (proj2 (Z.ltb_lt _ _)) by lia. cbn [andb]. do 2 f_equal. lia.
  - assert ((16 * j <=? 16 * k + x) && (16 * k + x <? 16 * j + 16) = false) as ->; [|done].
    apply andb_false_iff. rewrite Z.leb_gt, Z.ltb_ge. lia.
Qed.

Lemma linked_dirent k : 0 ≤ k → DIRENT_SIZE * (k + 1) ≤ MAXFILE * BSIZE →
  dirent L' ip' k = if decide (k = j) then new_entry inum name else dirent L ip k.
Proof.
  intros Hk Hkm. assert (Hn16 : length (new_entry inum name) = 16%nat) by (unfold new_entry; rewrite length_app, length_name_field; done).
  apply list_eq_same_length with 16%nat; [by case_decide; [|apply length_dirent]|apply length_dirent|].
  intros x a b Hx. unfold dirent at 1. rewrite list_lookup_fmap, lookup_seqZ_lt by (unfold DIRENT_SIZE; lia).
  cbn [fmap option_fmap option_map]. intros [= <-]. rewrite linked_bytes by (done || (unfold DIRENT_SIZE; lia)). case_decide.
  - rewrite Nat2Z.id. intros E. by apply list_lookup_total_correct.
  - unfold dirent. rewrite list_lookup_fmap, lookup_seqZ_lt by (unfold DIRENT_SIZE; lia). by intros [= <-].
Qed.

(** The new entry is the one that is found. *)
Lemma linked_found : 0 < inum < 65536 → find_entry L ip name 0 n = None → find_entry L' ip' name 0 n' = Some j.
Proof.
  intros Hin Hnone. pose proof link_slot as Hj. pose proof (find_entry_none L ip name 0 n Hnone) as Hno.
  assert (Hnm : n' = Nat.max n (Datatypes.S (Z.to_nat j))) by done. apply find_entry_first; [lia| |].
  - unfold entry_matches. rewrite linked_dirent, decide_True by (done || lia).
    rewrite new_entry_inum by lia. rewrite (proj2 (Z.eqb_neq inum 0)) by lia. apply Z.eqb_eq. unfold namecmp. apply strncmp_spec.
    change (de_name (new_entry inum name)) with (name_field name). unfold name_field.
    symmetry. pose proof (take_cstr_pad (take DIRSIZ (cstr name)) (DIRSIZ - length (cstr name)) []) as Hp.
    rewrite app_nil_r, length_take in Hp. replace (Nat.min DIRSIZ (length (cstr name)) + (DIRSIZ - length (cstr name)))%nat with DIRSIZ in Hp by lia.
    apply Hp. apply Forall_take, cstr_nonzero.
  - intros m Hm. unfold entry_matches. pose proof Hdir as [_ Hsz Hmx _]. rewrite linked_dirent, decide_False by (unfold DIRENT_SIZE in *; lia).
    apply (Hno m). lia.
Qed.
End linked.

(** * Properties *)

(** C32: [dirlink] adds a name to a directory: when the name is not there it writes the entry to the first free place, or to a new
    one at the end, the directory is well formed with all its other entries as they were, and the name is found from now on, at that place
    and with that inode number; when the name is there it returns -1, the disk is unchanged and the reference that the search took is given
    back. *)
Theorem dirlink_correct `{Devsw} (pid : Z) (s : kstate) (L : Z → block) (ip : inode) (i k n : nat) (name : list Z) (inum : Z) :
  bmap_pre (T:=tx) pid s L ip i (7 + k) → dir_wf L ip n → icache_wf (icache s) →
  match find_entry L ip name 0 n with
  | Some j => ∀ i' ips x, iget_result 1 (de_inum (dirent L ip j)) (icache s) = Some (i', ips) → ips !! i' = Some x →
      sl_locked (i_lock x) = false → i_valid x = 0 ∨ i_nlink x ≠ 0 →
      ∃ s', dirlink i name inum s = Ok (-1) s' ∧ tx pid L ∅ (7 + k) s' ∧ icache s' = <[i' := put_inode x]> ips
  | None =>
      let j := free_slot L ip 0 n in let n' := Nat.max n (S (Z.to_nat j)) in
      has_free (sb s) L 2 → DIRENT_SIZE * (j + 1) ≤ MAXFILE * BSIZE → unowned (sb s) L ip (IBLOCK (i_inum ip) (sb s)) → shorts_fit ip →
      0 < inum < 65536 →
      ∃ s' L' ip', dirlink i name inum s = Ok 0 s' ∧ tx pid L' ∅ k s' ∧ icache s' = <[i := ip']> (icache s)
        ∧ disk_wf (sb s) L' (disksize (hdisk s)) ∧ file_wf (sb s) L' ip' ∧ dir_wf L' ip' n'
        ∧ find_entry L' ip' name 0 n' = Some j ∧ de_inum (dirent L' ip' j) = inum
        ∧ (∀ m, 0 ≤ m < Z.of_nat n → m ≠ j → dirent L' ip' m = dirent L ip m)
        ∧ (∀ b, unowned (sb s) L ip b → b ≠ IBLOCK (i_inum ip) (sb s) → L' b = L b)
  end.
Proof.
  intros Hq Hdir Hic. destruct (find_entry L ip name 0 n) as [j|] eqn:Ef.
  - intros i' ips x Hg Hx Hl Hkeep.
    assert (wp (dirlink i name inum) s (λ r s', r = -1 ∧ tx pid L ∅ (7 + k) s' ∧ icache s' = <[i' := put_inode x]> ips)) as Hwp.
    { unfold dirlink. apply wp_bind. eapply wp_dirlookup; [exact Hq|exact Hdir|]. rewrite Ef. intros s' Ht' Es.
      destruct (bl_running pid L ∅ _ s' Ht') as [Hh _]. eapply wp_intro; [rewrite iget_ok|].
      - by rewrite (same_icache _ _ Es), Hg.
      - rewrite Hh. apply not_elem_of_nil.
      - rewrite (same_icache _ _ Es). apply Hic.
      - cbv beta iota. apply wp_bind. eapply wp_iput_keep; [by apply T_icache|exact Hx|done|done|]. intros s2 Ht2 _ Ei. by apply wp_ret. }
    apply wp_elim in Hwp as (r & s' & E & -> & ? & ?). by exists s'.
  - intros j n' Hfree Hmax Hun Hsh Hin.
    assert (wp (dirlink i name inum) s (λ r s', r = 0 ∧ ∃ L' ip',
      written (sb s) L L' ip ip' (new_entry inum name) (DIRENT_SIZE * j) DIRENT_SIZE (disksize (hdisk s)) ∧ tx pid L' ∅ k s' ∧ icache s' = <[i := ip']> (icache s))) as Hwp.
    { eapply wp_dirlink_new; try done. intros L' ip' s' Hwn Ht' Ei _. split; [done|]. by exists L', ip'. }
    apply wp_elim in Hwp as (r & s' & E & -> & L' & ip' & Hwn & Ht' & Ei). exists s', L', ip'.
    pose proof (free_slot_bound L ip 0 n) as Hj. fold j in Hj.
    split_and!; try done; try exact (wn_disk _ _ _ _ _ _ _ _ _ Hwn); try exact (wn_file _ _ _ _ _ _ _ _ _ Hwn).
    + by apply (linked_dir (sb s) L L' ip ip' n inum name _ Hdir Hwn Hmax).
    + by apply (linked_found (sb s) L L' ip ip' n inum name _ Hdir Hwn Hmax).
    + rewrite (linked_dirent (sb s) L L' ip ip' n inum name _ Hwn), decide_True by (done || lia).
      apply new_entry_inum. lia.
    + intros m Hm Hne. pose proof Hdir as [_ Hsz Hmx _]. rewrite (linked_dirent (sb s) L L' ip ip' n inum name _ Hwn) by (unfold DIRENT_SIZE in *; lia).
      by rewrite decide_False.
    + intros b Hb Hne. by apply (wn_other _ _ _ _ _ _ _ _ _ Hwn).
Qed.

(** Linking the name [c] to inode 9. *)
Lemma dirlink_correct_witness :
  ∃ s' L' ip', dirlink (H := no_devices) 0 [99] 9 (demo_fs file_disk demo_dir) = Ok 0 s' ∧ tx 1 L' ∅ 13 s'
    ∧ icache s' = <[0%nat := ip']> (demo_slots demo_dir)
    ∧ disk_wf file_sb L' 80 ∧ file_wf file_sb L' ip' ∧ dir_wf L' ip' 3
    ∧ find_entry L' ip' [99] 0 3 = Some 2 ∧ de_inum (dirent L' ip' 2) = 9
    ∧ (∀ m, 0 ≤ m < 2 → m ≠ 2 → dirent L' ip' m = dirent (disk_read file_disk) demo_dir m)
    ∧ (∀ b, unowned file_sb (disk_read file_disk) demo_dir b → b ≠ 32 → L' b = disk_read file_disk b).
Proof.
  assert (find_entry (disk_read file_disk) demo_dir [99] 0 2 = None) as Ef by (vm_compute; reflexivity).
  assert (free_slot (disk_read file_disk) demo_dir 0 2 = 2) as Ej by (vm_compute; reflexivity).
  pose proof (@dirlink_correct no_devices 1 (demo_fs file_disk demo_dir) (disk_read file_disk) demo_dir 0 13 2 [99] 9) as Hd.
  rewrite Ef, Ej in Hd. apply Hd; clear Hd.
  - by apply file_pre.
  - split; [done|done|by vm_compute|by apply file_allocated].
  - split; [done|apply Forall_cons; split; [done|by apply Forall_replicate]|].
    intros i j x y Hi Hj Hx Hy _ _.
    assert (∀ i x, demo_slots demo_dir !! i = Some x → 0 < i_ref x → i = 0%nat) as Hz.
    { intros [|m] z Hz Hr; [done|]. simpl in Hz. apply (lookup_replicate 49) in Hz as [-> _]. done. }
    by rewrite (Hz i x Hi Hx), (Hz j y Hj Hy).
  - exists [61; 62]. split; [|split; [done|]].
    + apply NoDup_cons. split; [|apply NoDup_singleton]. by rewrite list_elem_of_singleton.
    + intros x Hx. rewrite !elem_of_cons, elem_of_nil in Hx.
      destruct Hx as [->|[->|[]]]; (split; [by split|by vm_compute]).
  - by vm_compute.
  - by apply file_unowned.
  - by repeat split.
  - done.
Defined.
