(* ===== verification/Trunc.v ===== *)
(** Files end: [itrunc] and [iput] of [fs.c] against the block layer.  The blocks of the file are free again, nothing else is
    touched. *)
From S2P Require Export Link.

(** * Freeing blocks *)

(** From [L] to [L'] the blocks [F] have been freed. *)
Record frees (S : superblock) (L L' : Z → block) (F : list Z) : Prop := {
  fr_used x : 0 ≤ x < sb_size S → used S L' x = negb (bool_decide (x ∈ F)) && used S L x;
  fr_other b : no_bitmap S b → L' b = L b;
  fr_length b : length (L' b) = length (L b) }.

Lemma frees_nil S L : frees S L L [].
Proof. split; [|done|done]. intros x Hx. by rewrite bool_decide_eq_false_2 by apply not_elem_of_nil. Qed.
Lemma frees_step S L L' F b n :
  disk_wf S L n → frees S L L' F → 0 ≤ b < sb_size S →
  frees S L (upd L' (BBLOCK b S) (unmark (L' (BBLOCK b S)) b)) (b :: F).
Proof.
  intros Hw [F1 F2 F3] Hb. pose proof (dw_width _ _ _ Hw) as [Hw1 Hw2]. split.
  - intros x Hx. rewrite used_unmark by (done || (intros y Hy; rewrite F3; apply (dw_length _ _ _ Hw), (dw_bitmap _ _ _ Hw); done)).
    rewrite F1, andb_assoc by done. f_equal. rewrite <-negb_orb. f_equal.
    apply eq_true_iff_eq. rewrite orb_true_iff, !bool_decide_eq_true, elem_of_cons. done.
  - intros c Hc. rewrite upd_ne; [by apply F2|]. intros ->. by apply (Hc b).
  - intros c. unfold upd. case_decide as Hc; [|done]. subst. by rewrite length_unmark.
Qed.

Lemma frees_disk S L L' F n : disk_wf S L n → frees S L L' F → Forall (data_block S L) F → disk_wf S L' n.
Proof.
  intros [D1 D2 D3 D4 D5 D6] [F1 F2 F3] HF. rewrite Forall_forall in HF. split; [done|intros b Hb; by rewrite F3, D2|done|done| |].
  - intros b Hb. rewrite F1, D5 by auto. rewrite bool_decide_eq_false_2; [done|]. intros Hin. by destruct (HF _ Hin) as (_ & _ & Hn); apply (Hn b).
  - rewrite F1, D6 by lia. rewrite bool_decide_eq_false_2; [done|]. intros Hin. destruct (HF _ Hin) as (H0 & _). lia.
Qed.

(** The part of the file that [itrunc] has gone through: the addresses [f 0], ..., [f (m - 1)] that are not 0. *)
Definition addrs_below (f : Z → Z) (m : nat) : list Z := filter (λ a, a ≠ 0) (f <$> seqZ 0 (Z.of_nat m)).
Lemma addrs_below_S f m : addrs_below f (S m) = addrs_below f m ++ (if f (Z.of_nat m) =? 0 then [] else [f (Z.of_nat m)]).
Proof.
  unfold addrs_below. replace (Z.of_nat (S m)) with (Z.of_nat m + 1) by lia. rewrite seqZ_app, fmap_app, filter_app by lia. f_equal.
  change (seqZ (0 + Z.of_nat m) 1) with [Z.of_nat m]. cbn [fmap list_fmap].
  destruct (Z.eqb_spec (f (Z.of_nat m)) 0) as [E|E]; [by rewrite filter_cons_False, filter_nil by (by intros Hn)|by rewrite filter_cons_True, filter_nil].
Qed.
Lemma elem_of_addrs_below f m x : x ∈ addrs_below f m ↔ x ≠ 0 ∧ ∃ k, 0 ≤ k < Z.of_nat m ∧ f k = x.
Proof.
  unfold addrs_below. rewrite list_elem_of_filter, list_elem_of_fmap. split.
  - intros [Hx (k & -> & Hk%elem_of_seqZ)]. split; [done|]. exists k. split; [lia|done].
  - intros [Hx (k & Hk & <-)]. split; [done|]. exists k. split; [done|]. apply elem_of_seqZ. lia.
Qed.
Lemma frees_equiv S L L' F F' : (∀ x, x ∈ F ↔ x ∈ F') → frees S L L' F → frees S L L' F'.
Proof.
  intros E [F1 F2 F3]. split; [|done|done]. intros x Hx. rewrite F1 by done. do 2 f_equal. by apply bool_decide_ext.
Qed.

(** ** The inode *)

(** The inode when its first [m] addresses have been cleared. *)
Definition cut (ip : inode) (m : nat) : inode := ip <| i_addrs := replicate m 0 ++ drop m (i_addrs ip) |>.
Definition emptied (ip : inode) : inode := ip <| i_addrs := replicate 13 0 |> <| i_size := 0 |>.

Lemma cut_0 ip : cut ip 0 = ip.
Proof. by destruct ip. Qed.
Lemma cut_addr ip m : addr_at (cut ip m) (Z.of_nat m) = addr_at ip (Z.of_nat m).
Proof.
  unfold addr_at, cut, over. cbn. rewrite !Nat2Z.id, !list_lookup_total_alt. rewrite lookup_app_r by (by rewrite length_replicate).
  rewrite length_replicate, Nat.sub_diag, lookup_drop. by rewrite Nat.add_0_r.
Qed.
Lemma cut_S_list (l : list Z) m a : l !! m = Some a → <[m := 0]> (replicate m 0 ++ drop m l) = replicate (S m) 0 ++ drop (S m) l.
Proof.
  intros E. rewrite (drop_S _ _ _ E). rewrite insert_app_r_alt by (by rewrite length_replicate). rewrite length_replicate, Nat.sub_diag.
  cbn [insert list_insert]. by rewrite replicate_S_end, <-app_assoc.
Qed.
Lemma cut_S ip m a : i_addrs ip !! m = Some a → (cut ip m) <| i_addrs ::= <[m := 0]> |> = cut ip (S m).
Proof. intros E. unfold cut, over. cbn. by rewrite (cut_S_list _ _ _ E). Qed.
Lemma cut_S_zero ip m : i_addrs ip !! m = Some 0 → cut ip (S m) = cut ip m.
Proof.
  intros E. rewrite <-(cut_S _ _ _ E). unfold cut, over. cbn. f_equal. rewrite list_insert_id; [done|].
  rewrite lookup_app_r by (by rewrite length_replicate). by rewrite length_replicate, Nat.sub_diag, lookup_drop, Nat.add_0_r.
Qed.

(** From [L] to [L'] the blocks [F] have been freed, and the slot of inode [inum] may have changed. *)
Record given_up (S : superblock) (L L' : Z → block) (F : list Z) (inum n : Z) : Prop := {
  gu_disk : disk_wf S L' n;
  gu_used x : 0 ≤ x < sb_size S → used S L' x = negb (bool_decide (x ∈ F)) && used S L x;
  gu_other b : no_bitmap S b → b ≠ IBLOCK inum S → L' b = L b;
  gu_inode m : inum_ok S m → m ≠ inum → no_bitmap S (IBLOCK m S) → dinode_of S L' m = dinode_of S L m }.

Lemma frees_given_up S L L' F inum n :
  disk_wf S L n → frees S L L' F → Forall (data_block S L) F → given_up S L L' F inum n.
Proof.
  intros Hw Hfr HF. split; [by eapply frees_disk|apply Hfr|intros b Hb _; by apply Hfr|].
  intros m _ _ Hm. unfold dinode_of. by rewrite (fr_other _ _ _ _ Hfr).
Qed.
Lemma given_up_put S L L' F inum n di :
  let ib := IBLOCK inum S in let L2 := upd L' ib (put_dinode (L' ib) (dinode_off inum) di) in
  given_up S L L' F inum n → data_block S L ib → inum_ok S inum → 0 ≤ sb_inodestart S → dinode_fits di →
  given_up S L L2 F inum n ∧ dinode_of S L2 inum = di.
Proof.
  intros ib L2 [G1 G2 G3 G4] (Hr & _ & Hnb) Hin Hst Hfit.
  assert (Hlen : length (L' ib) = Z.to_nat BSIZE) by (apply (dw_length _ _ _ G1); lia).
  destruct (dinode_off_bound inum) as [Ho _]. split; [split|].
  - apply upd_disk_wf; [done|done|]. by rewrite length_put_dinode.
  - intros x Hx. unfold L2. rewrite used_upd_other by done. auto.
  - intros b Hb Hne. unfold L2. rewrite upd_ne by done. auto.
  - intros m Hm Hne Hb. unfold L2, ib. rewrite dinode_upd by done. auto.
  - unfold dinode_of, L2. rewrite upd_eq. by apply get_put_dinode.
Qed.

Lemma emptied_fits ip : shorts_fit ip → dinode_fits (inode_di (emptied ip)).
Proof. intros (?&?&?&?). split; try done. by apply Forall_replicate. Qed.

Section trunc.
Context {T : Z → (Z → block) → gmap nat (Z * block) → nat → kstate → Prop} `{!BlockLayer T} (pid : Z).
Implicit Types (H : gmap nat (Z * block)).

(** Room in the log for the bitmap block and [k] others besides. *)
Definition afford L H k s : Prop := T pid L H (2 + k) s ∨ T pid L H (1 + k) s ∧ logged s (BBLOCK 0 (sb s)).

Lemma one_bitmap S b : sb_size S ≤ BPB → 0 ≤ b < sb_size S → BBLOCK b S = BBLOCK 0 S.
Proof. intros Hs Hb. unfold BBLOCK. do 2 f_equal. unfold BPB, BSIZE in *. zlia. Qed.

Lemma wp_bfree_afford L L' F H k s b (Q : unit → kstate → Prop) :
  let S := sb s in
  afford L' H k s → disk_wf S L (disksize (hdisk s)) → sb_size S ≤ BPB → frees S L L' F → data_block S L b → b ∉ F →
  (∀ i c d, H !! i = Some (c, d) → no_bitmap S c) → (size H < MAXHELD)%nat →
  (∀ L2 s', afford L2 H k s' → same s s' → frees S L L2 (b :: F) → Q tt s') →
  wp (bfree 1 b) s Q.
Proof.
  intros SB Haf Hw H1 Hfr (Hb & Hu & Hnb) HbF HH Hsz HQ. assert (Hb' : 0 ≤ b < sb_size SB) by lia.
  assert (Hu' : used SB L' b = true) by (rewrite (fr_used _ _ _ _ Hfr), Hu, bool_decide_eq_false_2 by done; done).
  assert (Hbm : bitmap_ok SB H (disksize (hdisk s))).
  { split; [apply Hw| |].
    - intros c Hc. pose proof (dw_bitmap _ _ _ Hw c Hc). pose proof (dw_size _ _ _ Hw). lia.
    - intros c Hc i d Hi. by apply (HH _ _ _ Hi c). }
  assert (Hstep : ∀ s', same s s' → logged s' (BBLOCK b SB) →
    T pid (upd L' (BBLOCK b SB) (unmark (L' (BBLOCK b SB)) b)) H (1 + k) s' → Q tt s').
  { intros s' Es Hlg Ht'. eapply HQ; [|exact Es|by eapply frees_step]. right. split; [exact Ht'|].
    rewrite (same_sb _ _ Es). fold SB. by rewrite <-(one_bitmap SB b). }
  destruct Haf as [Ht|[Ht Hlg]].
  - eapply (wp_bfree_cost pid L' H (1 + k) 1 s b); try done; try lia. intros s' Ht' Es Hlg. by apply Hstep.
  - eapply (wp_bfree_cost pid L' H (1 + k) 0 s b); try done; try lia; [|intros s' Ht' Es Hlg'; by apply Hstep].
    intros _. split; [|done]. fold SB. by rewrite (one_bitmap SB b).
Qed.

Lemma afford_icache L H k s ips : afford L H k s → afford L H k (s <| icache := ips |>).
Proof. intros [Ht|[Ht Hl]]; [left|right; split; [|done]]; by apply T_icache. Qed.

Lemma afford_logged L H k s s' :
  T pid L H (1 + k) s' → same s s' → logged s (BBLOCK 0 (sb s)) → afford L H k s'.
Proof. intros Ht Es Hlg. right. split; [done|]. rewrite (same_sb _ _ Es). by apply Es. Qed.
Lemma afford_bread L H k s b (Q : nat → kstate → Prop) :
  afford L H k s → 0 ≤ b < disksize (hdisk s) → (∀ i d, H !! i ≠ Some (b, d)) → (size H < MAXHELD)%nat →
  (∀ i s', H !! i = None → afford L (<[i := (b, L b)]> H) k s' → same s s' → Q i s') → wp (bread 1 b) s Q.
Proof.
  intros [Ht|[Ht Hlg]] Hb Hn Hs HQ; (eapply bl_bread; [exact Ht|done..|]); intros i s' Hi Ht' Es; (apply HQ; [done| |done]).
  - by left.
  - by eapply afford_logged.
Qed.
Lemma afford_brelse L H k s i b (Q : unit → kstate → Prop) :
  afford L H k s → H !! i = Some (b, L b) → (∀ s', afford L (delete i H) k s' → same s s' → Q tt s') → wp (brelse i) s Q.
Proof.
  intros [Ht|[Ht Hlg]] Hi HQ; (eapply bl_brelse; [exact Ht|done|]); intros s' Ht' Es; (apply HQ; [|done]).
  - by left.
  - by eapply afford_logged.
Qed.

(** The file that is given up. *)
Section file.
Context (s : kstate) (L : Z → block) (ip : inode) (i k : nat).
Let SB := sb s.
Let A := blk_addr L ip.
Context (Hq : bmap_pre (T:=T) pid s L ip i (2 + k)) (H1 : sb_size SB ≤ BPB).

Lemma addr_data m : 0 ≤ m < MAXFILE → A m ≠ 0 → data_block SB L (A m) ∧ A m ∉ addrs_below A (Z.to_nat m).
Proof.
  intros Hm Hne. destruct (bq_file _ _ _ _ _ _ Hq) as [_ Hf]. split; [apply (fa_data _ _ _ _ Hf m Hm Hne)|].
  intros [_ (j & Hj & E)]%elem_of_addrs_below. pose proof (fa_inj _ _ _ _ Hf j m ltac:(lia) Hm) as Hi. fold A in Hi. rewrite E in Hi.
  specialize (Hi Hne eq_refl). lia.
Qed.

(** The loop over the direct addresses. *)
Definition direct_body : Z → K unit := λ m,
  ip ← inode_at i;
  if addr_at ip m =? 0 then mret tt else
  bfree (i_dev ip) (addr_at ip m);;
  set_addr i m 0.
Record direct_inv (m : nat) (s' : kstate) : Prop := {
  di_icache : icache s' = <[i := cut ip m]> (icache s);
  di_same : same_i s s';
  di_freed : ∃ L', afford L' ∅ k s' ∧ frees SB L L' (addrs_below A m) }.

Lemma direct_step m s' : (m < 12)%nat → direct_inv m s' → wp (direct_body (Z.of_nat m)) s' (λ _ s2, direct_inv (S m) s2).
Proof.
  intros Hm [Ei Es (L' & Haf & Hfr)]. destruct (bq_file _ _ _ _ _ _ Hq) as [Hlen Hf].
  assert (Hil : (i < length (icache s))%nat) by (eapply lookup_lt_Some, Hq).
  assert (Hip : icache s' !! i = Some (cut ip m)) by (rewrite Ei; by apply list_lookup_insert_eq).
  assert (HA : A (Z.of_nat m) = addr_at ip (Z.of_nat m)).
  { unfold A, blk_addr. rewrite (proj2 (Z.ltb_lt _ _)) by (unfold NDIRECT; lia). done. }
  destruct (lookup_lt_is_Some_2 (i_addrs ip) m) as [a Ea]; [lia|].
  assert (Ha : addr_at ip (Z.of_nat m) = a) by (unfold addr_at; rewrite Nat2Z.id; by apply list_lookup_total_correct).
  unfold direct_body. wps. apply (wp_inode_at _ _ _ _ Hip). rewrite cut_addr, Ha. pose proof (addrs_below_S A m) as EF. rewrite HA, Ha in EF.
  destruct (Z.eqb_spec a 0) as [->|Hne].
  - apply wp_ret. rewrite app_nil_r in EF. split; [by rewrite cut_S_zero|done|]. exists L'. by rewrite EF.
  - destruct (addr_data (Z.of_nat m)) as [Hd Hnin]; [unfold MAXFILE, NDIRECT, NINDIRECT; lia|by rewrite HA, Ha|]. rewrite HA, Ha in Hd, Hnin. rewrite Nat2Z.id in Hnin.
    apply wp_bind. change (i_dev (cut ip m)) with (i_dev ip). rewrite (bq_dev _ _ _ _ _ _ Hq).
    eapply (wp_bfree_afford L L' (addrs_below A m) ∅ k); rewrite ?(same_i_sb _ _ Es), ?(same_i_disksize _ _ Es);
      [exact Haf|apply Hq|exact H1|exact Hfr|exact Hd|exact Hnin|by intros ??? ?%lookup_empty_Some|apply size_empty_held|].
    intros L2 s2 Haf2 E2 Hfr2. apply wp_upd_inode. split.
    + cbn. rewrite (same_icache _ _ E2), (alter_lookup _ _ _ _ Hip), Ei, list_insert_insert_eq, Nat2Z.id. by rewrite (cut_S _ _ _ Ea).
    + transitivity s'; [done|]. transitivity s2; [by apply same_same_i|apply same_i_icache].
    + exists L2. split; [by apply afford_icache|]. rewrite EF. eapply frees_equiv; [|exact Hfr2]. intros x. rewrite elem_of_cons, elem_of_app, list_elem_of_singleton. tauto.
Qed.

(** The loop over the addresses in the indirect block, which the caller holds. *)
Let ind := addr_at ip NDIRECT.
Definition indirect_body (ip : inode) (bp : nat) : Z → K unit := λ j,
  a ← bdata bp;
  if get32 a (4 * j) =? 0 then mret tt else bfree (i_dev ip) (get32 a (4 * j)).
Record indirect_inv (s1 : kstate) (bp m : nat) (s' : kstate) : Prop := {
  ni_same : same s1 s';
  ni_freed : ∃ L', afford L' {[bp := (ind, L ind)]} k s' ∧ frees SB L L' (addrs_below A (12 + m)) }.

Lemma indirect_addr m : ind ≠ 0 → (m < 128)%nat → get32 (L ind) (4 * Z.of_nat m) = A (Z.of_nat (12 + m)).
Proof.
  intros Hi Hm. unfold A, blk_addr. rewrite (proj2 (Z.ltb_ge _ _)) by (unfold NDIRECT; lia). fold ind. rewrite (proj2 (Z.eqb_neq _ _) Hi).
  do 2 f_equal. unfold NDIRECT. lia.
Qed.
Lemma ind_data : ind ≠ 0 → data_block SB L ind ∧ ∀ m, ind ∉ addrs_below A m ∨ (140 < m)%nat.
Proof.
  intros Hi. destruct (bq_file _ _ _ _ _ _ Hq) as [_ Hf]. split; [by apply (fa_ind _ _ _ _ Hf)|]. intros m.
  destruct (decide (140 < m)%nat); [by right|left]. intros [_ (j & Hj & E)]%elem_of_addrs_below.
  destruct (fa_data _ _ _ _ Hf j ltac:(unfold MAXFILE, NDIRECT, NINDIRECT; lia)) as [_ Hne]; [by fold A; rewrite E|]. by fold A in Hne.
Qed.

Lemma indirect_step s1 bp cp m s' :
  ind ≠ 0 → same_i s s1 → i_dev cp = 1 → (m < 128)%nat → indirect_inv s1 bp m s' →
  wp (indirect_body cp bp (Z.of_nat m)) s' (λ _ s2, indirect_inv s1 bp (S m) s2).
Proof.
  intros Hi Es1 Hcp Hm [Es (L' & Haf & Hfr)]. destruct (ind_data Hi) as [Hid Hnin].
  assert (Ht : ∃ k', T pid L' {[bp := (ind, L ind)]} k' s') by (destruct Haf as [?|[? _]]; by eexists). destruct Ht as [k' Ht].
  unfold indirect_body. wps. eapply bl_bdata; [exact Ht|apply lookup_singleton_eq|].
  pose proof (addrs_below_S A (12 + m)) as EF. rewrite indirect_addr by done. set (a := A (Z.of_nat (12 + m))) in *.
  replace (S (12 + m)) with (12 + S m)%nat in EF by lia.
  assert (Ess : same_i s s') by (transitivity s1; [done|by apply same_same_i]).
  destruct (Z.eqb_spec a 0) as [Ea|Ea].
  - apply wp_ret. rewrite app_nil_r in EF. split; [done|]. exists L'. by rewrite EF.
  - destruct (addr_data (Z.of_nat (12 + m))) as [Hd Hno]; [unfold MAXFILE, NDIRECT, NINDIRECT; lia|done|]. rewrite Nat2Z.id in Hno. fold a in Hd, Hno.
    rewrite Hcp. eapply (wp_bfree_afford L L' _ _ k); rewrite ?(same_i_sb _ _ Ess), ?(same_i_disksize _ _ Ess);
      [exact Haf|apply Hq|exact H1|exact Hfr|exact Hd|exact Hno| | |].
    + intros j c d Hj. apply lookup_singleton_Some in Hj as [_ [= <- <-]]. apply Hid.
    + rewrite map_size_singleton. unfold MAXHELD. lia.
    + intros L2 s2 Haf2 E2 Hfr2. split; [by transitivity s'|]. exists L2. split; [done|]. rewrite EF. eapply frees_equiv; [|exact Hfr2].
      intros x. rewrite elem_of_cons, elem_of_app, list_elem_of_singleton. tauto.
Qed.

(** The blocks of the file, its indirect block last. *)
Definition file_blocks : list Z := addrs_below A 140 ++ (if ind =? 0 then [] else [ind]).

Lemma blocks_direct : ind = 0 → addrs_below A 140 = addrs_below A 12.
Proof.
  intros Hi. assert (∀ m, addrs_below A (12 + m) = addrs_below A 12) as E; [|exact (E 128%nat)].
  induction m as [|m IH]; [done|]. replace (12 + S m)%nat with (S (12 + m)) by lia. rewrite addrs_below_S.
  assert (A (Z.of_nat (12 + m)) = 0) as ->; [|by rewrite app_nil_r]. unfold A, blk_addr. rewrite (proj2 (Z.ltb_ge _ _)) by (unfold NDIRECT; lia).
  fold ind. by rewrite Hi.
Qed.

Lemma file_blocks_data : Forall (data_block SB L) file_blocks.
Proof.
  unfold file_blocks. apply Forall_app. split.
  - apply Forall_forall. intros x [Hx (m & Hm & E)]%elem_of_addrs_below. subst x. apply addr_data; [unfold MAXFILE, NDIRECT, NINDIRECT; lia|done].
  - destruct (Z.eqb_spec ind 0); [done|]. apply Forall_singleton. by apply ind_data.
Qed.

(** The second part of [itrunc]. *)
Lemma wp_indirect s1 L1 (Q : unit → kstate → Prop) :
  icache s1 = <[i := cut ip 12]> (icache s) → same_i s s1 → afford L1 ∅ k s1 → frees SB L L1 (addrs_below A 12) →
  (∀ s2 L2, icache s2 = <[i := cut ip 13]> (icache s) → same_i s s2 → afford L2 ∅ k s2 → frees SB L L2 file_blocks → Q tt s2) →
  wp (if addr_at (cut ip 12) NDIRECT =? 0 then mret tt else
      bp ← bread (i_dev (cut ip 12)) (addr_at (cut ip 12) NDIRECT);
      for_range 0 (Z.to_nat NINDIRECT) (indirect_body (cut ip 12) bp);;
      brelse bp;;
      bfree (i_dev (cut ip 12)) (addr_at (cut ip 12) NDIRECT);;
      set_addr i NDIRECT 0) s1 Q.
Proof.
  intros Ei Es Haf Hfr HQ. destruct (bq_file _ _ _ _ _ _ Hq) as [Hlen Hf]. pose proof (bq_dev _ _ _ _ _ _ Hq) as Hdev.
  assert (Hil : (i < length (icache s))%nat) by (eapply lookup_lt_Some, Hq).
  change (addr_at (cut ip 12) NDIRECT) with (addr_at (cut ip 12) (Z.of_nat 12)). rewrite (cut_addr ip 12). change (addr_at ip (Z.of_nat 12)) with ind.
  change (i_dev (cut ip 12)) with (i_dev ip). rewrite Hdev.
  destruct (lookup_lt_is_Some_2 (i_addrs ip) 12) as [a Ea]; [lia|]. assert (Ha : ind = a) by (by apply list_lookup_total_correct). rewrite <-Ha in Ea.
  unfold file_blocks in HQ. destruct (Z.eqb_spec ind 0) as [Hi|Hi].
  - apply wp_ret. apply (HQ s1 L1); [|done|done|by rewrite app_nil_r, blocks_direct]. rewrite (cut_S_zero ip 12); [done|by rewrite <-Hi].
  - destruct (ind_data Hi) as [Hid Hnin]. assert (Ht : ∃ k', T pid L1 ∅ k' s1) by (destruct Haf as [?|[? _]]; by eexists). destruct Ht as [k' Ht].
    pose proof (dw_size _ _ _ (bq_disk _ _ _ _ _ _ Hq)) as Hsz. fold SB in Hsz. pose proof Hid as (Hr & _ & Hnb).
    assert (Hkeep : ∀ L2 F, frees SB L L2 F → L2 ind = L ind) by (intros L2 F H2; by apply H2).
    apply wp_bind. eapply afford_bread; [exact Haf|rewrite (same_i_disksize _ _ Es); lia|by intros ???%lookup_empty_Some|apply size_empty_held|].
    intros bp s2 _ Haf2 E2. rewrite (Hkeep _ _ Hfr), insert_empty in Haf2. assert (Es2 : same_i s s2) by (transitivity s1; [done|by apply same_same_i]).
    apply wp_bind, (wp_for_range (indirect_inv s2 bp) _ 0 128).
    { split; [done|]. exists L1. by rewrite Nat.add_0_r. }
    { intros m s' Hm Hinv. rewrite Z.add_0_l. by eapply indirect_step. }
    intros s3 [E3 (L3 & Haf3 & Hfr3)]. change (12 + 128)%nat with 140%nat in Hfr3. apply wp_bind.
    eapply afford_brelse; [exact Haf3|by rewrite (Hkeep _ _ Hfr3), lookup_singleton_eq|]. intros s4 Haf4 E4. rewrite delete_singleton_eq in Haf4.
    assert (E24 : same s2 s4) by (by transitivity s3). assert (Es4 : same_i s s4) by (transitivity s2; [done|by apply same_same_i]).
    apply wp_bind. eapply (wp_bfree_afford L L3 _ ∅ k); rewrite ?(same_i_sb _ _ Es4), ?(same_i_disksize _ _ Es4);
      [exact Haf4|apply Hq|exact H1|exact Hfr3|exact Hid|destruct (Hnin 140%nat); [done|lia]|by intros ??? ?%lookup_empty_Some|apply size_empty_held|].
    intros L5 s5 Haf5 E5 Hfr5. apply wp_upd_inode. assert (Ei5 : icache s5 = <[i := cut ip 12]> (icache s)).
    { rewrite (same_icache _ _ E5), (same_icache _ _ E24), (same_icache _ _ E2). done. }
    apply (HQ _ L5); [|transitivity s4; [done|]; transitivity s5; [by apply same_same_i|apply same_i_icache]|by apply afford_icache|].
    + cbn. rewrite (alter_lookup _ _ _ (cut ip 12)) by (rewrite Ei5; by apply list_lookup_insert_eq). rewrite Ei5, list_insert_insert_eq.
      by rewrite <-(cut_S ip 12 ind Ea).
    + eapply frees_equiv; [|exact Hfr5]. intros x. rewrite elem_of_cons, elem_of_app, list_elem_of_singleton. tauto.
Qed.

(** The inode block of the file. *)
Let ib := IBLOCK (i_inum ip) SB.
Context (Hun : unowned SB L ip ib).

Lemma wp_itrunc (Q : unit → kstate → Prop) :
  (∀ s' L', given_up SB L L' file_blocks (i_inum ip) (disksize (hdisk s)) →
     T pid (upd L' ib (put_dinode (L' ib) (dinode_off (i_inum ip)) (inode_di (emptied ip)))) ∅ k s' →
     icache s' = <[i := emptied ip]> (icache s) → same_i s s' → Q tt s') →
  wp (itrunc i) s Q.
Proof.
  intros HQ. destruct (bq_file _ _ _ _ _ _ Hq) as [Hlen Hf]. pose proof (bq_dev _ _ _ _ _ _ Hq) as Hdev.
  assert (Hil : (i < length (icache s))%nat) by (eapply lookup_lt_Some, Hq).
  unfold itrunc. apply wp_bind. apply (wp_for_range direct_inv _ 0 12).
  - split; [by rewrite cut_0, list_insert_id by apply Hq|done|]. exists L. split; [left; apply Hq|apply frees_nil].
  - intros m s' Hm Hinv. rewrite Z.add_0_l. by apply direct_step.
  - intros s1 [Ei1 Es1 (L1 & Haf1 & Hfr1)]. apply wp_bind, (wp_inode_at i (cut ip 12)); [rewrite Ei1; by apply list_lookup_insert_eq|].
    apply wp_bind. apply (wp_indirect s1 L1); [done..|]. intros s2 L2 Ei2 Es2 Haf2 Hfr2. apply wp_bind, wp_upd_inode. set (s3 := over icache _ s2).
    assert (Ei3 : icache s3 = <[i := emptied ip]> (icache s)).
    { unfold s3. cbn. rewrite (alter_lookup _ _ _ (cut ip 13)) by (rewrite Ei2; by apply list_lookup_insert_eq). rewrite Ei2, list_insert_insert_eq.
      unfold cut, emptied, over. cbn. rewrite drop_ge by lia. done. }
    assert (Ht3 : T pid L2 ∅ (S k) s3) by (destruct Haf2 as [Ht|[Ht _]]; (eapply bl_le; [by apply T_icache|lia])).
    pose proof (dw_size _ _ _ (bq_disk _ _ _ _ _ _ Hq)) as Hsz. destruct Hun as ((Hr & _) & _). fold SB in Hsz.
    eapply (wp_iupdate pid L2 ∅ k s3 i (emptied ip)).
    + exact Ht3.
    + rewrite Ei3. by apply list_lookup_insert_eq.
    + done.
    + change (0 ≤ IBLOCK (i_inum ip) (sb s2) < disksize (hdisk s2)). rewrite (same_i_sb _ _ Es2), (same_i_disksize _ _ Es2). fold SB ib. lia.
    + by intros j d ?%lookup_empty_Some.
    + apply size_empty_held.
    + change (IBLOCK (i_inum (emptied ip)) (sb s3)) with (IBLOCK (i_inum ip) (sb s2)). rewrite (same_i_sb _ _ Es2). fold SB ib.
      intros s4 Ht4 E4. apply (HQ s4 L2); [|exact Ht4|by rewrite (same_icache _ _ E4)|].
      * apply frees_given_up; [apply Hq|done|apply file_blocks_data].
      * transitivity s2; [done|]. transitivity s3; [apply same_i_icache|by apply same_same_i].
Qed.
End file.

(** The inode is given up: its blocks are free, and so is its slot. *)
Lemma wp_free_inode s L ip i k (Q : unit → kstate → Prop) :
  let S := sb s in let ib := IBLOCK (i_inum ip) S in let ip0 := emptied ip <| i_type := 0 |> in
  bmap_pre (T:=T) pid s L ip i (3 + k) → sb_size S ≤ BPB → unowned S L ip ib → shorts_fit ip →
  inum_ok S (i_inum ip) → 0 ≤ sb_inodestart S →
  (∀ s' L', given_up S L L' (file_blocks L ip) (i_inum ip) (disksize (hdisk s)) → dinode_of S L' (i_inum ip) = inode_di ip0 →
     T pid L' ∅ k s' → icache s' = <[i := ip0 <| i_valid := 0 |>]> (icache s) → same_i s s' → Q tt s') →
  wp (itrunc i;; upd_inode_at i (λ ip, ip <| i_type := 0 |>);; iupdate i;; upd_inode_at i (λ ip, ip <| i_valid := 0 |>)) s Q.
Proof.
  intros S0 ib ip0 Hq Hsz Hun Hsh Hin Hst HQ. pose proof Hq as [Ht Hip Hd Hdw Hfw Hwd].
  assert (Hil : (i < length (icache s))%nat) by (by eapply lookup_lt_Some).
  apply wp_bind. apply (wp_itrunc s L ip i (S k) Hq Hsz Hun). intros s2 L2 Hg Ht2 Ei2 Es2. fold S0 in Ht2, Hg. fold ib in Ht2.
  destruct (given_up_put _ _ _ _ _ _ (inode_di (emptied ip)) Hg (proj1 Hun) Hin Hst (emptied_fits _ Hsh)) as [Hg2 _]. fold ib in Hg2.
  set (L3 := upd L2 ib _) in *. assert (Hsh0 : shorts_fit (ip <| i_type := 0 |>)) by (destruct Hsh as (_ & ? & ? & ?); by split_and!).
  destruct (given_up_put _ _ _ _ _ _ (inode_di (emptied (ip <| i_type := 0 |>))) Hg2 (proj1 Hun) Hin Hst (emptied_fits _ Hsh0)) as [Hg3 Hdi].
  fold ib in Hg3, Hdi. apply wp_bind, wp_upd_inode. set (s3 := over icache _ s2).
  assert (Ei3 : icache s3 = <[i := ip0]> (icache s)).
  { unfold s3. cbn. rewrite (alter_lookup _ _ _ (emptied ip)) by (rewrite Ei2; by apply list_lookup_insert_eq). by rewrite Ei2, list_insert_insert_eq. }
  pose proof (dw_size _ _ _ Hdw) as Hds. pose proof (proj1 (proj1 Hun)) as Hib. fold S0 in Hds.
  apply wp_bind. eapply (wp_iupdate pid L3 ∅ k s3 i ip0).
  - by apply T_icache.
  - rewrite Ei3. by apply list_lookup_insert_eq.
  - done.
  - change (0 ≤ IBLOCK (i_inum ip) (sb s2) < disksize (hdisk s2)). rewrite (same_i_sb _ _ Es2), (same_i_disksize _ _ Es2). fold S0 ib. lia.
  - by intros j d ?%lookup_empty_Some.
  - apply size_empty_held.
  - change (IBLOCK (i_inum ip0) (sb s3)) with (IBLOCK (i_inum ip) (sb s2)). rewrite (same_i_sb _ _ Es2). fold S0 ib.
    intros s4 Ht4 E4. apply wp_upd_inode. apply (HQ _ _ Hg3 Hdi); [by apply T_icache| |].
    + cbn. rewrite (same_icache _ _ E4), Ei3, (alter_lookup _ _ _ ip0) by (by apply list_lookup_insert_eq). by rewrite list_insert_insert_eq.
    + transitivity s2; [done|]. transitivity s3; [apply same_i_icache|]. transitivity s4; [by apply same_same_i|apply same_i_icache].
Qed.

(** The cache slot after the last reference to an unlinked file is gone. *)
Definition gone (ip : inode) : inode :=
  emptied ip <| i_lock := unlocked |> <| i_type := 0 |> <| i_valid := 0 |> <| i_ref := 0 |>.

Lemma put_gone ip l : i_ref ip = 1 → put_inode (emptied (ip <| i_lock := l |>) <| i_type := 0 |> <| i_valid := 0 |>) = gone ip.
Proof. destruct ip. cbn. by intros ->. Qed.
Lemma gone_di ip : i_nlink ip = 0 → inode_di (gone ip) = mk_dinode 0 (i_major ip) (i_minor ip) 0 0 (replicate 13 0).
Proof. destruct ip. cbn. by intros ->. Qed.

Lemma wp_iput_last s L ip i k (Q : unit → kstate → Prop) :
  let S := sb s in let ib := IBLOCK (i_inum ip) S in
  bmap_pre (T:=T) pid s L ip i (3 + k) → sb_size S ≤ BPB → unowned S L ip ib → shorts_fit ip →
  inum_ok S (i_inum ip) → 0 ≤ sb_inodestart S →
  sl_locked (i_lock ip) = false → i_valid ip ≠ 0 → i_nlink ip = 0 → i_ref ip = 1 →
  (∀ s' L', given_up S L L' (file_blocks L ip) (i_inum ip) (disksize (hdisk s)) → dinode_of S L' (i_inum ip) = inode_di (gone ip) →
     T pid L' ∅ k s' → icache s' = <[i := gone ip]> (icache s) → same_i s s' → Q tt s') →
  wp (iput i) s Q.
Proof.
  intros S0 ib Hq Hsz Hun Hsh Hin Hst Hl Hv Hn Hr HQ. pose proof Hq as [Ht Hip Hd Hdw Hfw Hwd].
  assert (Hil : (i < length (icache s))%nat) by (by eapply lookup_lt_Some).
  unfold iput. apply wp_bind. eapply wp_acquiresleep_inode; [exact Ht|exact Hip|exact Hl|].
  set (ip1 := ip <| i_lock := mk_sleeplock true pid |>). set (s1 := over icache _ s).
  assert (Hip1 : icache s1 !! i = Some ip1) by (by apply list_lookup_insert_eq).
  assert (Ht1 : T pid L ∅ (3 + k) s1) by (by apply T_icache).
  assert (Hq1 : bmap_pre (T:=T) pid s1 L ip1 i (3 + k)) by (split; try done).
  apply wp_bind, (wp_inode_at _ _ _ _ Hip1). change (i_valid ip1) with (i_valid ip). change (i_nlink ip1) with (i_nlink ip).
  rewrite (proj2 (Z.eqb_neq _ 0) Hv), Hn. cbn [negb andb Z.eqb]. destruct (bl_running pid L ∅ _ s1 Ht1) as [Hh1 _].
  apply wp_bind. apply wp_bind. eapply wp_intro; [apply acquire_ok; rewrite Hh1; apply not_elem_of_nil|].
  apply wp_bind, (wp_inode_at i ip1); [exact Hip1|]. cbv zeta. change (i_ref ip1) with (i_ref ip). rewrite Hr. apply wp_bind.
  eapply wp_intro; [apply (release_ok LIcache _ []); [by cbn; f_equal|apply not_elem_of_nil]|].
  assert (Er : ∀ h, s1 <| held := h |> <| held := [] |> = s1) by (intros h; unfold over; cbn; by rewrite <-Hh1).
  rewrite Er. change (1 =? 1) with true. cbv iota. apply (wp_free_inode s1 L ip1 i k _ Hq1 Hsz Hun Hsh Hin Hst). intros s5 L5 Hg Hdi Ht5 Ei5 Es5.
  assert (Ei5' : icache s5 = <[i := emptied ip1 <| i_type := 0 |> <| i_valid := 0 |>]> (icache s)).
  { rewrite Ei5. unfold s1, over. cbn. by rewrite list_insert_insert_eq. }
  eapply wp_iput_end; [exact Ht5|rewrite Ei5'; by apply list_lookup_insert_eq|]. intros s6 Ht6 Es6 Ei6. apply (HQ s6 _ Hg Hdi Ht6).
  - rewrite Ei6, Ei5', list_insert_insert_eq. f_equal. by apply put_gone.
  - transitivity s1; [apply same_i_icache|]. by transitivity s5.
Qed.
End trunc.

(** Block [x] holds data of the file, or the addresses of such blocks. *)
Definition owns (L : Z → block) (ip : inode) (x : Z) : Prop :=
  x ≠ 0 ∧ (x = addr_at ip NDIRECT ∨ ∃ m, 0 ≤ m < MAXFILE ∧ blk_addr L ip m = x).
Lemma elem_of_file_blocks L ip x : x ∈ file_blocks L ip ↔ owns L ip x.
Proof.
  unfold file_blocks, owns. rewrite elem_of_app, elem_of_addrs_below. change (Z.of_nat 140) with MAXFILE.
  destruct (Z.eqb_spec (addr_at ip NDIRECT) 0) as [E|E].
  - rewrite elem_of_nil, E. naive_solver.
  - rewrite list_elem_of_singleton. naive_solver.
Qed.

(** * Properties *)

(** C33: [iput] of the last reference to a file that no directory names: the file's blocks, and no others, become free, its inode on the
    disk has type 0 and size 0, and the cache slot can be used again; the other inodes and all other blocks are as they were.  The
    transaction pays for one bitmap block and two inode writes however long the file is, since the disk has one bitmap block. *)
Theorem iput_correct (pid : Z) (s : kstate) (L : Z → block) (ip : inode) (i k : nat) :
  let S := sb s in let ib := IBLOCK (i_inum ip) S in
  bmap_pre (T:=tx) pid s L ip i (3 + k) → sb_size S ≤ BPB → unowned S L ip ib → shorts_fit ip →
  inum_ok S (i_inum ip) → 0 ≤ sb_inodestart S →
  sl_locked (i_lock ip) = false → i_valid ip ≠ 0 → i_nlink ip = 0 → i_ref ip = 1 →
  ∃ s' L', iput i s = Ok tt s' ∧ tx pid L' ∅ k s'
    ∧ icache s' = <[i := ip <| i_addrs := replicate 13 0 |> <| i_size := 0 |> <| i_lock := unlocked |> <| i_type := 0 |>
                            <| i_valid := 0 |> <| i_ref := 0 |>]> (icache s)
    ∧ disk_wf S L' (disksize (hdisk s))
    ∧ (∀ x, 0 ≤ x < sb_size S → used S L' x = true ↔ used S L x = true ∧ ¬ owns L ip x)
    ∧ dinode_of S L' (i_inum ip) = mk_dinode 0 (i_major ip) (i_minor ip) 0 0 (replicate 13 0)
    ∧ (∀ m, inum_ok S m → m ≠ i_inum ip → no_bitmap S (IBLOCK m S) → dinode_of S L' m = dinode_of S L m)
    ∧ (∀ b, no_bitmap S b → b ≠ ib → L' b = L b).
Proof.
  intros S ib Hq Hsz Hun Hsh Hin Hst Hl Hv Hn Hr.
  assert (Hwp : wp (iput i) s (λ _ s', ∃ L', given_up S L L' (file_blocks L ip) (i_inum ip) (disksize (hdisk s))
    ∧ dinode_of S L' (i_inum ip) = inode_di (gone ip) ∧ tx pid L' ∅ k s' ∧ icache s' = <[i := gone ip]> (icache s))).
  { eapply wp_iput_last; try done. intros s' L' Hg Hdi Ht' Ei _. by exists L'. }
  apply wp_elim in Hwp as ([] & s' & E & L' & [G1 G2 G3 G4] & Hdi & Ht' & Ei). exists s', L'. split_and!; try done.
  - intros x Hx. rewrite G2 by done. rewrite andb_true_iff, negb_true_iff, bool_decide_eq_false, elem_of_file_blocks. tauto.
  - rewrite Hdi. by apply gone_di.
Qed.

(** The last reference to the file of one block, whose name is gone. *)
Definition demo_unlinked : inode := (demo_inode 1) <| i_nlink := 0 |>.
Lemma iput_correct_witness :
  ∃ s' L', iput 0 (demo_fs file_disk demo_unlinked) = Ok tt s' ∧ tx 1 L' ∅ 17 s'
    ∧ icache s' = <[0%nat := demo_unlinked <| i_addrs := replicate 13 0 |> <| i_size := 0 |> <| i_lock := unlocked |> <| i_type := 0 |>
                            <| i_valid := 0 |> <| i_ref := 0 |>]> (demo_slots demo_unlinked)
    ∧ disk_wf file_sb L' 80
    ∧ (∀ x, 0 ≤ x < 80 → used file_sb L' x = true ↔ used file_sb (disk_read file_disk) x = true ∧ ¬ owns (disk_read file_disk) demo_unlinked x)
    ∧ dinode_of file_sb L' 5 = mk_dinode 0 0 0 0 0 (replicate 13 0)
    ∧ (∀ m, inum_ok file_sb m → m ≠ 5 → no_bitmap file_sb (IBLOCK m file_sb) → dinode_of file_sb L' m = dinode_of file_sb (disk_read file_disk) m)
    ∧ (∀ b, no_bitmap file_sb b → b ≠ 32 → L' b = disk_read file_disk b).
Proof.
  apply (iput_correct 1 (demo_fs file_disk demo_unlinked) (disk_read file_disk) demo_unlinked 0 17).
  - by apply file_pre.
  - by vm_compute.
  - by apply file_unowned.
  - by repeat split.
  - by split.
  - by vm_compute.
  - done.
  - done.
  - done.
  - done.
Defined.
