(* ===== verification/Ide.v ===== *)
(** The disk driver [ide.c]: processes queue requests, the disk serves the first of the queue and interrupts when it is done.

    The controller is a parameter, the class [Controller], with the laws of its task file: the driver reads and writes its ports.
    The state is the driver's own.  A process that waits for its request is named by the buffer whose sleep lock it holds; [asleep] are
    those that sleep on their buffer.  A call of [iderw] ends where its process gives up the processor, and [iderw_resume] is
    what it does after a wakeup. *)
From stdpp Require Import functions gmap.
From S2P Require Export State.
Open Scope Z_scope.

(** * The controller *)

Definition IDE_BSY : Z := 0x80.
Definition IDE_DRDY : Z := 0x40.
Definition IDE_DF : Z := 0x20.
Definition IDE_ERR : Z := 0x01.
Definition IDE_CMD_READ : Z := 0x20.
Definition IDE_CMD_WRITE : Z := 0x30.
Definition IDE_CMD_RDMUL : Z := 0xc4.
Definition IDE_CMD_WRMUL : Z := 0xc5.
Definition SECTOR_SIZE : Z := 512.

Definition ready (r : Z) : bool := Z.land r (Z.lor IDE_BSY IDE_DRDY) =? IDE_DRDY.
Definition failed (r : Z) : bool := negb (Z.land r (Z.lor IDE_DF IDE_ERR) =? 0).

(** Ports are read and written a byte at a time, the data port a block at a time.  [media] is what is on the drives, [reg] the value last
    written to a port of the task file, [command] the last command, [delay] how many reads of the status will find the drive busy. *)
Class Device (D : Type) := {
  inb : Z → D → Z * D;
  outb : Z → Z → D → D;
  insl : D → block * D;
  outsl : block → D → D;
  present : Z → bool;
  bad : Z → Z → bool;
  media : D → Z → Z → block;
  reg : D → Z → Z;
  command : D → Z;
  delay : D → nat }.

Section device.
Context {D} `{Device D}.
Definition drive (d : D) : Z := Z.land (Z.shiftr (reg d 0x1f6) 4) 1.
Definition lba (d : D) : Z := reg d 0x1f3 + 256 * reg d 0x1f4 + 65536 * reg d 0x1f5 + 16777216 * Z.land (reg d 0x1f6) 15.
Record quiet (d d' : D) : Prop := {
  qu_media a x : media d' a x = media d a x;
  qu_reg p : reg d' p = reg d p;
  qu_command : command d' = command d }.
End device.

(** The task file of a drive, which must not be touched while the drive is busy; a read of a bad sector reports an error.  A drive takes the data of a
    write when it is not busy, and it is not between the command and the data ([c_command], [c_outsl]): the driver relies on this, since it sends
    the data straight after the command and does not wait for the drive to ask for them. *)
Class Controller (D : Type) `{Device D} := {
  c_boot : present 0 = true;
  c_quiet d : quiet d (snd (inb 0x1f7 d));
  c_absent d : present (drive d) = false → fst (inb 0x1f7 d) = 0 ∧ delay (snd (inb 0x1f7 d)) = delay d;
  c_ready d : present (drive d) = true → ready (fst (inb 0x1f7 d)) = (delay d =? 0)%nat ∧ delay (snd (inb 0x1f7 d)) = pred (delay d)
    ∧ fst (inb 0x1f7 d) ≠ 0;
  c_error d : present (drive d) = true → delay d = 0%nat → command d = IDE_CMD_READ → failed (fst (inb 0x1f7 d)) = bad (drive d) (lba d);
  c_outb p v d : p ∈ [0x1f2; 0x1f3; 0x1f4; 0x1f5; 0x1f6; 0x3f6] → delay d = 0%nat →
    (∀ q, reg (outb p v d) q = if q =? p then v else reg d q) ∧ (∀ a x, media (outb p v d) a x = media d a x) ∧ delay (outb p v d) = 0%nat;
  c_command v d : delay d = 0%nat →
    (∀ q, reg (outb 0x1f7 v d) q = reg d q) ∧ (∀ a x, media (outb 0x1f7 v d) a x = media d a x) ∧ command (outb 0x1f7 v d) = v
    ∧ (v = IDE_CMD_WRITE → delay (outb 0x1f7 v d) = 0%nat);
  c_insl d : delay d = 0%nat → command d = IDE_CMD_READ → bad (drive d) (lba d) = false →
    fst (insl d) = media d (drive d) (lba d) ∧ (∀ q, reg (snd (insl d)) q = reg d q) ∧ (∀ a x, media (snd (insl d)) a x = media d a x);
  c_outsl data d : delay d = 0%nat → command d = IDE_CMD_WRITE →
    (∀ q, reg (outsl data d) q = reg d q) ∧ command (outsl data d) = IDE_CMD_WRITE
    ∧ ∀ a x, media (outsl data d) a x = if (a =? drive d) && (x =? lba d) then data else media d a x }.

(** * The code *)

Definition FSSIZE : Z := 1000.

Record ide (D : Type) := mk_ide {
  idelock : bool;
  idequeue : option nat;
  qnext : nat → option nat;
  havedisk1 : bool;
  dbufs : list buf;
  asleep : gset nat;
  dev : D }.
Arguments mk_ide {D}.
Arguments idelock {D}. Arguments idequeue {D}. Arguments qnext {D}. Arguments havedisk1 {D}. Arguments dbufs {D}. Arguments asleep {D}. Arguments dev {D}.
#[export] Instance upd_ide {D} : Updatable (ide D) := λ r, mk_ide (idelock r) (idequeue r) (qnext r) (havedisk1 r) (dbufs r) (asleep r) (dev r).

Section code.
Context {D} `{Device D}.
Abbreviation I := (M (ide D)).

Definition in_ (port : Z) : I Z := λ s, let '(r, d) := inb port (dev s) in Ok r (s <| dev := d |>).
Definition out (port v : Z) : I unit := modify (λ s, s <| dev ::= outb port (u8 v) |>).
Definition in_block : I block := λ s, let '(b, d) := insl (dev s) in Ok b (s <| dev := d |>).
Definition out_block (b : block) : I unit := modify (λ s, s <| dev ::= outsl b |>).

Definition lock : I unit := s ← get; if idelock s then panic "acquire" else modify (λ s, s <| idelock := true |>).
Definition unlock : I unit := s ← get; if idelock s then modify (λ s, s <| idelock := false |>) else panic "release".
(** A wild pointer. *)
Definition buf_at (b : nat) : I buf := s ← get; match dbufs s !! b with Some bf => mret bf | None => panic "trap" end.
Definition upd_buf_at (b : nat) (f : buf → buf) : I unit := modify (λ s, s <| dbufs ::= alter f b |>).

Definition idewait (checkerr : bool) : I Z :=
  s ← get;
  r ← iterM (S (delay (dev s))) (λ _ : unit, r ← in_ 0x1f7; mret (if ready r then inr r else inl tt)) tt;
  mret (if checkerr && failed r then -1 else 0).

Definition ideinit : I unit :=
  modify (λ s, s <| idelock := false |>);;
  idewait false;;
  out 0x1f6 (Z.lor 0xe0 (Z.shiftl 1 4));;
  iterM 1001 (λ i, if i <? 1000 then
      r ← in_ 0x1f7;
      if negb (r =? 0) then modify (λ s, s <| havedisk1 := true |>);; mret (inr tt) else mret (inl (i + 1))
    else mret (inr tt)) 0;;
  out 0x1f6 (Z.lor 0xe0 (Z.shiftl 0 4)).

Definition idestart (b : option nat) : I unit :=
  match b with
  | None => panic "idestart"
  | Some b =>
      bf ← buf_at b;
      if FSSIZE <=? b_blockno bf then panic "incorrect blockno" else
      let sector_per_block := BSIZE / SECTOR_SIZE in
      let sector := i32 (b_blockno bf * sector_per_block) in
      let read_cmd := if sector_per_block =? 1 then IDE_CMD_READ else IDE_CMD_RDMUL in
      let write_cmd := if sector_per_block =? 1 then IDE_CMD_WRITE else IDE_CMD_WRMUL in
      if 7 <? sector_per_block then panic "idestart" else
      idewait false;;
      out 0x3f6 0;;
      out 0x1f2 sector_per_block;;
      out 0x1f3 (Z.land sector 0xff);;
      out 0x1f4 (Z.land (Z.shiftr sector 8) 0xff);;
      out 0x1f5 (Z.land (Z.shiftr sector 16) 0xff);;
      out 0x1f6 (Z.lor 0xe0 (Z.lor (Z.shiftl (Z.land (b_dev bf) 1) 4) (Z.land (Z.shiftr sector 24) 0x0f)));;
      if negb (Z.land (b_flags bf) B_DIRTY =? 0) then
        out 0x1f7 write_cmd;;
        out_block (b_data bf)
      else out 0x1f7 read_cmd
  end.

Definition ideintr : I unit :=
  lock;;
  s ← get;
  match idequeue s with
  | None => unlock
  | Some b =>
      modify (λ s, s <| idequeue := qnext s b |>);;
      bf ← buf_at b;
      (if Z.land (b_flags bf) B_DIRTY =? 0 then
         r ← idewait true;
         if 0 <=? r then data ← in_block; upd_buf_at b (λ bf, bf <| b_data := data |>) else mret tt
       else mret tt);;
      upd_buf_at b (λ bf, bf <| b_flags := Z.land (Z.lor (b_flags bf) B_VALID) (Z.lnot B_DIRTY) |>);;
      modify (λ s, s <| asleep := asleep s ∖ {[b]} |>);;
      s ← get;
      (if bool_decide (idequeue s = None) then mret tt else idestart (idequeue s));;
      unlock
  end.

(** [sleep(b, &idelock)], up to the switch: [inl] when the process sleeps, [inr] when the call returns. *)
Definition iderw_wait (b : nat) : I (unit + unit) :=
  bf ← buf_at b;
  if negb (Z.land (b_flags bf) (Z.lor B_VALID B_DIRTY) =? B_VALID) then
    modify (λ s, s <| asleep := asleep s ∪ {[b]} |>);;
    unlock;;
    mret (inl tt)
  else unlock;; mret (inr tt).

(** The pointer [pp] is [None] at [idequeue], [Some i] at the [qnext] of buffer [i]. *)
Definition deref_pp (s : ide D) (pp : option nat) : option nat := match pp with None => idequeue s | Some i => qnext s i end.
Definition set_pp (pp : option nat) (b : nat) : I unit :=
  match pp with
  | None => modify (λ s, s <| idequeue := Some b |>)
  | Some i => modify (λ s, s <| qnext ::= <[i := Some b]> |>)
  end.

Definition iderw (pid : Z) (b : nat) : I (unit + unit) :=
  bf ← buf_at b;
  if negb (sl_locked (b_lock bf) && (sl_pid (b_lock bf) =? pid)) then panic "iderw: buf not locked" else
  if Z.land (b_flags bf) (Z.lor B_VALID B_DIRTY) =? B_VALID then panic "iderw: nothing to do" else
  s ← get;
  if negb (b_dev bf =? 0) && negb (havedisk1 s) then panic "iderw: ide disk 1 not present" else
  lock;;
  modify (λ s, s <| qnext ::= <[b := None]> |>);;
  s ← get;
  pp ← iterM (S (S (length (dbufs s)))) (λ pp, mret (match deref_pp s pp with None => inr pp | Some i => inl (Some i) end)) None;
  set_pp pp b;;
  s ← get;
  (if bool_decide (idequeue s = Some b) then idestart (Some b) else mret tt);;
  iderw_wait b.
Definition iderw_resume (b : nat) : I (unit + unit) := lock;; iderw_wait b.
End code.

(** * The disk and the driver's primitives *)

Section driver.
Context {D} `{Controller D}.
Implicit Types (s : ide D) (d : D) (A : Z → Z → block).

(** The state, with another device. *)
Definition with_dev s d : ide D := mk_ide (idelock s) (idequeue s) (qnext s) (havedisk1 s) (dbufs s) (asleep s) d.

#[export] Instance quiet_preorder : PreOrder (quiet (D:=D)).
Proof. split; [by split|]. intros d1 d2 d3 [M1 R1 C1] [M2 R2 C2]. split; intros; by rewrite ?M2, ?R2, ?C2. Qed.
Lemma quiet_drive d d' : quiet d d' → drive d' = drive d.
Proof. intros [_ R _]. unfold drive. by rewrite R. Qed.
Lemma quiet_lba d d' : quiet d d' → lba d' = lba d.
Proof. intros [_ R _]. unfold lba. by rewrite !R. Qed.

Lemma in_ok p s : in_ p s = Ok (fst (inb p (dev s))) (with_dev s (snd (inb p (dev s)))).
Proof. unfold in_. destruct s. cbn. by destruct (inb p dev0). Qed.

Lemma poll_ok n s :
  delay (dev s) = n → present (drive (dev s)) = true →
  ∃ r d', iterM (S n) (λ _ : unit, r ← in_ 0x1f7; mret (if ready r then inr r else inl tt)) tt s = Ok r (with_dev s d')
  ∧ quiet (dev s) d' ∧ delay d' = 0%nat ∧ (command d' = IDE_CMD_READ → failed r = bad (drive d') (lba d')).
Proof.
  revert s. induction n as [|n IH]; intros s Hn Hp; destruct (c_ready _ Hp) as (Hr & Hd & _); rewrite Hn in Hr, Hd; pose proof (c_quiet (dev s)) as Hq.
  - exists (fst (inb 0x1f7 (dev s))), (snd (inb 0x1f7 (dev s))). split_and!; [|done|done|].
    + erewrite iterM_inr; [done|]. mstep_with (in_ok 0x1f7 s). by rewrite Hr.
    + intros Hc. rewrite (quiet_drive _ _ Hq), (quiet_lba _ _ Hq). apply c_error; [done|done|]. by rewrite <-(qu_command _ _ Hq).
  - destruct (IH (with_dev s (snd (inb 0x1f7 (dev s))))) as (r & d' & E & Hq' & Hd' & Hb); [by cbn|cbn; by rewrite (quiet_drive _ _ Hq)|].
    exists r, d'. split_and!; [|by etransitivity|done|done].
    erewrite iterM_inl; [exact E|]. mstep_with (in_ok 0x1f7 s). by rewrite Hr.
Qed.

Lemma idewait_ok s ce :
  present (drive (dev s)) = true →
  ∃ r d', idewait ce s = Ok r (with_dev s d') ∧ quiet (dev s) d' ∧ delay d' = 0%nat
  ∧ (ce = true → command d' = IDE_CMD_READ → r = if bad (drive d') (lba d') then -1 else 0).
Proof.
  intros Hp. destruct (poll_ok _ s eq_refl Hp) as (r & d' & E & Hq & Hd & Hb).
  exists (if ce && failed r then -1 else 0), d'. split_and!; [|done|done|].
  - unfold idewait. rewrite bind_get. by mstep_with E.
  - intros -> Hc. by rewrite Hb.
Qed.

(** What [idestart] leaves: the address of the block, the command, and for a write the data on the drive. *)
Definition dirty (bf : buf) : bool := negb (Z.land (b_flags bf) B_DIRTY =? 0).
Definition unit_of (bf : buf) : Z := Z.land (b_dev bf) 1.
Definition write_block (A : Z → Z → block) (a x : Z) (data : block) : Z → Z → block := λ a' x', if (a' =? a) && (x' =? x) then data else A a' x'.

Record started (A : Z → Z → block) (bf : buf) (d : D) : Prop := {
  st_drive : drive d = unit_of bf;
  st_lba : lba d = b_blockno bf;
  st_command : command d = if dirty bf then IDE_CMD_WRITE else IDE_CMD_READ;
  st_media a x : media d a x = if dirty bf then write_block A (unit_of bf) (b_blockno bf) (b_data bf) a x else A a x }.

Lemma head_byte u x : 0 ≤ u < 2 → 0 ≤ x < 16 →
  let v := u8 (Z.lor 0xe0 (Z.lor (Z.shiftl u 4) x)) in Z.land (Z.shiftr v 4) 1 = u ∧ Z.land v 15 = x.
Proof.
  intros Hu Hx. assert (u = 0 ∨ u = 1) as [->| ->] by lia;
    (assert (x = 0 ∨ x = 1 ∨ x = 2 ∨ x = 3 ∨ x = 4 ∨ x = 5 ∨ x = 6 ∨ x = 7 ∨ x = 8 ∨ x = 9 ∨ x = 10 ∨ x = 11 ∨ x = 12 ∨ x = 13 ∨ x = 14 ∨ x = 15) as Hc by lia;
     repeat (destruct Hc as [->|Hc]; [done|]); by subst).
Qed.

(** Writing the task file. *)
Definition set_regs (l : list (Z * Z)) (d : D) : D := foldl (λ d '(p, v), outb p v d) d l.
Fixpoint look (l : list (Z * Z)) (q : Z) (old : Z) : Z :=
  match l with [] => old | (p, v) :: l => look l q (if q =? p then v else old) end.
Lemma set_regs_ok l d :
  delay d = 0%nat → Forall (λ pv, fst pv ∈ [0x1f2; 0x1f3; 0x1f4; 0x1f5; 0x1f6; 0x3f6]) l →
  (∀ q, reg (set_regs l d) q = look l q (reg d q)) ∧ (∀ a x, media (set_regs l d) a x = media d a x) ∧ delay (set_regs l d) = 0%nat.
Proof.
  intros Hd Hl. revert d Hd. induction Hl as [|[p v] l Hp _ IH]; intros d Hd; [done|].
  destruct (c_outb p v d Hp Hd) as (R & M & Hd'). destruct (IH _ Hd') as (R' & M' & Hd''). cbn [set_regs foldl look].
  change (foldl _ (outb p v d) l) with (set_regs l (outb p v d)). split_and!; [|intros a x; by rewrite M', M|done].
  intros q. by rewrite R', R.
Qed.

Lemma out_ok p v s : out p v s = Ok tt (with_dev s (outb p (u8 v) (dev s))).
Proof. by destruct s. Qed.
Lemma out_block_ok b s : out_block b s = Ok tt (with_dev s (outsl b (dev s))).
Proof. by destruct s. Qed.
Lemma with_dev_twice s d d' : with_dev (with_dev s d) d' = with_dev s d'.
Proof. done. Qed.

Lemma dbuf_at_ok s b bf : dbufs s !! b = Some bf → buf_at b s = Ok bf s.
Proof. intros E. unfold buf_at. rewrite bind_get, E. done. Qed.

Ltac out_step := rewrite (bind_ok _ _ _ _ _ (out_ok _ _ _)); cbv beta.

Lemma idestart_ok s A b bf :
  dbufs s !! b = Some bf → 0 ≤ b_blockno bf < FSSIZE → present (drive (dev s)) = true → (∀ a x, media (dev s) a x = A a x) →
  ∃ d', idestart (Some b) s = Ok tt (with_dev s d') ∧ started A bf d'.
Proof.
  intros Eb Hno Hp HA. destruct (idewait_ok s false Hp) as (r & d0 & E0 & Hq & Hd0 & _).
  assert (Hunit : 0 ≤ unit_of bf < 2) by (unfold unit_of; change 1 with (Z.ones 1); rewrite Z.land_ones by lia; zlia).
  unfold FSSIZE in Hno. set (n := b_blockno bf) in *.
  set (regs := [(0x3f6, 0); (0x1f2, 1); (0x1f3, u8 (Z.land n 0xff)); (0x1f4, u8 (Z.land (Z.shiftr n 8) 0xff)); (0x1f5, u8 (Z.land (Z.shiftr n 16) 0xff));
    (0x1f6, u8 (Z.lor 0xe0 (Z.lor (Z.shiftl (unit_of bf) 4) (Z.land (Z.shiftr n 24) 0x0f))))]).
  destruct (set_regs_ok regs d0 Hd0) as (R & Md & Hd1).
  { repeat constructor; cbn [fst]; rewrite !elem_of_cons; tauto. }
  set (d1 := set_regs regs d0) in *.
  assert (Hr1 : drive d1 = unit_of bf ∧ lba d1 = n).
  { assert (0 ≤ Z.shiftr n 24 < 16) as Hs by (rewrite Z.shiftr_div_pow2 by lia; zlia).
    assert (Z.land (Z.shiftr n 24) 0x0f = 0) as E24 by (replace (Z.shiftr n 24) with 0 by (rewrite Z.shiftr_div_pow2 by lia; zlia); done).
    unfold drive, lba. rewrite !R. cbn [regs look Z.eqb Pos.eqb]. rewrite E24. destruct (head_byte (unit_of bf) 0 Hunit ltac:(lia)) as [-> ->]. split; [done|].
    change 255 with (Z.ones 8). rewrite !Z.land_ones, !Z.shiftr_div_pow2 by lia. unfold u8. change (2 ^ 8) with 256. change (2 ^ 16) with 65536. zlia. }
  destruct Hr1 as [Hdr Hlba].
  assert (Erun : ∀ k : M (ide D) unit, (idewait false;; out 0x3f6 0;; out 0x1f2 1;; out 0x1f3 (Z.land n 0xff);; out 0x1f4 (Z.land (Z.shiftr n 8) 0xff);;
    out 0x1f5 (Z.land (Z.shiftr n 16) 0xff);; out 0x1f6 (Z.lor 0xe0 (Z.lor (Z.shiftl (unit_of bf) 4) (Z.land (Z.shiftr n 24) 0x0f)));; k) s = k (with_dev s d1)).
  { intros k. mstep_with E0. do 6 out_step. by rewrite !with_dev_twice. }
  unfold idestart. mstep_with (dbuf_at_ok s b bf Eb). fold n. rewrite (proj2 (Z.leb_gt FSSIZE n)) by (unfold FSSIZE; lia).
  change (BSIZE / SECTOR_SIZE) with 1. cbv zeta. rewrite Z.mul_1_r. change (1 =? 1) with true. change (7 <? 1) with false. cbv iota.
  assert (i32 n = n) as -> by (unfold i32; zlia). fold (unit_of bf). rewrite Erun. clear Erun.
  assert (HM : ∀ a x, media d1 a x = A a x) by (intros a x; by rewrite Md, (qu_media _ _ Hq), HA).
  fold (dirty bf). destruct (dirty bf) eqn:Ed.
  - destruct (c_command IDE_CMD_WRITE d1 Hd1) as (R2 & M2 & C2 & D2). destruct (c_outsl (b_data bf) _ (D2 eq_refl) C2) as (R3 & C3 & M3).
    exists (outsl (b_data bf) (outb 0x1f7 IDE_CMD_WRITE d1)). split; [out_step; exact (out_block_ok _ _)|]. split; rewrite ?Ed.
    + rewrite <-Hdr. unfold drive. by rewrite R3, R2.
    + fold n. rewrite <-Hlba. unfold lba. by rewrite !R3, !R2.
    + done.
    + intros a x. rewrite M3, M2, HM. unfold write_block. fold n. rewrite <-Hdr, <-Hlba. unfold drive, lba. by rewrite !R2.
  - destruct (c_command IDE_CMD_READ d1 Hd1) as (R2 & M2 & C2 & _). exists (outb 0x1f7 IDE_CMD_READ d1). split; [exact (out_ok _ _ _)|]. split; rewrite ?Ed.
    + rewrite <-Hdr. unfold drive. by rewrite R2.
    + fold n. rewrite <-Hlba. unfold lba. by rewrite !R2.
    + done.
    + intros a x. by rewrite M2, HM.
Qed.

(** * The queue *)

Fixpoint chain (nx : nat → option nat) (o : option nat) (q : list nat) : Prop :=
  match q with [] => o = None | b :: q => o = Some b ∧ chain nx (nx b) q end.

Lemma queue_ext nx nx' o q : (∀ b, b ∈ q → nx' b = nx b) → chain nx o q → chain nx' o q.
Proof.
  revert o. induction q as [|b q IH]; intros o E; [done|]. cbn [chain]. intros [-> Hc]. split; [done|]. rewrite E by (apply elem_of_cons; by left).
  apply IH; [|done]. intros c Hin. apply E, elem_of_cons. by right.
Qed.
Lemma chain_snoc nx o q b : NoDup q → b ∉ q → nx b = None → chain nx o q →
  chain (match last q with Some i => <[i := Some b]> nx | None => nx end) (match q with [] => Some b | _ => o end) (q ++ [b]).
Proof.
  intros Hnd Hb Hnx. revert o. induction Hnd as [|c q Hc Hnd IH]; intros o; [done|]. apply not_elem_of_cons in Hb as [Hbc Hb].
  intros [-> Hch]. specialize (IH Hb _ Hch). cbn [app chain]. split; [done|]. destruct q as [|c' q].
  - cbn in *. rewrite fn_lookup_insert, fn_lookup_insert_ne by done. done.
  - change (last (c :: c' :: q)) with (last (c' :: q)). destruct (last (c' :: q)) as [i|] eqn:El; [|by apply last_None in El].
    rewrite fn_lookup_insert_ne; [exact IH|]. intros ->. apply Hc. apply last_Some in El as [l ->]. apply elem_of_app. right. by apply list_elem_of_singleton.
Qed.

(** The end of the queue is found. *)
Lemma find_end s fuel pp q :
  chain (qnext s) (deref_pp s pp) q → (length q < fuel)%nat →
  iterM fuel (λ pp, mret (match deref_pp s pp with None => inr pp | Some i => inl (Some i) end)) pp s
  = Ok (match last q with Some i => Some i | None => pp end) s.
Proof.
  revert fuel pp. induction q as [|b q IH]; intros fuel pp Hc Hf; (destruct fuel as [|fuel]; [cbn in Hf; lia|]).
  - erewrite iterM_inr; [done|]. cbn in Hc. by rewrite Hc.
  - destruct Hc as [E Hc]. erewrite iterM_inl; [|by rewrite E]. rewrite (IH fuel (Some b) Hc) by (cbn in Hf; lia).
    destruct q as [|c q]; [done|]. change (last (b :: c :: q)) with (last (c :: q)). destruct (last (c :: q)) eqn:El; [done|by apply last_None in El].
Qed.

Definition needs_io (bf : buf) : bool := negb (Z.land (b_flags bf) (Z.lor B_VALID B_DIRTY) =? B_VALID).
Record request (bf : buf) : Prop := {
  rq_needs : needs_io bf = true;
  rq_block : 0 ≤ b_blockno bf < FSSIZE;
  rq_drive : present (unit_of bf) = true }.

(** The driver, with the requests [q] and the drives as they are before the first of these. *)
Record ide_wf (s : ide D) (q : list nat) (A : Z → Z → block) : Prop := {
  wf_lock : idelock s = false;
  wf_chain : chain (qnext s) (idequeue s) q;
  wf_nodup : NoDup q;
  wf_request b : b ∈ q → ∃ bf, dbufs s !! b = Some bf ∧ request bf;
  wf_present : present (drive (dev s)) = true;
  wf_disk : match q with
    | [] => ∀ a x, media (dev s) a x = A a x
    | b :: _ => ∃ bf, dbufs s !! b = Some bf ∧ started A bf (dev s) end;
  wf_asleep b : b ∈ asleep s → b ∈ q }.

Lemma wf_length s q A : ide_wf s q A → (length q ≤ length (dbufs s))%nat.
Proof.
  intros Hw. replace (length (dbufs s)) with (length (seq 0 (length (dbufs s)))) by apply length_seq. apply submseteq_length, NoDup_submseteq; [apply Hw|].
  intros b Hb. destruct (wf_request _ _ _ Hw b Hb) as (bf & E & _). apply elem_of_seq. apply lookup_lt_Some in E. lia.
Qed.

Lemma iderw_wait_ok s b bf :
  dbufs s !! b = Some bf → idelock s = true →
  iderw_wait b s = if needs_io bf then Ok (inl tt) (mk_ide false (idequeue s) (qnext s) (havedisk1 s) (dbufs s) (asleep s ∪ {[b]}) (dev s))
    else Ok (inr tt) (mk_ide false (idequeue s) (qnext s) (havedisk1 s) (dbufs s) (asleep s) (dev s)).
Proof.
  intros E Hl. unfold iderw_wait. mstep_with (dbuf_at_ok s b bf E). fold (needs_io bf). destruct s. cbn in *. subst. by destruct (needs_io bf).
Qed.

(** [iderw] puts the request at the end of the queue; the process sleeps. *)
Lemma iderw_ok s q A pid b bf :
  ide_wf s q A → b ∉ q → dbufs s !! b = Some bf → b_lock bf = mk_sleeplock true pid → request bf → (b_dev bf = 0 ∨ havedisk1 s = true) →
  ∃ s', iderw pid b s = Ok (inl tt) s' ∧ ide_wf s' (q ++ [b]) A ∧ dbufs s' = dbufs s ∧ havedisk1 s' = havedisk1 s ∧ asleep s' = asleep s ∪ {[b]}.
Proof.
  intros Hw Hb Eb Hl Hrq Hdev. pose proof (wf_length _ _ _ Hw) as Hlen. pose proof Hw as [W1 W2 W3 W4 W5 W6 W7].
  set (nx := <[b := None]> (qnext s)).
  assert (Hc : chain nx (idequeue s) q).
  { eapply queue_ext; [|exact W2]. intros c Hin. unfold nx. rewrite fn_lookup_insert_ne; [done|]. by intros ->. }
  pose proof (chain_snoc nx _ q b W3 Hb (fn_lookup_insert _ _ _) Hc) as Hc'.
  set (nx' := match last q with Some i => <[i := Some b]> nx | None => nx end) in *. set (o' := match q with [] => Some b | _ => idequeue s end) in *.
  set (s2 := mk_ide true o' nx' (havedisk1 s) (dbufs s) (asleep s) (dev s)).
  assert (Hstart : ∃ d', (if bool_decide (o' = Some b) then idestart (Some b) else mret tt) s2 = Ok tt (with_dev s2 d')
    ∧ present (drive d') = true ∧ match q ++ [b] with [] => True | c :: _ => ∃ bf, dbufs s !! c = Some bf ∧ started A bf d' end).
  { destruct q as [|c q]; cbn [app].
    - destruct (idestart_ok s2 A b bf Eb (rq_block _ Hrq) W5 W6) as (d' & E & Hs). exists d'. unfold o' at 1. rewrite bool_decide_eq_true_2 by done.
      split_and!; [exact E| |by exists bf]. rewrite (st_drive _ _ _ Hs). apply Hrq.
    - exists (dev s). rewrite bool_decide_eq_false_2; [done|]. unfold o'. destruct W2 as [-> _]. intros [= ->]. apply Hb. apply elem_of_cons. by left. }
  destruct Hstart as (d' & Est & Hp' & Hd').
  exists (mk_ide false o' nx' (havedisk1 s) (dbufs s) (asleep s ∪ {[b]}) d'). split_and!; [| |done|done|done].
  - unfold iderw. mstep_with (dbuf_at_ok s b bf Eb). rewrite Hl. cbn [sl_locked sl_pid]. rewrite Z.eqb_refl. cbn [andb negb].
    pose proof (rq_needs _ Hrq) as Hn. unfold needs_io in Hn. apply negb_true_iff in Hn. rewrite Hn, bind_get.
    assert (negb (b_dev bf =? 0) && negb (havedisk1 s) = false) as -> by (destruct Hdev as [->| ->]; [done|apply andb_false_r]).
    assert (El : lock s = Ok tt (mk_ide true (idequeue s) (qnext s) (havedisk1 s) (dbufs s) (asleep s) (dev s))) by (unfold lock; rewrite bind_get, W1; by destruct s).
    mstep_with El. rewrite bind_modify, bind_get. set (s1 := mk_ide true (idequeue s) nx (havedisk1 s) (dbufs s) (asleep s) (dev s)).
    change (_ <| qnext ::= _ |>) with s1. mstep_with (find_end s1 (S (S (length (dbufs s)))) None q Hc ltac:(lia)).
    assert (set_pp (match last q with Some i => Some i | None => None end) b s1 = Ok tt s2) as E2.
    { unfold s2, s1, nx', o'. destruct q as [|c q]; [done|]. destruct (last (c :: q)) eqn:Eq; [done|by apply last_None in Eq]. }
    mstep_with E2. rewrite bind_get. change (idequeue s2) with o'. mstep_with Est. rewrite (iderw_wait_ok (with_dev s2 d') b bf Eb eq_refl). by rewrite (rq_needs _ Hrq).
  - split; cbn; try done.
    + apply NoDup_app. split_and!; [done| |apply NoDup_singleton]. intros c Hin Hc1%list_elem_of_singleton. subst. done.
    + intros c [Hc0| ->%list_elem_of_singleton]%elem_of_app; [by apply W4|by exists bf].
    + by destruct q.
    + intros c [Hin%W7| ->%elem_of_singleton]%elem_of_union; apply elem_of_app; [by left|right; by apply list_elem_of_singleton].
Qed.

Lemma iderw_resume_ok s q A b bf :
  ide_wf s q A → dbufs s !! b = Some bf → (needs_io bf = true → b ∈ q) →
  ∃ s', iderw_resume b s = Ok (if needs_io bf then inl tt else inr tt) s' ∧ ide_wf s' q A ∧ dbufs s' = dbufs s ∧ havedisk1 s' = havedisk1 s.
Proof.
  intros Hw Eb Hq. pose proof Hw as [W1 W2 W3 W4 W5 W6 W7].
  assert (El : lock s = Ok tt (mk_ide true (idequeue s) (qnext s) (havedisk1 s) (dbufs s) (asleep s) (dev s))) by (unfold lock; rewrite bind_get, W1; by destruct s).
  unfold iderw_resume. mstep_with El. rewrite (iderw_wait_ok (mk_ide true (idequeue s) (qnext s) (havedisk1 s) (dbufs s) (asleep s) (dev s)) b bf Eb eq_refl). destruct (needs_io bf).
  - eexists. split_and!; [done| |done|done]. split; cbn; try done. intros c [Hin%W7| ->%elem_of_singleton]%elem_of_union; [done|by apply Hq].
  - eexists. split_and!; [done| |done|done]. by split.
Qed.

(** What the drive does with a request: a write puts the data on the drive, a read takes it from there. *)
Definition serve_disk (bf : buf) A : Z → Z → block := if dirty bf then write_block A (unit_of bf) (b_blockno bf) (b_data bf) else A.

Lemma alter_as_insert {X} (f : X → X) (l : list X) i x : l !! i = Some x → alter f i l = <[i := f x]> l.
Proof.
  intros E. apply list_eq. intros j. destruct (decide (i = j)) as [<-|].
  - rewrite list_lookup_alter_eq, E, list_lookup_insert_eq; [done|by eapply lookup_lt_Some].
  - by rewrite list_lookup_alter_ne, list_lookup_insert_ne.
Qed.
Definition with_buf (b : nat) (bf : buf) s : ide D := mk_ide (idelock s) (idequeue s) (qnext s) (havedisk1 s) (<[b := bf]> (dbufs s)) (asleep s) (dev s).
Lemma upd_buf_at_ok b f bf s : dbufs s !! b = Some bf → upd_buf_at b f s = Ok tt (with_buf b (f bf) s).
Proof. intros E. destruct s. unfold with_buf. cbn in *. by rewrite <-(alter_as_insert f _ _ _ E). Qed.

(** The data of the request at the head of the queue. *)
Definition new_data A (bf : buf) : block := if dirty bf || bad (unit_of bf) (b_blockno bf) then b_data bf else A (unit_of bf) (b_blockno bf).

Lemma transfer_ok s A b bf :
  dbufs s !! b = Some bf → started A bf (dev s) → present (drive (dev s)) = true →
  ∃ d', (if Z.land (b_flags bf) B_DIRTY =? 0 then
         r ← idewait true;
         if 0 <=? r then data ← in_block; upd_buf_at b (λ bf, bf <| b_data := data |>) else mret tt
       else mret tt) s = Ok tt (with_buf b (bf <| b_data := new_data A bf |>) (with_dev s d'))
  ∧ present (drive d') = true ∧ ∀ a x, media d' a x = serve_disk bf A a x.
Proof.
  intros Eb [Sdr Slb Scm Smd] Hp. unfold new_data, serve_disk. unfold dirty in *.
  assert (Hid : ∀ d', with_buf b (bf <| b_data := b_data bf |>) (with_dev s d') = with_dev s d').
  { intros d'. unfold with_buf, with_dev. cbn. rewrite list_insert_id; [done|]. by destruct bf. }
  destruct (Z.eqb_spec (Z.land (b_flags bf) B_DIRTY) 0) as [E0|N0]; cbn [negb orb] in *.
  - destruct (idewait_ok s true Hp) as (r & d1 & E1 & Hq & Hd1 & Hr). rewrite (quiet_drive _ _ Hq), (quiet_lba _ _ Hq), Sdr, Slb in Hr.
    assert (Hcm : command d1 = IDE_CMD_READ) by (by rewrite (qu_command _ _ Hq)). specialize (Hr eq_refl Hcm). mstep_with E1. rewrite Hr.
    destruct (bad (unit_of bf) (b_blockno bf)) eqn:Ebad.
    + exists d1. rewrite Hid. split_and!; [done|by rewrite (quiet_drive _ _ Hq)|intros a x; by rewrite (qu_media _ _ Hq)].
    + destruct (c_insl d1 Hd1 Hcm) as (Ed & Er & Em); [by rewrite (quiet_drive _ _ Hq), (quiet_lba _ _ Hq), Sdr, Slb|].
      rewrite (quiet_drive _ _ Hq), (quiet_lba _ _ Hq), Sdr, Slb in Ed. exists (snd (insl d1)). split_and!.
      * assert (Ei : in_block (with_dev s d1) = Ok (fst (insl d1)) (with_dev s (snd (insl d1)))) by (unfold in_block; destruct s; cbn; by destruct (insl d1)).
        change (0 <=? 0) with true. cbv iota. mstep_with Ei. rewrite (upd_buf_at_ok b _ bf) by exact Eb.
        by rewrite Ed, (qu_media _ _ Hq), Smd.
      * unfold drive. rewrite Er. fold (drive d1). by rewrite (quiet_drive _ _ Hq).
      * intros a x. by rewrite Em, (qu_media _ _ Hq).
  - exists (dev s). rewrite Hid. split_and!; [by destruct s|done|done].
Qed.

Definition done_flags (fl : Z) : Z := Z.land (Z.lor fl B_VALID) (Z.lnot B_DIRTY).
Definition served A (bf : buf) : buf := bf <| b_data := new_data A bf |> <| b_flags := done_flags (b_flags bf) |>.

Lemma done_flags_ok fl : Z.land (done_flags fl) (Z.lor B_VALID B_DIRTY) = B_VALID.
Proof.
  unfold done_flags, B_VALID, B_DIRTY. apply Z.bits_inj'. intros k Hk. rewrite !Z.land_spec, !Z.lor_spec, Z.lnot_spec by done.
  destruct (decide (k < 3)) as [Hlt|Hge].
  - assert (k = 0 ∨ k = 1 ∨ k = 2) as Hc by lia. destruct Hc as [->|[->| ->]]; cbn; by rewrite ?andb_false_r, ?orb_true_r.
  - assert (Z.testbit 2 k = false ∧ Z.testbit 4 k = false) as [-> ->]; [|by rewrite !orb_false_r, andb_false_r].
    split; apply Z.bits_above_log2; [lia|cbn; lia|lia|cbn; lia].
Qed.
Lemma served_done A bf : needs_io (served A bf) = false.
Proof. unfold needs_io. change (b_flags (served A bf)) with (done_flags (b_flags bf)). by rewrite done_flags_ok. Qed.

(** An interrupt finishes the request at the head of the queue, wakes its process and starts the next request. *)
Lemma ideintr_ok s b q A bf :
  ide_wf s (b :: q) A → dbufs s !! b = Some bf →
  ∃ s', ideintr s = Ok tt s' ∧ ide_wf s' q (serve_disk bf A) ∧ dbufs s' = <[b := served A bf]> (dbufs s) ∧ havedisk1 s' = havedisk1 s
  ∧ asleep s' = asleep s ∖ {[b]}.
Proof.
  intros Hw Eb. pose proof Hw as [W1 [W2 W2'] [Hbq W3]%NoDup_cons W4 W5 (bf0 & Eb0 & Hst) W7]. rewrite Eb in Eb0. injection Eb0 as <-.
  set (s1 := mk_ide true (qnext s b) (qnext s) (havedisk1 s) (dbufs s) (asleep s) (dev s)).
  destruct (transfer_ok s1 A b bf Eb Hst W5) as (d1 & E1 & Hp1 & Hm1).
  set (s2 := with_buf b (bf <| b_data := new_data A bf |>) (with_dev s1 d1)) in *.
  assert (Hlt : (b < length (dbufs s))%nat) by (by eapply lookup_lt_Some).
  assert (Eb2 : dbufs s2 !! b = Some (bf <| b_data := new_data A bf |>)) by (by apply list_lookup_insert_eq).
  set (s3 := mk_ide true (qnext s b) (qnext s) (havedisk1 s) (<[b := served A bf]> (dbufs s)) (asleep s ∖ {[b]}) d1).
  assert (Hoth : ∀ c, c ∈ q → dbufs s3 !! c = dbufs s !! c).
  { intros c Hc. cbn. apply list_lookup_insert_ne. by intros ->. }
  assert (Hnext : ∃ d', (if bool_decide (idequeue s3 = None) then mret tt else idestart (idequeue s3)) s3 = Ok tt (with_dev s3 d')
    ∧ present (drive d') = true ∧ match q with [] => ∀ a x, media d' a x = serve_disk bf A a x
      | c :: _ => ∃ cf, dbufs s3 !! c = Some cf ∧ started (serve_disk bf A) cf d' end).
  { destruct q as [|c q]; cbn [chain] in W2'; change (idequeue s3) with (qnext s b).
    - exists d1. rewrite bool_decide_eq_true_2 by done. by split_and!.
    - destruct W2' as [-> _]. rewrite bool_decide_eq_false_2 by done. destruct (W4 c) as (cf & Ec & Hrq); [apply elem_of_cons; right; apply elem_of_cons; by left|].
      assert (Ec3 : dbufs s3 !! c = Some cf) by (rewrite Hoth; [done|apply elem_of_cons; by left]).
      destruct (idestart_ok s3 (serve_disk bf A) c cf Ec3 (rq_block _ Hrq) Hp1 Hm1) as (d' & E & Hs). exists d'. split_and!; [done| |by exists cf].
      rewrite (st_drive _ _ _ Hs). apply Hrq. }
  destruct Hnext as (d' & E3 & Hp' & Hd').
  exists (mk_ide false (qnext s b) (qnext s) (havedisk1 s) (<[b := served A bf]> (dbufs s)) (asleep s ∖ {[b]}) d'). split_and!; [| |done|done|done].
  - assert (El : lock s = Ok tt (mk_ide true (idequeue s) (qnext s) (havedisk1 s) (dbufs s) (asleep s) (dev s))) by (unfold lock; rewrite bind_get, W1; by destruct s).
    unfold ideintr. mstep_with El. rewrite bind_get. cbn [idequeue]. rewrite W2, bind_modify. change (_ <| idequeue ::= _ |>) with s1.
    mstep_with (dbuf_at_ok s1 b bf Eb). mstep_with E1. mstep_with (upd_buf_at_ok b (λ bf0, bf0 <| b_flags := Z.land (Z.lor (b_flags bf0) B_VALID) (Z.lnot B_DIRTY) |>) _ s2 Eb2).
    rewrite bind_modify, bind_get.
    assert (E4 : over asleep (λ _, asleep s2 ∖ {[b]}) (with_buf b (served A bf) s2) = s3).
    { unfold s3, s2, with_buf, with_dev. cbn. by rewrite list_insert_insert_eq. }
    change (over asleep _ _) with (over asleep (λ _, asleep s2 ∖ {[b]}) (with_buf b (served A bf) s2)). rewrite E4. mstep_with E3. done.
  - split; cbn; try done.
    + intros c Hc. destruct (W4 c) as (cf & Ec & Hrq); [apply elem_of_cons; by right|]. exists cf. split; [|done]. rewrite <-Ec. by apply Hoth.
    + intros c [Hc1 Hc2]%elem_of_difference. destruct (proj1 (elem_of_cons _ _ _) (W7 c Hc1)) as [->|]; [|done]. by destruct Hc2; apply elem_of_singleton.
Qed.

Lemma ideintr_idle s A : ide_wf s [] A → ideintr s = Ok tt s.
Proof.
  intros [W1 W2 _ _ _ _ _]. unfold ideintr, lock, unlock. destruct s as [lk o nx h bs as_ d]. cbn in *. by subst.
Qed.

(** ** Start-up *)

Definition boot (bs : list buf) d : ide D := mk_ide false None (λ _, None) false bs ∅ d.
Definition probe : Z → M (ide D) (Z + unit) := λ i,
  if i <? 1000 then
    r ← in_ 0x1f7;
    if negb (r =? 0) then modify (λ s, s <| havedisk1 := true |>);; mret (inr tt) else mret (inl (i + 1))
  else mret (inr tt).

Lemma probe_ok k i s :
  i = 1000 - Z.of_nat k → havedisk1 s = false → delay (dev s) = 0%nat →
  ∃ d', iterM (S k) probe i s = Ok tt (mk_ide (idelock s) (idequeue s) (qnext s) (bool_decide (0 < k)%nat && present (drive (dev s))) (dbufs s) (asleep s) d')
  ∧ quiet (dev s) d' ∧ delay d' = 0%nat.
Proof.
  revert i s. induction k as [|k IH]; intros i s Hi Hh Hd.
  - exists (dev s). split_and!; [|done|done]. erewrite iterM_inr; [done|]. unfold probe. rewrite (proj2 (Z.ltb_ge i 1000)) by lia. cbn. by destruct s; cbn in *; subst.
  - rewrite bool_decide_eq_true_2 by lia. cbn [andb]. pose proof (c_quiet (dev s)) as Hq. destruct (present (drive (dev s))) eqn:Hp.
    + destruct (c_ready _ Hp) as (_ & Hd' & Hr). rewrite Hd in Hd'. exists (snd (inb 0x1f7 (dev s))). split_and!; [|done|done].
      erewrite iterM_inr; [done|]. unfold probe. rewrite (proj2 (Z.ltb_lt i 1000)) by lia. mstep_with (in_ok 0x1f7 s). by rewrite (proj2 (Z.eqb_neq _ 0)).
    + destruct (c_absent _ Hp) as (Hr & Hd'). set (d1 := snd (inb 0x1f7 (dev s))) in *.
      destruct (IH (i + 1) (with_dev s d1)) as (d' & E & Hq' & Hd2); [lia|done|exact (eq_trans Hd' Hd)|]. exists d'. split_and!; [|by etransitivity|done].
      erewrite iterM_inl; [|unfold probe; rewrite (proj2 (Z.ltb_lt i 1000)) by lia; mstep_with (in_ok 0x1f7 s); by rewrite Hr].
      fold d1. rewrite E. cbn. by rewrite (quiet_drive _ _ Hq), Hp, andb_false_r.
Qed.

Lemma ideinit_ok bs d :
  present (drive d) = true →
  ∃ d', ideinit (boot bs d) = Ok tt (mk_ide false None (λ _, None) (present 1) bs ∅ d') ∧ present (drive d') = true ∧ ∀ a x, media d' a x = media d a x.
Proof.
  intros Hp. destruct (idewait_ok (boot bs d) false Hp) as (r & d0 & E0 & Hq0 & Hd0 & _).
  assert (Hout : ∀ v d, delay d = 0%nat → (∀ q, reg (outb 0x1f6 v d) q = if q =? 0x1f6 then v else reg d q) ∧
    (∀ a x, media (outb 0x1f6 v d) a x = media d a x) ∧ delay (outb 0x1f6 v d) = 0%nat).
  { intros v d1 Hd1. apply c_outb; [rewrite !elem_of_cons; tauto|done]. }
  destruct (Hout 0xf0 d0 Hd0) as (R1 & M1 & D1). set (d1 := outb 0x1f6 0xf0 d0) in *.
  assert (Hdr1 : drive d1 = 1) by (unfold drive; by rewrite R1).
  destruct (probe_ok 1000 0 (with_dev (boot bs d) d1) eq_refl eq_refl D1) as (d2 & E2 & Hq2 & D2). cbn [boot with_dev dev] in E2. rewrite Hdr1 in E2.
  destruct (Hout 0xe0 d2 D2) as (R3 & M3 & D3). exists (outb 0x1f6 0xe0 d2). split_and!.
  - unfold ideinit. rewrite bind_modify. change (_ <| idelock := false |>) with (boot bs d). mstep_with E0. out_step. fold probe.
    change (with_dev (with_dev (boot bs d) d0) _) with (with_dev (boot bs d) d1). mstep_with E2. rewrite out_ok. done.
  - unfold drive. rewrite R3. apply c_boot.
  - intros a x. by rewrite M3, (qu_media _ _ Hq2), M1, (qu_media _ _ Hq0).
Qed.
End driver.

(** * The driver as a queue of requests *)

(** What can happen: a process with pid [pid] calls [iderw] with its buffer [b]; the disk interrupts, at any time; the process that waits
    with buffer [b] is scheduled, if it does not sleep; the contents of a buffer that no call of [iderw] has are changed. *)
Inductive event := Call (pid : Z) (b : nat) | Interrupt | Run (b : nat) | Own (b : nat) (bf : buf).

Section events.
Context {D} `{Controller D}.

(** The driver, and the buffers whose processes are in a call of [iderw]. *)
Definition perform (e : event) : ide D * gset nat → option (ide D * gset nat) := λ '(s, w),
  match e with
  | Call pid b => match iderw pid b s with Ok (inl _) s' => Some (s', w ∪ {[b]}) | Ok (inr _) s' => Some (s', w) | _ => None end
  | Interrupt => match ideintr s with Ok _ s' => Some (s', w) | _ => None end
  | Run b =>
      if bool_decide (b ∈ asleep s) then Some (s, w)
      else match iderw_resume b s with Ok (inl _) s' => Some (s', w) | Ok (inr _) s' => Some (s', w ∖ {[b]}) | _ => None end
  | Own b bf => Some (with_buf b bf s, w)
  end.
Fixpoint run_events (es : list event) (x : ide D * gset nat) : option (ide D * gset nat) :=
  match es with [] => Some x | e :: es => perform e x ≫= run_events es end.

(** The specification: the requests are done whole, in the order of the calls, one at an interrupt. *)
Record requests := mk_requests { r_queue : list nat; r_disk : Z → Z → block; r_bufs : list buf; r_waiting : gset nat }.

Definition spec (e : event) (a : requests) : requests :=
  let '(mk_requests q A bs w) := a in
  match e with
  | Call _ b => mk_requests (q ++ [b]) A bs (w ∪ {[b]})
  | Interrupt =>
      match q with
      | [] => a
      | b :: q => match bs !! b with Some bf => mk_requests q (serve_disk bf A) (<[b := served A bf]> bs) w | None => a end
      end
  | Run b => if bool_decide (b ∈ q) then a else mk_requests q A bs (w ∖ {[b]})
  | Own b bf => mk_requests q A (<[b := bf]> bs) w
  end.

(** What the callers of [iderw] have to see to. *)
Definition legal (e : event) (a : requests) : Prop :=
  match e with
  | Call pid b => b ∉ r_waiting a ∧ ∃ bf, r_bufs a !! b = Some bf ∧ b_lock bf = mk_sleeplock true pid ∧ request bf
      ∧ (b_dev bf = 0 ∨ present 1 = true)
  | Interrupt => True
  | Run b => b ∈ r_waiting a
  | Own b bf => b ∉ r_waiting a
  end.
Fixpoint legal_run (es : list event) (a : requests) : Prop :=
  match es with [] => True | e :: es => legal e a ∧ legal_run es (spec e a) end.

Record refines (x : ide D * gset nat) (a : requests) : Prop := {
  rf_wf : ide_wf (fst x) (r_queue a) (r_disk a);
  rf_bufs : dbufs (fst x) = r_bufs a;
  rf_waiting : snd x = r_waiting a;
  rf_disk1 : havedisk1 (fst x) = present 1;
  rf_queue b : b ∈ r_queue a → b ∈ r_waiting a;
  rf_done b : b ∈ r_waiting a → ∃ bf, r_bufs a !! b = Some bf ∧ (needs_io bf = true → b ∈ r_queue a) }.

Lemma perform_refines e x a : refines x a → legal e a → ∃ x', perform e x = Some x' ∧ refines x' (spec e a).
Proof.
  destruct x as [s w], a as [q A bs w']. intros [Hw Hb Hwt Hd Hq Hdone] Hl. cbn in *. subst bs w'. destruct e as [pid b| |b|b bf]; cbn in *.
  - destruct Hl as (Hnw & bf & Eb & Hlk & Hrq & Hdev). destruct (iderw_ok s q A pid b bf Hw ltac:(naive_solver) Eb Hlk Hrq ltac:(by rewrite Hd)) as (s' & E & Hw' & Eb' & Ed & _).
    rewrite E. eexists. split; [done|]. split; cbn; try done; [congruence| |].
    + intros c [Hc%Hq| ->%list_elem_of_singleton]%elem_of_app; set_solver.
    + intros c [Hc| ->%elem_of_singleton]%elem_of_union.
      * destruct (Hdone c Hc) as (cf & Ec & Hn). exists cf. split; [done|]. intros Hc2%Hn. apply elem_of_app. by left.
      * exists bf. split; [done|]. intros _. apply elem_of_app. right. by apply list_elem_of_singleton.
  - destruct q as [|b q]; [rewrite (ideintr_idle s A Hw); eexists; split; [done|]; by split|].
    destruct (wf_request _ _ _ Hw b) as (bf & Eb & Hrq); [apply elem_of_cons; by left|]. rewrite Eb.
    destruct (ideintr_ok s b q A bf Hw Eb) as (s' & E & Hw' & Eb' & Ed & _). rewrite E. eexists. split; [done|]. split; cbn; try done; [congruence| |].
    + intros c Hc. apply Hq, elem_of_cons. by right.
    + intros c Hc. destruct (Hdone c Hc) as (cf & Ec & Hn). destruct (decide (b = c)) as [<-|Hne].
      * exists (served A bf). split; [apply list_lookup_insert_eq; by eapply lookup_lt_Some|]. by rewrite served_done.
      * exists cf. split; [by rewrite list_lookup_insert_ne|]. intros Hin%Hn. apply elem_of_cons in Hin as [->|]; done.
  - destruct (Hdone b Hl) as (bf & Eb & Hn). destruct (iderw_resume_ok s q A b bf Hw Eb Hn) as (s' & E & Hw' & Eb' & Ed).
    destruct (decide (b ∈ q)) as [Hbq|Hbq].
    + rewrite (bool_decide_eq_true_2 (b ∈ q)) by done. destruct (wf_request _ _ _ Hw b Hbq) as (bf' & Eb2 & Hrq). rewrite Eb in Eb2. injection Eb2 as <-.
      rewrite (rq_needs _ Hrq) in E. case_bool_decide; [eexists; split; [done|]; by split|]. rewrite E. eexists. split; [done|]. split; cbn; try done; congruence.
    + rewrite (bool_decide_eq_false_2 (b ∈ q)) by done. rewrite bool_decide_eq_false_2 by (intros Hin; by apply Hbq, (wf_asleep _ _ _ Hw)).
      assert (needs_io bf = false) as Hnf by (apply not_true_is_false; auto). rewrite Hnf in E. rewrite E. eexists. split; [done|]. split; cbn; try done.
      * congruence.
      * intros c Hc. apply elem_of_difference. split; [by apply Hq|]. by intros ->%elem_of_singleton.
      * intros c [Hc _]%elem_of_difference. by apply Hdone.
  - eexists. split; [done|]. pose proof Hw as [W1 W2 W3 W4 W5 W6 W7]. assert (Hbq : b ∉ q) by (intros Hin; by apply Hl, Hq).
    assert (Hoth : ∀ c, c ∈ q → <[b := bf]> (dbufs s) !! c = dbufs s !! c) by (intros c Hc; apply list_lookup_insert_ne; by intros ->).
    split; cbn; try done.
    + split; cbn; try done; [intros c Hc; rewrite Hoth by done; by apply W4|]. destruct q as [|c q]; [done|]. destruct W6 as (cf & Ec & Hs). exists cf.
      split; [|done]. rewrite Hoth; [done|apply elem_of_cons; by left].
    + intros c Hc. destruct (Hdone c Hc) as (cf & Ec & Hn). exists cf. split; [|done]. rewrite list_lookup_insert_ne; [done|]. by intros ->.
Qed.

Lemma run_refines es x a : refines x a → legal_run es a → ∃ x', run_events es x = Some x' ∧ refines x' (foldl (λ a e, spec e a) a es).
Proof.
  revert x a. induction es as [|e es IH]; intros x a Hr; [by exists x|]. intros [Hl Hls]. destruct (perform_refines e x a Hr Hl) as (x1 & E & Hr1).
  destruct (IH x1 _ Hr1 Hls) as (x' & E' & Hr'). exists x'. cbn [run_events foldl]. by rewrite E.
Qed.

(** ** Healthy drives *)

(** What [iderw] promises: a write puts the data of the buffer on the drive, a read takes the block that is there, and the buffer is then valid and
    not dirty. *)
Definition completed A (bf : buf) : buf :=
  bf <| b_data := if dirty bf then b_data bf else A (unit_of bf) (b_blockno bf) |> <| b_flags := done_flags (b_flags bf) |>.
Definition ideal (e : event) (a : requests) : requests :=
  let '(mk_requests q A bs w) := a in
  match e with
  | Call _ b => mk_requests (q ++ [b]) A bs (w ∪ {[b]})
  | Interrupt =>
      match q with
      | [] => a
      | b :: q => match bs !! b with Some bf => mk_requests q (serve_disk bf A) (<[b := completed A bf]> bs) w | None => a end
      end
  | Run b => if bool_decide (b ∈ q) then a else mk_requests q A bs (w ∖ {[b]})
  | Own b bf => mk_requests q A (<[b := bf]> bs) w
  end.

(** The callers do what they have to, and no request is for a bad sector. *)
Definition healthy (e : event) (a : requests) : Prop :=
  match e with
  | Call _ b => ∀ bf, r_bufs a !! b = Some bf → bad (unit_of bf) (b_blockno bf) = false
  | _ => True
  end.
Fixpoint healthy_run (es : list event) (a : requests) : Prop :=
  match es with [] => True | e :: es => legal e a ∧ healthy e a ∧ healthy_run es (ideal e a) end.

Definition good_queue (a : requests) : Prop :=
  ∀ b, b ∈ r_queue a → b ∈ r_waiting a ∧ ∀ bf, r_bufs a !! b = Some bf → bad (unit_of bf) (b_blockno bf) = false.

Lemma healthy_step e a : good_queue a → legal e a → healthy e a → spec e a = ideal e a ∧ good_queue (ideal e a).
Proof.
  destruct a as [q A bs w]. unfold good_queue. cbn. intros Hg Hl Hh. destruct e as [pid b| |b|b bf]; cbn in *.
  - split; [done|]. intros c [Hc| ->%list_elem_of_singleton]%elem_of_app; [destruct (Hg c Hc); set_solver|set_solver].
  - destruct q as [|b q]; [done|]. destruct (bs !! b) as [bf|] eqn:Eb; [|by split]. destruct (Hg b) as [_ Hb]; [by left|].
    assert (served A bf = completed A bf) as ->.
    { unfold served, completed, new_data. rewrite (Hb bf Eb), orb_false_r. done. }
    split; [done|]. cbn. intros c Hc. destruct (Hg c) as [Hw Hc2]; [by right|]. split; [done|]. intros cf Ec.
    destruct (decide (b = c)) as [<-|Hne]; [|rewrite list_lookup_insert_ne in Ec by done; auto].
    rewrite list_lookup_insert_eq in Ec by (by eapply lookup_lt_Some). injection Ec as <-. exact (Hb bf Eb).
  - case_bool_decide; [done|]. split; [done|]. cbn. intros c Hc. destruct (Hg c Hc) as [Hw Hc2]. split; [|done].
    apply elem_of_difference. split; [done|]. by intros ->%elem_of_singleton.
  - split; [done|]. intros c Hc. destruct (Hg c Hc) as [Hw Hc2]. split; [done|]. intros cf. rewrite list_lookup_insert_ne by (by intros ->). auto.
Qed.

Lemma healthy_spec es a : good_queue a → healthy_run es a → legal_run es a ∧ foldl (λ a e, spec e a) a es = foldl (λ a e, ideal e a) a es.
Proof.
  revert a. induction es as [|e es IH]; intros a Hg; [done|]. intros (Hl & Hh & Hr). destruct (healthy_step e a Hg Hl Hh) as [E Hg'].
  destruct (IH _ Hg' Hr) as [Hlr Ef]. cbn [legal_run foldl]. by rewrite E.
Qed.

(** ** Progress *)

Fixpoint interrupts (es : list event) : nat := match es with [] => 0 | Interrupt :: es => S (interrupts es) | _ :: es => interrupts es end.
Definition calls (b : nat) (e : event) : Prop := match e with Call _ c => b = c | _ => False end.

Lemma stays_out b e a : b ∉ r_queue a → ¬ calls b e → b ∉ r_queue (spec e a).
Proof.
  destruct a as [q A bs w]. cbn. intros Hb Hc. destruct e as [pid c| |c|c bf]; cbn in *; [|destruct q as [|c q]|by case_bool_decide|done].
  - intros [?| ->%list_elem_of_singleton]%elem_of_app; done.
  - done.
  - destruct (bs !! c); [|done]. by apply not_elem_of_cons in Hb as [_ Hb].
Qed.
Lemma stays_out_run b es a : b ∉ r_queue a → Forall (λ e, ¬ calls b e) es → b ∉ r_queue (foldl (λ a e, spec e a) a es).
Proof. revert a. induction es as [|e es IH]; intros a Hb; [done|]. intros [He Hes]%Forall_cons. apply IH; [by apply stays_out|done]. Qed.

Lemma leaves_queue es x a b k :
  refines x a → legal_run es a → r_queue a !! k = Some b → (k < interrupts es)%nat → Forall (λ e, ¬ calls b e) es →
  b ∉ r_queue (foldl (λ a e, spec e a) a es).
Proof.
  revert x a k. induction es as [|e es IH]; intros x a k Hr Hl Hk Hlt Hnc; [cbn in Hlt; lia|]. destruct Hl as [Hl Hls]. apply Forall_cons in Hnc as [Hn Hnc].
  destruct (perform_refines e x a Hr Hl) as (x' & _ & Hr'). pose proof (rf_wf _ _ Hr) as Hw. cbn [foldl]. destruct a as [q A bs w]. cbn [r_queue r_disk] in *.
  destruct e as [pid c| |c|c bf]; cbn [spec] in *; cbn [interrupts] in Hlt.
  - apply (IH x' _ k Hr' Hls); [|done|done]. by apply lookup_app_l_Some.
  - destruct q as [|c q]; [done|]. destruct (wf_request _ _ _ Hw c) as (bf & Eb & _); [apply elem_of_cons; by left|].
    rewrite (rf_bufs _ _ Hr) in Eb. cbn [r_bufs] in Eb. rewrite Eb in *. destruct k as [|k].
    + injection Hk as ->. apply stays_out_run; [|done]. cbn [r_queue]. pose proof (wf_nodup _ _ _ Hw) as Hnd. by apply NoDup_cons in Hnd as [? _].
    + apply (IH x' _ k Hr' Hls); [exact Hk|lia|done].
  - apply (IH x' _ k Hr' Hls); [by case_bool_decide|done|done].
  - apply (IH x' _ k Hr' Hls); done.
Qed.
End events.

(** * A simulated controller: both drives are there, the status is busy for two reads after a command to read or the data of a write, sector 99 is bad *)
Module Sim.
Definition zero_sector : block := replicate 512 0.
Record sim := mk_sim { regs : Z → Z; cmd : Z; busy : nat; sectors : Z → Z → block }.
Definition drv (d : sim) : Z := Z.land (Z.shiftr (regs d 0x1f6) 4) 1.
Definition adr (d : sim) : Z := regs d 0x1f3 + 256 * regs d 0x1f4 + 65536 * regs d 0x1f5 + 16777216 * Z.land (regs d 0x1f6) 15.
Definition bad_sector (a x : Z) : bool := x =? 99.
Definition status (d : sim) : Z :=
  match busy d with
  | S _ => 0x80
  | O => if (cmd d =? 0x20) && bad_sector (drv d) (adr d) then 0x41 else 0x40
  end.
#[export] Instance sim_device : Device sim := {
  inb p d := if p =? 0x1f7 then (status d, mk_sim (regs d) (cmd d) (pred (busy d)) (sectors d)) else (0, d);
  outb p v d := if p =? 0x1f7 then mk_sim (regs d) v (if v =? IDE_CMD_WRITE then 0 else 2) (sectors d) else mk_sim (λ q, if q =? p then v else regs d q) (cmd d) (busy d) (sectors d);
  insl d := (sectors d (drv d) (adr d), d);
  outsl data d := mk_sim (regs d) (cmd d) 2 (write_block (sectors d) (drv d) (adr d) data);
  present a := (a =? 0) || (a =? 1);
  bad := bad_sector;
  media := sectors; reg := regs; command := cmd; delay := busy }.

Lemma drive_present (d : sim) : present (drive d) = true.
Proof.
  assert (∀ x, Z.land x 1 = 0 ∨ Z.land x 1 = 1) as H1 by (intros x; rewrite (Z.land_ones x 1 ltac:(lia) : Z.land x 1 = _); change (2 ^ 1) with 2; zlia).
  unfold drive. by destruct (H1 (Z.shiftr (reg d 0x1f6) 4)) as [->| ->].
Qed.
#[export] Instance sim_controller : Controller sim.
Proof.
  split.
  - done.
  - intros d. by split.
  - intros d. by rewrite drive_present.
  - intros d _. cbn. unfold status. destruct (busy d); [|by split_and!]. by destruct ((cmd d =? 32) && bad_sector (drv d) (adr d)).
  - intros d _ Hd Hc. cbn in *. unfold status. rewrite Hd, Hc. cbn. change (drive d) with (drv d). change (lba d) with (adr d). by destruct (bad_sector _ _).
  - intros p v d Hp Hd. cbn. assert (p =? 0x1f7 = false) as ->; [|done]. apply Z.eqb_neq. intros ->. rewrite !elem_of_cons, elem_of_nil in Hp. naive_solver.
  - intros v d _. cbn. split_and!; try done. by intros ->.
  - intros d _ _ _. done.
  - intros data d _ Hc. cbn in *. by split_and!.
Qed.
Definition sim0 : sim := mk_sim (λ _, 0) 0 2 (λ _ _, zero_sector).
End Sim.
Import Sim.

(** * Properties *)

Lemma refines_from_boot `{Controller D} (bs : list buf) (d : D) (es : list event) :
  present (drive d) = true → let a := mk_requests [] (media d) bs ∅ in legal_run es a →
  ∃ s x, ideinit (boot bs d) = Ok tt s ∧ run_events es (s, ∅) = Some x ∧ refines x (foldl (λ a e, spec e a) a es).
Proof.
  intros Hp a Hl. destruct (ideinit_ok bs d Hp) as (d' & E & Hp' & Hm). set (s := mk_ide false None (λ _, None) (present 1) bs ∅ d') in *.
  assert (Hr : refines (s, ∅) a).
  { split; cbn; try done; [split; cbn; try done; [constructor|by intros b ?%not_elem_of_nil]|by intros b ?%not_elem_of_nil]. }
  destruct (run_refines es _ a Hr Hl) as (x & Ex & Hx). by exists s, x.
Qed.

(** C10: The driver is a queue: from start-up, whatever the order in which processes call [iderw], the disk
    interrupts (also when it has nothing to report, or too early) and processes are scheduled (also without a reason), the
    driver never panics and the requests are carried out whole, one at an interrupt, in the order of the calls.  A write puts its data
    on the drive, a read takes what the writes before it left, and a call returns just when its request has been
    served.  In each state the drives hold what the specification [ideal] says, apart from the data of a write at the head of the queue that
    is already there ([wf_disk]).  The drives are such that no request is for a bad sector ([healthy_run]): see [read_error_lost] for these. *)
Theorem ide_refines `{Controller D} (bs : list buf) (d : D) (es : list event) :
  present (drive d) = true → let a := mk_requests [] (media d) bs ∅ in healthy_run es a →
  ∃ s x, ideinit (boot bs d) = Ok tt s ∧ run_events es (s, ∅) = Some x ∧ refines x (foldl (λ a e, ideal e a) a es).
Proof.
  intros Hp a Hh. destruct (healthy_spec es a) as [Hl <-]; [by intros b ?%not_elem_of_nil|exact Hh|]. by apply refines_from_boot.
Qed.

(** A write of block 7 by process 1 and a read of it by process 2. *)
Definition demo_bufs : list buf :=
  [mk_buf B_DIRTY 1 7 (mk_sleeplock true 1) 1 0 0 [65; 66; 67]; mk_buf 0 1 7 (mk_sleeplock true 2) 1 0 0 []].
Definition demo_events : list event := [Interrupt; Call 1 0; Call 2 1; Interrupt; Run 0; Run 1; Interrupt; Run 1].
Definition demo_requests : requests := mk_requests [] (media sim0) demo_bufs ∅.

(** The read gets what the write wrote. *)
Example demo_read :
  match ideinit (boot demo_bufs sim0) with
  | Ok _ s => match run_events demo_events (s, ∅) with Some (s, w) => Some (b_data <$> dbufs s, elements w) | None => None end
  | _ => None end = Some ([[65; 66; 67]; [65; 66; 67]], []).
Proof. vm_compute. reflexivity. Qed.

Lemma demo_healthy : healthy_run demo_events demo_requests.
Proof.
  assert (H0 : request (D:=sim) (mk_buf B_DIRTY 1 7 (mk_sleeplock true 1) 1 0 0 [65; 66; 67])) by (split; [done|by vm_compute|done]).
  assert (H1 : request (D:=sim) (mk_buf 0 1 7 (mk_sleeplock true 2) 1 0 0 [])) by (split; [done|by vm_compute|done]).
  cbn [demo_events healthy_run legal healthy]. split_and!; try done; try by_decide;
    first [eexists; split_and!; first [reflexivity|eassumption|by right|idtac]|intros bf [= <-]; reflexivity].
Qed.
Lemma demo_legal : legal_run demo_events demo_requests.
Proof. refine (proj1 (healthy_spec demo_events demo_requests _ demo_healthy)). by intros b ?%not_elem_of_nil. Qed.

Lemma ide_refines_witness :
  ∃ s x, ideinit (boot demo_bufs sim0) = Ok tt s ∧ run_events demo_events (s, ∅) = Some x
    ∧ refines x (foldl (λ a e, ideal e a) demo_requests demo_events)
    ∧ b_data <$> r_bufs (foldl (λ a e, ideal e a) demo_requests demo_events) = [[65; 66; 67]; [65; 66; 67]].
Proof.
  destruct (ide_refines demo_bufs sim0 demo_events) as (s & x & E1 & E2 & Hr); [reflexivity|exact demo_healthy|].
  exists s, x. split; [exact E1|]. split; [exact E2|]. split; [exact Hr|]. vm_compute. reflexivity.
Defined.

(** C11: No request waits for ever and no wakeup is lost: with [k] requests before it in the queue, a request
    has been served, and its process does not sleep, once the disk has interrupted [k + 1] times, whatever else happens in between. *)
Theorem ide_served `{Controller D} (es : list event) (x : ide D * gset nat) (a : requests) (b k : nat) :
  refines x a → legal_run es a → r_queue a !! k = Some b → (k < interrupts es)%nat → Forall (λ e, ¬ calls b e) es →
  ∃ x', run_events es x = Some x' ∧ b ∉ asleep (fst x') ∧ b ∉ r_queue (foldl (λ a e, spec e a) a es).
Proof.
  intros Hr Hl Hk Hlt Hnc. pose proof (leaves_queue es x a b k Hr Hl Hk Hlt Hnc) as Hout.
  destruct (run_refines es x a Hr Hl) as (x' & E & Hr'). exists x'. split_and!; [done| |done].
  intros Hin. by apply Hout, (wf_asleep _ _ _ (rf_wf _ _ Hr')).
Qed.

(** The state with both requests in the queue. *)
Lemma demo_both : ∃ x, refines x (foldl (λ a e, spec e a) demo_requests (take 3 demo_events)).
Proof.
  destruct (refines_from_boot demo_bufs sim0 (take 3 demo_events)) as (s & x & _ & _ & Hx); [done| |by exists x].
  pose proof demo_legal as Hl. cbn [demo_events take legal_run] in *. tauto.
Qed.
Lemma ide_served_witness :
  ∃ x x', run_events [Interrupt; Run 0; Interrupt] x = Some x' ∧ (1%nat ∉ asleep (fst x'))
    ∧ 1%nat ∉ r_queue (foldl (λ a e, spec e a) (foldl (λ a e, spec e a) demo_requests (take 3 demo_events)) [Interrupt; Run 0; Interrupt]).
Proof.
  destruct demo_both as [x Hx]. exists x.
  apply (ide_served [Interrupt; Run 0; Interrupt] x _ 1 1 Hx); [|reflexivity|cbn; lia|repeat constructor; intros []].
  pose proof demo_legal as Hl. cbn [demo_events take legal_run] in *. tauto.
Defined.

(** [ideintr] marks the buffer valid also when the drive reports an error: the process gets the old contents of the buffer for those
    of the bad sector 99. *)
Definition bad_read : list buf := [mk_buf 0 1 99 (mk_sleeplock true 1) 1 0 0 [1; 2; 3]].
Lemma read_error_lost :
  match ideinit (boot bad_read sim0) with
  | Ok _ s => match run_events [Call 1 0; Interrupt; Run 0] (s, ∅) with
              | Some (s, w) => Some ((λ bf, (b_flags bf, b_data bf)) <$> dbufs s, elements w) | None => None end
  | _ => None end = Some ([(B_VALID, [1; 2; 3])], []).
Proof. vm_compute. reflexivity. Qed.
