(* ===== verification/Boot.v ===== *)
(** The boot loader [bootmain.c]: it reads the kernel's ELF image from the disk into memory.

    The disk controller is the parameter of the disk driver (Ide.v), with the laws of its task file.  The loader polls
    it, one sector at a time. *)
From S2P Require Import Exec.
From S2P Require Export CString Ide.
Open Scope Z_scope.

Definition SECTSIZE : Z := 512.

(** The machine as the boot block finds it: memory, and the disk controller. *)
Record machine (D : Type) := mk_machine { ram : gmap Z Z; bdev : D }.
Arguments mk_machine {D}. Arguments ram {D}. Arguments bdev {D}.
#[export] Instance upd_machine {D} : Updatable (machine D) := λ r, mk_machine (ram r) (bdev r).

Section code.
Context {D} `{Device D}.
Abbreviation B := (M (machine D)).

Definition port_in (port : Z) : B Z := λ s, let '(r, d) := inb port (bdev s) in Ok r (s <| bdev := d |>).
Definition port_out (port v : Z) : B unit := modify (λ s, s <| bdev ::= outb port (u8 v) |>).
Definition port_insl (dst : Z) : B unit := λ s, let '(b, d) := insl (bdev s) in Ok tt (mk_machine (st_range (ram s) dst b) d).

Definition waitdisk : B unit :=
  s ← get;
  iterM (S (delay (bdev s))) (λ _ : unit, r ← port_in 0x1f7; mret (if negb (Z.land r 0xc0 =? 0x40) then inl tt else inr tt)) tt.

Definition readsect (dst offset : Z) : B unit :=
  waitdisk;;
  port_out 0x1f2 1;;
  port_out 0x1f3 offset;;
  port_out 0x1f4 (Z.shiftr offset 8);;
  port_out 0x1f5 (Z.shiftr offset 16);;
  port_out 0x1f6 (Z.lor (Z.shiftr offset 24) 0xe0);;
  port_out 0x1f7 0x20;;
  waitdisk;;
  port_insl dst.

Definition readseg (pa count offset : Z) : B unit :=
  let epa := u32 (pa + count) in
  let pa := u32 (pa - offset mod SECTSIZE) in
  let offset := offset / SECTSIZE + 1 in
  iterM (Z.to_nat (count / SECTSIZE) + 3) (λ '(pa, offset),
    if pa <? epa then
      readsect pa offset;;
      mret (inl (u32 (pa + SECTSIZE), u32 (offset + 1)))
    else mret (inr tt)) (pa, offset).

(** One turn of the loop over the program headers. *)
Definition load_header (ph : Z) : B unit :=
  m ← gets ram;
  let pa := ld32 m (ph + 12) in
  readseg pa (ld32 m (ph + 16)) (ld32 m (ph + 4));;
  m ← gets ram;
  let filesz := ld32 m (ph + 16) in
  let memsz := ld32 m (ph + 20) in
  if filesz <? memsz then modify (λ s, s <| ram := stosb m (u32 (pa + filesz)) 0 (Z.to_nat (memsz - filesz)) |>) else mret tt.

(** The kernel's entry point, or [None] when the loader returns to [bootasm.S]. *)
Definition bootmain : B (option Z) :=
  let elf := 0x10000 in
  readseg elf 4096 0;;
  m ← gets ram;
  if negb (ld32 m elf =? ELF_MAGIC) then mret None else
  let ph := u32 (elf + ld32 m (elf + 28)) in
  let eph := u32 (ph + PROGHDR_SIZE * ld16 m (elf + 44)) in
  iterM (S (Z.to_nat (ld16 m (elf + 44)))) (λ ph,
    if ph <? eph then load_header ph;; mret (inl (u32 (ph + PROGHDR_SIZE)))
    else mret (inr tt)) ph;;
  m ← gets ram;
  mret (Some (ld32 m (elf + 24))).
End code.

(** * The disk and the file on it *)

(** Byte [x] of the file that starts at sector 1. *)
Definition file_byte (A : Z → block) (x : Z) : Z := u8 (A (1 + x / SECTSIZE) !!! Z.to_nat (x mod SECTSIZE)).

(** ** The program headers *)

Definition half_at (f : Z → Z) (o : Z) : Z := f o + 256 * f (o + 1).
Definition word_at (f : Z → Z) (o : Z) : Z := f o + 256 * f (o + 1) + 65536 * f (o + 2) + 16777216 * f (o + 3).

Record segment := mk_segment { sg_pa : Z; sg_off : Z; sg_filesz : Z; sg_memsz : Z }.
Definition segment_at (f : Z → Z) (o : Z) : segment := mk_segment (word_at f (o + 12)) (word_at f (o + 4)) (word_at f (o + 16)) (word_at f (o + 20)).
Definition segments (f : Z → Z) : list segment := (λ i, segment_at f (word_at f 28 + 32 * Z.of_nat i)) <$> seq 0 (Z.to_nat (half_at f 44)).

(** The first address that [readseg] writes, and how many sectors it reads. *)
Definition seg_lo (pa off : Z) : Z := pa - off mod SECTSIZE.
Definition seg_sectors (count off : Z) : Z := (off mod SECTSIZE + count + 511) / SECTSIZE.

(** The memory that loading a segment touches, the end of what it should hold, and byte [k] of that. *)
Definition sg_lo (g : segment) : Z := seg_lo (sg_pa g) (sg_off g).
Definition sg_hi (g : segment) : Z := Z.max (sg_lo g + SECTSIZE * seg_sectors (sg_filesz g) (sg_off g)) (sg_pa g + sg_memsz g).
Definition sg_size (g : segment) : Z := Z.max (sg_filesz g) (sg_memsz g).
Definition sg_byte (f : Z → Z) (g : segment) (k : Z) : Z := if k <? sg_filesz g then f (sg_off g + k) else 0.

(** An image that can be loaded: the headers are in the first page; no segment touches the page they are read into, or the end of the
    address space; and each one touches no memory of those before it. *)
Record loadable (f : Z → Z) : Prop := {
  lb_magic : word_at f 0 = ELF_MAGIC;
  lb_headers : word_at f 28 + 32 * half_at f 44 ≤ 4096;
  lb_place g : g ∈ segments f → 0 ≤ sg_lo g ∧ sg_hi g < 4294967296 ∧ (sg_hi g ≤ 0x10000 ∨ 0x11000 ≤ sg_lo g);
  lb_order i j g h : (i < j)%nat → segments f !! i = Some g → segments f !! j = Some h → sg_pa g + sg_size g ≤ sg_lo h }.

Section loader.
Context {D} `{Controller D} (A : Z → block) (nsec : Z).
Implicit Types (s : machine D) (d : D).

(** The controller and the first [nsec] sectors of its drive are in order. *)
Record readable : Prop := {
  rd_few : nsec ≤ 268435456;
  rd_sector x : 1 ≤ x < nsec → bad 0 x = false ∧ length (A x) = 512%nat }.
Record disk_ok d : Prop := {
  do_present : present (drive d) = true;
  do_media x : media d 0 x = A x }.
Context (Hrd : readable).

Definition with_bdev s d : machine D := mk_machine (ram s) d.
Lemma port_in_ok p s : port_in p s = Ok (fst (inb p (bdev s))) (with_bdev s (snd (inb p (bdev s)))).
Proof. unfold port_in. destruct s. cbn. by destruct (inb p bdev0). Qed.
Lemma port_out_ok p v s : port_out p v s = Ok tt (with_bdev s (outb p (u8 v) (bdev s))).
Proof. by destruct s. Qed.

Lemma poll_disk n s :
  delay (bdev s) = n → present (drive (bdev s)) = true →
  ∃ d', iterM (S n) (λ _ : unit, r ← port_in 0x1f7; mret (if negb (Z.land r 0xc0 =? 0x40) then inl tt else inr tt)) tt s = Ok tt (with_bdev s d')
  ∧ quiet (bdev s) d' ∧ delay d' = 0%nat.
Proof.
  revert s. induction n as [|n IH]; intros s Hn Hp; destruct (c_ready _ Hp) as (Hr & Hd & _); rewrite Hn in Hr, Hd; pose proof (c_quiet (bdev s)) as Hq;
    change (ready ?r) with (Z.land r 0xc0 =? 0x40) in Hr.
  - exists (snd (inb 0x1f7 (bdev s))). split_and!; [|done|done]. erewrite iterM_inr; [done|]. mstep_with (port_in_ok 0x1f7 s). by rewrite Hr.
  - destruct (IH (with_bdev s (snd (inb 0x1f7 (bdev s))))) as (d' & E & Hq' & Hd'); [by cbn|cbn; by rewrite (quiet_drive _ _ Hq)|].
    exists d'. split_and!; [|by etransitivity|done]. erewrite iterM_inl; [exact E|]. mstep_with (port_in_ok 0x1f7 s). by rewrite Hr.
Qed.

Lemma waitdisk_ok s : present (drive (bdev s)) = true →
  ∃ d', waitdisk s = Ok tt (with_bdev s d') ∧ quiet (bdev s) d' ∧ delay d' = 0%nat.
Proof. intros Hp. destruct (poll_disk _ s eq_refl Hp) as (d' & E & ?). exists d'. split; [|done]. unfold waitdisk. by rewrite bind_get. Qed.

Lemma head_bits x : 0 ≤ x < 16 → let v := u8 (Z.lor x 0xe0) in Z.land (Z.shiftr v 4) 1 = 0 ∧ Z.land v 15 = x.
Proof. intros Hx. rewrite Z.lor_comm. apply (head_byte 0 x ltac:(lia) Hx). Qed.

Lemma readsect_ok dst x s :
  disk_ok (bdev s) → 1 ≤ x < nsec → ∃ d', readsect dst x s = Ok tt (mk_machine (st_range (ram s) dst (A x)) d') ∧ disk_ok d'.
Proof.
  intros [Hp HA] Hx. destruct Hrd as [Hfew Hsec]. destruct (Hsec x Hx) as [Hbad _]. destruct (waitdisk_ok s Hp) as (d0 & E0 & Hq & Hd0).
  set (regs := [(0x1f2, 1); (0x1f3, u8 x); (0x1f4, u8 (Z.shiftr x 8)); (0x1f5, u8 (Z.shiftr x 16)); (0x1f6, u8 (Z.lor (Z.shiftr x 24) 0xe0))]).
  destruct (set_regs_ok regs d0 Hd0) as (R & Md & Hd1).
  { repeat constructor; cbn [fst]; rewrite !elem_of_cons; tauto. }
  set (d1 := set_regs regs d0) in *. destruct (c_command IDE_CMD_READ d1 Hd1) as (R2 & M2 & C2 & _). set (d2 := outb 0x1f7 IDE_CMD_READ d1) in *.
  assert (drive d2 = 0 ∧ lba d2 = x) as [Hdr Hlba].
  { assert (0 ≤ Z.shiftr x 24 < 16) as Hs by (rewrite Z.shiftr_div_pow2 by lia; zlia).
    unfold drive, lba. rewrite !R2, !R. cbn [regs look Z.eqb Pos.eqb]. destruct (head_bits _ Hs) as [-> ->]. split; [done|].
    rewrite !Z.shiftr_div_pow2 by lia. unfold u8. change (2 ^ 8) with 256. change (2 ^ 16) with 65536. change (2 ^ 24) with 16777216. zlia. }
  destruct (waitdisk_ok (with_bdev s d2)) as (d3 & E3 & Hq3 & Hd3); [cbn; rewrite Hdr; apply c_boot|]. cbn [with_bdev bdev] in Hq3.
  destruct (c_insl d3 Hd3) as (Ed & Er & Em).
  { by rewrite (qu_command _ _ Hq3). }
  { by rewrite (quiet_drive _ _ Hq3), (quiet_lba _ _ Hq3), Hdr, Hlba. }
  assert (HM : ∀ y, media d3 0 y = A y) by (intros y; by rewrite (qu_media _ _ Hq3), M2, Md, (qu_media _ _ Hq)).
  exists (snd (insl d3)). split.
  - unfold readsect. mstep_with E0. do 6 (rewrite (bind_ok _ _ _ _ _ (port_out_ok _ _ _)); cbv beta). mstep_with E3.
    unfold port_insl. cbn [with_bdev bdev]. destruct (insl d3) as [b d4] eqn:Ei. cbn [fst] in Ed.
    by rewrite Ed, (quiet_drive _ _ Hq3), (quiet_lba _ _ Hq3), Hdr, Hlba, HM.
  - split; [|intros y; by rewrite Em]. unfold drive. rewrite Er. fold (drive d3). rewrite (quiet_drive _ _ Hq3), Hdr. apply c_boot.
Qed.

(** ** [readseg] *)

(** The bytes of [n] sectors at [lo]. *)
Definition covers (lo n b : Z) : Prop := lo ≤ b < lo + SECTSIZE * n.
#[export] Instance covers_dec lo n b : Decision (covers lo n b).
Proof. unfold covers. apply _. Defined.

Lemma readseg_ok pa count off s :
  disk_ok (bdev s) → 0 ≤ off → 0 ≤ count → let lo := seg_lo pa off in let n := seg_sectors count off in
  0 ≤ lo → lo + SECTSIZE * n < 4294967296 → off / SECTSIZE + n < nsec →
  ∃ m' d', readseg pa count off s = Ok tt (mk_machine m' d') ∧ disk_ok d'
    ∧ ∀ b, ld m' b = if decide (covers lo n b) then file_byte A (off + (b - pa)) else ld (ram s) b.
Proof.
  intros Hd Hoff Hcount lo n Hlo Hhi Hns. pose proof (rd_few Hrd) as Hfew. set (r := off mod SECTSIZE) in *.
  assert (Hr : 0 ≤ r < 512) by (apply Z.mod_pos_bound; done). assert (Hpa : pa = lo + r) by (unfold lo, seg_lo, r; lia).
  assert (Hn : r + count ≤ 512 * n < r + count + 512 ∧ 0 ≤ n) by (unfold n, seg_sectors; fold r; unfold SECTSIZE; zlia).
  assert (Hoq : off = 512 * (off / SECTSIZE) + r ∧ 0 ≤ off / SECTSIZE) by (unfold r, SECTSIZE; zlia). set (q := off / SECTSIZE) in *.
  unfold SECTSIZE in Hhi.
  pose (J := λ (k : Z) (x : Z * Z) (s' : machine D), x = (lo + 512 * k, q + 1 + k) ∧ 0 ≤ k ≤ n ∧ disk_ok (bdev s')
    ∧ ∀ b, ld (ram s') b = if decide (covers lo k b) then file_byte A (off + (b - pa)) else ld (ram s) b).
  assert (wp (readseg pa count off) s (λ _ s', disk_ok (bdev s') ∧ ∀ b, ld (ram s') b = if decide (covers lo n b) then file_byte A (off + (b - pa)) else ld (ram s) b)) as ([] & [m' d'] & E & Hd' & Hm)%wp_elim.
  2:{ by exists m', d'. }
  unfold readseg. fold r q. assert (u32 (pa - r) = lo) as -> by (rewrite u32_small; lia). assert (u32 (pa + count) = pa + count) as -> by (apply u32_small; lia).
  apply (wp_iterM (λ fuel x s', ∃ k, J k x s' ∧ n - k < Z.of_nat fuel)).
  - exists 0. split; [|unfold SECTSIZE in *; zlia]. split_and!; [f_equal; lia|lia|lia|done|]. intros b. rewrite decide_False; [done|]. unfold covers. lia.
  - intros x s' (k & (_ & ? & _) & ?). lia.
  - intros fuel x s' (k & (-> & Hk & Hd' & Hm) & Hf). destruct (Z.ltb_spec (lo + 512 * k) (pa + count)) as [Hlt|Hge].
    + assert (k < n) by lia. destruct (readsect_ok (lo + 512 * k) (q + 1 + k) s' Hd') as (d2 & E2 & Hd2); [lia|].
      apply wp_bind. eapply wp_intro; [exact E2|]. apply wp_ret. exists (k + 1). split; [|lia]. split_and!; [|lia|lia|done|].
      * unfold SECTSIZE. rewrite !u32_small by lia. f_equal; lia.
      * intros b. cbn [ram]. rewrite ld_st_range. destruct (rd_sector Hrd (q + 1 + k)) as [_ ->]; [lia|]. change (Z.of_nat 512) with 512. rewrite Hm.
        unfold covers, SECTSIZE. destruct (decide (lo + 512 * k ≤ b < _)) as [Hin|Hout].
        -- rewrite decide_True by lia. unfold file_byte, SECTSIZE. assert ((off + (b - pa)) / 512 = q + k ∧ (off + (b - pa)) mod 512 = b - (lo + 512 * k)) as [-> ->] by zlia.
           by replace (1 + (q + k)) with (q + 1 + k) by lia.
        -- by destruct (decide (lo ≤ b < lo + 512 * k)); [rewrite decide_True by lia|rewrite decide_False by lia].
    + apply wp_ret. assert (k = n) as -> by lia. done.
Qed.

(** ** The loop over the program headers *)

Abbreviation F := (file_byte A).

(** The first page of the file is in the scratch space. *)
Definition scratch (m : gmap Z Z) : Prop := ∀ k, 0 ≤ k < 4096 → ld m (0x10000 + k) = F k.
Lemma scratch_word m o : scratch m → 0 ≤ o → o + 4 ≤ 4096 → ld32 m (0x10000 + o) = word_at F o.
Proof. intros Hs Hlo Hhi. unfold ld32, word_at. rewrite <-!Z.add_assoc, !Hs by lia. done. Qed.
Lemma scratch_half m o : scratch m → 0 ≤ o → o + 2 ≤ 4096 → ld16 m (0x10000 + o) = half_at F o.
Proof. intros Hs Hlo Hhi. unfold ld16, half_at. rewrite <-!Z.add_assoc, !Hs by lia. done. Qed.
Lemma scratch_ext m m' : scratch m → (∀ b, 0x10000 ≤ b < 0x11000 → ld m' b = ld m b) → scratch m'.
Proof. intros Hs E k Hk. rewrite E by lia. by apply Hs. Qed.

Lemma F_bound k : 0 ≤ F k < 256.
Proof. apply u8_bound. Qed.
Lemma word_bound o : 0 ≤ word_at F o < 4294967296.
Proof. unfold word_at. pose proof (F_bound o). pose proof (F_bound (o + 1)). pose proof (F_bound (o + 2)). pose proof (F_bound (o + 3)). lia. Qed.
Lemma half_bound o : 0 ≤ half_at F o < 65536.
Proof. unfold half_at. pose proof (F_bound o). pose proof (F_bound (o + 1)). lia. Qed.

Lemma load_header_ok o s : let g := segment_at F o in
  disk_ok (bdev s) → scratch (ram s) → 0 ≤ o → o + 32 ≤ 4096 →
  0 ≤ sg_lo g → sg_hi g < 4294967296 → sg_hi g ≤ 0x10000 ∨ 0x11000 ≤ sg_lo g → sg_off g / SECTSIZE + seg_sectors (sg_filesz g) (sg_off g) < nsec →
  ∃ m' d', load_header (0x10000 + o) s = Ok tt (mk_machine m' d') ∧ disk_ok d'
    ∧ (∀ k, 0 ≤ k < sg_size g → ld m' (sg_pa g + k) = sg_byte F g k) ∧ (∀ b, ¬ sg_lo g ≤ b < sg_hi g → ld m' b = ld (ram s) b).
Proof.
  intros g Hd Hs Ho1 Ho2 Hlo Hhi Hout Hns.
  assert (Hw : ∀ m, scratch m → ld32 m (0x10000 + o + 12) = sg_pa g ∧ ld32 m (0x10000 + o + 16) = sg_filesz g
    ∧ ld32 m (0x10000 + o + 20) = sg_memsz g ∧ ld32 m (0x10000 + o + 4) = sg_off g).
  { intros m Hm. rewrite <-!Z.add_assoc, !scratch_word by (done || lia). done. }
  destruct (Hw _ Hs) as (E1 & E2 & _ & E4).
  assert (Hb : 0 ≤ sg_pa g ∧ 0 ≤ sg_off g ∧ 0 ≤ sg_filesz g ∧ 0 ≤ sg_memsz g < 4294967296) by (split_and!; apply word_bound).
  assert (Hl : sg_pa g - 512 < sg_lo g ≤ sg_pa g ∧ sg_pa g + sg_filesz g ≤ sg_lo g + 512 * seg_sectors (sg_filesz g) (sg_off g)) by (unfold sg_lo, seg_lo, seg_sectors, SECTSIZE; zlia).
  assert (Hh : sg_lo g + 512 * seg_sectors (sg_filesz g) (sg_off g) ≤ sg_hi g ∧ sg_pa g + sg_memsz g ≤ sg_hi g) by (unfold sg_hi, SECTSIZE; lia).
  destruct (readseg_ok (sg_pa g) (sg_filesz g) (sg_off g) s Hd) as (m1 & d1 & E & Hd1 & Hm1); [lia..|by fold (sg_lo g)|fold (sg_lo g); unfold SECTSIZE; lia|done|].
  fold (sg_lo g) in Hm1. set (n := seg_sectors _ _) in *.
  assert (Hs1 : scratch m1). { apply (scratch_ext (ram s)); [done|]. intros b Hb1. rewrite Hm1, decide_False; [done|]. unfold covers, SECTSIZE. lia. }
  destruct (Hw _ Hs1) as (_ & E2' & E3' & _).
  unfold load_header. rewrite bind_gets, E1, E2, E4. mstep_with E. rewrite bind_gets. cbn [ram]. rewrite E2', E3'.
  assert (Hseg : ∀ k, 0 ≤ k < sg_filesz g → ld m1 (sg_pa g + k) = F (sg_off g + k)).
  { intros k Hk. rewrite Hm1, decide_True by (unfold covers, SECTSIZE; lia). f_equal. lia. }
  destruct (Z.ltb_spec (sg_filesz g) (sg_memsz g)) as [Hlt|Hge].
  - rewrite u32_small by lia. eexists _, d1. split; [reflexivity|]. cbn [ram]. split_and!; [done| |].
    + intros k Hk. unfold sg_byte, sg_size in *. rewrite ld_stosb. destruct (Z.ltb_spec k (sg_filesz g)).
      * rewrite decide_False by lia. apply Hseg. lia.
      * by rewrite decide_True by lia.
    + intros b Hb1. rewrite ld_stosb, decide_False by lia. rewrite Hm1, decide_False; [done|]. unfold covers, SECTSIZE. lia.
  - exists m1, d1. split_and!; [done|done| |].
    + intros k Hk. unfold sg_byte, sg_size in *. rewrite (proj2 (Z.ltb_lt k (sg_filesz g))) by lia. apply Hseg. lia.
    + intros b Hb1. rewrite Hm1, decide_False; [done|]. unfold covers, SECTSIZE. lia.
Qed.

(** The segments, by the offsets of their headers. *)
Lemma segments_lookup i : (i < Z.to_nat (half_at F 44))%nat → segments F !! i = Some (segment_at F (word_at F 28 + 32 * Z.of_nat i)).
Proof. intros Hi. unfold segments. rewrite list_lookup_fmap, lookup_seq_lt by done. done. Qed.

(** [m] has segment [g], and where no segment has been loaded, what was in [m0]. *)
Definition has_segment (m : gmap Z Z) (g : segment) : Prop := ∀ k, 0 ≤ k < sg_size g → ld m (sg_pa g + k) = sg_byte F g k.
Definition outside (b : Z) : Prop := ¬ 0x10000 ≤ b < 0x11000 ∧ ∀ g, g ∈ segments F → ¬ sg_lo g ≤ b < sg_hi g.
Record loaded (m0 : gmap Z Z) (i : nat) (m : gmap Z Z) : Prop := {
  ld_scratch : scratch m;
  ld_segments j g : (j < i)%nat → segments F !! j = Some g → has_segment m g;
  ld_other b : outside b → ld m b = ld m0 b }.

Context (Hdisk : 8 < nsec).

Lemma bootmain_head s : disk_ok (bdev s) → ∃ m1 d1, readseg 0x10000 4096 0 s = Ok tt (mk_machine m1 d1) ∧ disk_ok d1 ∧ scratch m1
  ∧ ∀ b, ¬ 0x10000 ≤ b < 0x11000 → ld m1 b = ld (ram s) b.
Proof.
  intros Hd. destruct (readseg_ok 0x10000 4096 0 s Hd) as (m1 & d1 & E1 & Hd1 & Hm1); [done..|change (8 < nsec); lia|].
  change (seg_lo 0x10000 0) with 0x10000 in Hm1. change (seg_sectors 4096 0) with 8 in Hm1. exists m1, d1. split_and!; [done..| |].
  - intros k Hk. rewrite Hm1, decide_True by (unfold covers, SECTSIZE; lia). f_equal. lia.
  - intros b Hb. rewrite Hm1, decide_False; [done|]. unfold covers, SECTSIZE. lia.
Qed.

Lemma bootmain_not_elf s : disk_ok (bdev s) → word_at F 0 ≠ ELF_MAGIC →
  ∃ m d, bootmain s = Ok None (mk_machine m d) ∧ ∀ b, ¬ 0x10000 ≤ b < 0x11000 → ld m b = ld (ram s) b.
Proof.
  intros Hd Hm. destruct (bootmain_head s Hd) as (m1 & d1 & E1 & _ & Hs1 & Ho). exists m1, d1. split; [|done].
  unfold bootmain. mstep_with E1. rewrite bind_gets. cbn [ram]. assert (ld32 m1 0x10000 = word_at F 0) as -> by (by apply (scratch_word m1 0)).
  by rewrite (proj2 (Z.eqb_neq _ _) Hm).
Qed.

Context (Hld : loadable F) (Hend : ∀ g, g ∈ segments F → sg_off g / SECTSIZE + seg_sectors (sg_filesz g) (sg_off g) < nsec).

Lemma loaded_step m0 i s : (i < Z.to_nat (half_at F 44))%nat → disk_ok (bdev s) → loaded m0 i (ram s) →
  ∃ m' d', load_header (0x10000 + (word_at F 28 + 32 * Z.of_nat i)) s = Ok tt (mk_machine m' d') ∧ disk_ok d' ∧ loaded m0 (S i) m'.
Proof.
  intros Hi Hd [Hs Hsg Ho]. pose proof (half_bound 44) as Hhb. pose proof (word_bound 28) as Hwb. pose proof (lb_headers _ Hld) as Hhd.
  pose proof (segments_lookup i Hi) as Hg. set (o := word_at F 28 + 32 * Z.of_nat i) in *. set (g := segment_at F o) in *.
  assert (Hin : g ∈ segments F) by (by eapply list_elem_of_lookup_2). destruct (lb_place _ Hld g Hin) as (Hlo & Hhi & Hout).
  destruct (load_header_ok o s Hd Hs) as (m' & d' & E & Hd' & Hnew & Hold); [lia|lia|done|done|done|by apply Hend|]. fold g in Hnew, Hold.
  exists m', d'. split_and!; [done|done|]. split.
  - apply (scratch_ext (ram s)); [done|]. intros b Hb. apply Hold. lia.
  - intros j h Hj Hh. destruct (decide (j = i)) as [->|Hne]; [rewrite Hg in Hh; by injection Hh as <-|].
    intros k Hk. pose proof (lb_order _ Hld j i h g ltac:(lia) Hh Hg). rewrite Hold by lia. by apply (Hsg j h); [lia|..].
  - intros b Hb. rewrite Hold; [by apply Ho|]. by apply Hb.
Qed.

Lemma bootmain_run s : disk_ok (bdev s) →
  ∃ m' d', bootmain s = Ok (Some (word_at F 24)) (mk_machine m' d') ∧ disk_ok d' ∧ (∀ g, g ∈ segments F → has_segment m' g) ∧ (∀ b, outside b → ld m' b = ld (ram s) b).
Proof.
  intros Hd. pose proof (half_bound 44) as Hhb. pose proof (word_bound 28) as Hwb. pose proof (lb_headers _ Hld) as Hhd.
  destruct (bootmain_head s Hd) as (m1 & d1 & E1 & Hd1 & Hsc & Ho1).
  assert (H1s : loaded (ram s) 0 m1) by (split; [done|intros; lia|intros b [Hb _]; by apply Ho1]).
  pose proof (ld_scratch _ _ _ H1s) as Hs1. unfold bootmain. mstep_with E1. rewrite bind_gets. cbn [ram].
  assert (ld32 m1 0x10000 = ELF_MAGIC) as -> by (rewrite <-(lb_magic _ Hld); by apply (scratch_word m1 0)). change (negb (ELF_MAGIC =? ELF_MAGIC)) with false. cbv iota.
  rewrite (scratch_word m1 28), (scratch_half m1 44) by (done || lia). set (n := half_at F 44) in *.
  rewrite (u32_small (0x10000 + word_at F 28)) by lia. set (ph0 := 0x10000 + word_at F 28) in *. unfold PROGHDR_SIZE. rewrite (u32_small (ph0 + 32 * n)) by lia.
  assert (wp (iterM (S (Z.to_nat n)) (λ ph, if ph <? ph0 + 32 * n then load_header ph;; mret (inl (u32 (ph + 32))) else mret (inr tt)) ph0) (mk_machine m1 d1)
    (λ _ s', disk_ok (bdev s') ∧ loaded (ram s) (Z.to_nat n) (ram s'))) as ([] & [m2 d2] & E2 & Hd2 & Hl2)%wp_elim.
  { apply (wp_iterM (λ fuel ph s', ∃ i, ph = ph0 + 32 * Z.of_nat i ∧ Z.of_nat i + Z.of_nat fuel = n + 1 ∧ disk_ok (bdev s') ∧ loaded (ram s) i (ram s') ∧ Z.of_nat i ≤ n)).
    - exists 0%nat. split_and!; [lia|lia|done|done|lia].
    - intros ph s' (i & _ & ? & _ & _ & ?). lia.
    - intros fuel ph s' (i & -> & Hi & Hd' & Hl' & Hin). destruct (Z.ltb_spec (ph0 + 32 * Z.of_nat i) (ph0 + 32 * n)).
      + destruct (loaded_step (ram s) i s') as (m' & d' & E & Hd2 & Hl2); [lia|done|done|]. apply wp_bind.
        replace (ph0 + 32 * Z.of_nat i) with (0x10000 + (word_at F 28 + 32 * Z.of_nat i)) by lia. eapply wp_intro; [exact E|]. apply wp_ret.
        exists (S i). rewrite u32_small by lia. split_and!; [lia|lia|done|done|lia].
      + apply wp_ret. by replace (Z.to_nat n) with i by lia. }
  mstep_with E2. rewrite bind_gets. cbn [ram]. rewrite (scratch_word m2 24) by (apply Hl2 || lia). exists m2, d2. split_and!; [done|done| |apply Hl2].
  intros g (j & Hj)%list_elem_of_lookup_1. apply (ld_segments _ _ _ Hl2 j); [|done]. apply lookup_lt_Some in Hj. unfold segments in Hj. by rewrite length_fmap, length_seq in Hj.
Qed.
End loader.

(** * Two images *)
Import Sim.

(** An image of three sectors with two program headers, on the simulated controller. *)
Definition elf_image (segs : list segment) (body : list Z) : list Z :=
  le32 ELF_MAGIC ++ replicate 20 0 ++ le32 0x10000c ++ le32 52 ++ replicate 12 0 ++ le16 (Z.of_nat (length segs)) ++ replicate 6 0
  ++ mjoin ((λ g, le32 1 ++ le32 (sg_off g) ++ le32 (sg_pa g) ++ le32 (sg_pa g) ++ le32 (sg_filesz g) ++ le32 (sg_memsz g) ++ le32 0 ++ le32 0) <$> segs)
  ++ body.
Definition image_sectors (img : list Z) (x : Z) : block :=
  let b := take 512 (drop (Z.to_nat (512 * (x - 1))) img) in b ++ replicate (512 - length b) 0.
Definition image_machine (img : list Z) : machine sim := mk_machine ∅ (mk_sim (λ _, 0) 0 2 (λ _, image_sectors img)).

(** Code at 1 MB, data with a part to be cleared in the next page. *)
Definition good_segments : list segment := [mk_segment 0x100000 512 16 16; mk_segment 0x101010 528 8 20].
Definition good_image : list Z := let h := elf_image good_segments [] in h ++ replicate (512 - length h) 0 ++ ((λ i, Z.of_nat i + 65) <$> seq 0 24).

(** Two adjacent pieces of one page, in increasing order, from different sectors of the file. *)
Definition tight_segments : list segment := [mk_segment 0x100000 512 16 16; mk_segment 0x100010 1040 16 16].
Definition tight_image : list Z := let h := elf_image tight_segments [] in h ++ replicate (512 - length h) 0 ++ replicate 512 65 ++ replicate 512 66.

(** * Properties *)

(** C18: the boot loader puts the kernel into memory.  On a controller that is busy for any time after a command, and a disk without bad sectors in
    the part that holds the image, it returns nothing when the file that starts at sector 1 is no ELF file, having written only to its
    scratch page; otherwise every segment of the program headers is in memory at its physical address, with the bytes of the file and
    zeros up to its size in memory, whatever [readseg] copies besides; no memory outside the sectors it reads, the
    segments and the scratch page has changed, and it goes to the entry point of the ELF header.  This needs the segments to be laid out so that
    none starts, with the beginning of its first sector, below the end of an earlier one. *)
Theorem bootmain_correct `{Controller D} (A : Z → block) (nsec : Z) (s : machine D) : let f := file_byte A in
  readable A nsec → disk_ok A (bdev s) → 8 < nsec →
  (word_at f 0 ≠ ELF_MAGIC → ∃ m d, bootmain s = Ok None (mk_machine m d) ∧ ∀ b, ¬ 0x10000 ≤ b < 0x11000 → ld m b = ld (ram s) b) ∧
  (loadable f → (∀ g, g ∈ segments f → sg_off g / SECTSIZE + seg_sectors (sg_filesz g) (sg_off g) < nsec) →
   ∃ m d, bootmain s = Ok (Some (word_at f 24)) (mk_machine m d)
     ∧ (∀ g k, g ∈ segments f → 0 ≤ k < sg_size g → ld m (sg_pa g + k) = if k <? sg_filesz g then f (sg_off g + k) else 0)
     ∧ (∀ b, ¬ 0x10000 ≤ b < 0x11000 → (∀ g, g ∈ segments f → ¬ sg_lo g ≤ b < sg_hi g) → ld m b = ld (ram s) b)).
Proof.
  intros f Hrd Hd Hn. split.
  - intros Hm. destruct (bootmain_not_elf A nsec Hrd Hn s Hd Hm) as (m & d & E & Ho). by exists m, d.
  - intros Hl He. destruct (bootmain_run A nsec Hrd Hn Hl He s Hd) as (m & d & E & _ & Hs & Ho). exists m, d. split_and!; [done| |].
    + intros g k Hg Hk. by apply Hs.
    + intros b Hb Hg. by apply Ho.
Qed.

Lemma good_segments_are : segments (file_byte (image_sectors good_image)) = good_segments.
Proof. vm_compute. reflexivity. Qed.

Lemma good_in g : g ∈ good_segments → g = mk_segment 0x100000 512 16 16 ∨ g = mk_segment 0x101010 528 8 20.
Proof. unfold good_segments. rewrite !elem_of_cons, elem_of_nil. tauto. Qed.

Lemma good_loadable : loadable (file_byte (image_sectors good_image)).
Proof.
  split; [vm_compute; reflexivity|vm_compute; intros [=]| |]; rewrite good_segments_are.
  - intros g [->| ->]%good_in; vm_compute; (split; [intros [=]|split; [reflexivity|right; intros [=]]]).
  - intros i j g h Hij Hg Hh. destruct i as [|i]; [|apply lookup_lt_Some in Hh; cbn in Hh; lia]. injection Hg as <-.
    destruct j as [|[|j]]; [lia|injection Hh as <-; vm_compute; intros [=]|discriminate].
Qed.

Lemma good_readable : readable (D := sim) (image_sectors good_image) 99.
Proof.
  split; [lia|]. intros x Hx. split; [apply Z.eqb_neq; lia|]. unfold image_sectors. generalize (drop (Z.to_nat (512 * (x - 1))) good_image). intros l.
  rewrite length_app, length_replicate, length_take. lia.
Qed.

(** The image with two pages is loaded. *)
Lemma bootmain_correct_witness :
  ∃ m d, bootmain (image_machine good_image) = Ok (Some 0x10000c) (mk_machine m d)
    ∧ (∀ k, 0 ≤ k < 8 → ld m (0x101010 + k) = file_byte (image_sectors good_image) (528 + k)) ∧ ∀ k, 8 ≤ k < 20 → ld m (0x101010 + k) = 0.
Proof.
  destruct (bootmain_correct (image_sectors good_image) 99 (image_machine good_image) good_readable) as [_ Hb].
  - split; [vm_compute; reflexivity|]. intros x. reflexivity.
  - reflexivity.
  - destruct (Hb good_loadable) as (m & d & E & Hg & _).
    + rewrite good_segments_are. intros g [->| ->]%good_in; vm_compute; reflexivity.
    + rewrite good_segments_are in Hg. exists m, d. split; [exact E|]. clear E Hb. pose (g := mk_segment 0x101010 528 8 20).
      assert (Hin : g ∈ good_segments) by (apply elem_of_cons; right; apply elem_of_cons; left; reflexivity).
      assert (Hgk : ∀ k, 0 ≤ k < 20 → ld m (0x101010 + k) = if k <? 8 then file_byte (image_sectors good_image) (528 + k) else 0) by (intros k Hk; exact (Hg g k Hin Hk)).
      split; intros k Hk; rewrite Hgk by lia.
      * rewrite (proj2 (Z.ltb_lt k 8)) by lia. reflexivity.
      * rewrite (proj2 (Z.ltb_ge k 8)) by lia. reflexivity.
Defined.

(** The comment on [readseg] says that it does not matter that more is written than asked, since segments are loaded in increasing order.  Here
    they are in increasing order and apart, in memory and in the file, and the second one overwrites the first. *)
Theorem boot_order_not_enough :
  let f := file_byte (image_sectors tight_image) in
  segments f = tight_segments ∧ word_at f 0 = ELF_MAGIC
  ∧ match bootmain (image_machine tight_image) with
    | Ok (Some _) s => ld (ram s) 0x100000 ≠ f 512
    | _ => False
    end.
Proof. vm_compute. by split_and!. Qed.
