(* ===== verification/Mp.v ===== *)
(** Finding the processors: the tables of the MultiProcessor specification that [mp.c] reads at start-up.

    The tables are in the memory [m], which the code only reads, at the kernel's addresses of physical memory; [port_value] is what a
    port returns.  The state is what the code finds out: the processors and the interrupt controllers, and the ports it writes. *)
From S2P Require Export Proc.
Open Scope Z_scope.

(** * mp.h *)
Definition MPPROC : Z := 0.
Definition MPBUS : Z := 1.
Definition MPIOAPIC : Z := 2.
Definition MPIOINTR : Z := 3.
Definition MPLINTR : Z := 4.
Definition MP_SIZE : Z := 16.
Definition MPCONF_SIZE : Z := 44.
Definition MPPROC_SIZE : Z := 20.
Definition MPIOAPIC_SIZE : Z := 8.

Definition NCPU : Z := 8.

Record mpstate := mk_mpstate { apicids : list Z; ncpu : Z; ioapicid : Z; lapic : Z; ports : list (Z * Z) }.
#[export] Instance upd_mpstate : Updatable mpstate := λ r, mk_mpstate (apicids r) (ncpu r) (ioapicid r) (lapic r) (ports r).

Section code.
Context (m : gmap Z Z) (port_value : Z → Z).

Definition sum (addr len : Z) : Z := u8 (foldl (λ acc i, i32 (acc + ld m (addr + i))) 0 (seqZ 0 len)).

(** [memcmp] with the four bytes of a string literal. *)
Definition signature (p : Z) (s : list Z) : bool := bool_decide (ld_range m p 4 = s).
Definition mp_sig : list Z := [95; 77; 80; 95].
Definition pcmp_sig : list Z := [80; 67; 77; 80].

(** A pointer to a [struct mp], or [None] for a null pointer. *)
Fixpoint mpsearch1_loop (fuel : nat) (p e : Z) : option Z :=
  match fuel with
  | O => None
  | S fuel =>
      if p <? e then
        if signature p mp_sig && (sum p MP_SIZE =? 0) then Some p
        else mpsearch1_loop fuel (u32 (p + MP_SIZE)) e
      else None
  end.
Definition mpsearch1 (a len : Z) : option Z :=
  let addr := P2V a in mpsearch1_loop (S (Z.to_nat (len / MP_SIZE))) addr (u32 (addr + len)).

Definition mpsearch : option Z :=
  let bda := P2V 0x400 in
  let p := Z.shiftl (Z.lor (Z.shiftl (ld m (bda + 0x0F)) 8) (ld m (bda + 0x0E))) 4 in
  let o :=
    if negb (p =? 0) then mpsearch1 p 1024
    else
      let p := Z.lor (Z.shiftl (ld m (bda + 0x14)) 8) (ld m (bda + 0x13)) * 1024 in
      mpsearch1 (u32 (p - 1024)) 1024 in
  match o with Some mp => Some mp | None => mpsearch1 0xF0000 0x10000 end.

(** The configuration table, and the pointer to it. *)
Definition mpconfig : option (Z * Z) :=
  match mpsearch with
  | None => None
  | Some mp =>
      let physaddr := ld32 m (mp + 4) in
      if physaddr =? 0 then None else
      let conf := P2V physaddr in
      if negb (signature conf pcmp_sig) then None else
      let version := ld m (conf + 6) in
      if negb (version =? 1) && negb (version =? 4) then None else
      if negb (sum conf (ld16 m (conf + 4)) =? 0) then None else
      Some (conf, mp)
  end.

(** One turn of the loop over the entries; [ismp] is a local variable. *)
Definition mp_entry (e : Z) (x : Z * bool) : M mpstate ((Z * bool) + bool) :=
  let '(p, ismp) := x in
  if p <? e then
    let t := ld m p in
    if t =? MPPROC then
      s ← get;
      (if ncpu s <? NCPU then
         modify (λ s, s <| apicids ::= <[Z.to_nat (ncpu s) := ld m (p + 1)]> |>);;
         modify (λ s, s <| ncpu ::= λ n, n + 1 |>)
       else mret tt);;
      mret (inl (u32 (p + MPPROC_SIZE), ismp))
    else if t =? MPIOAPIC then
      modify (λ s, s <| ioapicid := ld m (p + 1) |>);;
      mret (inl (u32 (p + MPIOAPIC_SIZE), ismp))
    else if (t =? MPBUS) || (t =? MPIOINTR) || (t =? MPLINTR) then mret (inl (u32 (p + 8), ismp))
    else mret (inl (p, false))
  else mret (inr ismp).
Definition mp_entries (fuel : nat) (p e : Z) : M mpstate bool := iterM fuel (mp_entry e) (p, true).

Definition port_write (port v : Z) : M mpstate unit := modify (λ s, s <| ports ::= λ l, l ++ [(port, u8 v)] |>).

Definition mpinit (fuel : nat) : M mpstate unit :=
  match mpconfig with
  | None => panic "Expect to run on an SMP"
  | Some (conf, mp) =>
      modify (λ s, s <| lapic := ld32 m (conf + 36) |>);;
      ismp ← mp_entries fuel (u32 (conf + MPCONF_SIZE)) (u32 (conf + ld16 m (conf + 4)));
      if negb ismp then panic "Didn't find a suitable machine" else
      if negb (ld m (mp + 12) =? 0) then
        port_write 0x22 0x70;;
        port_write 0x23 (Z.lor (port_value 0x23) 1)
      else mret tt
  end.
End code.

(** * The search *)

Definition mp_valid (m : gmap Z Z) (p : Z) : bool := signature m p mp_sig && (sum m p MP_SIZE =? 0).

(** The addresses that are looked at: every sixteenth byte of an area. *)
Definition places (addr len : Z) : list Z := (λ k, addr + MP_SIZE * k) <$> seqZ 0 (len / MP_SIZE).

Lemma mpsearch1_loop_ok m n : ∀ k addr e, 0 ≤ k → 0 ≤ addr → addr + MP_SIZE * (k + Z.of_nat n) < 4294967296 → e = addr + MP_SIZE * (k + Z.of_nat n) →
  mpsearch1_loop m (S n) (addr + MP_SIZE * k) e = snd <$> list_find (mp_valid m) ((λ k, addr + MP_SIZE * k) <$> seqZ k (Z.of_nat n)).
Proof.
  assert (Hstep : ∀ n p e, mpsearch1_loop m (S n) p e = if p <? e then if mp_valid m p then Some p else mpsearch1_loop m n (u32 (p + MP_SIZE)) e else None) by done.
  induction n as [|n IH]; intros k addr e Hk Ha Hb ->; rewrite Hstep; unfold MP_SIZE in *.
  - by rewrite (proj2 (Z.ltb_ge _ _)) by lia.
  - rewrite (proj2 (Z.ltb_lt _ _)) by lia. rewrite seqZ_cons by lia. cbn [fmap list_fmap list_find].
    destruct (mp_valid m (addr + 16 * k)) eqn:E; [by rewrite decide_True by done|]. rewrite decide_False by (intros []).
    rewrite u32_small by lia. replace (addr + 16 * k + 16) with (addr + 16 * (k + 1)) by lia. replace (Z.pred (Z.of_nat (S n))) with (Z.of_nat n) by lia.
    change (Z.succ k) with (k + 1). specialize (IH (k + 1) addr _ ltac:(lia) Ha ltac:(lia) eq_refl).
    replace (k + 1 + Z.of_nat n) with (k + Z.of_nat (S n)) in IH by lia. rewrite IH. by destruct (list_find _ _) as [[]|].
Qed.

Lemma mpsearch1_ok m a len : 0 ≤ P2V a → 0 ≤ len → len mod MP_SIZE = 0 → P2V a + len < 4294967296 →
  mpsearch1 m a len = snd <$> list_find (mp_valid m) (places (P2V a) len).
Proof.
  intros Ha Hl Hm Hb. unfold mpsearch1, places. rewrite u32_small by lia. unfold MP_SIZE in *.
  pose proof (mpsearch1_loop_ok m (Z.to_nat (len / 16)) 0 (P2V a) (P2V a + len)) as E. unfold MP_SIZE in E. rewrite Z.mul_0_r, !Z.add_0_r in E.
  rewrite E by zlia. by rewrite Z2Nat.id by zlia.
Qed.

(** * The entries *)

Inductive entry := EProc (apicid : Z) | EIoapic (apicno : Z) | EOther.

Section entries.
Context (m : gmap Z Z) (e : Z).

(** The entries from [p] to the end of the table. *)
Inductive table : Z → list entry → Prop :=
  | table_end p : e ≤ p → table p []
  | table_proc p es : p < e → ld m p = MPPROC → table (p + 20) es → table p (EProc (ld m (p + 1)) :: es)
  | table_ioapic p es : p < e → ld m p = MPIOAPIC → table (p + 8) es → table p (EIoapic (ld m (p + 1)) :: es)
  | table_other p es : p < e → ld m p ∈ [MPBUS; MPIOINTR; MPLINTR] → table (p + 8) es → table p (EOther :: es).

(** An entry of a type that the code does not know comes up. *)
Inductive unknown_entry : Z → Prop :=
  | unknown_here p : p < e → 4 < ld m p → unknown_entry p
  | unknown_later p : p < e → ld m p ≤ 4 → unknown_entry (p + (if ld m p =? MPPROC then 20 else 8)) → unknown_entry p.

Lemma type_cases p : ld m p = MPPROC ∨ ld m p = MPIOAPIC ∨ ld m p ∈ [MPBUS; MPIOINTR; MPLINTR] ∨ 4 < ld m p.
Proof. pose proof (ld_bound m p). rewrite !elem_of_cons, elem_of_nil. unfold MPPROC, MPIOAPIC, MPBUS, MPIOINTR, MPLINTR. lia. Qed.

Lemma table_or_unknown p : (∃ es, table p es) ∨ unknown_entry p.
Proof.
  remember (Z.to_nat (e - p)) as n eqn:Hn. revert p Hn. induction (lt_wf n) as [n _ IH]. intros p ->.
  destruct (Z.le_gt_cases e p) as [Hp|Hp]; [left; exists []; by constructor|].
  destruct (type_cases p) as [Ht|[Ht|[Ht|Ht]]]; [| | |right; by constructor].
  - destruct (IH (Z.to_nat (e - (p + 20))) ltac:(lia) (p + 20) eq_refl) as [[es He]|Hu]; [left; eexists; by apply table_proc|right; apply unknown_later; [done|by rewrite Ht|]].
    by rewrite Ht.
  - destruct (IH (Z.to_nat (e - (p + 8))) ltac:(lia) (p + 8) eq_refl) as [[es He]|Hu]; [left; eexists; by apply table_ioapic|right; apply unknown_later; [done|by rewrite Ht|]].
    by rewrite Ht.
  - destruct (IH (Z.to_nat (e - (p + 8))) ltac:(lia) (p + 8) eq_refl) as [[es He]|Hu]; [left; eexists; by apply table_other|right].
    rewrite !elem_of_cons, elem_of_nil in Ht. apply unknown_later; [done|destruct Ht as [->|[->|[->|[]]]]; done|].
    destruct Ht as [->|[->|[->|[]]]]; exact Hu.
Qed.

Lemma table_known p es : table p es → ¬ unknown_entry p.
Proof.
  induction 1 as [p Hp|p es Hp Ht _ IH|p es Hp Ht _ IH|p es Hp Ht _ IH]; inversion 1 as [q Hq Hu|q Hq Hk Hu]; subst; try lia.
  - rewrite Ht in Hu. unfold MPPROC in Hu. lia.
  - rewrite Ht in Hu. by apply IH.
  - rewrite Ht in Hu. unfold MPIOAPIC in Hu. lia.
  - rewrite Ht in Hu. by apply IH.
  - rewrite !elem_of_cons, elem_of_nil in Ht. unfold MPBUS, MPIOINTR, MPLINTR in Ht. lia.
  - rewrite !elem_of_cons, elem_of_nil in Ht. apply IH. destruct Ht as [Ht|[Ht|[Ht|[]]]]; by rewrite Ht in Hu.
Qed.

Lemma table_unique p es : table p es → ∀ es', table p es' → es = es'.
Proof.
  induction 1 as [p Hp|p es Hp Ht _ IH|p es Hp Ht _ IH|p es Hp Ht _ IH]; intros es' He; inversion He as [q Hq|q es2 Hq Hk He2|q es2 Hq Hk He2|q es2 Hq Hk He2]; subst;
    try lia; try (rewrite Ht in Hk; discriminate); try (by f_equal; apply IH);
    rewrite ?Hk, ?Ht in *; repeat match goal with E : _ ∈ [_; _; _] |- _ => rewrite !elem_of_cons, elem_of_nil in E; destruct E as [E|[E|[E|[]]]]; try discriminate E end.
Qed.

Lemma table_length p es : table p es → 8 * Z.of_nat (length es) ≤ Z.max 0 (e - p + 7).
Proof. induction 1; cbn [length]; lia. Qed.

Definition procs (es : list entry) : list Z := omap (λ x, match x with EProc id => Some id | _ => None end) es.
Definition ioapics (es : list entry) : list Z := omap (λ x, match x with EIoapic n => Some n | _ => None end) es.

(** The entries [es] have been read since [s]. *)
Record counted (s : mpstate) (es : list entry) (s' : mpstate) : Prop := {
  ct_ncpu : ncpu s' = Z.min NCPU (ncpu s + Z.of_nat (length (procs es)));
  ct_cpus : take (Z.to_nat (ncpu s')) (apicids s') = take (Z.to_nat NCPU) (take (Z.to_nat (ncpu s)) (apicids s) ++ procs es);
  ct_length : length (apicids s') = Z.to_nat NCPU;
  ct_ioapic : ioapicid s' = default (ioapicid s) (last (ioapics es));
  ct_other : lapic s' = lapic s ∧ ports s' = ports s }.

Lemma unknown_stuck p : unknown_entry p → e + 20 < 4294967296 → 0 ≤ p → ∀ s fuel, mp_entries m fuel p e s = Stuck.
Proof.
  assert (Hhere : ∀ q fuel b s, q < e → 4 < ld m q → iterM fuel (mp_entry m e) (q, b) s = Stuck).
  { intros q fuel. induction fuel as [|fuel IH]; intros b s Hq Ht; [done|]. erewrite iterM_inl; [by apply (IH false)|].
    unfold mp_entry. rewrite (proj2 (Z.ltb_lt q e)) by done. by rewrite !(proj2 (Z.eqb_neq (ld m q) _)) by (unfold MPPROC, MPIOAPIC, MPBUS, MPIOINTR, MPLINTR; lia). }
  induction 1 as [p Hp Ht|p Hp Ht _ IH]; intros He Hp0 s fuel; [by apply Hhere|]. unfold mp_entries. destruct fuel as [|fuel]; [done|].
  assert (Hn : ∃ s', mp_entry m e (p, true) s = Ok (inl (u32 (p + (if ld m p =? MPPROC then 20 else 8)), true)) s').
  { unfold mp_entry. rewrite (proj2 (Z.ltb_lt p e)) by done. cbv zeta. destruct (type_cases p) as [Et|[Et|[Et|Et]]]; [| | |lia].
    - rewrite Et. change (MPPROC =? MPPROC) with true. cbv iota. rewrite bind_get. destruct (ncpu s <? NCPU); by eexists.
    - rewrite Et. by eexists.
    - rewrite !elem_of_cons, elem_of_nil in Et. destruct Et as [->|[->|[->|[]]]]; by eexists. }
  destruct Hn as [s' Hn]. erewrite iterM_inl; [|exact Hn]. rewrite u32_small by (destruct (_ =? _); lia). apply IH; [done|]. destruct (_ =? _); lia.
Qed.

Lemma counted_skip s s1 es x : procs [x] = [] → ioapics [x] = [] → counted s es s1 → counted s (x :: es) s1.
Proof. intros Hp Hi [C1 C2 C3 C4 C5]. destruct x; try discriminate. by split. Qed.

Lemma counted_ioapic s s1 es n : counted (s <| ioapicid := n |>) es s1 → counted s (EIoapic n :: es) s1.
Proof. intros [C1 C2 C3 C4 C5]. split; [done..| |done]. rewrite C4. cbn [ioapics omap list_omap]. fold (ioapics es). rewrite list.last_cons. by destruct (last (ioapics es)). Qed.

Lemma counted_full s s1 es id : ncpu s = NCPU → length (apicids s) = Z.to_nat NCPU → counted s es s1 → counted s (EProc id :: es) s1.
Proof.
  intros Hn Hl [C1 C2 C3 C4 C5]. split; [rewrite C1; cbn [procs omap list_omap length]; lia| |done..].
  rewrite C2, Hn. by rewrite !take_app_length' by (rewrite length_take, Hl; lia).
Qed.

Lemma counted_proc s s1 es id : 0 ≤ ncpu s < NCPU → length (apicids s) = Z.to_nat NCPU →
  counted (s <| apicids ::= <[Z.to_nat (ncpu s) := id]> |> <| ncpu ::= λ n, n + 1 |>) es s1 → counted s (EProc id :: es) s1.
Proof.
  intros Hn Hl [C1 C2 C3 C4 C5]. split; [rewrite C1; unfold over; cbn [ncpu procs omap list_omap length]; fold (procs es); lia| |done..]. rewrite C2. f_equal. unfold over; cbn [apicids ncpu].
  replace (Z.to_nat (ncpu s + 1)) with (S (Z.to_nat (ncpu s))) by lia.
  rewrite (take_S_r _ _ id) by (apply list_lookup_insert_eq; lia). rewrite take_insert by lia. cbn [procs omap list_omap]. rewrite decide_False by lia. by rewrite <-app_assoc.
Qed.

Lemma entries_run p es : table p es → e + 20 < 4294967296 → 0 ≤ p → ∀ s fuel, (length es < fuel)%nat → 0 ≤ ncpu s ≤ NCPU → length (apicids s) = Z.to_nat NCPU →
  ∃ s', mp_entries m fuel p e s = Ok true s' ∧ counted s es s'.
Proof.
  intros Ht He. induction Ht as [p Hp|p es Hp Ht _ IH|p es Hp Ht _ IH|p es Hp Ht _ IH]; intros Hp0 s fuel Hf Hn Hl; (destruct fuel as [|fuel]; [lia|]).
  - exists s. split.
    + unfold mp_entries. erewrite iterM_inr; [done|]. unfold mp_entry. by rewrite (proj2 (Z.ltb_ge p e)).
    + split; [cbn; lia|cbn [procs omap list_omap]; rewrite app_nil_r, take_take, Nat.min_r by lia; done|done|done|done].
  - cbn [length] in Hf. set (s0 := if ncpu s <? NCPU then s <| apicids ::= <[Z.to_nat (ncpu s) := ld m (p + 1)]> |> <| ncpu ::= λ n, n + 1 |> else s).
    assert (E0 : mp_entry m e (p, true) s = Ok (inl (p + 20, true)) s0).
    { unfold mp_entry. rewrite (proj2 (Z.ltb_lt p e)) by done. rewrite Ht. change (MPPROC =? MPPROC) with true. cbv iota zeta. rewrite bind_get.
      unfold s0, MPPROC_SIZE. rewrite u32_small by lia. by destruct (ncpu s <? NCPU). }
    destruct (IH ltac:(lia) s0 fuel) as (s' & E & Hc); [lia|unfold s0; destruct (Z.ltb_spec (ncpu s) NCPU); unfold over; cbn; lia|
      unfold s0; destruct (_ <? _); unfold over; cbn; [by rewrite length_insert|done]|].
    exists s'. split; [unfold mp_entries; erewrite iterM_inl; [exact E|exact E0]|]. unfold s0 in Hc. destruct (Z.ltb_spec (ncpu s) NCPU).
    + apply counted_proc; [lia|done|exact Hc].
    + apply counted_full; [lia|done|exact Hc].
  - cbn [length] in Hf. destruct (IH ltac:(lia) (s <| ioapicid := ld m (p + 1) |>) fuel) as (s' & E & Hc); [lia|done|done|].
    exists s'. split; [|by apply counted_ioapic]. unfold mp_entries. erewrite iterM_inl; [exact E|].
    unfold mp_entry. rewrite (proj2 (Z.ltb_lt p e)) by done. rewrite Ht. unfold MPIOAPIC_SIZE. by rewrite (u32_small (p + 8)) by lia.
  - cbn [length] in Hf. destruct (IH ltac:(lia) s fuel) as (s' & E & Hc); [lia|done|done|].
    exists s'. split; [|by apply counted_skip]. unfold mp_entries. erewrite iterM_inl; [exact E|].
    unfold mp_entry. rewrite (proj2 (Z.ltb_lt p e)) by done. rewrite !elem_of_cons, elem_of_nil in Ht.
    destruct Ht as [->|[->|[->|[]]]]; by rewrite (u32_small (p + 8)) by lia.
Qed.
End entries.

(** * The tables as a whole *)

(** Where the floating pointer is looked for: the first kilobyte of the extended BIOS data area if the BIOS has one, or else the last kilobyte of base
    memory, and the ROM from 0xF0000 on. *)
Definition mp_area (m : gmap Z Z) : list Z :=
  let bda := P2V 0x400 in
  let ebda := 16 * ld16 m (bda + 0x0E) in
  let base := ld16 m (bda + 0x13) in
  places (P2V (if decide (ebda = 0) then u32 (base * 1024 - 1024) else ebda)) 1024 ++ places (P2V 0xF0000) 0x10000.

Lemma two_bytes a b : 0 ≤ a < 256 → 0 ≤ b < 256 → Z.lor (Z.shiftl a 8) b = b + 256 * a.
Proof.
  intros Ha Hb. rewrite Z.shiftl_mul_pow2 by lia. change (2 ^ 8) with 256.
  assert (Hd : Z.land (a * 256) b = 0).
  { rewrite <-(Z.mod_small b 256) by lia. change 256 with (2 ^ 8) at 2. rewrite <-Z.land_ones, (Z.land_comm b), Z.land_assoc, Z.land_ones by lia.
    change (2 ^ 8) with 256. by rewrite Z.mod_mul. }
  rewrite <-Z.lxor_lor by done. rewrite <-Z.add_nocarry_lxor by done. lia.
Qed.

Lemma find_first {X} (P : X → bool) (l k : list X) :
  snd <$> list_find P (l ++ k) = match snd <$> list_find P l with Some x => Some x | None => snd <$> list_find P k end.
Proof.
  induction l as [|x l IH]; cbn [app list_find]; [done|]. destruct (P x) eqn:E.
  - by rewrite !decide_True by done.
  - rewrite !decide_False by (intros []). clear -IH. destruct (list_find _ (l ++ k)) as [[]|], (list_find P l) as [[]|], (list_find P k) as [[]|]; done.
Qed.

Lemma mpsearch_run m : mpsearch m = snd <$> list_find (mp_valid m) (mp_area m).
Proof.
  assert (HP : ∀ a, 0 ≤ a < 67108864 → P2V a = a + KERNBASE) by (intros a Ha; unfold P2V, KERNBASE; rewrite u32_small; lia).
  assert (Hs : ∀ a len, 0 ≤ a < 67108864 → 0 ≤ len ≤ 65536 → len mod MP_SIZE = 0 → mpsearch1 m a len = snd <$> list_find (mp_valid m) (places (P2V a) len)).
  { intros a len Ha Hl Hm. apply mpsearch1_ok; [|lia|done|]; rewrite HP by lia; unfold KERNBASE; lia. }
  unfold mpsearch, mp_area, ld16. rewrite !two_bytes by apply ld_bound. rewrite Z.shiftl_mul_pow2, Z.mul_comm by lia. change (2 ^ 4) with 16.
  change (P2V 0x400 + 0x0E + 1) with (P2V 0x400 + 0x0F). change (P2V 0x400 + 0x13 + 1) with (P2V 0x400 + 0x14). rewrite find_first.
  pose proof (ld_bound m (P2V 0x400 + 0x0E)). pose proof (ld_bound m (P2V 0x400 + 0x0F)). pose proof (ld_bound m (P2V 0x400 + 0x13)). pose proof (ld_bound m (P2V 0x400 + 0x14)).
  set (ebda := 16 * _). assert (He : 0 ≤ ebda < 1048576) by lia. set (base := ld m (P2V 0x400 + 0x13) + _). assert (Hb : 0 ≤ base < 65536) by lia.
  rewrite (Hs 0xF0000 0x10000) by (done || lia). destruct (Z.eqb_spec ebda 0) as [->|Hne]; cbn [negb].
  - rewrite decide_True by done. destruct (decide (base = 0)) as [->|Hb0].
    + change (u32 (0 * 1024 - 1024)) with 4294966272. rewrite (mpsearch1_ok m 4294966272 1024) by (vm_compute; done || (intros [=])). done.
    + rewrite u32_small by lia. rewrite (Hs (base * 1024 - 1024) 1024) by (done || lia). done.
  - rewrite decide_False by done. rewrite (Hs ebda 1024) by (done || lia). done.
Qed.

(** ** What the code looks for *)

Definition total (m : gmap Z Z) (a : Z) (n : nat) : Z := foldr Z.add 0 (ld_range m a n).

(** A floating pointer at [p]: "_MP_", and a checksum. *)
Record mp_pointer (m : gmap Z Z) (p : Z) : Prop := {
  ptr_signature : ld_range m p 4 = [95; 77; 80; 95];
  ptr_checksum : total m p 16 mod 256 = 0 }.
Definition first_pointer (m : gmap Z Z) (p : Z) : Prop :=
  ∃ k, mp_area m !! k = Some p ∧ mp_pointer m p ∧ ∀ j q, (j < k)%nat → mp_area m !! j = Some q → ¬ mp_pointer m q.

(** The first floating pointer is [mp], and it points to the table [conf]: "PCMP", of a version that is known, and a checksum. *)
Record mp_tables (m : gmap Z Z) (conf mp : Z) : Prop := {
  tb_pointer : first_pointer m mp;
  tb_address : ld32 m (mp + 4) ≠ 0 ∧ conf = P2V (ld32 m (mp + 4));
  tb_signature : ld_range m conf 4 = [80; 67; 77; 80];
  tb_version : ld m (conf + 6) = 1 ∨ ld m (conf + 6) = 4;
  tb_checksum : total m conf (Z.to_nat (ld16 m (conf + 4))) mod 256 = 0 }.

Lemma sum_total m a n : sum m a n = total m a (Z.to_nat n) mod 256.
Proof.
  assert (Hgen : ∀ (f : Z → Z) l acc, u8 (foldl (λ acc i, i32 (acc + f i)) acc l) = (acc + foldr Z.add 0 (f <$> l)) mod 256).
  { intros f l. induction l as [|x l IH]; intros acc; cbn [foldl foldr fmap list_fmap]; [by rewrite Z.add_0_r|]. rewrite IH. unfold i32. zlia. }
  unfold sum, total, ld_range. rewrite (Hgen (λ i, ld m (a + i))), Z.add_0_l. do 2 f_equal. unfold seqZ. rewrite <-list_fmap_compose. apply list_fmap_ext.
  intros i x _. cbn. f_equal. lia.
Qed.

Lemma mp_valid_iff m p : mp_valid m p = true ↔ mp_pointer m p.
Proof.
  unfold mp_valid, signature. rewrite andb_true_iff, bool_decide_eq_true, Z.eqb_eq, sum_total. split; [intros [? ?]; by split|intros [? ?]; done].
Qed.

Lemma mpsearch_iff m p : mpsearch m = Some p ↔ first_pointer m p.
Proof.
  rewrite mpsearch_run. unfold first_pointer. split.
  - intros ([k q] & E & ->)%fmap_Some. apply list_find_Some in E as (Hk & Hv & Hb). exists k. split; [done|]. split; [by apply mp_valid_iff, Is_true_true|].
    intros j q' Hj Hq Hp. apply (Hb j q' Hq Hj). by apply Is_true_true, mp_valid_iff.
  - intros (k & Hk & Hp & Hb). apply fmap_Some. exists (k, p). split; [|done]. apply list_find_Some. split_and!; [done|by apply Is_true_true, mp_valid_iff|].
    intros j q Hq Hj Hv. apply (Hb j q Hj Hq). by apply mp_valid_iff, Is_true_true.
Qed.

Lemma mpconfig_iff m conf mp : mpconfig m = Some (conf, mp) ↔ mp_tables m conf mp.
Proof.
  unfold mpconfig. split.
  - destruct (mpsearch m) as [mp'|] eqn:Es; [|done]. destruct (Z.eqb_spec (ld32 m (mp' + 4)) 0) as [|Hp]; [done|].
    destruct (signature m _ pcmp_sig) eqn:Hs; cbn [negb]; [|done]. destruct (_ && _) eqn:Hv; [done|].
    destruct (Z.eqb_spec (sum m (P2V (ld32 m (mp' + 4))) (ld16 m (P2V (ld32 m (mp' + 4)) + 4))) 0) as [Hsum|]; cbn [negb]; [|done].
    intros [= <- <-]. rewrite sum_total in Hsum. apply bool_decide_eq_true in Hs. split; [by apply mpsearch_iff|done|done| |done].
    apply andb_false_iff in Hv as [Hv|Hv]; apply negb_false_iff, Z.eqb_eq in Hv; tauto.
  - intros [Hp [Ha ->] Hs Hv Hsum]. apply mpsearch_iff in Hp. rewrite Hp, (proj2 (Z.eqb_neq _ _) Ha).
    assert (signature m (P2V (ld32 m (mp + 4))) pcmp_sig = true) as -> by (by apply bool_decide_eq_true). cbn [negb].
    rewrite sum_total, Hsum. by destruct Hv as [->| ->].
Qed.

(** * Properties *)

(** What [mpinit] leaves when the entries of the table are [es]: the processors counted, at most [NCPU], their identifiers in order, the
    identifier of the last I/O interrupt controller, the address of the local one, and the mode of the old controller changed where the
    floating pointer asks for it. *)
Record machine_found (m : gmap Z Z) (port_value : Z → Z) (conf mp : Z) (es : list entry) (s s' : mpstate) : Prop := {
  mf_ncpu : ncpu s' = Z.min NCPU (Z.of_nat (length (procs es)));
  mf_apicids : take (Z.to_nat (ncpu s')) (apicids s') = take (Z.to_nat NCPU) (procs es);
  mf_ioapicid : ioapicid s' = default (ioapicid s) (last (ioapics es));
  mf_lapic : lapic s' = ld32 m (conf + 36);
  mf_ports : ports s' = ports s ++ (if decide (ld m (mp + 12) = 0) then [] else [(0x22, 0x70); (0x23, u8 (Z.lor (port_value 0x23) 1))]) }.

(** C36: start-up finds the processors.  When the first floating pointer of the MultiProcessor specification in the areas that are searched, with its
    signature and checksum, leads to a configuration table with signature, version and checksum, and all the entries of that table are of
    known types, the code has, at the end of them, counted the processors, at most [NCPU], with their identifiers in order, and knows the
    identifier of the last I/O interrupt controller (only the last one is kept) and the address of the local one.  When an
    entry is of another type it never returns: the panic that is written for this case cannot be reached, since the loop stays at the entry.
    Without such a table it panics. *)
Theorem mpinit_correct (m : gmap Z Z) (port_value : Z → Z) (s : mpstate) (fuel : nat) :
  ncpu s = 0 → length (apicids s) = Z.to_nat NCPU → 8200 ≤ Z.of_nat fuel →
  ((∀ conf mp, ¬ mp_tables m conf mp) → mpinit m port_value fuel s = Panic "Expect to run on an SMP")
  ∧ ∀ conf mp, mp_tables m conf mp → conf + 65600 < 4294967296 →
      let p := conf + MPCONF_SIZE in let e := conf + ld16 m (conf + 4) in
      (unknown_entry m e p ∧ ∀ n, mpinit m port_value n s = Stuck)
      ∨ ∃ es s', table m e p es ∧ mpinit m port_value fuel s = Ok tt s' ∧ machine_found m port_value conf mp es s s'.
Proof.
  intros Hn Hl Hf. split.
  - intros Hno. unfold mpinit. destruct (mpconfig m) as [[conf mp]|] eqn:E; [|done]. apply mpconfig_iff in E. by apply Hno in E.
  - intros conf mp Htb Hb. pose proof (proj2 (mpconfig_iff m conf mp) Htb) as E. destruct Htb as [_ [_ Hc] _ _ _]. unfold mpinit. rewrite E.
    pose proof (u32_bound (ld32 m (mp + 4) + KERNBASE)) as Hcb. fold (P2V (ld32 m (mp + 4))) in Hcb. rewrite <-Hc in Hcb.
    assert (Hlen : 0 ≤ ld16 m (conf + 4) < 65536) by (unfold ld16; pose proof (ld_bound m (conf + 4)); pose proof (ld_bound m (conf + 4 + 1)); lia).
    unfold MPCONF_SIZE. rewrite !u32_small by lia. set (e := conf + ld16 m (conf + 4)) in *. set (s0 := s <| lapic := ld32 m (conf + 36) |>).
    destruct (table_or_unknown m e (conf + 44)) as [[es Ht]|Hu].
    + right. pose proof (table_length m e _ _ Ht) as Hlt.
      destruct (entries_run m e _ _ Ht ltac:(lia) ltac:(lia) s0 fuel ltac:(lia)) as (s1 & E1 & [C1 C2 C3 C4 [C5 C6]]); [cbn; rewrite Hn; unfold NCPU; lia|done|].
      change (ncpu s0) with (ncpu s) in *. rewrite Hn in C1, C2. exists es. rewrite bind_modify. fold s0.
      destruct (Z.eqb_spec (ld m (mp + 12)) 0) as [E0|N0]; cbn [negb].
      * exists s1. split; [done|]. split; [by mstep_with E1|]. split; [done..|]. by rewrite decide_True, app_nil_r.
      * eexists. split; [done|]. split; [mstep_with E1; reflexivity|]. split; [done..|]. rewrite decide_False by done. cbn. rewrite C6. by rewrite <-app_assoc.
    + left. split; [done|]. intros n. rewrite bind_modify. unfold mbind at 1, M_bind. by rewrite (unknown_stuck m e _ Hu) by lia.
Qed.

(** Two processors, a bus and an I/O interrupt controller, in a table at physical address 0x9000 that the ROM points to. *)
Definition with_checksum (l : list Z) (at_ : nat) : list Z := <[at_ := u8 (- foldl Z.add 0 l)]> l.
Definition demo_mp : list Z := with_checksum (mp_sig ++ le32 0x9000 ++ [1; 4; 0; 0; 0; 0; 0; 0]) 10.
Definition demo_entries : list Z :=
  ([0; 7] ++ replicate 18 0) ++ ([0; 9] ++ replicate 18 0) ++ [1; 0; 0; 0; 0; 0; 0; 0] ++ [2; 5; 0; 0; 0; 0; 0; 0].
Definition demo_conf : list Z := with_checksum (pcmp_sig ++ le16 100 ++ [4; 0] ++ replicate 28 0 ++ le32 0xfee00000 ++ replicate 4 0 ++ demo_entries) 7.
Definition demo_tables : gmap Z Z := st_range (st_range ∅ (P2V 0xF0020) demo_mp) (P2V 0x9000) demo_conf.
Definition demo_mpstate : mpstate := mk_mpstate (replicate 8 0) 0 0 0 [].

Definition demo_found : list entry := [EProc 7; EProc 9; EOther; EIoapic 5].
Lemma demo_table : table demo_tables (P2V 0x9000 + 100) (P2V 0x9000 + 44) demo_found.
Proof.
  apply (table_proc demo_tables (P2V 0x9000 + 100) (P2V 0x9000 + 44)); [reflexivity|vm_compute; reflexivity|].
  apply (table_proc demo_tables (P2V 0x9000 + 100) (P2V 0x9000 + 64)); [reflexivity|vm_compute; reflexivity|].
  apply (table_other demo_tables (P2V 0x9000 + 100) (P2V 0x9000 + 84)); [reflexivity|apply elem_of_cons; left; vm_compute; reflexivity|].
  apply (table_ioapic demo_tables (P2V 0x9000 + 100) (P2V 0x9000 + 92)); [reflexivity|vm_compute; reflexivity|]. apply table_end. vm_compute. intros [=].
Qed.

Lemma demo_mp_tables : mp_tables demo_tables (P2V 0x9000) (P2V 0xF0020).
Proof. apply mpconfig_iff. vm_compute. reflexivity. Qed.

Lemma mpinit_correct_witness :
  (∃ s', mpinit demo_tables (λ _, 0) (Z.to_nat 8200) demo_mpstate = Ok tt s' ∧ ncpu s' = 2 ∧ take 2 (apicids s') = [7; 9] ∧ ioapicid s' = 5 ∧ lapic s' = 0xfee00000)
  ∧ mpinit ∅ (λ _, 0) (Z.to_nat 8200) demo_mpstate = Panic "Expect to run on an SMP".
Proof.
  assert (Hf : 8200 ≤ Z.of_nat (Z.to_nat 8200)) by (rewrite Z2Nat.id; lia). split.
  - assert (Hl : ld16 demo_tables (P2V 0x9000 + 4) = 100) by (vm_compute; reflexivity). assert (Ha : ld32 demo_tables (P2V 0x9000 + 36) = 0xfee00000) by (vm_compute; reflexivity).
    destruct (mpinit_correct demo_tables (λ _, 0) demo_mpstate (Z.to_nat 8200) eq_refl eq_refl Hf) as [_ Hm].
    specialize (Hm _ _ demo_mp_tables ltac:(reflexivity)). cbv zeta in Hm. rewrite Hl in Hm. clear Hl.
    destruct Hm as [[Hu _]|(es & s' & Hes & E & [H1 H2 H3 H4 _])]; [exfalso; exact (table_known _ _ _ _ demo_table Hu)|]. rewrite Ha in H4. clear Ha.
    pose proof (table_unique _ _ _ _ demo_table _ Hes) as Ees. rewrite <-Ees in H1, H2, H3. clear Ees Hes. change (ncpu s' = 2) in H1. rewrite H1 in H2.
    exists s'. split; [exact E|]. split; [exact H1|]. split; [exact H2|]. split; [exact H3|exact H4].
  - apply (mpinit_correct ∅ (λ _, 0) demo_mpstate (Z.to_nat 8200) eq_refl eq_refl Hf). intros conf mp Ht%mpconfig_iff.
    assert (E : mpconfig ∅ = None) by (vm_compute; reflexivity). rewrite E in Ht. discriminate Ht.
Defined.
