(* ===== verification/Cmos.v ===== *)
(** The time of day: [cmostime] of [lapic.c] reads the clock of the machine, one register at a time, while it runs.

    The clock is a parameter, the class [Clock] with the laws [Clock_laws], as the chip is documented: during the last [settling] accesses of a second
    it updates its registers, and a read of one then returns anything; before, a register shows the time. The chip reports an update, in status
    register A, from [window] accesses before the end of the second until that end, which leaves time to read all the registers after a report that
    none is near; and a second is longer than that by sixty accesses. *)
From S2P Require Export Prelude.

(** * date.h *)
Record rtcdate := mk_rtcdate { second : Z; minute : Z; hour : Z; day : Z; month : Z; year : Z }.
#[export] Instance upd_rtcdate : Updatable rtcdate := λ r, mk_rtcdate (second r) (minute r) (hour r) (day r) (month r) (year r).
#[export] Instance rtcdate_eq_dec : EqDecision rtcdate.
Proof. solve_decision. Defined.

Definition CMOS_PORT : Z := 0x70.
Definition CMOS_RETURN : Z := 0x71.
Definition CMOS_STATA : Z := 0x0a.
Definition CMOS_STATB : Z := 0x0b.
Definition CMOS_UIP : Z := Z.shiftl 1 7.
Definition SECS : Z := 0x00.
Definition MINS : Z := 0x02.
Definition HOURS : Z := 0x04.
Definition DAY : Z := 0x07.
Definition MONTH : Z := 0x08.
Definition YEAR : Z := 0x09.

(** [now] is the time in seconds, [left] the number of accesses before the second ends, [selected] the register that the next read returns;
    [calendar] turns a time into a date, [binary] says that the clock does not use decimal digits, [window] is how many accesses before the end of a
    second the clock begins to report an update, and [settling] how many accesses before that end its registers begin to change. *)
Class Clock (D : Type) := {
  clk_out : Z → Z → D → D;
  clk_in : Z → D → Z * D;
  now : D → Z;
  left : D → nat;
  selected : D → Z;
  calendar : Z → rtcdate;
  binary : bool;
  window : nat;
  settling : nat }.

Section code.
Context {D} `{Clock D}.

Definition cmos_in (port : Z) : M D Z := λ d, let '(v, d) := clk_in port d in Ok v d.
Definition cmos_read (reg : Z) : M D Z :=
  modify (clk_out CMOS_PORT reg);;
  cmos_in CMOS_RETURN.

Definition fill_rtcdate : M D rtcdate :=
  s ← cmos_read SECS;
  m ← cmos_read MINS;
  h ← cmos_read HOURS;
  d ← cmos_read DAY;
  mo ← cmos_read MONTH;
  y ← cmos_read YEAR;
  mret (mk_rtcdate s m h d mo y).

Definition CONV (x : Z) : Z := Z.shiftr x 4 * 10 + Z.land x 0xf.
Definition convert (t : rtcdate) : rtcdate :=
  mk_rtcdate (CONV (second t)) (CONV (minute t)) (CONV (hour t)) (CONV (day t)) (CONV (month t)) (CONV (year t)).

(** A turn of the loop, which goes on until two readings agree. *)
Definition cmos_turn : M D (unit + rtcdate) :=
  t1 ← fill_rtcdate;
  a ← cmos_read CMOS_STATA;
  if negb (Z.land a CMOS_UIP =? 0) then mret (inl tt) else
  t2 ← fill_rtcdate;
  if bool_decide (t1 = t2) then mret (inr t1) else mret (inl tt).

Definition cmostime (fuel : nat) : M D rtcdate :=
  sb ← cmos_read CMOS_STATB;
  let bcd := Z.land sb (Z.shiftl 1 2) =? 0 in
  t1 ← iterM fuel (λ _ : unit, cmos_turn) tt;
  let t1 := if bcd then convert t1 else t1 in
  mret (t1 <| year ::= λ y, y + 2000 |>).
End code.

(** * The clock *)

(** How a number is kept in a register. *)
Definition encode (binary : bool) (v : Z) : Z := if binary then v else 16 * (v / 10) + v mod 10.

(** After [k] accesses, at most sixty. *)
Definition passes `{Clock D} (k : nat) (d d' : D) : Prop :=
  ((k ≤ left d)%nat ∧ now d' = now d ∧ left d' = (left d - k)%nat)
  ∨ ((left d < k)%nat ∧ now d' = now d + 1 ∧ (window + 60 ≤ left d' + (k - left d - 1))%nat).

Definition small (v : Z) : Prop := 0 ≤ v < 100.
Record date_ok (r : rtcdate) : Prop := {
  dt_second : small (second r); dt_minute : small (minute r); dt_hour : small (hour r);
  dt_day : small (day r); dt_month : small (month r); dt_year : small (year r) }.

Class Clock_laws (D : Type) `{Clock D} := {
  clk_select r d : selected (clk_out CMOS_PORT r d) = r ∧ passes 1 d (clk_out CMOS_PORT r d);
  clk_access d : passes 1 d (snd (clk_in CMOS_RETURN d));
  clk_time d r f : (r, f) ∈ [(SECS, second); (MINS, minute); (HOURS, hour); (DAY, day); (MONTH, month); (YEAR, year)] →
    selected d = r → (settling < left d)%nat → fst (clk_in CMOS_RETURN d) = encode binary (f (calendar (now d)));
  clk_update d : selected d = CMOS_STATA → (Z.land (fst (clk_in CMOS_RETURN d)) CMOS_UIP = 0 ↔ (window < left d)%nat);
  clk_warning : (settling + 30 ≤ window)%nat;
  clk_mode d : selected d = CMOS_STATB → Z.land (fst (clk_in CMOS_RETURN d)) 4 = if binary then 4 else 0;
  clk_date t : date_ok (calendar t) }.

Lemma CONV_encode v : small v → CONV (encode false v) = v.
Proof.
  unfold small, CONV, encode. intros Hv. rewrite Z.shiftr_div_pow2 by lia. change 0xf with (Z.ones 4). rewrite Z.land_ones by lia. change (2 ^ 4) with 16. zlia.
Qed.

Section clock.
Context {D} `{Clock_laws D}.
Implicit Types d : D.

Lemma passes_trans j k d d1 d2 : passes j d d1 → passes k d1 d2 → (j + k ≤ 60)%nat → passes (j + k) d d2.
Proof. unfold passes. intros [(? & -> & E)|(? & -> & ?)] [(? & -> & ?)|(? & -> & ?)] ?; rewrite ?E in *; [left|right|right|]; lia. Qed.
Lemma passes_mono k d d' : passes k d d' → now d ≤ now d' ≤ now d + 1.
Proof. intros [(_ & -> & _)|(_ & -> & _)]; lia. Qed.

(** Reading a register of the date: at a time [t] on the way. *)
Lemma cmos_read_ok r d : ∃ v d1 d', cmos_read r d = Ok v d' ∧ passes 1 d d1 ∧ passes 1 d1 d' ∧ passes 2 d d' ∧ selected d1 = r ∧ v = fst (clk_in CMOS_RETURN d1).
Proof.
  unfold cmos_read. destruct (clk_select r d) as [Hs Hp]. set (d1 := clk_out CMOS_PORT r d) in *. pose proof (clk_access d1) as Hp2.
  exists (fst (clk_in CMOS_RETURN d1)), d1, (snd (clk_in CMOS_RETURN d1)). split_and!; try done.
  - rewrite bind_modify. fold d1. unfold cmos_in. by destruct (clk_in CMOS_RETURN d1).
  - by apply (passes_trans 1 1 d d1); [..|lia].
Qed.

(** What the registers show at time [t], and a reading of them all: it is that, if none of them changes meanwhile. *)
Definition shown (t : Z) : rtcdate :=
  let e := encode binary in let c := calendar t in
  mk_rtcdate (e (second c)) (e (minute c)) (e (hour c)) (e (day c)) (e (month c)) (e (year c)).

Lemma passes_within k d d' : passes k d d' → (k ≤ left d)%nat → now d' = now d ∧ left d' = (left d - k)%nat.
Proof. intros [(_ & ? & ?)|(? & _)] ?; [done|lia]. Qed.

Lemma read_field r f d : (r, f) ∈ [(SECS, second); (MINS, minute); (HOURS, hour); (DAY, day); (MONTH, month); (YEAR, year)] →
  ∃ v d', cmos_read r d = Ok v d' ∧ passes 2 d d' ∧ ((settling + 2 < left d)%nat → v = encode binary (f (calendar (now d)))).
Proof.
  intros Hin. destruct (cmos_read_ok r d) as (v & d1 & d' & E & P1 & P2 & P & Hs & ->). exists (fst (clk_in CMOS_RETURN d1)), d'.
  split_and!; [done|done|]. intros Hl. apply passes_within in P1 as [<- Hl1]; [|lia]. apply (clk_time d1 r f Hin Hs). lia.
Qed.

Lemma fill_ok d : ∃ x d', fill_rtcdate d = Ok x d' ∧ passes 12 d d' ∧ ((settling + 12 < left d)%nat → x = shown (now d)).
Proof.
  destruct (read_field SECS second d) as (vs & d1 & E1 & P1 & T1); [set_solver|]. destruct (read_field MINS minute d1) as (vm & d2 & E2 & P2 & T2); [set_solver|].
  destruct (read_field HOURS hour d2) as (vh & d3 & E3 & P3 & T3); [set_solver|]. destruct (read_field DAY day d3) as (vd & d4 & E4 & P4 & T4); [set_solver|].
  destruct (read_field MONTH month d4) as (vo & d5 & E5 & P5 & T5); [set_solver|]. destruct (read_field YEAR year d5) as (vy & d6 & E6 & P6 & T6); [set_solver|].
  assert (Q2 : passes 4 d d2) by (by apply (passes_trans 2 2 d d1); [..|lia]). assert (Q3 : passes 6 d d3) by (by apply (passes_trans 4 2 d d2); [..|lia]).
  assert (Q4 : passes 8 d d4) by (by apply (passes_trans 6 2 d d3); [..|lia]). assert (Q5 : passes 10 d d5) by (by apply (passes_trans 8 2 d d4); [..|lia]).
  assert (Q6 : passes 12 d d6) by (by apply (passes_trans 10 2 d d5); [..|lia]).
  exists (mk_rtcdate vs vm vh vd vo vy), d6. split_and!; [|done|].
  - unfold fill_rtcdate. mstep_with E1. mstep_with E2. mstep_with E3. mstep_with E4. mstep_with E5. mstep_with E6. done.
  - intros Hl. apply passes_within in P1 as [N1 L1], Q2 as [N2 L2], Q3 as [N3 L3], Q4 as [N4 L4], Q5 as [N5 L5]; [|lia..].
    rewrite N1 in T2. rewrite N2 in T3. rewrite N3 in T4. rewrite N4 in T5. rewrite N5 in T6.
    rewrite T1, T2, T3, T4, T5, T6 by lia. done.
Qed.

(** ** A turn of the loop *)

(** A turn that ends the loop has read the date of one instant; one that does not has seen a second end, or the report of an update. *)
Lemma turn_ok d : ∃ r k d', cmos_turn d = Ok r d' ∧ passes k d d' ∧ (k ≤ 26)%nat
  ∧ match r with
     | inl _ => (left d < k)%nat ∨ (k ≤ left d ≤ window + 13)%nat ∧ (left d' < left d)%nat
     | inr x => ∃ t, now d ≤ t ≤ now d' ∧ x = shown t
     end.
Proof.
  pose proof clk_warning as Hw. destruct (fill_ok d) as (x & d1 & E1 & P1 & T1).
  destruct (cmos_read_ok CMOS_STATA d1) as (a & da & d2 & E2 & Pa & Pb & P2 & Hs & Ea).
  assert (P12 : passes 14 d d2) by (by apply (passes_trans 12 2 d d1); [..|lia]). assert (P1a : passes 13 d da) by (by apply (passes_trans 12 1 d d1); [..|lia]).
  unfold cmos_turn. mstep_with E1. mstep_with E2. pose proof (clk_update da Hs) as Hu. rewrite <-Ea in Hu.
  destruct (Z.eqb_spec (Z.land a CMOS_UIP) 0) as [Hz|Hz]; cbn [negb].
  - destruct (fill_ok d2) as (y & d3 & E3 & P3 & T3). mstep_with E3. apply Hu in Hz.
    assert (P13 : passes 26 d d3) by (by apply (passes_trans 14 12 d d2); [..|lia]). destruct (passes_within 1 da d2 Pb) as [_ L2]; [lia|].
    specialize (T3 ltac:(lia)). pose proof (passes_mono _ _ _ P12). pose proof (passes_mono _ _ _ P3). destruct (decide (x = y)) as [Eq|Ne].
    + exists (inr x), 26%nat, d3. split_and!; [by rewrite bool_decide_true|done|lia|]. exists (now d2). split; [lia|by rewrite Eq].
    + exists (inl tt), 26%nat, d3. split_and!; [by rewrite bool_decide_false|done|lia|]. left.
      destruct (decide (left d < 26)%nat) as [|Hl]; [done|]. exfalso. apply Ne.
      destruct (passes_within 13 d da P1a) as [_ La]; [lia|]. destruct (passes_within 14 d d2 P12) as [N2 _]; [lia|]. rewrite T3, N2. apply T1. lia.
  - exists (inl tt), 14%nat, d2. split_and!; [done|done|lia|]. assert (Hl : (left da ≤ window)%nat) by (destruct (decide (window < left da)%nat); [tauto|lia]).
    destruct P1a as [(? & _ & ?)|(? & _)]; destruct P12 as [(? & _ & ?)|(? & _)]; lia.
Qed.

(** Early in a second a turn is enough, and there are at most [window] turns before the next one begins. *)
Definition reads_one (fuel : nat) d : Prop := ∃ t d', iterM fuel (λ _ : unit, cmos_turn) tt d = Ok (shown t) d' ∧ now d ≤ t ≤ now d'.
Lemma loop_early n d : (window + 26 ≤ left d)%nat → reads_one (S n) d.
Proof.
  intros Hl. destruct (turn_ok d) as (r & k & d1 & E & _ & Hk & Hr). destruct r as [[]|x]; [lia|]. destruct Hr as (t & Ht & ->).
  exists t, d1. split; [by erewrite iterM_inr; [|exact E]|done].
Qed.
Lemma loop_ok n d : (left d ≤ n)%nat → reads_one (S (S n)) d.
Proof.
  revert d. induction n as [|n IH]; intros d Hl; (destruct (turn_ok d) as ([[]|x] & k & d1 & E & P & Hk & Hr);
    [|destruct Hr as (t & Ht & ->); exists t, d1; split; [by erewrite iterM_inr; [|exact E]|done]]);
    pose proof (passes_mono _ _ _ P) as Hn; destruct Hr as [Hr|[Hr1 Hr2]]; try lia.
  - destruct P as [(? & _)|(_ & _ & Hl1)]; [lia|]. destruct (loop_early 0 d1) as (t & d' & E' & Ht); [lia|].
    exists t, d'. split; [by erewrite iterM_inl; [|exact E]|lia].
  - destruct P as [(? & _)|(_ & _ & Hl1)]; [lia|]. destruct (loop_early (S n) d1) as (t & d' & E' & Ht); [lia|].
    exists t, d'. split; [|lia]. by erewrite iterM_inl; [|exact E].
  - destruct (IH d1) as (t & d' & E' & Ht); [lia|]. exists t, d'. split; [|lia]. by erewrite iterM_inl; [|exact E].
Qed.

Lemma whole_date t : (if binary then shown t else convert (shown t)) = calendar t.
Proof.
  unfold shown, convert. cbn [second minute hour day month year]. destruct (clk_date t). destruct binary.
  - unfold encode. by destruct (calendar t).
  - rewrite !CONV_encode by done. by destruct (calendar t).
Qed.

Lemma cmostime_run d : ∃ t d', cmostime (window + 28) d = Ok ((calendar t) <| year ::= λ y, y + 2000 |>) d' ∧ now d ≤ t ≤ now d'.
Proof.
  destruct (cmos_read_ok CMOS_STATB d) as (b & db & d0 & E0 & _ & _ & P0 & Hs & Eb). pose proof (passes_mono _ _ _ P0) as Hn0.
  assert (Hmode : (Z.land b (Z.shiftl 1 2) =? 0) = negb binary) by (change (Z.shiftl 1 2) with 4; rewrite Eb, clk_mode by done; by destruct binary).
  assert (Hloop : reads_one (window + 28) d0).
  { destruct (decide (window + 26 ≤ left d0)%nat) as [Hl|Hl].
    - replace (window + 28)%nat with (S (window + 27)) by lia. by apply loop_early.
    - replace (window + 28)%nat with (S (S (window + 26))) by lia. apply loop_ok. lia. }
  destruct Hloop as (t & d' & E & Ht). exists t, d'. split; [|lia].
  unfold cmostime. mstep_with E0. rewrite Hmode. mstep_with E. rewrite <-(whole_date t). by destruct binary.
Qed.
End clock.

(** * A clock with decimal digits, in which a second is a hundred and fifty accesses; an update is reported during the last forty, and all registers
    read 255 during the last five *)
Module Sim_clock.
Record clock := mk_clock { c_now : Z; c_left : nat; c_sel : Z }.
Definition tick (d : clock) : clock := match c_left d with S n => mk_clock (c_now d) n (c_sel d) | O => mk_clock (c_now d + 1) 150 (c_sel d) end.
Definition date_at (t : Z) : rtcdate := mk_rtcdate (t mod 60) (t / 60 mod 60) (t / 3600 mod 24) 14 7 25.
Definition register (d : clock) : Z :=
  let e := encode false in let t := date_at (c_now d) in let r := c_sel d in
  if r =? CMOS_STATA then (if (c_left d <=? 40)%nat then 128 else 0) else if r =? CMOS_STATB then 0 else if (c_left d <=? 5)%nat then 255
  else if r =? SECS then e (second t) else if r =? MINS then e (minute t) else if r =? HOURS then e (hour t) else if r =? DAY then e (day t)
  else if r =? MONTH then e (month t) else if r =? YEAR then e (year t) else 0.
#[export] Instance sim_clock : Clock clock := {
  clk_out p v d := tick (mk_clock (c_now d) (c_left d) v);
  clk_in p d := (register d, tick d);
  now := c_now; left := c_left; selected := c_sel; calendar := date_at; binary := false; window := 40; settling := 5 }.

Lemma tick_passes v d : passes 1 d (tick (mk_clock (c_now d) (c_left d) v)).
Proof. unfold passes, tick. cbn. destruct (c_left d); cbn; [right|left]; lia. Qed.
#[export] Instance sim_clock_laws : Clock_laws clock.
Proof.
  split.
  - intros r d. split; [|apply tick_passes]. cbn. unfold tick. cbn. by destruct (c_left d).
  - intros d. cbn. destruct d as [t l s]. apply (tick_passes s (mk_clock t l s)).
  - intros d r f Hin Hs Hl. cbn in *. unfold register. rewrite Hs. rewrite !elem_of_cons, elem_of_nil in Hin.
    destruct (Nat.leb_spec (c_left d) 5); [lia|].
    destruct Hin as [[= -> ->]|[[= -> ->]|[[= -> ->]|[[= -> ->]|[[= -> ->]|[[= -> ->]|[]]]]]]]; done.
  - intros d Hs. cbn in *. unfold register. rewrite Hs. cbn. destruct (Nat.leb_spec (c_left d) 40); split; intros; solve [lia|discriminate|done].
  - cbn. lia.
  - intros d Hs. cbn in *. unfold register. by rewrite Hs.
  - intros t. split; unfold small; cbn; try lia; pose proof (Z.mod_pos_bound t 60); pose proof (Z.mod_pos_bound (t / 60) 60); pose proof (Z.mod_pos_bound (t / 3600) 24); lia.
Qed.
End Sim_clock.
Import Sim_clock.

(** * Properties *)

(** C39: [cmostime] returns the date of one instant between its start and its end, though it reads the registers one by one while the clock
    runs, the second may end while it does so, and a register that is read during an update returns anything: it compares two
    readings, and between them it looks at the bit that reports an update. The numbers may be in binary or in decimal digits; the loop ends, and it
    makes at most [window + 28] turns. *)
Theorem cmostime_correct `{Clock_laws D} (d : D) :
  ∃ t d', cmostime (window + 28) d = Ok ((calendar t) <| year ::= λ y, y + 2000 |>) d' ∧ now d ≤ t ≤ now d'.
Proof. apply cmostime_run. Qed.

(** An update is under way when the loop begins. *)
Lemma cmostime_correct_witness :
  ∃ t d', cmostime 68 (mk_clock 3599 6 0) = Ok ((date_at t) <| year ::= λ y, y + 2000 |>) d' ∧ 3599 ≤ t ≤ now d'.
Proof. exact (cmostime_correct (mk_clock 3599 6 0)). Defined.
